(* ===== verification/_CoqProject ===== *)
-Q . S2P
Prelude.v
Prog.v
Bio.v
AStore.v
BioFacts.v
BioRefine.v
Layout.v
Log.v
LStore.v
LogRecover.v
LogRefine.v
Storage.v
CString.v
State.v
FsLogic.v
SfsBlock.v
SfsInode.v
SfsFile.v
SfsDir.v
SfsDirSpec.v
FatBase.v
FatInode.v
FatSpec.v
FatAlloc.v
FatWrite.v
FatFile.v
FatEntry.v
FatDir.v
Vop.v
Vfs.v
Console.v
VopSpec.v
Tty.v
File.v
FileSpec.v
Sysfile.v
ProcFiles.v
SysTree.v
Mkfs.v
Demo.v
FatDemo.v
Kalloc.v
Vm.v
VmSpec.v
VmUser.v
VmCopy.v
ProcMem.v
VmDemo.v
Grep.v
Umalloc.v
Spinlock.v
Sched.v
Pipe.v
Shell.v
ShellGrammar.v
Printf.v
Exec.v
ExecSpec.v
ExecFile.v
ExecDemo.v
Usys.v
Utext.v
Uvi.v
UviSpec.v
Uls.v
ShRun.v
ShKernel.v
Ports.v
Kbd.v
Devices.v
Mp.v
Boot.v
Trap.v
