(* ===== verification/Prelude.v ===== *)
(** * xv6_fs: a verification development

    The program is a small Unix-like kernel for the PC with two file systems
    behind a common interface, and its user programs ([src/xv6]).  This
    library models it in Gallina, one file or more per component, and proves
    what the components promise, alone and stacked.

    ** How code is modelled

    Kernel code is a [prog E K R] ([Prog]): a tree of operations [E] of the
    layer below, of reads and writes of the memory [K] the component owns, and
    of the ways C code can end without a result ([Fail]): [Panic] (a call of
    [panic]), [Blocked] (a [sleep] that nothing in the modelled world ends, so
    a deadlock for one process), [Undef] (what C or the contract of the layer
    below leaves undefined, such as an access outside an array), and
    [OutOfFuel].  [run] executes such a tree on any [Store], the interface of
    the layer below; [disks] lists the disks a power failure at any moment of
    the run can leave.  [Refines] says that one store implements another, and
    [run_refines] and [disks_refines] transfer runs and power failures for
    every program at once.  Machine integers are [Z] with the wrap-around of
    their C type written out ([u8], [u16], [u32], [s16], [s32] below).

    Loops are [while_fuel] with a number of rounds computed from the loop's
    own bounds (the length of a transfer, the size of a table, the number of
    clusters of a volume), large enough for every run that terminates in C;
    theorems that a routine returns state the result with [Ok], so that running
    out is excluded.  A loop that runs for ever in C ends in [OutOfFuel].

    Concurrent code (spin locks, scheduling, pipes between processes) is a
    step relation on the shared state, one step per statement or per stretch
    of code under a lock, and properties are invariants of all reachable
    states.

    ** The parts, and the files that model them

    Storage.  [Bio] models [bio.c], [ide.c] and [memide.c]: the LRU list of
    buffers, the request queue, the registers of the drive.  [AStore] is the
    contract of the cache, [BioFacts] and [BioRefine] prove that the cache
    implements it.  [Layout] has the structures on disk ([sfs_inode.h]).
    [Log] models [log.c]; [LStore] is what a file system sees of log and
    cache, [LogRecover] treats recovery, [LogRefine] the refinement, and
    [Storage] puts drive, cache and log together.

    Kernel memory and strings.  [State] has the inode cache, the file table,
    the pipes, the console's ring and the running process; [CString] models
    [string.c].  [FsLogic] has the equations proofs about file-system code use.

    The simple file system ([fs/sfs]).  [SfsBlock] models the block bitmap,
    [SfsInode] inodes, [SfsDir] directories and paths.  [SfsFile] treats files
    as arrays of bytes, [SfsDirSpec] directories as lists of entries.

    FAT32 ([fs/fat32]).  [FatBase] models the parameter block and the
    allocation table, [FatInode] inodes, [FatDir] names, directories and
    paths.  [FatSpec], [FatAlloc], [FatWrite], [FatFile] and [FatEntry] say
    what reading, allocating and writing do to a volume with any number of
    copies of the table.

    Above both.  [Vop] models the tables of operations of [fs/vfs/inode.h] and
    the operations that go through them, [Vfs] the paths with a device prefix
    ([vfs.c]), [File] open files and pipes ([fs/file.c], [pipe.c]), [Sysfile]
    and [SysTree] the calls of [fs/sysfile.c] with the argument fetching of
    [syscall.c], [Console] the input ring of [console.c], [Tty] the terminal
    it implements, [Mkfs] the host program [mkfs.c].  [VopSpec] and
    [FileSpec] put the layers together for a file of sfs.

    Memory.  [Kalloc] models [kalloc.c] with the free list threaded through
    physical memory, [Vm] the page tables of [vm.c]; [VmSpec], [VmUser] and
    [VmCopy] describe them by the mapping and the bytes they implement.
    [ProcMem] has [growproc] and [sbrk], [Exec] and [ExecSpec] have [exec.c];
    [ExecSpec] asks for a file that obeys [file_laws], and [ExecFile] shows
    that the files of sfs do.

    Processes.  [Spinlock] models [spinlock.c] for several processors,
    [Sched] the process table of [proc.c], [ProcFiles] what [fork] and [exit]
    do to open files, with [sys_exec], [Pipe] pipes used by several
    processes, [Trap] [trap.c] and the dispatch of system calls.

    Devices.  [Ports] is the machine's side; [Devices] models [picirq.c],
    [ioapic.c], [lapic.c], [timer.c], [uart.c], the probing of the drives
    ([ideinit]), the device part of [main] and the screen, [Kbd] [kbd.c],
    [Mp] [mp.c], [Boot] the boot loader [bootmain.c].

    User programs.  [Usys] has the system calls as user code sees them, with
    [ulib.c] and the small programs; [Printf], [Umalloc], [Grep], [Utext]
    (cat, wc, head, tail, more, grep), [Uvi] and [UviSpec] (the editor),
    [Uls], [Shell] (the parser of [sh.c]), [ShellGrammar] (the language it
    parses), [ShRun] (its execution) and [ShKernel] (its descriptor tables are
    those of [Sysfile]).

    [Demo], [FatDemo], [VmDemo] and [ExecDemo] are concrete volumes and
    memories on which the theorems' conditions are evaluated.

    ** What is proved

    Storage (C1, C2, C4, C5): every program over blocks and transactions
    behaves on the real stack as on the contract, and a power failure at any
    moment, with further failures during recovery, leaves a content the
    contract allows; transactions are atomic.  Writing an open file (C3, C6),
    on a volume with a single bitmap block, a log of [LOGSIZE] blocks and
    enough free blocks, does all of a write that the file has room for and the
    whole rounds before the limit of any other, in transactions that fit the
    log, and a power failure leaves a prefix of it, a whole number of rounds.

    Files (C7 to C12): reading and writing of both file systems against the
    bytes of the file, allocation of clusters, entering a name; writes leave
    the contents of every other file and the other entries of the directory
    alone.

    Memory (C13 to C17): what [exec], [copyuvm], [freevm] and [sbrk] do to the
    image of a process, on success and on failure, and that the page
    allocator is a stack of pages.  For [exec] there is enough memory for the
    image and its page tables, and a program with a segment off a page
    boundary, which makes the kernel panic, is a case of its own.

    Processes (C18 to C26): a child that exits gives back what it shares of the
    files, a process runs on one processor, a parent does
    not miss a child, the scheduler reaches a runnable process, locks exclude
    and do not panic, pipes deliver bytes in order and lose no wakeup, a
    trap ends as it should.

    User programs (C27 to C34): the heap refines an abstract allocator, and
    after any session of calls that ends with everything freed it is one free
    block again; the shell's parser accepts exactly its grammar and is inverse
    to printing, and the processes, descriptors, pipes and waits of a command
    line are what the command means, whichever system calls fail; a session
    with the editor as
    operations on a list of lines, the text tools whatever the sizes of reads,
    the matcher against the language of a pattern.

    Devices (C35 to C40): the line discipline, typing on a US keyboard (written
    down in [Kbd] independently of the tables of [kbd.h]), what reaches the
    screen and the serial line, the routing of interrupts after the set-up of
    [main], the boot loader, and the search for the table of processors and
    its reading.

    ** Code outside the sources

    The drive, the interrupt controllers and the keyboard are modelled as far
    as the drivers use them.  The CMOS clock and the stale bytes of the kernel
    stack ([Machine]), the linker's symbols, the device switch ([DevSw]) and
    the answers of the kernel to a user program are parameters.

    ** Not modelled

    Assembly ([bootasm.S], [entry.S], [entryother.S], [initcode.S],
    [swtch.S], [trapasm.S], [usys.S] and the vectors): it moves between
    registers, stacks and modes that the models do not have; a switch, a trap
    and a system call are single steps.  The loading of descriptor tables
    ([seginit], [switchuvm], [tvinit], [idtinit]) for the same reason, and the
    order of initialisation in [main.c] apart from the devices.  [procdump] and
    [getcallerpcs] print for debugging.  The messages of [cprintf] inside the file-system calls are
    left out.  [usertests.c], [stressfs.c] and [forktest.c] are tests;
    [find.c] and [rmdir.c] are empty.

    Single-process models ([Bio], [Log], the file systems) leave out the spin
    locks that protect their tables: [Spinlock] treats the locks, and a
    process that has to wait is [Blocked].  [Sched] does not follow the memory
    and the files of the processes it schedules; [VmCopy], [ProcMem] and
    [ProcFiles] treat what [fork] and [exit] do with them as separate
    operations. *)

From stdpp Require Import base gmap strings numbers list.

#[global] Set Default Goal Selector "!".

Declare Scope xv6_scope.
Delimit Scope xv6_scope with xv6.
Open Scope Z_scope.
Open Scope xv6_scope.

(** ** Machine integers

    [types.h] fixes [uchar], [ushort] and [uint] at 8, 16 and 32 bits; C's
    [short] and [int] are their two's complement counterparts.  A value is a
    [Z] and every place where the C type would wrap applies one of these. *)

Definition u8 (x : Z) : Z := x mod 2 ^ 8.
Definition u16 (x : Z) : Z := x mod 2 ^ 16.
Definition u32 (x : Z) : Z := x mod 2 ^ 32.
Definition s8 (x : Z) : Z := (x + 2 ^ 7) mod 2 ^ 8 - 2 ^ 7.
Definition s16 (x : Z) : Z := (x + 2 ^ 15) mod 2 ^ 16 - 2 ^ 15.
Definition s32 (x : Z) : Z := (x + 2 ^ 31) mod 2 ^ 32 - 2 ^ 31.

Ltac Zify.zify_post_hook ::= Z.div_mod_to_equations.

Lemma u8_range x : 0 <= u8 x < 256.
Proof. unfold u8. lia. Qed.

Lemma u16_range x : 0 <= u16 x < 65536.
Proof. unfold u16. lia. Qed.

Lemma u32_range x : 0 <= u32 x < 4294967296.
Proof. unfold u32. lia. Qed.

Lemma u32_small x : 0 <= x < 4294967296 -> u32 x = x.
Proof. intros. unfold u32. apply Z.mod_small. lia. Qed.

Lemma u16_small x : 0 <= x < 65536 -> u16 x = x.
Proof. intros. unfold u16. apply Z.mod_small. lia. Qed.

Lemma s16_small x : -32768 <= x < 32768 -> s16 x = x.
Proof. intros. unfold s16. lia. Qed.

Lemma s32_small x : -2147483648 <= x < 2147483648 -> s32 x = x.
Proof. intros. unfold s32. lia. Qed.

Lemma s16_u16 x : s16 (u16 x) = s16 x.
Proof. unfold s16, u16. lia. Qed.

Lemma s32_u32 x : s32 (u32 x) = s32 x.
Proof. unfold s32, u32. lia. Qed.

(** ** Outcomes

    Kernel code either returns, panics, goes to sleep on a channel that no
    other activity of the run can wake, or leaves defined behaviour (a null
    function pointer, an index outside an array). *)

Inductive stop :=
| Panic (msg : string)
| Blocked
| Undef (why : string)
| OutOfFuel.

Inductive outcome (A : Type) :=
| Ok (a : A)
| Fail (e : stop).
Arguments Ok {A} a.
Arguments Fail {A} e.

#[global] Instance stop_eq_dec : EqDecision stop.
Proof. solve_decision. Defined.

Definition obind {A B} (m : outcome A) (f : A -> outcome B) : outcome B :=
  match m with
  | Ok a => f a
  | Fail e => Fail e
  end.

Notation "'let?' x := c1 'in' c2" := (obind c1 (fun x => c2))
  (at level 10, x pattern, c1 at level 100, c2 at level 200) : xv6_scope.

Lemma obind_Ok {A B} (m : outcome A) (f : A -> outcome B) b :
  obind m f = Ok b -> exists a, m = Ok a /\ f a = Ok b.
Proof. destruct m; simpl; [eauto | discriminate]. Qed.

(** ** Byte buffers

    [slice off n l] is the [n] bytes of [l] from [off]; [splice off src l] is
    what [memmove(l + off, src, length src)] leaves in [l] when the copy is in
    bounds. *)

Definition slice {A} (off n : nat) (l : list A) : list A := take n (drop off l).

Definition splice {A} (off : nat) (src l : list A) : list A :=
  take off l ++ src ++ drop (off + length src) l.

Definition byte_at (l : list Z) (i : Z) : Z := nth (Z.to_nat i) l 0.

Definition set_byte (l : list Z) (i v : Z) : list Z := <[Z.to_nat i := u8 v]> l.

Section SliceSplice.
Context {A : Type}.
Implicit Types (l src : list A).

Lemma length_slice off n l :
  (off + n <= length l)%nat -> length (slice off n l) = n.
Proof. intros. unfold slice. rewrite length_take, length_drop. lia. Qed.

Lemma length_splice off src l :
  (off + length src <= length l)%nat -> length (splice off src l) = length l.
Proof.
  intros. unfold splice.
  rewrite !length_app, length_take, length_drop. lia.
Qed.

Lemma slice_splice_same off src l :
  (off + length src <= length l)%nat ->
  slice off (length src) (splice off src l) = src.
Proof.
  intros. unfold slice, splice.
  rewrite drop_app_ge by (rewrite length_take; lia).
  rewrite length_take, Nat.min_l, Nat.sub_diag by lia.
  rewrite drop_0, take_app_le by lia. apply take_ge. lia.
Qed.

Lemma lookup_slice off n l i :
  slice off n l !! i = if decide (i < n)%nat then l !! (off + i)%nat else None.
Proof.
  unfold slice. case_decide.
  - rewrite lookup_take_lt by lia. apply lookup_drop.
  - apply lookup_take_ge. lia.
Qed.

Lemma lookup_splice off src l i :
  (off + length src <= length l)%nat ->
  splice off src l !! i =
    if decide (off <= i < off + length src)%nat
    then src !! (i - off)%nat else l !! i.
Proof.
  intros. unfold splice. case_decide as Hd.
  - rewrite lookup_app_r by (rewrite length_take; lia).
    rewrite length_take, Nat.min_l by lia.
    apply lookup_app_l. lia.
  - destruct (decide (i < off)%nat).
    + rewrite lookup_app_l by (rewrite length_take; lia).
      apply lookup_take_lt. lia.
    + rewrite lookup_app_r by (rewrite length_take; lia).
      rewrite length_take, Nat.min_l by lia.
      rewrite lookup_app_r by lia.
      rewrite lookup_drop. f_equal. lia.
Qed.

Lemma slice_splice_disjoint off n off' src l :
  (off' + length src <= length l)%nat ->
  (off + n <= off' \/ off' + length src <= off)%nat ->
  slice off n (splice off' src l) = slice off n l.
Proof.
  intros. apply list_eq. intros i. rewrite !lookup_slice.
  case_decide; [|done].
  rewrite lookup_splice by done. rewrite decide_False by lia. done.
Qed.

Lemma splice_id off n l :
  (off + n <= length l)%nat -> splice off (slice off n l) l = l.
Proof.
  intros. apply list_eq. intros i.
  rewrite lookup_splice by (rewrite length_slice; lia).
  rewrite length_slice by lia. case_decide; [|done].
  rewrite lookup_slice, decide_True by lia. f_equal. lia.
Qed.

Lemma splice_splice_same off src src' l :
  length src = length src' ->
  (off + length src <= length l)%nat ->
  splice off src' (splice off src l) = splice off src' l.
Proof.
  intros. apply list_eq. intros i.
  assert (length (splice off src l) = length l) by (apply length_splice; lia).
  rewrite !lookup_splice by lia.
  repeat case_decide; try lia; done.
Qed.

Lemma splice_cons off x src l :
  (off + S (length src) <= length l)%nat ->
  splice off (x :: src) l = splice (S off) src (<[off := x]> l).
Proof.
  intros. apply list_eq. intros i.
  rewrite !lookup_splice by (cbn [length]; rewrite ?length_insert; lia). cbn [length].
  destruct (decide (i = off)) as [->|].
  - rewrite decide_True, decide_False, Nat.sub_diag by lia. by rewrite list_lookup_insert_eq by lia.
  - repeat case_decide; try lia; [|by rewrite list_lookup_insert_ne by lia].
    replace (i - off)%nat with (S (i - S off)) by lia. done.
Qed.

Lemma splice_app off s1 s2 l :
  (off + (length s1 + length s2) <= length l)%nat ->
  splice off (s1 ++ s2) l = splice (off + length s1) s2 (splice off s1 l).
Proof.
  intros. assert (length (splice off s1 l) = length l) by (apply length_splice; lia).
  apply list_eq. intros i. rewrite (lookup_splice (off + _)) by lia.
  rewrite (lookup_splice off s1) by lia. rewrite lookup_splice by (rewrite length_app; lia).
  rewrite length_app. repeat case_decide; try lia; try done.
  - rewrite lookup_app_r by lia. f_equal. lia.
  - by rewrite lookup_app_l by lia.
Qed.

Lemma slice_full l : slice 0 (length l) l = l.
Proof. unfold slice. rewrite drop_0. apply take_ge. lia. Qed.

Lemma slice_add off n m l :
  slice off (n + m) l = slice off n l ++ slice (off + n) m l.
Proof.
  unfold slice. rewrite <- (drop_drop l n off).
  generalize (drop off l). intros l'. clear.
  revert l'. induction n as [|n IH]; intros [|x l']; simpl; auto.
  - by rewrite !take_nil.
  - f_equal. apply IH.
Qed.
End SliceSplice.

(** ** Little-endian fields

    The on-disk structures are C structs overlaid on a sector, read by the
    x86 as little-endian fields. *)

Fixpoint le_enc (n : nat) (v : Z) : list Z :=
  match n with
  | O => []
  | S n => v mod 256 :: le_enc n (v / 256)
  end.

Fixpoint le_dec (l : list Z) : Z :=
  match l with
  | [] => 0
  | b :: l => b + 256 * le_dec l
  end.

Definition get_u8 (off : nat) (l : list Z) : Z := le_dec (slice off 1 l).
Definition get_u16 (off : nat) (l : list Z) : Z := le_dec (slice off 2 l).
Definition get_u32 (off : nat) (l : list Z) : Z := le_dec (slice off 4 l).
Definition put_u8 (off : nat) (v : Z) (l : list Z) : list Z := splice off (le_enc 1 v) l.
Definition put_u16 (off : nat) (v : Z) (l : list Z) : list Z := splice off (le_enc 2 v) l.
Definition put_u32 (off : nat) (v : Z) (l : list Z) : list Z := splice off (le_enc 4 v) l.

Definition is_byte (b : Z) : Prop := 0 <= b < 256.

#[global] Instance is_byte_dec b : Decision (is_byte b).
Proof. unfold is_byte. apply _. Defined.

Lemma length_le_enc n v : length (le_enc n v) = n.
Proof. revert v. induction n; intros; simpl; auto. Qed.

Lemma le_dec_enc n v : le_dec (le_enc n v) = v mod 256 ^ Z.of_nat n.
Proof.
  revert v. induction n as [|n IH]; intros v; cbn [le_enc le_dec].
  - by rewrite Z.mod_1_r.
  - rewrite IH, Nat2Z.inj_succ, Z.pow_succ_r by lia.
    assert (0 < 256 ^ Z.of_nat n) by (apply Z.pow_pos_nonneg; lia).
    rewrite Z.rem_mul_r by lia. lia.
Qed.

Lemma le_enc_bytes n v : Forall is_byte (le_enc n v).
Proof.
  revert v. induction n; intros; simpl; constructor; auto.
  unfold is_byte. lia.
Qed.

Lemma le_dec_range l :
  Forall is_byte l -> 0 <= le_dec l < 256 ^ Z.of_nat (length l).
Proof.
  induction 1 as [|b l Hb _ IH]; cbn [le_dec length]; [lia|].
  rewrite Nat2Z.inj_succ, Z.pow_succ_r by lia. unfold is_byte in Hb. lia.
Qed.

Lemma le_enc_dec l :
  Forall is_byte l -> le_enc (length l) (le_dec l) = l.
Proof.
  induction 1 as [|b l Hb _ IH]; cbn [le_dec le_enc length]; [done|].
  unfold is_byte in Hb.
  replace ((b + 256 * le_dec l) mod 256) with b by lia.
  replace ((b + 256 * le_dec l) / 256) with (le_dec l) by lia.
  by rewrite IH.
Qed.

Lemma length_put_u32 off v l :
  (off + 4 <= length l)%nat -> length (put_u32 off v l) = length l.
Proof. intros. apply length_splice. rewrite length_le_enc. lia. Qed.

Lemma length_put_u16 off v l :
  (off + 2 <= length l)%nat -> length (put_u16 off v l) = length l.
Proof. intros. apply length_splice. rewrite length_le_enc. lia. Qed.

Lemma length_put_u8 off v l :
  (off + 1 <= length l)%nat -> length (put_u8 off v l) = length l.
Proof. intros. apply length_splice. rewrite length_le_enc. lia. Qed.

Lemma get_put_u32 off v l :
  (off + 4 <= length l)%nat -> get_u32 off (put_u32 off v l) = u32 v.
Proof.
  intros. unfold get_u32, put_u32.
  pose proof (slice_splice_same off (le_enc 4 v) l) as H4.
  rewrite length_le_enc in H4. rewrite H4 by lia. apply le_dec_enc.
Qed.

Lemma get_put_u16 off v l :
  (off + 2 <= length l)%nat -> get_u16 off (put_u16 off v l) = u16 v.
Proof.
  intros. unfold get_u16, put_u16.
  pose proof (slice_splice_same off (le_enc 2 v) l) as H4.
  rewrite length_le_enc in H4. rewrite H4 by lia. apply le_dec_enc.
Qed.

Lemma slice_put_u32_other off n off' v l :
  (off' + 4 <= length l)%nat ->
  (off + n <= off' \/ off' + 4 <= off)%nat ->
  slice off n (put_u32 off' v l) = slice off n l.
Proof.
  intros. unfold put_u32. apply slice_splice_disjoint; rewrite length_le_enc; lia.
Qed.

Lemma slice_put_u16_other off n off' v l :
  (off' + 2 <= length l)%nat ->
  (off + n <= off' \/ off' + 2 <= off)%nat ->
  slice off n (put_u16 off' v l) = slice off n l.
Proof.
  intros. unfold put_u16. apply slice_splice_disjoint; rewrite length_le_enc; lia.
Qed.

Create HintDb xv6.
Create Rewrite HintDb xv6.
#[export] Hint Rewrite @length_app @length_take @length_drop @length_replicate
  @length_insert length_le_enc : xv6.
#[export] Hint Resolve u8_range u16_range u32_range le_enc_bytes : xv6.

(** [len] normalises list lengths and hands the rest to [lia]. *)
Ltac len := autorewrite with xv6 in *; simpl in *; lia.

(** [inv_ok] takes apart a hypothesis saying a chain of [let?] steps
    succeeded. *)
Ltac inv_ok :=
  repeat match goal with
  | H : obind _ _ = Ok _ |- _ => apply obind_Ok in H as (?&?&?)
  | H : Ok _ = Ok _ |- _ => injection H; clear H; intros; subst
  | H : Fail _ = Ok _ |- _ => discriminate H
  end.
