(* ===== verification/Prog.v ===== *)
(** * Kernel programs over a block store

    Everything above the buffer cache (the log, both file systems, the file
    and system-call layers) talks to the disk only through the interface
    [bio.c] documents: [bread], looking at or changing [b->data], [bwrite],
    [brelse], and the [B_DIRTY] flag that [log_write] sets.  A piece of kernel
    code is a [prog]: a tree of such operations, of reads and writes of the
    kernel's own memory, and of [panic]s.

    [Store] is the interface a layer offers; [Refines] is what it means for
    one implementation of it to be replaced by another.  [run_refines] and
    [disks_refines] are proved once, for every program. *)

From stdpp Require Import base gmap strings numbers list.
From S2P Require Import Prelude.

(** A locked buffer is named by its [(b->dev, b->sector)]: the cache holds at
    most one buffer for a sector, so the pair identifies the pointer. *)
Abbreviation bufkey := (Z * Z)%type.
Abbreviation block := (list Z).
Abbreviation diskmap := (gmap bufkey block).

Definition BSIZE : Z := 512.
Definition zblock : block := replicate 512 0.
Definition disk_get (d : diskmap) (k : bufkey) : block := default zblock (d !! k).

(** The operations of [bio.c]. *)
Inductive blkE : Type -> Type :=
| EBread (dev sector : Z) : blkE bufkey
| EData (b : bufkey) : blkE block
| EStore (b : bufkey) (d : block) : blkE unit
| EBwrite (b : bufkey) : blkE unit
| EBrelse (b : bufkey) : blkE unit
| EDirty (b : bufkey) : blkE unit.

Inductive prog (E : Type -> Type) (K R : Type) : Type :=
| Ret (r : R)
| Stop (e : stop)
| Get (f : K -> prog E K R)
| Put (k : K) (p : prog E K R)
| Vis {X : Type} (e : E X) (f : X -> prog E K R).
Arguments Ret {E K R} r.
Arguments Stop {E K R} e.
Arguments Get {E K R} f.
Arguments Put {E K R} k p.
Arguments Vis {E K R X} e f.

Fixpoint pbind {E K R S} (p : prog E K R) (f : R -> prog E K S) : prog E K S :=
  match p with
  | Ret r => f r
  | Stop e => Stop e
  | Get g => Get (fun k => pbind (g k) f)
  | Put k p => Put k (pbind p f)
  | Vis e g => Vis e (fun x => pbind (g x) f)
  end.

Notation "x <- c1 ;; c2" := (pbind c1 (fun x => c2))
  (at level 62, c1 at next level, right associativity) : xv6_scope.
Notation "'let*' x := c1 'in' c2" := (pbind c1 (fun y => match y with x => c2 end))
  (at level 10, x pattern, c1 at level 100, c2 at level 200) : xv6_scope.
Notation "c1 ;;; c2" := (pbind c1 (fun _ => c2))
  (at level 62, right associativity) : xv6_scope.

Definition panic {E K R} (msg : string) : prog E K R := Stop (Panic msg).
Definition undef {E K R} (why : string) : prog E K R := Stop (Undef why).
Definition get {E K} : prog E K K := Get Ret.
Definition put {E K} (k : K) : prog E K unit := Put k (Ret tt).
Definition gets {E K A} (f : K -> A) : prog E K A := Get (fun k => Ret (f k)).
Definition modify {E K} (f : K -> K) : prog E K unit := Get (fun k => Put (f k) (Ret tt)).

(** A signature that includes the block operations. *)
Class HasBlk (E : Type -> Type) := blk : forall X, blkE X -> E X.
Arguments blk {E _ X} e.
#[global] Instance HasBlk_self : HasBlk blkE := fun X e => e.

Section Operations.
Context {E : Type -> Type} `{!HasBlk E} {K : Type}.

(** [bread] takes two [uint]s. *)
Definition bread (dev sector : Z) : prog E K bufkey := Vis (blk (EBread (u32 dev) (u32 sector))) Ret.
Definition bdata (b : bufkey) : prog E K block := Vis (blk (EData b)) Ret.
Definition bstore (b : bufkey) (d : block) : prog E K unit := Vis (blk (EStore b d)) Ret.
Definition bwrite (b : bufkey) : prog E K unit := Vis (blk (EBwrite b)) Ret.
Definition brelse (b : bufkey) : prog E K unit := Vis (blk (EBrelse b)) Ret.
Definition bdirty (b : bufkey) : prog E K unit := Vis (blk (EDirty b)) Ret.
(** in-place update of [b->data] *)
Definition bmodify (b : bufkey) (f : block -> block) : prog E K unit :=
  d <- bdata b;; bstore b (f d).
End Operations.

(** Loops.  [while_fuel] runs a [while]/[do]/[for(;;)] body: [inl s] goes
    round again, [inr r] leaves the loop. *)
Fixpoint while_fuel {E K S R} (fuel : nat) (body : S -> prog E K (S + R)) (s : S) : prog E K R :=
  match fuel with
  | O => Stop OutOfFuel
  | S fuel =>
      x <- body s;;
      match x with
      | inl s' => while_fuel fuel body s'
      | inr r => Ret r
      end
  end.

(** [for_upto n i body] is [for(; i < i0 + n; i++)]: [Some r] from the body
    returns from the enclosing function. *)
Fixpoint for_upto {E K R} (n : nat) (i : Z) (body : Z -> prog E K (option R)) : prog E K (option R) :=
  match n with
  | O => Ret None
  | S n =>
      x <- body i;;
      match x with
      | Some r => Ret (Some r)
      | None => for_upto n (i + 1) body
      end
  end.

(** [for_each l body] is a loop that always runs to its end. *)
Fixpoint for_each {E K A} (l : list A) (body : A -> prog E K unit) : prog E K unit :=
  match l with
  | [] => Ret tt
  | x :: l => body x;;; for_each l body
  end.

(** ** The interface *)

(** [st_trace e s] lists the contents the disk has while operation [e] runs:
    what a power failure during it can leave behind. *)
Class Store (E : Type -> Type) (S : Type) := {
  st_step : forall X, E X -> S -> outcome (X * S);
  st_trace : forall X, E X -> S -> list diskmap;
  st_disk : S -> diskmap;
}.
Arguments st_step {E S _ X} e s.
Arguments st_trace {E S _ X} e s.

Section Run.
Context {E : Type -> Type} {B : Type} `{HB : Store E B} {K : Type}.

Fixpoint run {R} (p : prog E K R) (k : K) (b : B) : outcome (R * K * B) :=
  match p with
  | Ret r => Ok (r, k, b)
  | Stop e => Fail e
  | Get f => run (f k) k b
  | Put k' p => run p k' b
  | Vis e f =>
      match st_step e b with
      | Ok (x, b') => run (f x) k b'
      | Fail e => Fail e
      end
  end.

(** The contents of the disk at every point of the run. *)
Fixpoint disks {R} (p : prog E K R) (k : K) (b : B) : list diskmap :=
  match p with
  | Ret _ | Stop _ => [st_disk b]
  | Get f => disks (f k) k b
  | Put k' p => disks p k' b
  | Vis e f =>
      st_trace e b ++
      match st_step e b with
      | Ok (x, b') => disks (f x) k b'
      | Fail _ => []
      end
  end.

Lemma run_bind {R S} (p : prog E K R) (f : R -> prog E K S) k b :
  run (pbind p f) k b =
    match run p k b with
    | Ok (r, k', b') => run (f r) k' b'
    | Fail e => Fail e
    end.
Proof.
  revert k b. induction p as [r|e|g IH|k' p IH|X e g IH]; intros k b; simpl; auto.
  destruct (st_step e b) as [[x b']|e']; auto.
Qed.

Lemma run_bind_Ok {R S} (p : prog E K R) (f : R -> prog E K S) k b r k' b' :
  run p k b = Ok (r, k', b') -> run (pbind p f) k b = run (f r) k' b'.
Proof. intros H. by rewrite run_bind, H. Qed.

Lemma run_bind_Fail {R S} (p : prog E K R) (f : R -> prog E K S) k b e :
  run p k b = Fail e -> run (pbind p f) k b = Fail e.
Proof. intros H. by rewrite run_bind, H. Qed.

Lemma run_bind_inv {R S} (p : prog E K R) (f : R -> prog E K S) k b o :
  run (pbind p f) k b = Ok o ->
  exists r k' b', run p k b = Ok (r, k', b') /\ run (f r) k' b' = Ok o.
Proof.
  rewrite run_bind. destruct (run p k b) as [[[r k'] b']|]; [|discriminate]. eauto 10.
Qed.

Lemma run_assoc {R S T} (p : prog E K R) (f : R -> prog E K S) (g : S -> prog E K T) k b :
  run (pbind (pbind p f) g) k b = run (pbind p (fun r => pbind (f r) g)) k b.
Proof.
  rewrite !run_bind. destruct (run p k b) as [[[r k'] b']|]; [|done]. by rewrite run_bind.
Qed.

Lemma disks_bind {R S} (p : prog E K R) (f : R -> prog E K S) k b d :
  d ∈ disks (pbind p f) k b ->
  d ∈ disks p k b \/
  exists r k' b', run p k b = Ok (r, k', b') /\ d ∈ disks (f r) k' b'.
Proof.
  revert k b. induction p as [r|e|g IH|k' p IH|X e g IH]; intros k b; simpl; eauto 10.
  rewrite !elem_of_app. intros [Ht|Hd]; [by left; left|].
  destruct (st_step e b) as [[x b']|e']; [|by apply elem_of_nil in Hd].
  destruct (IH x _ _ Hd) as [?|?]; eauto.
Qed.
End Run.

(** ** Refinement between stores

    [rec d D] says that a disk [d] of the implementation, found after a power
    failure, stands for the disk [D] of the specification. *)

Class Refines (E : Type -> Type) (A C : Type) `{Store E A, Store E C}
    (R : A -> C -> Prop) (rec : diskmap -> diskmap -> Prop) := {
  sim_step : forall X (e : E X) a c, R a c ->
    match st_step e a with
    | Ok (x, a') => exists c', st_step e c = Ok (x, c') /\ R a' c'
    | Fail (Undef _) => True
    | Fail err => st_step e c = Fail err
    end;
  sim_trace : forall X (e : E X) a c, R a c ->
    (forall why, st_step e a <> Fail (Undef why)) ->
    forall d, d ∈ st_trace e c -> exists D, D ∈ st_trace e a /\ rec d D;
  sim_disk : forall a c, R a c -> rec (st_disk c) (st_disk a);
}.

Section Refinement.
Context {E : Type -> Type} {A C : Type} `{Store E A, Store E C}.
Context {R : A -> C -> Prop} {rec : diskmap -> diskmap -> Prop} `{!Refines E A C R rec}.
Context {K : Type}.

(** Whatever a program does on the specification store, short of undefined
    behaviour, it does on the implementation: same result, same kernel
    memory, same panic, same deadlock. *)
Lemma run_refines {T} (p : prog E K T) k a c :
  R a c ->
  match run p k a with
  | Ok (r, k', a') => exists c', run p k c = Ok (r, k', c') /\ R a' c'
  | Fail (Undef _) => True
  | Fail err => run p k c = Fail err
  end.
Proof.
  revert k a c. induction p as [r|e|g IH|k' p IH|X e g IH]; intros k a c HR; simpl.
  - eauto.
  - destruct e; auto.
  - by apply IH.
  - by apply IH.
  - pose proof (sim_step X e a c HR) as Hs.
    destruct (st_step e a) as [[x a']|err].
    + destruct Hs as (c' & -> & HR'). by apply IH.
    + destruct err; auto; by rewrite Hs.
Qed.

(** A power failure anywhere in the implementation's run leaves a disk that
    stands for a disk of the specification's run. *)
Lemma disks_refines {T} (p : prog E K T) k a c :
  R a c -> (forall why, run p k a <> Fail (Undef why)) ->
  forall d, d ∈ disks p k c -> exists D, D ∈ disks p k a /\ rec d D.
Proof.
  revert k a c. induction p as [r|e|g IH|k' p IH|X e g IH]; intros k a c HR Hu d; simpl.
  1,2: intros ->%list_elem_of_singleton; exists (st_disk a); split;
    [by apply list_elem_of_singleton|by apply sim_disk].
  - by apply IH.
  - by apply IH.
  - simpl in Hu. pose proof (sim_step X e a c HR) as Hs.
    rewrite elem_of_app. intros [Ht|Hd].
    + destruct (sim_trace X e a c HR) with (d := d) as (D & HD & Hrec); [|done|].
      { intros why Hw. rewrite Hw in Hu. by apply (Hu why). }
      exists D. split; [|done]. apply elem_of_app. by left.
    + destruct (st_step e a) as [[x a']|err].
      * destruct Hs as (c' & Hc & HR'). rewrite Hc in Hd.
        destruct (IH x k a' c' HR' Hu d Hd) as (D & HD & Hrec).
        exists D. split; [|done]. apply elem_of_app. by right.
      * destruct err as [| |why|]; [| |by destruct (Hu why)|]; rewrite Hs in Hd; by apply elem_of_nil in Hd.
Qed.
End Refinement.

(** Refinements compose. *)
Lemma refines_trans {E A B C} `{Store E A, Store E B, Store E C} R1 R2 rec1 rec2 :
  Refines E A B R1 rec1 -> Refines E B C R2 rec2 ->
  Refines E A C (fun a c => exists b, R1 a b /\ R2 b c) (fun c a => exists b, rec1 b a /\ rec2 c b).
Proof.
  intros H1' H2'. split.
  - intros X e a c (b & Hab & Hbc). pose proof (sim_step X e a b Hab) as Hs1.
    pose proof (sim_step X e b c Hbc) as Hs2. destruct (st_step e a) as [[x a']|err].
    + destruct Hs1 as (b' & Hb & Hab'). rewrite Hb in Hs2. destruct Hs2 as (c' & Hc & Hbc'). eauto.
    + destruct err; [| |done|]; by rewrite Hs1 in Hs2.
  - intros X e a c (b & Hab & Hbc) Hu d Hd. pose proof (sim_step X e a b Hab) as Hs1.
    destruct (sim_trace X e b c Hbc) with (d := d) as (D1 & HD1 & Hr1); [|done|].
    + intros why Hw. destruct (st_step e a) as [[x a']|err].
      * destruct Hs1 as (b' & Hb & _). congruence.
      * destruct err as [| |w|]; [| |by destruct (Hu w)|]; congruence.
    + destruct (sim_trace X e a b Hab Hu D1 HD1) as (D & HD & Hr). eauto.
  - intros a c (b & Hab & Hbc). exists (st_disk b). split; [by apply sim_disk|by apply (sim_disk (A := B))].
Qed.

Create Rewrite HintDb run.
#[export] Hint Rewrite @run_bind : run.
