(* ===== verification/Bio.v ===== *)
(** * Buffer cache and IDE driver: [bio.c], [ide.c], [memide.c]

    [bcache] is the array of [NBUF] buffers together with the list head,
    threaded by [prev]/[next] exactly as in [bio.c]; a pointer is an index and
    [HEAD] is [&bcache.head].  The driver's request queue is threaded through
    [qnext].  The drive itself is modelled by the ATA registers [idestart]
    programs and the sector they address.

    One process runs at a time: a [sleep] inside the driver lasts until the
    drive's interrupt handler has run, a [sleep] on a busy buffer is
    [Blocked]. *)

From stdpp Require Import base gmap strings numbers list.
From S2P Require Import Prelude Prog.

Definition NBUF : nat := 10.
Definition HEAD : nat := NBUF.

Definition B_BUSY : Z := 1.
Definition B_VALID : Z := 2.
Definition B_DIRTY : Z := 4.

Record buf := mkbuf {
  b_flags : Z;
  b_dev : Z;
  b_sector : Z;
  b_prev : nat;
  b_next : nat;
  b_qnext : option nat;
  b_data : block;
}.

Definition buf0 : buf := mkbuf 0 0 0 0 0 None zblock.

Definition set_flags (f : Z) (b : buf) : buf :=
  mkbuf f (b_dev b) (b_sector b) (b_prev b) (b_next b) (b_qnext b) (b_data b).
Definition set_key (d s : Z) (b : buf) : buf :=
  mkbuf (b_flags b) d s (b_prev b) (b_next b) (b_qnext b) (b_data b).
Definition set_prev (p : nat) (b : buf) : buf :=
  mkbuf (b_flags b) (b_dev b) (b_sector b) p (b_next b) (b_qnext b) (b_data b).
Definition set_next (n : nat) (b : buf) : buf :=
  mkbuf (b_flags b) (b_dev b) (b_sector b) (b_prev b) n (b_qnext b) (b_data b).
Definition set_qnext (q : option nat) (b : buf) : buf :=
  mkbuf (b_flags b) (b_dev b) (b_sector b) (b_prev b) (b_next b) q (b_data b).
Definition set_data (d : block) (b : buf) : buf :=
  mkbuf (b_flags b) (b_dev b) (b_sector b) (b_prev b) (b_next b) (b_qnext b) d.

(** The task-file registers [idestart] writes with [outb]. *)
Record ide_regs := mkregs {
  r_base : Z; r_ctrl : Z; r_seccnt : Z;
  r_sector : Z; r_cyl_lo : Z; r_cyl_hi : Z; r_sdh : Z; r_command : Z;
}.

Record bstate := mkbstate {
  bs_bufs : list buf;           (* bcache.buf, then bcache.head *)
  idequeue : option nat;
  ide_task : ide_regs;
  ide_store : diskmap;
  havedisk1 : bool;
  havedisk2 : bool;
  ide_fault : bufkey -> bool;   (* sectors on which the drive reports an error *)
}.

Definition upd_bufs (l : list buf) (s : bstate) : bstate :=
  mkbstate l (idequeue s) (ide_task s) (ide_store s) (havedisk1 s) (havedisk2 s) (ide_fault s).
Definition upd_queue (q : option nat) (s : bstate) : bstate :=
  mkbstate (bs_bufs s) q (ide_task s) (ide_store s) (havedisk1 s) (havedisk2 s) (ide_fault s).
Definition upd_task (t : ide_regs) (s : bstate) : bstate :=
  mkbstate (bs_bufs s) (idequeue s) t (ide_store s) (havedisk1 s) (havedisk2 s) (ide_fault s).
Definition upd_store (d : diskmap) (s : bstate) : bstate :=
  mkbstate (bs_bufs s) (idequeue s) (ide_task s) d (havedisk1 s) (havedisk2 s) (ide_fault s).

Definition buf_at (s : bstate) (i : nat) : buf := nth i (bs_bufs s) buf0.
Definition upd (i : nat) (f : buf -> buf) (s : bstate) : bstate :=
  upd_bufs (alter f i (bs_bufs s)) s.

Definition has_flag (f m : Z) : bool := negb (Z.land f m =? 0).

(** ** [bio.c] *)

(** [binit]: push every buffer at the front of the circular list. *)
Definition binit_step (s : bstate) (b : nat) : bstate :=
  let n := b_next (buf_at s HEAD) in
  let s := upd b (set_next n) s in
  let s := upd b (set_prev HEAD) s in
  let s := upd b (fun x => set_key (u32 (-1)) (b_sector x) x) s in
  let s := upd n (set_prev b) s in
  upd HEAD (set_next b) s.

Definition binit (s : bstate) : bstate :=
  let s := upd HEAD (set_prev HEAD) s in
  let s := upd HEAD (set_next HEAD) s in
  foldl binit_step s (seq 0 NBUF).

(** [for(b = ...; b != &bcache.head; b = step b) if(test b) ...] *)
Fixpoint scan (fuel : nat) (step : buf -> nat) (test : buf -> bool) (s : bstate) (b : nat)
  : option nat :=
  match fuel with
  | O => None
  | S fuel =>
      if (b =? HEAD)%nat then None
      else if test (buf_at s b) then Some b
      else scan fuel step test s (step (buf_at s b))
  end.

Definition bget (dev sector : Z) (s : bstate) : outcome (nat * bstate) :=
  (* Is the sector already cached? *)
  match scan (S NBUF) b_next (fun b => (b_dev b =? dev) && (b_sector b =? sector))
          s (b_next (buf_at s HEAD)) with
  | Some b =>
      if has_flag (b_flags (buf_at s b)) B_BUSY
      then Fail Blocked
      else Ok (b, upd b (fun x => set_flags (Z.lor (b_flags x) B_BUSY) x) s)
  | None =>
      (* Not cached; recycle some non-busy and clean buffer. *)
      match scan (S NBUF) b_prev
              (fun b => negb (has_flag (b_flags b) B_BUSY) && negb (has_flag (b_flags b) B_DIRTY))
              s (b_prev (buf_at s HEAD)) with
      | Some b => Ok (b, upd b (fun x => set_flags B_BUSY (set_key dev sector x)) s)
      | None => Fail (Panic "bget: no buffers")
      end
  end.

(** ** [ide.c] *)

Definition IDE_CMD_READ : Z := 0x20.
Definition IDE_CMD_WRITE : Z := 0x30.

(** [channels[dev >> 1]]: base and control port of the drive's channel. *)
Definition channel (dev : Z) : option (Z * Z) :=
  match Z.shiftr dev 1 with
  | 0 => Some (0x1F0, 0x3F4)
  | 1 => Some (0x170, 0x374)
  | _ => None
  end.

Definition idestart_regs (b : buf) (ch : Z * Z) : ide_regs :=
  mkregs ch.1 ch.2 1
    (Z.land (b_sector b) 0xff)
    (Z.land (Z.shiftr (b_sector b) 8) 0xff)
    (Z.land (Z.shiftr (b_sector b) 16) 0xff)
    (Z.lor 0xe0 (Z.lor (Z.shiftl (Z.land (b_dev b) 1) 4) (Z.land (Z.shiftr (b_sector b) 24) 0x0f)))
    (if has_flag (b_flags b) B_DIRTY then IDE_CMD_WRITE else IDE_CMD_READ).

(** The drive and LBA28 sector a task file addresses. *)
Definition ide_addr (t : ide_regs) : bufkey :=
  ((if r_base t =? 0x1F0 then 0 else 2) + Z.land (Z.shiftr (r_sdh t) 4) 1,
   r_sector t + Z.shiftl (r_cyl_lo t) 8 + Z.shiftl (r_cyl_hi t) 16
   + Z.shiftl (Z.land (r_sdh t) 0x0f) 24).

(** [idestart]: program the registers; for a write, [outsl] hands the drive
    the 512 bytes it stores. *)
Definition idestart (b : nat) (s : bstate) : outcome bstate :=
  match channel (b_dev (buf_at s b)) with
  | None => Fail (Undef "idestart: channels out of range")
  | Some ch =>
      let t := idestart_regs (buf_at s b) ch in
      let s := upd_task t s in
      Ok (if has_flag (b_flags (buf_at s b)) B_DIRTY
          then upd_store (<[ide_addr t := b_data (buf_at s b)]> (ide_store s)) s
          else s)
  end.

(** [ideintr]: complete the request at the head of the queue. *)
Definition ideintr (s : bstate) : outcome bstate :=
  match idequeue s with
  | None => Ok s
  | Some b =>
      let s := upd_queue (b_qnext (buf_at s b)) s in
      let s :=
        if negb (has_flag (b_flags (buf_at s b)) B_DIRTY) && negb (ide_fault s (ide_addr (ide_task s)))
        then upd b (set_data (disk_get (ide_store s) (ide_addr (ide_task s)))) s
        else s in
      let s := upd b (fun x => set_flags (Z.lor (b_flags x) B_VALID) x) s in
      let s := upd b (fun x => set_flags (Z.land (b_flags x) (Z.lnot B_DIRTY)) x) s in
      match idequeue s with
      | Some b' => idestart b' s
      | None => Ok s
      end
  end.

(** Walk [qnext] to the last request. *)
Fixpoint queue_last (fuel : nat) (s : bstate) (b : nat) : nat :=
  match fuel with
  | O => b
  | S fuel =>
      match b_qnext (buf_at s b) with
      | None => b
      | Some b' => queue_last fuel s b'
      end
  end.

(** [while((b->flags & (B_VALID|B_DIRTY)) != B_VALID) sleep(b, &idelock)]:
    each turn lets the next disk interrupt in. *)
Fixpoint ide_sleep (fuel : nat) (b : nat) (s : bstate) : outcome bstate :=
  if Z.land (b_flags (buf_at s b)) (Z.lor B_VALID B_DIRTY) =? B_VALID then Ok s
  else
    match fuel with
    | O => Fail Blocked
    | S fuel => obind (ideintr s) (ide_sleep fuel b)
    end.

Definition iderw (b : nat) (s : bstate) : outcome bstate :=
  let f := b_flags (buf_at s b) in
  let dev := b_dev (buf_at s b) in
  if negb (has_flag f B_BUSY) then Fail (Panic "iderw: buf not busy")
  else if Z.land f (Z.lor B_VALID B_DIRTY) =? B_VALID then Fail (Panic "iderw: nothing to do")
  else if negb (dev =? 0) && negb (havedisk1 s) then Fail (Panic "iderw: ide disk 1 not present")
  else if negb (dev =? 0) && negb (havedisk2 s) then Fail (Panic "iderw: ide disk 2 not present")
  else
    (* Append b to idequeue. *)
    let s := upd b (set_qnext None) s in
    let s :=
      match idequeue s with
      | None => upd_queue (Some b) s
      | Some h => upd (queue_last NBUF s h) (set_qnext (Some b)) s
      end in
    (* Start disk if necessary. *)
    let? s := if decide (idequeue s = Some b) then idestart b s else Ok s in
    (* Wait for request to finish. *)
    ide_sleep (S NBUF) b s.

Definition bread_idx (dev sector : Z) (s : bstate) : outcome (nat * bstate) :=
  let? (b, s) := bget dev sector s in
  if has_flag (b_flags (buf_at s b)) B_VALID then Ok (b, s)
  else let? s := iderw b s in Ok (b, s).

Definition bwrite_idx (b : nat) (s : bstate) : outcome bstate :=
  if negb (has_flag (b_flags (buf_at s b)) B_BUSY) then Fail (Panic "bwrite")
  else iderw b (upd b (fun x => set_flags (Z.lor (b_flags x) B_DIRTY) x) s).

(** [brelse]: unlink, push at the front, clear [B_BUSY]. *)
Definition brelse_idx (b : nat) (s : bstate) : outcome bstate :=
  if negb (has_flag (b_flags (buf_at s b)) B_BUSY) then Fail (Panic "brelse")
  else
    let s := upd (b_next (buf_at s b)) (set_prev (b_prev (buf_at s b))) s in
    let s := upd (b_prev (buf_at s b)) (set_next (b_next (buf_at s b))) s in
    let s := upd b (set_next (b_next (buf_at s HEAD))) s in
    let s := upd b (set_prev HEAD) s in
    let s := upd (b_next (buf_at s HEAD)) (set_prev b) s in
    let s := upd HEAD (set_next b) s in
    Ok (upd b (fun x => set_flags (Z.land (b_flags x) (Z.lnot B_BUSY)) x) s).

(** ** [memide.c]: the same driver entry point over a memory disk *)

Definition memide_iderw (disksize : Z) (b : nat) (s : bstate) : outcome bstate :=
  let f := b_flags (buf_at s b) in
  let k := (b_dev (buf_at s b), b_sector (buf_at s b)) in
  if negb (has_flag f B_BUSY) then Fail (Panic "iderw: buf not busy")
  else if Z.land f (Z.lor B_VALID B_DIRTY) =? B_VALID then Fail (Panic "iderw: nothing to do")
  else if negb (k.1 =? 1) then Fail (Panic "iderw: request not for disk 1")
  else if disksize <=? k.2 then Fail (Panic "iderw: sector out of range")
  else
    let s :=
      if has_flag f B_DIRTY
      then let s := upd b (fun x => set_flags (Z.land (b_flags x) (Z.lnot B_DIRTY)) x) s in
           upd_store (<[k := b_data (buf_at s b)]> (ide_store s)) s
      else upd b (set_data (disk_get (ide_store s) k)) s in
    Ok (upd b (fun x => set_flags (Z.lor (b_flags x) B_VALID) x) s).

(** ** The buffer cache as a block store *)

(** The buffer a caller holding [(dev, sector)] points to. *)
Definition held (s : bstate) (k : bufkey) : option nat :=
  List.find (fun i => let b := buf_at s i in
    (b_dev b =? k.1) && (b_sector b =? k.2) && has_flag (b_flags b) B_BUSY) (seq 0 NBUF).

Definition with_held {X} (s : bstate) (k : bufkey) (f : nat -> outcome X) : outcome X :=
  match held s k with
  | Some i => f i
  | None => Fail (Undef "buffer not held")
  end.

Definition bio_step {X} (e : blkE X) (s : bstate) : outcome (X * bstate) :=
  match e with
  | EBread dev sector =>
      let? (i, s) := bread_idx dev sector s in
      Ok ((b_dev (buf_at s i), b_sector (buf_at s i)), s)
  | EData k => with_held s k (fun i => Ok (b_data (buf_at s i), s))
  | EStore k d => with_held s k (fun i => Ok (tt, upd i (set_data d) s))
  | EBwrite k => with_held s k (fun i => let? s := bwrite_idx i s in Ok (tt, s))
  | EBrelse k => with_held s k (fun i => let? s := brelse_idx i s in Ok (tt, s))
  | EDirty k => with_held s k (fun i =>
      Ok (tt, upd i (fun x => set_flags (Z.lor (b_flags x) B_DIRTY) x) s))
  end.

#[global] Instance bio_store : Store blkE bstate := {
  st_step := @bio_step;
  st_trace X e s := [ide_store s];
  st_disk := ide_store;
}.

(** The state before [binit]: zeroed memory, both disks present. *)
Definition boot_state (d : diskmap) : bstate :=
  binit (mkbstate (replicate (S NBUF) buf0) None (mkregs 0 0 0 0 0 0 0 0) d true true
           (fun _ => false)).

Example bio_roundtrip :
  let d : diskmap := <[(1, 7) := replicate 512 9]> ∅ in
  match run (b <- bread 1 7;; d0 <- bdata b;;
             bmodify b (put_u32 0 305419896);;; bwrite b;;; brelse b;;;
             b <- bread 1 7;; d1 <- bdata b;; brelse b;;; Ret (get_u32 0 d0, get_u32 0 d1))
          tt (boot_state d) with
  | Ok (r, _, s) => r = (151587081, 305419896) /\ get_u32 0 (disk_get (ide_store s) (1, 7)) = 305419896
  | Fail _ => False
  end.
Proof. vm_compute. done. Qed.
