(* ===== verification/AStore.v ===== *)
(** * The block store [bio.c] promises

    The comment at the head of [bio.c] describes buffers without mentioning
    the LRU list, the queue or the drive.  [astore] is that contract: the
    contents of the disk, and the buffers that are locked or carry logged,
    not yet written, changes.  A buffer that is neither holds exactly the
    disk's bytes, so it needs no state.  The contract says when [bread] blocks
    (the buffer is locked), when it panics ([NBUF] buffers are pinned), and
    that releasing a changed buffer without [bwrite] or [log_write] is outside
    the contract, because the change may or may not survive eviction. *)

From stdpp Require Import base gmap strings numbers list.
From S2P Require Import Prelude Prog Bio.

Record abuf := mkabuf { ab_data : block; ab_busy : bool; ab_dirty : bool }.

Record astore := mkastore {
  as_disk : diskmap;
  as_pin : gmap bufkey abuf;
  as_have1 : bool;
  as_have2 : bool;
}.

Definition with_pin (p : gmap bufkey abuf) (a : astore) : astore :=
  mkastore (as_disk a) p (as_have1 a) (as_have2 a).

(** What [iderw] and [idestart] require of a device and a sector. *)
Definition ide_check (a : astore) (dev sector : Z) : option stop :=
  if negb (dev =? 0) && negb (as_have1 a) then Some (Panic "iderw: ide disk 1 not present")
  else if negb (dev =? 0) && negb (as_have2 a) then Some (Panic "iderw: ide disk 2 not present")
  else if negb ((0 <=? dev) && (dev <? 4)) then Some (Undef "no such channel")
  else if negb ((0 <=? sector) && (sector <? 2 ^ 28)) then Some (Undef "sector beyond LBA28")
  else None.

Definition as_bread (dev sector : Z) (a : astore) : outcome (bufkey * astore) :=
  let k := (dev, sector) in
  match as_pin a !! k with
  | Some b =>
      if ab_busy b then Fail Blocked
      else Ok (k, with_pin (<[k := mkabuf (ab_data b) true (ab_dirty b)]> (as_pin a)) a)
  | None =>
      if (NBUF <=? size (as_pin a))%nat then Fail (Panic "bget: no buffers")
      else
        match ide_check a dev sector with
        | Some e => Fail e
        | None => Ok (k, with_pin (<[k := mkabuf (disk_get (as_disk a) k) true false]> (as_pin a)) a)
        end
  end.

(** The operations below are for the holder of the buffer. *)
Definition as_held {X} (a : astore) (k : bufkey) (f : abuf -> outcome X) : outcome X :=
  match as_pin a !! k with
  | Some b => if ab_busy b then f b else Fail (Undef "buffer not held")
  | None => Fail (Undef "buffer not held")
  end.

Definition as_store (k : bufkey) (d : block) (b : abuf) (a : astore) : outcome astore :=
  if decide (length d = 512%nat)
  then Ok (with_pin (<[k := mkabuf d true (ab_dirty b)]> (as_pin a)) a)
  else Fail (Undef "store outside the buffer").

Definition as_bwrite (k : bufkey) (b : abuf) (a : astore) : astore :=
  mkastore (<[k := ab_data b]> (as_disk a))
    (<[k := mkabuf (ab_data b) true false]> (as_pin a)) (as_have1 a) (as_have2 a).

Definition as_brelse (k : bufkey) (b : abuf) (a : astore) : outcome astore :=
  if ab_dirty b then Ok (with_pin (<[k := mkabuf (ab_data b) false true]> (as_pin a)) a)
  else if decide (ab_data b = disk_get (as_disk a) k)
  then Ok (with_pin (delete k (as_pin a)) a)
  else Fail (Undef "changed buffer released without a write").

Definition as_step {X} (e : blkE X) (a : astore) : outcome (X * astore) :=
  match e with
  | EBread dev sector => as_bread dev sector a
  | EData k => as_held a k (fun b => Ok (ab_data b, a))
  | EStore k d => as_held a k (fun b => let? a := as_store k d b a in Ok (tt, a))
  | EBwrite k => as_held a k (fun b => Ok (tt, as_bwrite k b a))
  | EBrelse k => as_held a k (fun b => let? a := as_brelse k b a in Ok (tt, a))
  | EDirty k => as_held a k (fun b =>
      Ok (tt, with_pin (<[k := mkabuf (ab_data b) true true]> (as_pin a)) a))
  end.

#[global] Instance astore_store : Store blkE astore := {
  st_step := @as_step;
  st_trace X e a := [as_disk a];
  st_disk := as_disk;
}.

Definition aboot (d : diskmap) : astore := mkastore d ∅ true true.
