(* ===== verification/BioFacts.v ===== *)
(** * Facts about the buffer cache: flags, the LRU list, the driver *)

From stdpp Require Import base gmap strings numbers list.
From S2P Require Import Prelude Prog Bio.

(** ** Flag words *)

Definition busy (b : buf) : bool := has_flag (b_flags b) B_BUSY.
Definition valid (b : buf) : bool := has_flag (b_flags b) B_VALID.
Definition dirty (b : buf) : bool := has_flag (b_flags b) B_DIRTY.
Definition pinned (b : buf) : bool := busy b || dirty b.
Definition bkey (b : buf) : bufkey := (b_dev b, b_sector b).

Ltac flag_cases f :=
  let H := fresh in
  assert (f = 0 \/ f = 1 \/ f = 2 \/ f = 3 \/ f = 4 \/ f = 5 \/ f = 6 \/ f = 7) as H by lia;
  destruct H as [->|[->|[->|[->|[->|[->|[->| ->]]]]]]].

Lemma flags_set_busy f : 0 <= f < 8 ->
  0 <= Z.lor f B_BUSY < 8 /\ has_flag (Z.lor f B_BUSY) B_BUSY = true /\
  has_flag (Z.lor f B_BUSY) B_VALID = has_flag f B_VALID /\
  has_flag (Z.lor f B_BUSY) B_DIRTY = has_flag f B_DIRTY.
Proof. intros. flag_cases f; vm_compute; intuition congruence. Qed.

Lemma flags_set_dirty f : 0 <= f < 8 ->
  0 <= Z.lor f B_DIRTY < 8 /\ has_flag (Z.lor f B_DIRTY) B_DIRTY = true /\
  has_flag (Z.lor f B_DIRTY) B_VALID = has_flag f B_VALID /\
  has_flag (Z.lor f B_DIRTY) B_BUSY = has_flag f B_BUSY.
Proof. intros. flag_cases f; vm_compute; intuition congruence. Qed.

Lemma flags_clear_busy f : 0 <= f < 8 ->
  0 <= Z.land f (Z.lnot B_BUSY) < 8 /\ has_flag (Z.land f (Z.lnot B_BUSY)) B_BUSY = false /\
  has_flag (Z.land f (Z.lnot B_BUSY)) B_VALID = has_flag f B_VALID /\
  has_flag (Z.land f (Z.lnot B_BUSY)) B_DIRTY = has_flag f B_DIRTY.
Proof. intros. flag_cases f; vm_compute; intuition congruence. Qed.

(** The flag word [ideintr] leaves: valid, clean, still as busy as before. *)
Lemma flags_done f : 0 <= f < 8 ->
  let f' := Z.land (Z.lor f B_VALID) (Z.lnot B_DIRTY) in
  0 <= f' < 8 /\ has_flag f' B_VALID = true /\ has_flag f' B_DIRTY = false /\
  has_flag f' B_BUSY = has_flag f B_BUSY /\ (Z.land f' (Z.lor B_VALID B_DIRTY) =? B_VALID) = true.
Proof. intros. flag_cases f; vm_compute; intuition congruence. Qed.

Lemma flags_synced f : 0 <= f < 8 ->
  (Z.land f (Z.lor B_VALID B_DIRTY) =? B_VALID) = has_flag f B_VALID && negb (has_flag f B_DIRTY).
Proof. intros. flag_cases f; reflexivity. Qed.

(** ** Updates of one buffer *)

Lemma buf_at_upd s i j f :
  (i < length (bs_bufs s))%nat ->
  buf_at (upd i f s) j = if decide (i = j) then f (buf_at s j) else buf_at s j.
Proof.
  intros Hi. unfold buf_at, upd. simpl. rewrite !nth_lookup.
  case_decide as Hd.
  - subst. rewrite list_lookup_alter_eq.
    destruct (lookup_lt_is_Some_2 (bs_bufs s) j Hi) as [x Hx]. by rewrite Hx.
  - by rewrite list_lookup_alter_ne by done.
Qed.

Lemma length_upd s i f : length (bs_bufs (upd i f s)) = length (bs_bufs s).
Proof. unfold upd. simpl. apply length_alter. Qed.

(** ** The LRU list

    [seg nx pv x l y]: following [nx] from [x] visits [l] and arrives at [y],
    and following [pv] from [y] goes back the same way. *)

Fixpoint seg (nx pv : nat -> nat) (x : nat) (l : list nat) (y : nat) : Prop :=
  match l with
  | [] => nx x = y /\ pv y = x
  | z :: l => nx x = z /\ pv z = x /\ seg nx pv z l y
  end.

Definition fupd (f : nat -> nat) (i v : nat) : nat -> nat :=
  fun j => if decide (i = j) then v else f j.

Section Seg.
Implicit Types (nx pv : nat -> nat) (l : list nat).

Lemma seg_app nx pv x l1 b l2 y :
  seg nx pv x (l1 ++ b :: l2) y <-> seg nx pv x l1 b /\ seg nx pv b l2 y.
Proof.
  revert x. induction l1 as [|z l1 IH]; intros x; simpl; [tauto|].
  rewrite IH. tauto.
Qed.

Lemma seg_ext nx pv nx' pv' x l y :
  (forall z, z ∈ x :: l -> nx' z = nx z) ->
  (forall z, z ∈ l ++ [y] -> pv' z = pv z) ->
  seg nx pv x l y -> seg nx' pv' x l y.
Proof.
  revert x. induction l as [|z l IH]; simpl; intros x Hn Hp.
  - rewrite Hn, Hp by set_solver. auto.
  - rewrite Hn, Hp by set_solver. intros (?&?&?). split; [done|]. split; [done|].
    apply IH; auto.
    + intros w Hw. apply Hn. set_solver.
    + intros w Hw. apply Hp. set_solver.
Qed.

Lemma seg_prev_in nx pv x l y : seg nx pv x l y -> pv y ∈ x :: l.
Proof.
  revert x. induction l as [|z l IH]; simpl; intros x; [set_solver|].
  intros (?&?&?%IH). set_solver.
Qed.

Lemma seg_first nx pv x l y : seg nx pv x l y -> nx x = hd y l.
Proof. destruct l; simpl; tauto. Qed.

(** Redirect the last link of a segment. *)
Lemma seg_relink nx pv x l b n :
  NoDup (x :: l) -> n ∉ l -> seg nx pv x l b ->
  seg (fupd nx (pv b) n) (fupd pv n (pv b)) x l n.
Proof.
  revert x. induction l as [|z l IH]; simpl; intros x Hnd Hn Hs.
  - destruct Hs as [? <-]. unfold fupd. by rewrite !decide_True.
  - destruct Hs as (Hx & Hz & Hs). apply not_elem_of_cons in Hn as [Hnz Hnl].
    apply NoDup_cons in Hnd as [Hxl Hnd].
    pose proof (seg_prev_in _ _ _ _ _ Hs) as Hin.
    assert (pv b <> x) by (intros Heq; by rewrite Heq in Hin).
    split; [unfold fupd; by rewrite decide_False|].
    split; [unfold fupd; by rewrite decide_False|]. auto.
Qed.

(** [brelse]'s first two assignments take [b] out of the list. *)
Lemma seg_unlink nx pv h l1 b l2 :
  NoDup (h :: l1 ++ b :: l2) -> seg nx pv h (l1 ++ b :: l2) h ->
  seg (fupd nx (pv b) (nx b)) (fupd pv (nx b) (pv b)) h (l1 ++ l2) h.
Proof.
  intros Hnd Hs. apply seg_app in Hs as [H1 H2].
  assert (NoDup (h :: l1)) as Hnd1.
  { apply (NoDup_app (h :: l1) (b :: l2)) in Hnd. tauto. }
  assert (forall z, z ∈ h :: l1 -> z ∉ b :: l2) as Hdisj.
  { apply (NoDup_app (h :: l1) (b :: l2)) in Hnd. tauto. }
  assert (NoDup (b :: l2)) as Hnd2.
  { apply (NoDup_app (h :: l1) (b :: l2)) in Hnd. tauto. }
  pose proof (seg_prev_in _ _ _ _ _ H1) as Hpin.
  destruct l2 as [|n l2]; simpl in H2.
  - destruct H2 as [Hb Hh]. rewrite app_nil_r, Hb.
    apply seg_relink; [done| |done]. apply NoDup_cons in Hnd1. tauto.
  - destruct H2 as (Hb & Hn & H2). rewrite Hb. apply seg_app. split.
    + apply seg_relink; [done|set_solver|done].
    + eapply seg_ext; [| |exact H2]; unfold fupd; intros z Hz.
      * rewrite decide_False; [done|]. intros <-. apply (Hdisj _ Hpin). set_solver.
      * rewrite decide_False; [done|]. intros <-.
        apply NoDup_cons in Hnd2 as [_ Hnd2]. apply NoDup_cons in Hnd2 as [Hn2 _].
        apply elem_of_app in Hz as [?|Hz]; [done|].
        apply list_elem_of_singleton in Hz.
        apply (Hdisj n); [rewrite Hz; left|right; left].
Qed.

(** ... and the last four put it at the front. *)
Lemma seg_push nx pv h l b :
  NoDup (h :: l) -> b ∉ h :: l -> seg nx pv h l h ->
  seg (fupd (fupd nx b (nx h)) h b) (fupd (fupd pv b h) (nx h) b) h (b :: l) h.
Proof.
  intros Hnd Hb Hs. apply not_elem_of_cons in Hb as [Hbh Hbl].
  destruct l as [|f l].
  - simpl in *. destruct Hs as [-> Hp]. unfold fupd. repeat case_decide; naive_solver.
  - simpl in Hs. destruct Hs as (-> & Hp & Hs).
    apply NoDup_cons in Hnd as [Hh Hnd]. apply NoDup_cons in Hnd as [Hf Hnd].
    assert (b <> f /\ h <> f) as [? ?] by set_solver.
    simpl. split; [unfold fupd; by rewrite decide_True|].
    split; [unfold fupd; by rewrite decide_False, decide_True by done|].
    split; [unfold fupd; by rewrite decide_False, decide_True by done|].
    split; [unfold fupd; by rewrite decide_True|].
    eapply seg_ext; [| |exact Hs]; unfold fupd; intros z Hz;
      repeat case_decide; set_solver.
Qed.
End Seg.

Definition nx (s : bstate) (i : nat) : nat := b_next (buf_at s i).
Definition pv (s : bstate) (i : nat) : nat := b_prev (buf_at s i).

(** The circular list through [bcache.head] holds exactly the buffers. *)
Definition linked (s : bstate) (l : list nat) : Prop :=
  seg (nx s) (pv s) HEAD l HEAD /\ l ≡ₚ seq 0 NBUF.

Lemma linked_nodup s l : linked s l -> NoDup (HEAD :: l).
Proof.
  intros [_ Hp]. constructor.
  - rewrite Hp, elem_of_seq. unfold HEAD. lia.
  - rewrite Hp. apply NoDup_ListNoDup, seq_NoDup.
Qed.

Lemma linked_in s l i : linked s l -> i ∈ l <-> (i < NBUF)%nat.
Proof. intros [_ Hp]. rewrite Hp, elem_of_seq. unfold NBUF. lia. Qed.

Lemma scan_next_spec s l test x :
  seg (nx s) (pv s) x l HEAD -> (HEAD ∉ l) -> forall fuel, (length l < fuel)%nat ->
  scan fuel b_next test s (nx s x) = List.find (fun i => test (buf_at s i)) l.
Proof.
  revert x. induction l as [|z l IH]; intros x Hs Hh fuel Hf; simpl in *.
  - destruct fuel; [lia|]. destruct Hs as [-> _]. done.
  - destruct fuel as [|fuel]; [lia|]. destruct Hs as (-> & _ & Hs).
    apply not_elem_of_cons in Hh as [Hz Hh]. simpl.
    rewrite (proj2 (Nat.eqb_neq z HEAD)) by done.
    destruct (test (buf_at s z)); [done|]. apply IH; [done|done|lia].
Qed.

Lemma scan_prev_spec s l test y :
  seg (nx s) (pv s) HEAD l y -> (HEAD ∉ l) -> forall fuel, (length l < fuel)%nat ->
  scan fuel b_prev test s (pv s y) = List.find (fun i => test (buf_at s i)) (rev l).
Proof.
  revert y. induction l as [|z l IH] using rev_ind; intros y Hs Hh fuel Hf.
  - destruct fuel; [simpl in *; lia|]. simpl in Hs. destruct Hs as [_ ->]. done.
  - rewrite length_app in Hf. simpl in Hf.
    destruct fuel as [|fuel]; [lia|].
    apply seg_app in Hs as [H1 H2]. simpl in H2. destruct H2 as [_ ->].
    apply not_elem_of_app in Hh as [Hh Hz].
    apply not_elem_of_cons in Hz as [Hz _].
    rewrite rev_unit. simpl.
    rewrite (proj2 (Nat.eqb_neq z HEAD)) by done.
    destruct (test (buf_at s z)); [done|]. apply IH; [done|done|lia].
Qed.

(** ** The driver *)

(** The task file addresses the drive and sector of the buffer, for the four
    drives of the two channels and all LBA28 sectors. *)
Lemma ide_addr_regs b ch :
  channel (b_dev b) = Some ch -> 0 <= b_dev b < 4 -> 0 <= b_sector b < 2 ^ 28 ->
  ide_addr (idestart_regs b ch) = bkey b.
Proof.
  intros Hc Hd Hs. unfold ide_addr, idestart_regs, bkey. cbn [r_base r_sdh r_sector r_cyl_lo r_cyl_hi].
  set (x := Z.land (Z.shiftr (b_sector b) 24) 15).
  assert (x = b_sector b / 2 ^ 24) as Hx.
  { unfold x. change 15 with (Z.ones 4). rewrite Z.land_ones, Z.shiftr_div_pow2 by lia.
    apply Z.mod_small. lia. }
  assert (0 <= x < 16) as Hr by lia.
  assert (Hlow : Z.land (b_sector b) 255 + Z.shiftl (Z.land (Z.shiftr (b_sector b) 8) 255) 8
    + Z.shiftl (Z.land (Z.shiftr (b_sector b) 16) 255) 16 + Z.shiftl x 24 = b_sector b).
  { rewrite !Z.shiftl_mul_pow2 by lia. change 255 with (Z.ones 8).
    rewrite !Z.land_ones, !Z.shiftr_div_pow2 by lia. rewrite Hx. lia. }
  assert (forall e, e = 0 \/ e = 1 ->
    Z.land (Z.shiftr (Z.lor 224 (Z.lor (Z.shiftl e 4) x)) 4) 1 = e /\
    Z.land (Z.lor 224 (Z.lor (Z.shiftl e 4) x)) 15 = x) as Hsdh.
  { clear -Hr. intros e He.
    assert (x = 0 \/ x = 1 \/ x = 2 \/ x = 3 \/ x = 4 \/ x = 5 \/ x = 6 \/ x = 7 \/
      x = 8 \/ x = 9 \/ x = 10 \/ x = 11 \/ x = 12 \/ x = 13 \/ x = 14 \/ x = 15) as Hc by lia.
    generalize dependent x. intros x _ Hc.
    destruct He as [-> | ->]; repeat destruct Hc as [->|Hc]; subst; done. }
  assert ((Z.land (b_dev b) 1 = 0 \/ Z.land (b_dev b) 1 = 1) /\
    (if ch.1 =? 0x1F0 then 0 else 2) + Z.land (b_dev b) 1 = b_dev b) as [Hbit Hdev].
  { clear -Hc Hd. generalize dependent (b_dev b). intros d Hc Hd.
    assert (d = 0 \/ d = 1 \/ d = 2 \/ d = 3) as [E|[E|[E|E]]] by lia;
      subst; injection Hc as <-; vm_compute; auto. }
  destruct (Hsdh _ Hbit) as [-> ->]. by rewrite Hlow, Hdev.
Qed.
