(* ===== verification/BioRefine.v ===== *)
(** * The buffer cache implements the block-store contract

    [bio_rel a s] relates a state of the contract ([AStore]) to a state of the
    cache ([Bio]).  [bio_refines] shows that each of the cache's operations
    does exactly what the contract says, whatever the LRU order and whichever
    sectors happen to be cached; [Prog.run_refines] lifts that to every kernel
    program. *)

From stdpp Require Import base gmap strings numbers list.
From S2P Require Import Prelude Prog Bio AStore BioFacts.

(** [s'] is [s] with buffer [i] replaced by [b]. *)
Record changed (i : nat) (b : buf) (s s' : bstate) : Prop := {
  ch_len : length (bs_bufs s') = length (bs_bufs s);
  ch_at : buf_at s' i = b;
  ch_ne : forall j, j <> i -> buf_at s' j = buf_at s j;
  ch_have1 : havedisk1 s' = havedisk1 s;
  ch_have2 : havedisk2 s' = havedisk2 s;
  ch_fault : ide_fault s' = ide_fault s;
}.

Lemma changed_upd i f s :
  (i < length (bs_bufs s))%nat -> changed i (f (buf_at s i)) s (upd i f s).
Proof.
  intros Hi. constructor; try done.
  - apply length_upd.
  - rewrite buf_at_upd by done. by rewrite decide_True.
  - intros j Hj. rewrite buf_at_upd by done. by rewrite decide_False.
Qed.

Lemma changed_upd2 i f b s s' :
  (i < length (bs_bufs s))%nat -> changed i b s s' -> changed i (f b) s (upd i f s').
Proof.
  intros Hi [Hl Ha Hn H1 H2 H3]. constructor; try done.
  - by rewrite length_upd.
  - rewrite buf_at_upd by lia. rewrite decide_True by done. by rewrite Ha.
  - intros j Hj. rewrite buf_at_upd by lia. rewrite decide_False by done. auto.
Qed.

(** What [iderw] does to a buffer: a dirty one is written, any other is read;
    both end up valid and clean. *)
Definition synced (d : diskmap) (b : buf) : buf :=
  mkbuf (Z.land (Z.lor (b_flags b) B_VALID) (Z.lnot B_DIRTY)) (b_dev b) (b_sector b)
    (b_prev b) (b_next b) None (if dirty b then b_data b else disk_get d (bkey b)).

Definition on_disk (s : bstate) (b : buf) : Prop :=
  0 <= b_flags b < 8 /\ 0 <= b_dev b < 4 /\ 0 <= b_sector b < 2 ^ 28 /\
  (b_dev b = 0 \/ (havedisk1 s = true /\ havedisk2 s = true)).

Lemma channel_some d : 0 <= d < 4 -> exists ch, channel d = Some ch.
Proof.
  intros. assert (d = 0 \/ d = 1 \/ d = 2 \/ d = 3) as [->|[->|[->| ->]]] by lia; eexists; done.
Qed.

Lemma present s (b : buf) :
  (b_dev b = 0 \/ (havedisk1 s = true /\ havedisk2 s = true)) ->
  negb (b_dev b =? 0) && negb (havedisk1 s) = false /\
  negb (b_dev b =? 0) && negb (havedisk2 s) = false.
Proof.
  intros [->|[-> ->]]; split; rewrite ?Z.eqb_refl, ?andb_false_r; done.
Qed.

Lemma idestart_spec i s b :
  buf_at s i = b -> on_disk s b ->
  exists t, ide_addr t = bkey b /\
    idestart i s = Ok (upd_store (if dirty b then <[bkey b := b_data b]> (ide_store s) else ide_store s)
                         (upd_task t s)).
Proof.
  intros Hb (_ & Hd & Hsec & _). destruct (channel_some _ Hd) as [ch Hch].
  exists (idestart_regs b ch). split; [by apply ide_addr_regs|].
  unfold idestart. rewrite Hb, Hch.
  change (buf_at (upd_task _ s) i) with (buf_at s i). rewrite Hb.
  rewrite ide_addr_regs by done. unfold dirty.
  destruct (has_flag (b_flags b) B_DIRTY); done.
Qed.

(** The interrupt that completes the only request of the queue. *)
Lemma ideintr_spec i s b :
  (i < length (bs_bufs s))%nat -> buf_at s i = b -> b_qnext b = None ->
  idequeue s = Some i -> ide_addr (ide_task s) = bkey b -> (forall k, ide_fault s k = false) ->
  exists s', ideintr s = Ok s' /\ changed i (synced (ide_store s) b) s s' /\
    idequeue s' = None /\ ide_store s' = ide_store s.
Proof.
  intros Hi Hb Hqn Hq Ht Hf. unfold ideintr. rewrite Hq. cbv zeta.
  set (s3 := upd_queue (b_qnext (buf_at s i)) s).
  assert (Hb3 : buf_at s3 i = b) by done. rewrite Hb3.
  change (ide_fault s3) with (ide_fault s). change (ide_task s3) with (ide_task s).
  rewrite Hf, Ht. cbn [negb]. rewrite andb_true_r.
  assert (Hc3 : changed i b s s3) by (constructor; done).
  set (s4 := if negb _ then _ else s3).
  assert (Hc4 : changed i (set_data (if dirty b then b_data b else disk_get (ide_store s) (bkey b)) b) s s4).
  { unfold s4, dirty. destruct (has_flag (b_flags b) B_DIRTY); cbn [negb].
    - replace (set_data (b_data b) b) with b by (by destruct b). done.
    - by apply changed_upd2. }
  assert (idequeue s4 = None /\ ide_store s4 = ide_store s) as [Hq4 Hst4].
  { unfold s4. destruct (negb _); simpl; by rewrite Hb. }
  set (s5 := upd i _ (upd i _ s4)). exists s5.
  change (idequeue s5) with (idequeue s4). rewrite Hq4.
  split; [done|]. split; [|done].
  replace (synced (ide_store s) b) with
    (set_flags (Z.land (Z.lor (b_flags b) B_VALID) (Z.lnot B_DIRTY))
       (set_data (if dirty b then b_data b else disk_get (ide_store s) (bkey b)) b)).
  - apply (changed_upd2 i (fun x => set_flags (Z.lor (b_flags x) B_VALID) x)) in Hc4; [|done].
    apply (changed_upd2 i (fun x => set_flags (Z.land (b_flags x) (Z.lnot B_DIRTY)) x)) in Hc4;
      [|done]. exact Hc4.
  - unfold synced, set_flags, set_data. simpl. by rewrite Hqn.
Qed.

Lemma iderw_spec i s b :
  (i < length (bs_bufs s))%nat -> buf_at s i = b -> on_disk s b ->
  idequeue s = None -> (forall k, ide_fault s k = false) ->
  busy b = true -> valid b && negb (dirty b) = false ->
  exists s', iderw i s = Ok s' /\ changed i (synced (ide_store s) b) s s' /\
    idequeue s' = None /\
    ide_store s' = if dirty b then <[bkey b := b_data b]> (ide_store s) else ide_store s.
Proof.
  intros Hi Hb Hod Hq Hf Hbusy Hneed. unfold iderw.
  pose proof Hod as (Hfl & Hd & Hsec & Hpres).
  destruct (present s b Hpres) as [Hp1 Hp2].
  rewrite Hb. unfold busy in Hbusy. rewrite Hbusy. cbn [negb].
  rewrite flags_synced by done. unfold valid, dirty in Hneed. rewrite Hneed, Hp1, Hp2. cbv zeta.
  change (idequeue (upd i (set_qnext None) s)) with (idequeue s). rewrite Hq.
  rewrite decide_True by done.
  set (s1 := upd_queue (Some i) (upd i (set_qnext None) s)).
  assert (changed i (set_qnext None b) s s1) as Hc1.
  { pose proof (changed_upd i (set_qnext None) s Hi) as [? ? ? ? ? ?]. rewrite Hb in *. by constructor. }
  destruct (idestart_spec i s1 (set_qnext None b)) as (t & Hta & Hstart);
    [apply Hc1|by destruct Hc1 as [? ? ? ? ? ?]|].
  rewrite Hstart. cbn [obind]. change (dirty (set_qnext None b)) with (dirty b).
  set (s2 := upd_store _ (upd_task t s1)).
  assert (Hc2 : changed i (set_qnext None b) s s2) by (destruct Hc1; by constructor).
  cbn [ide_sleep]. rewrite (ch_at _ _ _ _ Hc2). change (b_flags (set_qnext None b)) with (b_flags b).
  rewrite flags_synced by done. rewrite Hneed.
  destruct (ideintr_spec i s2 (set_qnext None b)) as (s3 & -> & Hc3 & Hq3 & Hst3);
    [by rewrite (ch_len _ _ _ _ Hc2)|apply Hc2|done|done|done|done|].
  cbn [obind]. exists s3.
  assert (synced (ide_store s2) (set_qnext None b) = synced (ide_store s) b) as Hsy.
  { unfold synced. change (dirty (set_qnext None b)) with (dirty b).
    change (ide_store s2) with
      (if dirty b then <[bkey b := b_data b]> (ide_store s) else ide_store s).
    by destruct (dirty b). }
  rewrite Hsy in Hc3. unfold NBUF. cbn [ide_sleep]. rewrite (ch_at _ _ _ _ Hc3).
  change (b_flags (synced (ide_store s) b)) with (Z.land (Z.lor (b_flags b) B_VALID) (Z.lnot B_DIRTY)).
  destruct (flags_done _ Hfl) as (_ & _ & _ & _ & ->).
  split; [done|]. split; [|split; [done|by rewrite Hst3]].
  destruct Hc2, Hc3. constructor; try congruence.
  intros j Hj. rewrite ch_ne1, ch_ne0; done.
Qed.

(** ** The relation *)

Definition abuf_of (b : buf) : abuf := mkabuf (b_data b) (busy b) (dirty b).

(** A buffer is either untouched since [binit] or holds a sector; when nobody
    has it locked or logged, it holds what the disk holds. *)
Definition bufok (s : bstate) (b : buf) : Prop :=
  (b_flags b = 0 /\ b_dev b = u32 (-1)) \/
  (on_disk s b /\ valid b = true /\ (pinned b = false -> b_data b = disk_get (ide_store s) (bkey b))).

Record wf (s : bstate) (l : list nat) : Prop := {
  wf_len : length (bs_bufs s) = S NBUF;
  wf_linked : linked s l;
  wf_queue : idequeue s = None;
  wf_fault : forall k, ide_fault s k = false;
  wf_buf : forall i, (i < NBUF)%nat -> bufok s (buf_at s i);
  wf_uniq : forall i j, (i < NBUF)%nat -> (j < NBUF)%nat ->
    valid (buf_at s i) = true -> valid (buf_at s j) = true ->
    bkey (buf_at s i) = bkey (buf_at s j) -> i = j;
}.

Definition pins (s : bstate) (p : gmap bufkey abuf) : Prop :=
  forall k ab, p !! k = Some ab <->
    exists i, (i < NBUF)%nat /\ pinned (buf_at s i) = true /\ bkey (buf_at s i) = k /\
      ab = abuf_of (buf_at s i).

Definition bio_rel (a : astore) (s : bstate) : Prop :=
  (exists l, wf s l) /\ as_disk a = ide_store s /\
  as_have1 a = havedisk1 s /\ as_have2 a = havedisk2 s /\ pins s (as_pin a).

Lemma pinned_valid s b : bufok s b -> pinned b = true -> valid b = true.
Proof. intros [[Hf _]|(_&?&_)] Hp; [|done]. unfold pinned, busy, dirty in Hp. by rewrite Hf in Hp. Qed.

Lemma wf_pinned_inj s l i j :
  wf s l -> (i < NBUF)%nat -> (j < NBUF)%nat ->
  pinned (buf_at s i) = true -> pinned (buf_at s j) = true ->
  bkey (buf_at s i) = bkey (buf_at s j) -> i = j.
Proof.
  intros Hw Hi Hj Hpi Hpj Hk. apply (wf_uniq s l Hw); auto.
  - eapply pinned_valid; [eapply wf_buf|]; eauto.
  - eapply pinned_valid; [eapply wf_buf|]; eauto.
Qed.

(** Changing one buffer: the invariant and the pinned map. *)
Record one_change (i : nat) (s s' : bstate) : Prop := {
  oc_i : (i < NBUF)%nat;
  oc_len : length (bs_bufs s') = length (bs_bufs s);
  oc_queue : idequeue s' = None;
  oc_have1 : havedisk1 s' = havedisk1 s;
  oc_have2 : havedisk2 s' = havedisk2 s;
  oc_fault : ide_fault s' = ide_fault s;
  oc_ne : forall j, (j < NBUF)%nat -> j <> i ->
    b_flags (buf_at s' j) = b_flags (buf_at s j) /\ bkey (buf_at s' j) = bkey (buf_at s j) /\
    b_data (buf_at s' j) = b_data (buf_at s j);
}.

Lemma wf_change i s s' l l' :
  wf s l -> one_change i s s' -> linked s' l' -> bufok s' (buf_at s' i) ->
  (forall k, k <> bkey (buf_at s' i) -> disk_get (ide_store s') k = disk_get (ide_store s) k) ->
  (forall j, (j < NBUF)%nat -> j <> i -> valid (buf_at s j) = true ->
     bkey (buf_at s j) <> bkey (buf_at s' i)) ->
  wf s' l'.
Proof.
  intros Hw [Hi Hl Hq H1 H2 Hf Hne] Hlk Hok Hd Hu.
  assert (Hv : forall j, (j < NBUF)%nat -> j <> i -> valid (buf_at s' j) = valid (buf_at s j)).
  { intros j Hj Hji. unfold valid. by destruct (Hne j Hj Hji) as (-> & _ & _). }
  constructor; try done.
  - rewrite Hl. apply (wf_len s l Hw).
  - rewrite Hf. apply (wf_fault s l Hw).
  - intros j Hj. destruct (decide (j = i)) as [->|Hji]; [done|].
    destruct (Hne j Hj Hji) as (Ef & Ek & Ed).
    assert (b_dev (buf_at s' j) = b_dev (buf_at s j) /\ b_sector (buf_at s' j) = b_sector (buf_at s j))
      as [Edv Esc] by (unfold bkey in Ek; naive_solver).
    destruct (wf_buf s l Hw j Hj) as [[E1 E2]|((E1&E2&E3&E4)&Evd&Edt)].
    + left. split; congruence.
    + right. unfold on_disk. rewrite Hv, Ef, Ed, Edv, Esc, Ek, H1, H2 by done.
      split; [done|]. split; [done|]. intros Hp. rewrite Hd by (by apply Hu).
      apply Edt. unfold pinned, busy, dirty in *. by rewrite <- Ef.
  - intros j j' Hj Hj' Hvj Hvj' Hk.
    destruct (decide (j = i)) as [->|Hji]; destruct (decide (j' = i)) as [->|Hji']; try done.
    + exfalso. rewrite Hv in Hvj' by done. apply (Hu j' Hj' Hji' Hvj').
      destruct (Hne j' Hj' Hji') as (_ & <- & _). done.
    + exfalso. rewrite Hv in Hvj by done. apply (Hu j Hj Hji Hvj).
      destruct (Hne j Hj Hji) as (_ & <- & _). done.
    + rewrite Hv in Hvj, Hvj' by done. destruct (Hne j Hj Hji) as (_ & Ek & _).
      destruct (Hne j' Hj' Hji') as (_ & Ek' & _). apply (wf_uniq s l Hw); congruence.
Qed.

Lemma one_change_pinned i s s' j :
  one_change i s s' -> (j < NBUF)%nat -> j <> i ->
  pinned (buf_at s' j) = pinned (buf_at s j) /\ abuf_of (buf_at s' j) = abuf_of (buf_at s j) /\
  bkey (buf_at s' j) = bkey (buf_at s j).
Proof.
  intros Hc Hj Hji. destruct (oc_ne _ _ _ Hc j Hj Hji) as (Ef & Ek & Ed).
  unfold abuf_of, pinned, busy, dirty. by rewrite Ef, Ek, Ed.
Qed.

Lemma pins_set i s s' p :
  pins s p -> one_change i s s' -> pinned (buf_at s' i) = true ->
  (forall j, (j < NBUF)%nat -> j <> i -> pinned (buf_at s j) = true ->
     bkey (buf_at s j) <> bkey (buf_at s' i)) ->
  (pinned (buf_at s i) = true -> bkey (buf_at s i) = bkey (buf_at s' i)) ->
  pins s' (<[bkey (buf_at s' i) := abuf_of (buf_at s' i)]> p).
Proof.
  intros Hp Hc Hpi Hu Hsame k ab. rewrite lookup_insert_Some, (Hp k ab). split.
  - intros [[<- <-]|(Hk & j & Hj & Hpj & Ek & Eab)].
    + exists i. pose proof (oc_i _ _ _ Hc). done.
    + exists j. assert (j <> i) by (intros ->; rewrite Hsame in Ek; done).
      destruct (one_change_pinned i s s' j Hc Hj) as (-> & -> & ->); done.
  - intros (j & Hj & Hpj & Ek & Eab). destruct (decide (j = i)) as [->|Hji]; [by left|].
    right. destruct (one_change_pinned i s s' j Hc Hj Hji) as (E1 & E2 & E3).
    rewrite E1 in Hpj. rewrite E2 in Eab. rewrite E3 in Ek.
    split; [|by exists j]. intros Heq. apply (Hu j Hj Hji Hpj). congruence.
Qed.

Lemma pins_unset i s s' p :
  pins s p -> one_change i s s' -> pinned (buf_at s' i) = false -> pinned (buf_at s i) = true ->
  (forall j, (j < NBUF)%nat -> j <> i -> pinned (buf_at s j) = true ->
     bkey (buf_at s j) <> bkey (buf_at s i)) ->
  pins s' (delete (bkey (buf_at s i)) p).
Proof.
  intros Hp Hc Hpi' Hpi Hu k ab. rewrite lookup_delete_Some, (Hp k ab). split.
  - intros (Hk & j & Hj & Hpj & Ek & Eab). exists j.
    assert (j <> i) as Hji by congruence.
    destruct (one_change_pinned i s s' j Hc Hj) as (-> & -> & ->); done.
  - intros (j & Hj & Hpj & Ek & Eab). assert (j <> i) as Hji by congruence.
    destruct (one_change_pinned i s s' j Hc Hj Hji) as (E1 & E2 & E3).
    rewrite E1 in Hpj. rewrite E2 in Eab. rewrite E3 in Ek.
    split; [|by exists j]. intros <-. by apply (Hu j Hj Hji Hpj).
Qed.

Lemma filter_all {A} (P : A -> Prop) `{forall x, Decision (P x)} (l : list A) :
  (forall x, x ∈ l -> P x) -> filter P l = l.
Proof.
  induction l as [|x l IH]; intros HP; [done|].
  rewrite filter_cons_True by (apply HP; left). f_equal. apply IH.
  intros y Hy. apply HP. by right.
Qed.

(** The pinned map is full exactly when every buffer is pinned. *)
Lemma pins_size s l p :
  wf s l -> pins s p -> size p = length (filter (fun i => pinned (buf_at s i) = true) (seq 0 NBUF)).
Proof.
  intros Hw Hp. set (pl := filter _ _).
  assert (forall i, i ∈ pl <-> pinned (buf_at s i) = true /\ (i < NBUF)%nat) as His.
  { intros i. unfold pl. rewrite list_elem_of_filter, elem_of_seq. unfold NBUF. intuition lia. }
  assert (dom p = list_to_set (map (fun i => bkey (buf_at s i)) pl)) as Hdom.
  { apply set_eq. intros k. rewrite elem_of_dom, elem_of_list_to_set, list_elem_of_In, in_map_iff.
    split.
    - intros [ab Hab]. apply Hp in Hab as (i & Hi & Hpi & Hk & _). exists i. split; [done|].
      apply list_elem_of_In, His. done.
    - intros (i & Hk & Hi). apply list_elem_of_In, His in Hi as [Hpi Hi].
      exists (abuf_of (buf_at s i)). apply Hp. by exists i. }
  rewrite <- size_dom, Hdom, size_list_to_set, length_map; [done|].
  apply (NoDup_fmap_2_strong (fun i => bkey (buf_at s i)) pl).
  - intros i j [??]%His [??]%His Hk. by apply (wf_pinned_inj s l).
  - apply NoDup_filter, NoDup_ListNoDup, seq_NoDup.
Qed.

Lemma pins_full s l p :
  wf s l -> pins s p ->
  (NBUF <=? size p)%nat = true <-> forall i, (i < NBUF)%nat -> pinned (buf_at s i) = true.
Proof.
  intros Hw Hp. rewrite Nat.leb_le, (pins_size s l p Hw Hp).
  pose proof (length_seq NBUF 0) as Hlen. split.
  - intros Hle i Hi. destruct (pinned (buf_at s i)) eqn:E; [done|]. exfalso.
    assert (length (filter (fun i => pinned (buf_at s i) = true) (seq 0 NBUF)) < length (seq 0 NBUF))%nat.
    { apply length_filter_lt with i; [by rewrite elem_of_seq; lia|]. by rewrite E. }
    lia.
  - intros Hall.
    assert (filter (fun i => pinned (buf_at s i) = true) (seq 0 NBUF) = seq 0 NBUF) as ->; [|lia].
    apply filter_all. intros i. rewrite elem_of_seq. intros. apply Hall. lia.
Qed.

(** ** Operations *)

Lemma changed_one i b s s' :
  (i < NBUF)%nat -> changed i b s s' -> idequeue s' = None -> one_change i s s'.
Proof.
  intros Hi [Hl Ha Hn H1 H2 Hf] Hq. constructor; try done.
  intros j _ Hj. by rewrite Hn.
Qed.

Lemma linked_changed i b s s' l :
  linked s l -> changed i b s s' -> b_next b = b_next (buf_at s i) -> b_prev b = b_prev (buf_at s i) ->
  linked s' l.
Proof.
  intros [Hs Hp] [_ Ha Hn _ _ _] Hnx Hpv. split; [|done].
  eapply seg_ext; [| |exact Hs]; intros z _; unfold nx, pv;
    (destruct (decide (z = i)) as [->|?]; [by rewrite Ha|by rewrite Hn]).
Qed.

Lemma find_unique {A} (f : A -> bool) (l : list A) i :
  i ∈ l -> f i = true -> (forall j, j ∈ l -> f j = true -> j = i) -> List.find f l = Some i.
Proof.
  intros Hi Hf Hu. destruct (List.find f l) as [j|] eqn:E.
  - apply find_some in E as [Hj Hfj]. f_equal. apply Hu; [by apply list_elem_of_In|done].
  - apply list_elem_of_In in Hi. by rewrite (find_none _ _ E i Hi) in Hf.
Qed.

Lemma find_ext' {A} (f g : A -> bool) (l : list A) :
  (forall x, f x = g x) -> List.find f l = List.find g l.
Proof. intros He. induction l as [|x l IH]; simpl; [done|]. by rewrite He, IH. Qed.

Definition key_test (k : bufkey) (b : buf) : bool := (b_dev b =? k.1) && (b_sector b =? k.2).

Lemma key_test_spec k b : key_test k b = true <-> bkey b = k.
Proof.
  unfold key_test, bkey. rewrite andb_true_iff, !Z.eqb_eq. destruct k as [d c]. simpl.
  split; [intros [-> ->]; done|]. intros [= -> ->]. done.
Qed.

Section Ops.
Context (s : bstate) (l : list nat) (Hw : wf s l).

Lemma wf_idx i : (i < NBUF)%nat -> (i < length (bs_bufs s))%nat.
Proof. rewrite (wf_len s l Hw). lia. Qed.

Lemma scan_key k :
  scan (S NBUF) b_next (key_test k) s (b_next (buf_at s HEAD)) =
  List.find (fun i => key_test k (buf_at s i)) l.
Proof.
  destruct (wf_linked s l Hw) as [Hs Hp]. apply (scan_next_spec s l _ HEAD Hs).
  - pose proof (linked_nodup s l (wf_linked s l Hw)) as Hnd. by apply NoDup_cons in Hnd as [? _].
  - rewrite Hp, length_seq. lia.
Qed.

Lemma scan_free :
  scan (S NBUF) b_prev
    (fun b => negb (has_flag (b_flags b) B_BUSY) && negb (has_flag (b_flags b) B_DIRTY))
    s (b_prev (buf_at s HEAD)) =
  List.find (fun i => negb (pinned (buf_at s i))) (rev l).
Proof.
  destruct (wf_linked s l Hw) as [Hs Hp].
  rewrite (scan_prev_spec s l _ HEAD Hs).
  - apply find_ext'. intros i. unfold pinned, busy, dirty. by rewrite negb_orb.
  - pose proof (linked_nodup s l (wf_linked s l Hw)) as Hnd. by apply NoDup_cons in Hnd as [? _].
  - rewrite Hp, length_seq. lia.
Qed.

(** A sector held by a valid buffer is found in that buffer. *)
Lemma scan_key_valid i k :
  (i < NBUF)%nat -> valid (buf_at s i) = true -> bkey (buf_at s i) = k ->
  scan (S NBUF) b_next (key_test k) s (b_next (buf_at s HEAD)) = Some i.
Proof.
  intros Hi Hv Hk. rewrite scan_key. apply find_unique.
  - by apply (linked_in s l i (wf_linked s l Hw)).
  - by apply key_test_spec.
  - intros j Hj Hkj%key_test_spec.
    apply (linked_in s l j (wf_linked s l Hw)) in Hj.
    destruct (wf_buf s l Hw j Hj) as [[_ Hd]|(_ & Hvj & _)].
    + exfalso. destruct (wf_buf s l Hw i Hi) as [[Hf _]|((_ & Hdi & _) & _)].
      * unfold valid in Hv. by rewrite Hf in Hv.
      * unfold bkey in *. rewrite <- Hk in Hkj. injection Hkj as Hdd _. rewrite Hdd in Hd.
        rewrite Hd in Hdi. unfold u32 in Hdi. lia.
    + apply (wf_uniq s l Hw); auto. congruence.
Qed.
End Ops.

(** After a change that leaves buffer [i] pinned, the contract's map has the
    new entry. *)
Lemma rel_set a s l i b s' l' :
  wf s l -> bio_rel a s -> one_change i s s' -> linked s' l' -> buf_at s' i = b ->
  pinned b = true -> on_disk s b -> valid b = true ->
  (forall j, (j < NBUF)%nat -> j <> i -> valid (buf_at s j) = true -> bkey (buf_at s j) <> bkey b) ->
  (pinned (buf_at s i) = true -> bkey (buf_at s i) = bkey b) ->
  (forall k, k <> bkey b -> disk_get (ide_store s') k = disk_get (ide_store s) k) ->
  bio_rel (mkastore (ide_store s') (<[bkey b := abuf_of b]> (as_pin a)) (as_have1 a) (as_have2 a)) s'.
Proof.
  intros Hw (_ & _ & Hh1 & Hh2 & Hp) Hc Hlk Hb Hpin Hod Hv Hu Hsame Hd. subst b.
  split; [exists l'; eapply wf_change; eauto|].
  - right. unfold on_disk in *. rewrite (oc_have1 _ _ _ Hc), (oc_have2 _ _ _ Hc).
    split; [done|]. split; [done|]. rewrite Hpin. done.
  - simpl. rewrite (oc_have1 _ _ _ Hc), (oc_have2 _ _ _ Hc).
    split; [done|]. split; [done|]. split; [done|].
    apply (pins_set i s); auto.
    intros j Hj Hji Hpj. apply Hu; auto. eapply pinned_valid; [|done]. by eapply wf_buf.
Qed.

Lemma others_ne s l i b :
  wf s l -> (i < NBUF)%nat -> valid (buf_at s i) = true -> bkey b = bkey (buf_at s i) ->
  forall j, (j < NBUF)%nat -> j <> i -> valid (buf_at s j) = true -> bkey (buf_at s j) <> bkey b.
Proof.
  intros Hw Hi Hv Hk j Hj Hji Hvj He. apply Hji. apply (wf_uniq s l Hw); auto. congruence.
Qed.

(** [bread] of a cached sector nobody has locked. *)
Lemma bread_hit a s l i k :
  wf s l -> bio_rel a s -> (i < NBUF)%nat -> valid (buf_at s i) = true ->
  bkey (buf_at s i) = k -> busy (buf_at s i) = false ->
  exists s', bio_step (EBread k.1 k.2) s = Ok (k, s') /\
    bio_rel (with_pin (<[k := mkabuf (b_data (buf_at s i)) true (dirty (buf_at s i))]> (as_pin a)) a) s'.
Proof.
  intros Hw Hr Hi Hv Hk Hb.
  set (s' := upd i (fun x => set_flags (Z.lor (b_flags x) B_BUSY) x) s).
  pose proof (changed_upd i (fun x => set_flags (Z.lor (b_flags x) B_BUSY) x) s (wf_idx s l Hw i Hi))
    as Hc. fold s' in Hc.
  destruct (wf_buf s l Hw i Hi) as [[Hf _]|(Hod & _ & _)];
    [unfold valid in Hv; by rewrite Hf in Hv|].
  pose proof Hod as (Hfl & Hd & Hsec & Hpr).
  destruct (flags_set_busy _ Hfl) as (Hfl' & Hb' & Hv' & Hd').
  exists s'. split.
  - cbn [bio_step]. unfold bread_idx, bget.
    change (fun b => (b_dev b =? k.1) && (b_sector b =? k.2)) with (key_test k).
    rewrite (scan_key_valid s l Hw i k Hi Hv Hk).
    unfold busy in Hb. rewrite Hb. fold s'. cbn [obind]. rewrite (ch_at _ _ _ _ Hc).
    change (b_flags (set_flags _ (buf_at s i))) with (Z.lor (b_flags (buf_at s i)) B_BUSY).
    unfold valid in Hv. rewrite Hv', Hv. cbn [obind]. rewrite (ch_at _ _ _ _ Hc).
    unfold bkey in Hk. simpl. by rewrite Hk.
  - pose proof Hr as (_ & Hdisk & _).
    replace (with_pin _ a) with (mkastore (ide_store s')
      (<[bkey (buf_at s' i) := abuf_of (buf_at s' i)]> (as_pin a)) (as_have1 a) (as_have2 a)).
    + eapply (rel_set a s l i _ s' l); eauto.
      * eapply changed_one; eauto. apply (wf_queue s l Hw).
      * eapply linked_changed; [apply (wf_linked s l Hw)|exact Hc|done|done].
      * rewrite (ch_at _ _ _ _ Hc). unfold pinned, busy. simpl. by rewrite Hb'.
      * rewrite (ch_at _ _ _ _ Hc). done.
      * rewrite (ch_at _ _ _ _ Hc). unfold valid. simpl. by rewrite Hv'.
      * apply (others_ne s l); auto. by rewrite (ch_at _ _ _ _ Hc).
      * by rewrite (ch_at _ _ _ _ Hc).
    + unfold with_pin. rewrite Hdisk. f_equal. f_equal.
      * by rewrite (ch_at _ _ _ _ Hc).
      * rewrite (ch_at _ _ _ _ Hc). unfold abuf_of, busy, dirty. simpl. by rewrite Hb', Hd'.
Qed.

(** The checks [iderw] makes before it queues a request. *)
Lemma ide_check_stop a s i b e :
  buf_at s i = b -> as_have1 a = havedisk1 s -> as_have2 a = havedisk2 s ->
  busy b = true -> 0 <= b_flags b < 8 -> valid b && negb (dirty b) = false ->
  ide_check a (b_dev b) (b_sector b) = Some e ->
  match e with Undef _ => True | _ => iderw i s = Fail e end.
Proof.
  intros Hat Hh1 Hh2 Hb Hfl Hneed. unfold ide_check, iderw.
  unfold busy in Hb. unfold valid, dirty in Hneed.
  rewrite Hat, Hb, flags_synced, Hneed, Hh1, Hh2 by done. cbn [negb].
  destruct (negb (b_dev b =? 0) && negb (havedisk1 s)); [intros He; by injection He as <-|].
  destruct (negb (b_dev b =? 0) && negb (havedisk2 s)); [intros He; by injection He as <-|].
  destruct (negb ((0 <=? b_dev b) && (b_dev b <? 4))); [intros He; by injection He as <-|].
  destruct (negb ((0 <=? b_sector b) && (b_sector b <? 2 ^ 28))); [intros He; by injection He as <-|done].
Qed.

Lemma ide_check_none a s (b : buf) :
  as_have1 a = havedisk1 s -> as_have2 a = havedisk2 s -> 0 <= b_flags b < 8 ->
  ide_check a (b_dev b) (b_sector b) = None <->  on_disk s b.
Proof.
  intros Hh1 Hh2 Hfl. unfold ide_check, on_disk. rewrite Hh1, Hh2.
  destruct (b_dev b =? 0) eqn:E0, (havedisk1 s), (havedisk2 s); cbn [negb andb];
  destruct ((0 <=? b_dev b) && (b_dev b <? 4)) eqn:E1; cbn [negb];
  destruct ((0 <=? b_sector b) && (b_sector b <? 2 ^ 28)) eqn:E2; cbn [negb];
  split; try done; intros; intuition (try done); lia.
Qed.

(** [bread] of a sector that is not cached, given the buffer to recycle. *)
Lemma bread_fill a s l i k s1 :
  wf s l -> bio_rel a s -> (i < NBUF)%nat -> pinned (buf_at s i) = false ->
  (forall j, (j < NBUF)%nat -> valid (buf_at s j) = true -> bkey (buf_at s j) <> k) ->
  bget k.1 k.2 s = Ok (i, s1) ->
  changed i (set_flags B_BUSY (set_key k.1 k.2 (buf_at s i))) s s1 ->
  idequeue s1 = None -> ide_store s1 = ide_store s ->
  match ide_check a k.1 k.2 with
  | Some (Undef _) => True
  | Some e => bio_step (EBread k.1 k.2) s = Fail e
  | None => exists s', bio_step (EBread k.1 k.2) s = Ok (k, s') /\
      bio_rel (with_pin (<[k := mkabuf (disk_get (as_disk a) k) true false]> (as_pin a)) a) s'
  end.
Proof.
  intros Hw Hr Hi Hpin Hno Hget Hc Hq Hst.
  set (b1 := set_flags B_BUSY (set_key k.1 k.2 (buf_at s i))) in *.
  assert (Hr1 : as_have1 a = havedisk1 s1 /\ as_have2 a = havedisk2 s1).
  { destruct Hr as (_ & _ & -> & -> & _). destruct Hc. by rewrite ch_have3, ch_have4. }
  pose proof (ch_at _ _ _ _ Hc) as Hat.
  cbn [bio_step]. unfold bread_idx. rewrite Hget. cbn [obind]. rewrite Hat.
  change (has_flag (b_flags b1) B_VALID) with false. cbn match.
  destruct (ide_check a k.1 k.2) as [e|] eqn:Hchk.
  - pose proof (ide_check_stop a s1 i b1 e Hat) as He. destruct Hr1 as [E1 E2].
    specialize (He E1 E2 eq_refl ltac:(done) eq_refl Hchk). destruct e; try done; by rewrite He.
  - assert (Hod : on_disk s1 b1) by
      (apply (ide_check_none a s1 b1 (proj1 Hr1) (proj2 Hr1)); done).
    destruct (iderw_spec i s1 b1) as (s2 & -> & Hc2 & Hq2 & Hst2); auto.
    { rewrite (ch_len _ _ _ _ Hc). by apply (wf_idx s l Hw). }
    { rewrite (ch_fault _ _ _ _ Hc). apply (wf_fault s l Hw). }
    cbn [obind]. exists s2. rewrite (ch_at _ _ _ _ Hc2). split; [by destruct k|].
    change (dirty b1) with false in Hst2. cbn match in Hst2. rewrite Hst in Hst2.
    assert (Hc' : changed i (synced (ide_store s1) b1) s s2).
    { destruct Hc, Hc2. constructor; try congruence. intros j Hj. by rewrite ch_ne1, ch_ne0. }
    pose proof Hr as (_ & Hdisk & Hh1 & Hh2 & _).
    replace (with_pin _ a) with (mkastore (ide_store s2)
      (<[bkey (buf_at s2 i) := abuf_of (buf_at s2 i)]> (as_pin a)) (as_have1 a) (as_have2 a)).
    + eapply (rel_set a s l i _ s2 l); eauto.
      * by eapply changed_one.
      * eapply linked_changed; [apply (wf_linked s l Hw)|exact Hc'|done|done].
      * by rewrite (ch_at _ _ _ _ Hc2).
      * rewrite (ch_at _ _ _ _ Hc2). destruct Hod as (_ & ? & ? & ?). destruct Hr1 as [Ea1 Ea2].
        unfold on_disk. rewrite <- Hh1, <- Hh2, Ea1, Ea2. done.
      * by rewrite (ch_at _ _ _ _ Hc2).
      * intros j Hj _ Hvj. rewrite (ch_at _ _ _ _ Hc2). destruct k. by apply Hno.
      * rewrite Hpin. done.
      * by rewrite Hst2.
    + unfold with_pin. rewrite Hdisk, Hst2, (ch_at _ _ _ _ Hc2). f_equal. f_equal; [by destruct k|].
      unfold abuf_of. simpl. f_equal. rewrite Hst. by destruct k.
Qed.

Lemma not_full s l p i :
  wf s l -> pins s p -> (i < NBUF)%nat -> pinned (buf_at s i) = false ->
  (NBUF <=? size p)%nat = false.
Proof.
  intros Hw Hp Hi Hpin. destruct (NBUF <=? size p)%nat eqn:E; [|done].
  rewrite (proj1 (pins_full s l p Hw Hp) E i Hi) in Hpin. done.
Qed.

Lemma busy_pinned b : busy b = true -> pinned b = true.
Proof. unfold pinned. intros ->. done. Qed.

(** [bread] when no valid buffer holds the sector. *)
Lemma bread_miss a s l k :
  wf s l -> bio_rel a s ->
  (forall j, (j < NBUF)%nat -> valid (buf_at s j) = true -> bkey (buf_at s j) <> k) ->
  if (NBUF <=? size (as_pin a))%nat then bio_step (EBread k.1 k.2) s = Fail (Panic "bget: no buffers")
  else match ide_check a k.1 k.2 with
  | Some (Undef _) => True
  | Some e => bio_step (EBread k.1 k.2) s = Fail e
  | None => exists s', bio_step (EBread k.1 k.2) s = Ok (k, s') /\
      bio_rel (with_pin (<[k := mkabuf (disk_get (as_disk a) k) true false]> (as_pin a)) a) s'
  end.
Proof.
  intros Hw Hr Hno. pose proof Hr as (_ & _ & _ & _ & Hp).
  assert (Hget : bget k.1 k.2 s = bget k.1 k.2 s) by done. unfold bget in Hget at 2.
  change (fun b => (b_dev b =? k.1) && (b_sector b =? k.2)) with (key_test k) in Hget.
  rewrite (scan_key s l Hw) in Hget.
  destruct (List.find (fun i => key_test k (buf_at s i)) l) as [j|] eqn:Ef.
  - apply find_some in Ef as [Hj Hk%key_test_spec]. apply list_elem_of_In in Hj.
    apply (linked_in s l j (wf_linked s l Hw)) in Hj.
    destruct (wf_buf s l Hw j Hj) as [[Hf _]|(_ & Hv & _)]; [|by destruct (Hno j Hj Hv)].
    assert (pinned (buf_at s j) = false) as Hpin by (unfold pinned, busy, dirty; by rewrite Hf).
    rewrite (not_full s l _ j Hw Hp Hj Hpin). rewrite Hf in Hget. change (has_flag 0 B_BUSY) with false in Hget. cbn match in Hget.
    apply (bread_fill a s l j k _ Hw Hr Hj Hpin Hno Hget); [|apply (wf_queue s l Hw)|done].
    replace (set_flags B_BUSY _) with (set_flags (Z.lor (b_flags (buf_at s j)) B_BUSY) (buf_at s j)).
    + apply (changed_upd j (fun x => set_flags (Z.lor (b_flags x) B_BUSY) x)). by apply (wf_idx s l Hw).
    + rewrite Hf, <- Hk. done.
  - rewrite (scan_free s l Hw) in Hget.
    destruct (List.find (fun i => negb (pinned (buf_at s i))) (rev l)) as [j|] eqn:Eg.
    + apply find_some in Eg as [Hj%in_rev Hpin%negb_true_iff]. apply list_elem_of_In in Hj.
      apply (linked_in s l j (wf_linked s l Hw)) in Hj.
      rewrite (not_full s l _ j Hw Hp Hj Hpin).
      apply (bread_fill a s l j k _ Hw Hr Hj Hpin Hno Hget); [|apply (wf_queue s l Hw)|done].
      apply (changed_upd j (fun x => set_flags B_BUSY (set_key k.1 k.2 x))). by apply (wf_idx s l Hw).
    + assert ((NBUF <=? size (as_pin a))%nat = true) as ->.
      { apply (pins_full s l _ Hw Hp). intros i Hi.
        apply (linked_in s l i (wf_linked s l Hw)), list_elem_of_In, in_rev in Hi.
        pose proof (find_none _ _ Eg i Hi) as Hn. by apply negb_false_iff in Hn. }
      cbn [bio_step]. unfold bread_idx. by rewrite Hget.
Qed.

Lemma bread_sim a s dev sector :
  bio_rel a s ->
  match as_bread dev sector a with
  | Ok (x, a') => exists s', bio_step (EBread dev sector) s = Ok (x, s') /\ bio_rel a' s'
  | Fail (Undef _) => True
  | Fail e => bio_step (EBread dev sector) s = Fail e
  end.
Proof.
  intros Hr. pose proof Hr as ((l & Hw) & Hdisk & Hh1 & Hh2 & Hp).
  set (k := (dev, sector)). change dev with k.1. change sector with k.2.
  unfold as_bread. change (k.1, k.2) with k.
  destruct (as_pin a !! k) as [ab|] eqn:Ek.
  - apply Hp in Ek as (i & Hi & Hpin & Hk & ->). cbn [ab_busy abuf_of].
    pose proof (pinned_valid s _ (wf_buf s l Hw i Hi) Hpin) as Hv.
    destruct (busy (buf_at s i)) eqn:Eb; [|by apply (bread_hit a s l i k)].
    cbn [bio_step]. unfold bread_idx, bget.
    change (fun b => (b_dev b =? k.1) && (b_sector b =? k.2)) with (key_test k).
    rewrite (scan_key_valid s l Hw i k Hi Hv Hk). unfold busy in Eb. by rewrite Eb.
  - destruct (List.find (fun i => valid (buf_at s i) && key_test k (buf_at s i)) (seq 0 NBUF))
      as [i|] eqn:Ef.
    + apply find_some in Ef as [Hi [Hv Hk%key_test_spec]%andb_true_iff].
      apply list_elem_of_In, elem_of_seq in Hi.
      assert (i < NBUF)%nat as Hi' by lia.
      destruct (pinned (buf_at s i)) eqn:Epin.
      { exfalso. assert (as_pin a !! k = Some (abuf_of (buf_at s i))); [|congruence].
        apply Hp. by exists i. }
      rewrite (not_full s l _ i Hw Hp Hi' Epin).
      destruct (wf_buf s l Hw i Hi') as [[Hf _]|(Hod & _ & Hd)];
        [unfold valid in Hv; by rewrite Hf in Hv|].
      assert (ide_check a k.1 k.2 = None) as ->.
      { apply (ide_check_none a s (buf_at s i)) in Hod; [|done|done|apply Hod].
        unfold bkey in Hk. rewrite <- Hk. done. }
      destruct (bread_hit a s l i k) as (s' & Hs' & Hr'); auto.
      { unfold pinned in Epin. by apply orb_false_iff in Epin as [? _]. }
      exists s'. split; [done|]. rewrite (Hd Epin), Hk, <- Hdisk in Hr'.
      assert (dirty (buf_at s i) = false) as E by (unfold pinned in Epin; by apply orb_false_iff in Epin as [_ ?]).
      by rewrite E in Hr'.
    + pose proof (bread_miss a s l k Hw Hr) as Hm.
      destruct (NBUF <=? size (as_pin a))%nat; [apply Hm|destruct (ide_check a k.1 k.2) as [[]|]; apply Hm].
      all: intros j Hj Hv Hk.
      all: assert (In j (seq 0 NBUF)) as Hin by (apply in_seq; lia).
      all: pose proof (find_none _ _ Ef j Hin) as Hn; simpl in Hn.
      all: rewrite Hv, (proj2 (key_test_spec k _) Hk) in Hn; done.
Qed.

(** The holder of a buffer finds it. *)
Lemma held_sim a s k (b : abuf) :
  bio_rel a s -> as_pin a !! k = Some b -> ab_busy b = true ->
  exists i l, wf s l /\ (i < NBUF)%nat /\ held s k = Some i /\ busy (buf_at s i) = true /\
    bkey (buf_at s i) = k /\ b = abuf_of (buf_at s i).
Proof.
  intros ((l & Hw) & _ & _ & _ & Hp) Hk Hb.
  apply Hp in Hk as (i & Hi & Hpin & Hk & ->). exists i, l.
  split; [done|]. split; [done|]. split; [|done].
  apply find_unique.
  - apply elem_of_seq. lia.
  - apply andb_true_iff. split; [|done]. by apply (key_test_spec k).
  - intros j Hj%elem_of_seq [Hkj Hbj]%andb_true_iff. apply (key_test_spec k) in Hkj.
    apply (wf_pinned_inj s l); auto; [lia|by apply busy_pinned|congruence].
Qed.

(** ** [brelse] and the list *)

Section Links.
Context (s : bstate).

Lemma nx_set_prev i p z : (i < length (bs_bufs s))%nat -> nx (upd i (set_prev p) s) z = nx s z.
Proof. intros. unfold nx. rewrite buf_at_upd by done. by case_decide. Qed.
Lemma pv_set_prev i p z : (i < length (bs_bufs s))%nat -> pv (upd i (set_prev p) s) z = fupd (pv s) i p z.
Proof. intros. unfold pv, fupd. rewrite buf_at_upd by done. by case_decide. Qed.
Lemma nx_set_next i p z : (i < length (bs_bufs s))%nat -> nx (upd i (set_next p) s) z = fupd (nx s) i p z.
Proof. intros. unfold nx, fupd. rewrite buf_at_upd by done. by case_decide. Qed.
Lemma pv_set_next i p z : (i < length (bs_bufs s))%nat -> pv (upd i (set_next p) s) z = pv s z.
Proof. intros. unfold pv. rewrite buf_at_upd by done. by case_decide. Qed.
End Links.

(** Same locks, keys and data, possibly other links. *)
Definition relinked (s s' : bstate) : Prop :=
  length (bs_bufs s') = length (bs_bufs s) /\ idequeue s' = idequeue s /\ ide_store s' = ide_store s /\
  havedisk1 s' = havedisk1 s /\ havedisk2 s' = havedisk2 s /\ ide_fault s' = ide_fault s /\
  forall j, b_flags (buf_at s' j) = b_flags (buf_at s j) /\ bkey (buf_at s' j) = bkey (buf_at s j) /\
    b_data (buf_at s' j) = b_data (buf_at s j).

Lemma relinked_upd s s' i f :
  (forall b, b_flags (f b) = b_flags b /\ bkey (f b) = bkey b /\ b_data (f b) = b_data b) ->
  (i < length (bs_bufs s))%nat -> relinked s s' -> relinked s (upd i f s').
Proof.
  intros Hf Hi (Hl & ? & ? & ? & ? & ? & Hj). split; [by rewrite length_upd|].
  do 5 (split; [done|]). intros j. rewrite buf_at_upd by lia. case_decide; [|apply Hj].
  destruct (Hf (buf_at s' j)) as (-> & -> & ->). apply Hj.
Qed.

Definition unlink_push (b : nat) (s : bstate) : bstate :=
  let s := upd (b_next (buf_at s b)) (set_prev (b_prev (buf_at s b))) s in
  let s := upd (b_prev (buf_at s b)) (set_next (b_next (buf_at s b))) s in
  let s := upd b (set_next (b_next (buf_at s HEAD))) s in
  let s := upd b (set_prev HEAD) s in
  let s := upd (b_next (buf_at s HEAD)) (set_prev b) s in
  upd HEAD (set_next b) s.

Lemma unlink_push_spec s l1 b l2 :
  length (bs_bufs s) = S NBUF -> linked s (l1 ++ b :: l2) ->
  linked (unlink_push b s) (b :: l1 ++ l2) /\ relinked s (unlink_push b s).
Proof.
  intros Hlen Hlk. pose proof (linked_nodup _ _ Hlk) as Hnd.
  assert (Hb : (b < NBUF)%nat) by (apply (linked_in _ _ b Hlk); set_solver).
  destruct Hlk as [Hs Hperm].
  assert (Hnd1 : NoDup (HEAD :: l1 ++ l2) /\ b ∉ HEAD :: l1 ++ l2).
  { rewrite <- Permutation_middle in Hnd. rewrite (Permutation_swap b HEAD) in Hnd.
    apply NoDup_cons in Hnd. tauto. }
  pose proof (seg_unlink _ _ _ _ _ _ Hnd Hs) as Hun.
  pose proof (seg_push _ _ _ _ _ (proj1 Hnd1) (proj2 Hnd1) Hun) as Hpush.
  assert (Hrange : forall z, z ∈ HEAD :: l1 ++ b :: l2 -> (z < S NBUF)%nat).
  { intros z [->|Hz]%elem_of_cons; [unfold HEAD; lia|]. rewrite Hperm, elem_of_seq in Hz. lia. }
  apply seg_app in Hs as [Hs1 Hs2].
  assert (Hp : pv s b ∈ HEAD :: l1 ++ b :: l2) by (apply seg_prev_in in Hs1; set_solver).
  assert (Hn : nx s b ∈ HEAD :: l1 ++ b :: l2 /\ nx s b <> b).
  { apply seg_first in Hs2. rewrite Hs2. destruct l2 as [|z l2]; simpl.
    - split; [left|]. unfold HEAD. lia.
    - split; [set_solver|]. intros ->. rewrite app_comm_cons in Hnd.
      apply NoDup_app in Hnd as (_ & _ & Hnd). apply NoDup_cons in Hnd. set_solver. }
  destruct Hn as [Hn Hnb]. apply Hrange in Hp, Hn.
  assert (HeadR : (HEAD < S NBUF)%nat) by (unfold HEAD; lia).
  set (X := fupd (nx s) (pv s b) (nx s b) HEAD) in *.
  assert (HX : (X < S NBUF)%nat).
  { unfold X, fupd. case_decide; [done|]. apply Hrange. apply seg_first in Hs1. rewrite Hs1.
    destruct l1; simpl; set_solver. }
  unfold unlink_push.
  change (b_next (buf_at s b)) with (nx s b). change (b_prev (buf_at s b)) with (pv s b).
  set (s1 := upd (nx s b) (set_prev (pv s b)) s).
  assert (L1 : length (bs_bufs s1) = S NBUF) by (unfold s1; by rewrite length_upd).
  assert (E1 : b_prev (buf_at s1 b) = pv s b).
  { change (pv s1 b = pv s b). unfold s1. rewrite pv_set_prev by lia. unfold fupd.
    by rewrite decide_False. }
  assert (E2 : b_next (buf_at s1 b) = nx s b) by (apply nx_set_prev; lia).
  rewrite E1, E2. set (s2 := upd (pv s b) (set_next (nx s b)) s1).
  assert (L2 : length (bs_bufs s2) = S NBUF) by (unfold s2; by rewrite length_upd).
  assert (EX : b_next (buf_at s2 HEAD) = X).
  { change (nx s2 HEAD = X). unfold s2. rewrite nx_set_next by lia. unfold fupd, X, s1.
    rewrite nx_set_prev by lia. done. }
  rewrite EX. set (s3 := upd b (set_next X) s2). set (s4 := upd b (set_prev HEAD) s3).
  assert (L4 : length (bs_bufs s4) = S NBUF) by (unfold s4, s3; by rewrite !length_upd).
  assert (L3 : length (bs_bufs s3) = S NBUF) by (unfold s3; by rewrite !length_upd).
  assert (EX4 : b_next (buf_at s4 HEAD) = X).
  { change (nx s4 HEAD = X). unfold s4. rewrite nx_set_prev by lia. unfold s3.
    rewrite nx_set_next by lia. unfold fupd. rewrite decide_False; [done|]. unfold HEAD. lia. }
  rewrite EX4. set (s5 := upd X (set_prev b) s4).
  assert (L5 : length (bs_bufs s5) = S NBUF) by (unfold s5; by rewrite !length_upd).
  split; [split|].
  - eapply seg_ext; [| |exact Hpush]; intros z _.
    + rewrite nx_set_next by lia. unfold fupd at 1.
      unfold s5. rewrite nx_set_prev by lia. unfold s4. rewrite nx_set_prev by lia.
      unfold s3. rewrite nx_set_next by lia. unfold fupd at 1.
      unfold s2. rewrite nx_set_next by lia. unfold fupd at 1.
      unfold s1. rewrite nx_set_prev by lia. unfold fupd. repeat case_decide; congruence.
    + rewrite pv_set_next by lia. unfold s5. rewrite pv_set_prev by lia. unfold fupd at 1.
      unfold s4. rewrite pv_set_prev by lia. unfold fupd at 1.
      unfold s3. rewrite pv_set_next by lia. unfold s2. rewrite pv_set_next by lia.
      unfold s1. rewrite pv_set_prev by lia. fold X. unfold fupd. repeat case_decide; congruence.
  - rewrite <- Hperm. apply Permutation_middle.
  - assert (relinked s s) as H0 by (repeat split; done).
    repeat (apply relinked_upd; [done|lia|]). done.
Qed.

(** ** The holder's operations *)

(** A change of flags or data of a held buffer that keeps it pinned. *)
Lemma held_change a s l i f (b : buf) :
  wf s l -> bio_rel a s -> (i < NBUF)%nat -> busy (buf_at s i) = true ->
  f (buf_at s i) = b -> bkey b = bkey (buf_at s i) -> b_next b = b_next (buf_at s i) ->
  b_prev b = b_prev (buf_at s i) -> 0 <= b_flags b < 8 -> valid b = valid (buf_at s i) ->
  pinned b = true ->
  bio_rel (with_pin (<[bkey (buf_at s i) := abuf_of b]> (as_pin a)) a) (upd i f s).
Proof.
  intros Hw Hr Hi Hb Hf Hk Hn Hp Hfl Hv Hpin.
  pose proof (changed_upd i f s (wf_idx s l Hw i Hi)) as Hc. rewrite Hf in Hc.
  pose proof Hr as (_ & Hdisk & _).
  pose proof (pinned_valid s _ (wf_buf s l Hw i Hi) (busy_pinned _ Hb)) as Hv0.
  destruct (wf_buf s l Hw i Hi) as [[E _]|((_ & Hod) & _)]; [unfold valid in Hv0; by rewrite E in Hv0|].
  unfold with_pin. rewrite Hdisk, <- Hk.
  change (ide_store s) with (ide_store (upd i f s)).
  eapply (rel_set a s l i b (upd i f s) l); auto.
  - eapply changed_one; eauto. apply (wf_queue s l Hw).
  - eapply linked_changed; [apply (wf_linked s l Hw)|exact Hc|done|done].
  - apply (ch_at _ _ _ _ Hc).
  - split; [done|]. unfold bkey in Hk. injection Hk as -> ->. done.
  - by rewrite Hv.
  - by apply (others_ne s l).
Qed.

Lemma bwrite_sim a s k (b : abuf) :
  bio_rel a s -> as_pin a !! k = Some b -> ab_busy b = true ->
  exists s', bio_step (EBwrite k) s = Ok (tt, s') /\ bio_rel (as_bwrite k b a) s'.
Proof.
  intros Hr Hk Hb. destruct (held_sim a s k b Hr Hk Hb) as (i & l & Hw & Hi & Hh & Hbi & Hki & ->).
  destruct (wf_buf s l Hw i Hi) as [[E _]|(Hod & Hv & _)]; [unfold busy in Hbi; by rewrite E in Hbi|].
  pose proof Hod as (Hfl & Hod').
  destruct (flags_set_dirty _ Hfl) as (Hfl' & Hd' & Hv' & Hb').
  set (fd := fun x => set_flags (Z.lor (b_flags x) B_DIRTY) x).
  pose proof (changed_upd i fd s (wf_idx s l Hw i Hi)) as Hc.
  set (b1 := fd (buf_at s i)) in *.
  assert (Edirty : dirty b1 = true) by apply Hd'.
  assert (Ebusy : busy b1 = true) by (unfold busy; simpl; by rewrite Hb').
  destruct (iderw_spec i (upd i fd s) b1) as (s2 & Hrw & Hc2 & Hq2 & Hst2).
  { rewrite length_upd. by apply (wf_idx s l Hw). }
  { apply (ch_at _ _ _ _ Hc). }
  { split; [done|]. apply Hod'. }
  { apply (wf_queue s l Hw). }
  { apply (wf_fault s l Hw). }
  { done. }
  { rewrite Edirty. by rewrite andb_false_r. }
  exists s2. split.
  - cbn [bio_step]. unfold with_held. rewrite Hh. unfold bwrite_idx.
    unfold busy in Hbi. rewrite Hbi. cbn [negb]. fold fd. by rewrite Hrw.
  - assert (Hc' : changed i (synced (ide_store (upd i fd s)) b1) s s2).
    { destruct Hc, Hc2. constructor; try congruence. intros j Hj. by rewrite ch_ne1, ch_ne0. }
    rewrite Edirty in Hst2. change (bkey b1) with (bkey (buf_at s i)) in Hst2.
    change (b_data b1) with (b_data (buf_at s i)) in Hst2.
    change (ide_store (upd i fd s)) with (ide_store s) in *. rewrite Hki in Hst2.
    destruct (flags_done _ Hfl') as (Hr1 & Hr2 & Hr3 & Hr4 & _).
    pose proof Hr as (_ & Hdisk & _). unfold as_bwrite. rewrite Hdisk. cbn [ab_data abuf_of].
    rewrite <- Hst2.
    replace (mkabuf (b_data (buf_at s i)) true false) with (abuf_of (synced (ide_store s) b1)).
    + replace k with (bkey (synced (ide_store s) b1)) at 1 by (rewrite <- Hki; done).
      eapply (rel_set a s l i _ s2 l); auto.
      * by eapply changed_one.
      * eapply linked_changed; [apply (wf_linked s l Hw)|exact Hc'|done|done].
      * apply (ch_at _ _ _ _ Hc').
      * apply busy_pinned. unfold busy, synced. simpl. rewrite Hr4, Hb'. done.
      * split; [done|]. apply Hod'.
      * apply (others_ne s l); auto.
      * intros k' Hk'. rewrite Hst2. unfold disk_get.
        rewrite lookup_insert_ne; [done|]. intros <-. apply Hk'. rewrite <- Hki. done.
    + unfold abuf_of, busy, dirty, synced. simpl. rewrite Hr3, Hr4, Hb'. unfold busy in Hbi.
      rewrite Hbi. change (dirty b1) with (has_flag (Z.lor (b_flags (buf_at s i)) B_DIRTY) B_DIRTY).
      rewrite Hd'. done.
Qed.

Lemma brelse_sim a s k (b : abuf) :
  bio_rel a s -> as_pin a !! k = Some b -> ab_busy b = true ->
  match as_brelse k b a with
  | Ok a' => exists s', bio_step (EBrelse k) s = Ok (tt, s') /\ bio_rel a' s'
  | Fail _ => True
  end.
Proof.
  intros Hr Hk Hb. destruct (held_sim a s k b Hr Hk Hb) as (i & l & Hw & Hi & Hh & Hbi & Hki & ->).
  destruct (wf_buf s l Hw i Hi) as [[E _]|(Hod & Hv & _)]; [unfold busy in Hbi; by rewrite E in Hbi|].
  pose proof Hod as (Hfl & Hod').
  assert (i ∈ l) as Hil by (by apply (linked_in s l i (wf_linked s l Hw))).
  apply list_elem_of_split in Hil as (l1 & l2 & ->).
  destruct (unlink_push_spec s l1 i l2 (wf_len _ _ Hw) (wf_linked _ _ Hw)) as [Hlk Hrl].
  set (s1 := unlink_push i s) in *. set (fc := fun x => set_flags (Z.land (b_flags x) (Z.lnot B_BUSY)) x).
  destruct Hrl as (Hl & Hq & Hst & Hh1 & Hh2 & Hft & Hj).
  assert (Hi1 : (i < length (bs_bufs s1))%nat) by (rewrite Hl; by apply (wf_idx _ _ Hw)).
  pose proof (changed_upd i fc s1 Hi1) as Hc. set (s2 := upd i fc s1) in *.
  destruct (Hj i) as (Ef & Ek & Ed).
  assert (Hstep : bio_step (EBrelse k) s = Ok (tt, s2)).
  { cbn [bio_step]. unfold with_held. rewrite Hh. unfold brelse_idx. unfold busy in Hbi. by rewrite Hbi. }
  assert (Hone : one_change i s s2).
  { constructor; try done.
    - by rewrite (ch_len _ _ _ _ Hc).
    - change (idequeue s2) with (idequeue s1). rewrite Hq. apply (wf_queue _ _ Hw).
    - intros j _ Hji. rewrite (ch_ne _ _ _ _ Hc) by done. apply Hj. }
  assert (Hlk2 : linked s2 (i :: l1 ++ l2)) by (eapply linked_changed; [exact Hlk|exact Hc|done|done]).
  destruct (flags_clear_busy _ Hfl) as (Hfl' & Hb' & Hv' & Hd').
  assert (Hkey2 : bkey (buf_at s2 i) = k) by (rewrite (ch_at _ _ _ _ Hc), <- Hki, <- Ek; done).
  assert (Hfl2 : b_flags (buf_at s2 i) = Z.land (b_flags (buf_at s i)) (Z.lnot B_BUSY))
    by (rewrite (ch_at _ _ _ _ Hc); simpl; by rewrite Ef).
  assert (Hdat2 : b_data (buf_at s2 i) = b_data (buf_at s i)) by (rewrite (ch_at _ _ _ _ Hc), <- Ed; done).
  assert (Hod2 : on_disk s (buf_at s2 i)).
  { unfold on_disk. rewrite Hfl2. split; [done|]. rewrite <- Hki in Hkey2. unfold bkey in Hkey2.
    injection Hkey2 as -> ->. done. }
  assert (Hv2 : valid (buf_at s2 i) = true) by (unfold valid; rewrite Hfl2, Hv'; done).
  pose proof Hr as (_ & Hdisk & Ha1 & Ha2 & Hp).
  unfold as_brelse. cbn [ab_dirty ab_data abuf_of].
  destruct (dirty (buf_at s i)) eqn:Edt.
  - exists s2. split; [done|]. unfold with_pin. rewrite Hdisk, <- Hst.
    change (ide_store s1) with (ide_store s2).
    replace (mkabuf (b_data (buf_at s i)) false true) with (abuf_of (buf_at s2 i)).
    + rewrite <- Hkey2. eapply rel_set; eauto.
      * unfold pinned, dirty. rewrite Hfl2, Hd'. unfold dirty in Edt. rewrite Edt. by rewrite orb_true_r.
      * apply (others_ne s (l1 ++ i :: l2)); auto. by rewrite Hkey2.
      * by rewrite Hkey2.
    + unfold abuf_of, busy, dirty. rewrite Hdat2, Hfl2, Hb', Hd'. unfold dirty in Edt. by rewrite Edt.
  - case_decide as Heq; [|done]. exists s2. split; [done|].
    assert (Hpin2 : pinned (buf_at s2 i) = false).
    { unfold pinned, busy, dirty. rewrite Hfl2, Hb', Hd'. done. }
    split; [exists (i :: l1 ++ l2); apply (wf_change i s s2 _ _ Hw Hone Hlk2)|].
    + right. unfold on_disk in *. change (havedisk1 s2) with (havedisk1 s1).
      change (havedisk2 s2) with (havedisk2 s1). rewrite Hh1, Hh2.
      split; [done|]. split; [done|]. intros _. change (ide_store s2) with (ide_store s1).
      rewrite Hst, Hdat2, Hkey2, Heq, Hdisk. done.
    + intros k' _. change (ide_store s2) with (ide_store s1). by rewrite Hst.
    + apply (others_ne s (l1 ++ i :: l2)); auto. by rewrite Hkey2.
    + split; [change (as_disk a = ide_store s1); by rewrite Hst|].
      split; [change (as_have1 a = havedisk1 s1); by rewrite Hh1|].
      split; [change (as_have2 a = havedisk2 s1); by rewrite Hh2|].
      change (as_pin (with_pin (delete k (as_pin a)) a)) with (delete k (as_pin a)).
      rewrite <- Hki. apply (pins_unset i s); auto; [by apply busy_pinned|].
      intros j Hjb Hji Hpj Hkj. apply Hji. apply (wf_pinned_inj s (l1 ++ i :: l2)); auto.
      by apply busy_pinned.
Qed.

(** ** The instance *)

#[global] Instance bio_refines : Refines blkE astore bstate bio_rel eq.
Proof.
  split; [|intros X e a c (_ & Hd & _) _ d Hin; exists d; cbn in *; by rewrite Hd
          |intros a c (_ & Hd & _); symmetry; exact Hd].
  intros X e a s Hr. destruct e as [dev sector|k|k d|k|k|k]; cbn [st_step astore_store bio_store as_step].
  - by apply bread_sim.
  - unfold as_held. destruct (as_pin a !! k) as [b|] eqn:Ek; [|done].
    destruct (ab_busy b) eqn:Eb; [|done].
    destruct (held_sim a s k b Hr Ek Eb) as (i & l & Hw & Hi & Hh & Hbi & Hki & ->).
    exists s. split; [|done]. cbn [bio_step]. unfold with_held. by rewrite Hh.
  - unfold as_held. destruct (as_pin a !! k) as [b|] eqn:Ek; [|done].
    destruct (ab_busy b) eqn:Eb; [|done]. unfold as_store. case_decide; [|done]. cbn [obind].
    destruct (held_sim a s k b Hr Ek Eb) as (i & l & Hw & Hi & Hh & Hbi & Hki & ->).
    exists (upd i (set_data d) s). split.
    + cbn [bio_step]. unfold with_held. by rewrite Hh.
    + replace (mkabuf d true _) with (abuf_of (set_data d (buf_at s i))).
      * rewrite <- Hki. eapply held_change; eauto; [|by apply busy_pinned].
        destruct (wf_buf s l Hw i Hi) as [[E _]|((? & _) & _)]; [|done].
        unfold busy in Hbi. by rewrite E in Hbi.
      * unfold abuf_of. cbn. change (busy (set_data d (buf_at s i))) with (busy (buf_at s i)).
        by rewrite Hbi.
  - unfold as_held. destruct (as_pin a !! k) as [b|] eqn:Ek; [|done].
    destruct (ab_busy b) eqn:Eb; [|done]. by apply bwrite_sim.
  - unfold as_held. destruct (as_pin a !! k) as [b|] eqn:Ek; [|done].
    destruct (ab_busy b) eqn:Eb; [|done].
    pose proof (brelse_sim a s k b Hr Ek Eb) as Hs. unfold as_brelse in *.
    destruct (ab_dirty b); [done|]. case_decide; done.
  - unfold as_held. destruct (as_pin a !! k) as [b|] eqn:Ek; [|done].
    destruct (ab_busy b) eqn:Eb; [|done].
    destruct (held_sim a s k b Hr Ek Eb) as (i & l & Hw & Hi & Hh & Hbi & Hki & ->).
    destruct (wf_buf s l Hw i Hi) as [[E _]|((Hfl & _) & _)]; [unfold busy in Hbi; by rewrite E in Hbi|].
    destruct (flags_set_dirty _ Hfl) as (Hfl' & Hd' & Hv' & Hb').
    eexists. split; [cbn [bio_step]; unfold with_held; rewrite Hh; reflexivity|].
    replace (mkabuf _ true true) with
      (abuf_of (set_flags (Z.lor (b_flags (buf_at s i)) B_DIRTY) (buf_at s i))).
    + rewrite <- Hki. eapply held_change; eauto.
      apply busy_pinned. unfold busy. simpl. rewrite Hb'. done.
    + unfold abuf_of, busy, dirty. simpl. rewrite Hd', Hb'. unfold busy in Hbi. by rewrite Hbi.
Qed.

(** ** [binit] establishes the relation *)

Lemma boot_buf d i :
  (i < NBUF)%nat ->
  b_flags (buf_at (boot_state d) i) = 0 /\ b_dev (buf_at (boot_state d) i) = u32 (-1).
Proof.
  intros Hi. do 10 (destruct i as [|i]; [vm_compute; done|]). unfold NBUF in Hi. lia.
Qed.

Lemma boot_linked d : linked (boot_state d) (reverse (seq 0 NBUF)).
Proof. split; [vm_compute; tauto|]. apply reverse_Permutation. Qed.

Lemma boot_meta d :
  length (bs_bufs (boot_state d)) = S NBUF /\ idequeue (boot_state d) = None /\
  ide_store (boot_state d) = d /\ havedisk1 (boot_state d) = true /\
  havedisk2 (boot_state d) = true /\ ide_fault (boot_state d) = fun _ => false.
Proof. vm_compute. repeat split. Qed.

Lemma boot_rel d : bio_rel (aboot d) (boot_state d).
Proof.
  pose proof (boot_buf d) as Hb. pose proof (boot_linked d) as Hl.
  destruct (boot_meta d) as (Hlen & Hq & Hst & Hh1 & Hh2 & Hf).
  generalize dependent (boot_state d). intros s Hb Hl Hlen Hq Hst Hh1 Hh2 Hf.
  split; [exists (reverse (seq 0 NBUF)); constructor; try done|].
  - by rewrite Hf.
  - intros i Hi. left. by apply Hb.
  - intros i j Hi _ Hv. exfalso. unfold valid in Hv. destruct (Hb i Hi) as [E _]. by rewrite E in Hv.
  - do 3 (split; [done|]). intros k ab.
    split; [intros Hk; simpl in Hk; by rewrite lookup_empty in Hk|].
    intros (i & Hi & Hp & _). exfalso. unfold pinned, busy, dirty in Hp.
    destruct (Hb i Hi) as [E _]. by rewrite E in Hp.
Qed.

(** C4: the buffer cache, with its LRU list, its flags and the IDE request
    queue, is transparent.  Every program of block operations started on the
    booted cache returns what it returns on the bare disk with a set of locked
    buffers (and leaves the same disk and the same locked buffers), panics when
    and with what it panics there, and blocks when it blocks there. *)
Theorem bcache_transparent {K R} (p : prog blkE K R) (k : K) (d : diskmap) :
  match run p k (aboot d) with
  | Ok (r, k', a) =>
      exists s, run p k (boot_state d) = Ok (r, k', s) /\ bio_rel a s /\ ide_store s = as_disk a
  | Fail (Undef _) => True
  | Fail err => run p k (boot_state d) = Fail err
  end.
Proof.
  pose proof (run_refines p k _ _ (boot_rel d)) as Hr.
  destruct (run p k (aboot d)) as [[[r k'] a]|err]; [|done].
  destruct Hr as (s & Hs & Hrel). exists s. split; [done|]. split; [exact Hrel|].
  by destruct Hrel as (_ & -> & _).
Qed.
