(* ===== verification/Layout.v ===== *)
(** * On-disk structures of the simple file system: [sfs_inode.h]

    Each C structure is a record together with the functions that read it out
    of a sector and write it into one, at the offsets the compiler gives it. *)

From stdpp Require Import base gmap strings numbers list.
From S2P Require Import Prelude Prog.

Definition ROOTDEV : Z := 1.
Definition ROOTINO : Z := 1.
Definition NDIRECT : Z := 12.
Definition NINDIRECT : Z := 128.
Definition MAXFILE : Z := NDIRECT + NINDIRECT.
Definition IPB : Z := 8.
Definition SFSBPB : Z := 4096.
Definition DIRSIZ : Z := 14.

Definition T_DIR : Z := 1.
Definition T_FILE : Z := 2.
Definition T_DEV : Z := 3.

(** Block containing inode [i]; block containing the bitmap bit of block [b]. *)
Definition IBLOCK (i : Z) : Z := u32 (u32 i / IPB + 2).
Definition BBLOCK (b ninodes : Z) : Z := u32 (u32 b / SFSBPB + u32 ninodes / IPB + 3).

Record sfs_super := mksuper { sb_size : Z; sb_nblocks : Z; sb_ninodes : Z; sb_nlog : Z }.

Definition get_super (d : block) : sfs_super :=
  mksuper (get_u32 0 d) (get_u32 4 d) (get_u32 8 d) (get_u32 12 d).
Definition put_super (sb : sfs_super) (d : block) : block :=
  splice 0 (le_enc 4 (sb_size sb) ++ le_enc 4 (sb_nblocks sb)
            ++ le_enc 4 (sb_ninodes sb) ++ le_enc 4 (sb_nlog sb)) d.

Record sfs_dinode := mkdinode {
  di_type : Z; di_major : Z; di_minor : Z; di_nlink : Z;
  di_size : Z; di_addrs : list Z;
}.

(** An array of [n] [uint]s. *)
Fixpoint dec_u32s (n : nat) (l : list Z) : list Z :=
  match n with
  | O => []
  | S n => le_dec (take 4 l) :: dec_u32s n (drop 4 l)
  end.
Definition enc_u32s (vs : list Z) : list Z := concat (map (le_enc 4) vs).

Definition enc_dinode (di : sfs_dinode) : list Z :=
  le_enc 2 (di_type di) ++ le_enc 2 (di_major di) ++ le_enc 2 (di_minor di)
  ++ le_enc 2 (di_nlink di) ++ le_enc 4 (di_size di) ++ enc_u32s (di_addrs di).

Definition dec_dinode (l : list Z) : sfs_dinode :=
  mkdinode (s16 (get_u16 0 l)) (s16 (get_u16 2 l)) (s16 (get_u16 4 l)) (s16 (get_u16 6 l))
    (get_u32 8 l) (dec_u32s 13 (drop 12 l)).

(** [(struct sfs_dinode* )bp->data + inum%IPB] *)
Definition dinode_off (inum : Z) : nat := Z.to_nat (64 * (inum mod IPB)).
Definition get_dinode (inum : Z) (d : block) : sfs_dinode := dec_dinode (slice (dinode_off inum) 64 d).
Definition put_dinode (inum : Z) (di : sfs_dinode) (d : block) : block :=
  splice (dinode_off inum) (enc_dinode di) d.

Definition dinode0 : sfs_dinode := mkdinode 0 0 0 0 0 (replicate 13 0).

Record sfs_dirent := mkdirent { de_inum : Z; de_name : list Z }.
Definition enc_dirent (de : sfs_dirent) : list Z := le_enc 2 (de_inum de) ++ de_name de.
Definition dec_dirent (l : list Z) : sfs_dirent := mkdirent (get_u16 0 l) (slice 2 14 l).

(** Values the C fields can hold. *)
Definition short_range (x : Z) : Prop := -32768 <= x < 32768.
Definition uint_range (x : Z) : Prop := 0 <= x < 4294967296.
Definition dinode_ok (di : sfs_dinode) : Prop :=
  short_range (di_type di) /\ short_range (di_major di) /\ short_range (di_minor di) /\
  short_range (di_nlink di) /\ uint_range (di_size di) /\
  length (di_addrs di) = 13%nat /\ Forall uint_range (di_addrs di).

(** ** Encoding and decoding are inverse *)

Lemma length_enc_u32s vs : length (enc_u32s vs) = (4 * length vs)%nat.
Proof.
  induction vs as [|v vs IH]; [done|].
  change (enc_u32s (v :: vs)) with (le_enc 4 v ++ enc_u32s vs).
  rewrite length_app, length_le_enc, IH. simpl. lia.
Qed.

Lemma length_enc_dinode di :
  length (di_addrs di) = 13%nat -> length (enc_dinode di) = 64%nat.
Proof.
  intros H. unfold enc_dinode. rewrite !length_app, !length_le_enc, length_enc_u32s, H. done.
Qed.

Lemma dec_enc_u32s vs :
  Forall uint_range vs -> dec_u32s (length vs) (enc_u32s vs) = vs.
Proof.
  induction 1 as [|v vs Hv _ IH]; [done|].
  change (enc_u32s (v :: vs)) with (le_enc 4 v ++ enc_u32s vs).
  cbn [length dec_u32s]. rewrite take_app_le by (by rewrite length_le_enc).
  rewrite take_ge by (by rewrite length_le_enc).
  rewrite drop_app_ge by (by rewrite length_le_enc).
  rewrite length_le_enc, Nat.sub_diag, drop_0, IH, le_dec_enc. f_equal.
  apply Z.mod_small. unfold uint_range in Hv. done.
Qed.

(** A field of a concatenation of fixed-size fields. *)
Lemma slice_app_skip {A} off n (l1 l2 : list A) :
  (length l1 <= off)%nat -> slice off n (l1 ++ l2) = slice (off - length l1) n l2.
Proof. intros. unfold slice. by rewrite drop_app_ge. Qed.

Lemma slice_app_take {A} n (l1 l2 : list A) :
  length l1 = n -> slice 0 n (l1 ++ l2) = l1.
Proof. intros <-. unfold slice. rewrite drop_0. rewrite take_app_le by done. by apply take_ge. Qed.

Lemma s16_dec_enc x : short_range x -> s16 (le_dec (le_enc 2 x)) = x.
Proof.
  intros. rewrite le_dec_enc. change (x mod 256 ^ Z.of_nat 2) with (u16 x).
  rewrite s16_u16. by apply s16_small.
Qed.

(** Step over the leading fields of an encoded structure. *)
Ltac fields :=
  repeat match goal with
  | |- context [slice (S ?o) ?n (le_enc ?k ?v ++ ?b)] =>
      rewrite (slice_app_skip (S o) n (le_enc k v) b) by (rewrite length_le_enc; lia);
      rewrite (length_le_enc k v); cbn [Nat.sub]
  end.

Lemma dec_enc_dinode di : dinode_ok di -> dec_dinode (enc_dinode di) = di.
Proof.
  intros (H1 & H2 & H3 & H4 & H5 & H6 & H7). unfold dec_dinode, enc_dinode, get_u16, get_u32.
  fields. rewrite !slice_app_take by (by rewrite length_le_enc).
  rewrite !s16_dec_enc by done. rewrite le_dec_enc.
  rewrite Z.mod_small by (unfold uint_range in H5; simpl; lia).
  rewrite !drop_app_ge by (rewrite ?length_le_enc; simpl; lia). rewrite !length_le_enc. simpl Nat.sub.
  rewrite drop_0, <- H6, dec_enc_u32s by done. by destruct di.
Qed.

Lemma dinode_off_bound inum : (dinode_off inum + 64 <= 512)%nat.
Proof. unfold dinode_off, IPB. lia. Qed.

Lemma length_put_dinode inum di d :
  length (di_addrs di) = 13%nat -> length d = 512%nat -> length (put_dinode inum di d) = 512%nat.
Proof.
  intros Ha Hd. unfold put_dinode. pose proof (dinode_off_bound inum).
  rewrite length_splice; rewrite ?length_enc_dinode by done; lia.
Qed.

Lemma get_put_dinode inum di d :
  dinode_ok di -> length d = 512%nat -> get_dinode inum (put_dinode inum di d) = di.
Proof.
  intros Hok Hd. unfold get_dinode, put_dinode. pose proof (dinode_off_bound inum).
  assert (length (enc_dinode di) = 64%nat) as Hl by (apply length_enc_dinode, Hok).
  rewrite <- Hl. rewrite slice_splice_same by lia. by apply dec_enc_dinode.
Qed.

Lemma get_put_dinode_ne inum inum' di d :
  inum mod IPB <> inum' mod IPB -> length (di_addrs di) = 13%nat -> length d = 512%nat ->
  get_dinode inum' (put_dinode inum di d) = get_dinode inum' d.
Proof.
  intros Hne Ha Hd. unfold get_dinode, put_dinode.
  rewrite slice_splice_disjoint; [done| |]; rewrite length_enc_dinode by done.
  - pose proof (dinode_off_bound inum). lia.
  - unfold dinode_off, IPB in *. lia.
Qed.

Lemma dec_enc_dirent de :
  0 <= de_inum de < 65536 -> length (de_name de) = 14%nat -> dec_dirent (enc_dirent de) = de.
Proof.
  intros H1 H2. unfold dec_dirent, enc_dirent, get_u16.
  rewrite slice_app_take by (by rewrite length_le_enc). rewrite le_dec_enc.
  rewrite Z.mod_small by (simpl; lia).
  rewrite slice_app_skip by (by rewrite length_le_enc). rewrite length_le_enc. simpl Nat.sub.
  replace (slice 0 14 (de_name de)) with (de_name de); [by destruct de|].
  symmetry. rewrite <- H2. apply slice_full.
Qed.

(** Two inodes of a device never share bytes: either another block or
    another slot. *)
Lemma inode_slot_inj i j :
  uint_range i -> uint_range j -> i <> j -> IBLOCK i <> IBLOCK j \/ i mod IPB <> j mod IPB.
Proof. unfold uint_range, IBLOCK, IPB, u32. lia. Qed.
