(* ===== verification/Log.v ===== *)
(** * The redo log: [log.c]

    The log's own memory ([struct log]) is the state of these programs; they
    reach the disk through the block operations only. *)

From stdpp Require Import base gmap strings numbers list.
From S2P Require Import Prelude Prog Layout.

Definition LOGSIZE : Z := 10.

(** [struct log] with its [struct logheader]; the header's sector numbers are
    kept as the 32-bit words they are. *)
Record log := mklog {
  lg_start : Z;
  lg_size : Z;
  lg_busy : bool;
  lg_dev : Z;
  lg_n : Z;
  lg_sector : list Z;
}.

Definition log0 : log := mklog 0 0 false 0 0 (replicate 10 0).

Definition set_busy (b : bool) (l : log) : log :=
  mklog (lg_start l) (lg_size l) b (lg_dev l) (lg_n l) (lg_sector l).
Definition set_n (n : Z) (l : log) : log :=
  mklog (lg_start l) (lg_size l) (lg_busy l) (lg_dev l) n (lg_sector l).
Definition set_sectors (v : list Z) (l : log) : log :=
  mklog (lg_start l) (lg_size l) (lg_busy l) (lg_dev l) (lg_n l) v.

Abbreviation logprog := (prog blkE log).

(** Read the super block ([readsb] of [sfs_inode.c]). *)
Definition readsb {E K} `{!HasBlk E} (dev : Z) : prog E K sfs_super :=
  bp <- bread dev 1;;
  d <- bdata bp;;
  brelse bp;;;
  Ret (get_super d).

(** The on-disk header: [int n; int sector[LOGSIZE]]. *)
Definition head_n (d : block) : Z := s32 (get_u32 0 d).
Definition head_sectors (n : Z) (d : block) : list Z := dec_u32s (Z.to_nat n) (drop 4 d).
Definition put_head (n : Z) (sectors : list Z) (d : block) : block :=
  splice 0 (le_enc 4 n ++ enc_u32s (take (Z.to_nat n) sectors)) d.

(** The body of the loop of [install_trans]. *)
Definition install_one (lg : log) (tail : Z) : logprog unit :=
  lbuf <- bread (lg_dev lg) (lg_start lg + tail + 1);;       (* read log block *)
  match lg_sector lg !! Z.to_nat tail with
  | None => undef "log.lh.sector out of range"
  | Some sec =>
      dbuf <- bread (lg_dev lg) sec;;                         (* read dst *)
      d <- bdata lbuf;;
      bstore dbuf d;;;                                        (* copy block to dst *)
      bwrite dbuf;;;                                          (* write dst to disk *)
      brelse lbuf;;;
      brelse dbuf
  end.

(** Copy committed blocks from log to their home location *)
Definition install_trans : logprog unit :=
  lg <- get;;
  for_each (seqZ 0 (lg_n lg)) (install_one lg).

(** Read the log header from disk into the in-memory log header *)
Definition read_head : logprog unit :=
  lg <- get;;
  buf <- bread (lg_dev lg) (lg_start lg);;
  d <- bdata buf;;
  let n := head_n d in
  if LOGSIZE <? n then undef "log.lh.sector out of range"
  else
    put (set_n n (set_sectors (splice 0 (head_sectors n d) (lg_sector lg)) lg));;;
    brelse buf.

(** Write in-memory log header to disk.
    This is the true point at which the current transaction commits. *)
Definition write_head : logprog unit :=
  lg <- get;;
  buf <- bread (lg_dev lg) (lg_start lg);;
  if LOGSIZE <? lg_n lg then undef "log.lh.sector out of range"
  else
    bmodify buf (put_head (lg_n lg) (lg_sector lg));;;
    bwrite buf;;;
    brelse buf.

Definition recover_from_log : logprog unit :=
  read_head;;;
  install_trans;;;          (* if committed, copy from log to disk *)
  modify (set_n 0);;;
  write_head.               (* clear the log *)

Definition initlog : logprog unit :=
  sb <- readsb ROOTDEV;;
  modify (fun lg => mklog (s32 (sb_size sb - sb_nlog sb)) (s32 (sb_nlog sb)) (lg_busy lg)
                      ROOTDEV (lg_n lg) (lg_sector lg));;;
  recover_from_log.

Definition begin_trans : logprog unit :=
  lg <- get;;
  if lg_busy lg then Stop Blocked else put (set_busy true lg).

Definition commit_trans : logprog unit :=
  lg <- get;;
  (if 0 <? lg_n lg then
     write_head;;;          (* Write header to disk -- the real commit *)
     install_trans;;;       (* Now install writes to home locations *)
     modify (set_n 0);;;
     write_head             (* Erase the transaction from the log *)
   else Ret tt);;;
  modify (set_busy false).

(** [for (i = 0; i < n; i++) if (sector[i] == s) break;] *)
Fixpoint absorb (sectors : list Z) (s : Z) : nat :=
  match sectors with
  | [] => 0
  | x :: l => if x =? s then 0 else S (absorb l s)
  end.

(** Caller has modified [b->data] and is done with the buffer: append the
    block to the log and record the block number, but don't write the log
    header (which would commit the write). *)
Definition log_write (b : bufkey) : logprog unit :=
  lg <- get;;
  if (LOGSIZE <=? lg_n lg) || (lg_size lg - 1 <=? lg_n lg) then panic "too big a transaction"
  else if negb (lg_busy lg) then panic "write outside of trans"
  else
    let i := absorb (take (Z.to_nat (lg_n lg)) (lg_sector lg)) b.2 in
    put (set_sectors (<[i := b.2]> (lg_sector lg)) lg);;;
    lbuf <- bread b.1 (lg_start lg + Z.of_nat i + 1);;
    d <- bdata b;;
    bstore lbuf d;;;
    bwrite lbuf;;;
    brelse lbuf;;;
    modify (fun lg => if Z.of_nat i =? lg_n lg then set_n (lg_n lg + 1) lg else lg);;;
    bdirty b.

(** ** The file-system code's view: block operations plus transactions *)

Inductive fsE : Type -> Type :=
| FBlk {X} (e : blkE X) : fsE X
| FLogWrite (b : bufkey) : fsE unit
| FBegin : fsE unit
| FCommit : fsE unit.

#[global] Instance HasBlk_fs : HasBlk fsE := @FBlk.

(** The log on top of any block store. *)
Record logged (B : Type) := mklogged { lo_log : log; lo_store : B }.
Arguments mklogged {B} _ _.
Arguments lo_log {B} _.
Arguments lo_store {B} _.

Definition fs_code {X} (e : fsE X) : logprog X :=
  match e with
  | FBlk e => Vis e Ret
  | FLogWrite b => log_write b
  | FBegin => begin_trans
  | FCommit => commit_trans
  end.

Definition logged_step {B} `{Store blkE B} {X} (e : fsE X) (s : logged B) : outcome (X * logged B) :=
  match run (fs_code e) (lo_log s) (lo_store s) with
  | Ok (x, lg, b) => Ok (x, mklogged lg b)
  | Fail err => Fail err
  end.

#[global] Instance logged_store {B} `{Store blkE B} : Store fsE (logged B) := {
  st_step := @logged_step B _;
  st_trace X e s := disks (fs_code e) (lo_log s) (lo_store s);
  st_disk s := st_disk (lo_store s);
}.

(** The log over the buffer cache refines the log over its contract. *)
#[global] Instance logged_refines {A C} `{Store blkE A, Store blkE C} {R rec}
  `{!Refines blkE A C R rec} :
  Refines fsE (logged A) (logged C) (fun a c => lo_log a = lo_log c /\ R (lo_store a) (lo_store c)) rec.
Proof.
  split.
  - intros X e [lg a] [lg' c] [Hl HR]. simpl in *. subst lg'. unfold logged_step. simpl.
    pose proof (run_refines (fs_code e) lg a c HR) as Hr.
    destruct (run (fs_code e) lg a) as [[[x lg'] a']|err].
    + destruct Hr as (c' & -> & HR'). eauto.
    + destruct err; [| |done|]; by rewrite Hr.
  - intros X e [lg a] [lg' c] [Hl HR] Hu d Hd. simpl in *. subst lg'.
    eapply disks_refines; eauto. intros why Hw. apply (Hu why). unfold logged_step. simpl. by rewrite Hw.
  - intros [lg a] [lg' c] [_ HR]. simpl. by apply sim_disk.
Qed.
