(* ===== verification/LStore.v ===== *)
(** * What a file system sees: logical blocks and transactions

    [lstore] is the contract of [bio.c] and [log.c] together, in the terms of
    the comment at the head of [log.c]: there is a current content of every
    block, a set of locked buffers, at most one transaction, and a durable
    content that only a commit (or a direct [bwrite]) changes.  The log blocks,
    the header, the buffer flags and the order of disk writes have
    disappeared; what remains of them are the limits a transaction can run
    into. *)

From stdpp Require Import base gmap strings numbers list.
From S2P Require Import Prelude Prog Bio AStore Layout Log.

(** Where the log lies: the header in block [g_start], [g_size] blocks in
    all. *)
Record geom := mkgeom { g_dev : Z; g_start : Z; g_size : Z }.

Definition in_log (g : geom) (k : bufkey) : bool :=
  (k.1 =? g_dev g) && (g_start g <=? k.2) && (k.2 <? g_start g + g_size g).

Definition geom_ok (g : geom) : Prop :=
  0 <= g_dev g < 4 /\ 0 <= g_start g /\ 1 <= g_size g /\ g_start g + g_size g <= 2 ^ 28.

Record lstore := mklstore {
  ls_geom : geom;
  ls_view : diskmap;              (* what reading a block returns *)
  ls_durable : diskmap;           (* what survives a power failure *)
  ls_held : gmap bufkey block;    (* locked buffers and their bytes *)
  ls_logged : gset Z;             (* sectors of the current transaction *)
  ls_trans : bool;                (* a transaction is active *)
}.

Definition is_logged (l : lstore) (k : bufkey) : bool :=
  (k.1 =? g_dev (ls_geom l)) && bool_decide (k.2 ∈ ls_logged l).

(** Buffers that cannot be recycled: locked or carrying logged changes. *)
Definition pinset (l : lstore) : gset bufkey :=
  dom (ls_held l) ∪ set_map (fun s => (g_dev (ls_geom l), s)) (ls_logged l).

Definition upd_held (h : gmap bufkey block) (l : lstore) : lstore :=
  mklstore (ls_geom l) (ls_view l) (ls_durable l) h (ls_logged l) (ls_trans l).

Definition dev_ok (dev sector : Z) : bool :=
  (0 <=? dev) && (dev <? 4) && (0 <=? sector) && (sector <? 2 ^ 28).

Definition ls_bread (dev sector : Z) (l : lstore) : outcome (bufkey * lstore) :=
  let k := (dev, sector) in
  if in_log (ls_geom l) k then Fail (Undef "log block")
  else if negb (dev_ok dev sector) then Fail (Undef "no such sector")
  else match ls_held l !! k with
  | Some _ => Fail Blocked
  | None =>
      if negb (is_logged l k) && (NBUF <=? size (pinset l))%nat
      then Fail (Panic "bget: no buffers")
      else Ok (k, upd_held (<[k := disk_get (ls_view l) k]> (ls_held l)) l)
  end.

Definition ls_with {X} (l : lstore) (k : bufkey) (f : block -> outcome X) : outcome X :=
  match ls_held l !! k with
  | Some d => f d
  | None => Fail (Undef "buffer not held")
  end.

Definition ls_bwrite (k : bufkey) (d : block) (l : lstore) : outcome lstore :=
  if is_logged l k then Fail (Undef "bwrite of a logged block")
  else Ok (mklstore (ls_geom l) (<[k := d]> (ls_view l)) (<[k := d]> (ls_durable l))
             (ls_held l) (ls_logged l) (ls_trans l)).

Definition ls_brelse (k : bufkey) (d : block) (l : lstore) : outcome lstore :=
  if decide (d = disk_get (ls_view l) k) then Ok (upd_held (delete k (ls_held l)) l)
  else Fail (Undef "changed buffer released without a write").

Definition ls_logwrite (k : bufkey) (l : lstore) : outcome lstore :=
  if (LOGSIZE <=? Z.of_nat (size (ls_logged l)))
     || (g_size (ls_geom l) - 1 <=? Z.of_nat (size (ls_logged l)))
  then Fail (Panic "too big a transaction")
  else if negb (ls_trans l) then Fail (Panic "write outside of trans")
  else if negb (k.1 =? g_dev (ls_geom l)) then Fail (Undef "log_write on another device")
  else ls_with l k (fun d =>
    if (NBUF <=? size (pinset l))%nat then Fail (Panic "bget: no buffers")
    else Ok (mklstore (ls_geom l) (<[k := d]> (ls_view l)) (ls_durable l) (ls_held l)
               ({[k.2]} ∪ ls_logged l) (ls_trans l))).

Definition ls_begin (l : lstore) : outcome lstore :=
  if ls_trans l then Fail Blocked
  else Ok (mklstore (ls_geom l) (ls_view l) (ls_durable l) (ls_held l) (ls_logged l) true).

Definition ls_commit (l : lstore) : outcome lstore :=
  if decide (ls_held l = ∅)
  then Ok (mklstore (ls_geom l) (ls_view l) (ls_view l) ∅ ∅ false)
  else Fail (Undef "commit while a buffer is locked").

Definition ls_blk {X} (e : blkE X) (l : lstore) : outcome (X * lstore) :=
  match e with
  | EBread dev sector => ls_bread dev sector l
  | EData k => ls_with l k (fun d => Ok (d, l))
  | EStore k d => ls_with l k (fun _ =>
      if decide (length d = 512%nat) then Ok (tt, upd_held (<[k := d]> (ls_held l)) l)
      else Fail (Undef "store outside the buffer"))
  | EBwrite k => ls_with l k (fun d => let? l := ls_bwrite k d l in Ok (tt, l))
  | EBrelse k => ls_with l k (fun d => let? l := ls_brelse k d l in Ok (tt, l))
  | EDirty k => Fail (Undef "B_DIRTY outside log_write")
  end.

Definition ls_step {X} (e : fsE X) (l : lstore) : outcome (X * lstore) :=
  match e with
  | FBlk e => ls_blk e l
  | FLogWrite k => let? l := ls_logwrite k l in Ok (tt, l)
  | FBegin => let? l := ls_begin l in Ok (tt, l)
  | FCommit => let? l := ls_commit l in Ok (tt, l)
  end.

(** When the power fails during an operation, the durable content is the one
    before it or the one after it. *)
Definition ls_trace {X} (e : fsE X) (l : lstore) : list diskmap :=
  ls_durable l ::
  match ls_step e l with
  | Ok (_, l') => [ls_durable l']
  | Fail _ => []
  end.

#[global] Instance lstore_store : Store fsE lstore := {
  st_step := @ls_step;
  st_trace := @ls_trace;
  st_disk := ls_durable;
}.
