(* ===== verification/LogRecover.v ===== *)
(** * Recovery of the redo log

    [exec] describes a run together with every disk a power failure during it
    can leave.  [committed g d D] says that [recover_from_log], started on disk
    [d], will produce the content [D]; [exec_recover] proves that it does, and
    that a power failure at any moment of the recovery itself leaves a disk
    from which recovery still produces [D]. *)

From stdpp Require Import base gmap strings numbers list.
From S2P Require Import Prelude Prog Bio AStore Layout Log LStore.

Definition disk_wf (d : diskmap) : Prop := forall k, length (disk_get d k) = 512%nat.

Lemma disk_get_insert d k k' b :
  disk_get (<[k := b]> d) k' = if decide (k = k') then b else disk_get d k'.
Proof. unfold disk_get. rewrite lookup_insert. by case_decide. Qed.

Lemma disk_wf_insert d k b : disk_wf d -> length b = 512%nat -> disk_wf (<[k := b]> d).
Proof. intros Hd Hb k'. rewrite disk_get_insert. case_decide; auto. Qed.

(** ** Running block operations on the contract of the buffer cache *)

Section Steps.
Context {K : Type}.
Implicit Types (k : bufkey) (a : astore) (m : K).

Definition key_ok k : Prop := 0 <= k.1 < 4 /\ 0 <= k.2 < 2 ^ 28.

Lemma ide_check_ok a k :
  as_have1 a = true -> as_have2 a = true -> key_ok k -> ide_check a k.1 k.2 = None.
Proof.
  intros H1 H2 [? ?]. unfold ide_check. rewrite H1, H2, !andb_false_r.
  replace ((0 <=? k.1) && (k.1 <? 4)) with true by lia.
  replace ((0 <=? k.2) && (k.2 <? 2 ^ 28)) with true by lia. done.
Qed.

Lemma key_u32 k : key_ok k -> (u32 k.1, u32 k.2) = k.
Proof. intros [? ?]. destruct k. simpl in *. by rewrite !u32_small by lia. Qed.

Lemma run_bread_new a m dev sec :
  as_pin a !! (dev, sec) = None -> (size (as_pin a) < NBUF)%nat ->
  as_have1 a = true -> as_have2 a = true -> key_ok (dev, sec) ->
  run (bread dev sec) m a = Ok ((dev, sec), m,
    with_pin (<[(dev, sec) := mkabuf (disk_get (as_disk a) (dev, sec)) true false]> (as_pin a)) a).
Proof.
  intros Hp Hs H1 H2 Hk. cbn -[u32]. pose proof (key_u32 _ Hk) as Hu. injection Hu as -> ->.
  unfold as_bread. rewrite Hp. rewrite (proj2 (Nat.leb_gt _ _)) by done.
  pose proof (ide_check_ok a (dev, sec) H1 H2 Hk) as Hi. cbn in Hi. by rewrite Hi.
Qed.

Lemma run_bread_pinned a m dev sec d :
  as_pin a !! (dev, sec) = Some (mkabuf d false true) -> key_ok (dev, sec) ->
  run (bread dev sec) m a = Ok ((dev, sec), m,
    with_pin (<[(dev, sec) := mkabuf d true true]> (as_pin a)) a).
Proof.
  intros Hp Hk. cbn -[u32]. pose proof (key_u32 _ Hk) as Hu. injection Hu as -> ->.
  unfold as_bread. by rewrite Hp.
Qed.

Lemma arun_bdata a m k d dt :
  as_pin a !! k = Some (mkabuf d true dt) -> run (bdata k) m a = Ok (d, m, a).
Proof. intros Hp. cbn. unfold as_held. by rewrite Hp. Qed.

Lemma arun_bstore a m k d d' dt :
  as_pin a !! k = Some (mkabuf d true dt) -> length d' = 512%nat ->
  run (bstore k d') m a = Ok (tt, m, with_pin (<[k := mkabuf d' true dt]> (as_pin a)) a).
Proof. intros Hp Hl. cbn. unfold as_held, as_store. rewrite Hp. cbn. by rewrite decide_True. Qed.

Lemma arun_bmodify a m k d f dt :
  as_pin a !! k = Some (mkabuf d true dt) -> length (f d) = 512%nat ->
  run (bmodify k f) m a = Ok (tt, m, with_pin (<[k := mkabuf (f d) true dt]> (as_pin a)) a).
Proof.
  intros Hp Hl. unfold bmodify. erewrite run_bind_Ok by (by eapply arun_bdata).
  by eapply arun_bstore.
Qed.

Lemma run_bwrite a m k d dt :
  as_pin a !! k = Some (mkabuf d true dt) ->
  run (bwrite k) m a = Ok (tt, m, mkastore (<[k := d]> (as_disk a))
    (<[k := mkabuf d true false]> (as_pin a)) (as_have1 a) (as_have2 a)).
Proof. intros Hp. cbn. unfold as_held. by rewrite Hp. Qed.

Lemma run_brelse_clean a m k d :
  as_pin a !! k = Some (mkabuf d true false) -> disk_get (as_disk a) k = d ->
  run (brelse k) m a = Ok (tt, m, with_pin (delete k (as_pin a)) a).
Proof.
  intros Hp Hd. cbn. unfold as_held, as_brelse. rewrite Hp. cbn. by rewrite decide_True.
Qed.
End Steps.

(** One step of a straight-line run. *)
Ltac rstep lem := erewrite run_bind_Ok by (eapply lem; simplify_map_eq; eauto).

(** [bread; modify; bwrite; brelse] of a block nobody holds: the disk changes,
    nothing stays pinned. *)
Lemma run_rewrite {K} (m : K) a dev sec f :
  as_pin a !! (dev, sec) = None -> (size (as_pin a) < NBUF)%nat ->
  as_have1 a = true -> as_have2 a = true -> key_ok (dev, sec) ->
  length (f (disk_get (as_disk a) (dev, sec))) = 512%nat ->
  run (buf <- bread dev sec;; bmodify buf f;;; bwrite buf;;; brelse buf) m a =
    Ok (tt, m, mkastore (<[(dev, sec) := f (disk_get (as_disk a) (dev, sec))]> (as_disk a))
                 (as_pin a) (as_have1 a) (as_have2 a)).
Proof.
  intros Hp Hs H1 H2 Hk Hl.
  rstep @run_bread_new. 
  rstep @arun_bmodify. rstep @run_bwrite.
  erewrite run_brelse_clean; [|by simplify_map_eq|by cbn; rewrite disk_get_insert, decide_True].
  unfold with_pin. cbn. rewrite !insert_insert_eq, delete_insert_eq, delete_id by done. done.
Qed.

(** ** Runs and the disks they pass through

    [exec P p k b r k' b']: [p] returns [r], and a power failure at any moment
    of the run leaves a disk that satisfies [P]. *)

Definition exec {E : Type -> Type} {B K R : Type} `{!Store E B} (P : diskmap -> Prop) (p : prog E K R) (k : K) (b : B)
    (r : R) (k' : K) (b' : B) : Prop :=
  run p k b = Ok (r, k', b') /\ forall d, d ∈ disks p k b -> P d.

Section Exec.
Context {K : Type}.
Implicit Types (a : astore) (m : K) (P : diskmap -> Prop).

Lemma exec_bind {R S} P (p : prog blkE K R) (f : R -> prog blkE K S) m a r m' a' s m'' a'' :
  exec P p m a r m' a' -> exec P (f r) m' a' s m'' a'' -> exec P (pbind p f) m a s m'' a''.
Proof.
  intros [Hr Hd] [Hr' Hd']. split; [by erewrite run_bind_Ok by done|].
  intros d [?|(r1 & m1 & a1 & Hr1 & Hd1)]%disks_bind; [auto|].
  rewrite Hr in Hr1. injection Hr1 as <- <- <-. auto.
Qed.

Lemma exec_weaken {R} P Q (p : prog blkE K R) m a r m' a' :
  exec P p m a r m' a' -> (forall d, P d -> Q d) -> exec Q p m a r m' a'.
Proof. intros [? Hd] HPQ. split; auto. Qed.

Lemma exec_vis {X} P (e : blkE X) m a x m' a' :
  run (Vis e Ret) m a = Ok (x, m', a') -> P (as_disk a) -> P (as_disk a') ->
  exec P (Vis e Ret) m a x m' a'.
Proof.
  intros Hr HP HP'. split; [done|]. intros d. cbn in *.
  destruct (as_step e a) as [[x1 a1]|]; [|done]. injection Hr as -> -> ->.
  rewrite elem_of_cons, list_elem_of_singleton. by intros [->| ->].
Qed.

Lemma exec_ret {R} P (r : R) m a : P (as_disk a) -> exec P (Ret r) m a r m a.
Proof. intros ?. split; [done|]. by intros d ->%list_elem_of_singleton. Qed.

Lemma exec_get {R} P (f : K -> prog blkE K R) m a r m' a' :
  exec P (f m) m a r m' a' -> exec P (pbind get f) m a r m' a'.
Proof. done. Qed.

Lemma exec_put P m m' a : P (as_disk a) -> exec P (put m') m a tt m' a.
Proof. intros ?. split; [done|]. by intros d ->%list_elem_of_singleton. Qed.

Lemma exec_modify P (f : K -> K) m a : P (as_disk a) -> exec P (modify f) m a tt (f m) a.
Proof. intros ?. split; [done|]. by intros d ->%list_elem_of_singleton. Qed.

Lemma exec_bmodify P a m k d f dt :
  as_pin a !! k = Some (mkabuf d true dt) -> length (f d) = 512%nat -> P (as_disk a) ->
  exec P (bmodify k f) m a tt m (with_pin (<[k := mkabuf (f d) true dt]> (as_pin a)) a).
Proof.
  intros Hp Hl HP. eapply exec_bind.
  - eapply exec_vis; [by eapply arun_bdata|done|done].
  - eapply exec_vis; [by eapply arun_bstore|done|done].
Qed.

Lemma exec_brelse_last P a m k d a' :
  as_pin a !! k = Some (mkabuf d true false) -> disk_get (as_disk a) k = d -> P (as_disk a) ->
  a' = with_pin (delete k (as_pin a)) a -> exec P (brelse k) m a tt m a'.
Proof. intros Hp Hd HP ->. by eapply exec_vis; [by eapply run_brelse_clean|..]. Qed.
End Exec.

(** One step of a run: the block operation specified by [lem]. *)
Ltac estep lem :=
  eapply exec_bind; [eapply exec_vis; [eapply lem; simplify_map_eq; eauto|simpl; eauto|simpl; eauto]|].

(** ** The header *)

Section Header.
Context (n : Z) (secs : list Z) (d : block).
Context (Hn : 0 <= n <= LOGSIZE) (Hlen : n <= Z.of_nat (length secs)) (Hd : length d = 512%nat).

Lemma length_head_words :
  length (le_enc 4 n ++ enc_u32s (take (Z.to_nat n) secs)) = (4 + 4 * Z.to_nat n)%nat.
Proof. rewrite length_app, length_le_enc, length_enc_u32s, length_take. lia. Qed.

Lemma length_put_head : length (put_head n secs d) = 512%nat.
Proof. unfold put_head, LOGSIZE in *. rewrite length_splice; rewrite ?length_head_words; lia. Qed.

Lemma head_n_put : head_n (put_head n secs d) = n.
Proof.
  unfold head_n, put_head, get_u32, splice. rewrite take_0, app_nil_l.
  rewrite <- !app_assoc, slice_app_take by apply length_le_enc.
  rewrite le_dec_enc. change (n mod 256 ^ Z.of_nat 4) with (u32 n).
  rewrite s32_u32, s32_small; [done|]. unfold LOGSIZE in *. lia.
Qed.

Lemma dec_u32s_app vs l : Forall uint_range vs -> dec_u32s (length vs) (enc_u32s vs ++ l) = vs.
Proof.
  induction 1 as [|v vs Hv _ IH]; [done|].
  change (enc_u32s (v :: vs)) with (le_enc 4 v ++ enc_u32s vs).
  cbn [length dec_u32s]. rewrite <- app_assoc.
  rewrite take_app_le, take_ge by (by rewrite length_le_enc).
  rewrite drop_app_ge by (by rewrite length_le_enc).
  rewrite length_le_enc, Nat.sub_diag, drop_0, IH, le_dec_enc. f_equal.
  by apply Z.mod_small.
Qed.

Lemma head_sectors_put :
  Forall uint_range secs -> head_sectors n (put_head n secs d) = take (Z.to_nat n) secs.
Proof.
  intros Hr. unfold head_sectors, put_head, splice. rewrite take_0, app_nil_l.
  rewrite <- app_assoc, drop_app_ge by (by rewrite length_le_enc).
  rewrite length_le_enc, Nat.sub_diag, drop_0.
  assert (length (take (Z.to_nat n) secs) = Z.to_nat n) as Hl by (rewrite length_take; lia).
  rewrite <- Hl at 1. apply dec_u32s_app. by apply Forall_take.
Qed.
End Header.

(** ** Installing a transaction *)

Section Install.
Context (g : geom) (Hg : geom_ok g).
Local Abbreviation dev := (g_dev g).

Definition logkey (i : Z) : bufkey := (dev, g_start g + i + 1).

Fixpoint replay (i : Z) (secs : list Z) (d : diskmap) : diskmap :=
  match secs with
  | [] => d
  | s :: secs => replay (i + 1) secs (<[(dev, s) := disk_get d (logkey i)]> d)
  end.

Fixpoint unpin (secs : list Z) (p : gmap bufkey abuf) : gmap bufkey abuf :=
  match secs with
  | [] => p
  | s :: secs => unpin secs (delete (dev, s) p)
  end.

Definition home_ok (s : Z) : Prop := key_ok (dev, s) /\ in_log g (dev, s) = false.

Definition fits (i : Z) : Prop := 0 <= i < g_size g - 1.

Lemma logkey_in_log i : fits i -> in_log g (logkey i) = true.
Proof. unfold fits, in_log, logkey. simpl. lia. Qed.

Lemma logkey_ok i : fits i -> key_ok (logkey i).
Proof. destruct Hg as (?&?&?&?). unfold fits, key_ok, logkey. simpl. lia. Qed.

Lemma logkey_home i s : fits i -> home_ok s -> logkey i <> (dev, s).
Proof. intros Hi [_ Hs] Heq. rewrite <- Heq, logkey_in_log in Hs; done. Qed.

(** An entry of the transaction that can be installed: its home is either
    pinned by the transaction itself, or there is a buffer for it. *)
Definition can_install (p : gmap bufkey abuf) (s : Z) : Prop :=
  match p !! (dev, s) with
  | Some b => ab_busy b = false /\ ab_dirty b = true
  | None => (S (size p) < NBUF)%nat
  end.

Lemma can_install_delete p s s' :
  s <> s' -> can_install p s' -> can_install (delete (dev, s) p) s'.
Proof.
  intros Hne. unfold can_install. rewrite lookup_delete_ne by congruence.
  destruct (p !! (dev, s')); [done|]. rewrite map_size_delete.
  destruct (p !! (dev, s)); simpl; lia.
Qed.

Lemma length_replay_wf i secs d : disk_wf d -> disk_wf (replay i secs d).
Proof.
  revert i d. induction secs as [|s secs IH]; intros i d Hd; simpl; [done|].
  apply IH, disk_wf_insert; auto.
Qed.

Lemma replay_other i secs d k :
  (forall s, s ∈ secs -> k <> (dev, s)) -> disk_get (replay i secs d) k = disk_get d k.
Proof.
  revert i d. induction secs as [|s secs IH]; intros i d Hk; simpl; [done|].
  rewrite IH by (intros s' Hs'; apply Hk; by right).
  rewrite disk_get_insert, decide_False; [done|].
  intros Heq. apply (Hk s); [by left|done].
Qed.

Lemma replay_home i secs d j s :
  0 <= i -> i + Z.of_nat (length secs) <= g_size g - 1 -> NoDup secs -> Forall home_ok secs ->
  secs !! j = Some s ->
  disk_get (replay i secs d) (dev, s) = disk_get d (logkey (i + Z.of_nat j)).
Proof.
  revert i d j. induction secs as [|s0 secs IH]; intros i d j Hi Hlen Hnd Hok Hj; [done|].
  apply NoDup_cons in Hnd as [Hs0 Hnd]. apply Forall_cons in Hok as [Hok0 Hok].
  cbn [length] in Hlen. destruct j as [|j]; simpl in *.
  - injection Hj as ->. rewrite replay_other by congruence.
    rewrite disk_get_insert, decide_True by done. by rewrite Z.add_0_r.
  - erewrite IH by (eauto; lia).
    assert (j < length secs)%nat by (by eapply lookup_lt_Some).
    rewrite disk_get_insert, decide_False.
    + f_equal. f_equal. lia.
    + intros Heq. symmetry in Heq. revert Heq. apply logkey_home; [unfold fits; lia|done].
Qed.

(** One iteration: the block is copied home and its buffer unpinned. *)
Lemma exec_install_one lg a tail s :
  lg_dev lg = dev -> lg_start lg = g_start g -> lg_sector lg !! Z.to_nat tail = Some s ->
  fits tail -> home_ok s -> disk_wf (as_disk a) ->
  as_have1 a = true -> as_have2 a = true ->
  as_pin a !! logkey tail = None -> (size (as_pin a) < NBUF)%nat -> can_install (as_pin a) s ->
  let D' := <[(dev, s) := disk_get (as_disk a) (logkey tail)]> (as_disk a) in
  exec (fun d => d = as_disk a \/ d = D') (install_one lg tail) lg a tt lg
    (mkastore D' (delete (dev, s) (as_pin a)) true true).
Proof.
  intros Hdev Hst Hsec Hfit Hs Hwf H1 H2 Hp Hsz Hci D'.
  pose proof (logkey_home _ _ Hfit Hs) as Hne. pose proof (logkey_ok _ Hfit) as Hlk.
  destruct Hs as [Hsk Hsl]. unfold install_one. rewrite Hdev, Hst, Hsec.
  eapply exec_bind.
  { eapply exec_vis; [by apply run_bread_new|by left|by left]. }
  set (p1 := <[_ := _]> (as_pin a)).
  assert (exists dt d0, exec (fun d => d = as_disk a \/ d = D') (bread dev s) lg (with_pin p1 a)
    (dev, s) lg (with_pin (<[(dev, s) := mkabuf d0 true dt]> p1) a)) as (dt & d0 & Hb).
  { unfold can_install in Hci. destruct (as_pin a !! (dev, s)) as [[d0 bz dt]|] eqn:Hps.
    - simpl in Hci. destruct Hci as [-> ->]. exists true, d0.
      eapply exec_vis; [|by left|by left]. apply (run_bread_pinned (with_pin p1 a)); [|done].
      unfold p1. simpl. by rewrite lookup_insert_ne.
    - exists false, (disk_get (as_disk a) (dev, s)). eapply exec_vis; [|by left|by left].
      apply (run_bread_new (with_pin p1 a)); try done; unfold p1; simpl.
      + by rewrite lookup_insert_ne.
      + rewrite map_size_insert_None; [done|]. by apply Hp. }
  eapply exec_bind; [exact Hb|]. set (p2 := <[_ := _]> p1). clear Hb.
  assert (p2 !! logkey tail = Some (mkabuf (disk_get (as_disk a) (logkey tail)) true false)) as Hp2.
  { unfold p2. rewrite lookup_insert_ne by done. unfold p1. by rewrite lookup_insert_eq. }
  eapply exec_bind.
  { eapply exec_vis; [by eapply (arun_bdata (with_pin p2 a))|by left|by left]. }
  eapply exec_bind.
  { eapply exec_vis;
      [eapply arun_bstore; [apply lookup_insert_eq|by apply Hwf]|by left|by left]. }
  eapply exec_bind.
  { eapply exec_vis; [eapply run_bwrite, lookup_insert_eq|by left|by right]. }
  eapply exec_bind.
  { eapply exec_vis; [eapply run_brelse_clean; simpl|by right|by right].
    - rewrite !lookup_insert_ne by done. by apply Hp2.
    - by rewrite disk_get_insert, decide_False. }
  unfold p2, p1. clear Hp2 p2 p1.
  eapply exec_brelse_last; simpl;
    [rewrite lookup_delete_ne by done; apply lookup_insert_eq
    |by rewrite disk_get_insert, decide_True|by right|].
  unfold with_pin. simpl. rewrite H1, H2. f_equal.
  rewrite !insert_insert_eq. apply map_eq. intros k.
  destruct (decide (k = (dev, s))) as [->|]; [by rewrite !lookup_delete_eq|].
  rewrite !(lookup_delete_ne _ (dev, s)) by done.
  destruct (decide (k = logkey tail)) as [->|]; [by rewrite lookup_delete_eq|].
  by rewrite lookup_delete_ne, !lookup_insert_ne.
Qed.

Lemma exec_install lg secs i a :
  lg_dev lg = dev -> lg_start lg = g_start g ->
  0 <= i -> i + Z.of_nat (length secs) <= g_size g - 1 -> NoDup secs -> Forall home_ok secs ->
  (forall j s, secs !! j = Some s -> lg_sector lg !! (Z.to_nat i + j)%nat = Some s) ->
  disk_wf (as_disk a) -> as_have1 a = true -> as_have2 a = true ->
  (forall k, in_log g k = true -> as_pin a !! k = None) -> (size (as_pin a) < NBUF)%nat ->
  Forall (can_install (as_pin a)) secs ->
  exec (fun d => exists j, d = replay i (take j secs) (as_disk a))
    (for_each (seqZ i (Z.of_nat (length secs))) (install_one lg)) lg a tt lg
    (mkastore (replay i secs (as_disk a)) (unpin secs (as_pin a)) true true).
Proof.
  intros Hdev Hst. revert i a.
  induction secs as [|s secs IH]; intros i a Hi Hlen Hnd Hok Hsec Hwf H1 H2 Hlog Hsz Hci.
  { destruct a. simpl in *. subst. apply exec_ret. by exists 0%nat. }
  apply NoDup_cons in Hnd as [Hs Hnd]. apply Forall_cons in Hok as [Hoks Hok].
  apply Forall_cons in Hci as [Hcis Hci]. cbn [length] in *.
  rewrite Nat2Z.inj_succ, seqZ_cons, Z.pred_succ by lia. cbn [for_each replay unpin].
  assert (fits i) as Hfit by (unfold fits; lia).
  eapply exec_bind.
  - eapply exec_weaken; [apply exec_install_one; eauto using logkey_in_log|].
    + specialize (Hsec 0%nat s eq_refl). by rewrite Nat.add_0_r in Hsec.
    + intros d [->| ->]; [by exists 0%nat|by exists 1%nat].
  - eapply exec_weaken; [apply IH; auto; simpl; try lia|].
    + intros j s' Hj. replace (Z.to_nat (i + 1) + j)%nat with (Z.to_nat i + S j)%nat by lia. by apply Hsec.
    + by apply disk_wf_insert.
    + intros k Hk. by apply lookup_delete_None; auto.
    + rewrite map_size_delete. destruct (as_pin a !! _); simpl; lia.
    + rewrite Forall_forall in *. intros s' Hs'. apply can_install_delete; [congruence|auto].
    + intros d [j ->]. by exists (S j).
Qed.

Lemma unpin_lookup secs p k :
  unpin secs p !! k = if (k.1 =? dev) && bool_decide (k.2 ∈ secs) then None else p !! k.
Proof.
  revert p. induction secs as [|s secs IH]; intros p; simpl.
  - by rewrite andb_false_r.
  - rewrite IH. destruct (k.1 =? dev) eqn:Hd; simpl.
    + repeat case_bool_decide; try set_solver.
      * destruct (decide (k.2 = s)) as [<-|]; [|set_solver].
        apply Z.eqb_eq in Hd. rewrite <- Hd. destruct k. apply lookup_delete_eq.
      * rewrite lookup_delete_ne; [done|]. intros <-. set_solver.
    + apply lookup_delete_ne. intros <-. by rewrite Z.eqb_refl in Hd.
Qed.
End Install.

(** ** Recovery *)

Definition hdrkey (g : geom) : bufkey := (g_dev g, g_start g).

(** A list of sectors a transaction may consist of. *)
Record trans_ok (g : geom) (secs : list Z) : Prop := {
  to_logsize : Z.of_nat (length secs) <= LOGSIZE;
  to_fits : Z.of_nat (length secs) <= g_size g - 1;
  to_nodup : NoDup secs;
  to_home : Forall (home_ok g) secs;
}.

Definition header_is (g : geom) (d : diskmap) (secs : list Z) : Prop :=
  head_n (disk_get d (hdrkey g)) = Z.of_nat (length secs) /\
  head_sectors (Z.of_nat (length secs)) (disk_get d (hdrkey g)) = secs.

(** [d] is a disk on which recovery will find the content [D]. *)
Definition committed (g : geom) (d D : diskmap) : Prop :=
  disk_wf d /\ exists secs, header_is g d secs /\ trans_ok g secs /\
    forall k, in_log g k = false -> disk_get (replay g 0 secs d) k = disk_get D k.

(** The in-memory log belongs to geometry [g]. *)
Record log_at (g : geom) (lg : log) : Prop := {
  la_dev : lg_dev lg = g_dev g;
  la_start : lg_start lg = g_start g;
  la_size : lg_size lg = g_size g;
  la_len : length (lg_sector lg) = 10%nat;
}.

Section Recovery.
Context (g : geom) (Hg : geom_ok g).

Lemma hdrkey_in_log : in_log g (hdrkey g) = true.
Proof. destruct Hg as (?&?&?&?). unfold in_log, hdrkey. simpl. lia. Qed.

Lemma hdrkey_ok : key_ok (hdrkey g).
Proof. destruct Hg as (?&?&?&?). unfold key_ok, hdrkey. simpl. lia. Qed.

Lemma in_log_not_home secs k :
  in_log g k = true -> Forall (home_ok g) secs -> forall s, s ∈ secs -> k <> (g_dev g, s).
Proof. intros Hk Hok s Hs ->. rewrite Forall_forall in Hok. destruct (Hok s Hs). congruence. Qed.

Lemma replay_in_log i secs d k :
  in_log g k = true -> Forall (home_ok g) secs ->
  disk_get (replay g i secs d) k = disk_get d k.
Proof. intros Hk Hok. by apply replay_other, in_log_not_home. Qed.

Lemma trans_ok_nil : trans_ok g [].
Proof. destruct Hg as (?&?&?&?). split; unfold LOGSIZE; simpl; try lia; constructor. Qed.

Lemma committed_empty d D :
  disk_wf d -> head_n (disk_get d (hdrkey g)) = 0 ->
  (forall k, in_log g k = false -> disk_get d k = disk_get D k) -> committed g d D.
Proof. intros Hwf Hh HD. split; [done|]. exists []. split_and!; try done. apply trans_ok_nil. Qed.

Lemma replay_idem secs j d k :
  trans_ok g secs -> in_log g k = false ->
  disk_get (replay g 0 secs (replay g 0 (take j secs) d)) k = disk_get (replay g 0 secs d) k.
Proof.
  intros [Hl Hf Hnd Hok] Hk. destruct (decide (k.1 = g_dev g /\ k.2 ∈ secs)) as [[Hd Hin]|Hn].
  - apply list_elem_of_lookup in Hin as [i Hi]. destruct k as [kd s]. simpl in *. subst kd.
    assert (i < length secs)%nat by (by eapply lookup_lt_Some).
    rewrite !(replay_home g 0 secs _ i) by (done || lia).
    apply replay_in_log; [|by apply Forall_take].
    apply logkey_in_log. unfold fits. lia.
  - assert (forall s, s ∈ secs -> k <> (g_dev g, s)) as Hk' by (intros s Hs ->; simpl in Hn; tauto).
    rewrite !replay_other; [done|done|intros s Hs|done]. apply Hk'.
    by eapply subseteq_take.
Qed.

Lemma committed_replay secs j d D :
  disk_wf d -> header_is g d secs -> trans_ok g secs ->
  (forall k, in_log g k = false -> disk_get (replay g 0 secs d) k = disk_get D k) ->
  committed g (replay g 0 (take j secs) d) D.
Proof.
  intros Hwf [Hn Hs] Ht HD. split; [by apply length_replay_wf|]. exists secs. split_and!.
  - split; rewrite replay_in_log; auto using hdrkey_in_log; apply Forall_take, Ht.
  - done.
  - intros k Hk. rewrite replay_idem; auto.
Qed.

Lemma exec_write_head lg a :
  log_at g lg -> 0 <= lg_n lg <= LOGSIZE -> disk_wf (as_disk a) ->
  as_have1 a = true -> as_have2 a = true ->
  as_pin a !! hdrkey g = None -> (size (as_pin a) < NBUF)%nat ->
  let D' := <[hdrkey g := put_head (lg_n lg) (lg_sector lg) (disk_get (as_disk a) (hdrkey g))]>
              (as_disk a) in
  exec (fun d => d = as_disk a \/ d = D') write_head lg a tt lg (mkastore D' (as_pin a) true true).
Proof.
  intros [Hdev Hst _ Hlen] Hn Hwf H1 H2 Hp Hsz D'. unfold write_head. apply exec_get.
  rewrite Hdev, Hst. eapply exec_bind.
  { eapply exec_vis; [by apply run_bread_new; try apply hdrkey_ok|by left|by left]. }
  rewrite (proj2 (Z.ltb_ge _ _)) by lia.
  assert (length (put_head (lg_n lg) (lg_sector lg) (disk_get (as_disk a) (hdrkey g))) = 512%nat).
  { apply length_put_head; [done|rewrite Hlen; apply Hn|apply Hwf]. }
  eapply exec_bind.
  { eapply exec_bmodify; [apply lookup_insert_eq|done|by left]. }
  eapply exec_bind.
  { eapply exec_vis; [eapply run_bwrite, lookup_insert_eq|by left|by right]. }
  eapply exec_brelse_last;
    [apply lookup_insert_eq|by simpl; rewrite disk_get_insert, decide_True|by right|].
  unfold with_pin. simpl. rewrite H1, H2. f_equal. change (g_dev g, g_start g) with (hdrkey g).
  rewrite !insert_insert_eq, delete_insert_eq. by rewrite delete_id.
Qed.

Lemma unpin_empty secs : unpin g secs ∅ = ∅.
Proof. induction secs as [|s secs IH]; simpl; [done|]. by rewrite delete_empty. Qed.

Lemma aboot_room d : (S (size (as_pin (aboot d))) < NBUF)%nat.
Proof. simpl. rewrite map_size_empty. unfold NBUF. lia. Qed.

Lemma exec_read_head P lg d secs :
  log_at g lg -> header_is g d secs -> Z.of_nat (length secs) <= LOGSIZE -> P d ->
  exec P read_head lg (aboot d) tt
    (set_n (Z.of_nat (length secs)) (set_sectors (splice 0 secs (lg_sector lg)) lg)) (aboot d).
Proof.
  intros [Hdev Hst _ Hlen] [Hn Hs] Hl HP. unfold read_head. apply exec_get. rewrite Hdev, Hst.
  eapply exec_bind.
  { eapply exec_vis; [by apply run_bread_new; auto using hdrkey_ok, Nat.lt_succ_l, aboot_room|done|done]. }
  eapply exec_bind.
  { eapply exec_vis; [eapply arun_bdata, lookup_insert_eq|done|done]. }
  change (disk_get _ _) with (disk_get d (hdrkey g)). cbv zeta.
  rewrite Hn, Hs, (proj2 (Z.ltb_ge _ _)) by done.
  eapply exec_bind; [by apply exec_put|].
  eapply exec_brelse_last; [apply lookup_insert_eq|done|done|].
  unfold with_pin. cbn. by rewrite delete_insert_eq.
Qed.

Lemma exec_recover lg d D :
  log_at g lg -> committed g d D ->
  exists d' lg', exec (fun x => committed g x D) recover_from_log lg (aboot d) tt lg' (aboot d') /\
    disk_wf d' /\ head_n (disk_get d' (hdrkey g)) = 0 /\
    (forall k, in_log g k = false -> disk_get d' k = disk_get D k) /\
    log_at g lg' /\ lg_n lg' = 0 /\ lg_busy lg' = lg_busy lg.
Proof.
  intros Hlg Hcm. pose proof Hcm as (Hwf & secs & Hh & Ht & HD). pose proof Ht as [Hl Hf Hnd Hok].
  pose proof (la_len _ _ Hlg) as Hlen. unfold LOGSIZE in *.
  set (lg1 := set_n (Z.of_nat (length secs)) (set_sectors (splice 0 secs (lg_sector lg)) lg)).
  assert (length (splice 0 secs (lg_sector lg)) = 10%nat) as Hlen1
    by (rewrite length_splice; lia).
  assert (log_at g lg1) as Hlg1 by (destruct Hlg; by split).
  set (d1 := replay g 0 secs d).
  assert (disk_wf d1) as Hwf1 by (by apply length_replay_wf).
  assert (log_at g (set_n 0 lg1)) as Hlg2 by (destruct Hlg1; by split).
  set (h := put_head 0 (lg_sector lg1) (disk_get d1 (hdrkey g))).
  assert (length h = 512%nat) as Hh1 by (apply length_put_head; [unfold LOGSIZE; lia|lia|apply Hwf1]).
  assert (head_n h = 0) as Hh0 by (apply head_n_put; [unfold LOGSIZE; lia|apply Hwf1]).
  assert (forall x, x = d1 \/ x = <[hdrkey g := h]> d1 -> committed g x D) as Hend.
  { intros x [->| ->].
    - unfold d1. rewrite <- (take_ge secs (length secs)) at 1 by done. by apply committed_replay.
    - apply committed_empty; [by apply disk_wf_insert|by rewrite disk_get_insert, decide_True|].
      intros k Hk. rewrite disk_get_insert, decide_False by (intros <-; by rewrite hdrkey_in_log in Hk).
      by apply HD. }
  exists (<[hdrkey g := h]> d1), (set_n 0 lg1). split_and!.
  - unfold recover_from_log. eapply exec_bind; [by apply exec_read_head|].
    eapply exec_bind.
    { unfold install_trans. apply exec_get. eapply exec_weaken.
      - apply (exec_install g Hg lg1 secs 0 (aboot d)); try done; try apply Hlg1.
        + intros j s Hj. unfold lg1. simpl. unfold splice. rewrite take_0, app_nil_l.
          rewrite lookup_app_l; [done|]. by eapply lookup_lt_Some.
        + pose proof (aboot_room d). lia.
        + apply Forall_forall. intros s _. apply aboot_room.
      - intros x [j ->]. by apply committed_replay. }
    cbn [as_disk aboot as_pin]. rewrite unpin_empty.
    eapply exec_bind; [by apply exec_modify, Hend; left|].
    eapply exec_weaken; [|apply Hend].
    apply (exec_write_head (set_n 0 lg1) (aboot d1)); auto; [unfold LOGSIZE; simpl; lia|].
    pose proof (aboot_room d1). lia.
  - by apply disk_wf_insert.
  - by rewrite disk_get_insert, decide_True.
  - intros k Hk. rewrite disk_get_insert, decide_False by (intros <-; by rewrite hdrkey_in_log in Hk).
    by apply HD.
  - done.
  - done.
  - done.
Qed.
End Recovery.
