(* ===== verification/LogRefine.v ===== *)
(** * The log implements transactions

    [log_rel g l s] relates a state of the contract ([LStore]) to a state of
    [log.c] running on a block store that obeys [AStore].  [log_refines] shows
    that every operation of the log does what the contract says, and that at
    every disk write of a commit recovery yields the old durable content or
    the new one. *)

From stdpp Require Import base gmap strings numbers list.
From S2P Require Import Prelude Prog Bio AStore Layout Log LStore LogRecover.

Record log_rel (g : geom) (l : lstore) (s : logged astore) : Prop := {
  lr_geom : ls_geom l = g;
  lr_ok : geom_ok g;
  lr_log : log_at g (lo_log s);
  lr_have1 : as_have1 (lo_store s) = true;
  lr_have2 : as_have2 (lo_store s) = true;
  lr_wf : disk_wf (as_disk (lo_store s));
  lr_n : 0 <= lg_n (lo_log s) < LOGSIZE;
  lr_trans : trans_ok g (take (Z.to_nat (lg_n (lo_log s))) (lg_sector (lo_log s)));
  lr_logged : list_to_set (take (Z.to_nat (lg_n (lo_log s))) (lg_sector (lo_log s))) = ls_logged l;
  lr_busy : lg_busy (lo_log s) = ls_trans l;
  lr_pin : forall k, as_pin (lo_store s) !! k =
    match ls_held l !! k with
    | Some d => Some (mkabuf d true (is_logged l k))
    | None => if is_logged l k then Some (mkabuf (disk_get (ls_view l) k) false true) else None
    end;
  lr_held : forall k d, ls_held l !! k = Some d ->
    in_log g k = false /\ key_ok k /\ length d = 512%nat;
  lr_disk : forall k, in_log g k = false ->
    disk_get (as_disk (lo_store s)) k = disk_get (ls_durable l) k;
  lr_view : forall k, in_log g k = false -> is_logged l k = false ->
    disk_get (ls_view l) k = disk_get (ls_durable l) k;
  lr_blocks : forall i x, take (Z.to_nat (lg_n (lo_log s))) (lg_sector (lo_log s)) !! i = Some x ->
    disk_get (as_disk (lo_store s)) (logkey g (Z.of_nat i)) = disk_get (ls_view l) (g_dev g, x);
  lr_head : head_n (disk_get (as_disk (lo_store s)) (hdrkey g)) = 0;
}.

Section Rel.
Context (g : geom).
Implicit Types (l : lstore) (lg : log) (a : astore).

Definition secs_of lg : list Z := take (Z.to_nat (lg_n lg)) (lg_sector lg).

Lemma length_secs l s : log_rel g l s -> length (secs_of (lo_log s)) = Z.to_nat (lg_n (lo_log s)).
Proof.
  intros HR. unfold secs_of. rewrite length_take, (la_len g) by apply HR.
  pose proof (lr_n _ _ _ HR). unfold LOGSIZE in *. lia.
Qed.

Lemma size_logged l s : log_rel g l s -> Z.of_nat (size (ls_logged l)) = lg_n (lo_log s).
Proof.
  intros HR. rewrite <- (lr_logged _ _ _ HR), size_list_to_set by apply HR.
  pose proof (length_secs _ _ HR) as Hl. unfold secs_of in Hl. rewrite Hl.
  pose proof (lr_n _ _ _ HR). lia.
Qed.

Lemma is_logged_spec l s k :
  log_rel g l s -> is_logged l k = true <-> k.1 = g_dev g /\ k.2 ∈ secs_of (lo_log s).
Proof.
  intros HR. unfold is_logged. rewrite (lr_geom _ _ _ HR), andb_true_iff, Z.eqb_eq, bool_decide_eq_true.
  rewrite <- (lr_logged _ _ _ HR), elem_of_list_to_set. done.
Qed.

Lemma dom_pin l s : log_rel g l s -> dom (as_pin (lo_store s)) = pinset l.
Proof.
  intros HR. apply set_eq. intros k. unfold pinset. rewrite elem_of_union, !elem_of_dom.
  rewrite (lr_pin _ _ _ HR), elem_of_map. destruct (ls_held l !! k) eqn:Hk.
  - split; [left|]; by eexists.
  - unfold is_logged. rewrite (lr_geom _ _ _ HR). split.
    + destruct (_ && _) eqn:Hb; [|by intros []]. apply andb_true_iff in Hb as [Hd Hs].
      apply bool_decide_eq_true in Hs. apply Z.eqb_eq in Hd. intros _. right.
      exists k.2. rewrite <- Hd. by destruct k.
    + intros [[]|(x & -> & Hx)]; [done|]. simpl.
      rewrite Z.eqb_refl, bool_decide_eq_true_2 by done. by eexists.
Qed.

Lemma size_pin l s : log_rel g l s -> size (as_pin (lo_store s)) = size (pinset l).
Proof. intros HR. by rewrite <- (dom_pin _ _ HR), size_dom. Qed.

Lemma logged_home l s k :
  log_rel g l s -> is_logged l k = true -> key_ok k /\ in_log g k = false.
Proof.
  intros HR [Hd Hs]%(is_logged_spec l s k HR). pose proof (to_home _ _ (lr_trans _ _ _ HR)) as Hok.
  rewrite Forall_forall in Hok. destruct (Hok k.2 Hs) as [H1 H2].
  rewrite <- Hd in *. by destruct k.
Qed.

Lemma log_unpinned l s k : log_rel g l s -> in_log g k = true -> as_pin (lo_store s) !! k = None.
Proof.
  intros HR Hk. rewrite (lr_pin _ _ _ HR). destruct (ls_held l !! k) eqn:Hh.
  - apply (lr_held _ _ _ HR) in Hh as [? _]. congruence.
  - destruct (is_logged l k) eqn:Hl; [|done]. apply (logged_home _ _ _ HR) in Hl as [_ ?]. congruence.
Qed.

Lemma view_wf l s k : log_rel g l s -> in_log g k = false -> length (disk_get (ls_view l) k) = 512%nat.
Proof.
  intros HR Hk. destruct (is_logged l k) eqn:Hl.
  - apply (is_logged_spec _ _ _ HR) in Hl as [Hd [i Hi]%list_elem_of_lookup].
    apply (lr_blocks _ _ _ HR) in Hi. rewrite <- Hd in Hi. destruct k. simpl in Hi. rewrite <- Hi. apply HR.
  - rewrite (lr_view _ _ _ HR), <- (lr_disk _ _ _ HR) by done. apply HR.
Qed.

(** Steps that change only the locked buffers. *)
Lemma log_rel_held l lg a h p :
  log_rel g l (mklogged lg a) ->
  (forall k, p !! k = match h !! k with
    | Some d => Some (mkabuf d true (is_logged l k))
    | None => if is_logged l k then Some (mkabuf (disk_get (ls_view l) k) false true) else None
    end) ->
  (forall k d, h !! k = Some d -> in_log g k = false /\ key_ok k /\ length d = 512%nat) ->
  log_rel g (upd_held h l) (mklogged lg (with_pin p a)).
Proof. intros HR Hp Hh. destruct HR; split; auto. Qed.

Lemma is_logged_upd_held h l k : is_logged (upd_held h l) k = is_logged l k.
Proof. done. Qed.

Lemma sim_bread l lg a dev sector :
  log_rel g l (mklogged lg a) ->
  match ls_bread dev sector l with
  | Ok (x, l') => exists a', as_bread dev sector a = Ok (x, a') /\ log_rel g l' (mklogged lg a')
  | Fail (Undef _) => True
  | Fail err => as_bread dev sector a = Fail err
  end.
Proof.
  intros HR. unfold ls_bread, as_bread. rewrite (lr_geom _ _ _ HR).
  pose proof (lr_pin _ _ _ HR (dev, sector)) as Hp. simpl in Hp.
  destruct (in_log g (dev, sector)) eqn:Hlog; [done|].
  destruct (dev_ok dev sector) eqn:Hdev; [|done]. cbn [negb].
  assert (key_ok (dev, sector)) as Hk by (unfold dev_ok in Hdev; unfold key_ok; simpl; lia).
  destruct (ls_held l !! (dev, sector)) eqn:Hh; [by rewrite Hp|].
  rewrite <- (size_pin _ _ HR). cbn [lo_store]. rewrite Hp.
  destruct (is_logged l (dev, sector)) eqn:Hl; cbn [negb andb ab_busy ab_data ab_dirty].
  - eexists. split; [done|]. apply log_rel_held; [done| |].
    + intros k. destruct (decide (k = (dev, sector))) as [->|].
      * by rewrite !lookup_insert_eq, Hl.
      * rewrite !lookup_insert_ne by done. apply (lr_pin _ _ _ HR).
    + intros k d [[<- <-]|[_ ?]]%lookup_insert_Some; [|by eapply HR].
      split_and!; [done|done|by eapply view_wf].
  - destruct (NBUF <=? size (as_pin a))%nat; [done|].
    pose proof (ide_check_ok a (dev, sector) (lr_have1 _ _ _ HR) (lr_have2 _ _ _ HR) Hk) as Hi.
    simpl in Hi. rewrite Hi. eexists. split; [done|]. apply log_rel_held; [done| |].
    + intros k. destruct (decide (k = (dev, sector))) as [->|].
      * rewrite !lookup_insert_eq, Hl. rewrite (lr_view _ _ _ HR) by done.
        by rewrite <- (lr_disk _ _ _ HR).
      * rewrite !lookup_insert_ne by done. apply (lr_pin _ _ _ HR).
    + intros k d [[<- <-]|[_ ?]]%lookup_insert_Some; [|by eapply HR].
      split_and!; [done|done|by eapply view_wf].
Qed.

Lemma held_pin l lg a k d :
  log_rel g l (mklogged lg a) -> ls_held l !! k = Some d ->
  as_pin a !! k = Some (mkabuf d true (is_logged l k)).
Proof. intros HR Hk. pose proof (lr_pin _ _ _ HR k) as Hp. by rewrite Hk in Hp. Qed.

Lemma sim_store l lg a k d d' :
  log_rel g l (mklogged lg a) -> ls_held l !! k = Some d -> length d' = 512%nat ->
  log_rel g (upd_held (<[k := d']> (ls_held l)) l)
    (mklogged lg (with_pin (<[k := mkabuf d' true (is_logged l k)]> (as_pin a)) a)).
Proof.
  intros HR Hk Hl. apply log_rel_held; [done| |].
  - intros k'. destruct (decide (k' = k)) as [->|].
    + by rewrite !lookup_insert_eq.
    + rewrite !lookup_insert_ne by done. apply (lr_pin _ _ _ HR).
  - intros k' d0 [[<- <-]|[_ ?]]%lookup_insert_Some; [|by eapply HR].
    apply (lr_held _ _ _ HR) in Hk as (? & ? & _). done.
Qed.

Lemma sim_brelse l lg a k d :
  log_rel g l (mklogged lg a) -> ls_held l !! k = Some d -> d = disk_get (ls_view l) k ->
  exists a', as_brelse k (mkabuf d true (is_logged l k)) a = Ok a' /\
    log_rel g (upd_held (delete k (ls_held l)) l) (mklogged lg a').
Proof.
  intros HR Hk ->. destruct (lr_held _ _ _ HR _ _ Hk) as (Hin & _ & _).
  unfold as_brelse. simpl. destruct (is_logged l k) eqn:Hl.
  - eexists. split; [done|]. apply log_rel_held; [done| |].
    + intros k'. destruct (decide (k' = k)) as [->|].
      * by rewrite lookup_insert_eq, lookup_delete_eq, Hl.
      * rewrite lookup_insert_ne, lookup_delete_ne by done. apply (lr_pin _ _ _ HR).
    + intros k' d0 [_ ?]%lookup_delete_Some. by eapply HR.
  - rewrite decide_True by (rewrite (lr_view _ _ _ HR) by done; symmetry; by apply (lr_disk _ _ _ HR)).
    eexists. split; [done|]. apply log_rel_held; [done| |].
    + intros k'. destruct (decide (k' = k)) as [->|].
      * by rewrite !lookup_delete_eq, Hl.
      * rewrite !lookup_delete_ne by done. apply (lr_pin _ _ _ HR).
    + intros k' d0 [_ ?]%lookup_delete_Some. by eapply HR.
Qed.

Lemma sim_bwrite l lg a k d :
  log_rel g l (mklogged lg a) -> ls_held l !! k = Some d -> is_logged l k = false ->
  log_rel g (mklstore (ls_geom l) (<[k := d]> (ls_view l)) (<[k := d]> (ls_durable l))
               (ls_held l) (ls_logged l) (ls_trans l))
    (mklogged lg (as_bwrite k (mkabuf d true false) a)).
Proof.
  intros HR Hk Hnl. destruct (lr_held _ _ _ HR _ _ Hk) as (Hin & _ & Hlen).
  assert (forall k', in_log g k' = true -> k <> k') as Hne by congruence.
  destruct HR; split; simpl in *; auto.
  - by apply disk_wf_insert.
  - intros k'. destruct (decide (k' = k)) as [->|].
    + rewrite lookup_insert_eq, Hk. unfold is_logged in *. simpl. by rewrite Hnl.
    + rewrite lookup_insert_ne by done. rewrite lr_pin0. unfold is_logged. simpl.
      by rewrite disk_get_insert, decide_False.
  - intros k' Hk'. rewrite !disk_get_insert. case_decide; auto.
  - intros k' Hk' Hl'. rewrite !disk_get_insert. case_decide; auto.
  - intros i x Hi. rewrite !disk_get_insert. rewrite decide_False.
    + rewrite decide_False; [auto|]. intros ->. unfold is_logged in Hnl. simpl in Hnl.
      rewrite lr_geom0, Z.eqb_refl in Hnl. simpl in Hnl. apply bool_decide_eq_false in Hnl.
      apply Hnl. rewrite <- lr_logged0. apply elem_of_list_to_set. by eapply list_elem_of_lookup_2.
    + apply Hne, logkey_in_log. apply lookup_lt_Some in Hi as Hlt.
      pose proof (to_fits _ _ lr_trans0). unfold fits. lia.
  - rewrite disk_get_insert, decide_False; [done|]. by apply Hne, hdrkey_in_log.
Qed.

(** *** [log_write] *)

Lemma absorb_spec secs x :
  (x ∈ secs /\ secs !! absorb secs x = Some x) \/ (x ∉ secs /\ absorb secs x = length secs).
Proof.
  induction secs as [|y secs IH]; simpl.
  - right. split; [apply not_elem_of_nil|done].
  - destruct (Z.eqb_spec y x) as [->|Hne]; [left; split; [by left|done]|].
    destruct IH as [[??]|[? ->]]; [left|right]; (split; [set_solver|done]).
Qed.

Definition log_write_log lg x : log :=
  let i := absorb (secs_of lg) x in
  let lg1 := set_sectors (<[i := x]> (lg_sector lg)) lg in
  if Z.of_nat i =? lg_n lg then set_n (lg_n lg + 1) lg1 else lg1.

Lemma absorb_fits l lg a x :
  log_rel g l (mklogged lg a) -> lg_n lg < g_size g - 1 ->
  fits g (Z.of_nat (absorb (secs_of lg) x)).
Proof.
  intros HR Hn2. pose proof (length_secs _ _ HR) as Hlen. pose proof (lr_n _ _ _ HR) as Hn.
  cbn [lo_log] in *. unfold fits. destruct (absorb_spec (secs_of lg) x) as [[_ Hi]|[_ Hi]]; [|lia].
  apply lookup_lt_Some in Hi. lia.
Qed.

Lemma exec_log_write P l lg a k d :
  log_rel g l (mklogged lg a) -> ls_held l !! k = Some d -> k.1 = g_dev g ->
  lg_n lg < LOGSIZE -> lg_n lg < g_size g - 1 -> lg_busy lg = true ->
  (size (as_pin a) < NBUF)%nat ->
  let D' := <[logkey g (Z.of_nat (absorb (secs_of lg) k.2)) := d]> (as_disk a) in
  P (as_disk a) -> P D' ->
  exec P (log_write k) lg a tt (log_write_log lg k.2)
    (mkastore D' (<[k := mkabuf d true true]> (as_pin a)) true true).
Proof.
  intros HR Hk Hdev Hn1 Hn2 Hb Hsz. cbv zeta. intros HP HP'. unfold log_write. apply exec_get.
  pose proof (lr_log _ _ _ HR) as [Hld Hls Hlz _]. simpl in Hld, Hls, Hlz.
  rewrite Hlz, Hb, Hdev, Hls. rewrite !(proj2 (Z.leb_gt _ _)) by lia. cbn [orb negb]. cbv zeta.
  change (take (Z.to_nat (lg_n lg)) (lg_sector lg)) with (secs_of lg).
  set (i := absorb (secs_of lg) k.2) in *.
  pose proof (absorb_fits _ _ _ k.2 HR Hn2 : fits g (Z.of_nat i)) as Hfit.
  destruct (lr_held _ _ _ HR _ _ Hk) as (Hin & Hkok & Hdl).
  assert (logkey g (Z.of_nat i) <> k) as Hne by (intros Heq; rewrite <- Heq, logkey_in_log in Hin; done).
  pose proof (log_unpinned _ _ _ HR (logkey_in_log _ _ Hfit)) as Hup. simpl in Hup.
  pose proof (held_pin _ _ _ _ _ HR Hk) as Hpk.
  eapply exec_bind; [by apply exec_put|].
  eapply exec_bind.
  { eapply exec_vis; [apply (run_bread_new a); try done; try apply HR; exact (logkey_ok g (lr_ok _ _ _ HR) _ Hfit)|done|done]. }
  eapply exec_bind.
  { eapply exec_vis; [eapply arun_bdata; simpl; by rewrite lookup_insert_ne by done|done|done]. }
  eapply exec_bind.
  { eapply exec_vis; [eapply arun_bstore; [apply lookup_insert_eq|done]|done|done]. }
  eapply exec_bind.
  { eapply exec_vis; [eapply run_bwrite, lookup_insert_eq|done|done]. }
  eapply exec_bind.
  { eapply exec_brelse_last; simpl;
      [apply lookup_insert_eq|by rewrite disk_get_insert, decide_True|done|done]. }
  eapply exec_bind; [by apply exec_modify|].
  eapply exec_vis; [|done|done]. cbn. rewrite !insert_insert_eq, delete_insert_eq, (delete_id _ _ Hup).
  unfold as_held. cbn. rewrite Hpk. cbn. unfold with_pin. cbn.
  rewrite (lr_have1 _ _ _ HR : as_have1 a = true), (lr_have2 _ _ _ HR : as_have2 a = true).
  unfold log_write_log. fold i. by destruct (_ =? _).
Qed.

(** The sectors of the transaction after [log_write]. *)
Lemma secs_log_write l lg a x :
  log_rel g l (mklogged lg a) -> lg_n lg < LOGSIZE ->
  let i := absorb (secs_of lg) x in
  let secs' := secs_of (log_write_log lg x) in
  (x ∈ secs_of lg /\ secs' = secs_of lg /\ lg_n (log_write_log lg x) = lg_n lg) \/
  (x ∉ secs_of lg /\ secs' = secs_of lg ++ [x] /\ i = Z.to_nat (lg_n lg)
    /\ lg_n (log_write_log lg x) = lg_n lg + 1).
Proof.
  intros HR Hn. cbv zeta. pose proof (length_secs _ _ HR) as Hlen. pose proof (lr_n _ _ _ HR) as Hn0.
  pose proof (la_len _ _ (lr_log _ _ _ HR)) as H10. simpl in Hlen, Hn0, H10. unfold LOGSIZE in *.
  destruct (absorb_spec (secs_of lg) x) as [[Hin Hi]|[Hin Hi]].
  - left. apply lookup_lt_Some in Hi as Hlt. unfold log_write_log.
    rewrite (proj2 (Z.eqb_neq _ _)) by lia. split_and!; [done| |done]. unfold secs_of at 1. simpl.
    rewrite list_insert_id; [done|]. unfold secs_of in Hi. rewrite lookup_take_lt in Hi; [done|].
    unfold secs_of in Hlt. rewrite length_take in Hlt. unfold secs_of in Hlt. lia.
  - right. rewrite Hlen in Hi. unfold log_write_log. rewrite Hi, (proj2 (Z.eqb_eq _ _)) by lia.
    split_and!; [done| |done|done]. unfold secs_of. simpl.
    replace (Z.to_nat (lg_n lg + 1)) with (S (Z.to_nat (lg_n lg))) by lia.
    rewrite (take_S_r _ _ x) by (apply list_lookup_insert_eq; lia).
    by rewrite take_insert_ge by lia.
Qed.

Lemma log_write_log_fields lg x :
  lg_dev (log_write_log lg x) = lg_dev lg /\ lg_start (log_write_log lg x) = lg_start lg /\
  lg_size (log_write_log lg x) = lg_size lg /\ lg_busy (log_write_log lg x) = lg_busy lg /\
  length (lg_sector (log_write_log lg x)) = length (lg_sector lg).
Proof. unfold log_write_log. destruct (_ =? _); simpl; rewrite length_insert; done. Qed.

(** Facts about the transaction after [log_write] of a locked block. *)
Lemma trans_log_write l lg a k d :
  log_rel g l (mklogged lg a) -> ls_held l !! k = Some d -> k.1 = g_dev g ->
  lg_n lg < LOGSIZE -> lg_n lg < g_size g - 1 -> (size (pinset l) < NBUF)%nat ->
  let secs' := secs_of (log_write_log lg k.2) in
  trans_ok g secs' /\ list_to_set secs' = {[k.2]} ∪ ls_logged l /\
  Z.of_nat (length secs') = lg_n (log_write_log lg k.2) /\ lg_n (log_write_log lg k.2) < LOGSIZE /\
  secs' !! absorb (secs_of lg) k.2 = Some k.2 /\
  (forall j x, j <> absorb (secs_of lg) k.2 -> secs' !! j = Some x -> secs_of lg !! j = Some x).
Proof.
  intros HR Hk Hdev Hn1 Hn2 Hsz. pose proof (lr_logged _ _ _ HR) as Hl. cbn [lo_log] in Hl.
  change (take (Z.to_nat (lg_n lg)) (lg_sector lg)) with (secs_of lg) in Hl.
  pose proof (lr_trans _ _ _ HR) as [Ht1 Ht2 Ht3 Ht4]. cbn [lo_log] in *.
  change (take (Z.to_nat (lg_n lg)) (lg_sector lg)) with (secs_of lg) in *.
  destruct (lr_held _ _ _ HR _ _ Hk) as (Hin & Hkok & _).
  pose proof (length_secs _ _ HR) as Hlen. pose proof (lr_n _ _ _ HR) as Hn0. cbn [lo_log] in *.
  destruct (secs_log_write _ _ _ k.2 HR Hn1) as [(Hx & Hs & Hn)|(Hx & Hs & Hi & Hn)];
    cbv zeta; rewrite Hs, Hn.
  - destruct (absorb_spec (secs_of lg) k.2) as [[_ Hi]|[? _]]; [|done].
    split_and!; [by split|set_solver|lia|lia|done|done].
  - assert (length (secs_of lg ++ [k.2]) <= 9)%nat as H9.
    { assert (NoDup (secs_of lg ++ [k.2])) as Hnd.
      { apply NoDup_app. split_and!; [done|set_solver|apply NoDup_singleton]. }
      rewrite <- (length_fmap (pair (g_dev g))).
      rewrite <- (size_list_to_set (C := gset bufkey)) by (by apply (NoDup_fmap_2 _)).
      unfold NBUF in Hsz. etrans; [apply (subseteq_size _ (pinset l))|lia].
      unfold pinset. rewrite (lr_geom _ _ _ HR), <- Hl. destruct k as [kd ks]. simpl in *. subst kd.
      apply (elem_of_dom_2 _ _ d) in Hk. set_solver. }
    rewrite length_app in *. simpl in *. unfold LOGSIZE in *. split_and!; try lia.
    + split; rewrite ?length_app; unfold LOGSIZE; simpl; try lia.
      * apply NoDup_app. split_and!; [done|set_solver|apply NoDup_singleton].
      * apply Forall_app. split; [done|]. apply Forall_singleton. unfold home_ok. rewrite <- Hdev. by destruct k.
    + set_solver.
    + rewrite Hi, <- Hlen. by rewrite lookup_app_r, Nat.sub_diag by lia.
    + intros j x Hj. rewrite Hi in Hj. intros [Hjx|[Hge Hjx]]%lookup_app_Some; [done|].
      apply list_lookup_singleton_Some in Hjx as [? _]. lia.
Qed.

Lemma sim_logwrite l lg a k d :
  log_rel g l (mklogged lg a) -> ls_held l !! k = Some d -> k.1 = g_dev g ->
  lg_n lg < LOGSIZE -> lg_n lg < g_size g - 1 -> (size (pinset l) < NBUF)%nat ->
  log_rel g
    (mklstore (ls_geom l) (<[k := d]> (ls_view l)) (ls_durable l) (ls_held l)
       ({[k.2]} ∪ ls_logged l) (ls_trans l))
    (mklogged (log_write_log lg k.2)
       (mkastore (<[logkey g (Z.of_nat (absorb (secs_of lg) k.2)) := d]> (as_disk a))
          (<[k := mkabuf d true true]> (as_pin a)) true true)).
Proof.
  intros HR Hk Hdev Hn1 Hn2 Hsz.
  destruct (trans_log_write _ _ _ _ _ HR Hk Hdev Hn1 Hn2 Hsz) as (Ht & Hset & Hlen & Hn9 & Hi & Hj).
  destruct (log_write_log_fields lg k.2) as (F1 & F2 & F3 & F4 & F5).
  destruct (lr_held _ _ _ HR _ _ Hk) as (Hin & Hkok & Hdl).
  set (i := absorb (secs_of lg) k.2) in *.
  assert (i < length (secs_of (log_write_log lg k.2)))%nat as Hilt by (by eapply lookup_lt_Some).
  assert (fits g (Z.of_nat i)) as Hfit by (pose proof (to_fits _ _ Ht); unfold fits; lia).
  assert (forall k', in_log g k' = false -> logkey g (Z.of_nat i) <> k') as Hne.
  { intros k' Hk' Heq. by rewrite <- Heq, logkey_in_log in Hk'. }
  assert (forall k', k' <> k -> is_logged
    (mklstore (ls_geom l) (<[k := d]> (ls_view l)) (ls_durable l) (ls_held l)
       ({[k.2]} ∪ ls_logged l) (ls_trans l)) k' = is_logged l k') as Hother.
  { intros k' Hk'. unfold is_logged. simpl. rewrite (lr_geom _ _ _ HR).
    destruct (Z.eqb_spec k'.1 (g_dev g)) as [He|]; [|done]. simpl. apply bool_decide_ext.
    assert (k'.2 <> k.2) by (destruct k, k'; simpl in *; congruence). set_solver. }
  destruct HR; split; simpl in *; auto.
  - destruct lr_log0. split; simpl in *; congruence.
  - by apply disk_wf_insert.
  - lia.
  - congruence.
  - intros k'. destruct (decide (k' = k)) as [->|Hk'].
    + rewrite lookup_insert_eq, Hk. unfold is_logged. simpl.
      rewrite lr_geom0, Hdev, Z.eqb_refl, bool_decide_eq_true_2 by set_solver. done.
    + rewrite lookup_insert_ne, Hother, lr_pin0 by done. by rewrite disk_get_insert, decide_False.
  - intros k' Hk'. rewrite disk_get_insert, decide_False by auto. auto.
  - intros k' Hk' Hl'. destruct (decide (k' = k)) as [->|Hne'].
    + unfold is_logged in Hl'. simpl in Hl'.
      rewrite lr_geom0, Hdev, Z.eqb_refl, bool_decide_eq_true_2 in Hl' by set_solver. done.
    + rewrite disk_get_insert, decide_False by done. rewrite Hother in Hl' by done. auto.
  - intros j x Hjx. destruct (decide (j = i)) as [->|Hji].
    + rewrite disk_get_insert, decide_True by done.
      change (secs_of (log_write_log lg k.2) !! i = Some x) in Hjx. rewrite Hi in Hjx.
      injection Hjx as <-. rewrite <- Hdev. destruct k. by rewrite disk_get_insert, decide_True.
    + rewrite disk_get_insert, decide_False by (unfold logkey; intros [=]; lia).
      rewrite disk_get_insert, decide_False.
      * by apply lr_blocks0, Hj.
      * intros ->. simpl in *. apply Hji. eapply NoDup_lookup; [apply Ht|exact Hjx|exact Hi].
  - rewrite disk_get_insert, decide_False; [done|]. unfold logkey, hdrkey. intros [=]. lia.
Qed.

(** *** [commit_trans] *)

Lemma rel_committed l s : log_rel g l s -> committed g (as_disk (lo_store s)) (ls_durable l).
Proof. intros HR. apply committed_empty; apply HR. Qed.

(** Writing the header makes the transaction's content the one recovery
    produces. *)
Lemma header_commits l lg a :
  log_rel g l (mklogged lg a) ->
  let D1 := <[hdrkey g := put_head (lg_n lg) (lg_sector lg) (disk_get (as_disk a) (hdrkey g))]>
              (as_disk a) in
  disk_wf D1 /\ header_is g D1 (secs_of lg) /\
  (forall k, in_log g k = false -> disk_get (replay g 0 (secs_of lg) D1) k = disk_get (ls_view l) k).
Proof.
  intros HR. cbv zeta. pose proof (length_secs _ _ HR) as Hlen. pose proof (lr_n _ _ _ HR) as Hn.
  pose proof (la_len _ _ (lr_log _ _ _ HR)) as H10. pose proof (lr_wf _ _ _ HR) as Hwf.
  pose proof (lr_trans _ _ _ HR) as Ht. cbn [lo_log lo_store] in *.
  change (take (Z.to_nat (lg_n lg)) (lg_sector lg)) with (secs_of lg) in *.
  set (h := put_head (lg_n lg) (lg_sector lg) (disk_get (as_disk a) (hdrkey g))).
  assert (forall k, in_log g k = false -> hdrkey g <> k) as Hne.
  { intros k Hk Heq. rewrite <- Heq, hdrkey_in_log in Hk; [done|apply HR]. }
  split_and!.
  - apply disk_wf_insert; [done|]. apply length_put_head; [lia| |apply Hwf]. unfold LOGSIZE in *. lia.
  - unfold header_is. rewrite disk_get_insert, decide_True, Hlen, Z2Nat.id by (done || lia). split.
    + apply head_n_put; [lia|apply Hwf].
    + unfold h, put_head. fold (secs_of lg).
      replace (secs_of lg) with (take (Z.to_nat (lg_n lg)) (secs_of lg)) at 1 by (apply take_ge; lia).
      change (splice 0 _ _) with (put_head (lg_n lg) (secs_of lg) (disk_get (as_disk a) (hdrkey g))).
      rewrite head_sectors_put; [apply take_ge; lia|lia|lia|apply Hwf|].
      eapply Forall_impl; [apply Ht|]. intros x [[_ Hx] _]. unfold uint_range. simpl in Hx. lia.
  - intros k Hk. destruct (decide (k.1 = g_dev g /\ k.2 ∈ secs_of lg)) as [[Hd Hin]|Hn'].
    + apply list_elem_of_lookup in Hin as [i Hi]. destruct k as [kd x]. simpl in Hd, Hi. subst kd.
      erewrite replay_home; [|done|apply Ht|apply Ht|apply Ht|exact Hi]. simpl.
      rewrite disk_get_insert, decide_False by (unfold logkey, hdrkey; intros [=]; lia).
      by apply (lr_blocks _ _ _ HR).
    + assert (is_logged l k = false) as Hnl.
      { apply not_true_is_false. intros Hl. by apply (is_logged_spec _ _ _ HR) in Hl. }
      rewrite replay_other by (intros x Hx ->; simpl in Hn'; tauto).
      rewrite disk_get_insert, decide_False by auto.
      rewrite (lr_view _ _ _ HR) by done. by apply (lr_disk _ _ _ HR).
Qed.

(** The state after a transaction with no locked buffers: everything is
    durable. *)
Lemma rel_idle l lg a lg' D :
  log_rel g l (mklogged lg a) -> log_at g lg' -> lg_n lg' = 0 -> lg_busy lg' = false ->
  disk_wf D -> head_n (disk_get D (hdrkey g)) = 0 ->
  (forall k, in_log g k = false -> disk_get D k = disk_get (ls_view l) k) ->
  log_rel g (mklstore (ls_geom l) (ls_view l) (ls_view l) ∅ ∅ false)
    (mklogged lg' (mkastore D ∅ true true)).
Proof.
  intros HR Hlg Hn Hb Hwf Hh HD.
  assert (forall k, is_logged (mklstore (ls_geom l) (ls_view l) (ls_view l) ∅ ∅ false) k = false) as Hnl.
  { intros k. unfold is_logged. simpl. rewrite bool_decide_eq_false_2 by set_solver. apply andb_false_r. }
  split; cbn [lo_log lo_store ls_geom ls_view ls_durable ls_held ls_logged ls_trans as_disk as_pin
    as_have1 as_have2]; rewrite ?Hn; auto; try (by apply HR).
  - unfold LOGSIZE. lia.
  - apply trans_ok_nil, HR.
  - intros k. by rewrite !lookup_empty, Hnl.
  - intros k d. by rewrite lookup_empty.
  - intros i x Hx. by rewrite take_0 in Hx.
Qed.

Lemma unpin_all l lg a :
  log_rel g l (mklogged lg a) -> ls_held l = ∅ -> unpin g (secs_of lg) (as_pin a) = ∅.
Proof.
  intros HR Hh. apply map_eq. intros k. rewrite (unpin_lookup g (lr_ok _ _ _ HR)), lookup_empty.
  pose proof (lr_pin _ _ _ HR k) as Hp. rewrite Hh, lookup_empty in Hp. cbn [lo_store] in Hp.
  pose proof (is_logged_spec _ _ k HR) as Hs. cbn [lo_log] in Hs.
  destruct ((k.1 =? g_dev g) && bool_decide (k.2 ∈ secs_of lg)) eqn:Hb; [done|].
  destruct (is_logged l k); [|done].
  destruct Hs as [[Hd Hi] _]; [done|]. by rewrite Hd, Z.eqb_refl, bool_decide_eq_true_2 in Hb.
Qed.

Lemma pin_room l lg a : log_rel g l (mklogged lg a) -> ls_held l = ∅ -> (size (as_pin a) < NBUF)%nat.
Proof.
  intros HR Hh. rewrite (size_pin _ _ HR : size (as_pin a) = _). unfold pinset. rewrite Hh, dom_empty_L.
  pose proof (size_logged _ _ HR) as Hl. pose proof (lr_n _ _ _ HR) as Hn. cbn [lo_log] in *.
  unfold LOGSIZE, NBUF in *. rewrite union_empty_l_L.
  assert (size (set_map (D := gset bufkey) (fun x => (g_dev (ls_geom l), x)) (ls_logged l))
    <= size (ls_logged l))%nat; [|lia].
  unfold set_map. rewrite size_list_to_set.
  - by rewrite length_fmap.
  - apply NoDup_fmap_2; [intros ?? [=]; done|apply NoDup_elements].
Qed.

Lemma logged_can_install l lg a :
  log_rel g l (mklogged lg a) -> ls_held l = ∅ -> Forall (can_install g (as_pin a)) (secs_of lg).
Proof.
  intros HR Hh. apply Forall_forall. intros x Hx. unfold can_install.
  assert (is_logged l (g_dev g, x) = true) as Hl by (by apply (is_logged_spec _ _ _ HR)).
  pose proof (lr_pin _ _ _ HR (g_dev g, x)) as Hp. rewrite Hh, lookup_empty, Hl in Hp.
  cbn [lo_store] in Hp. by rewrite Hp.
Qed.

(** Writing the header, installing, and clearing the header. *)
Lemma exec_commit_body l lg a :
  log_rel g l (mklogged lg a) -> ls_held l = ∅ ->
  exists D3,
    exec (fun d => committed g d (ls_durable l) \/ committed g d (ls_view l))
      (write_head;;; install_trans;;; modify (set_n 0);;; write_head) lg a tt
      (set_n 0 lg) (mkastore D3 ∅ true true) /\
    disk_wf D3 /\ head_n (disk_get D3 (hdrkey g)) = 0 /\
    (forall k, in_log g k = false -> disk_get D3 k = disk_get (ls_view l) k).
Proof.
  intros HR Hh. pose proof (rel_committed _ _ HR) as Hc0. cbn [lo_store] in Hc0.
  pose proof HR as [_ Hg Hlg H1 H2 Hwf Hn Ht _ _ _ _ _ _ _ _]. cbn [lo_log lo_store] in *.
  change (take (Z.to_nat (lg_n lg)) (lg_sector lg)) with (secs_of lg) in *.
  pose proof (length_secs _ _ HR) as Hlen. cbn [lo_log] in Hlen.
  destruct (header_commits _ _ _ HR) as (Hwf1 & Hh1 & Hv1). cbv zeta in *.
  set (D1 := <[hdrkey g := _]> (as_disk a)) in *. set (D2 := replay g 0 (secs_of lg) D1).
  assert (disk_wf D2) as Hwf2 by (by apply length_replay_wf).
  assert (forall j, committed g (replay g 0 (take j (secs_of lg)) D1) (ls_view l)) as Hcj
    by (intros j; by apply committed_replay).
  assert (committed g D2 (ls_view l)) as Hc2 by
    (unfold D2; rewrite <- (take_ge (secs_of lg) (length (secs_of lg))) by done; apply Hcj).
  set (h := put_head 0 (lg_sector lg) (disk_get D2 (hdrkey g))). set (D3 := <[hdrkey g := h]> D2).
  assert (disk_wf D3) as Hwf3.
  { apply disk_wf_insert; [done|]. apply length_put_head; [unfold LOGSIZE; lia|lia|apply Hwf2]. }
  assert (head_n (disk_get D3 (hdrkey g)) = 0) as Hn3.
  { unfold D3. rewrite disk_get_insert, decide_True by done.
    apply head_n_put; [unfold LOGSIZE; lia|apply Hwf2]. }
  assert (forall k, in_log g k = false -> disk_get D3 k = disk_get (ls_view l) k) as Hv3.
  { intros k Hk. unfold D3. rewrite disk_get_insert, decide_False; [by apply Hv1|].
    intros <-. by rewrite hdrkey_in_log in Hk. }
  exists D3. split_and!; [|done..]. eapply exec_bind; [|eapply exec_bind; [|eapply exec_bind]].
  - eapply exec_weaken; [apply exec_write_head; try done; [lia| |]|].
    + by apply (log_unpinned _ _ _ HR), hdrkey_in_log.
    + by eapply pin_room.
    + intros d [->| ->]; [by left|right]. apply (Hcj 0%nat).
  - eapply exec_weaken; [unfold install_trans; apply exec_get|].
    + replace (seqZ 0 (lg_n lg)) with (seqZ 0 (Z.of_nat (length (secs_of lg)))) by (f_equal; lia).
      apply (exec_install g Hg lg (secs_of lg) 0 (mkastore D1 (as_pin a) true true));
        try done; try apply Hlg; try apply Ht; simpl.
      * intros j x Hj. unfold secs_of in Hj. by apply lookup_take_Some in Hj as [? _].
      * intros k Hk. by apply (log_unpinned _ _ _ HR).
      * by eapply pin_room.
      * by eapply logged_can_install.
    + intros d [j ->]. right. apply Hcj.
  - simpl. rewrite (unpin_all _ _ _ HR Hh). fold D2. apply exec_modify. by right.
  - eapply exec_weaken; [apply exec_write_head; try done|].
    + destruct Hlg; by split.
    + simpl. rewrite map_size_empty. unfold NBUF. lia.
    + intros d [->| ->]; right; [done|]. by apply committed_empty.
Qed.

Lemma exec_commit l lg a :
  log_rel g l (mklogged lg a) -> ls_held l = ∅ ->
  exists lg' a',
    exec (fun d => committed g d (ls_durable l) \/ committed g d (ls_view l))
      commit_trans lg a tt lg' a' /\
    log_rel g (mklstore (ls_geom l) (ls_view l) (ls_view l) ∅ ∅ false) (mklogged lg' a').
Proof.
  intros HR Hh. pose proof (rel_committed _ _ HR) as Hc0. cbn [lo_store] in Hc0.
  pose proof (lr_n _ _ _ HR) as Hn. pose proof (lr_log _ _ _ HR) as Hlg. cbn [lo_log] in *.
  unfold commit_trans. destruct (Z.ltb_spec 0 (lg_n lg)) as [Hpos|Hz].
  - destruct (exec_commit_body _ _ _ HR Hh) as (D3 & Hex & Hwf & Hn3 & Hv).
    exists (set_busy false (set_n 0 lg)), (mkastore D3 ∅ true true). split.
    + apply exec_get. rewrite (proj2 (Z.ltb_lt _ _)) by lia.
      eapply exec_bind; [exact Hex|]. apply exec_modify. right. by apply committed_empty; [apply HR|..].
    + by eapply rel_idle; [exact HR|destruct Hlg; by split|..].
  - exists (set_busy false lg), a. assert (lg_n lg = 0) as Hz0 by lia. split.
    + apply exec_get. rewrite (proj2 (Z.ltb_ge _ _)) by lia.
      eapply exec_bind; [apply exec_ret; by left|]. apply exec_modify. by left.
    + pose proof (unpin_all _ _ _ HR Hh) as Hp. unfold secs_of in Hp. rewrite Hz0 in Hp. simpl in Hp.
      pose proof (lr_have1 _ _ _ HR) as H1. pose proof (lr_have2 _ _ _ HR) as H2.
      replace a with (mkastore (as_disk a) ∅ true true) by (destruct a; simpl in *; by subst).
      eapply rel_idle; [exact HR|destruct Hlg; by split|done|done|apply HR|apply HR|].
      intros k Hk. rewrite (lr_disk _ _ _ HR k Hk : disk_get (as_disk a) k = _). symmetry.
      apply (lr_view _ _ _ HR); [done|]. apply not_true_is_false. intros Hl.
      apply (is_logged_spec _ _ _ HR) in Hl as [_ Hl]. cbn [lo_log] in Hl. unfold secs_of in Hl.
      rewrite Hz0 in Hl. by apply elem_of_nil in Hl.
Qed.

(** ** Every operation *)

Definition now_or l l' (d : diskmap) : Prop :=
  committed g d (ls_durable l) \/ committed g d (ls_durable l').

(** A block operation that succeeds on both sides. *)
Lemma exec_blk {X} (e : blkE X) l lg a x l' a' :
  log_rel g l (mklogged lg a) -> as_step e a = Ok (x, a') -> log_rel g l' (mklogged lg a') ->
  exec (now_or l l') (Vis e Ret) lg a x lg a'.
Proof.
  intros HR Hs HR'. apply exec_vis.
  - cbn. by rewrite Hs.
  - left. by apply (rel_committed _ _ HR).
  - right. by apply (rel_committed _ _ HR').
Qed.

(** What has to be shown of an operation. *)
Definition op_sim {X} (o : outcome (X * lstore)) (p : logprog X) l lg a : Prop :=
  match o with
  | Ok (x, l') => exists lg' a', exec (now_or l l') p lg a x lg' a' /\ log_rel g l' (mklogged lg' a')
  | Fail (Undef _) => True
  | Fail err => run p lg a = Fail err /\ forall d, d ∈ disks p lg a -> d = as_disk a
  end.

Lemma op_sim_blk {X} (e : blkE X) l lg a : log_rel g l (mklogged lg a) -> op_sim (ls_blk e l) (Vis e Ret) l lg a.
Proof.
  intros HR. destruct e as [dev sector|k|k d|k|k|k]; cbn [ls_blk]; try done;
    unfold ls_with; try (destruct (ls_held l !! k) as [d0|] eqn:Hk; [|done]);
    try pose proof (held_pin _ _ _ _ _ HR Hk) as Hp.
  - pose proof (sim_bread _ _ _ dev sector HR) as Hs.
    destruct (ls_bread dev sector l) as [[x l']|err]; simpl.
    + destruct Hs as (a' & Hs & HR'). exists lg, a'. split; [by eapply exec_blk|done].
    + destruct err; [| |done|]; rewrite Hs; (split; [done|]); by intros d ->%list_elem_of_singleton.
  - exists lg, a. split; [|done]. eapply exec_blk; [done| |done]. cbn. unfold as_held. by rewrite Hp.
  - case_decide as Hd; [|done]. eexists lg, _. split; [|by eapply sim_store].
    eapply exec_blk; [done| |by eapply sim_store]. cbn. unfold as_held, as_store. rewrite Hp. cbn.
    by rewrite decide_True.
  - unfold ls_bwrite. destruct (is_logged l k) eqn:Hl; [done|]. eexists lg, _.
    split; [|by eapply sim_bwrite]. eapply exec_blk; [done| |by eapply sim_bwrite].
    cbn. unfold as_held. by rewrite Hp.
  - unfold ls_brelse. case_decide as Hd; [|done].
    destruct (sim_brelse _ _ _ _ _ HR Hk Hd) as (a' & Hr & HR').
    exists lg, a'. split; [|done]. eapply exec_blk; [done| |done].
    cbn. unfold as_held. rewrite Hp. cbn [ab_busy]. by rewrite Hr.
Qed.

Lemma op_sim_logwrite l lg a k :
  log_rel g l (mklogged lg a) -> op_sim (ls_step (FLogWrite k) l) (log_write k) l lg a.
Proof.
  intros HR. cbn [ls_step]. unfold ls_logwrite. rewrite (lr_geom _ _ _ HR), (size_logged _ _ HR).
  cbn [lo_log]. pose proof (lr_log _ _ _ HR) as [Hld Hls Hlz _]. cbn [lo_log] in *.
  pose proof (lr_busy _ _ _ HR) as Hb. cbn [lo_log] in Hb.
  destruct ((LOGSIZE <=? lg_n lg) || (g_size g - 1 <=? lg_n lg)) eqn:Hbig.
  { simpl. rewrite Hlz, Hbig. split; [done|]. by intros d ->%list_elem_of_singleton. }
  destruct (ls_trans l) eqn:Htr; cbn [negb].
  2: { simpl. rewrite Hlz, Hbig, Hb. split; [done|]. by intros d ->%list_elem_of_singleton. }
  destruct (Z.eqb_spec k.1 (g_dev g)) as [Hdev|]; [|done]. cbn [negb]. unfold ls_with.
  destruct (ls_held l !! k) as [d|] eqn:Hk; [|done].
  apply orb_false_iff in Hbig as [Hn1%Z.leb_gt Hn2%Z.leb_gt].
  destruct (NBUF <=? size (pinset l))%nat eqn:Hsz; [apply Nat.leb_le in Hsz|apply Nat.leb_gt in Hsz].
  - pose proof (absorb_fits _ _ _ k.2 HR Hn2) as Hfit.
    pose proof (log_unpinned _ _ _ HR (logkey_in_log _ _ Hfit)) as Hup.
    pose proof (key_u32 _ (logkey_ok g (lr_ok _ _ _ HR) _ Hfit)) as [=Hu1 Hu2].
    rewrite <- (size_pin _ _ HR) in Hsz. cbn [lo_store] in *.
    assert (as_bread (u32 k.1) (u32 (lg_start lg + Z.of_nat (absorb (secs_of lg) k.2) + 1)) a
      = Fail (Panic "bget: no buffers")) as Hbr.
    { rewrite Hdev, Hls, Hu1, Hu2. unfold as_bread.
      change (g_dev g, _) with (logkey g (Z.of_nat (absorb (secs_of lg) k.2))).
      by rewrite Hup, (proj2 (Nat.leb_le _ _)) by done. }
    simpl. rewrite Hlz, Hb, (proj2 (Z.leb_gt _ _) Hn1), (proj2 (Z.leb_gt _ _) Hn2). cbn [orb negb].
    cbn -[u32 as_bread]. unfold secs_of in Hbr. rewrite Hbr. split; [done|]. by intros d' ->%list_elem_of_singleton.
  - pose proof (sim_logwrite _ _ _ _ _ HR Hk Hdev Hn1 Hn2 Hsz) as HR'.
    rewrite (lr_geom _ _ _ HR), Htr in HR'. eexists _, _. split; [|exact HR'].
    eapply exec_log_write; try done.
    + by rewrite <- (size_pin _ _ HR : size (as_pin a) = _) in Hsz.
    + left. by apply (rel_committed _ _ HR).
    + right. by apply (rel_committed _ _ HR').
Qed.

Lemma op_sim_step {X} (e : fsE X) l lg a :
  log_rel g l (mklogged lg a) -> op_sim (ls_step e l) (fs_code e) l lg a.
Proof.
  intros HR. destruct e as [X e|k| |].
  - by apply op_sim_blk.
  - by apply op_sim_logwrite.
  - simpl. unfold ls_begin. pose proof (lr_busy _ _ _ HR) as Hb. cbn [lo_log] in Hb.
    destruct (ls_trans l) eqn:Htr; simpl.
    + rewrite Hb. split; [done|]. by intros d ->%list_elem_of_singleton.
    + exists (set_busy true lg), a.
      assert (log_rel g (mklstore (ls_geom l) (ls_view l) (ls_durable l) (ls_held l) (ls_logged l) true)
        (mklogged (set_busy true lg) a)) as HR'.
      { destruct HR; split; simpl in *; auto. destruct lr_log0; by split. }
      split; [|done]. apply exec_get. rewrite Hb. apply exec_put. left. by apply (rel_committed _ _ HR).
  - simpl. unfold ls_commit. case_decide as Hh; [|done]. by apply exec_commit.
Qed.
End Rel.

#[global] Instance log_refines (g : geom) :
  Refines fsE lstore (logged astore) (log_rel g) (committed g).
Proof.
  split.
  - intros X e l [lg a] HR. pose proof (op_sim_step g e l lg a HR) as Hs. unfold op_sim in Hs.
    simpl. unfold logged_step. simpl. destruct (ls_step e l) as [[x l']|err].
    + destruct Hs as (lg' & a' & [-> _] & HR'). eauto.
    + destruct err; [| |done|]; by destruct Hs as [-> _].
  - intros X e l [lg a] HR Hu d Hd. pose proof (op_sim_step g e l lg a HR) as Hs. unfold op_sim in Hs.
    simpl in *. unfold ls_trace. destruct (ls_step e l) as [[x l']|err].
    + destruct Hs as (lg' & a' & [_ Hds] & HR').
      destruct (Hds d Hd); eexists; (split; [|eassumption]); set_solver.
    + exists (ls_durable l). split; [by left|].
      assert (d = as_disk a) as ->; [|by apply (rel_committed g _ _ HR)].
      destruct err as [| |why|]; [| |by destruct (Hu why)|]; by apply Hs.
  - intros l s HR. by apply rel_committed.
Qed.
