(* ===== verification/Storage.v ===== *)
(** * The storage stack: IDE driver, buffer cache and log together

    The theorems here are about [bio.c], [ide.c] and [log.c] stacked the way
    the kernel stacks them.  A file system is a [prog fsE K R]; whatever it
    computes on the contract [lstore] it computes on the real stack, and a
    power failure at any disk write leaves a disk from which
    [recover_from_log] produces a content the contract allows. *)

From stdpp Require Import base gmap strings numbers list.
From S2P Require Import Prelude Prog Bio AStore BioFacts BioRefine Layout Log LStore LogRecover LogRefine.

(** The state of the contract right after mounting a file system whose durable
    content is [D]. *)
Definition fs_boot (g : geom) (D : diskmap) : lstore := mklstore g D D ∅ ∅ false.

(** The log's place, as [initlog] computes it from the super block. *)
Definition sb_geom (sb : sfs_super) : geom :=
  mkgeom ROOTDEV (s32 (sb_size sb - sb_nlog sb)) (s32 (sb_nlog sb)).

Definition disk_geom (d : diskmap) : geom := sb_geom (get_super (disk_get d (ROOTDEV, 1))).

Definition stack_rel (g : geom) (l : lstore) (s : logged bstate) : Prop :=
  exists s', log_rel g l s' /\ (lo_log s' = lo_log s /\ bio_rel (lo_store s') (lo_store s)).

Definition stack_rec (g : geom) (d D : diskmap) : Prop := exists d', committed g d' D /\ d = d'.

#[global] Instance stack_refines g :
  Refines fsE lstore (logged bstate) (stack_rel g) (stack_rec g).
Proof. apply (refines_trans _ _ _ _ (log_refines g) logged_refines). Qed.

Lemma fs_boot_rel g D d lg :
  geom_ok g -> log_at g lg -> lg_n lg = 0 -> lg_busy lg = false -> disk_wf d ->
  head_n (disk_get d (hdrkey g)) = 0 ->
  (forall k, in_log g k = false -> disk_get d k = disk_get D k) ->
  log_rel g (fs_boot g D) (mklogged lg (aboot d)).
Proof.
  intros Hg Hlg Hn Hb Hwf Hh HD.
  assert (forall k, is_logged (fs_boot g D) k = false) as Hnl.
  { intros k. unfold is_logged. simpl. rewrite bool_decide_eq_false_2 by set_solver. apply andb_false_r. }
  split; cbn [lo_log lo_store fs_boot aboot ls_geom ls_view ls_durable ls_held ls_logged ls_trans as_disk
    as_pin as_have1 as_have2]; rewrite ?Hn; auto.
  - unfold LOGSIZE. lia.
  - by apply trans_ok_nil.
  - intros k. rewrite !lookup_empty. by rewrite Hnl.
  - intros k d0. by rewrite lookup_empty.
  - intros i x Hx. by rewrite take_0 in Hx.
Qed.

(** Recovery on the real stack. *)
Lemma recover_stack g d D lg :
  geom_ok g -> log_at g lg -> lg_busy lg = false -> committed g d D ->
  exists lg' c, run recover_from_log lg (boot_state d) = Ok (tt, lg', c) /\
    stack_rel g (fs_boot g D) (mklogged lg' c).
Proof.
  intros Hg Hlg Hb Hc.
  destruct (exec_recover g Hg lg d D Hlg Hc) as (d' & lg' & [Hr _] & Hwf & Hh & HD & Hlg' & Hn & Hb').
  pose proof (run_refines recover_from_log lg _ _ (boot_rel d)) as Hrr. rewrite Hr in Hrr.
  destruct Hrr as (c & Hrun & Hrel). exists lg', c. split; [done|].
  exists (mklogged lg' (aboot d')). split; [|exact (conj eq_refl Hrel)]. apply fs_boot_rel; auto. congruence.
Qed.

(** Mounting: [initlog] finds the log from the super block and recovers. *)
Lemma initlog_stack d D :
  geom_ok (disk_geom d) -> committed (disk_geom d) d D ->
  exists lg c, run initlog log0 (boot_state d) = Ok (tt, lg, c) /\
    stack_rel (disk_geom d) (fs_boot (disk_geom d) D) (mklogged lg c).
Proof.
  intros Hg Hc. set (g := disk_geom d) in *.
  set (lg1 := mklog (g_start g) (g_size g) false ROOTDEV 0 (replicate 10 0)).
  assert (log_at g lg1) as Hlg1 by (split; done).
  destruct (exec_recover g Hg lg1 d D Hlg1 Hc) as (d' & lg' & [Hr _] & Hwf & Hh & HD & Hlg' & Hn & Hb).
  assert (run initlog log0 (aboot d) = Ok (tt, lg', aboot d')) as Hrun.
  { unfold initlog, readsb. rewrite run_bind.
    rewrite (run_bind_Ok _ _ _ _ _ _ _ (run_bread_new (aboot d) log0 ROOTDEV 1 eq_refl
      (Nat.lt_succ_l _ _ (aboot_room d)) eq_refl eq_refl ltac:(unfold key_ok, ROOTDEV; simpl; lia))).
    rewrite (run_bind_Ok _ _ _ _ _ _ _ (arun_bdata _ _ _ _ _ (lookup_insert_eq _ _ _))).
    erewrite run_bind_Ok by (eapply run_brelse_clean; [apply lookup_insert_eq|done]).
    cbn [run]. unfold modify. cbn [pbind run]. rewrite <- Hr. by f_equal. }
  pose proof (run_refines initlog log0 _ _ (boot_rel d)) as Hrr. rewrite Hrun in Hrr.
  destruct Hrr as (c & Hrunc & Hrel). exists lg', c. split; [done|].
  exists (mklogged lg' (aboot d')). split; [|exact (conj eq_refl Hrel)]. by apply fs_boot_rel.
Qed.

(** ** Transactions are atomic

    [in_trans p]: between its disk reads, [p] changes blocks only through
    [log_write]. *)

Fixpoint in_trans {K R} (p : prog fsE K R) : Prop :=
  match p with
  | Ret _ | Stop _ => True
  | Get f => forall k, in_trans (f k)
  | Put _ p => in_trans p
  | Vis e f =>
      match e with
      | FBlk (EBwrite _) | FBegin | FCommit => False
      | _ => True
      end /\ forall x, in_trans (f x)
  end.

(** [begin_trans(); p; commit_trans();] *)
Definition transaction {K R} (p : prog fsE K R) : prog fsE K R :=
  Vis FBegin (fun _ => r <- p;; Vis FCommit (fun _ => Ret r)).

Lemma in_trans_bind {K R S} (p : prog fsE K R) (f : R -> prog fsE K S) :
  in_trans p -> (forall r, in_trans (f r)) -> in_trans (pbind p f).
Proof.
  intros Hp Hf. induction p as [r|e|g IH|k' p IH|X e g IH]; simpl in *; auto.
  destruct Hp as [He Hg]. split; [done|]. intros x. apply IH, Hg.
Qed.

Lemma in_trans_step {X} (e : fsE X) l x l' :
  match e with FBlk (EBwrite _) | FBegin | FCommit => False | _ => True end ->
  ls_step e l = Ok (x, l') -> ls_durable l' = ls_durable l.
Proof.
  intros He. destruct e as [X e|k| |]; [destruct e| | |]; try done; simpl;
    unfold ls_bread, ls_with, ls_brelse, ls_logwrite; intros Hs;
    repeat (case_match || inv_ok); try discriminate; try (by simplify_eq).
  all: unfold ls_with in *; repeat (case_match || inv_ok); by simplify_eq.
Qed.

Lemma in_trans_durable {K R} (p : prog fsE K R) k l :
  in_trans p ->
  (forall d, d ∈ disks p k l -> d = ls_durable l) /\
  (forall r k' l', run p k l = Ok (r, k', l') -> ls_durable l' = ls_durable l).
Proof.
  revert k l. induction p as [r|e|g IH|k' p IH|X e g IH]; intros k l Hp; simpl in *.
  - split; [by intros d ->%list_elem_of_singleton|congruence].
  - split; [by intros d ->%list_elem_of_singleton|done].
  - by apply IH.
  - by apply IH.
  - destruct Hp as [He Hg]. unfold ls_trace.
    destruct (ls_step e l) as [[x l']|err] eqn:Hs.
    + pose proof (in_trans_step _ _ _ _ He Hs) as Hd.
      destruct (IH x k l' (Hg x)) as [IH1 IH2]. rewrite Hd in *. split; [|done].
      intros d Hin. simpl in Hin. rewrite !elem_of_cons in Hin.
      destruct Hin as [->|[->|?]]; [done|done|]. by apply IH1.
    + split; [|done]. intros d Hin. simpl in Hin. by apply list_elem_of_singleton in Hin.
Qed.

Lemma transaction_disks {K R} (p : prog fsE K R) k l d :
  in_trans p -> d ∈ disks (transaction p) k l ->
  d = ls_durable l \/ exists r k' l', run (transaction p) k l = Ok (r, k', l') /\ d = ls_durable l'.
Proof.
  intros Hp Hin. unfold transaction in *. simpl in *. unfold ls_trace in Hin. simpl in Hin.
  destruct (let? l0 := ls_begin l in Ok ((), l0)) as [[[] l1]|err] eqn:Hb; simpl in Hin.
  2: { left. by apply list_elem_of_singleton in Hin. }
  assert (ls_durable l1 = ls_durable l) as Hd1.
  { unfold ls_begin in Hb. by destruct (ls_trans l); simplify_eq/=. }
  destruct (in_trans_durable p k l1 Hp) as [Hds Hrun].
  rewrite !elem_of_cons in Hin. destruct Hin as [->|[->|Hin]]; [by left|by left|].
  apply disks_bind in Hin as [Hin|(r & k' & l2 & Hr & Hin)].
  { left. rewrite <- Hd1. by apply Hds. }
  apply Hrun in Hr as Hd2. rewrite run_bind, Hr. simpl in *. unfold ls_trace in Hin. simpl in Hin.
  destruct (let? l0 := ls_commit l2 in Ok ((), l0)) as [[[] l3]|err] eqn:Hc; simpl in Hin.
  - rewrite !elem_of_cons, elem_of_nil in Hin.
    destruct Hin as [->|[->|[->|[]]]]; [left; congruence|right; eauto 10|right; eauto 10].
  - left. apply list_elem_of_singleton in Hin. congruence.
Qed.

Lemma transaction_durable {K R} (p : prog fsE K R) k l r k' l' :
  run (transaction p) k l = Ok (r, k', l') -> ls_durable l' = ls_view l'.
Proof.
  unfold transaction. simpl. destruct (let? l0 := ls_begin l in Ok ((), l0)) as [[[] l1]|err]; [|done].
  intros (r1 & k1 & l2 & _ & Hrt)%run_bind_inv. simpl in Hrt. unfold ls_commit in Hrt.
  case_decide; [|done]. by simplify_eq/=.
Qed.

(** The disk a run starts with is one a power failure can leave. *)
Lemma disks_now {K R} (p : prog blkE K R) k (b : bstate) : st_disk b ∈ disks p k b.
Proof.
  revert k. induction p as [r|e|g IH|k' p IH|X e g IH]; intros k; simpl; auto; by left.
Qed.

Lemma disks_start {K R} (p : prog fsE K R) k (s : logged bstate) : st_disk s ∈ disks p k s.
Proof.
  revert k. induction p as [r|e|g IH|k' p IH|X e g IH]; intros k; simpl; auto; [by left..|].
  apply elem_of_app. left. exact (disks_now (fs_code e) (lo_log s) (lo_store s)).
Qed.

Lemma transaction_now {K R} (p : prog fsE K R) k (s : logged bstate) :
  st_disk s ∈ disks (transaction p) k s.
Proof. unfold transaction. simpl. apply elem_of_app. left. by apply (disks_now begin_trans). Qed.

Lemma boot_disk d : st_disk (boot_state d) = d.
Proof. by destruct (boot_meta d) as (_ & _ & ? & _). Qed.

(** ** The theorems *)

(** The machine after mounting: [initlog] has run on the booted cache. *)
Definition mounted (d : diskmap) (s : logged bstate) : Prop :=
  run initlog log0 (boot_state d) = Ok (tt, lo_log s, lo_store s).

(** Powering up on disk [d] and running recovery, possibly interrupted by
    further power failures during it, leaves disk [d']. *)
Inductive reboots (lg : log) : diskmap -> diskmap -> Prop :=
| reboots_now d : reboots lg d d
| reboots_fail d d1 d' :
    d1 ∈ disks recover_from_log lg (boot_state d) -> reboots lg d1 d' -> reboots lg d d'.

Lemma reboots_committed g lg d d' D :
  geom_ok g -> log_at g lg -> committed g d D -> reboots lg d d' -> committed g d' D.
Proof.
  intros Hg Hlg Hc Hr. induction Hr as [|d d1 d' Hin _ IH]; [done|]. apply IH.
  destruct (exec_recover g Hg lg d D Hlg Hc) as (d2 & lg' & [Hrun Hds] & _).
  destruct (disks_refines recover_from_log lg _ _ (boot_rel d)) with (d := d1) as (D1 & HD1 & ->); [|done|].
  - intros why Hw. by rewrite Hrun in Hw.
  - by apply Hds.
Qed.

(** C2: after mounting, every file-system program (block operations and
    transactions) behaves on the log over the cache over the drive exactly as
    it behaves on logical blocks with transactions. *)
Theorem storage_refines {K R} (p : prog fsE K R) (k : K) (d D : diskmap) :
  geom_ok (disk_geom d) -> committed (disk_geom d) d D ->
  exists s, mounted d s /\
    match run p k (fs_boot (disk_geom d) D) with
    | Ok (r, k', l) => exists s', run p k s = Ok (r, k', s') /\ stack_rel (disk_geom d) l s'
    | Fail (Undef _) => True
    | Fail err => run p k s = Fail err
    end.
Proof.
  intros Hg Hc. destruct (initlog_stack d D Hg Hc) as (lg & c & Hrun & Hrel).
  exists (mklogged lg c). split; [done|]. by apply run_refines.
Qed.

(** C1: crash safety.  If the power fails at any moment of any file-system
    program, and fails again any number of times while the log is being
    recovered, recovery finally completes and the file system continues from a
    durable content the program's run on the contract passed through. *)
Theorem crash_safe {K R} (p : prog fsE K R) (k : K) (d D : diskmap) (s : logged bstate) (lg0 : log) :
  geom_ok (disk_geom d) -> committed (disk_geom d) d D -> mounted d s ->
  (forall why, run p k (fs_boot (disk_geom d) D) <> Fail (Undef why)) ->
  log_at (disk_geom d) lg0 -> lg_busy lg0 = false ->
  forall d1 d2, d1 ∈ disks p k s -> reboots lg0 d1 d2 ->
  exists D', D' ∈ disks p k (fs_boot (disk_geom d) D) /\
    exists lg' c, run recover_from_log lg0 (boot_state d2) = Ok (tt, lg', c) /\
      stack_rel (disk_geom d) (fs_boot (disk_geom d) D') (mklogged lg' c).
Proof.
  intros Hg Hc Hm Hu Hlg Hb d1 d2 Hd1 Hrb.
  destruct (initlog_stack d D Hg Hc) as (lg & c & Hrun & Hrel). unfold mounted in Hm.
  rewrite Hrun in Hm. destruct s as [slg sc]. injection Hm as <- <-.
  destruct (disks_refines p k _ _ Hrel Hu d1 Hd1) as (D' & HD' & d1' & Hc' & ->).
  exists D'. split; [done|]. apply recover_stack; auto. by eapply reboots_committed.
Qed.

(** C5: transactions are atomic.  If the power fails during
    [begin_trans(); p; commit_trans()], where [p] changes blocks through
    [log_write] only, recovery yields the content before the transaction or
    the content after all of it. *)
Theorem transaction_atomic {K R} (p : prog fsE K R) (k : K) (d D : diskmap) (s : logged bstate) (lg0 : log) :
  geom_ok (disk_geom d) -> committed (disk_geom d) d D -> mounted d s -> in_trans p ->
  (forall why, run (transaction p) k (fs_boot (disk_geom d) D) <> Fail (Undef why)) ->
  log_at (disk_geom d) lg0 -> lg_busy lg0 = false ->
  forall d1 d2, d1 ∈ disks (transaction p) k s -> reboots lg0 d1 d2 ->
  exists D' lg' c, run recover_from_log lg0 (boot_state d2) = Ok (tt, lg', c) /\
    stack_rel (disk_geom d) (fs_boot (disk_geom d) D') (mklogged lg' c) /\
    (D' = D \/ exists r k' l', run (transaction p) k (fs_boot (disk_geom d) D) = Ok (r, k', l') /\
                               D' = ls_view l').
Proof.
  intros Hg Hc Hm Hp Hu Hlg Hb d1 d2 Hd1 Hrb.
  destruct (initlog_stack d D Hg Hc) as (lg & c & Hrun & Hrel). unfold mounted in Hm.
  rewrite Hrun in Hm. destruct s as [slg sc]. injection Hm as <- <-.
  destruct (disks_refines _ k _ _ Hrel Hu d1 Hd1) as (D' & HD' & d1' & Hc' & ->).
  destruct (recover_stack _ d2 D' lg0 Hg Hlg Hb) as (lg' & c' & Hr & Hs); [by eapply reboots_committed|].
  exists D', lg', c'. split_and!; [done|done|].
  apply (transaction_disks p k) in HD' as [->|(r & k' & l' & Hrt & ->)]; [by left|right|done].
  exists r, k', l'. split; [exact Hrt|]. by apply transaction_durable in Hrt.
Qed.

(** ** A concrete disk on which the theorems apply

    Twenty blocks, the last ten of them the log; the transaction changes a
    byte of block 3. *)

Definition demo_disk : diskmap :=
  {[ (ROOTDEV, 1) := put_super (mksuper 20 5 8 10) zblock ]}.

Definition demo_trans : prog fsE unit unit :=
  b <- bread ROOTDEV 3;;
  bmodify b (put_u8 7 42);;;
  Vis (FLogWrite b) Ret;;;
  brelse b.

Definition demo_machine : logged bstate :=
  match run initlog log0 (boot_state demo_disk) with
  | Ok (_, lg, c) => mklogged lg c
  | Fail _ => mklogged log0 (boot_state demo_disk)
  end.

Lemma demo_wf : disk_wf demo_disk.
Proof.
  intros k. unfold disk_get, demo_disk. destruct (decide (k = (ROOTDEV, 1))) as [->|].
  - by rewrite lookup_singleton_eq.
  - by rewrite lookup_singleton_ne by done.
Qed.

Lemma demo_geom : disk_geom demo_disk = mkgeom ROOTDEV 10 10.
Proof. by vm_compute. Qed.

Lemma demo_committed : committed (disk_geom demo_disk) demo_disk demo_disk.
Proof.
  rewrite demo_geom. apply committed_empty.
  - unfold geom_ok, ROOTDEV. simpl. lia.
  - apply demo_wf.
  - by vm_compute.
  - done.
Qed.

Lemma demo_geom_ok : geom_ok (disk_geom demo_disk).
Proof. rewrite demo_geom. unfold geom_ok, ROOTDEV. simpl. lia. Qed.

Lemma demo_mounted : mounted demo_disk demo_machine.
Proof. unfold mounted, demo_machine. by vm_compute. Qed.

Lemma demo_log_at : log_at (disk_geom demo_disk) (lo_log demo_machine).
Proof. rewrite demo_geom. split; by vm_compute. Qed.

Lemma demo_not_busy : lg_busy (lo_log demo_machine) = false.
Proof. by vm_compute. Qed.

Lemma demo_in_trans : in_trans demo_trans.
Proof. cbn. repeat (split || intro); done. Qed.

Lemma demo_no_undef why :
  run (transaction demo_trans) tt (fs_boot (disk_geom demo_disk) demo_disk) <> Fail (Undef why).
Proof. rewrite demo_geom. by vm_compute. Qed.

Lemma storage_refines_witness :
  exists s, mounted demo_disk s /\
    match run (transaction demo_trans) tt (fs_boot (disk_geom demo_disk) demo_disk) with
    | Ok (r, k', l) =>
        exists s', run (transaction demo_trans) tt s = Ok (r, k', s') /\ stack_rel (disk_geom demo_disk) l s'
    | Fail (Undef _) => True
    | Fail err => run (transaction demo_trans) tt s = Fail err
    end.
Proof. exact (storage_refines (transaction demo_trans) tt demo_disk demo_disk demo_geom_ok demo_committed). Defined.

Lemma crash_safe_witness :
  let d1 := st_disk demo_machine in
  exists D', D' ∈ disks (transaction demo_trans) tt (fs_boot (disk_geom demo_disk) demo_disk) /\
    exists lg' c, run recover_from_log (lo_log demo_machine) (boot_state d1) = Ok (tt, lg', c) /\
      stack_rel (disk_geom demo_disk) (fs_boot (disk_geom demo_disk) D') (mklogged lg' c).
Proof.
  apply (crash_safe (transaction demo_trans) tt demo_disk demo_disk demo_machine (lo_log demo_machine)
    demo_geom_ok demo_committed demo_mounted demo_no_undef demo_log_at demo_not_busy
    (st_disk demo_machine) (st_disk demo_machine) (transaction_now _ _ _)).
  apply (reboots_fail _ _ (st_disk demo_machine)); [|apply reboots_now].
  rewrite <- (boot_disk (st_disk demo_machine)) at 1. apply disks_now.
Defined.

Lemma transaction_atomic_witness :
  let d1 := st_disk demo_machine in
  exists D' lg' c, run recover_from_log (lo_log demo_machine) (boot_state d1) = Ok (tt, lg', c) /\
    stack_rel (disk_geom demo_disk) (fs_boot (disk_geom demo_disk) D') (mklogged lg' c) /\
    (D' = demo_disk \/ exists r k' l',
       run (transaction demo_trans) tt (fs_boot (disk_geom demo_disk) demo_disk) = Ok (r, k', l') /\
       D' = ls_view l').
Proof.
  exact (transaction_atomic demo_trans tt demo_disk demo_disk demo_machine (lo_log demo_machine)
    demo_geom_ok demo_committed demo_mounted demo_in_trans demo_no_undef demo_log_at demo_not_busy
    (st_disk demo_machine) (st_disk demo_machine) (transaction_now _ _ _) (reboots_now _ _)).
Defined.
