(* ===== verification/CString.v ===== *)
(** * Memory and string routines: [string.c]

    A pointer into a byte buffer is the list of bytes from it to the end of
    the buffer; a routine that would read or write past that end is [Undef].
    [memmove], whose buffers may overlap, works on one memory with two
    offsets. *)

From stdpp Require Import base gmap strings numbers list.
From S2P Require Import Prelude.

(** ** Definitions *)

Definition oob {A} : outcome A := Fail (Undef "access outside a buffer").

Definition rd (m : list Z) (i : nat) : outcome Z :=
  match m !! i with
  | Some b => Ok b
  | None => oob
  end.

Definition wr (m : list Z) (i : nat) (v : Z) : outcome (list Z) :=
  if decide (i < length m)%nat then Ok (<[i := u8 v]> m) else oob.

(** [while(n-- > 0) *d++ = *s++] *)
Fixpoint copy_up (n : nat) (d s : nat) (m : list Z) : outcome (list Z) :=
  match n with
  | O => Ok m
  | S n => let? b := rd m s in let? m := wr m d b in copy_up n (S d) (S s) m
  end.

(** [while(n-- > 0) *--d = *--s], entered with [s] and [d] past the end *)
Fixpoint copy_down (n : nat) (d s : nat) (m : list Z) : outcome (list Z) :=
  match n with
  | O => Ok m
  | S n => let? b := rd m (s + n) in let? m := wr m (d + n) b in copy_down n d s m
  end.

Definition memmove (dst src n : nat) (m : list Z) : outcome (list Z) :=
  if (src <? dst)%nat && (dst <? src + n)%nat then copy_down n dst src m
  else copy_up n dst src m.

(** [rep stosb] and [rep stosl] *)
Fixpoint stosb (n : nat) (d : nat) (c : Z) (m : list Z) : outcome (list Z) :=
  match n with
  | O => Ok m
  | S n => let? m := wr m d c in stosb n (S d) c m
  end.

Fixpoint stosl (n : nat) (d : nat) (c : Z) (m : list Z) : outcome (list Z) :=
  match n with
  | O => Ok m
  | S n =>
      if decide (d + 4 <= length m)%nat then stosl n (d + 4) c (put_u32 d c m) else oob
  end.

(** [dst] has address [base + d]. *)
Definition memset (base : Z) (d : nat) (c : Z) (n : nat) (m : list Z) : outcome (list Z) :=
  if ((base + Z.of_nat d) mod 4 =? 0) && (Z.of_nat n mod 4 =? 0) then
    let c := Z.land c 0xFF in
    stosl (n / 4) d
      (Z.lor (Z.lor (Z.lor (Z.shiftl c 24) (Z.shiftl c 16)) (Z.shiftl c 8)) c) m
  else stosb n d c m.

Fixpoint memcmp (n : nat) (s1 s2 : list Z) {struct n} : outcome Z :=
  match n with
  | O => Ok 0
  | S n =>
      match s1, s2 with
      | a :: s1, b :: s2 => if negb (a =? b) then Ok (a - b) else memcmp n s1 s2
      | _, _ => oob
      end
  end.

Fixpoint strncmp (p q : list Z) (n : nat) {struct n} : outcome Z :=
  match n with
  | O => Ok 0
  | S n =>
      match p, q with
      | a :: p, b :: q => if negb (a =? 0) && (a =? b) then strncmp p q n else Ok (a - b)
      | _, _ => oob
      end
  end.

(** [while(n-- > 0) *s++ = 0] *)
Definition zero_fill (n : nat) (d : nat) (m : list Z) : outcome (list Z) := stosb n d 0 m.

Fixpoint strncpy_at (d : nat) (t : list Z) (n : nat) (m : list Z) {struct n} : outcome (list Z) :=
  match n with
  | O => Ok m
  | S n =>
      match t with
      | [] => oob
      | b :: t =>
          let? m := wr m d b in
          if negb (b =? 0) then strncpy_at (S d) t n m else zero_fill n (S d) m
      end
  end.
Definition strncpy (s t : list Z) (n : Z) : outcome (list Z) := strncpy_at 0 t (Z.to_nat n) s.

(** [while(--n > 0 && ( *s++ = *t++ ) != 0); *s = 0;] with [n >= 1] *)
Fixpoint safestrcpy_at (d : nat) (t : list Z) (n : nat) (m : list Z) {struct n} : outcome (list Z) :=
  match n with
  | O => wr m d 0
  | S n =>
      match t with
      | [] => oob
      | b :: t =>
          let? m := wr m d b in
          if negb (b =? 0) then safestrcpy_at (S d) t n m else wr m (S d) 0
      end
  end.
Definition safestrcpy (s t : list Z) (n : Z) : outcome (list Z) :=
  if n <=? 0 then Ok s else safestrcpy_at 0 t (Z.to_nat (n - 1)) s.

Fixpoint strlen (s : list Z) : outcome Z :=
  match s with
  | [] => oob
  | b :: s => if b =? 0 then Ok 0 else let? n := strlen s in Ok (n + 1)
  end.

(** The string at a pointer: the bytes before the first NUL. *)
Fixpoint cstr (s : list Z) : list Z :=
  match s with
  | [] => []
  | b :: s => if b =? 0 then [] else b :: cstr s
  end.

Definition terminated (s : list Z) : Prop := 0 ∈ s.

(** ** Facts *)

Lemma u8_byte b : is_byte b -> u8 b = b.
Proof. intros H. unfold u8. apply Z.mod_small. exact H. Qed.

Lemma rd_ok m i b : m !! i = Some b -> rd m i = Ok b.
Proof. intros H. unfold rd. by rewrite H. Qed.

Lemma wr_ok m i v : (i < length m)%nat -> wr m i v = Ok (<[i := u8 v]> m).
Proof. intros H. unfold wr. by rewrite decide_True. Qed.

Lemma bytes_insert m i b : Forall is_byte m -> Forall is_byte (<[i := u8 b]> m).
Proof. intros H. apply Forall_insert; [done|]. apply u8_range. Qed.

Lemma bytes_lookup m i b : Forall is_byte m -> m !! i = Some b -> is_byte b.
Proof. intros H Hi. by eapply Forall_lookup_1. Qed.

Lemma copy_up_spec n d s m :
  Forall is_byte m -> (s + n <= length m)%nat -> (d + n <= length m)%nat ->
  (d <= s \/ s + n <= d)%nat -> copy_up n d s m = Ok (splice d (slice s n m) m).
Proof.
  revert d s m. induction n as [|n IH]; intros d s m Hb Hs Hd Hov; simpl.
  - unfold splice, slice. simpl. by rewrite Nat.add_0_r, take_drop.
  - destruct (lookup_lt_is_Some_2 m s) as [b Hsb]; [lia|].
    rewrite (rd_ok _ _ _ Hsb). simpl. rewrite wr_ok by lia. simpl.
    rewrite (u8_byte b) by (by eapply bytes_lookup).
    rewrite IH; [f_equal| |len|len|lia].
    + apply list_eq. intros i.
      rewrite !lookup_splice; rewrite ?length_slice; try len.
      destruct (decide (i = d)) as [->|].
      * rewrite decide_False by lia. rewrite decide_True by lia.
        rewrite list_lookup_insert_eq by lia. rewrite lookup_slice, decide_True by lia.
        rewrite <- Hsb. f_equal. lia.
      * rewrite !lookup_slice. repeat case_decide; try lia.
        -- rewrite list_lookup_insert_ne by lia. f_equal. lia.
        -- by rewrite list_lookup_insert_ne by lia.
    + rewrite <- (u8_byte b) by (by eapply bytes_lookup). by apply bytes_insert.
Qed.

Lemma copy_down_spec n d s m :
  Forall is_byte m -> (s + n <= length m)%nat -> (d + n <= length m)%nat ->
  (s < d)%nat -> copy_down n d s m = Ok (splice d (slice s n m) m).
Proof.
  revert m. induction n as [|n IH]; intros m Hb Hs Hd Hov; simpl.
  - unfold splice, slice. simpl. by rewrite Nat.add_0_r, take_drop.
  - destruct (lookup_lt_is_Some_2 m (s + n)) as [b Hsb]; [lia|].
    rewrite (rd_ok _ _ _ Hsb). simpl. rewrite wr_ok by lia. simpl.
    rewrite (u8_byte b) by (by eapply bytes_lookup).
    rewrite IH; [f_equal| |len|len|lia].
    + apply list_eq. intros i.
      rewrite !lookup_splice; rewrite ?length_slice; try len.
      destruct (decide (i = d + n)%nat) as [->|].
      * rewrite decide_False by lia. rewrite decide_True by lia.
        rewrite list_lookup_insert_eq by lia. rewrite lookup_slice, decide_True by lia.
        rewrite <- Hsb. f_equal. lia.
      * rewrite !lookup_slice. repeat case_decide; try lia.
        -- rewrite list_lookup_insert_ne by lia. done.
        -- by rewrite list_lookup_insert_ne by lia.
    + rewrite <- (u8_byte b) by (by eapply bytes_lookup). by apply bytes_insert.
Qed.

Lemma memmove_spec d s n m :
  Forall is_byte m -> (s + n <= length m)%nat -> (d + n <= length m)%nat ->
  memmove d s n m = Ok (splice d (slice s n m) m).
Proof.
  intros Hb Hs Hd. unfold memmove.
  destruct (Nat.ltb_spec s d) as [H1|H1], (Nat.ltb_spec d (s + n)) as [H2|H2]; simpl;
    first [apply copy_down_spec; lia || done | apply copy_up_spec; lia || done].
Qed.

Lemma stosb_spec n d c m :
  (d + n <= length m)%nat -> stosb n d c m = Ok (splice d (replicate n (u8 c)) m).
Proof.
  revert d m. induction n as [|n IH]; intros d m Hd; simpl.
  - unfold splice. simpl. by rewrite Nat.add_0_r, take_drop.
  - rewrite wr_ok by lia. simpl. rewrite IH by len. f_equal.
    symmetry. apply splice_cons. rewrite length_replicate. lia.
Qed.

(** The word [memset] stores is four times the byte. *)
Lemma memset_word c :
  le_enc 4 (Z.lor (Z.lor (Z.lor (Z.shiftl (Z.land c 0xFF) 24) (Z.shiftl (Z.land c 0xFF) 16))
                     (Z.shiftl (Z.land c 0xFF) 8)) (Z.land c 0xFF)) = replicate 4 (u8 c).
Proof.
  change (Z.land c 0xFF) with (Z.land c (Z.ones 8)). rewrite Z.land_ones by lia.
  fold (u8 c). pose proof (u8_range c) as Hc. generalize dependent (u8 c). clear c. intros c Hc.
  assert (forallb (fun c => bool_decide (le_enc 4 (Z.lor (Z.lor (Z.lor (Z.shiftl c 24) (Z.shiftl c 16))
    (Z.shiftl c 8)) c) = replicate 4 c)) (seqZ 0 256) = true) as Hall by (by vm_compute).
  rewrite forallb_forall in Hall. eapply bool_decide_eq_true, Hall. apply list_elem_of_In, elem_of_seqZ. lia.
Qed.

Lemma stosl_spec n d c m :
  (d + 4 * n <= length m)%nat ->
  stosl n d c m = Ok (splice d (concat (replicate n (le_enc 4 c))) m).
Proof.
  revert d m. induction n as [|n IH]; intros d m Hd; cbn [stosl replicate concat].
  - unfold splice. simpl. by rewrite Nat.add_0_r, take_drop.
  - rewrite decide_True by lia. rewrite IH by (rewrite length_put_u32; lia). f_equal.
    assert (length (concat (replicate n (le_enc 4 c))) = 4 * n)%nat as Hl.
    { clear. induction n as [|n IH]; [done|]. cbn [replicate concat]. rewrite length_app, IH, length_le_enc. lia. }
    rewrite splice_app by (rewrite Hl, length_le_enc; lia). by rewrite length_le_enc.
Qed.

Lemma concat_replicate {A} k n (x : A) : concat (replicate n (replicate k x)) = replicate (k * n) x.
Proof.
  induction n as [|n IH]; [by rewrite Nat.mul_0_r|]. cbn [replicate concat].
  rewrite IH, <- replicate_add. f_equal. lia.
Qed.

Lemma memset_spec base d c n m :
  (d + n <= length m)%nat -> memset base d c n m = Ok (splice d (replicate n (u8 c)) m).
Proof.
  intros Hd. unfold memset. destruct (_ && _) eqn:Hal; [|by apply stosb_spec].
  apply andb_true_iff in Hal as [_ Hn%Z.eqb_eq].
  assert (n = 4 * (n / 4))%nat as Hn4
    by (apply Nat2Z.inj; rewrite Nat2Z.inj_mul, Nat2Z.inj_div; lia).
  rewrite stosl_spec by lia. f_equal. f_equal. rewrite memset_word.
  rewrite Hn4 at 2. apply concat_replicate.
Qed.

(** Strings *)

Lemma strlen_spec s : terminated s -> strlen s = Ok (Z.of_nat (length (cstr s))).
Proof.
  unfold terminated. induction s as [|b s IH]; [by intros ?%elem_of_nil|].
  simpl. destruct (Z.eqb_spec b 0) as [->|Hb]; [done|].
  intros [?|Hin]%elem_of_cons; [congruence|]. rewrite IH by done. simpl. f_equal. lia.
Qed.

(** Two names are equal for [strncmp] when their first [n] bytes, cut at the
    first NUL, are. *)
Lemma strncmp_spec p q n :
  (terminated p \/ n <= length p)%nat -> (terminated q \/ n <= length q)%nat ->
  exists r, strncmp p q n = Ok r /\ (r = 0 <-> take n (cstr p) = take n (cstr q)).
Proof.
  unfold terminated. revert p q. induction n as [|n IH]; intros p q Hp Hq.
  { exists 0. by rewrite !take_0. }
  destruct p as [|a p].
  { exfalso. destruct Hp as [?%elem_of_nil|]; [done|]. simpl in *; lia. }
  destruct q as [|b q].
  { exfalso. destruct Hq as [?%elem_of_nil|]; [done|]. simpl in *; lia. }
  cbn [strncmp cstr]. destruct (Z.eqb_spec a 0) as [->|Ha]; cbn [negb andb].
  - exists (0 - b). split; [done|]. destruct (Z.eqb_spec b 0) as [->|Hb]; [done|]. simpl.
    split; [lia|done].
  - destruct (Z.eqb_spec a b) as [->|Hab].
    + rewrite (proj2 (Z.eqb_neq b 0)) by done.
      destruct (IH p q) as (r & Hr & Hiff).
      * destruct Hp as [[?|?]%elem_of_cons|?]; [congruence|by left|right; simpl in *; lia].
      * destruct Hq as [[?|?]%elem_of_cons|?]; [congruence|by left|right; simpl in *; lia].
      * exists r. split; [done|]. cbn [take]. rewrite Hiff. split; [by intros ->|by intros [=]].
    + exists (a - b). split; [done|]. split; [lia|].
      destruct (Z.eqb_spec b 0) as [->|Hb]; cbn [take]; [done|]. intros [=]; congruence.
Qed.

(** A name padded with NULs to [n] bytes. *)
Definition pad (n : nat) (s : list Z) : list Z := take n (s ++ replicate n 0).

Lemma length_pad n s : length (pad n s) = n.
Proof. unfold pad. rewrite length_take, length_app, length_replicate. lia. Qed.

Lemma strncpy_at_spec d t n m :
  Forall is_byte t -> (terminated t \/ n <= length t)%nat -> (d + n <= length m)%nat ->
  strncpy_at d t n m = Ok (splice d (pad n (cstr t)) m).
Proof.
  unfold terminated. revert d t m. induction n as [|n IH]; intros d t m Hb Ht Hd.
  { unfold splice, pad. simpl. by rewrite Nat.add_0_r, take_drop. }
  destruct t as [|b t].
  { exfalso. destruct Ht as [?%elem_of_nil|]; [done|]. simpl in *; lia. }
  apply Forall_cons in Hb as [Hb0 Hb]. cbn [strncpy_at cstr].
  rewrite wr_ok by lia. cbn [obind]. rewrite (u8_byte b) by done.
  destruct (Z.eqb_spec b 0) as [->|Hne]; cbn [negb].
  - unfold zero_fill. rewrite stosb_spec by len. f_equal. unfold pad. simpl.
    rewrite take_ge by (rewrite length_replicate; lia).
    symmetry. apply splice_cons. rewrite length_replicate. lia.
  - rewrite IH; [f_equal|done| |len].
    + assert (pad (S n) (b :: cstr t) = b :: pad n (cstr t)) as ->.
      { unfold pad. cbn [app take]. f_equal. rewrite !take_app, !take_replicate. do 2 f_equal. lia. }
      symmetry. apply splice_cons. rewrite length_pad. lia.
    + destruct Ht as [[?|?]%elem_of_cons|?]; [congruence|by left|right; simpl in *; lia].
Qed.
