(* ===== verification/State.v ===== *)
(** * The kernel's memory

    The structures the file-system code keeps in memory: the inode cache
    ([inode.h], [sfs_inode.h], [fat_inode.h]), the file table ([file.h]), the
    pipes ([pipe.c]), the console's input ring ([console.c]) and the running
    process ([proc.h]).  A pointer to an entry of a table is its index.

    [struct inode] is a union of [struct sfs_inode] and [struct fat_inode],
    whose fields have the same types in the same order up to [size]; the word
    after it is [addrs[0]] in one and [dircluster] in the other. *)

From stdpp Require Import base gmap strings numbers list.
From S2P Require Import Prelude Prog Log.

Definition NINODE : nat := 50.
Definition NFILE : nat := 100.
Definition NOFILE : nat := 16.
Definition NDEV : Z := 10.
Definition PIPESIZE : Z := 512.
Definition INPUT_BUF : Z := 128.

Definition I_BUSY : Z := 1.
Definition I_VALID : Z := 2.
Definition SFS_INODE : Z := 1.
Definition FAT_INODE : Z := 2.

(** The operation tables an inode's [in_ops] can point to. *)
Inductive inode_ops := sfs_node_dirops | sfs_node_fileops | fat_node_dirops | fat_node_fileops.

Record inode := mkinode {
  i_dev : Z; i_inum : Z; i_ref : Z; i_flags : Z;
  i_type : Z; i_major : Z; i_minor : Z; i_nlink : Z;
  i_size : Z; i_addrs : list Z;
  i_fstype : Z; i_ops : option inode_ops;
}.

(** Static storage is zero. *)
Definition inode0 : inode := mkinode 0 0 0 0 0 0 0 0 0 (replicate 13 0) 0 None.

Definition set_i_ref (v : Z) (i : inode) : inode :=
  mkinode (i_dev i) (i_inum i) (s32 v) (i_flags i) (i_type i) (i_major i) (i_minor i) (i_nlink i)
    (i_size i) (i_addrs i) (i_fstype i) (i_ops i).
Definition set_i_flags (v : Z) (i : inode) : inode :=
  mkinode (i_dev i) (i_inum i) (i_ref i) v (i_type i) (i_major i) (i_minor i) (i_nlink i)
    (i_size i) (i_addrs i) (i_fstype i) (i_ops i).
Definition set_i_type (v : Z) (i : inode) : inode :=
  mkinode (i_dev i) (i_inum i) (i_ref i) (i_flags i) (s16 v) (i_major i) (i_minor i) (i_nlink i)
    (i_size i) (i_addrs i) (i_fstype i) (i_ops i).
Definition set_i_majmin (maj min : Z) (i : inode) : inode :=
  mkinode (i_dev i) (i_inum i) (i_ref i) (i_flags i) (i_type i) (s16 maj) (s16 min) (i_nlink i)
    (i_size i) (i_addrs i) (i_fstype i) (i_ops i).
Definition set_i_nlink (v : Z) (i : inode) : inode :=
  mkinode (i_dev i) (i_inum i) (i_ref i) (i_flags i) (i_type i) (i_major i) (i_minor i) (s16 v)
    (i_size i) (i_addrs i) (i_fstype i) (i_ops i).
Definition set_i_size (v : Z) (i : inode) : inode :=
  mkinode (i_dev i) (i_inum i) (i_ref i) (i_flags i) (i_type i) (i_major i) (i_minor i) (i_nlink i)
    (u32 v) (i_addrs i) (i_fstype i) (i_ops i).
Definition set_i_addrs (a : list Z) (i : inode) : inode :=
  mkinode (i_dev i) (i_inum i) (i_ref i) (i_flags i) (i_type i) (i_major i) (i_minor i) (i_nlink i)
    (i_size i) a (i_fstype i) (i_ops i).
(** [sip->dev = dev; sip->inum = inum; sip->ref = 1; sip->flags = 0] *)
Definition claim_inode (dev inum : Z) (i : inode) : inode :=
  mkinode dev inum 1 0 (i_type i) (i_major i) (i_minor i) (i_nlink i)
    (i_size i) (i_addrs i) (i_fstype i) (i_ops i).
(** [inode_init] *)
Definition inode_init (ops : inode_ops) (fstype : Z) (i : inode) : inode :=
  mkinode (i_dev i) (i_inum i) (i_ref i) (i_flags i) (i_type i) (i_major i) (i_minor i) (i_nlink i)
    (i_size i) (i_addrs i) fstype (Some ops).

Definition dircluster (i : inode) : Z := nth 0 (i_addrs i) 0.
Definition set_dircluster (v : Z) (i : inode) : inode := set_i_addrs (<[0%nat := v]> (i_addrs i)) i.

Definition i_has (i : inode) (m : Z) : bool := negb (Z.land (i_flags i) m =? 0).

(** [struct file] *)
Inductive file_type := FD_NONE | FD_PIPE | FD_INODE.

Record file := mkfile {
  f_type : file_type; f_ref : Z; f_readable : bool; f_writable : bool;
  f_pipe : nat; f_ip : nat; f_off : Z;
}.
Definition file0 : file := mkfile FD_NONE 0 false false 0 0 0.

(** [struct pipe]; the page it lives in is named by its index. *)
Record pipe := mkpipe {
  pi_data : list Z; pi_nread : Z; pi_nwrite : Z; pi_readopen : bool; pi_writeopen : bool;
}.

(** The console: [input] of [console.c], and what [consputc] has shown. *)
Record console := mkconsole { in_buf : list Z; in_r : Z; in_w : Z; in_e : Z; con_out : list Z }.
Definition console0 : console := mkconsole (replicate 128 0) 0 0 0 [].

(** The running process: what the file-system code uses of [struct proc], its
    user memory (bytes [0 .. sz-1]) and the user stack pointer. *)
Record uproc := mkuproc {
  p_cwd : nat; p_ofile : list (option nat); p_killed : bool; p_mem : list Z; p_esp : Z;
}.

Record kmem := mkkmem {
  km_icache : list inode;
  km_ftable : list file;
  km_pipes : gmap nat pipe;      (* pages in use as pipes *)
  km_pages : list nat;           (* free pages, the order [kalloc] hands them out *)
  km_cons : console;
  km_proc : uproc;
}.

Definition with_icache (l : list inode) (k : kmem) : kmem :=
  mkkmem l (km_ftable k) (km_pipes k) (km_pages k) (km_cons k) (km_proc k).
Definition with_ftable (l : list file) (k : kmem) : kmem :=
  mkkmem (km_icache k) l (km_pipes k) (km_pages k) (km_cons k) (km_proc k).
Definition with_pipes (p : gmap nat pipe) (k : kmem) : kmem :=
  mkkmem (km_icache k) (km_ftable k) p (km_pages k) (km_cons k) (km_proc k).
Definition with_pages (p : list nat) (k : kmem) : kmem :=
  mkkmem (km_icache k) (km_ftable k) (km_pipes k) p (km_cons k) (km_proc k).
Definition with_cons (c : console) (k : kmem) : kmem :=
  mkkmem (km_icache k) (km_ftable k) (km_pipes k) (km_pages k) c (km_proc k).
Definition with_proc (p : uproc) (k : kmem) : kmem :=
  mkkmem (km_icache k) (km_ftable k) (km_pipes k) (km_pages k) (km_cons k) p.

Abbreviation fsprog := (prog fsE kmem).

(** An entry of the inode cache, and an update of it. *)
Definition get_inode (ip : nat) : fsprog inode :=
  k <- get;;
  match km_icache k !! ip with
  | Some i => Ret i
  | None => undef "not an inode"
  end.
Definition upd_inode (ip : nat) (f : inode -> inode) : fsprog unit :=
  modify (fun k => with_icache (alter f ip (km_icache k)) k).

Definition get_file (f : nat) : fsprog file :=
  k <- get;;
  match km_ftable k !! f with
  | Some x => Ret x
  | None => undef "not a file"
  end.
Definition upd_file (f : nat) (g : file -> file) : fsprog unit :=
  modify (fun k => with_ftable (alter g f (km_ftable k)) k).

(** Operations of the log. *)
Definition log_write_ (b : bufkey) : fsprog unit := Vis (FLogWrite b) Ret.
Definition begin_trans_ : fsprog unit := Vis FBegin Ret.
Definition commit_trans_ : fsprog unit := Vis FCommit Ret.

(** A pure computation that may fail. *)
Definition lift {E K A} (o : outcome A) : prog E K A :=
  match o with
  | Ok a => Ret a
  | Fail e => Stop e
  end.

(** [devsw[]]: the entry of a major number, if it is set.  A device's [read]
    returns its result and the bytes it stored at [dst]. *)
Class DevSw := {
  dev_read : Z -> option (nat -> Z -> fsprog (Z * list Z));
  dev_write : Z -> option (nat -> list Z -> Z -> fsprog Z);
}.
