(* ===== verification/FsLogic.v ===== *)
(** * Reasoning about file-system code on the logged block store

    Equations for each block operation on [lstore], in the form proofs use
    them: [hold b d l] is the state [l] with buffer [b] locked and containing
    [d], [lput b d l] the state after block [b] has been logged with content
    [d].  [ready S n l] says the current transaction can still take the blocks
    in [S] and [n] more. *)

From stdpp Require Import base gmap strings numbers list.
From S2P Require Import Prelude Prog Bio AStore Layout Log LStore State.

Definition lget (l : lstore) (b : bufkey) : block := disk_get (ls_view l) b.

Definition lput (b : bufkey) (d : block) (l : lstore) : lstore :=
  mklstore (ls_geom l) (<[b := d]> (ls_view l)) (ls_durable l) (ls_held l)
    ({[b.2]} ∪ ls_logged l) (ls_trans l).

Definition hold (b : bufkey) (d : block) (l : lstore) : lstore := upd_held (<[b := d]> (ls_held l)) l.

(** Blocks file-system code may touch: addressable and outside the log. *)
Definition blk_ok (l : lstore) (b : bufkey) : Prop :=
  dev_ok b.1 b.2 = true /\ in_log (ls_geom l) b = false.

(** There is a buffer for a read. *)
Definition calm (l : lstore) : Prop := (size (ls_logged l) + size (ls_held l) <= 9)%nat.

(** At most [txmax] blocks in a transaction leave buffers for the two blocks
    file-system code ever holds. *)
Definition txmax : nat := 7.

Record ready (S : gset Z) (n : nat) (l : lstore) : Prop := {
  rd_trans : ls_trans l = true;
  rd_room : (size (ls_logged l ∪ S) + n <= txmax)%nat;
  rd_log : Z.of_nat (size (ls_logged l ∪ S) + n) < g_size (ls_geom l) - 1;
  rd_held : (size (ls_held l) <= 1)%nat;
}.

(** ** Lists *)

Lemma filter_ext_in {A} (P Q : A -> Prop) `{forall x, Decision (P x), forall x, Decision (Q x)} (l : list A) :
  (forall x, x ∈ l -> (P x <-> Q x)) -> filter P l = filter Q l.
Proof.
  induction l as [|x l IH]; intros Hx; [done|]. rewrite !filter_cons.
  rewrite IH by (intros; apply Hx; by right). specialize (Hx x ltac:(by left)).
  destruct (decide (P x)), (decide (Q x)); tauto.
Qed.

Lemma filter_none {A} (P : A -> Prop) `{forall x, Decision (P x)} (l : list A) :
  Forall (fun x => ~ P x) l -> filter P l = [].
Proof. induction 1 as [|x l Hx _ IH]; [done|]. by rewrite filter_cons_False. Qed.

Lemma size_union_le (X Y : gset Z) : (size (X ∪ Y) <= size X + size Y)%nat.
Proof. rewrite size_union_alt. pose proof (subseteq_size (Y ∖ X) Y ltac:(set_solver)). lia. Qed.

(** ** Algebra of the states *)

Lemma lstore_eta l :
  mklstore (ls_geom l) (ls_view l) (ls_durable l) (ls_held l) (ls_logged l) (ls_trans l) = l.
Proof. by destruct l. Qed.

Lemma lget_put b d l : lget (lput b d l) b = d.
Proof. unfold lget, disk_get. simpl. by rewrite lookup_insert_eq. Qed.

Lemma lget_put_ne b b' d l : b <> b' -> lget (lput b d l) b' = lget l b'.
Proof. intros. unfold lget, disk_get. simpl. by rewrite lookup_insert_ne. Qed.

Lemma lget_hold b b' d l : lget (hold b d l) b' = lget l b'.
Proof. done. Qed.

Lemma held_lput b d l : ls_held (lput b d l) = ls_held l.
Proof. done. Qed.

Lemma hold_comm b b' d d' l : b <> b' -> hold b d (hold b' d' l) = hold b' d' (hold b d l).
Proof. intros. unfold hold, upd_held. simpl. f_equal. by rewrite insert_insert_ne. Qed.

Lemma hold_lput b b' d d' l : lput b d (hold b' d' l) = hold b' d' (lput b d l).
Proof. done. Qed.

Lemma hold_delete b d l :
  ls_held l !! b = None -> upd_held (delete b (ls_held (hold b d l))) (hold b d l) = l.
Proof.
  intros H. unfold hold, upd_held. simpl. rewrite delete_insert_id by done. apply lstore_eta.
Qed.

Lemma blk_ok_hold b b' d l : blk_ok l b -> blk_ok (hold b' d l) b.
Proof. done. Qed.
Lemma blk_ok_lput b b' d l : blk_ok l b -> blk_ok (lput b' d l) b.
Proof. done. Qed.

Lemma held_hold b d l : ls_held l = ∅ -> ls_held (hold b d l) = {[b := d]}.
Proof. intros H. simpl. by rewrite H. Qed.

Lemma ready_calm S n l : ready S n l -> calm l.
Proof.
  intros [_ Hr _ Hh]. unfold calm, txmax in *.
  assert (size (ls_logged l) <= size (ls_logged l ∪ S))%nat by (apply subseteq_size; set_solver). lia.
Qed.

Lemma ready_weaken S n m l : (m <= n)%nat -> ready S n l -> ready S m l.
Proof. intros Hm [? ? ? ?]. split; auto; lia. Qed.

Lemma ready_hold S n l b d : ready S n l -> ls_held l = ∅ -> ready S n (hold b d l).
Proof.
  intros [? ? ? ?] H. split; auto. simpl. rewrite H.
  rewrite map_size_insert, lookup_empty, map_size_empty. lia.
Qed.

(** A block that was paid for. *)
Lemma ready_lput_in S n l b d : b.2 ∈ ls_logged l ∪ S -> ready S n l -> ready S n (lput b d l).
Proof.
  intros Hb [Ht Hr Hl Hh]. assert ({[b.2]} ∪ ls_logged l ∪ S = ls_logged l ∪ S) as E by set_solver.
  split; cbn [lput ls_trans ls_logged ls_geom ls_held]; rewrite ?E; auto.
Qed.

(** A block that was not. *)
Lemma ready_lput S n l b d : ready S (Datatypes.S n) l -> ready S n (lput b d l).
Proof.
  intros [Ht Hr Hl Hh].
  assert (size ({[b.2]} ∪ ls_logged l ∪ S) <= Datatypes.S (size (ls_logged l ∪ S)))%nat as E.
  { rewrite <- (assoc_L (∪)). rewrite size_union_alt, size_singleton.
    pose proof (subseteq_size ((ls_logged l ∪ S) ∖ {[b.2]}) (ls_logged l ∪ S) ltac:(set_solver)). lia. }
  split; cbn [lput ls_trans ls_logged ls_geom ls_held]; auto; lia.
Qed.

Lemma pinset_size l : (size (pinset l) <= size (ls_held l) + size (ls_logged l))%nat.
Proof.
  unfold pinset. rewrite size_union_alt, size_dom.
  pose proof (subseteq_size (set_map (C:=gset Z) (D:=gset bufkey) (fun s => (g_dev (ls_geom l), s)) (ls_logged l)
     ∖ dom (ls_held l)) (set_map (fun s => (g_dev (ls_geom l), s)) (ls_logged l)) ltac:(set_solver)).
  assert (size (set_map (D:=gset bufkey) (fun s => (g_dev (ls_geom l), s)) (ls_logged l)) <= size (ls_logged l))%nat
    by (unfold set_map; rewrite size_list_to_set;
        [by rewrite length_fmap|apply NoDup_fmap_2; [intros ?? [=]; done|apply NoDup_elements]]).
  lia.
Qed.

(** ** The operations *)

Lemma dev_ok_u32 dev s : dev_ok dev s = true -> u32 dev = dev /\ u32 s = s.
Proof. unfold dev_ok. intros. rewrite !u32_small; lia. Qed.

Section Ops.
Context {K : Type}.
Implicit Types (k : K) (l : lstore).

Lemma run_bread dev s k l :
  blk_ok l (dev, s) -> calm l -> ls_held l !! (dev, s) = None ->
  run (bread dev s) k l = Ok ((dev, s), k, hold (dev, s) (lget l (dev, s)) l).
Proof.
  intros [Hd Hg] Hc Hh. simpl in Hd. destruct (dev_ok_u32 _ _ Hd) as [Hu1 Hu2].
  assert (ls_bread dev s l = Ok ((dev, s), hold (dev, s) (lget l (dev, s)) l)) as E.
  { unfold ls_bread. rewrite Hg, Hd, Hh. pose proof (pinset_size l). unfold calm in Hc.
    rewrite (proj2 (Nat.leb_gt _ _)) by (unfold NBUF; lia). by rewrite andb_false_r. }
  unfold bread. rewrite Hu1, Hu2. simpl. by rewrite E.
Qed.

(** The buffer is locked already: the process sleeps on itself. *)
Lemma run_bread_held dev s k l d :
  blk_ok l (dev, s) -> ls_held l !! (dev, s) = Some d -> run (bread dev s) k l = Fail Blocked.
Proof.
  intros [Hd Hg] Hh. unfold bread. simpl in Hd. destruct (dev_ok_u32 _ _ Hd) as [-> ->]. simpl.
  unfold ls_bread. by rewrite Hg, Hd, Hh.
Qed.

Lemma run_bdata b d k l : run (bdata b) k (hold b d l) = Ok (d, k, hold b d l).
Proof. simpl. unfold ls_with. simpl. by rewrite lookup_insert_eq. Qed.

Lemma run_bstore b d d' k l :
  length d' = 512%nat -> run (bstore b d') k (hold b d l) = Ok (tt, k, hold b d' l).
Proof.
  intros H. simpl. unfold ls_with. simpl. rewrite lookup_insert_eq, decide_True by done.
  unfold hold, upd_held. simpl. by rewrite insert_insert_eq.
Qed.

Lemma run_bmodify b d f k l :
  length (f d) = 512%nat -> run (bmodify b f) k (hold b d l) = Ok (tt, k, hold b (f d) l).
Proof. intros H. unfold bmodify. rewrite (run_bind_Ok _ _ _ _ _ _ _ (run_bdata _ _ _ _)). by apply run_bstore. Qed.

Lemma run_brelse b d k l :
  d = lget l b -> ls_held l !! b = None -> run (brelse b) k (hold b d l) = Ok (tt, k, l).
Proof.
  intros -> Hh. simpl. unfold ls_with. simpl. rewrite lookup_insert_eq. unfold ls_brelse.
  rewrite decide_True by done. by rewrite hold_delete.
Qed.
End Ops.

(** Logging needs an open transaction with room. *)
Lemma run_log_write {n} S b d k l :
  ready S n l -> b.1 = g_dev (ls_geom l) ->
  run (log_write_ b) k (hold b d l) = Ok (tt, k, hold b d (lput b d l)).
Proof.
  intros [Ht Hr Hl Hh] Hd. unfold txmax in Hr.
  assert (size (ls_logged l) <= size (ls_logged l ∪ S))%nat by (apply subseteq_size; set_solver).
  assert (ls_logwrite b (hold b d l) = Ok (hold b d (lput b d l))) as E.
  { unfold ls_logwrite, ls_with. pose proof (pinset_size (hold b d l)) as Hp.
    cbn [hold upd_held ls_logged ls_geom ls_trans ls_held] in *.
    rewrite lookup_insert_eq, Ht, Hd, Z.eqb_refl. unfold LOGSIZE.
    rewrite !(proj2 (Z.leb_gt _ _)) by lia. rewrite map_size_insert in Hp.
    rewrite (proj2 (Nat.leb_gt _ _)); [idtac|]. { simpl. rewrite <- Ht. reflexivity. } unfold NBUF, hold, id in *. destruct (ls_held l !! b); lia. }
  unfold log_write_. simpl. by rewrite E.
Qed.

(** [run_step lem] performs the next operation of a sequence with [lem]; side
    conditions it cannot discharge follow the main goal. *)
Ltac run_side := first [done | eassumption | by eapply ready_calm; eassumption | idtac].
Tactic Notation "run_step" uconstr(lem) := erewrite run_bind_Ok; [|eapply lem; run_side].

Lemma run_readsb dev (k : kmem) l :
  blk_ok l (dev, 1) -> calm l -> ls_held l !! (dev, 1) = None ->
  run (readsb dev) k l = Ok (get_super (lget l (dev, 1)), k, l).
Proof.
  intros. unfold readsb. run_step run_bread. run_step run_bdata. by run_step run_brelse.
Qed.

(** ** The inode cache *)

Definition set_inode (ip : nat) (i : inode) (k : kmem) : kmem :=
  with_icache (<[ip := i]> (km_icache k)) k.

Definition cached (k : kmem) (ip : nat) (i : inode) : Prop := km_icache k !! ip = Some i.

Lemma run_get_inode ip i k (l : lstore) : cached k ip i -> run (get_inode ip) k l = Ok (i, k, l).
Proof. intros H. unfold cached in H. simpl. by rewrite H. Qed.

Lemma alter_insert {A} (f : A -> A) (l : list A) n x : l !! n = Some x -> alter f n l = <[n := f x]> l.
Proof.
  intros H. apply list_eq. intros j. destruct (decide (n = j)) as [<-|].
  - rewrite list_lookup_alter_eq, H, list_lookup_insert_eq by (by eapply lookup_lt_Some). done.
  - by rewrite list_lookup_alter_ne, list_lookup_insert_ne.
Qed.

Lemma run_upd_inode ip f i k (l : lstore) :
  cached k ip i -> run (upd_inode ip f) k l = Ok (tt, set_inode ip (f i) k, l).
Proof. intros H. simpl. unfold set_inode. by rewrite (alter_insert _ _ _ _ H). Qed.

Lemma cached_set ip i i0 k : cached k ip i0 -> cached (set_inode ip i k) ip i.
Proof. intros H. unfold cached, set_inode. simpl. apply list_lookup_insert_eq. by eapply lookup_lt_Some. Qed.

Lemma set_set ip i i' k : set_inode ip i (set_inode ip i' k) = set_inode ip i k.
Proof. unfold set_inode. simpl. by rewrite list_insert_insert_eq. Qed.

Lemma set_self ip i k : cached k ip i -> set_inode ip i k = k.
Proof. intros H. unfold set_inode. rewrite list_insert_id by done. by destruct k. Qed.

#[export] Hint Resolve cached_set : xv6.
