(* ===== verification/SfsBlock.v ===== *)
(** * Block allocation of the simple file system: [sfs_inode.c], 41-110 *)

From stdpp Require Import base gmap strings numbers list.
From S2P Require Import Prelude Prog Bio Layout Log LStore State FsLogic.

Definition SFS_BSIZE : Z := 512.

(** Zero a block. *)
Definition bzero (dev bno : Z) : fsprog unit :=
  bp <- bread dev bno;;
  bstore bp zblock;;;
  log_write_ bp;;;
  brelse bp.

(** The bit of block [bi] in a bitmap block: [data[bi/8] & (1 << (bi % 8))]. *)
Definition bit_mask (bi : Z) : Z := Z.shiftl 1 (bi mod 8).
Definition bit_set (d : block) (bi : Z) : bool := negb (Z.land (byte_at d (bi / 8)) (bit_mask bi) =? 0).
Definition mark_bit (bi : Z) (d : block) : block :=
  set_byte d (bi / 8) (Z.lor (byte_at d (bi / 8)) (bit_mask bi)).
Definition clear_bit (bi : Z) (d : block) : block :=
  set_byte d (bi / 8) (Z.land (byte_at d (bi / 8)) (Z.lnot (bit_mask bi))).

(** [for(; bi < SFSBPB && b + bi < sb.size; bi++) if(bit clear) ...]: the
    first clear bit, [n] bits being left to look at. *)
Fixpoint balloc_scan (n : nat) (size b bi : Z) (d : block) : option Z :=
  match n with
  | O => None
  | S n =>
      if negb (u32 (b + bi) <? size) then None
      else if bit_set d bi then balloc_scan n size b (bi + 1) d
      else Some bi
  end.

(** Allocate a zeroed disk block. *)
Definition balloc (dev : Z) : fsprog Z :=
  sb <- readsb dev;;
  while_fuel (Z.to_nat (sb_size sb / SFSBPB) + 2) (fun b =>
    if negb (u32 b <? sb_size sb) then panic "balloc: out of blocks"
    else
      bp <- bread dev (BBLOCK b (sb_ninodes sb));;
      d <- bdata bp;;
      match balloc_scan (Z.to_nat SFSBPB) (sb_size sb) b 0 d with
      | Some bi =>
          bstore bp (mark_bit bi d);;;      (* Mark block in use. *)
          log_write_ bp;;;
          brelse bp;;;
          bzero dev (b + bi);;;
          Ret (inr (u32 (b + bi)))
      | None =>
          brelse bp;;;
          Ret (inl (s32 (b + SFSBPB)))
      end) 0.

(** Free a disk block. *)
Definition bfree (dev b : Z) : fsprog unit :=
  sb <- readsb dev;;
  bp <- bread dev (BBLOCK b (sb_ninodes sb));;
  d <- bdata bp;;
  let bi := b mod SFSBPB in
  if negb (bit_set d bi) then panic "freeing free block"
  else
    bstore bp (clear_bit bi d);;;
    log_write_ bp;;;
    brelse bp.

(** ** Bits *)

Lemma bit_set_testbit d bi : 0 <= bi -> bit_set d bi = Z.testbit (byte_at d (bi / 8)) (bi mod 8).
Proof.
  intros H. unfold bit_set, bit_mask. set (x := byte_at d (bi / 8)). set (i := bi mod 8).
  assert (0 <= i) as Hi by (unfold i; lia). rewrite Z.shiftl_1_l.
  destruct (Z.testbit x i) eqn:E.
  - apply negb_true_iff, Z.eqb_neq. intros Hz.
    assert (Z.testbit (Z.land x (2 ^ i)) i = false) as H1 by (by rewrite Hz, Z.bits_0).
    rewrite Z.land_spec, E, Z.pow2_bits_true in H1; done.
  - apply negb_false_iff, Z.eqb_eq. apply Z.bits_inj'. intros j Hj.
    rewrite Z.land_spec, Z.bits_0, Z.pow2_bits_eqb by done.
    destruct (i =? j) eqn:Ej; [|by rewrite andb_false_r]. apply Z.eqb_eq in Ej. by rewrite <- Ej, E.
Qed.

Lemma testbit_u8 x i : 0 <= i < 8 -> Z.testbit (u8 x) i = Z.testbit x i.
Proof. intros. unfold u8. by rewrite Z.mod_pow2_bits_low by lia. Qed.

Lemma byte_at_set d i j v :
  0 <= i < Z.of_nat (length d) -> 0 <= j ->
  byte_at (set_byte d i v) j = if i =? j then u8 v else byte_at d j.
Proof.
  intros Hi Hj. unfold byte_at, set_byte. rewrite !nth_lookup.
  destruct (i =? j) eqn:E.
  - apply Z.eqb_eq in E as <-. by rewrite list_lookup_insert_eq by lia.
  - apply Z.eqb_neq in E. by rewrite list_lookup_insert_ne by lia.
Qed.

Lemma length_mark_bit bi d : length (mark_bit bi d) = length d.
Proof. apply length_insert. Qed.
Lemma length_clear_bit bi d : length (clear_bit bi d) = length d.
Proof. apply length_insert. Qed.

Lemma bit_set_mark d bi bj :
  length d = 512%nat -> 0 <= bi < SFSBPB -> 0 <= bj ->
  bit_set (mark_bit bi d) bj = (bi =? bj) || bit_set d bj.
Proof.
  intros Hd Hi Hj. unfold SFSBPB in Hi. rewrite !bit_set_testbit by done. unfold mark_bit.
  rewrite byte_at_set by (rewrite ?Hd; lia). unfold bit_mask. rewrite Z.shiftl_1_l.
  destruct (bi / 8 =? bj / 8) eqn:E.
  - apply Z.eqb_eq in E. rewrite testbit_u8, Z.lor_spec, Z.pow2_bits_eqb, <- E by lia.
    rewrite orb_comm. f_equal.
    destruct (bi =? bj) eqn:E1; [apply Z.eqb_eq in E1 as <-; apply Z.eqb_refl|].
    apply Z.eqb_neq in E1. apply Z.eqb_neq. lia.
  - apply Z.eqb_neq in E. destruct (bi =? bj) eqn:E1; [apply Z.eqb_eq in E1; subst; done|done].
Qed.

Lemma bit_set_clear d bi bj :
  length d = 512%nat -> 0 <= bi < SFSBPB -> 0 <= bj ->
  bit_set (clear_bit bi d) bj = negb (bi =? bj) && bit_set d bj.
Proof.
  intros Hd Hi Hj. unfold SFSBPB in Hi. rewrite !bit_set_testbit by done. unfold clear_bit.
  rewrite byte_at_set by (rewrite ?Hd; lia). unfold bit_mask. rewrite Z.shiftl_1_l.
  destruct (bi / 8 =? bj / 8) eqn:E.
  - apply Z.eqb_eq in E. rewrite testbit_u8, Z.land_spec, Z.lnot_spec, Z.pow2_bits_eqb, <- E by lia.
    rewrite andb_comm. f_equal. f_equal.
    destruct (bi =? bj) eqn:E1; [apply Z.eqb_eq in E1 as <-; apply Z.eqb_refl|].
    apply Z.eqb_neq in E1. apply Z.eqb_neq. lia.
  - apply Z.eqb_neq in E. destruct (bi =? bj) eqn:E1; [apply Z.eqb_eq in E1; subst; done|done].
Qed.

(** ** Searching *)

Lemma balloc_scan_Some n size b bi d r :
  0 <= b -> 0 <= bi -> size <= 2 ^ 28 -> bi <= r < bi + Z.of_nat n -> b + r < size ->
  bit_set d r = false -> (forall j, bi <= j < r -> bit_set d j = true) ->
  balloc_scan n size b bi d = Some r.
Proof.
  intros Hb Hbi Hs. revert bi Hbi. induction n as [|n IH]; intros bi Hbi Hr Hbr Hf Hu; [lia|].
  simpl. rewrite u32_small by lia. rewrite (proj2 (Z.ltb_lt _ _)) by lia. simpl.
  destruct (decide (bi = r)) as [->|Hne]; [by rewrite Hf|].
  rewrite Hu by lia. apply IH; try lia; [done|]. intros j Hj. apply Hu. lia.
Qed.

Lemma balloc_scan_None n size b bi d :
  0 <= b -> 0 <= bi -> size <= 2 ^ 28 -> b + bi + Z.of_nat n <= 2 ^ 29 ->
  (forall j, bi <= j < bi + Z.of_nat n -> b + j < size -> bit_set d j = true) ->
  balloc_scan n size b bi d = None.
Proof.
  intros Hb Hbi Hs. revert bi Hbi. induction n as [|n IH]; intros bi Hbi Hbn Hu; [done|].
  simpl. rewrite u32_small by lia. destruct (b + bi <? size) eqn:E; [|done]. simpl.
  rewrite Hu by lia. apply IH; try lia. intros j Hj. apply Hu. lia.
Qed.

(** ** The allocator's contract *)

Definition super_of (dev : Z) (l : lstore) : sfs_super := get_super (lget l (dev, 1)).
Definition bitmap_of (dev b : Z) (l : lstore) : bufkey := (dev, BBLOCK b (sb_ninodes (super_of dev l))).

(** The bitmap's bit of a block. *)
Definition block_used (dev : Z) (l : lstore) (b : Z) : bool :=
  bit_set (lget l (bitmap_of dev b l)) (b mod SFSBPB).

(** The last bitmap block: what lies before it (the boot and super block, the
    inodes, the bitmap) is not for data. *)
Definition meta_end (dev : Z) (l : lstore) : Z :=
  let sb := super_of dev l in BBLOCK (sb_size sb - 1) (sb_ninodes sb).

(** A volume whose super block and bitmap can be read. *)
Record volume_ok (dev : Z) (l : lstore) : Prop := {
  vo_dev : g_dev (ls_geom l) = dev;
  vo_size : 0 <= sb_size (super_of dev l) <= 2 ^ 28;
  vo_log : 0 <= dev < 4 /\ 0 <= g_start (ls_geom l) <= sb_size (super_of dev l);
  vo_super : blk_ok l (dev, 1);
  vo_bitmap : forall b, 0 <= b < sb_size (super_of dev l) ->
    blk_ok l (bitmap_of dev b l) /\ length (lget l (bitmap_of dev b l)) = 512%nat;
  (* only data blocks are free *)
  vo_meta : forall b, 0 <= b < sb_size (super_of dev l) -> block_used dev l b = false -> meta_end dev l < b;
}.

(** No buffer of the super block or the bitmap is locked. *)
Definition alloc_free (dev : Z) (l : lstore) : Prop :=
  ls_held l !! (dev, 1) = None /\
  forall b, 0 <= b < sb_size (super_of dev l) -> ls_held l !! bitmap_of dev b l = None.

Lemma BBLOCK_add b bi ni :
  0 <= bi < SFSBPB -> b mod SFSBPB = 0 -> 0 <= b + bi < 2 ^ 32 -> BBLOCK (b + bi) ni = BBLOCK b ni.
Proof.
  unfold SFSBPB. intros. unfold BBLOCK. rewrite !(u32_small (b + bi)), (u32_small b) by lia.
  f_equal. f_equal. f_equal. unfold SFSBPB. lia.
Qed.

Lemma run_bzero {n} S dev b k l :
  ready S (Datatypes.S n) l -> g_dev (ls_geom l) = dev -> blk_ok l (dev, b) -> ls_held l !! (dev, b) = None ->
  run (bzero dev b) k l = Ok (tt, k, lput (dev, b) zblock l).
Proof.
  intros Hr Hd Hb Hh. unfold bzero. run_step run_bread. run_step run_bstore. run_step run_log_write.
  apply run_brelse; [by rewrite lget_put|done].
Qed.

Section Balloc.
Context (dev : Z) (l : lstore) (k : kmem).
Hypothesis Hv : volume_ok dev l.
Hypothesis Hf : alloc_free dev l.
Hypothesis Hc : calm l.
Let sb := super_of dev l.

(** One bitmap block after another, up to the one of the first free block. *)
Lemma balloc_skip (body := fun b =>
    if negb (u32 b <? sb_size sb) then panic "balloc: out of blocks"
    else
      bp <- bread dev (BBLOCK b (sb_ninodes sb));;
      d <- bdata bp;;
      match balloc_scan (Z.to_nat SFSBPB) (sb_size sb) b 0 d with
      | Some bi =>
          bstore bp (mark_bit bi d);;; log_write_ bp;;; brelse bp;;; bzero dev (b + bi);;;
          Ret (inr (u32 (b + bi)))
      | None => brelse bp;;; Ret (inl (s32 (b + SFSBPB)))
      end : fsprog (Z + Z)) n fuel b0 :
  0 <= b0 -> b0 mod SFSBPB = 0 -> b0 + Z.of_nat n * SFSBPB < sb_size sb + SFSBPB ->
  (forall b, b0 <= b < b0 + Z.of_nat n * SFSBPB -> b < sb_size sb -> block_used dev l b = true) ->
  run (while_fuel (n + fuel) body b0) k l =
  run (while_fuel fuel body (b0 + Z.of_nat n * SFSBPB)) k l.
Proof.
  pose proof (vo_size _ _ Hv) as Hsz. fold sb in Hsz. unfold SFSBPB.
  revert b0. induction n as [|n IH]; intros b0 Hb0 Hm Hn Hu.
  { simpl. by rewrite Z.add_0_r. }
  change (Datatypes.S n + fuel)%nat with (Datatypes.S (n + fuel)). cbn [while_fuel].
  destruct (vo_bitmap _ _ Hv b0) as [Hok Hlen]; [unfold sb in *; lia|].
  assert (run (body b0) k l = Ok (inl (b0 + 4096), k, l)) as E.
  { unfold body. rewrite u32_small by lia. rewrite (proj2 (Z.ltb_lt _ _)) by lia. simpl negb. cbv iota.
    run_step run_bread; [|apply Hf; unfold sb in *; lia]. run_step run_bdata.
    rewrite balloc_scan_None; [|lia|lia|lia|unfold SFSBPB; lia|].
    - run_step run_brelse; [|apply Hf; unfold sb in *; lia]. unfold s32, SFSBPB. simpl. do 3 f_equal. f_equal. lia.
    - intros j Hj Hjs. rewrite Z.add_0_l in Hj. change (Z.of_nat (Z.to_nat SFSBPB)) with 4096 in Hj.
      specialize (Hu (b0 + j) ltac:(lia) Hjs). unfold block_used, bitmap_of in Hu. fold sb in Hu.
      rewrite BBLOCK_add in Hu by (unfold SFSBPB; lia).
      replace ((b0 + j) mod SFSBPB) with j in Hu by (unfold SFSBPB; lia). done. }
  rewrite (run_bind_Ok _ _ _ _ _ _ _ E). cbv iota. rewrite IH; [do 2 f_equal; lia|lia|lia|lia|].
  intros b Hb. apply Hu. lia.
Qed.

Lemma run_balloc_full :
  (forall b, 0 <= b < sb_size sb -> block_used dev l b = true) ->
  run (balloc dev) k l = Fail (Panic "balloc: out of blocks").
Proof.
  intros Hused. pose proof (vo_size _ _ Hv) as Hsz. fold sb in Hsz.
  unfold balloc. run_step run_readsb; [|apply Hv|apply Hf]. fold (super_of dev l). fold sb.
  set (q := Z.to_nat ((sb_size sb + SFSBPB - 1) / SFSBPB)).
  replace (Z.to_nat (sb_size sb / SFSBPB) + 2)%nat
    with (q + Datatypes.S (Z.to_nat (sb_size sb / SFSBPB) + 1 - q))%nat
    by (unfold q, SFSBPB; lia).
  rewrite balloc_skip; [|unfold SFSBPB; lia|done|unfold q, SFSBPB; lia|].
  2: { intros b' Hb' ?. apply Hused. lia. }
  cbn [while_fuel]. rewrite u32_small by (unfold q, SFSBPB; lia).
  rewrite (proj2 (Z.ltb_ge _ _)) by (unfold q, SFSBPB; lia). done.
Qed.

(** The state in which block [b] is allocated. *)
Definition alloc_state (b : Z) (l : lstore) : lstore :=
  lput (dev, b) zblock
    (lput (bitmap_of dev b l) (mark_bit (b mod SFSBPB) (lget l (bitmap_of dev b l))) l).

Lemma run_balloc {n} S b :
  ready S (Datatypes.S n) l -> (bitmap_of dev b l).2 ∈ S ->
  0 <= b < sb_size sb -> block_used dev l b = false ->
  (forall b', 0 <= b' < b -> block_used dev l b' = true) ->
  blk_ok l (dev, b) -> ls_held l !! (dev, b) = None ->
  run (balloc dev) k l = Ok (b, k, alloc_state b l).
Proof.
  intros Hr HS Hb Hfree Hused Hbok Hbh. pose proof (vo_size _ _ Hv) as Hsz. fold sb in Hsz.
  unfold balloc. run_step run_readsb; [|apply Hv|apply Hf]. fold (super_of dev l). fold sb.
  set (q := Z.to_nat (b / SFSBPB)).
  replace (Z.to_nat (sb_size sb / SFSBPB) + 2)%nat
    with (q + Datatypes.S (Z.to_nat (sb_size sb / SFSBPB) + 1 - q))%nat
    by (unfold q, SFSBPB; lia).
  rewrite balloc_skip; [|unfold SFSBPB; lia|done|unfold q, SFSBPB; lia|].
  2: { intros b' Hb' _. apply Hused. unfold q, SFSBPB in *. lia. }
  set (b0 := 0 + Z.of_nat q * SFSBPB). cbn [while_fuel].
  assert (b = b0 + b mod SFSBPB) as Eb by (unfold b0, q, SFSBPB; lia).
  assert (bitmap_of dev b l = (dev, BBLOCK b0 (sb_ninodes sb))) as EB.
  { unfold bitmap_of. fold sb. rewrite Eb at 1. rewrite BBLOCK_add; [done| | |]; unfold b0, q, SFSBPB; lia. }
  destruct (vo_bitmap _ _ Hv b Hb) as [Hok Hlen]. unfold alloc_state. rewrite EB in *.
  rewrite u32_small by (unfold b0, q, SFSBPB in *; lia).
  rewrite (proj2 (Z.ltb_lt _ _)) by (unfold b0, q, SFSBPB in *; lia). simpl negb. cbv iota.
  assert (ls_held l !! (dev, BBLOCK b0 (sb_ninodes sb)) = None) as HBh by (rewrite <- EB; by apply Hf).
  rewrite run_assoc. run_step run_bread. rewrite run_assoc. run_step run_bdata.
  rewrite (balloc_scan_Some _ _ _ _ _ (b mod SFSBPB)); [|unfold b0, SFSBPB in *; lia|lia|lia|unfold SFSBPB; lia|lia| |].
  2: { unfold block_used in Hfree. by rewrite EB in Hfree. }
  2: { intros j Hj. specialize (Hused (b0 + j) ltac:(unfold b0, q, SFSBPB in *; lia)).
       unfold block_used, bitmap_of in Hused. fold sb in Hused.
       rewrite BBLOCK_add in Hused by (unfold b0, SFSBPB in *; lia).
       replace ((b0 + j) mod SFSBPB) with j in Hused by (unfold b0, SFSBPB in *; lia). done. }
  rewrite <- Eb. rewrite !run_assoc. run_step run_bstore; [|by rewrite length_mark_bit].
  rewrite run_assoc. run_step run_log_write; [|symmetry; apply Hv]. rewrite run_assoc.
  run_step run_brelse; [|by rewrite lget_put]. rewrite run_assoc.
  run_step (run_bzero S); [|apply ready_lput_in; [set_solver|done]|apply Hv].
  simpl. by rewrite u32_small by lia.
Qed.
End Balloc.

(** The state in which block [b] is free. *)
Definition free_state (dev b : Z) (l : lstore) : lstore :=
  lput (bitmap_of dev b l) (clear_bit (b mod SFSBPB) (lget l (bitmap_of dev b l))) l.

Lemma run_bfree {n} S dev b k l :
  volume_ok dev l -> alloc_free dev l -> ready S n l -> 0 <= b < sb_size (super_of dev l) ->
  run (bfree dev b) k l =
    if block_used dev l b then Ok (tt, k, free_state dev b l) else Fail (Panic "freeing free block").
Proof.
  intros Hv Hf Hr Hb. pose proof (ready_calm _ _ _ Hr) as Hc. destruct (vo_bitmap _ _ Hv b Hb) as [Hok Hlen].
  unfold bfree. run_step run_readsb; [|apply Hv|apply Hf]. fold (super_of dev l).
  unfold block_used, free_state, bitmap_of in *. run_step run_bread; [|by apply Hf]. run_step run_bdata.
  destruct (bit_set _ _); [|done]. simpl negb. cbv iota.
  run_step run_bstore; [|by rewrite length_clear_bit]. run_step run_log_write; [|symmetry; apply Hv].
  apply run_brelse; [by rewrite lget_put|by apply Hf].
Qed.

(** ** What allocation and freeing do to the bitmap *)

Lemma BBLOCK_eq b ni : 0 <= b < 2 ^ 32 -> BBLOCK b ni = b / SFSBPB + u32 ni / IPB + 3.
Proof.
  intros Hb. pose proof (u32_range ni). unfold BBLOCK. rewrite (u32_small b) by lia.
  apply u32_small. unfold SFSBPB, IPB. lia.
Qed.

Lemma BBLOCK_ge b ni : 3 <= BBLOCK b ni.
Proof.
  pose proof (u32_range ni). pose proof (u32_range b). unfold BBLOCK. rewrite u32_small; unfold SFSBPB, IPB; lia.
Qed.

Lemma bitmap_not_super dev b l : bitmap_of dev b l <> (dev, 1).
Proof.
  intros H%(f_equal snd). cbn [bitmap_of snd] in H.
  pose proof (BBLOCK_ge b (sb_ninodes (super_of dev l))). lia.
Qed.

Lemma data_not_meta dev l a :
  volume_ok dev l -> meta_end dev l < a ->
  a <> 1 /\ forall b, 0 <= b < sb_size (super_of dev l) -> (dev, a) <> bitmap_of dev b l.
Proof.
  intros Hv Ha. unfold meta_end in Ha. pose proof (vo_size _ _ Hv).
  pose proof (BBLOCK_ge (sb_size (super_of dev l) - 1) (sb_ninodes (super_of dev l))). split; [lia|].
  intros b Hb E%(f_equal snd). cbn [bitmap_of snd] in E.
  rewrite BBLOCK_eq in * by lia. unfold SFSBPB in *. lia.
Qed.

(** Overwriting other blocks leaves the bitmap alone. *)
Lemma super_lput dev x d l : x <> (dev, 1) -> super_of dev (lput x d l) = super_of dev l.
Proof. intros. unfold super_of. by rewrite lget_put_ne. Qed.

Lemma bitmap_lput dev b x d l : x <> (dev, 1) -> bitmap_of dev b (lput x d l) = bitmap_of dev b l.
Proof. intros. unfold bitmap_of. by rewrite super_lput. Qed.

Lemma used_lput dev b x d l :
  x <> (dev, 1) -> x <> bitmap_of dev b l -> block_used dev (lput x d l) b = block_used dev l b.
Proof. intros. unfold block_used. by rewrite bitmap_lput, lget_put_ne. Qed.

(** Writing the bitmap block of [b] with one bit changed. *)
Lemma used_bitmap dev b b' d (f : Z -> bool -> bool) l :
  0 <= b < 2 ^ 32 -> 0 <= b' < 2 ^ 32 ->
  (forall j, 0 <= j -> bit_set d j = if b mod SFSBPB =? j then f b (bit_set (lget l (bitmap_of dev b l)) j)
                                   else bit_set (lget l (bitmap_of dev b l)) j) ->
  block_used dev (lput (bitmap_of dev b l) d l) b' =
    if b =? b' then f b (block_used dev l b') else block_used dev l b'.
Proof.
  intros Hb Hb' Hd. unfold block_used. rewrite bitmap_lput by apply bitmap_not_super.
  destruct (decide (bitmap_of dev b l = bitmap_of dev b' l)) as [E|Hne].
  - rewrite <- E, lget_put, Hd by (unfold SFSBPB; lia). unfold bitmap_of in E. injection E as E.
    rewrite !BBLOCK_eq in E by done.
    destruct (b =? b') eqn:E1; [apply Z.eqb_eq in E1 as <-; by rewrite Z.eqb_refl|].
    apply Z.eqb_neq in E1. rewrite (proj2 (Z.eqb_neq _ _)); [done|]. unfold SFSBPB in *. lia.
  - rewrite lget_put_ne by done. destruct (b =? b') eqn:E1; [|done]. apply Z.eqb_eq in E1. by subst.
Qed.

Section Effect.
Context (dev b : Z) (l : lstore).
Hypothesis Hv : volume_ok dev l.
Hypothesis Hb : 0 <= b < sb_size (super_of dev l).

Lemma free_used b' : 0 <= b' < sb_size (super_of dev l) ->
  block_used dev (free_state dev b l) b' = negb (b =? b') && block_used dev l b'.
Proof.
  intros Hb'. pose proof (vo_size _ _ Hv). destruct (vo_bitmap _ _ Hv b Hb) as [_ Hlen].
  unfold free_state. rewrite (used_bitmap _ _ _ _ (fun _ _ => false)); [by destruct (b =? b')|lia|lia|].
  intros j Hj. rewrite bit_set_clear by (auto; unfold SFSBPB; lia). by destruct (_ =? j).
Qed.

Lemma mark_used b' : 0 <= b' < sb_size (super_of dev l) ->
  block_used dev (lput (bitmap_of dev b l) (mark_bit (b mod SFSBPB) (lget l (bitmap_of dev b l))) l) b' =
    (b =? b') || block_used dev l b'.
Proof.
  intros Hb'. pose proof (vo_size _ _ Hv). destruct (vo_bitmap _ _ Hv b Hb) as [_ Hlen].
  rewrite (used_bitmap _ _ _ _ (fun _ _ => true)); [by destruct (b =? b')|lia|lia|].
  intros j Hj. rewrite bit_set_mark by (auto; unfold SFSBPB; lia). by destruct (_ =? j).
Qed.

Lemma free_volume :
  meta_end dev l < b -> volume_ok dev (free_state dev b l).
Proof.
  intros Hm. destruct (vo_bitmap _ _ Hv b Hb) as [Hok Hlen].
  assert (super_of dev (free_state dev b l) = super_of dev l) as Es
    by (apply super_lput, bitmap_not_super).
  assert (forall b', bitmap_of dev b' (free_state dev b l) = bitmap_of dev b' l) as Eb
    by (intros; apply bitmap_lput, bitmap_not_super).
  split; rewrite ?Es; try apply Hv.
  - intros b' Hb'. rewrite Eb. split; [by apply Hv|]. unfold free_state.
    destruct (decide (bitmap_of dev b l = bitmap_of dev b' l)) as [E|Hne].
    + by rewrite <- E, lget_put, length_clear_bit.
    + rewrite lget_put_ne by done. by apply Hv.
  - intros b' Hb' Hu. rewrite free_used in Hu by done. unfold meta_end. rewrite Es.
    destruct (b =? b') eqn:E; [apply Z.eqb_eq in E as <-; done|]. by apply (vo_meta _ _ Hv).
Qed.

Lemma alloc_other x :
  x <> (dev, b) -> x <> bitmap_of dev b l -> lget (alloc_state dev b l) x = lget l x.
Proof. intros. unfold alloc_state. by rewrite !lget_put_ne. Qed.

Section Alloc.
Hypothesis Hfree : block_used dev l b = false.

Lemma free_not_meta :
  b <> 1 /\ forall b', 0 <= b' < sb_size (super_of dev l) -> (dev, b) <> bitmap_of dev b' l.
Proof. by apply data_not_meta, (vo_meta _ _ Hv). Qed.

Lemma alloc_super : super_of dev (alloc_state dev b l) = super_of dev l.
Proof.
  destruct free_not_meta as [H1 _]. unfold alloc_state.
  rewrite super_lput by congruence. apply super_lput, bitmap_not_super.
Qed.

Lemma alloc_bitmap b' : bitmap_of dev b' (alloc_state dev b l) = bitmap_of dev b' l.
Proof. unfold bitmap_of. by rewrite alloc_super. Qed.

Lemma alloc_used b' : 0 <= b' < sb_size (super_of dev l) ->
  block_used dev (alloc_state dev b l) b' = (b =? b') || block_used dev l b'.
Proof.
  intros Hb'. destruct free_not_meta as [H1 H2]. unfold alloc_state.
  rewrite used_lput; [by apply mark_used|congruence|].
  rewrite bitmap_lput by apply bitmap_not_super. by apply H2.
Qed.

Lemma alloc_volume : volume_ok dev (alloc_state dev b l).
Proof.
  destruct free_not_meta as [H1 H2]. destruct (vo_bitmap _ _ Hv b Hb) as [_ Hlen].
  split; rewrite ?alloc_super; try apply Hv.
  - intros b' Hb'. rewrite alloc_bitmap. split; [by apply Hv|]. unfold alloc_state.
    rewrite lget_put_ne by (by apply H2).
    destruct (decide (bitmap_of dev b l = bitmap_of dev b' l)) as [E|Hne].
    + by rewrite <- E, lget_put, length_mark_bit.
    + rewrite lget_put_ne by done. by apply Hv.
  - intros b' Hb' Hu. rewrite alloc_used in Hu by done. unfold meta_end. rewrite alloc_super.
    apply orb_false_iff in Hu as [_ Hu]. by apply (vo_meta _ _ Hv).
Qed.
End Alloc.
End Effect.

(** ** Free blocks

    The log is the end of the volume, but its blocks are not marked in the
    bitmap: only free blocks before it can be used. *)

Definition free_list (dev : Z) (l : lstore) : list Z :=
  filter (fun b => block_used dev l b = false) (seqZ 0 (g_start (ls_geom l))).
Definition nfree (dev : Z) (l : lstore) : nat := length (free_list dev l).

(** The lowest-numbered free block. *)
Definition first_free (dev : Z) (l : lstore) (b : Z) : Prop :=
  0 <= b < sb_size (super_of dev l) /\ block_used dev l b = false /\
  forall b', 0 <= b' < b -> block_used dev l b' = true.

Lemma data_blk_ok dev l b :
  volume_ok dev l -> 0 <= b < g_start (ls_geom l) -> blk_ok l (dev, b).
Proof.
  intros Hv Hb. pose proof (vo_size _ _ Hv). pose proof (vo_log _ _ Hv). split; simpl.
  - unfold dev_ok. lia.
  - unfold in_log. simpl. rewrite (proj2 (Z.leb_gt (g_start (ls_geom l)) b)) by lia.
    by rewrite andb_false_r.
Qed.

Lemma first_free_exists dev l :
  volume_ok dev l -> (0 < nfree dev l)%nat ->
  exists b, first_free dev l b /\ b < g_start (ls_geom l).
Proof.
  intros Hv Hn. unfold nfree, free_list in Hn. pose proof (vo_log _ _ Hv) as Hlog.
  set (ok := fun b => block_used dev l b = false) in Hn.
  destruct (list_find ok (seqZ 0 (g_start (ls_geom l)))) as [[i b]|] eqn:E.
  - apply list_find_Some in E as (Hi & Hok & Hmin). apply lookup_seqZ in Hi as [-> Hi].
    exists (0 + Z.of_nat i). split; [|lia]. split_and!; [lia|lia|done|].
    intros b' Hb'. destruct (block_used dev l b') eqn:Eu; [done|]. exfalso.
    eapply (Hmin (Z.to_nat b') b'); [apply lookup_seqZ; lia|lia|done].
  - apply list_find_None in E. rewrite filter_none in Hn; [simpl in Hn; lia|done].
Qed.

Lemma nfree_mark dev b l l' :
  ls_geom l' = ls_geom l -> 0 <= b < g_start (ls_geom l) -> block_used dev l b = false ->
  (forall b', 0 <= b' < g_start (ls_geom l) -> block_used dev l' b' = (b =? b') || block_used dev l b') ->
  nfree dev l = S (nfree dev l').
Proof.
  intros Hg Hb Hf Hu. unfold nfree, free_list. rewrite Hg.
  replace (g_start (ls_geom l)) with (b + (1 + (g_start (ls_geom l) - b - 1))) by lia.
  rewrite !seqZ_app, !filter_app, !length_app by lia. change (seqZ (0 + b) 1) with [b].
  assert (forall m n, (forall b', m <= b' < m + n -> 0 <= b' < g_start (ls_geom l) /\ b' <> b) ->
    filter (fun b' => block_used dev l' b' = false) (seqZ m n) =
    filter (fun b' => block_used dev l b' = false) (seqZ m n)) as Heq.
  { intros m n Hmn. apply filter_ext_in. intros b' Hin%elem_of_seqZ.
    destruct (Hmn b' Hin). rewrite Hu by done. by rewrite (proj2 (Z.eqb_neq _ _)) by done. }
  rewrite !Heq by lia. rewrite filter_cons_True, filter_cons_False; [simpl; lia| |done].
  rewrite Hu by done. by rewrite Z.eqb_refl.
Qed.

(** [balloc] returns the first free block of the volume, zeroed and marked
    in use; no other bit of the bitmap and no other block changes. *)
Theorem balloc_spec dev b k l :
  volume_ok dev l -> ls_held l = ∅ -> ready {[(bitmap_of dev b l).2]} 1 l ->
  first_free dev l b -> blk_ok l (dev, b) ->
  exists l', run (balloc dev) k l = Ok (b, k, l') /\ volume_ok dev l' /\ lget l' (dev, b) = zblock /\
    (forall b', 0 <= b' < sb_size (super_of dev l) ->
       block_used dev l' b' = (b =? b') || block_used dev l b') /\
    (forall x, x <> (dev, b) -> x <> bitmap_of dev b l -> lget l' x = lget l x).
Proof.
  intros Hv Hh Hr (Hb & Hf & Hu) Hok. exists (alloc_state dev b l). split_and!.
  - eapply run_balloc; eauto; [by split; intros; rewrite Hh|by eapply ready_calm|set_solver|by rewrite Hh].
  - by apply alloc_volume.
  - apply lget_put.
  - intros b' Hb'. by apply alloc_used.
  - intros x. by apply alloc_other.
Qed.

(** When every block of the volume is in use [balloc] panics. *)
Theorem balloc_full dev k l :
  volume_ok dev l -> alloc_free dev l -> calm l ->
  (forall b, 0 <= b < sb_size (super_of dev l) -> block_used dev l b = true) ->
  run (balloc dev) k l = Fail (Panic "balloc: out of blocks").
Proof. intros. by apply run_balloc_full. Qed.

(** [bfree] clears exactly the bit of its block and changes nothing else;
    freeing a free block panics. *)
Theorem bfree_spec dev b S n k l :
  volume_ok dev l -> alloc_free dev l -> ready S n l -> 0 <= b < sb_size (super_of dev l) ->
  if block_used dev l b
  then exists l', run (bfree dev b) k l = Ok (tt, k, l') /\
    (forall b', 0 <= b' < sb_size (super_of dev l) ->
       block_used dev l' b' = negb (b =? b') && block_used dev l b') /\
    (forall x, x <> bitmap_of dev b l -> lget l' x = lget l x)
  else run (bfree dev b) k l = Fail (Panic "freeing free block").
Proof.
  intros Hv Hf Hr Hb. rewrite (run_bfree S) by done. destruct (block_used dev l b) eqn:E; [|done].
  exists (free_state dev b l). split_and!; [done| |].
  - intros b' Hb'. by apply free_used.
  - intros x Hx. by apply lget_put_ne.
Qed.
