(* ===== verification/SfsInode.v ===== *)
(** * Inodes of the simple file system: [sfs_inode.c], 25-39 and 174-535 *)

From stdpp Require Import base gmap strings numbers list.
From S2P Require Import Prelude Prog Layout Log State SfsBlock.

Definition sfs_get_ops {E K} (type : Z) : prog E K inode_ops :=
  if type =? T_DIR then Ret sfs_node_dirops
  else if type =? T_FILE then Ret sfs_node_fileops
  else if type =? T_DEV then Ret sfs_node_fileops
  else panic "invalid file type".

(** The in-memory copy of the disk inode, and back. *)
Definition inode_dinode (i : inode) : sfs_dinode :=
  mkdinode (i_type i) (i_major i) (i_minor i) (i_nlink i) (i_size i) (i_addrs i).
Definition load_dinode (di : sfs_dinode) (i : inode) : inode :=
  mkinode (i_dev i) (i_inum i) (i_ref i) (i_flags i) (di_type di) (di_major di) (di_minor di)
    (di_nlink di) (di_size di) (di_addrs di) (i_fstype i) (i_ops i).

(** Copy a modified in-memory inode to disk. *)
Definition sfs_iupdate (ip : nat) : fsprog unit :=
  sin <- get_inode ip;;
  bp <- bread (i_dev sin) (IBLOCK (i_inum sin));;
  bmodify bp (put_dinode (i_inum sin) (inode_dinode sin));;;
  log_write_ bp;;;
  brelse bp.

(** Lock the given inode.  Reads the inode from disk if necessary. *)
Definition sfs_ilock (ip : nat) : fsprog unit :=
  sin <- get_inode ip;;
  if i_ref sin <? 1 then panic "ilock"
  else if i_has sin I_BUSY then Stop Blocked
  else
    upd_inode ip (set_i_flags (Z.lor (i_flags sin) I_BUSY));;;
    if i_has sin I_VALID then Ret tt
    else
      bp <- bread (i_dev sin) (IBLOCK (i_inum sin));;
      d <- bdata bp;;
      let dip := get_dinode (i_inum sin) d in
      upd_inode ip (load_dinode dip);;;
      brelse bp;;;
      upd_inode ip (fun i => set_i_flags (Z.lor (i_flags i) I_VALID) i);;;
      if di_type dip =? 0 then panic "ilock: no type" else Ret tt.

(** Unlock the given inode. *)
Definition sfs_iunlock (ip : nat) : fsprog unit :=
  sin <- get_inode ip;;
  if negb (i_has sin I_BUSY) || (i_ref sin <? 1) then panic "iunlock"
  else upd_inode ip (set_i_flags (Z.land (i_flags sin) (Z.lnot I_BUSY))).

(** The loop over [icache.inode[]] shared by the [iget]s: the first entry that
    matches, else the first free entry. *)
Fixpoint icache_scan (match_ : inode -> bool) (l : list inode) (i : nat) (empty : option nat)
    : nat + option nat :=
  match l with
  | [] => inr empty
  | x :: l =>
      if match_ x then inl i
      else icache_scan match_ l (S i)
             (match empty with
              | None => if i_ref x =? 0 then Some i else None
              | Some e => Some e
              end)
  end.

Definition sfs_match (dev inum : Z) (x : inode) : bool :=
  (i_fstype x =? SFS_INODE) && (0 <? i_ref x) && (i_dev x =? dev) && (i_inum x =? inum).

(** Find the inode with number [inum] on device [dev] and return the in-memory
    copy.  Does not lock the inode; reads it from disk only when [type] is 0. *)
Definition sfs_iget (dev inum type : Z) : fsprog nat :=
  k <- get;;
  match icache_scan (sfs_match dev inum) (km_icache k) 0 None with
  | inl ip =>
      upd_inode ip (fun i => set_i_ref (i_ref i + 1) i);;;
      Ret ip
  | inr None => panic "iget: no inodes"
  | inr (Some ip) =>
      upd_inode ip (claim_inode dev inum);;;
      (if negb (type =? 0) then upd_inode ip (set_i_type type)
       else sfs_ilock ip;;; sfs_iunlock ip);;;
      sip <- get_inode ip;;
      ops <- sfs_get_ops (i_type sip);;
      upd_inode ip (inode_init ops SFS_INODE);;;
      Ret ip
  end.

(** Increment reference count for ip. *)
Definition sfs_idup (ip : nat) : fsprog nat :=
  upd_inode ip (fun i => set_i_ref (i_ref i + 1) i);;; Ret ip.

(** Allocate a new inode with the given type on device [dev].
    A free inode has a type of zero. *)
Definition sfs_ialloc (dirnode : nat) (dev type : Z) : fsprog nat :=
  sb <- readsb dev;;
  r <- for_upto (Z.to_nat (sb_ninodes sb - 1)) 1 (fun inum =>
    bp <- bread dev (IBLOCK inum);;
    d <- bdata bp;;
    if di_type (get_dinode inum d) =? 0 then              (* a free inode *)
      bstore bp (put_dinode inum (mkdinode type 0 0 0 0 (replicate 13 0)) d);;;
      log_write_ bp;;;                                     (* mark it allocated on the disk *)
      brelse bp;;;
      node <- sfs_iget dev inum type;;
      Ret (Some node)
    else
      brelse bp;;;
      Ret None);;
  match r with
  | Some node => Ret node
  | None => panic "ialloc: no inodes"
  end.

(** Return the disk block address of the nth block in inode ip.
    If there is no such block, bmap allocates one. *)
Definition addr_at (i : inode) (n : nat) : Z := nth n (i_addrs i) 0.
Definition set_addr (n : nat) (a : Z) (i : inode) : inode := set_i_addrs (<[n := a]> (i_addrs i)) i.

Definition bmap (ip : nat) (bn : Z) : fsprog Z :=
  sin <- get_inode ip;;
  if bn <? NDIRECT then
    let addr := addr_at sin (Z.to_nat bn) in
    if addr =? 0 then
      addr <- balloc (i_dev sin);;
      upd_inode ip (set_addr (Z.to_nat bn) addr);;;
      Ret addr
    else Ret addr
  else
    let bn := u32 (bn - NDIRECT) in
    if bn <? NINDIRECT then
      (* Load indirect block, allocating if necessary. *)
      addr <- (let addr := addr_at sin 12 in
               if addr =? 0 then
                 addr <- balloc (i_dev sin);;
                 upd_inode ip (set_addr 12 addr);;;
                 Ret addr
               else Ret addr);;
      bp <- bread (i_dev sin) addr;;
      d <- bdata bp;;
      let addr := get_u32 (4 * Z.to_nat bn) d in
      addr <- (if addr =? 0 then
                 addr <- balloc (i_dev sin);;
                 bmodify bp (put_u32 (4 * Z.to_nat bn) addr);;;
                 log_write_ bp;;;
                 Ret addr
               else Ret addr);;
      brelse bp;;;
      Ret addr
    else panic "bmap: out of range".

(** Truncate inode (discard contents). *)
Definition sfs_itrunc (ip : nat) : fsprog unit :=
  for_each (seq 0 12) (fun i =>
    sin <- get_inode ip;;
    if negb (addr_at sin i =? 0) then
      bfree (i_dev sin) (addr_at sin i);;;
      upd_inode ip (set_addr i 0)
    else Ret tt);;;
  sin <- get_inode ip;;
  (if negb (addr_at sin 12 =? 0) then
     bp <- bread (i_dev sin) (addr_at sin 12);;
     for_each (seq 0 128) (fun j =>
       d <- bdata bp;;
       let a := get_u32 (4 * j) d in
       if negb (a =? 0) then bfree (i_dev sin) a else Ret tt);;;
     brelse bp;;;
     bfree (i_dev sin) (addr_at sin 12);;;
     upd_inode ip (set_addr 12 0)
   else Ret tt);;;
  upd_inode ip (set_i_size 0);;;
  sfs_iupdate ip.

(** Drop a reference to an in-memory inode.  If that was the last reference
    and the inode has no links to it, free the inode (and its content) on
    disk. *)
Definition sfs_iput (ip : nat) : fsprog unit :=
  sin <- get_inode ip;;
  (if (i_ref sin =? 1) && i_has sin I_VALID && (i_nlink sin =? 0) then
     (* inode has no links: truncate and free inode. *)
     if i_has sin I_BUSY then panic "iput busy"
     else
       upd_inode ip (set_i_flags (Z.lor (i_flags sin) I_BUSY));;;
       sfs_itrunc ip;;;
       upd_inode ip (set_i_type 0);;;
       sfs_iupdate ip;;;
       upd_inode ip (set_i_flags 0)
   else Ret tt);;;
  upd_inode ip (fun i => set_i_ref (i_ref i - 1) i).

(** Common idiom: unlock, then put. *)
Definition sfs_iunlockput (ip : nat) : fsprog unit :=
  sfs_iunlock ip;;; sfs_iput ip.

(** [struct stat] *)
Record stat := mkstat { st_type : Z; st_dev : Z; st_ino : Z; st_nlink : Z; st_size : Z; st_fstype : Z }.

(** Copy stat information from inode. *)
Definition sfs_stati (ip : nat) : fsprog stat :=
  sin <- get_inode ip;;
  Ret (mkstat (i_type sin) (s32 (i_dev sin)) (i_inum sin) (i_nlink sin) (i_size sin) (i_fstype sin)).

Section IO.
Context `{DevSw}.

(** Read data from inode: the result and the bytes stored at [dst]. *)
Definition sfs_readi (ip : nat) (off n : Z) : fsprog (Z * list Z) :=
  sin <- get_inode ip;;
  if i_type sin =? T_DEV then
    if (i_major sin <? 0) || (NDEV <=? i_major sin) then Ret (-1, [])
    else match dev_read (i_major sin) with
         | None => Ret (-1, [])
         | Some f => f ip n
         end
  else if (i_size sin <? off) || (u32 (off + n) <? off) then Ret (-1, [])
  else
    let n := if i_size sin <? u32 (off + n) then u32 (i_size sin - off) else n in
    dst <- while_fuel (Z.to_nat (n / SFS_BSIZE) + 3) (fun '(tot, off, dst) =>
      if negb (tot <? n) then Ret (inr dst)
      else
        a <- bmap ip (off / SFS_BSIZE);;
        sin <- get_inode ip;;
        bp <- bread (i_dev sin) a;;
        let m := Z.min (u32 (n - tot)) (SFS_BSIZE - off mod SFS_BSIZE) in
        d <- bdata bp;;
        brelse bp;;;
        Ret (inl (u32 (tot + m), u32 (off + m),
                  dst ++ slice (Z.to_nat (off mod SFS_BSIZE)) (Z.to_nat m) d))) (0, off, []);;
    Ret (s32 n, dst).

(** Write data to inode. *)
Definition sfs_writei (ip : nat) (src : list Z) (off n : Z) : fsprog Z :=
  sin <- get_inode ip;;
  if i_type sin =? T_DEV then
    if (i_major sin <? 0) || (NDEV <=? i_major sin) then Ret (-1)
    else match dev_write (i_major sin) with
         | None => Ret (-1)
         | Some f => f ip src n
         end
  else if (i_size sin <? off) || (u32 (off + n) <? off) then Ret (-1)
  else if MAXFILE * SFS_BSIZE <? u32 (off + n) then Ret (-1)
  else
    off <- while_fuel (Z.to_nat (n / SFS_BSIZE) + 3) (fun '(tot, off, src) =>
      if negb (tot <? n) then Ret (inr off)
      else
        a <- bmap ip (off / SFS_BSIZE);;
        sin <- get_inode ip;;
        bp <- bread (i_dev sin) a;;
        let m := Z.min (u32 (n - tot)) (SFS_BSIZE - off mod SFS_BSIZE) in
        (if Z.of_nat (length src) <? m then undef "read outside the source buffer"
         else bmodify bp (splice (Z.to_nat (off mod SFS_BSIZE)) (take (Z.to_nat m) src)));;;
        log_write_ bp;;;
        brelse bp;;;
        Ret (inl (u32 (tot + m), u32 (off + m), drop (Z.to_nat m) src))) (0, off, src);;
    sin <- get_inode ip;;
    (if (0 <? n) && (i_size sin <? off) then
       upd_inode ip (set_i_size off);;;
       sfs_iupdate ip
     else Ret tt);;;
    Ret (s32 n).
End IO.
