(* ===== verification/SfsFile.v ===== *)
(** * Files of the simple file system as byte arrays

    The block map of an inode ([bmap]), reading and writing ([sfs_readi],
    [sfs_writei]) against the abstract view of a file: 140 data slots and one
    for the indirect block, and the bytes behind them. *)

From stdpp Require Import base gmap strings numbers list.
From S2P Require Import Prelude Prog Bio Layout Log LStore State FsLogic SfsBlock SfsInode.

(** ** The abstract view *)

(** Slot [s] of an inode: the block number of data block [s] for [s < 140],
    the indirect block for [s = 140]; 0 when there is none. *)
Definition slot (i : inode) (l : lstore) (s : Z) : Z :=
  if s =? 140 then addr_at i 12
  else if s <? 12 then addr_at i (Z.to_nat s)
  else if addr_at i 12 =? 0 then 0
  else get_u32 (4 * Z.to_nat (s - 12)) (lget l (i_dev i, addr_at i 12)).

(** Byte [x] of the file; a block that does not exist reads as zeros. *)
Definition fbyte (i : inode) (l : lstore) (x : Z) : Z :=
  if slot i l (x / 512) =? 0 then 0
  else nth (Z.to_nat (x mod 512)) (lget l (i_dev i, slot i l (x / 512))) 0.

(** Bytes [off .. off + n - 1]. *)
Definition fdata (i : inode) (l : lstore) (off n : Z) : list Z := map (fbyte i l) (seqZ off n).

Definition data_blk (dev : Z) (l : lstore) (a : Z) : Prop := meta_end dev l < a < g_start (ls_geom l).

(** The blocks of a file are allocated data blocks, no two slots share one,
    and every byte before [size] has a block. *)
Record file_ok (dev : Z) (i : inode) (l : lstore) : Prop := {
  fo_dev : i_dev i = dev;
  fo_len : length (i_addrs i) = 13%nat;
  fo_slot : forall s, 0 <= s <= 140 -> slot i l s <> 0 ->
    data_blk dev l (slot i l s) /\ block_used dev l (slot i l s) = true /\
    length (lget l (dev, slot i l s)) = 512%nat;
  fo_inj : forall s s', 0 <= s <= 140 -> 0 <= s' <= 140 ->
    slot i l s = slot i l s' -> slot i l s <> 0 -> s = s';
  fo_size : 0 <= i_size i <= 140 * 512;
  fo_full : forall s, 0 <= s < 140 -> s * 512 < i_size i -> slot i l s <> 0;
}.

(** ** Giving a slot a block *)

Definition grow_i (s a : Z) (i : inode) : inode :=
  if s =? 140 then set_addr 12 a i
  else if s <? 12 then set_addr (Z.to_nat s) a i
  else i.

Definition grow_l (dev s a : Z) (i : inode) (l : lstore) : lstore :=
  if (s =? 140) || (s <? 12) then alloc_state dev a l
  else
    lput (dev, addr_at i 12) (put_u32 (4 * Z.to_nat (s - 12)) a (lget l (dev, addr_at i 12)))
      (alloc_state dev a l).

Lemma addr_at_set n m a i :
  (n < length (i_addrs i))%nat -> addr_at (set_addr n a i) m = if decide (n = m) then a else addr_at i m.
Proof.
  intros Hn. unfold addr_at, set_addr. simpl. rewrite !nth_lookup.
  case_decide as E; [subst; by rewrite list_lookup_insert_eq|by rewrite list_lookup_insert_ne].
Qed.

Lemma get_u32_zblock o : get_u32 o zblock = 0.
Proof.
  unfold get_u32, slice, zblock. rewrite drop_replicate, take_replicate.
  induction (_ `min` _)%nat as [|n IH]; [done|]. simpl. by rewrite IH.
Qed.

Lemma nth_zblock j : nth j zblock 0 = 0.
Proof.
  rewrite nth_lookup. destruct (zblock !! j) eqn:E; [|done]. by apply lookup_replicate in E as [-> _].
Qed.

Lemma get_put_u32_ne o o' v d :
  length d = 512%nat -> (o + 4 <= 512)%nat -> (o' + 4 <= o \/ o + 4 <= o')%nat ->
  get_u32 o' (put_u32 o v d) = get_u32 o' d.
Proof. intros. unfold get_u32. by rewrite slice_put_u32_other by lia. Qed.

Section Grow.
Context (dev : Z) (i : inode) (l : lstore) (s a : Z).
Hypothesis Hv : volume_ok dev l.
Hypothesis Hi : file_ok dev i l.
Hypothesis Hs : 0 <= s <= 140.
Hypothesis Hs0 : slot i l s = 0.
Hypothesis Hind : 12 <= s < 140 -> addr_at i 12 <> 0.
Hypothesis Hfree : block_used dev l a = false.
Hypothesis Hdata : data_blk dev l a.
Let i' := grow_i s a i.
Let l' := grow_l dev s a i l.

Lemma grow_bounds : 0 < a < sb_size (super_of dev l).
Proof.
  unfold data_blk, meta_end in Hdata. pose proof (vo_log _ _ Hv).
  pose proof (BBLOCK_ge (sb_size (super_of dev l) - 1) (sb_ninodes (super_of dev l))). lia.
Qed.

(** The indirect block is another block than the new one, and not a bitmap
    block. *)
Lemma grow_ind :
  addr_at i 12 <> 0 ->
  addr_at i 12 <> a /\ (forall b, 0 <= b < sb_size (super_of dev l) -> (dev, addr_at i 12) <> bitmap_of dev b l)
  /\ addr_at i 12 <> 1 /\ length (lget l (dev, addr_at i 12)) = 512%nat.
Proof.
  intros H. destruct (fo_slot _ _ _ Hi 140 ltac:(lia) H) as (Hd & Hu & Hl).
  destruct (data_not_meta _ _ _ Hv (proj1 Hd)) as [H1 H2]. unfold slot in *. simpl in *.
  split_and!; auto. intros E. rewrite E in Hu. congruence.
Qed.

Lemma alloc_get_ind : addr_at i 12 <> 0 ->
  lget (alloc_state dev a l) (dev, addr_at i 12) = lget l (dev, addr_at i 12).
Proof.
  intros H. destruct (grow_ind H) as (H1 & H2 & _). pose proof grow_bounds.
  rewrite alloc_other; [done|congruence|apply H2; lia].
Qed.

Lemma slot_grow s' : 0 <= s' <= 140 -> slot i' l' s' = if s' =? s then a else slot i l s'.
Proof.
  intros Hs'. pose proof (fo_len _ _ _ Hi) as Hlen. pose proof (fo_dev _ _ _ Hi) as Hdev.
  pose proof grow_bounds as Hab.
  unfold i', l', grow_i, grow_l. unfold slot in Hs0.
  destruct (s =? 140) eqn:E140; [apply Z.eqb_eq in E140|apply Z.eqb_neq in E140].
  - (* the indirect block itself *)
    simpl orb. cbv iota. unfold slot. rewrite !addr_at_set by lia.
    destruct (s' =? 140) eqn:E1; [apply Z.eqb_eq in E1; subst; by rewrite Z.eqb_refl|].
    apply Z.eqb_neq in E1. rewrite (proj2 (Z.eqb_neq s' s)) by lia.
    destruct (s' <? 12) eqn:E2; [apply Z.ltb_lt in E2; rewrite decide_False by lia; done|].
    rewrite decide_True by done. rewrite (proj2 (Z.eqb_neq a 0)) by lia. simpl i_dev. rewrite Hdev.
    unfold alloc_state. rewrite lget_put, get_u32_zblock, Hs0. done.
  - destruct (s <? 12) eqn:E12; [apply Z.ltb_lt in E12|apply Z.ltb_ge in E12].
    + (* a direct block *)
      simpl orb. cbv iota. unfold slot. rewrite !addr_at_set by lia.
      destruct (s' =? 140) eqn:E1; [apply Z.eqb_eq in E1|apply Z.eqb_neq in E1].
      { rewrite (proj2 (Z.eqb_neq s' s)) by lia. by rewrite decide_False by lia. }
      destruct (s' <? 12) eqn:E2; [apply Z.ltb_lt in E2|apply Z.ltb_ge in E2].
      * destruct (s' =? s) eqn:E3; [apply Z.eqb_eq in E3; subst; by rewrite decide_True|].
        apply Z.eqb_neq in E3. by rewrite decide_False by lia.
      * rewrite (proj2 (Z.eqb_neq s' s)) by lia. rewrite decide_False by lia.
        destruct (addr_at i 12 =? 0) eqn:E0; [done|]. apply Z.eqb_neq in E0. simpl i_dev.
        by rewrite Hdev, alloc_get_ind.
    + (* an entry of the indirect block *)
      simpl orb. cbv iota. specialize (Hind ltac:(lia)). destruct (grow_ind Hind) as (_ & _ & _ & Hl512).
      unfold slot. rewrite Hdev.
      destruct (s' =? 140) eqn:E1; [apply Z.eqb_eq in E1|apply Z.eqb_neq in E1].
      { by rewrite (proj2 (Z.eqb_neq s' s)) by lia. }
      destruct (s' <? 12) eqn:E2; [apply Z.ltb_lt in E2|apply Z.ltb_ge in E2].
      { by rewrite (proj2 (Z.eqb_neq s' s)) by lia. }
      rewrite (proj2 (Z.eqb_neq _ 0)) by done. rewrite lget_put.
      destruct (s' =? s) eqn:E3; [apply Z.eqb_eq in E3|apply Z.eqb_neq in E3].
      * subst. rewrite get_put_u32 by lia. pose proof (vo_size _ _ Hv). apply u32_small. lia.
      * by rewrite get_put_u32_ne by lia.
Qed.

(** Blocks the allocation leaves alone. *)
Lemma grow_other x :
  x <> (dev, a) -> (forall b, 0 <= b < sb_size (super_of dev l) -> x <> bitmap_of dev b l) ->
  (addr_at i 12 <> 0 -> x <> (dev, addr_at i 12)) -> lget l' x = lget l x.
Proof.
  intros Ha Hb Hx. pose proof grow_bounds as Hab.
  assert (lget (alloc_state dev a l) x = lget l x) as E by (apply alloc_other; [done|apply Hb; lia]).
  unfold l', grow_l. destruct (s =? 140) eqn:E1; [done|]. destruct (s <? 12) eqn:E2; [done|]. simpl.
  rewrite lget_put_ne; [done|]. intros H. apply Hx; [|by symmetry]. apply Hind.
  apply Z.eqb_neq in E1. apply Z.ltb_ge in E2. lia.
Qed.

Lemma grow_meta : super_of dev l' = super_of dev l /\ meta_end dev l' = meta_end dev l /\
  (forall b, bitmap_of dev b l' = bitmap_of dev b l).
Proof.
  pose proof grow_bounds as Hab.
  assert (super_of dev l' = super_of dev l) as E.
  { unfold super_of. rewrite grow_other; [done| | |].
    - destruct (free_not_meta dev a l Hv ltac:(lia) Hfree) as [H _]. congruence.
    - intros b Hb H. symmetry in H. by apply bitmap_not_super in H.
    - intros H. destruct (grow_ind H) as (_ & _ & H1 & _). congruence. }
  split_and!; [done|unfold meta_end; by rewrite E|]. intros b. unfold bitmap_of. by rewrite E.
Qed.

Lemma grow_used b : 0 <= b < sb_size (super_of dev l) ->
  block_used dev l' b = (a =? b) || block_used dev l b.
Proof.
  intros Hb. pose proof grow_bounds as Hab. unfold l', grow_l.
  assert (block_used dev (alloc_state dev a l) b = (a =? b) || block_used dev l b) as E
    by (apply alloc_used; auto; lia).
  destruct (s =? 140) eqn:E1; [done|]. destruct (s <? 12) eqn:E2; [done|]. simpl.
  apply Z.eqb_neq in E1. apply Z.ltb_ge in E2. destruct (grow_ind (Hind ltac:(lia))) as (H1 & H2 & H3 & _).
  rewrite used_lput; [done|congruence|]. rewrite alloc_bitmap by (auto; lia). by apply H2.
Qed.

Lemma grow_volume : volume_ok dev l'.
Proof.
  pose proof grow_bounds as Hab. destruct grow_meta as (Es & Em & Eb).
  assert (forall b, 0 <= b < sb_size (super_of dev l) -> length (lget l' (bitmap_of dev b l)) = 512%nat) as Hl.
  { intros b Hb. pose proof (alloc_volume dev a l Hv ltac:(lia) Hfree) as Hv'.
    destruct (vo_bitmap _ _ Hv' b) as [_ Hlen]; [by rewrite alloc_super by (auto; lia)|].
    rewrite alloc_bitmap in Hlen by (auto; lia). unfold l', grow_l.
    destruct (s =? 140) eqn:E1; [done|]. destruct (s <? 12) eqn:E2; [done|]. simpl.
    apply Z.eqb_neq in E1. apply Z.ltb_ge in E2. destruct (grow_ind (Hind ltac:(lia))) as (_ & H2 & _).
    rewrite lget_put_ne; [done|by apply H2]. }
  assert (ls_geom l' = ls_geom l) as Eg by (unfold l', grow_l; by destruct (_ || _)).
  split; rewrite ?Es, ?Eg; try apply Hv.
  - unfold blk_ok. rewrite Eg. apply Hv.
  - intros b Hb. rewrite Eb. split; [|by apply Hl]. unfold blk_ok. rewrite Eg. by apply Hv.
  - intros b Hb Hu. rewrite Em. rewrite grow_used in Hu by done. apply orb_false_iff in Hu as [_ Hu].
    by apply (vo_meta _ _ Hv).
Qed.

Lemma grow_new_zero : s < 140 -> lget l' (dev, a) = zblock.
Proof.
  intros Hlt. unfold l', grow_l. rewrite (proj2 (Z.eqb_neq s 140)) by lia. simpl.
  destruct (s <? 12) eqn:E2; [apply lget_put|]. apply Z.ltb_ge in E2.
  destruct (grow_ind (Hind ltac:(lia))) as (H1 & _). rewrite lget_put_ne by congruence. apply lget_put.
Qed.

Lemma grow_i_fields : i_dev i' = i_dev i /\ i_size i' = i_size i /\ length (i_addrs i') = length (i_addrs i).
Proof.
  unfold i', grow_i, set_addr. repeat case_match; simpl; rewrite ?length_insert; auto.
Qed.

Lemma grow_length b : data_blk dev l b -> length (lget l (dev, b)) = 512%nat -> length (lget l' (dev, b)) = 512%nat.
Proof.
  intros Hb Hl. pose proof grow_bounds as Hab. destruct (data_not_meta _ _ _ Hv (proj1 Hb)) as [_ Hm].
  unfold l', grow_l.
  assert (length (lget (alloc_state dev a l) (dev, b)) = 512%nat) as E.
  { destruct (decide (b = a)) as [->|Hne]; [unfold alloc_state; by rewrite lget_put|].
    rewrite alloc_other; [done|congruence|apply Hm; lia]. }
  destruct (s =? 140) eqn:E1; [done|]. destruct (s <? 12) eqn:E2; [done|]. simpl.
  apply Z.eqb_neq in E1. apply Z.ltb_ge in E2. destruct (grow_ind (Hind ltac:(lia))) as (_ & _ & _ & H4).
  destruct (decide (b = addr_at i 12)) as [->|Hne]; [|by rewrite lget_put_ne by congruence].
  rewrite lget_put. rewrite length_put_u32 by lia. done.
Qed.

Lemma data_blk_size b : data_blk dev l b -> 0 <= b < sb_size (super_of dev l).
Proof.
  intros Hb. pose proof (vo_log _ _ Hv). unfold data_blk, meta_end in Hb.
  pose proof (BBLOCK_ge (sb_size (super_of dev l) - 1) (sb_ninodes (super_of dev l))). lia.
Qed.

Lemma grow_data_blk b : data_blk dev l' b <-> data_blk dev l b.
Proof.
  destruct grow_meta as (_ & Em & _). unfold data_blk. rewrite Em.
  unfold l', grow_l. by destruct (_ || _).
Qed.

Lemma grow_file : file_ok dev i' l'.
Proof.
  destruct grow_i_fields as (Ed & Esz & Ela). pose proof grow_bounds as Hab.
  assert (forall s', 0 <= s' <= 140 -> s' <> s -> slot i l s' = a -> False) as Hfresh.
  { intros s' Hs' Hne E. destruct (fo_slot _ _ _ Hi s' Hs') as (_ & Hu & _); [lia|]. congruence. }
  split.
  - rewrite Ed. apply Hi.
  - rewrite Ela. apply Hi.
  - intros s' Hs'. rewrite slot_grow by done. rewrite grow_data_blk.
    destruct (s' =? s) eqn:E; intros Hne.
    + split_and!; [done| |].
      * rewrite grow_used by (by apply data_blk_size). by rewrite Z.eqb_refl.
      * destruct (decide (s < 140)) as [Hlt|Hge]; [by rewrite grow_new_zero|].
        unfold l', grow_l. replace s with 140 by lia. simpl. unfold alloc_state. by rewrite lget_put.
    + destruct (fo_slot _ _ _ Hi s' Hs' Hne) as (Hd & Hu & Hl). split_and!; [done| |by apply grow_length].
      rewrite grow_used by (by apply data_blk_size). by rewrite Hu, orb_true_r.
  - intros s1 s2 H1 H2. rewrite !slot_grow by done.
    destruct (Z.eqb_spec s1 s) as [E1|E1], (Z.eqb_spec s2 s) as [E2|E2]; intros E Hne;
      [lia| | |by apply (fo_inj _ _ _ Hi)].
    + exfalso. by apply (Hfresh s2 H2 E2).
    + exfalso. by apply (Hfresh s1 H1 E1).
  - rewrite Esz. apply Hi.
  - intros s' Hs' Hsz. rewrite Esz in Hsz. rewrite slot_grow by lia.
    destruct (s' =? s); [lia|]. by apply (fo_full _ _ _ Hi).
Qed.

Lemma grow_fbyte x : 0 <= x < 140 * 512 -> fbyte i' l' x = fbyte i l x.
Proof.
  intros Hx. unfold fbyte. destruct grow_i_fields as (Ed & _). rewrite Ed, (fo_dev _ _ _ Hi).
  set (t := x / 512). assert (0 <= t < 140) as Ht by (unfold t; lia). rewrite slot_grow by lia.
  pose proof grow_bounds as Hab.
  destruct (t =? s) eqn:E; [apply Z.eqb_eq in E|apply Z.eqb_neq in E].
  - rewrite E, Hs0, Z.eqb_refl. rewrite (proj2 (Z.eqb_neq a 0)) by lia. rewrite grow_new_zero by lia.
    by rewrite nth_zblock.
  - destruct (slot i l t =? 0) eqn:E0; [done|]. apply Z.eqb_neq in E0.
    destruct (fo_slot _ _ _ Hi t ltac:(lia) E0) as (Hd & Hu & _).
    rewrite grow_other; [done|congruence| |].
    + by apply data_not_meta, Hd.
    + intros H0 [= E1]. assert (t = 140); [|lia].
      apply (fo_inj _ _ _ Hi); [lia|lia|rewrite E1; by unfold slot|done].
Qed.

Lemma grow_ready S n :
  (forall b, 0 <= b < sb_size (super_of dev l) -> (bitmap_of dev b l).2 ∈ S) ->
  (addr_at i 12 <> 0 -> addr_at i 12 ∈ ls_logged l ∪ S) ->
  ready S (Datatypes.S n) l -> ready S n l'.
Proof.
  intros HS Hil Hr. pose proof grow_bounds as Hab.
  assert (ready S n (alloc_state dev a l)) as Ha.
  { apply ready_lput. apply ready_lput_in; [|done]. apply elem_of_union_r, HS. lia. }
  unfold l', grow_l. destruct (s =? 140) eqn:E1; [done|]. destruct (s <? 12) eqn:E2; [done|]. simpl.
  apply Z.eqb_neq in E1. apply Z.ltb_ge in E2. apply ready_lput_in; [|done].
  specialize (Hil (Hind ltac:(lia))). simpl. set_solver.
Qed.
End Grow.

(** ** What [bmap] may change *)

(** Blocks that writing to the file [i] does not concern: not bitmap, not the
    file's, not free. *)
Definition foreign (dev : Z) (i : inode) (l : lstore) (x : bufkey) : Prop :=
  (forall b, 0 <= b < sb_size (super_of dev l) -> x <> bitmap_of dev b l) /\
  (forall s, 0 <= s <= 140 -> slot i l s <> 0 -> x <> (dev, slot i l s)) /\
  (forall a, data_blk dev l a -> block_used dev l a = false -> x <> (dev, a)).

Record grown (dev : Z) (i : inode) (l : lstore) (i' : inode) (l' : lstore) : Prop := {
  g_vol : volume_ok dev l';
  g_file : file_ok dev i' l';
  g_fields : i' = set_i_addrs (i_addrs i') i;
  g_geom : ls_geom l' = ls_geom l;
  g_held : ls_held l' = ls_held l;
  g_durable : ls_durable l' = ls_durable l;
  g_super : super_of dev l' = super_of dev l;
  g_byte : forall x, 0 <= x < 140 * 512 -> fbyte i' l' x = fbyte i l x;
  g_slot : forall s, 0 <= s <= 140 -> slot i l s <> 0 -> slot i' l' s = slot i l s;
  g_other : forall x, foreign dev i l x -> foreign dev i' l' x /\ lget l' x = lget l x;
  g_logged : ls_logged l ⊆ ls_logged l';
}.

Lemma set_addrs_same i : set_i_addrs (i_addrs i) i = i.
Proof. by destruct i. Qed.

Lemma grown_refl dev i l : volume_ok dev l -> file_ok dev i l -> grown dev i l i l.
Proof. intros. split; auto. by rewrite set_addrs_same. Qed.

Lemma grown_trans dev i l i1 l1 i2 l2 :
  grown dev i l i1 l1 -> grown dev i1 l1 i2 l2 -> grown dev i l i2 l2.
Proof.
  intros H1 H2. split.
  - apply H2.
  - apply H2.
  - rewrite (g_fields _ _ _ _ _ H2) at 1. rewrite (g_fields _ _ _ _ _ H1). done.
  - rewrite (g_geom _ _ _ _ _ H2). apply H1.
  - rewrite (g_held _ _ _ _ _ H2). apply H1.
  - rewrite (g_durable _ _ _ _ _ H2). apply H1.
  - rewrite (g_super _ _ _ _ _ H2). apply H1.
  - intros x Hx. rewrite (g_byte _ _ _ _ _ H2), (g_byte _ _ _ _ _ H1) by done. done.
  - intros s Hs Hne. rewrite <- (g_slot _ _ _ _ _ H1 s Hs Hne). apply (g_slot _ _ _ _ _ H2); [done|].
    by rewrite (g_slot _ _ _ _ _ H1 s Hs Hne).
  - intros x Hx. destruct (g_other _ _ _ _ _ H1 x Hx) as [Hx1 E1].
    destruct (g_other _ _ _ _ _ H2 x Hx1) as [Hx2 E2]. split; [done|congruence].
  - etrans; [apply H1|apply H2].
Qed.

Lemma grow_grown dev i l s a :
  volume_ok dev l -> file_ok dev i l -> 0 <= s <= 140 -> slot i l s = 0 ->
  (12 <= s < 140 -> addr_at i 12 <> 0) -> block_used dev l a = false -> data_blk dev l a ->
  grown dev i l (grow_i s a i) (grow_l dev s a i l).
Proof.
  intros Hv Hi Hs Hs0 Hind Hf Hd. split.
  - by apply grow_volume.
  - by apply grow_file.
  - unfold grow_i, set_addr. repeat case_match; try done. by rewrite set_addrs_same.
  - unfold grow_l. by case_match.
  - unfold grow_l. by case_match.
  - unfold grow_l. by case_match.
  - by apply (grow_meta dev i l s a).
  - intros x Hx. by apply grow_fbyte.
  - intros s' Hs' Hne. rewrite slot_grow by done. destruct (Z.eqb_spec s' s) as [->|]; [congruence|done].
  - intros x (Hx1 & Hx2 & Hx3). split; [|apply grow_other; auto; intros; by apply (Hx2 140)].
    destruct (grow_meta dev i l s a) as (Es & _ & Eb); auto. split_and!.
    + intros b Hb. rewrite Es in Hb. rewrite Eb. by apply Hx1.
    + intros s' Hs'. rewrite slot_grow by done. destruct (s' =? s); [intros _; by apply Hx3|by apply Hx2].
    + intros b. rewrite grow_data_blk by done. intros Hb Hu. apply Hx3; [done|].
      rewrite grow_used in Hu by (auto; eapply data_blk_size; eauto).
      by apply orb_false_iff in Hu as [_ Hu].
  - unfold grow_l, alloc_state, lput. case_match; simpl; set_solver.
Qed.

(** ** [bmap] *)

Section Bmap.
Context (dev : Z) (ip : nat).

Lemma cached_same k i : cached k ip i -> set_inode ip i k = k.
Proof. apply set_self. Qed.

Lemma run_bmap_hit k i l bn :
  cached k ip i -> volume_ok dev l -> file_ok dev i l -> ls_held l = ∅ -> calm l ->
  0 <= bn < 140 -> slot i l bn <> 0 ->
  run (bmap ip bn) k l = Ok (slot i l bn, k, l).
Proof.
  intros Hk Hv Hi Hh Hc Hbn Hs. unfold bmap. run_step run_get_inode.
  unfold slot, NDIRECT, NINDIRECT in *. rewrite (proj2 (Z.eqb_neq bn 140)) in * by lia.
  destruct (bn <? 12) eqn:E; [by rewrite (proj2 (Z.eqb_neq _ 0))|]. apply Z.ltb_ge in E.
  destruct (Z.eqb_spec (addr_at i 12) 0) as [|E0]; [done|].
  rewrite u32_small by lia. rewrite (proj2 (Z.ltb_lt _ _)) by lia. cbn [pbind].
  destruct (fo_slot _ _ _ Hi 140 ltac:(lia) E0) as (Hd & _ & Hl). rewrite (fo_dev _ _ _ Hi) in *.
  assert (blk_ok l (dev, addr_at i 12)) as Hok.
  { apply data_blk_ok; [done|]. pose proof (data_blk_size dev l Hv _ Hd). unfold slot, data_blk in *. simpl in *. lia. }
  run_step run_bread; [|by rewrite Hh]. run_step run_bdata.
  rewrite (proj2 (Z.eqb_neq _ 0)) by done. cbn [pbind]. run_step run_brelse; [|by rewrite Hh]. done.
Qed.

(** The allocator finds a block below the log. *)
Lemma run_balloc_next {n} S k l :
  volume_ok dev l -> alloc_free dev l -> ready S (Datatypes.S n) l ->
  (forall b, 0 <= b < sb_size (super_of dev l) -> (bitmap_of dev b l).2 ∈ S) ->
  (0 < nfree dev l)%nat ->
  (forall a, block_used dev l a = false -> data_blk dev l a -> ls_held l !! (dev, a) = None) ->
  exists a, block_used dev l a = false /\ data_blk dev l a /\
    run (balloc dev) k l = Ok (a, k, alloc_state dev a l).
Proof.
  intros Hv Hf Hr HS Hn Hh. destruct (first_free_exists _ _ Hv Hn) as (a & (Ha & Hu & Hmin) & Hlt).
  assert (data_blk dev l a) as Hd by (split; [by apply (vo_meta _ _ Hv)|done]).
  exists a. split_and!; auto. eapply run_balloc; eauto; [by eapply ready_calm|apply data_blk_ok; auto; lia].
Qed.

Lemma grow_nfree i l s a :
  volume_ok dev l -> file_ok dev i l -> 0 <= s <= 140 -> slot i l s = 0 ->
  (12 <= s < 140 -> addr_at i 12 <> 0) -> block_used dev l a = false -> data_blk dev l a ->
  nfree dev l = Datatypes.S (nfree dev (grow_l dev s a i l)).
Proof.
  intros Hv Hi Hs Hs0 Hind Hf Hd. pose proof (data_blk_size _ _ Hv _ Hd). pose proof (vo_log _ _ Hv).
  apply (nfree_mark _ a); auto.
  - unfold grow_l. by case_match.
  - unfold data_blk in Hd. lia.
  - intros b Hb. apply grow_used; auto. lia.
Qed.

(** Buffers that may be locked while the allocator runs: data blocks in use. *)
Lemma alloc_free_hold a d l :
  volume_ok dev l -> ls_held l = ∅ -> data_blk dev l a -> alloc_free dev (hold (dev, a) d l).
Proof.
  intros Hv Hh Hd. destruct (data_not_meta _ _ _ Hv (proj1 Hd)) as [H1 H2].
  unfold alloc_free. rewrite held_hold by done. split.
  - apply lookup_singleton_ne. congruence.
  - intros b Hb. apply lookup_singleton_ne. by apply H2.
Qed.

Lemma volume_hold b d l : volume_ok dev l -> volume_ok dev (hold b d l).
Proof. intros [? ? ? ? ? ?]. by split. Qed.

(** The budget of a file that has no indirect block yet includes it. *)
Definition pot (i : inode) : nat := if addr_at i 12 =? 0 then 1 else 0.

(** What a write needs of the transaction: every bitmap block and the indirect
    block are paid for. *)
Definition paid (S : gset Z) (i : inode) (l : lstore) : Prop :=
  (forall b, 0 <= b < sb_size (super_of dev l) -> (bitmap_of dev b l).2 ∈ S) /\
  (addr_at i 12 <> 0 -> addr_at i 12 ∈ ls_logged l ∪ S).

Lemma bmap_direct S n k i l bn :
  cached k ip i -> volume_ok dev l -> file_ok dev i l -> ls_held l = ∅ -> paid S i l ->
  ready S (Datatypes.S n) l -> (0 < nfree dev l)%nat -> 0 <= bn < 12 -> slot i l bn = 0 ->
  exists a, block_used dev l a = false /\ data_blk dev l a /\
    run (bmap ip bn) k l = Ok (a, set_inode ip (grow_i bn a i) k, grow_l dev bn a i l).
Proof.
  intros Hk Hv Hi Hh [HS _] Hr Hn Hbn Hs.
  destruct (run_balloc_next (n := n) S k l Hv) as (a & Hu & Hd & Hrun); auto.
  { by split; intros; rewrite Hh. }
  { intros. by rewrite Hh. }
  exists a. split_and!; auto. unfold bmap. run_step run_get_inode. unfold slot, NDIRECT in *.
  rewrite (proj2 (Z.eqb_neq bn 140)) in Hs by lia. rewrite (proj2 (Z.ltb_lt bn 12)) in * by lia.
  rewrite Hs, Z.eqb_refl, (fo_dev _ _ _ Hi). rewrite (run_bind_Ok _ _ _ _ _ _ _ Hrun).
  run_step run_upd_inode. unfold grow_i, grow_l.
  rewrite (proj2 (Z.eqb_neq bn 140)), (proj2 (Z.ltb_lt bn 12)) by lia. done.
Qed.

Lemma bmap_entry S n k i l bn :
  cached k ip i -> volume_ok dev l -> file_ok dev i l -> ls_held l = ∅ -> paid S i l ->
  ready S (Datatypes.S n) l -> (0 < nfree dev l)%nat -> 12 <= bn < 140 -> slot i l bn = 0 ->
  addr_at i 12 <> 0 ->
  exists a, block_used dev l a = false /\ data_blk dev l a /\
    run (bmap ip bn) k l = Ok (a, set_inode ip (grow_i bn a i) k, grow_l dev bn a i l).
Proof.
  intros Hk Hv Hi Hh [HS HI] Hr Hn Hbn Hs Hne.
  destruct (fo_slot _ _ _ Hi 140 ltac:(lia) Hne) as (Hd & Hu & Hl).
  change (slot i l 140) with (addr_at i 12) in *. set (b := (dev, addr_at i 12)) in *.
  assert (blk_ok l b) as Hok.
  { apply data_blk_ok; [done|]. pose proof (data_blk_size dev l Hv _ Hd). unfold data_blk in *. lia. }
  destruct (run_balloc_next (n := n) S k (hold b (lget l b) l) (volume_hold _ _ _ Hv))
    as (a & Hua & Hda & Hrun); auto.
  { by apply alloc_free_hold. }
  { by apply ready_hold. }
  { intros a Hua _. rewrite held_hold by done. apply lookup_singleton_ne. unfold b. intros [= <-].
    change (block_used dev (hold _ _ l) ?x) with (block_used dev l x) in Hua. congruence. }
  change (block_used dev (hold _ _ l) a) with (block_used dev l a) in Hua.
  change (data_blk dev (hold _ _ l) a) with (data_blk dev l a) in Hda.
  exists a. split_and!; [done|done|]. unfold bmap. run_step run_get_inode. unfold NDIRECT, NINDIRECT in *.
  rewrite (proj2 (Z.ltb_ge bn 12)) by lia. rewrite u32_small by lia. rewrite (proj2 (Z.ltb_lt _ 128)) by lia.
  rewrite (proj2 (Z.eqb_neq (addr_at i 12) 0)) by done. cbn [pbind]. rewrite (fo_dev _ _ _ Hi).
  run_step run_bread; [|by rewrite Hh]. fold b. run_step run_bdata.
  assert (get_u32 (4 * Z.to_nat (bn - 12)) (lget l b) = 0) as E.
  { unfold slot in Hs. rewrite (proj2 (Z.eqb_neq bn 140)), (proj2 (Z.ltb_ge bn 12)) in Hs by lia.
    rewrite (proj2 (Z.eqb_neq (addr_at i 12) 0)), (fo_dev _ _ _ Hi) in Hs by done. done. }
  rewrite E, Z.eqb_refl. rewrite run_assoc, (run_bind_Ok _ _ _ _ _ _ _ Hrun).
  change (alloc_state dev a (hold b (lget l b) l)) with (hold b (lget l b) (alloc_state dev a l)).
  rewrite run_assoc. run_step run_bmodify; [|by rewrite length_put_u32 by lia].
  assert (ready S n (alloc_state dev a l)) as Hr'.
  { apply ready_lput, ready_lput_in; [|done]. apply elem_of_union_r, HS. by apply data_blk_size. }
  rewrite run_assoc. run_step (run_log_write S); [|symmetry; apply Hv]. cbn [pbind].
  run_step run_brelse; [|by rewrite lget_put|by cbn; rewrite Hh]. simpl. f_equal.
  unfold grow_i, grow_l. rewrite (proj2 (Z.eqb_neq bn 140)), (proj2 (Z.ltb_ge bn 12)) by lia.
  by rewrite cached_same.
Qed.

(** Without an indirect block [bmap] first allocates it, and then does what it
    does with one. *)
Lemma bmap_indirect S n k i l bn :
  cached k ip i -> volume_ok dev l -> file_ok dev i l -> ls_held l = ∅ -> paid S i l ->
  ready S (Datatypes.S n) l -> (0 < nfree dev l)%nat -> 12 <= bn < 140 -> addr_at i 12 = 0 ->
  exists a, block_used dev l a = false /\ data_blk dev l a /\
    run (bmap ip bn) k l =
    run (bmap ip bn) (set_inode ip (grow_i 140 a i) k) (grow_l dev 140 a i l).
Proof.
  intros Hk Hv Hi Hh [HS _] Hr Hn Hbn H0.
  destruct (run_balloc_next (n := n) S k l Hv) as (a & Hu & Hd & Hrun); auto.
  { by split; intros; rewrite Hh. }
  { intros. by rewrite Hh. }
  exists a. split_and!; auto. pose proof (fo_len _ _ _ Hi) as Hlen.
  pose proof (grow_bounds dev l a Hv Hd) as Hab.
  unfold bmap. run_step run_get_inode. erewrite (run_bind_Ok (get_inode ip)); cycle 1.
  { eapply run_get_inode. by eapply cached_set. }
  unfold NDIRECT, NINDIRECT. rewrite (proj2 (Z.ltb_ge bn 12)) by lia. rewrite u32_small by lia.
  rewrite (proj2 (Z.ltb_lt _ 128)) by lia. rewrite H0, Z.eqb_refl. cbv zeta.
  change (grow_i 140 a i) with (set_addr 12 a i). rewrite addr_at_set, decide_True by (done || lia).
  rewrite (proj2 (Z.eqb_neq a 0)) by lia. change (i_dev (set_addr 12 a i)) with (i_dev i).
  rewrite (fo_dev _ _ _ Hi). rewrite run_assoc, (run_bind_Ok _ _ _ _ _ _ _ Hrun).
  rewrite run_assoc. run_step run_upd_inode. done.
Qed.

Lemma pot_grow s a i : length (i_addrs i) = 13%nat -> 0 <= s < 140 -> pot (grow_i s a i) = pot i.
Proof.
  intros Hl Hs. unfold pot, grow_i. rewrite (proj2 (Z.eqb_neq s 140)) by lia.
  destruct (Z.ltb_spec s 12); [|done]. rewrite addr_at_set by lia. by rewrite decide_False by lia.
Qed.

Lemma grow_logged s a i l : a ∈ ls_logged (grow_l dev s a i l).
Proof. unfold grow_l, alloc_state, lput. case_match; simpl; set_solver. Qed.

Lemma grow_paid S s a i l :
  volume_ok dev l -> file_ok dev i l -> 0 <= s <= 140 -> slot i l s = 0 ->
  (12 <= s < 140 -> addr_at i 12 <> 0) -> block_used dev l a = false -> data_blk dev l a ->
  paid S i l -> paid S (grow_i s a i) (grow_l dev s a i l).
Proof.
  intros Hv Hi Hs Hs0 Hind Hu Hd [HS HI].
  pose proof (grow_grown dev i l s a Hv Hi Hs Hs0 Hind Hu Hd) as Hg. split.
  - intros b Hb. rewrite (g_super _ _ _ _ _ Hg) in Hb. unfold bitmap_of. rewrite (g_super _ _ _ _ _ Hg).
    by apply HS.
  - pose proof (slot_grow dev i l s a Hv Hi Hs Hs0 Hind Hu Hd 140 ltac:(lia)) as E.
    change (slot (grow_i s a i) _ 140) with (addr_at (grow_i s a i) 12) in E. rewrite E.
    destruct (Z.eqb_spec 140 s); intros Hne.
    + apply elem_of_union_l, grow_logged.
    + change (slot i l 140) with (addr_at i 12) in *. pose proof (g_logged _ _ _ _ _ Hg). set_solver.
Qed.

(** One allocation for slot [bn], seen from [bmap]'s callers. *)
Lemma bmap_grow S n i l bn a :
  volume_ok dev l -> file_ok dev i l -> paid S i l -> ready S (Datatypes.S (n + pot i)) l ->
  (n + pot i < nfree dev l)%nat -> 0 <= bn < 140 -> slot i l bn = 0 ->
  (12 <= bn -> addr_at i 12 <> 0) -> block_used dev l a = false -> data_blk dev l a ->
  let i' := grow_i bn a i in let l' := grow_l dev bn a i l in
  a = slot i' l' bn /\ grown dev i l i' l' /\ slot i' l' bn <> 0 /\ paid S i' l' /\
  (nfree dev l + pot i' <= Datatypes.S (nfree dev l' + pot i))%nat /\ ready S (n + pot i') l' /\
  (forall d, ready S (n + pot i') (lput (dev, slot i' l' bn) d l')).
Proof.
  intros Hv Hi Hp Hr Hn Hbn Hs Hind Hu Hd i' l'.
  assert (12 <= bn < 140 -> addr_at i 12 <> 0) as Hind' by (intros; apply Hind; lia).
  assert (slot i' l' bn = a) as Ea.
  { unfold i', l'. rewrite slot_grow by (auto; lia). by rewrite Z.eqb_refl. }
  pose proof (grow_bounds dev l a Hv Hd) as Hab.
  assert (pot i' = pot i) as -> by (apply pot_grow; auto; apply Hi). split_and!.
  - done.
  - apply grow_grown; auto. lia.
  - lia.
  - apply grow_paid; auto. lia.
  - pose proof (grow_nfree i l bn a Hv Hi ltac:(lia) Hs Hind' Hu Hd). unfold l'. lia.
  - destruct Hp. apply grow_ready; auto. lia.
  - intros d. rewrite Ea. apply ready_lput_in; [apply elem_of_union_l, grow_logged|].
    destruct Hp. apply grow_ready; auto. lia.
Qed.

Lemma run_bmap S n k i l bn :
  cached k ip i -> volume_ok dev l -> file_ok dev i l -> ls_held l = ∅ -> paid S i l ->
  ready S (Datatypes.S (n + pot i)) l -> (n + pot i < nfree dev l)%nat -> 0 <= bn < 140 ->
  exists i' l', run (bmap ip bn) k l = Ok (slot i' l' bn, set_inode ip i' k, l') /\
    grown dev i l i' l' /\ slot i' l' bn <> 0 /\ paid S i' l' /\
    (nfree dev l + pot i' <= Datatypes.S (nfree dev l' + pot i))%nat /\
    ready S (n + pot i') l' /\ (forall d, ready S (n + pot i') (lput (dev, slot i' l' bn) d l')) /\
    (slot i l bn <> 0 -> i' = i).
Proof.
  intros Hk Hv Hi Hh Hp Hr Hn Hbn.
  destruct (decide (slot i l bn = 0)) as [Hs|Hs].
  2: { exists i, l. rewrite cached_same by done. split_and!; auto; [|by apply grown_refl| |].
       - apply run_bmap_hit; auto. by eapply ready_calm.
       - eapply ready_weaken; [|exact Hr]. lia.
       - intros d. by apply ready_lput. }
  destruct (decide (bn < 12)) as [Hlt|Hge].
  { destruct (bmap_direct S (n + pot i) k i l bn) as (a & Hu & Hd & Hrun); auto; try lia.
    destruct (bmap_grow S n i l bn a) as (Ea & ? & ? & ? & ? & ? & ?); auto; [lia|].
    exists (grow_i bn a i), (grow_l dev bn a i l). rewrite <- Ea at 1. split_and!; done. }
  destruct (decide (addr_at i 12 = 0)) as [H0|H0].
  2: { destruct (bmap_entry S (n + pot i) k i l bn) as (a & Hu & Hd & Hrun); auto; try lia.
       destruct (bmap_grow S n i l bn a) as (Ea & ? & ? & ? & ? & ? & ?); auto.
       exists (grow_i bn a i), (grow_l dev bn a i l). rewrite <- Ea at 1. split_and!; done. }
  destruct (bmap_indirect S (n + pot i) k i l bn) as (a & Hu & Hd & Hrun); auto; try lia.
  assert (12 <= 140 < 140 -> addr_at i 12 <> 0) as Hvac by lia.
  pose proof (grow_grown dev i l 140 a Hv Hi ltac:(lia) H0 Hvac Hu Hd) as Hg.
  pose proof (slot_grow dev i l 140 a Hv Hi ltac:(lia) H0 Hvac Hu Hd) as Hsl.
  set (i1 := grow_i 140 a i) in *. set (l1 := grow_l dev 140 a i l) in *.
  pose proof (grow_bounds dev l a Hv Hd) as Hab.
  assert (addr_at i1 12 = a) as Ea by (apply (Hsl 140); lia).
  assert (pot i = 1%nat) as Epi by (unfold pot; by rewrite H0).
  assert (pot i1 = 0%nat) as Ep1 by (unfold pot; rewrite Ea, (proj2 (Z.eqb_neq a 0)) by lia; done).
  assert (paid S i1 l1) as Hp1 by (apply grow_paid; auto; lia).
  assert (nfree dev l = Datatypes.S (nfree dev l1)) as Hn1 by (apply grow_nfree; auto; lia).
  assert (ready S (Datatypes.S n) l1) as Hr1.
  { destruct Hp. apply grow_ready; auto; [lia|]. eapply ready_weaken; [|exact Hr]. lia. }
  assert (slot i1 l1 bn = 0) as Hs1 by (rewrite Hsl by lia; by rewrite (proj2 (Z.eqb_neq bn 140)) by lia).
  destruct (bmap_entry S n (set_inode ip i1 k) i1 l1 bn) as (a2 & Hu2 & Hd2 & Hrun2);
    [by eapply cached_set|apply Hg|apply Hg|by rewrite (g_held _ _ _ _ _ Hg)|done|done|lia|lia|done|lia|].
  destruct (bmap_grow S n i1 l1 bn a2) as (Ea2 & Hg2 & Hne2 & Hp2 & Hn2 & Hr2 & Hr3);
    [apply Hg|apply Hg|done|by rewrite Ep1, Nat.add_0_r|lia|lia|done|lia|done|done|].
  exists (grow_i bn a2 i1), (grow_l dev bn a2 i1 l1). rewrite <- Ea2 at 1. split_and!; try done.
  - rewrite Hrun, Hrun2. by rewrite set_set.
  - by eapply grown_trans.
  - lia.
Qed.
End Bmap.

(** ** Reading *)

Lemma fdata_app i l off m n : 0 <= m -> 0 <= n -> fdata i l off (m + n) = fdata i l off m ++ fdata i l (off + m) n.
Proof. intros. unfold fdata. by rewrite seqZ_app, map_app. Qed.

Lemma length_fdata i l off n : length (fdata i l off n) = Z.to_nat n.
Proof. unfold fdata. by rewrite length_map, length_seqZ. Qed.

Lemma lookup_fdata i l off n j :
  (j < Z.to_nat n)%nat -> fdata i l off n !! j = Some (fbyte i l (off + Z.of_nat j)).
Proof. intros Hj. unfold fdata. rewrite list_lookup_fmap. rewrite lookup_seqZ_lt by lia. done. Qed.

(** Bytes within one block. *)
Lemma fdata_block dev i l off m :
  file_ok dev i l -> 0 <= off < 140 * 512 -> 0 <= m -> off mod 512 + m <= 512 -> slot i l (off / 512) <> 0 ->
  slice (Z.to_nat (off mod 512)) (Z.to_nat m) (lget l (dev, slot i l (off / 512))) = fdata i l off m.
Proof.
  intros Hi Hoff Hm Hb Hs. destruct (fo_slot _ _ _ Hi (off / 512) ltac:(lia) Hs) as (_ & _ & Hl).
  apply list_eq. intros j. rewrite lookup_slice. case_decide as Hj.
  - rewrite lookup_fdata by done. unfold fbyte.
    replace ((off + Z.of_nat j) / 512) with (off / 512) by lia.
    rewrite (proj2 (Z.eqb_neq _ 0)) by done. rewrite (fo_dev _ _ _ Hi).
    replace (Z.to_nat ((off + Z.of_nat j) mod 512)) with (Z.to_nat (off mod 512) + j)%nat by lia.
    destruct (lookup_lt_is_Some_2 (lget l (dev, slot i l (off / 512))) (Z.to_nat (off mod 512) + j))
      as [c Hc]; [lia|]. rewrite Hc. f_equal. symmetry. by apply nth_lookup_Some.
  - symmetry. apply lookup_ge_None. rewrite length_fdata. lia.
Qed.

(** Blocks a transfer of [rem] bytes from [off] goes through. *)
Definition blocks_left (off rem : Z) : nat :=
  Z.to_nat (if rem =? 0 then 0 else (off mod 512 + rem + 511) / 512).

Definition chunk (off rem : Z) : Z := Z.min rem (512 - off mod 512).

Lemma chunk_range off rem : 0 <= off -> 0 < rem -> 0 < chunk off rem <= rem /\ off mod 512 + chunk off rem <= 512.
Proof. unfold chunk. lia. Qed.

Lemma blocks_left_step off rem :
  0 <= off -> 0 < rem -> S (blocks_left (off + chunk off rem) (rem - chunk off rem)) = blocks_left off rem.
Proof.
  intros Ho Hr. unfold blocks_left, chunk. rewrite (proj2 (Z.eqb_neq rem 0)) by lia.
  destruct (Z.eqb_spec (rem - Z.min rem (512 - off mod 512)) 0); lia.
Qed.

Section ReadWrite.
Context `{DevSw} (dev : Z) (ip : nat).

(** The loop body of [sfs_readi]. *)
Definition readi_body (n : Z) : Z * Z * list Z -> fsprog (Z * Z * list Z + list Z) :=
    fun '(tot, off, dst) =>
      if negb (tot <? n) then Ret (inr dst)
      else
        a <- bmap ip (off / SFS_BSIZE);;
        sin <- get_inode ip;;
        bp <- bread (i_dev sin) a;;
        let m := Z.min (u32 (n - tot)) (SFS_BSIZE - off mod SFS_BSIZE) in
        d <- bdata bp;;
        brelse bp;;;
        Ret (inl (u32 (tot + m), u32 (off + m),
                  dst ++ slice (Z.to_nat (off mod SFS_BSIZE)) (Z.to_nat m) d)).

Lemma readi_loop fuel k i l n off0 tot :
  cached k ip i -> volume_ok dev l -> file_ok dev i l -> ls_held l = ∅ -> calm l ->
  0 <= off0 -> 0 <= tot <= n -> off0 + n <= i_size i ->
  (blocks_left (off0 + tot) (n - tot) < fuel)%nat ->
  run (while_fuel fuel (readi_body n) (tot, off0 + tot, fdata i l off0 tot)) k l = Ok (fdata i l off0 n, k, l).
Proof.
  intros Hk Hv Hi Hh Hc Hoff. revert tot. induction fuel as [|fuel IH]; intros tot Ht Hn Hf; [lia|].
  cbn [while_fuel]. unfold readi_body at 1, SFS_BSIZE. pose proof (fo_size _ _ _ Hi) as Hsz.
  destruct (Z.ltb_spec tot n) as [Hlt|Hge]; simpl negb; cbv iota.
  2: { simpl. by replace tot with n by lia. }
  set (off := off0 + tot) in *. set (m := chunk off (n - tot)).
  pose proof (chunk_range off (n - tot) ltac:(lia) ltac:(lia)) as Hm. fold m in Hm.
  assert (slot i l (off / 512) <> 0) as Hs by (apply (fo_full _ _ _ Hi); lia).
  destruct (fo_slot _ _ _ Hi (off / 512) ltac:(lia) Hs) as (Hd & _ & _).
  rewrite !run_assoc. run_step run_bmap_hit; [|lia]. rewrite run_assoc. run_step run_get_inode.
  rewrite (fo_dev _ _ _ Hi), run_assoc. run_step run_bread; [| |by rewrite Hh].
  2: { apply data_blk_ok; [done|]. pose proof (data_blk_size _ _ Hv _ Hd). unfold data_blk in Hd. lia. }
  rewrite run_assoc. run_step run_bdata. rewrite run_assoc. run_step run_brelse; [|by rewrite Hh].
  cbn [pbind]. rewrite (u32_small (n - tot)) by lia. fold (chunk off (n - tot)). fold m.
  rewrite fdata_block by (auto; lia). rewrite !u32_small by lia.
  unfold off at 2. rewrite <- fdata_app by lia. replace (off + m) with (off0 + (tot + m)) by lia.
  apply IH; [lia|lia|]. pose proof (blocks_left_step off (n - tot) ltac:(lia) ltac:(lia)) as Hb. fold m in Hb.
  replace (off0 + (tot + m)) with (off + m) by lia. replace (n - (tot + m)) with (n - tot - m) by lia. lia.
Qed.

Lemma blocks_fuel off n : 0 <= off -> 0 <= n -> (blocks_left off n < Z.to_nat (n / SFS_BSIZE) + 3)%nat.
Proof. intros. unfold blocks_left, SFS_BSIZE. destruct (n =? 0); lia. Qed.

Lemma run_readi k i l off n :
  cached k ip i -> volume_ok dev l -> file_ok dev i l -> ls_held l = ∅ -> calm l ->
  i_type i <> T_DEV -> uint_range off -> uint_range n ->
  run (sfs_readi ip off n) k l =
    if (i_size i <? off) || (2 ^ 32 <=? off + n) then Ok ((-1, []), k, l)
    else let m := Z.min n (i_size i - off) in Ok ((m, fdata i l off m), k, l).
Proof.
  intros Hk Hv Hi Hh Hc Ht Ho Hn. unfold sfs_readi. run_step run_get_inode.
  rewrite (proj2 (Z.eqb_neq _ T_DEV)) by done. unfold uint_range in *. pose proof (fo_size _ _ _ Hi) as Hsz.
  destruct (Z.ltb_spec (i_size i) off) as [|Hle]; [done|]. simpl orb.
  destruct (Z.leb_spec (2 ^ 32) (off + n)) as [Hw|Hw].
  { rewrite (proj2 (Z.ltb_lt (u32 (off + n)) off)) by (unfold u32; lia). done. }
  rewrite (u32_small (off + n)) by lia. rewrite (proj2 (Z.ltb_ge (off + n) off)) by lia. cbv zeta iota.
  set (m := Z.min n (i_size i - off)).
  assert ((if i_size i <? off + n then u32 (i_size i - off) else n) = m) as ->.
  { unfold m. destruct (Z.ltb_spec (i_size i) (off + n)); [rewrite u32_small|]; lia. }
  change (while_fuel _ _ (0, off, [])) with (while_fuel (Z.to_nat (m / SFS_BSIZE) + 3) (readi_body m) (0, off, [])).
  replace off with (off + 0) at 1 by lia. change [] with (fdata i l off 0) at 1.
  rewrite (run_bind_Ok _ _ _ _ (fdata i l off m) k l).
  2: { apply readi_loop; auto; try lia. rewrite Z.sub_0_r, Z.add_0_r. apply blocks_fuel; lia. }
  simpl. by rewrite s32_small by lia.
Qed.

(** ** Writing *)

(** New contents for a data block of the file. *)
Section Store.
Context (i : inode) (l : lstore) (bn : Z) (d : block).
Hypothesis Hv : volume_ok dev l.
Hypothesis Hi : file_ok dev i l.
Hypothesis Hbn : 0 <= bn < 140.
Hypothesis Hs : slot i l bn <> 0.
Hypothesis Hd : length d = 512%nat.
Let l' := lput (dev, slot i l bn) d l.

Lemma store_slot s : 0 <= s <= 140 -> slot i l' s = slot i l s.
Proof.
  intros Hs'. unfold slot. destruct (s =? 140); [done|]. destruct (s <? 12); [done|].
  destruct (Z.eqb_spec (addr_at i 12) 0) as [|H0]; [done|]. rewrite (fo_dev _ _ _ Hi). unfold l'.
  rewrite lget_put_ne; [done|]. intros [= E]. assert (bn = 140); [|lia].
  by apply (fo_inj _ _ _ Hi); [lia|lia|rewrite E|].
Qed.

Lemma store_meta x :
  x = (dev, 1) \/ (exists b, 0 <= b < sb_size (super_of dev l) /\ x = bitmap_of dev b l) -> lget l' x = lget l x.
Proof.
  destruct (fo_slot _ _ _ Hi bn ltac:(lia) Hs) as (Hdb & _ & _).
  destruct (data_not_meta _ _ _ Hv (proj1 Hdb)) as [H1 H2]. intros Hx. unfold l'. apply lget_put_ne.
  destruct Hx as [->|(b & Hb & ->)]; [congruence|by apply H2].
Qed.

Lemma store_super : super_of dev l' = super_of dev l.
Proof. unfold super_of. by rewrite store_meta by (by left). Qed.

Lemma store_bitmap b : bitmap_of dev b l' = bitmap_of dev b l.
Proof. unfold bitmap_of. by rewrite store_super. Qed.

Lemma store_used b : 0 <= b < sb_size (super_of dev l) -> block_used dev l' b = block_used dev l b.
Proof. intros Hb. unfold block_used. rewrite store_bitmap. by rewrite store_meta by eauto. Qed.

Lemma store_volume : volume_ok dev l'.
Proof.
  split; rewrite ?store_super; try apply Hv.
  - intros b Hb. rewrite store_bitmap. split; [by apply Hv|]. rewrite store_meta by eauto. by apply Hv.
  - intros b Hb. rewrite store_used by done. unfold meta_end. rewrite store_super. by apply (vo_meta _ _ Hv).
Qed.

Lemma store_data_blk a : data_blk dev l' a <-> data_blk dev l a.
Proof. unfold data_blk, meta_end. by rewrite store_super. Qed.

Lemma store_file : file_ok dev i l'.
Proof.
  split; try apply Hi.
  - intros s Hs'. rewrite store_slot, store_data_blk by done. intros Hne.
    destruct (fo_slot _ _ _ Hi s Hs' Hne) as (Ha & Hu & Hl). split_and!; [done| |].
    + rewrite store_used; [done|by eapply data_blk_size].
    + unfold l'. destruct (decide (slot i l s = slot i l bn)) as [->|]; [by rewrite lget_put|].
      by rewrite lget_put_ne by congruence.
  - intros s s' H1 H2. rewrite !store_slot by done. by apply (fo_inj _ _ _ Hi).
  - intros s H1 H2. rewrite store_slot by lia. by apply (fo_full _ _ _ Hi).
Qed.

Lemma store_fbyte x : 0 <= x < 140 * 512 ->
  fbyte i l' x = if x / 512 =? bn then nth (Z.to_nat (x mod 512)) d 0 else fbyte i l x.
Proof.
  intros Hx. unfold fbyte. rewrite store_slot, (fo_dev _ _ _ Hi) by lia.
  destruct (Z.eqb_spec (x / 512) bn) as [->|Hne].
  - rewrite (proj2 (Z.eqb_neq _ 0)) by done. unfold l'. by rewrite lget_put.
  - destruct (Z.eqb_spec (slot i l (x / 512)) 0) as [|H0]; [done|]. unfold l'. rewrite lget_put_ne; [done|].
    intros [= E]. apply Hne. by apply (fo_inj _ _ _ Hi); [lia|lia| |].
Qed.

Lemma store_foreign x : foreign dev i l x -> foreign dev i l' x /\ lget l' x = lget l x.
Proof.
  intros (H1 & H2 & H3). split; [|unfold l'; rewrite lget_put_ne; [done|]; symmetry; apply H2; [lia|done]].
  split_and!.
  - intros b. rewrite store_super, store_bitmap. apply H1.
  - intros s Hs'. rewrite store_slot by done. by apply H2.
  - intros a. rewrite store_data_blk. intros Ha. rewrite store_used; [by apply H3|by eapply data_blk_size].
Qed.

Lemma store_nfree : nfree dev l' = nfree dev l.
Proof.
  unfold nfree, free_list. f_equal. apply filter_ext_in. intros b Hb%elem_of_seqZ.
  rewrite store_used; [done|]. pose proof (vo_log _ _ Hv). unfold l' in Hb. simpl in Hb. lia.
Qed.

Lemma store_paid S : paid dev S i l -> paid dev S i l'.
Proof.
  intros [H1 H2]. split.
  - intros b. rewrite store_super, store_bitmap. apply H1.
  - intros H0. specialize (H2 H0). unfold l'. simpl. set_solver.
Qed.
End Store.

(** [tot] bytes of [src] have been written from [off] on. *)
Record written (i : inode) (l : lstore) (off tot : Z) (src : list Z) (i' : inode) (l' : lstore) : Prop := {
  w_vol : volume_ok dev l';
  w_file : file_ok dev i' l';
  w_fields : i' = set_i_addrs (i_addrs i') i;
  w_geom : ls_geom l' = ls_geom l;
  w_held : ls_held l' = ls_held l;
  w_durable : ls_durable l' = ls_durable l;
  w_super : super_of dev l' = super_of dev l;
  w_byte : forall x, 0 <= x < 140 * 512 ->
    fbyte i' l' x = if (off <=? x) && (x <? off + tot) then nth (Z.to_nat (x - off)) src 0 else fbyte i l x;
  w_slot : forall s, 0 <= s <= 140 -> slot i l s <> 0 -> slot i' l' s = slot i l s;
  w_full : forall s, 0 <= s < 140 -> off / 512 <= s -> s * 512 < off + tot -> slot i' l' s <> 0;
  w_other : forall x, foreign dev i l x -> foreign dev i' l' x /\ lget l' x = lget l x;
  w_fixed : off + tot <= i_size i -> i' = i;
}.

Lemma written_nil i l off src :
  volume_ok dev l -> file_ok dev i l -> 0 <= off <= i_size i -> written i l off 0 src i l.
Proof.
  intros Hv Hi Ho. split; auto.
  - by rewrite set_addrs_same.
  - intros x Hx. destruct (Z.leb_spec off x), (Z.ltb_spec x (off + 0)); simpl; try done; lia.
  - intros s Hs H1 H2. apply (fo_full _ _ _ Hi); lia.
Qed.

(** One more block: allocate it if needed, then store. *)
Lemma written_step i0 l0 off tot src i l i' l' m :
  written i0 l0 off tot src i l -> grown dev i l i' l' -> 0 <= off -> 0 <= tot ->
  let o := off + tot in
  0 < m -> o mod 512 + m <= 512 -> o + m <= 140 * 512 -> slot i' l' (o / 512) <> 0 ->
  tot + m <= Z.of_nat (length src) -> (slot i l (o / 512) <> 0 -> i' = i) ->
  let b := (dev, slot i' l' (o / 512)) in
  written i0 l0 off (tot + m) src i'
    (lput b (splice (Z.to_nat (o mod 512)) (take (Z.to_nat m) (drop (Z.to_nat tot) src)) (lget l' b)) l').
Proof.
  intros Hw Hg Ho Ht o Hm Hmb Hmax Hs Hlen Hfix b.
  pose proof (g_vol _ _ _ _ _ Hg) as Hv. pose proof (g_file _ _ _ _ _ Hg) as Hi.
  destruct (fo_slot _ _ _ Hi (o / 512) ltac:(lia) Hs) as (_ & _ & Hl). fold b in Hl.
  set (c := take (Z.to_nat m) (drop (Z.to_nat tot) src)).
  assert (length c = Z.to_nat m) as Hc by (unfold c; rewrite length_take, length_drop; lia).
  set (d := splice (Z.to_nat (o mod 512)) c (lget l' b)).
  assert (length d = 512%nat) as Hd by (unfold d; rewrite length_splice; lia).
  assert (0 <= o / 512 < 140) as Hbn by lia. split.
  - by apply (store_volume i').
  - by apply store_file.
  - rewrite (g_fields _ _ _ _ _ Hg) at 1. by rewrite (w_fields _ _ _ _ _ _ _ Hw).
  - simpl. rewrite (g_geom _ _ _ _ _ Hg). apply Hw.
  - simpl. rewrite (g_held _ _ _ _ _ Hg). apply Hw.
  - simpl. rewrite (g_durable _ _ _ _ _ Hg). apply Hw.
  - unfold b. rewrite (store_super i' l' (o / 512)) by done. rewrite (g_super _ _ _ _ _ Hg). apply Hw.
  - intros x Hx. unfold b. rewrite (store_fbyte i' l') by done.
    rewrite (g_byte _ _ _ _ _ Hg), (w_byte _ _ _ _ _ _ _ Hw) by done.
    destruct (Z.eqb_spec (x / 512) (o / 512)) as [E|Hne].
    + unfold d. rewrite nth_lookup, lookup_splice by lia. case_decide as Hin.
      * unfold c. rewrite lookup_take_lt, lookup_drop by lia. rewrite <- nth_lookup.
        replace ((off <=? x) && (x <? off + (tot + m))) with true by (unfold o in *; lia).
        f_equal. unfold o in *. lia.
      * rewrite <- nth_lookup.
        replace ((off <=? x) && (x <? off + (tot + m))) with ((off <=? x) && (x <? off + tot))
          by (unfold o in *; lia).
        rewrite <- (w_byte _ _ _ _ _ _ _ Hw), <- (g_byte _ _ _ _ _ Hg) by done. unfold fbyte. rewrite E.
        rewrite (proj2 (Z.eqb_neq _ 0)) by done. by rewrite (fo_dev _ _ _ Hi).
    + replace ((off <=? x) && (x <? off + (tot + m))) with ((off <=? x) && (x <? off + tot)); [done|].
      unfold o in *. lia.
  - intros s Hs' H0. unfold b. rewrite (store_slot i' l') by done.
    rewrite <- (w_slot _ _ _ _ _ _ _ Hw s Hs' H0). apply (g_slot _ _ _ _ _ Hg); [done|].
    by rewrite (w_slot _ _ _ _ _ _ _ Hw s Hs' H0).
  - intros s Hs' H1 H2. unfold b. rewrite (store_slot i' l') by (auto; lia).
    destruct (decide (s = o / 512)) as [->|Hne]; [done|].
    assert (slot i l s <> 0) as H3 by (apply (w_full _ _ _ _ _ _ _ Hw); unfold o in *; lia).
    rewrite (g_slot _ _ _ _ _ Hg); [done|lia|done].
  - intros x Hx. destruct (w_other _ _ _ _ _ _ _ Hw x Hx) as [Hx1 E1].
    destruct (g_other _ _ _ _ _ Hg x Hx1) as [Hx2 E2].
    destruct (store_foreign i' l' (o / 512) d Hv Hi Hbn Hs Hd x Hx2) as [Hx3 E3]. split; [done|].
    unfold b. congruence.
  - intros Hle. pose proof (w_fixed _ _ _ _ _ _ _ Hw ltac:(lia)) as ->. apply Hfix.
    apply (fo_full _ _ _ (w_file _ _ _ _ _ _ _ Hw)); unfold o in *; lia.
Qed.

(** The loop body of [sfs_writei]. *)
Definition writei_body (n : Z) : Z * Z * list Z -> fsprog (Z * Z * list Z + Z) :=
    fun '(tot, off, src) =>
      if negb (tot <? n) then Ret (inr off)
      else
        a <- bmap ip (off / SFS_BSIZE);;
        sin <- get_inode ip;;
        bp <- bread (i_dev sin) a;;
        let m := Z.min (u32 (n - tot)) (SFS_BSIZE - off mod SFS_BSIZE) in
        (if Z.of_nat (length src) <? m then undef "read outside the source buffer"
         else bmodify bp (splice (Z.to_nat (off mod SFS_BSIZE)) (take (Z.to_nat m) src)));;;
        log_write_ bp;;;
        brelse bp;;;
        Ret (inl (u32 (tot + m), u32 (off + m), drop (Z.to_nat m) src)).

(** One iteration. *)
Lemma writei_iter S c k i0 l0 i l n off0 src tot :
  let off := off0 + tot in let m := chunk off (n - tot) in
  cached k ip i -> ls_held l = ∅ -> written i0 l0 off0 tot src i l -> paid dev S i l ->
  ready S (Datatypes.S (c + pot i)) l -> (c + pot i < nfree dev l)%nat ->
  0 <= off0 -> 0 <= tot < n -> off0 + n <= 140 * 512 -> n <= Z.of_nat (length src) ->
  exists i' l', run (writei_body n (tot, off, drop (Z.to_nat tot) src)) k l =
      Ok (inl (tot + m, off + m, drop (Z.to_nat (tot + m)) src), set_inode ip i' k, l') /\
    written i0 l0 off0 (tot + m) src i' l' /\ ls_held l' = ∅ /\ paid dev S i' l' /\
    (nfree dev l + pot i' <= Datatypes.S (nfree dev l' + pot i))%nat /\ ready S (c + pot i') l'.
Proof.
  intros off m Hk Hh Hw Hp Hr Hn Ho Ht Hmax Hsrc.
  pose proof (chunk_range off (n - tot) ltac:(lia) ltac:(lia)) as Hm. fold m in Hm.
  destruct (run_bmap dev ip S c k i l (off / 512)) as (i' & l' & Hrun & Hg & Hs & Hp' & Hn' & Hrl & Hr' & Hfix);
    [done|apply Hw|apply Hw|done|done|done|done|lia|].
  pose proof (g_vol _ _ _ _ _ Hg) as Hv'. pose proof (g_file _ _ _ _ _ Hg) as Hi'.
  destruct (fo_slot _ _ _ Hi' (off / 512) ltac:(lia) Hs) as (Hd & _ & Hl).
  set (b := (dev, slot i' l' (off / 512))) in *.
  assert (ls_held l' = ∅) as Hh' by (rewrite (g_held _ _ _ _ _ Hg); done).
  set (d := splice (Z.to_nat (off mod 512)) (take (Z.to_nat m) (drop (Z.to_nat tot) src)) (lget l' b)).
  assert (length d = 512%nat) as Hd512
    by (unfold d; rewrite length_splice; [done|rewrite length_take, length_drop; lia]).
  exists i', (lput b d l'). split_and!.
  - unfold writei_body, SFS_BSIZE. rewrite (proj2 (Z.ltb_lt tot n)) by lia. simpl negb. cbv iota.
    rewrite (run_bind_Ok _ _ _ _ _ _ _ Hrun). run_step run_get_inode; [|by eapply cached_set].
    rewrite (fo_dev _ _ _ Hi'). run_step run_bread; [| |by rewrite Hh'].
    2: { apply data_blk_ok; [done|]. pose proof (data_blk_size _ _ Hv' _ Hd). unfold data_blk in Hd. lia. }
    fold b. cbv zeta. rewrite (u32_small (n - tot)) by lia. fold (chunk off (n - tot)). fold m.
    rewrite length_drop. rewrite (proj2 (Z.ltb_ge _ m)) by lia.
    run_step run_bmodify. fold d. run_step (run_log_write S); [|by rewrite (vo_dev _ _ Hv')].
    run_step run_brelse; [|by rewrite lget_put|by cbn; rewrite Hh']. simpl.
    rewrite !u32_small by lia. by rewrite drop_drop, <- Z2Nat.inj_add by lia.
  - eapply written_step; eauto; unfold off in *; lia.
  - done.
  - apply store_paid; auto. lia.
  - unfold b. rewrite store_nfree; auto. lia.
  - apply Hr'.
Qed.

Lemma writei_loop fuel S k i0 l0 i l n off0 src tot :
  cached k ip i -> ls_held l = ∅ -> written i0 l0 off0 tot src i l -> paid dev S i l ->
  ready S (blocks_left (off0 + tot) (n - tot) + pot i) l ->
  (blocks_left (off0 + tot) (n - tot) + pot i <= nfree dev l)%nat ->
  0 <= off0 -> 0 <= tot <= n -> off0 + n <= 140 * 512 -> n <= Z.of_nat (length src) ->
  (blocks_left (off0 + tot) (n - tot) < fuel)%nat ->
  exists i' l',
    run (while_fuel fuel (writei_body n) (tot, off0 + tot, drop (Z.to_nat tot) src)) k l =
      Ok (off0 + n, set_inode ip i' k, l') /\
    written i0 l0 off0 n src i' l' /\ ls_held l' = ∅ /\ paid dev S i' l' /\ ready S (pot i') l' /\
    (nfree dev l + pot i' <= nfree dev l' + pot i + blocks_left (off0 + tot) (n - tot))%nat.
Proof.
  intros Hk Hh Hw Hp Hr Hn Ho Ht Hmax Hsrc. revert k i l tot Hk Hh Hw Hp Hr Hn Ht.
  induction fuel as [|fuel IH]; intros k i l tot Hk Hh Hw Hp Hr Hn Ht Hf; [lia|]. cbn [while_fuel].
  destruct (decide (tot = n)) as [->|Hne].
  { exists i, l. unfold writei_body at 1. rewrite (proj2 (Z.ltb_ge n n)) by lia. simpl. rewrite set_self by done.
    split_and!; auto; [|lia]. rewrite Z.sub_diag in Hr. done. }
  pose proof (blocks_left_step (off0 + tot) (n - tot) ltac:(lia) ltac:(lia)) as Hb. rewrite <- Hb in Hr, Hn, Hf.
  destruct (writei_iter S _ k i0 l0 i l n off0 src tot Hk Hh Hw Hp Hr) as
    (i1 & l1 & Hrun & Hw1 & Hh1 & Hp1 & Hn1 & Hr1); try lia.
  rewrite (run_bind_Ok _ _ _ _ _ _ _ Hrun). cbv iota.
  set (m := chunk (off0 + tot) (n - tot)) in *.
  pose proof (chunk_range (off0 + tot) (n - tot) ltac:(lia) ltac:(lia)) as Hm. fold m in Hm.
  replace (off0 + tot + m) with (off0 + (tot + m)) in * by lia. replace (n - tot - m) with (n - (tot + m)) in * by lia.
  destruct (IH (set_inode ip i1 k) i1 l1 (tot + m)) as (i2 & l2 & Hrun2 & Hw2 & Hh2 & Hp2 & Hr2 & Hn2);
    auto; try lia.
  { by eapply cached_set. }
  exists i2, l2. rewrite set_set in Hrun2. split_and!; auto. lia.
Qed.

(** ** The inode's own block *)

Record iblock_ok (i : inode) (l : lstore) : Prop := {
  ib_num : 0 <= i_inum i < sb_ninodes (super_of dev l);
  ib_range : sb_ninodes (super_of dev l) < 2 ^ 32;
  ib_blk : blk_ok l (dev, IBLOCK (i_inum i));
  ib_len : length (lget l (dev, IBLOCK (i_inum i))) = 512%nat;
}.

Lemma iblock_lt i l b : iblock_ok i l -> 2 <= IBLOCK (i_inum i) < BBLOCK b (sb_ninodes (super_of dev l)).
Proof.
  intros [Hn Hr _ _]. pose proof (u32_range b). unfold IBLOCK, BBLOCK, IPB, SFSBPB.
  rewrite (u32_small (i_inum i)), (u32_small (sb_ninodes _)) by lia. rewrite !u32_small by lia. lia.
Qed.

Lemma iblock_foreign i j l : volume_ok dev l -> file_ok dev j l -> iblock_ok i l -> foreign dev j l (dev, IBLOCK (i_inum i)).
Proof.
  intros Hv Hj Hi. split_and!.
  - intros b Hb E%(f_equal snd). cbn [bitmap_of snd] in E. pose proof (iblock_lt i l b Hi). lia.
  - intros s Hs Hne [= E]. destruct (fo_slot _ _ _ Hj s Hs Hne) as (Hd & _). unfold data_blk, meta_end in Hd.
    pose proof (iblock_lt i l (sb_size (super_of dev l) - 1) Hi). lia.
  - intros a Ha _ [= E]. unfold data_blk, meta_end in Ha.
    pose proof (iblock_lt i l (sb_size (super_of dev l) - 1) Hi). lia.
Qed.

Lemma iblock_not_super i l : iblock_ok i l -> (dev, IBLOCK (i_inum i)) <> (dev, 1).
Proof. intros Hi [= E]. pose proof (iblock_lt i l 0 Hi). lia. Qed.

Section Foreign.
Context (i : inode) (l : lstore) (x : bufkey) (d : block).
Hypothesis Hv : volume_ok dev l.
Hypothesis Hi : file_ok dev i l.
Hypothesis Hx : foreign dev i l x.
Hypothesis Hx1 : x <> (dev, 1).

Lemma foreign_slot s : 0 <= s <= 140 -> slot i (lput x d l) s = slot i l s.
Proof.
  intros Hs. unfold slot. destruct (s =? 140); [done|]. destruct (s <? 12); [done|].
  destruct (Z.eqb_spec (addr_at i 12) 0) as [|H0]; [done|]. rewrite (fo_dev _ _ _ Hi), lget_put_ne; [done|].
  destruct Hx as (_ & H2 & _). apply (H2 140); [lia|done].
Qed.

Lemma foreign_get s : 0 <= s <= 140 -> slot i l s <> 0 -> lget (lput x d l) (dev, slot i l s) = lget l (dev, slot i l s).
Proof. intros Hs Hne. destruct Hx as (_ & H2 & _). rewrite lget_put_ne; [done|by apply H2]. Qed.

Lemma foreign_used b : 0 <= b < sb_size (super_of dev l) -> block_used dev (lput x d l) b = block_used dev l b.
Proof. intros Hb. destruct Hx as (H1 & _). apply used_lput; [done|by apply H1]. Qed.

Lemma foreign_volume : volume_ok dev (lput x d l).
Proof.
  split; rewrite ?super_lput by done; try apply Hv.
  - intros b Hb. rewrite bitmap_lput by done. split; [by apply Hv|].
    destruct Hx as (H1 & _). rewrite lget_put_ne by (by apply H1). by apply Hv.
  - intros b Hb. rewrite foreign_used by done. unfold meta_end. rewrite super_lput by done. by apply (vo_meta _ _ Hv).
Qed.

Lemma foreign_file : file_ok dev i (lput x d l).
Proof.
  split; try apply Hi.
  - intros s Hs. rewrite foreign_slot by done. intros Hne. destruct (fo_slot _ _ _ Hi s Hs Hne) as (Ha & Hu & Hl).
    unfold data_blk, meta_end. rewrite super_lput, foreign_get by done. split_and!; try done; try apply Ha.
    rewrite foreign_used; [done|by eapply data_blk_size].
  - intros s s' H1 H2. rewrite !foreign_slot by done. by apply (fo_inj _ _ _ Hi).
  - intros s H1 H2. rewrite foreign_slot by lia. by apply (fo_full _ _ _ Hi).
Qed.

Lemma foreign_foreign y : foreign dev i l y -> foreign dev i (lput x d l) y.
Proof.
  intros (H1 & H2 & H3). split_and!.
  - intros b. rewrite super_lput, bitmap_lput by done. apply H1.
  - intros s Hs. rewrite foreign_slot by done. by apply H2.
  - intros a Ha. unfold data_blk, meta_end in Ha. rewrite super_lput in Ha by done.
    rewrite foreign_used; [by apply H3|by eapply data_blk_size].
Qed.

Lemma foreign_nfree : nfree dev (lput x d l) = nfree dev l.
Proof.
  unfold nfree, free_list. f_equal. apply filter_ext_in. intros b Hb%elem_of_seqZ.
  rewrite foreign_used; [done|]. pose proof (vo_log _ _ Hv). simpl in Hb. lia.
Qed.

Lemma foreign_fbyte y : 0 <= y < 140 * 512 -> fbyte i (lput x d l) y = fbyte i l y.
Proof.
  intros Hy. unfold fbyte. rewrite foreign_slot, (fo_dev _ _ _ Hi) by lia.
  destruct (Z.eqb_spec (slot i l (y / 512)) 0) as [|H0]; [done|]. by rewrite foreign_get by lia.
Qed.
End Foreign.

(** The state after [sfs_iupdate]. *)
Definition iupdate_state (i : inode) (l : lstore) : lstore :=
  let b := (dev, IBLOCK (i_inum i)) in lput b (put_dinode (i_inum i) (inode_dinode i) (lget l b)) l.

Lemma run_iupdate {n} S k i l :
  cached k ip i -> volume_ok dev l -> file_ok dev i l -> iblock_ok i l -> ls_held l = ∅ -> ready S n l ->
  run (sfs_iupdate ip) k l = Ok (tt, k, iupdate_state i l).
Proof.
  intros Hk Hv Hi Hb Hh Hr. unfold sfs_iupdate, iupdate_state. run_step run_get_inode. rewrite (fo_dev _ _ _ Hi).
  run_step run_bread; [|apply Hb|by rewrite Hh].
  run_step run_bmodify; [|apply length_put_dinode; [apply Hi|apply Hb]].
  run_step (run_log_write S); [|by rewrite (vo_dev _ _ Hv)].
  apply run_brelse; [by rewrite lget_put|by cbn; rewrite Hh].
Qed.

Lemma slot_fields i i' l s : i_dev i' = i_dev i -> i_addrs i' = i_addrs i -> slot i' l s = slot i l s.
Proof. intros E1 E2. unfold slot, addr_at. by rewrite E1, E2. Qed.

Lemma fbyte_fields i i' l x : i_dev i' = i_dev i -> i_addrs i' = i_addrs i -> fbyte i' l x = fbyte i l x.
Proof. intros E1 E2. unfold fbyte. rewrite (slot_fields i i') by done. by rewrite E1. Qed.

Lemma foreign_size i l v x : foreign dev i l x -> foreign dev (set_i_size v i) l x.
Proof. done. Qed.

(** Growing the size over blocks that exist. *)
Lemma resize_file i l v :
  file_ok dev i l -> 0 <= v <= 140 * 512 -> (forall s, 0 <= s < 140 -> s * 512 < v -> slot i l s <> 0) ->
  file_ok dev (set_i_size v i) l.
Proof.
  intros Hi Hv Hf. assert (i_size (set_i_size v i) = v) as E by (simpl; apply u32_small; lia).
  split; try apply Hi; rewrite E; [done|]. intros s Hs Hlt. by apply Hf.
Qed.

(** What a successful write leaves behind. *)
Record write_post (i : inode) (l : lstore) (off n : Z) (src : list Z) (i' : inode) (l' : lstore) : Prop := {
  wp_vol : volume_ok dev l';
  wp_file : file_ok dev i' l';
  wp_size : i_size i' = Z.max (i_size i) (off + n);
  wp_same : i' = set_i_size (i_size i') (set_i_addrs (i_addrs i') i);
  wp_byte : forall x, 0 <= x < 140 * 512 ->
    fbyte i' l' x = if (off <=? x) && (x <? off + n) then nth (Z.to_nat (x - off)) src 0 else fbyte i l x;
  wp_fixed : off + n <= i_size i -> i' = i;
  wp_disk : let b := (dev, IBLOCK (i_inum i)) in
    lget l' b = if i_size i <? off + n then put_dinode (i_inum i) (inode_dinode i') (lget l b) else lget l b;
  wp_foreign : forall x, foreign dev i l x -> foreign dev i' l' x;
  wp_other : forall x, foreign dev i l x -> x <> (dev, IBLOCK (i_inum i)) -> lget l' x = lget l x;
  wp_geom : ls_geom l' = ls_geom l;
  wp_super : super_of dev l' = super_of dev l;
  wp_iblock : iblock_ok i' l';
  wp_free : (nfree dev l + pot i' <= nfree dev l' + pot i + blocks_left off n)%nat;
  wp_held : ls_held l' = ∅;
  wp_calm : calm l';
  wp_durable : ls_durable l' = ls_durable l;
}.

Lemma set_size_same i : 0 <= i_size i < 2 ^ 32 -> set_i_size (i_size i) i = i.
Proof. intros H0. destruct i. unfold set_i_size. simpl in *. by rewrite u32_small by lia. Qed.

(** From the blocks of a write to the write: the loop has ended in [i1] and
    [l1]. *)
Section WriteEnd.
Context (S : gset Z) (i : inode) (l : lstore) (off n : Z) (src : list Z) (i1 : inode) (l1 : lstore).
Hypothesis Hv : volume_ok dev l.
Hypothesis Hi : file_ok dev i l.
Hypothesis Hb : iblock_ok i l.
Hypothesis Ho : 0 <= off <= i_size i.
Hypothesis Hn : 0 <= n.
Hypothesis Hw : written i l off n src i1 l1.
Hypothesis Hh1 : ls_held l1 = ∅.
Hypothesis Hr1 : ready S (pot i1) l1.
Hypothesis HS : IBLOCK (i_inum i) ∈ S.
Hypothesis Hn1 : (nfree dev l + pot i1 <= nfree dev l1 + pot i + blocks_left off n)%nat.

Lemma written_size : i_size i1 = i_size i.
Proof. by rewrite (w_fields _ _ _ _ _ _ _ Hw). Qed.

Lemma written_iblock j : i_inum j = i_inum i -> iblock_ok j l1.
Proof.
  intros Ej. split; rewrite ?(w_super _ _ _ _ _ _ _ Hw), ?Ej; try apply Hb.
  - unfold blk_ok. rewrite (w_geom _ _ _ _ _ _ _ Hw). apply Hb.
  - destruct (w_other _ _ _ _ _ _ _ Hw _ (iblock_foreign i i l Hv Hi Hb)) as [_ ->]. apply Hb.
Qed.

Lemma write_post_fixed : off + n <= i_size i -> write_post i l off n src i1 l1.
Proof.
  intros Hle. pose proof (fo_size _ _ _ Hi) as Hsz. pose proof written_size as Es1.
  pose proof (w_fields _ _ _ _ _ _ _ Hw) as Ef.
  split; [apply Hw|apply Hw|lia| |apply Hw|apply Hw| | | |apply Hw|apply Hw| |done|done| |apply Hw].
  - rewrite <- Ef. by rewrite set_size_same by lia.
  - rewrite (proj2 (Z.ltb_ge (i_size i) _)) by lia. cbv zeta.
    apply (w_other _ _ _ _ _ _ _ Hw). by apply iblock_foreign.
  - intros x Hx. by apply (w_other _ _ _ _ _ _ _ Hw).
  - intros x Hx _. by apply (w_other _ _ _ _ _ _ _ Hw).
  - apply written_iblock. by rewrite Ef.
  - by eapply ready_calm.
Qed.

Lemma written_resize : off + n <= 140 * 512 -> i_size i < off + n -> file_ok dev (set_i_size (off + n) i1) l1.
Proof.
  intros Hmax Hlt. apply resize_file; [apply Hw|lia|]. intros s Hs Hlt'.
  destruct (decide (off / 512 <= s)) as [Hge|Hge]; [by apply (w_full _ _ _ _ _ _ _ Hw)|].
  apply (fo_full _ _ _ (w_file _ _ _ _ _ _ _ Hw)); [done|]. rewrite written_size. lia.
Qed.

Lemma write_post_grown : off + n <= 140 * 512 -> i_size i < off + n ->
  let i2 := set_i_size (off + n) i1 in write_post i l off n src i2 (iupdate_state i2 l1).
Proof.
  intros Hmax Hlt i2. pose proof (written_resize Hmax Hlt) as Hi2. fold i2 in Hi2.
  assert (i_size i2 = off + n) as Es2 by (simpl; apply u32_small; lia).
  pose proof (w_fields _ _ _ _ _ _ _ Hw) as Ef. assert (i_inum i2 = i_inum i) as En2 by (unfold i2; by rewrite Ef).
  pose proof (written_iblock i2 En2) as Hb2. pose proof (w_vol _ _ _ _ _ _ _ Hw) as Hv1.
  assert (foreign dev i2 l1 (dev, IBLOCK (i_inum i2))) as Hf2 by (by apply iblock_foreign).
  pose proof (iblock_not_super i2 l1 Hb2) as Hns. unfold iupdate_state. split.
  - by apply (foreign_volume i2).
  - by apply foreign_file.
  - lia.
  - rewrite Es2. unfold i2. by rewrite Ef at 1.
  - intros x Hx. rewrite foreign_fbyte by done.
    rewrite <- (w_byte _ _ _ _ _ _ _ Hw) by done. by apply fbyte_fields.
  - lia.
  - cbv zeta. rewrite (proj2 (Z.ltb_lt _ _) Hlt), En2, lget_put.
    by destruct (w_other _ _ _ _ _ _ _ Hw _ (iblock_foreign i i l Hv Hi Hb)) as [_ ->].
  - intros x Hx. apply foreign_foreign; [done..|]. by apply foreign_size, (w_other _ _ _ _ _ _ _ Hw).
  - intros x Hx Hne. rewrite lget_put_ne by (rewrite En2; congruence). by apply (w_other _ _ _ _ _ _ _ Hw).
  - apply Hw.
  - rewrite super_lput by done. apply Hw.
  - split; rewrite ?super_lput by done; try apply Hb2. rewrite lget_put. apply length_put_dinode; [apply Hi2|apply Hb2].
  - by rewrite (foreign_nfree i2) by done.
  - done.
  - eapply ready_calm, ready_lput_in; [|exact Hr1]. rewrite En2. simpl. set_solver.
  - simpl. apply Hw.
Qed.
End WriteEnd.

Lemma run_writei S k i l off n src :
  cached k ip i -> volume_ok dev l -> file_ok dev i l -> iblock_ok i l -> ls_held l = ∅ ->
  i_type i <> T_DEV -> 0 <= off <= i_size i -> 0 <= n -> off + n <= 140 * 512 -> n <= Z.of_nat (length src) ->
  paid dev S i l -> IBLOCK (i_inum i) ∈ S ->
  ready S (blocks_left off n + pot i) l -> (blocks_left off n + pot i <= nfree dev l)%nat ->
  exists i' l', run (sfs_writei ip src off n) k l = Ok (n, set_inode ip i' k, l') /\
    write_post i l off n src i' l'.
Proof.
  intros Hk Hv Hi Hb Hh Ht Ho Hn Hmax Hsrc Hp HS Hr Hnf. pose proof (fo_size _ _ _ Hi) as Hsz.
  unfold sfs_writei. run_step run_get_inode. rewrite (proj2 (Z.eqb_neq _ T_DEV)) by done.
  rewrite (u32_small (off + n)) by lia. rewrite (proj2 (Z.ltb_ge (i_size i) off)) by lia.
  rewrite (proj2 (Z.ltb_ge (off + n) off)) by lia.
  unfold MAXFILE, NDIRECT, NINDIRECT. unfold SFS_BSIZE at 1. rewrite (proj2 (Z.ltb_ge _ (off + n))) by lia.
  simpl orb. cbv iota.
  change (while_fuel _ _ (0, off, src))
    with (while_fuel (Z.to_nat (n / SFS_BSIZE) + 3) (writei_body n) (0, off, src)).
  destruct (writei_loop (Z.to_nat (n / SFS_BSIZE) + 3) S k i l i l n off src 0) as
    (i1 & l1 & Hrun & Hw & Hh1 & Hp1 & Hr1 & Hn1); rewrite ?Z.add_0_r, ?Z.sub_0_r; auto; try lia.
  { by apply written_nil. }
  { apply blocks_fuel; lia. }
  rewrite Z.add_0_r, Z.sub_0_r in Hn1. rewrite Z.add_0_r, drop_0 in Hrun. rewrite (run_bind_Ok _ _ _ _ _ _ _ Hrun).
  run_step run_get_inode; [|by eapply cached_set]. rewrite (written_size _ _ _ _ _ _ _ Hw).
  destruct ((0 <? n) && (i_size i <? off + n)) eqn:Eg.
  2: { exists i1, l1. simpl. rewrite s32_small by lia. split; [done|]. eapply (write_post_fixed S); eauto. lia. }
  set (i2 := set_i_size (off + n) i1).
  rewrite run_assoc. run_step run_upd_inode; [|by eapply cached_set]. fold i2. rewrite set_set.
  run_step (run_iupdate S); [|by eapply cached_set|apply Hw| |].
  - exists i2, (iupdate_state i2 l1). simpl run. rewrite s32_small by lia. split; [done|].
    eapply (write_post_grown S); eauto. lia.
  - eapply written_resize; eauto; lia.
  - eapply written_iblock; eauto. unfold i2. by rewrite (w_fields _ _ _ _ _ _ _ Hw).
Qed.
End ReadWrite.

(** ** Theorems *)

(** [bmap] returns the block of a data slot, allocating it (and the
    indirect block) when there is none: the file stays well-formed, every byte
    of it keeps its value, existing slots keep their blocks and no block that
    is not the file's, the bitmap's or free changes. *)
Theorem bmap_spec dev ip S k i l bn :
  cached k ip i -> volume_ok dev l -> file_ok dev i l -> ls_held l = ∅ -> paid dev S i l ->
  ready S 2 l -> (2 <= nfree dev l)%nat -> 0 <= bn < MAXFILE ->
  exists i' l', run (bmap ip bn) k l = Ok (slot i' l' bn, set_inode ip i' k, l') /\
    slot i' l' bn <> 0 /\ grown dev i l i' l'.
Proof.
  intros Hk Hv Hi Hh Hp Hr Hn Hbn. change MAXFILE with 140 in Hbn.
  assert (pot i <= 1)%nat as Hpot by (unfold pot; destruct (_ =? _); lia).
  destruct (run_bmap dev ip S (1 - pot i) k i l bn) as (i' & l' & Hrun & Hg & Hs & _); auto; try lia.
  { eapply ready_weaken; [|exact Hr]. lia. }
  eauto.
Qed.

(** C8: [sfs_readi] returns the bytes of the file from [off] on, as many as
    were asked for and exist, and changes nothing; it fails when [off] lies
    beyond the end of the file or [off + n] overflows. *)
Theorem sfs_readi_spec `{DevSw} dev ip k i l off n :
  cached k ip i -> volume_ok dev l -> file_ok dev i l -> ls_held l = ∅ -> calm l ->
  i_type i <> T_DEV -> uint_range off -> uint_range n ->
  run (sfs_readi ip off n) k l =
    if (i_size i <? off) || (2 ^ 32 <=? off + n) then Ok ((-1, []), k, l)
    else let m := Z.min n (i_size i - off) in Ok ((m, fdata i l off m), k, l).
Proof. intros. by apply (run_readi dev). Qed.

(** C7: [sfs_writei] makes the bytes from [off] on those of [src] and leaves
    every other byte of the file, and every block that is not the file's,
    alone; the size grows to cover what was written, and then the inode on
    disk is updated.  Nothing is durable before the transaction commits. *)
Theorem sfs_writei_spec `{DevSw} dev ip S k i l off n src :
  cached k ip i -> volume_ok dev l -> file_ok dev i l -> iblock_ok dev i l -> ls_held l = ∅ ->
  i_type i <> T_DEV -> 0 <= off <= i_size i -> 0 <= n -> off + n <= MAXFILE * SFS_BSIZE ->
  n <= Z.of_nat (length src) -> paid dev S i l -> IBLOCK (i_inum i) ∈ S ->
  ready S (blocks_left off n + pot i) l -> (blocks_left off n + pot i <= nfree dev l)%nat ->
  exists i' l', run (sfs_writei ip src off n) k l = Ok (n, set_inode ip i' k, l') /\
    write_post dev i l off n src i' l'.
Proof. intros. change (MAXFILE * SFS_BSIZE) with (140 * 512) in *. by eapply run_writei. Qed.

(** What is outside a file cannot be written: [sfs_writei] returns -1 and
    changes nothing when [off] is beyond the end, when [off + n] overflows, or
    when the result would be longer than [MAXFILE] blocks. *)
Theorem sfs_writei_refused `{DevSw} ip k i (l : lstore) off n src :
  cached k ip i -> i_type i <> T_DEV -> uint_range off -> uint_range n ->
  i_size i < off \/ MAXFILE * SFS_BSIZE < off + n ->
  run (sfs_writei ip src off n) k l = Ok (-1, k, l).
Proof.
  intros Hk Ht Ho Hn Hbad. unfold uint_range in *. unfold sfs_writei. run_step run_get_inode.
  rewrite (proj2 (Z.eqb_neq _ T_DEV)) by done. change (MAXFILE * SFS_BSIZE) with 71680 in *.
  destruct (Z.ltb_spec (i_size i) off); [done|]. simpl orb.
  destruct (Z.ltb_spec (u32 (off + n)) off); [done|].
  rewrite (proj2 (Z.ltb_lt 71680 (u32 (off + n)))); [done|]. unfold u32 in *. lia.
Qed.

Lemma write_post_fdata dev i l off n src i' l' :
  write_post dev i l off n src i' l' -> 0 <= off -> 0 <= n -> off + n <= 140 * 512 ->
  n <= Z.of_nat (length src) -> fdata i' l' off n = take (Z.to_nat n) src.
Proof.
  intros Hw Ho Hn Hm Hs. apply list_eq. intros j. destruct (decide (j < Z.to_nat n)%nat) as [Hj|Hj].
  - rewrite lookup_fdata, lookup_take_lt by done. rewrite (wp_byte _ _ _ _ _ _ _ _ Hw) by lia.
    replace ((off <=? off + Z.of_nat j) && (off + Z.of_nat j <? off + n)) with true by lia.
    destruct (lookup_lt_is_Some_2 src j) as [c Hc]; [lia|]. rewrite Hc. f_equal.
    apply nth_lookup_Some. rewrite <- Hc. f_equal. lia.
  - rewrite lookup_take_ge by lia. apply lookup_ge_None. rewrite length_fdata. lia.
Qed.

(** Reading back what was just written gives the bytes written. *)
Theorem sfs_write_read `{DevSw} dev ip S k i l off n src :
  cached k ip i -> volume_ok dev l -> file_ok dev i l -> iblock_ok dev i l -> ls_held l = ∅ ->
  i_type i <> T_DEV -> 0 <= off <= i_size i -> 0 <= n -> off + n <= MAXFILE * SFS_BSIZE ->
  n <= Z.of_nat (length src) -> paid dev S i l -> IBLOCK (i_inum i) ∈ S ->
  ready S (blocks_left off n + pot i) l -> (blocks_left off n + pot i <= nfree dev l)%nat ->
  exists k' l', run (sfs_writei ip src off n;;; sfs_readi ip off n) k l =
    Ok ((n, take (Z.to_nat n) src), k', l').
Proof.
  intros Hk Hv Hi Hb Hh Ht Ho Hn Hm Hs Hp HS Hr Hnf. change (MAXFILE * SFS_BSIZE) with (140 * 512) in *.
  destruct (run_writei dev ip S k i l off n src) as (i' & l' & Hrun & Hw); auto.
  rewrite (run_bind_Ok _ _ _ _ _ _ _ Hrun). pose proof (wp_size _ _ _ _ _ _ _ _ Hw) as Esz.
  exists (set_inode ip i' k), l'. rewrite (run_readi dev ip _ i'); try apply Hw; unfold uint_range; try lia.
  - pose proof (fo_size _ _ _ Hi). rewrite (proj2 (Z.ltb_ge _ off)), (proj2 (Z.leb_gt (2 ^ 32) _)) by lia. simpl orb.
    cbv zeta iota. rewrite Z.min_l by lia. by erewrite write_post_fdata by (eauto; lia).
  - by eapply cached_set.
  - pose proof (f_equal i_type (wp_same _ _ _ _ _ _ _ _ Hw)) as E. simpl in E. by rewrite E.
Qed.

(** The chunk size of [filewrite] is small enough.  On a volume with one
    bitmap block, a write of at most [write_max] bytes (1536, wherever it
    starts) in a fresh transaction does not overflow the log, provided five
    blocks are free. *)
Theorem write_fits_transaction `{DevSw} dev ip k i l off n src :
  cached k ip i -> volume_ok dev l -> file_ok dev i l -> iblock_ok dev i l -> ls_held l = ∅ ->
  ls_trans l = true -> ls_logged l = ∅ -> LOGSIZE <= g_size (ls_geom l) ->
  sb_size (super_of dev l) <= SFSBPB -> (5 <= nfree dev l)%nat ->
  i_type i <> T_DEV -> 0 <= off <= i_size i -> 0 <= n <= 1536 -> off + n <= MAXFILE * SFS_BSIZE ->
  n <= Z.of_nat (length src) ->
  exists i' l', run (sfs_writei ip src off n) k l = Ok (n, set_inode ip i' k, l') /\
    write_post dev i l off n src i' l'.
Proof.
  intros Hk Hv Hi Hb Hh Htr Hlg Hgs Hsz Hnf Ht Ho Hn Hm Hs. change (MAXFILE * SFS_BSIZE) with (140 * 512) in *.
  set (B := (bitmap_of dev 0 l).2). set (S0 := {[B; IBLOCK (i_inum i)]} : gset Z).
  set (S := if addr_at i 12 =? 0 then S0 else {[addr_at i 12]} ∪ S0).
  assert (size S0 <= 2)%nat as H0.
  { unfold S0. etrans; [apply size_union_le|]. by rewrite !size_singleton. }
  assert (size S + pot i <= 3)%nat as HS.
  { unfold S, pot. destruct (_ =? _); [lia|]. pose proof (size_union_le {[addr_at i 12]} S0).
    rewrite size_singleton in *. lia. }
  assert (pot i <= 1)%nat as Hpot by (unfold pot; destruct (_ =? _); lia).
  assert (blocks_left off n <= 4)%nat as Hbl by (unfold blocks_left; destruct (n =? 0); lia).
  apply (run_writei dev ip S); auto; try lia.
  - split.
    + intros b Hb'. unfold bitmap_of. cbn [snd]. pose proof (vo_size _ _ Hv).
      assert (BBLOCK b (sb_ninodes (super_of dev l)) = B) as ->.
      { unfold B, bitmap_of. cbn [snd]. rewrite !BBLOCK_eq by lia. unfold SFSBPB in *. lia. }
      unfold S, S0. destruct (_ =? _); set_solver.
    + intros Hne. unfold S. rewrite (proj2 (Z.eqb_neq _ 0)) by done. set_solver.
  - unfold S, S0. destruct (_ =? _); set_solver.
  - unfold LOGSIZE in Hgs. split; rewrite ?Hlg, ?union_empty_l_L, ?Hh; auto; unfold txmax; lia.
Qed.
