(* ===== verification/SfsDir.v ===== *)
(** * Directories and paths of the simple file system: [sfs_inode.c], 537-584,
    635-665, 708-835 and 861-902 *)

From stdpp Require Import base gmap strings numbers list.
From S2P Require Import Prelude Prog CString Layout Log State SfsBlock SfsInode.

Definition chr_slash : Z := 47.
Definition str_dot : list Z := [46; 0].
Definition str_dotdot : list Z := [46; 46; 0].
Definition O_RDONLY : Z := 0.

(** [namecmp] of [vfs.c] *)
Definition namecmp {E K} (s t : list Z) : prog E K Z := lift (strncmp s t 14).

(** ** Path elements *)

Fixpoint skip_slashes (p : list Z) : outcome (list Z) :=
  match p with
  | [] => oob
  | b :: p' => if b =? chr_slash then skip_slashes p' else Ok p
  end.

(** [while( *path != '/' && *path != 0) path++]: the bytes passed and the rest *)
Fixpoint skip_name (p : list Z) : outcome (list Z * list Z) :=
  match p with
  | [] => oob
  | b :: p' =>
      if (b =? chr_slash) || (b =? 0) then Ok ([], p)
      else let? (s, r) := skip_name p' in Ok (b :: s, r)
  end.

(** [memmove] of [src] to the start of a buffer. *)
Definition copy_to (src buf : list Z) : outcome (list Z) :=
  if decide (length src <= length buf)%nat then Ok (splice 0 src buf) else oob.

(** Copy the next path element from path into name.  Return a pointer to the
    element following the copied one, and the name buffer; [None] when there
    is no name to remove. *)
Definition skipelem (path name : list Z) : outcome (option (list Z * list Z)) :=
  let? path := skip_slashes path in
  match path with
  | [] => oob
  | c :: _ =>
      if c =? 0 then Ok None
      else
        let? (s, path) := skip_name path in
        let? name :=
          if DIRSIZ <=? Z.of_nat (length s) then copy_to (take 14 s) name
          else copy_to (s ++ [0]) name in
        let? path := skip_slashes path in
        Ok (Some (path, name))
  end.

Section Dir.
Context `{DevSw}.

(** [sfs_readi(dp, &de, off, sizeof(de)) != sizeof(de)] *)
Definition read_dirent (dp : nat) (off : Z) : fsprog (option sfs_dirent) :=
  let* (r, de) := sfs_readi dp off 16 in
  Ret (if r =? 16 then Some (dec_dirent de) else None).

(** Look for a directory entry in a directory: the inode and the byte offset
    of the entry. *)
Definition sfs_dirlookup (dp : nat) (name : list Z) : fsprog (option (nat * Z)) :=
  sdp <- get_inode dp;;
  if negb (i_type sdp =? T_DIR) then panic "dirlookup not DIR"
  else
    while_fuel (Z.to_nat (i_size sdp / 16) + 2) (fun off =>
      sdp <- get_inode dp;;
      if negb (off <? i_size sdp) then Ret (inr None)
      else
        x <- read_dirent dp off;;
        match x with
        | None => panic "dirlink read"
        | Some de =>
            if de_inum de =? 0 then Ret (inl (u32 (off + 16)))
            else
              c <- namecmp name (de_name de);;
              if c =? 0 then
                ip <- sfs_iget (i_dev sdp) (de_inum de) 0;;
                Ret (inr (Some (ip, off)))
              else Ret (inl (u32 (off + 16)))
        end) 0.

(** The name under which a directory lists an inode number. *)
Definition sfs_inumtoname (dp : nat) (inum : Z) (name : list Z) : fsprog (Z * list Z) :=
  sdp <- get_inode dp;;
  while_fuel (Z.to_nat (i_size sdp / 16) + 2) (fun off =>
    sdp <- get_inode dp;;
    if negb (off <? i_size sdp) then Ret (inr (-1, name))
    else
      x <- read_dirent dp off;;
      match x with
      | None => Ret (inr (-1, name))
      | Some de =>
          if inum =? de_inum de then
            nm <- lift (safestrcpy name (de_name de) DIRSIZ);;
            Ret (inr (0, nm))
          else Ret (inl (u32 (off + 16)))
      end) 0.

(** Write a new directory entry (name, inum) into the directory dp. *)
Definition sfs_dirlink (dp : nat) (name : list Z) (originip : nat) : fsprog Z :=
  (* Check that name is not present. *)
  x <- sfs_dirlookup dp name;;
  match x with
  | Some (ip, _) => sfs_iput ip;;; Ret (-1)
  | None =>
      (* Look for an empty dirent. *)
      sdp <- get_inode dp;;
      off <- while_fuel (Z.to_nat (i_size sdp / 16) + 2) (fun off =>
        sdp <- get_inode dp;;
        if negb (off <? i_size sdp) then Ret (inr off)
        else
          x <- read_dirent dp off;;
          match x with
          | None => panic "dirlink read"
          | Some de => if de_inum de =? 0 then Ret (inr off) else Ret (inl (u32 (off + 16)))
          end) 0;;
      nm <- lift (strncpy (replicate 14 0) name DIRSIZ);;
      sin <- get_inode originip;;
      r <- sfs_writei dp (enc_dirent (mkdirent (u16 (i_inum sin)) nm)) off 16;;
      if negb (r =? 16) then panic "dirlink" else Ret 0
  end.

(** Look up and return the inode for a path name.  If [nameiparent], return
    the inode for the parent and the final path element. *)
Definition namex (ip : nat) (path : list Z) (nameiparent : bool) (name : list Z)
    : fsprog (option nat * list Z) :=
  while_fuel (length path + 1) (fun '(ip, path, name) =>
    e <- lift (skipelem path name);;
    match e with
    | None =>
        if nameiparent then sfs_iput ip;;; Ret (inr (None, name))
        else Ret (inr (Some ip, name))
    | Some (path, name) =>
        sfs_ilock ip;;;
        sinp <- get_inode ip;;
        if negb (i_type sinp =? T_DIR) then
          sfs_iunlockput ip;;; Ret (inr (None, name))
        else if nameiparent && (nth 0 path 0 =? 0) then
          (* Stop one level early. *)
          sfs_iunlock ip;;; Ret (inr (Some ip, name))
        else
          next <- sfs_dirlookup ip name;;
          sfs_iunlockput ip;;;
          match next with
          | None => Ret (inr (None, name))
          | Some (next, _) => Ret (inl (next, path, name))
          end
    end) (ip, path, name).

Definition sfs_namei (node : nat) (path : list Z) : fsprog (option nat) :=
  r <- namex node path false (replicate 14 0);; Ret r.1.

Definition sfs_nameiparent (node : nat) (path name : list Z) : fsprog (option nat * list Z) :=
  namex node path true name.

(** Is the directory dp empty except for "." and ".." ? *)
Definition sfs_isdirempty (dp : nat) : fsprog bool :=
  sdp <- get_inode dp;;
  while_fuel (Z.to_nat (i_size sdp / 16) + 2) (fun off =>
    sdp <- get_inode dp;;
    if negb (off <? i_size sdp) then Ret (inr true)
    else
      x <- read_dirent dp off;;
      match x with
      | None => panic "isdirempty: readi"
      | Some de => if negb (de_inum de =? 0) then Ret (inr false) else Ret (inl (off + 16))
      end) 32.
End Dir.

Definition sfs_link_inc (ip : nat) : fsprog nat :=
  upd_inode ip (fun i => set_i_nlink (i_nlink i + 1) i);;; Ret ip.
Definition sfs_link_dec (ip : nat) : fsprog nat :=
  upd_inode ip (fun i => set_i_nlink (i_nlink i - 1) i);;; Ret ip.

Definition sfs_opendir (node : nat) (open_flags : Z) : fsprog Z :=
  if negb (open_flags =? O_RDONLY) then Ret (-1) else Ret 0.
Definition sfs_openfile (node : nat) (open_flags : Z) : fsprog Z := Ret 0.
Definition sfs_gettype (node : nat) : fsprog Z := i <- get_inode node;; Ret (i_type i).
Definition sfs_getdev (node : nat) : fsprog Z := i <- get_inode node;; Ret (i_dev i).
Definition sfs_getnlink (node : nat) : fsprog Z := i <- get_inode node;; Ret (i_nlink i).
Definition sfs_getmajor (node : nat) : fsprog Z := i <- get_inode node;; Ret (i_major i).
Definition sfs_getminor (node : nat) : fsprog Z := i <- get_inode node;; Ret (i_minor i).
