(* ===== verification/SfsDirSpec.v ===== *)
(** * Directories as lists of entries

    [sfs_dirlookup] and [sfs_dirlink] against the list of entries a directory
    file holds. *)

From stdpp Require Import base gmap strings numbers list.
From S2P Require Import Prelude Prog Bio CString Layout Log LStore State FsLogic SfsBlock SfsInode SfsFile SfsDir.

(** ** The abstract view *)

(** A name as directories compare it. *)
Definition dname (s : list Z) : list Z := take 14 (cstr s).

(** A buffer [strncmp] can compare up to [DIRSIZ] bytes of. *)
Definition name_buf (s : list Z) : Prop := (terminated s \/ 14 <= length s)%nat.

Definition dent (i : inode) (l : lstore) (j : Z) : sfs_dirent := dec_dirent (fdata i l (16 * j) 16).

(** The entries of a directory, free ones included. *)
Definition dents (i : inode) (l : lstore) : list sfs_dirent := map (dent i l) (seqZ 0 (i_size i / 16)).

(** The entry is in use and has that name. *)
Definition entry_is (name : list Z) (de : sfs_dirent) : Prop := de_inum de <> 0 /\ dname name = dname (de_name de).
#[global] Instance entry_is_dec name de : Decision (entry_is name de).
Proof. unfold entry_is. apply _. Defined.

Definition entry_free (de : sfs_dirent) : Prop := de_inum de = 0.
#[global] Instance entry_free_dec de : Decision (entry_free de).
Proof. unfold entry_free. apply _. Defined.

(** Where [sfs_dirlink] puts a new entry. *)
Definition free_pos (l : list sfs_dirent) : nat :=
  match list_find entry_free l with
  | Some (j, _) => j
  | None => length l
  end.

Record dir_ok (dev : Z) (i : inode) (l : lstore) : Prop := {
  do_file : file_ok dev i l;
  do_type : i_type i = T_DIR;
  do_size : i_size i mod 16 = 0;
}.

Lemma length_dents i l : length (dents i l) = Z.to_nat (i_size i / 16).
Proof. unfold dents. by rewrite length_map, length_seqZ. Qed.

Lemma lookup_dents i l j : (j < Z.to_nat (i_size i / 16))%nat -> dents i l !! j = Some (dent i l (Z.of_nat j)).
Proof. intros Hj. unfold dents. rewrite list_lookup_fmap, lookup_seqZ_lt by lia. done. Qed.

Lemma length_dent_name i l j : length (de_name (dent i l j)) = 14%nat.
Proof. unfold dent, dec_dirent. cbn [de_name]. apply length_slice. rewrite length_fdata. lia. Qed.

(** ** Lookup *)

Section Dir.
Context `{DevSw} (dev : Z) (dp : nat).

Lemma run_read_dirent k i l j :
  cached k dp i -> volume_ok dev l -> dir_ok dev i l -> ls_held l = ∅ -> calm l ->
  0 <= j < i_size i / 16 ->
  run (read_dirent dp (16 * j)) k l = Ok (Some (dent i l j), k, l).
Proof.
  intros Hk Hv Hi Hh Hc Hj. pose proof (do_size _ _ _ Hi). pose proof (fo_size _ _ _ (do_file _ _ _ Hi)).
  unfold read_dirent. rewrite run_bind, (run_readi dev dp k i l (16 * j) 16); auto.
  - rewrite (proj2 (Z.ltb_ge _ (16 * j))), (proj2 (Z.leb_gt (2 ^ 32) _)) by lia. simpl orb. cbv zeta iota.
    rewrite Z.min_l by lia. done.
  - apply Hi.
  - by rewrite (do_type _ _ _ Hi).
  - unfold uint_range. lia.
  - unfold uint_range. lia.
Qed.

Lemma run_namecmp {E B} `{Store E B} k (b : B) s t :
  name_buf s -> length t = 14%nat ->
  exists c, run (namecmp s t) (k : kmem) b = Ok (c, k, b) /\ (c = 0 <-> dname s = dname t).
Proof.
  intros Hs Ht. destruct (strncmp_spec s t 14 Hs) as (r & Hr & Hiff); [right; lia|].
  exists r. unfold namecmp. rewrite Hr. done.
Qed.

(** The loop body of [sfs_dirlookup]. *)
Definition dirlookup_body (name : list Z) (off : Z) : fsprog (Z + option (nat * Z)) :=
      sdp <- get_inode dp;;
      if negb (off <? i_size sdp) then Ret (inr None)
      else
        x <- read_dirent dp off;;
        match x with
        | None => panic "dirlink read"
        | Some de =>
            if de_inum de =? 0 then Ret (inl (u32 (off + 16)))
            else
              c <- namecmp name (de_name de);;
              if c =? 0 then
                ip <- sfs_iget (i_dev sdp) (de_inum de) 0;;
                Ret (inr (Some (ip, off)))
              else Ret (inl (u32 (off + 16)))
        end.

(** What is done with the entry that was found. *)
Definition found (j : nat) (de : sfs_dirent) : fsprog (option (nat * Z)) :=
  ip <- sfs_iget dev (de_inum de) 0;; Ret (Some (ip, 16 * Z.of_nat j)).

Lemma dirlookup_loop fuel k i l name j :
  cached k dp i -> volume_ok dev l -> dir_ok dev i l -> ls_held l = ∅ -> calm l -> name_buf name ->
  (j <= length (dents i l))%nat -> (length (dents i l) - j < fuel)%nat ->
  run (while_fuel fuel (dirlookup_body name) (16 * Z.of_nat j)) k l =
    match list_find (entry_is name) (drop j (dents i l)) with
    | Some (x, de) => run (found (j + x) de) k l
    | None => Ok (None, k, l)
    end.
Proof.
  intros Hk Hv Hi Hh Hc Hname. pose proof (do_size _ _ _ Hi) as H16.
  pose proof (fo_size _ _ _ (do_file _ _ _ Hi)) as Hsz. pose proof (length_dents i l) as Hlen.
  revert j. induction fuel as [|fuel IH]; intros j Hj Hf; [lia|]. cbn [while_fuel].
  unfold dirlookup_body at 1. rewrite run_assoc. run_step run_get_inode.
  destruct (Z.ltb_spec (16 * Z.of_nat j) (i_size i)) as [Hlt|Hge]; simpl negb; cbv iota.
  2: { rewrite drop_ge by lia. done. }
  assert (dents i l !! j = Some (dent i l (Z.of_nat j))) as Hlk by (apply lookup_dents; lia).
  rewrite (drop_S _ _ _ Hlk). rewrite run_assoc. run_step run_read_dirent; [|lia].
  set (de := dent i l (Z.of_nat j)) in *. cbn [list_find].
  assert (forall rest, rest = run (while_fuel fuel (dirlookup_body name) (16 * Z.of_nat (S j))) k l ->
    ~ entry_is name de ->
    rest = match (if decide (entry_is name de) then Some (0%nat, de) else
                  prod_map S id <$> list_find (entry_is name) (drop (S j) (dents i l))) with
           | Some (x, de) => run (found (j + x) de) k l | None => Ok (None, k, l) end) as Hskip.
  { intros rest -> Hno. rewrite decide_False by done. rewrite IH by lia.
    destruct (list_find _ _) as [[x de']|]; simpl; [|done]. by replace (j + S x)%nat with (S j + x)%nat by lia. }
  assert (u32 (16 * Z.of_nat j + 16) = 16 * Z.of_nat (S j)) as Eoff by (rewrite u32_small; lia).
  destruct (Z.eqb_spec (de_inum de) 0) as [E0|E0].
  { simpl. rewrite Eoff. apply Hskip; [done|]. by intros [? _]. }
  destruct (run_namecmp k l name (de_name de) Hname (length_dent_name _ _ _)) as (c & Hcmp & Hiff).
  rewrite run_assoc, (run_bind_Ok _ _ _ _ _ _ _ Hcmp).
  destruct (Z.eqb_spec c 0) as [Ec|Ec].
  - rewrite decide_True by (split; [done|by apply Hiff]).
    rewrite (fo_dev _ _ _ (do_file _ _ _ Hi)), Nat.add_0_r. unfold found. rewrite run_assoc, !run_bind.
    by destruct (run (sfs_iget dev (de_inum de) 0) k l) as [[[]]|].
  - simpl. rewrite Eoff. apply Hskip; [done|]. intros [_ E]. by apply Ec, Hiff.
Qed.

Lemma run_dirlookup k i l name :
  cached k dp i -> volume_ok dev l -> dir_ok dev i l -> ls_held l = ∅ -> calm l -> name_buf name ->
  run (sfs_dirlookup dp name) k l =
    match list_find (entry_is name) (dents i l) with
    | Some (x, de) => run (found x de) k l
    | None => Ok (None, k, l)
    end.
Proof.
  intros Hk Hv Hi Hh Hc Hname. unfold sfs_dirlookup. run_step run_get_inode.
  rewrite (do_type _ _ _ Hi). simpl negb. cbv iota.
  change (while_fuel ?f _ 0) with (while_fuel f (dirlookup_body name) (16 * Z.of_nat 0)).
  rewrite (dirlookup_loop _ k i l); auto; [lia|]. rewrite length_dents. lia.
Qed.

(** ** Linking *)

(** The search for an empty entry. *)
Definition empty_body (off : Z) : fsprog (Z + Z) :=
        sdp <- get_inode dp;;
        if negb (off <? i_size sdp) then Ret (inr off)
        else
          x <- read_dirent dp off;;
          match x with
          | None => panic "dirlink read"
          | Some de => if de_inum de =? 0 then Ret (inr off) else Ret (inl (u32 (off + 16)))
          end.

Lemma free_pos_skip l j de :
  l !! j = Some de -> ~ entry_free de -> free_pos (drop j l) = S (free_pos (drop (S j) l)).
Proof.
  intros Hj Hf. unfold free_pos. rewrite (drop_S _ _ _ Hj). cbn [list_find]. rewrite decide_False by done.
  destruct (list_find _ _) as [[x ?]|]; done.
Qed.

Lemma empty_loop fuel k i l j :
  cached k dp i -> volume_ok dev l -> dir_ok dev i l -> ls_held l = ∅ -> calm l ->
  (j <= length (dents i l))%nat -> (length (dents i l) - j < fuel)%nat ->
  run (while_fuel fuel empty_body (16 * Z.of_nat j)) k l =
    Ok (16 * Z.of_nat (j + free_pos (drop j (dents i l))), k, l).
Proof.
  intros Hk Hv Hi Hh Hc. pose proof (do_size _ _ _ Hi) as H16.
  pose proof (fo_size _ _ _ (do_file _ _ _ Hi)) as Hsz. pose proof (length_dents i l) as Hlen.
  revert j. induction fuel as [|fuel IH]; intros j Hj Hf; [lia|]. cbn [while_fuel].
  unfold empty_body at 1. rewrite run_assoc. run_step run_get_inode.
  destruct (Z.ltb_spec (16 * Z.of_nat j) (i_size i)) as [Hlt|Hge]; simpl negb; cbv iota.
  2: { rewrite drop_ge by lia. change (free_pos []) with 0%nat. by rewrite Nat.add_0_r. }
  assert (dents i l !! j = Some (dent i l (Z.of_nat j))) as Hlk by (apply lookup_dents; lia).
  rewrite run_assoc. run_step run_read_dirent; [|lia]. cbv iota.
  destruct (Z.eqb_spec (de_inum (dent i l (Z.of_nat j))) 0) as [E0|E0].
  - unfold free_pos. rewrite (drop_S _ _ _ Hlk). cbn [list_find]. rewrite decide_True by done.
    by rewrite Nat.add_0_r.
  - rewrite (free_pos_skip _ _ _ Hlk E0). simpl. rewrite u32_small by lia.
    replace (16 * Z.of_nat j + 16) with (16 * Z.of_nat (S j)) by lia. rewrite IH by lia. by rewrite Nat.add_succ_r.
Qed.

Lemma free_pos_le l : (free_pos l <= length l)%nat.
Proof.
  unfold free_pos. destruct (list_find _ _) as [[x ?]|] eqn:E; [|done].
  apply list_find_Some in E as (Hx & _). apply lookup_lt_Some in Hx. lia.
Qed.

(** Replacing an entry, or appending one. *)
Definition put_entry (j : nat) (de : sfs_dirent) (l : list sfs_dirent) : list sfs_dirent :=
  if decide (j < length l)%nat then <[j := de]> l else l ++ [de].

Lemma put_entry_eq j de (l l' : list sfs_dirent) :
  length l' = Nat.max (length l) (S j) -> (j <= length l)%nat -> l' !! j = Some de ->
  (forall x, x <> j -> (x < length l)%nat -> l' !! x = l !! x) -> l' = put_entry j de l.
Proof.
  intros Hl Hj Hde Ho. unfold put_entry. apply list_eq. intros x. case_decide.
  - destruct (decide (x = j)) as [->|]; [by rewrite list_lookup_insert_eq by lia|].
    rewrite list_lookup_insert_ne by done.
    destruct (decide (x < length l)%nat); [by apply Ho|]. rewrite !lookup_ge_None_2; [done|lia..].
  - assert (j = length l) as -> by lia. destruct (decide (x = length l)) as [->|].
    + by rewrite lookup_app_r, Nat.sub_diag by lia.
    + destruct (decide (x < length l)%nat); [rewrite lookup_app_l by lia; by apply Ho|].
      rewrite !lookup_ge_None_2; [done| |lia]. rewrite length_app. simpl. lia.
Qed.

Lemma write_dents i l j de i' l' :
  dir_ok dev i l -> (j <= length (dents i l))%nat -> 16 * Z.of_nat j + 16 <= 140 * 512 ->
  0 <= de_inum de < 65536 -> length (de_name de) = 14%nat ->
  write_post dev i l (16 * Z.of_nat j) 16 (enc_dirent de) i' l' ->
  dir_ok dev i' l' /\ dents i' l' = put_entry j de (dents i l).
Proof.
  intros Hi Hj Hmax Hin Hnm Hw. pose proof (do_size _ _ _ Hi) as H16.
  pose proof (fo_size _ _ _ (do_file _ _ _ Hi)) as Hsz. pose proof (wp_size _ _ _ _ _ _ _ _ Hw) as Esz.
  rewrite length_dents in Hj.
  assert (length (enc_dirent de) = 16%nat) as Hlen by (unfold enc_dirent; rewrite length_app, length_le_enc; lia).
  split.
  - split; [apply Hw| |lia].
    pose proof (f_equal i_type (wp_same _ _ _ _ _ _ _ _ Hw)) as E. simpl in E. rewrite E. apply (do_type _ _ _ Hi).
  - assert (dent i' l' (Z.of_nat j) = de) as Ede.
    { unfold dent. erewrite write_post_fdata by (eauto; lia).
      rewrite take_ge by lia. by apply dec_enc_dirent. }
    assert (forall x, x <> j -> (x < 4480)%nat -> dent i' l' (Z.of_nat x) = dent i l (Z.of_nat x)) as Hother.
    { intros x Hx Hlt. unfold dent. f_equal. unfold fdata. apply map_ext_in.
      intros y Hy%list_elem_of_In%elem_of_seqZ. rewrite (wp_byte _ _ _ _ _ _ _ _ Hw) by lia.
      replace ((16 * Z.of_nat j <=? y) && (y <? 16 * Z.of_nat j + 16)) with false by lia. done. }
    assert (Z.to_nat (i_size i' / 16) = Nat.max (length (dents i l)) (S j)) as EN by (rewrite length_dents; lia).
    assert (Z.to_nat (i_size i' / 16) <= 4480)%nat as Hmax' by (pose proof (fo_size _ _ _ (wp_file _ _ _ _ _ _ _ _ Hw)); lia).
    rewrite <- (length_dents i l) in Hj. clear - EN Hmax' Hj Ede Hother. apply put_entry_eq; [by rewrite length_dents|done| |].
    + rewrite lookup_dents by lia. by rewrite Ede.
    + intros x Hx Hlt. rewrite !lookup_dents by (rewrite ?length_dents in *; lia). rewrite Hother by (done || lia). done.
Qed.

Lemma run_dirlink S k i l name ip0 i0 :
  cached k dp i -> cached k ip0 i0 -> volume_ok dev l -> dir_ok dev i l -> iblock_ok dev i l -> ls_held l = ∅ ->
  name_buf name -> Forall is_byte name -> list_find (entry_is name) (dents i l) = None ->
  let j := free_pos (dents i l) in
  16 * Z.of_nat j + 16 <= MAXFILE * SFS_BSIZE ->
  paid dev S i l -> IBLOCK (i_inum i) ∈ S -> ready S (1 + pot i) l -> (1 + pot i <= nfree dev l)%nat ->
  exists i' l', run (sfs_dirlink dp name ip0) k l = Ok (0, set_inode dp i' k, l') /\
    dir_ok dev i' l' /\ write_post dev i l (16 * Z.of_nat j) 16
      (enc_dirent (mkdirent (u16 (i_inum i0)) (pad 14 (cstr name)))) i' l' /\
    dents i' l' = put_entry j (mkdirent (u16 (i_inum i0)) (pad 14 (cstr name))) (dents i l).
Proof.
  intros Hk Hk0 Hv Hi Hb Hh Hnb Hbytes Habs j Hmax Hp HS Hr Hnf.
  pose proof (ready_calm _ _ _ Hr) as Hc. change (MAXFILE * SFS_BSIZE) with (140 * 512) in Hmax.
  set (de := mkdirent (u16 (i_inum i0)) (pad 14 (cstr name))).
  pose proof (free_pos_le (dents i l)) as Hjle. fold j in Hjle.
  assert (length (enc_dirent de) = 16%nat) as Hlen
    by (unfold enc_dirent, de; simpl de_name; rewrite length_app, length_le_enc, length_pad; lia).
  assert (16 * Z.of_nat j <= i_size i) as Hoff
    by (pose proof (fo_size _ _ _ (do_file _ _ _ Hi)); rewrite length_dents in Hjle; lia).
  assert (blocks_left (16 * Z.of_nat j) 16 = 1%nat) as Hbl by (unfold blocks_left; rewrite (proj2 (Z.eqb_neq 16 0)) by lia; lia).
  destruct (run_writei dev dp S k i l (16 * Z.of_nat j) 16 (enc_dirent de)) as (i' & l' & Hrun & Hw);
    rewrite ?Hbl; auto; try lia; [apply Hi|by rewrite (do_type _ _ _ Hi)|].
  destruct (write_dents i l j de i' l') as [Hd' He']; auto; [apply u16_range|apply length_pad|].
  exists i', l'. split_and!; auto. unfold sfs_dirlink.
  pose proof (run_dirlookup k i l name Hk Hv Hi Hh Hc Hnb) as Hl. rewrite Habs in Hl.
  rewrite (run_bind_Ok _ _ _ _ _ _ _ Hl). run_step run_get_inode.
  change (while_fuel ?f _ 0) with (while_fuel f empty_body (16 * Z.of_nat 0)).
  rewrite run_bind, (empty_loop _ k i l 0) by (rewrite ?length_dents; auto; lia).
  rewrite Nat.add_0_l, drop_0. fold j.
  assert (strncpy (replicate 14 0) name DIRSIZ = Ok (pad 14 (cstr name))) as Hcpy.
  { unfold strncpy, DIRSIZ. rewrite strncpy_at_spec by (auto; rewrite length_replicate; lia).
    f_equal. unfold splice. rewrite length_pad. by rewrite take_0, app_nil_l, drop_ge, app_nil_r. }
  rewrite Hcpy. cbn [lift pbind]. run_step run_get_inode. fold de. rewrite (run_bind_Ok _ _ _ _ _ _ _ Hrun).
  done.
Qed.
End Dir.

(** ** Theorems *)

Lemma cstr_nonzero s : Forall (fun c => c <> 0) (cstr s).
Proof.
  induction s as [|c s IH]; simpl; [constructor|]. destruct (Z.eqb_spec c 0); constructor; auto.
Qed.

Lemma cstr_app s t : Forall (fun c => c <> 0) s -> cstr (s ++ t) = s ++ cstr t.
Proof. induction 1 as [|c s Hc _ IH]; simpl; [done|]. by rewrite (proj2 (Z.eqb_neq c 0)), IH. Qed.

Lemma cstr_zeros n : cstr (replicate n 0) = [].
Proof. by destruct n. Qed.

(** The name stored in an entry is the name as directories compare it. *)
Lemma dname_pad s : dname (pad 14 (cstr s)) = dname s.
Proof.
  unfold dname, pad. pose proof (cstr_nonzero s) as Hs. generalize dependent (cstr s). clear s. intros s Hs.
  rewrite take_app, take_replicate. rewrite cstr_app by (by apply Forall_take).
  rewrite cstr_zeros, app_nil_r, take_take. by rewrite Nat.min_id.
Qed.

Lemma find_put_entry name de l :
  list_find (entry_is name) l = None -> entry_is name de ->
  list_find (entry_is name) (put_entry (free_pos l) de l) = Some (free_pos l, de).
Proof.
  intros Hn Hde. apply list_find_None in Hn. pose proof (free_pos_le l) as Hle. apply list_find_Some.
  unfold put_entry. case_decide as Hlt; split_and!; auto.
  - by apply list_lookup_insert_eq.
  - intros y x Hx Hy. rewrite list_lookup_insert_ne in Hx by lia. by eapply Forall_lookup_1 in Hn.
  - rewrite lookup_app_r by lia. by replace (free_pos l - length l)%nat with 0%nat by lia.
  - intros y x Hx Hy. rewrite lookup_app_l in Hx by lia. by eapply Forall_lookup_1 in Hn.
Qed.

(** [sfs_dirlookup] finds the first entry in use whose name agrees with
    [name] up to [DIRSIZ] characters, and returns its inode and its position in
    the directory; without such an entry it returns nothing and changes
    nothing. *)
Theorem sfs_dirlookup_spec `{DevSw} dev dp k i l name :
  cached k dp i -> volume_ok dev l -> dir_ok dev i l -> ls_held l = ∅ -> calm l -> name_buf name ->
  run (sfs_dirlookup dp name) k l =
    match list_find (entry_is name) (dents i l) with
    | Some (x, de) => run (ip <- sfs_iget dev (de_inum de) 0;; Ret (Some (ip, 16 * Z.of_nat x))) k l
    | None => Ok (None, k, l)
    end.
Proof. intros. by apply run_dirlookup. Qed.


(** [sfs_dirlink] refuses a name the directory already has: it drops the
    reference the lookup took and returns -1, writing nothing to the
    directory. *)
Theorem sfs_dirlink_exists `{DevSw} dev dp k i l name ip0 x de ip k' l' :
  cached k dp i -> volume_ok dev l -> dir_ok dev i l -> ls_held l = ∅ -> calm l -> name_buf name ->
  list_find (entry_is name) (dents i l) = Some (x, de) ->
  run (sfs_iget dev (de_inum de) 0) k l = Ok (ip, k', l') ->
  run (sfs_dirlink dp name ip0) k l = run (sfs_iput ip;;; Ret (-1)) k' l'.
Proof.
  intros Hk Hv Hi Hh Hc Hnb Hf Hg. unfold sfs_dirlink.
  pose proof (run_dirlookup dev dp k i l name Hk Hv Hi Hh Hc Hnb) as Hl. rewrite Hf in Hl.
  unfold found in Hl. rewrite run_bind, Hg in Hl. by rewrite (run_bind_Ok _ _ _ _ _ _ _ Hl).
Qed.
