(* ===== verification/FatBase.v ===== *)
(** * FAT32: clusters and the file allocation table: [fat_inode.c], 51-315

    The BIOS parameter block and the FSInfo sector are read at the offsets
    their packed C structures give the fields. *)

From stdpp Require Import base gmap strings numbers list.
From S2P Require Import Prelude Prog Layout Log State.

Definition SECTSIZE : Z := 512.

(** File types and attribute bytes ([stat.h]). *)
Definition FAT_TYPE_FILE : Z := 0x20.
Definition FAT_TYPE_DIR : Z := 0x10.
Definition FAT_TYPE_DEV : Z := 0x04.
Definition FAT_TYPE_VOLLBL : Z := 0x08.
Definition FAT_TYPE_LNAME : Z := 0x0F.
Definition FAT_TYPE_EMPTY : Z := 0x5A.
Definition FAT_TYPE_ERROR : Z := 0xFF.
Definition FAT_TYPE_LNMASK : Z := 0x3F.
Definition FAT_TYPE_LLNMASK : Z := 0x40.

Definition fat_get_ops {E K} (type : Z) : prog E K inode_ops :=
  if type =? T_DIR then Ret fat_node_dirops
  else if type =? T_FILE then Ret fat_node_fileops
  else if type =? T_DEV then Ret fat_node_fileops
  else panic "invalid file type in fat_get_ops(uint type), please check fat_inode.c".

Definition fat_mapAttr (attr : Z) : Z :=
  if attr =? FAT_TYPE_DIR then T_DIR
  else if attr =? FAT_TYPE_FILE then T_FILE
  else if attr =? FAT_TYPE_DEV then T_DEV
  else attr.

Definition fat_mapType (type : Z) : Z :=
  if type =? T_DIR then FAT_TYPE_DIR
  else if type =? T_FILE then FAT_TYPE_FILE
  else if type =? T_DEV then FAT_TYPE_DEV
  else u8 type.

(** [struct BPB]: the fields the code uses. *)
Record BPB := mkBPB {
  BytsPerSec : Z; SecPerClus : Z; ResvdSecCnt : Z; NumFATs : Z;
  TotSec32 : Z; FATSz32 : Z; FSInfo : Z;
}.

Definition get_bpb (d : block) : BPB :=
  mkBPB (get_u16 11 d) (get_u8 13 d) (get_u16 14 d) (get_u8 16 d)
    (get_u32 32 d) (get_u32 36 d) (get_u16 48 d).

(** [struct FSI]: [Free_Count] and [Nxt_Free]. *)
Definition fsi_free_count (d : block) : Z := get_u32 488 d.
Definition fsi_nxt_free (d : block) : Z := get_u32 492 d.
Definition put_free_count (v : Z) (d : block) : block := put_u32 488 v d.
Definition put_nxt_free (v : Z) (d : block) : block := put_u32 492 v d.

(** get first sector number of a cluster *)
Definition fat_getFirstSectorofCluster (bpb : BPB) (n : Z) : Z :=
  u32 (u32 (n - 2) * SecPerClus bpb + ResvdSecCnt bpb + NumFATs bpb * FATSz32 bpb).

(** get sector number and offset of a FAT entry mapped to cluster n *)
Definition fat_getFATEntry (bpb : BPB) (n : Z) : Z * Z :=
  let offset := u32 (n * 4) in
  (u32 (ResvdSecCnt bpb + offset / BytsPerSec bpb), offset mod BytsPerSec bpb).

(** The same at a call, where a zero [BytsPerSec] traps. *)
Definition fat_entry (bpb : BPB) (n : Z) : fsprog (Z * Z) :=
  if BytsPerSec bpb =? 0 then undef "division by zero" else Ret (fat_getFATEntry bpb n).

Definition isEOF (n : Z) : bool := 0x0FFFFFF8 <=? n.
Definition LAST_FAT_ENTRY : Z := 0x0FFFFFFF.

(** get Check Sum of short name *)
Definition chksum_step (sum c : Z) : Z :=
  u8 ((if Z.testbit sum 0 then 0x80 else 0) + Z.shiftr sum 1 + c).
Definition fat_getChkSum (name : list Z) : Z := foldl chksum_step 0 (take 11 name).

(** Read the BPB. *)
Definition fat_readbpb (dev : Z) : fsprog BPB :=
  bp <- bread dev 0;;
  d <- bdata bp;;
  brelse bp;;;
  Ret (get_bpb d).

(** The word of a FAT sector at a byte offset: [*(uint* )(bp->data + secOff)]. *)
Definition fat_word (b : bufkey) (off : Z) : fsprog Z :=
  d <- bdata b;;
  if (0 <=? off) && (off + 4 <=? SECTSIZE) then Ret (get_u32 (Z.to_nat off) d)
  else undef "FAT entry outside its sector".
Definition fat_put_word (b : bufkey) (off v : Z) : fsprog unit :=
  bmodify b (put_u32 (Z.to_nat off) v).

(** Update other FATs *)
Definition fat_updateFATs (sp : bufkey) : fsprog unit :=
  bpb <- fat_readbpb sp.1;;
  for_each (seqZ 1 (NumFATs bpb - 1)) (fun i =>
    tp <- bread sp.1 (sp.2 + i * FATSz32 bpb);;
    d <- bdata sp;;
    bstore tp d;;;
    bwrite tp;;;
    brelse tp).

(** Release [fp] if it is not null. *)
Definition opt_rel (rel : bufkey -> fsprog unit) (fp : option bufkey) : fsprog unit :=
  match fp with
  | Some b => rel b
  | None => Ret tt
  end.

(** [if(cursect != lastsect){ if(bp) release(bp); bp = bread(dev, cursect);
    lastsect = cursect; }] *)
Definition fat_load (rel : bufkey -> fsprog unit) (dev cursect : Z) (fp : option bufkey) (last : Z)
    : fsprog (option bufkey * Z) :=
  if negb (cursect =? last) then
    opt_rel rel fp;;;
    b <- bread dev cursect;;
    Ret (Some b, cursect)
  else Ret (fp, last).

(** Use of a buffer pointer that may be null. *)
Definition deref {A} (fp : option bufkey) (f : bufkey -> fsprog A) : fsprog A :=
  match fp with
  | Some b => f b
  | None => undef "null buffer"
  end.

(** The body of the two search loops of [fat_calloc] for cluster [c]; [nxt] is
    the new value of [Nxt_Free] as a function of the old one. *)
Definition calloc_try (dev : Z) (bpb : BPB) (bfsi : bufkey) (nxt : Z -> Z) (c : Z)
    (bp : option bufkey) (last : Z) : fsprog ((option bufkey * Z) + Z) :=
  let* (cursect, secOff) := fat_entry bpb c in
  let* (bp, last) := fat_load brelse dev cursect bp last in
  deref bp (fun b =>
    w <- fat_word b secOff;;
    if w =? 0 then                                  (* Is cluster free? *)
      (* Mark cluster in use on disk. *)
      fat_put_word b secOff LAST_FAT_ENTRY;;;
      fat_updateFATs b;;;
      bwrite b;;;
      brelse b;;;
      (* Update FSInfo. *)
      bmodify bfsi (fun d => put_free_count (u32 (fsi_free_count d - 1))
                               (put_nxt_free (u32 (nxt (fsi_nxt_free d))) d));;;
      bwrite bfsi;;;
      brelse bfsi;;;
      Ret (inr c)
    else Ret (inl (bp, last))).

(** The two search loops, for clusters up to [total] and, when there is none,
    for those below [nxt]. *)
Definition calloc_from (dev : Z) (bpb : BPB) (bfsi : bufkey) (total : Z) '((c, bp, last) : Z * option bufkey * Z)
    : fsprog ((Z * option bufkey * Z) + (option bufkey * Z + Z)) :=
  if negb (c <? total) then Ret (inr (inl (bp, last)))
  else
    x <- calloc_try dev bpb bfsi (fun n => n + 1) c bp last;;
    match x with
    | inl (bp, last) => Ret (inl (u32 (c + 1), bp, last))
    | inr c => Ret (inr (inr c))
    end.
Definition calloc_below (dev : Z) (bpb : BPB) (bfsi : bufkey) (nxt : Z) '((c, bp, last) : Z * option bufkey * Z)
    : fsprog ((Z * option bufkey * Z) + Z) :=
  if negb (c <? nxt) then panic "balloc: out of clusters"
  else
    x <- calloc_try dev bpb bfsi (fun _ => c + 1) c bp last;;
    match x with
    | inl (bp, last) => Ret (inl (u32 (c + 1), bp, last))
    | inr c => Ret (inr c)
    end.

(** Allocate a disk cluster. *)
Definition fat_calloc (dev : Z) : fsprog Z :=
  bpb <- fat_readbpb dev;;
  bfsi <- bread dev (FSInfo bpb);;
  d0 <- bdata bfsi;;
  if SecPerClus bpb =? 0 then undef "division by zero"
  else
    let total := TotSec32 bpb / SecPerClus bpb in
    (* Look for an empty cluster from fsi.Nxt_Free. *)
    r <- while_fuel (Z.to_nat (total - fsi_nxt_free d0) + 1) (calloc_from dev bpb bfsi total)
           (fsi_nxt_free d0, None, 0);;
    match r with
    | inr c => Ret c
    | inl (bp, last) =>
        (* Cannot find a free cluster from Nxt_Free. *)
        while_fuel (Z.to_nat (fsi_nxt_free d0 - 2) + 1) (calloc_below dev bpb bfsi (fsi_nxt_free d0)) (2, bp, last)
    end.

(** clear a cluster from cluster *)
Definition fat_cclear (dev cluster : Z) : fsprog unit :=
  bpb <- fat_readbpb dev;;
  let sec := fat_getFirstSectorofCluster bpb cluster in
  for_each (seqZ 0 (SecPerClus bpb)) (fun i =>
    cp <- bread dev (sec + i);;
    bstore cp zblock;;;
    bwrite cp;;;
    brelse cp).

(** ** Walking a cluster chain *)

(** A loop over a list whose body may leave it with a result. *)
Fixpoint iter_list {A S R} (body : S -> A -> fsprog (S + R)) (l : list A) (s : S) : fsprog (S + R) :=
  match l with
  | [] => Ret (inl s)
  | a :: l =>
      x <- body s a;;
      match x with
      | inl s => iter_list body l s
      | inr r => Ret (inr r)
      end
  end.

(** "Find FAT entry": load the FAT sector of [cno] and read its entry. *)
Definition fat_next (rel : bufkey -> fsprog unit) (dev : Z) (bpb : BPB) (cno : Z)
    (fp : option bufkey) (last : Z) : fsprog (Z * option bufkey * Z) :=
  let* (cur, secOff) := fat_entry bpb cno in
  let* (fp, last) := fat_load rel dev cur fp last in
  deref fp (fun b =>
    w <- fat_word b secOff;;
    Ret (w, fp, last)).

(** A chain has at most as many clusters as the volume; a chain that has more
    is cyclic, and the C loop does not end. *)
Definition chain_fuel (bpb : BPB) : nat := Z.to_nat (TotSec32 bpb) + 2.

(** [do { for(si...) body; Find FAT entry } while(!isEOF(cno))] from cluster
    [cno]: [inr r] when the body leaves the loop, [inl] with the final state
    when the chain ends. *)
Definition fat_walk {S R} (rel : bufkey -> fsprog unit) (dev : Z) (bpb : BPB)
    (sector : S -> Z -> Z -> option bufkey -> fsprog (S + R))
    (cno : Z) (fp : option bufkey) (last : Z) (s : S) : fsprog ((S * option bufkey * Z) + R) :=
  while_fuel (chain_fuel bpb) (fun '(cno, fp, last, s) =>
    x <- iter_list (fun s si => sector s cno si fp) (seqZ 0 (SecPerClus bpb)) s;;
    match x with
    | inr r => Ret (inr (inr r))
    | inl s =>
        let* (cno, fp, last) := fat_next rel dev bpb cno fp last in
        if isEOF cno then Ret (inr (inl (s, fp, last)))
        else Ret (inl (cno, fp, last, s))
    end) (cno, fp, last, s).

(** Sector [si] of cluster [cno], read and walked entry by entry; [fin] ends
    an unfinished sector. *)
Definition fat_sector {S R} (dev : Z) (bpb : BPB) (fin : bufkey -> fsprog unit)
    (entry : S -> bufkey -> Z -> Z -> nat -> option bufkey -> fsprog (S + R))
    (s : S) (cno si : Z) (fp : option bufkey) : fsprog (S + R) :=
  sp <- bread dev (fat_getFirstSectorofCluster bpb cno + si);;
  x <- iter_list (fun s j => entry s sp cno si j fp) (seq 0 16) s;;
  match x with
  | inr r => Ret (inr r)
  | inl s => fin sp;;; Ret (inl s)
  end.

(** ** Directory entries: [struct DIR] and [struct LDIR] *)

Definition de_bytes (j : nat) (d : block) : list Z := slice (32 * j) 32 d.
Definition put_de (j : nat) (e : list Z) (d : block) : block := splice (32 * j) e d.

Definition DIR_Attr (e : list Z) : Z := get_u8 11 e.
Definition DIR_CrtTimeTenth (e : list Z) : Z := get_u8 13 e.
Definition DIR_CrtTime (e : list Z) : Z := get_u16 14 e.
Definition DIR_CrtDate (e : list Z) : Z := get_u16 16 e.
Definition DIR_FileSize (e : list Z) : Z := get_u32 28 e.
(** [(de->FstClusHI << 16) | de->FstClusLO] *)
Definition DIR_cluster (e : list Z) : Z := Z.lor (Z.shiftl (get_u16 20 e) 16) (get_u16 26 e).
Definition LDIR_Ord (e : list Z) : Z := get_u8 0 e.
Definition LDIR_ChkSum (e : list Z) : Z := get_u8 13 e.

(** get DIR type. *)
Definition fat_getDIRType (e : list Z) : Z :=
  if (LDIR_Ord e =? 0xE5) || (LDIR_Ord e =? 0) then FAT_TYPE_EMPTY
  else if Z.land (DIR_Attr e) FAT_TYPE_LNMASK =? FAT_TYPE_LNAME then FAT_TYPE_LNAME
  else
    let a := Z.land (DIR_Attr e) (Z.lor FAT_TYPE_DIR FAT_TYPE_VOLLBL) in
    if a =? 0 then FAT_TYPE_FILE
    else if a =? FAT_TYPE_DIR then FAT_TYPE_DIR
    else if a =? FAT_TYPE_VOLLBL then FAT_TYPE_VOLLBL
    else FAT_TYPE_ERROR.
