(* ===== verification/FatInode.v ===== *)
(** * Inodes of the FAT32 file system: [fat_inode.c], 317-864

    A FAT inode's number is the first cluster of the file; what other systems
    keep in the inode is in the directory entry, found by walking the
    directory's clusters ([dircluster]) for the entry with that first
    cluster. *)

From stdpp Require Import base gmap strings numbers list.
From S2P Require Import Prelude Prog Layout Log State SfsInode FatBase.

(** ** Locating the directory entry *)

(** Copy inode, which has changed, from memory to disk. *)
Definition update_entry (sin : inode) (e : list Z) : list Z :=
  let e := put_u8 11 (fat_mapType (i_type sin)) e in
  let e := put_u16 16 (i_major sin) e in
  let e := put_u16 14 (i_minor sin) e in
  if (i_size sin =? 0) && negb (i_type sin =? T_DIR)      (* Init size of file and creat time *)
  then put_u8 13 0x5A (put_u32 28 1 e)
  else put_u32 28 (i_size sin) e.

Definition fat_iupdate (ip : nat) : fsprog unit :=
  sin <- get_inode ip;;
  bpb <- fat_readbpb (i_dev sin);;
  r <- fat_walk (R := unit) brelse (i_dev sin) bpb
    (fat_sector (i_dev sin) bpb brelse (fun (_ : unit) sp cno si j fp =>
      d <- bdata sp;;
      if DIR_cluster (de_bytes j d) =? i_inum sin then
        bstore sp (put_de j (update_entry sin (de_bytes j d)) d);;;
        bwrite sp;;;
        brelse sp;;;
        opt_rel brelse fp;;;
        Ret (inr tt)
      else Ret (inl tt)))
    (dircluster sin) None 0 tt;;
  match r with
  | inr _ => Ret tt
  | inl _ => panic "iupdate DIR entry not found"
  end.

(** What [fat_ilock] takes from the directory entry. *)
Definition load_entry (e : list Z) (i : inode) : inode :=
  mkinode (i_dev i) (i_inum i) (i_ref i) (i_flags i) (fat_mapAttr (DIR_Attr e))
    (s16 (DIR_CrtDate e)) (s16 (DIR_CrtTime e)) 1
    (if (DIR_FileSize e =? 1) && (DIR_CrtTimeTenth e =? 0x5A) then 0 else DIR_FileSize e)
    (i_addrs i) (i_fstype i) (i_ops i).

(** Lock the given inode. *)
Definition fat_ilock (ip : nat) : fsprog unit :=
  sin <- get_inode ip;;
  if i_ref sin <? 1 then panic "ilock"
  else if i_has sin I_BUSY then Stop Blocked
  else
    upd_inode ip (set_i_flags (Z.lor (i_flags sin) I_BUSY));;;
    if i_inum sin =? 2 then                                (* Root file *)
      upd_inode ip (fun i => set_i_nlink 1 (set_i_type T_DIR
                               (set_i_flags (Z.lor (i_flags i) I_VALID) i)))
    else if i_has sin I_VALID then
      upd_inode ip (fun i => set_i_flags (Z.lor (i_flags i) I_VALID) i)
    else
      bpb <- fat_readbpb (i_dev sin);;
      r <- fat_walk brelse (i_dev sin) bpb
        (fat_sector (i_dev sin) bpb brelse (fun (_ : unit) sp cno si j fp =>
          d <- bdata sp;;
          if DIR_cluster (de_bytes j d) =? i_inum sin then
            upd_inode ip (load_entry (de_bytes j d));;;
            brelse sp;;;
            opt_rel brelse fp;;;
            upd_inode ip (fun i => set_i_flags (Z.lor (i_flags i) I_VALID) i);;;
            (if fat_mapAttr (DIR_Attr (de_bytes j d)) =? 0 then panic "ilock: no type" else Ret tt);;;
            Ret (inr tt)
          else Ret (inl tt)))
        (dircluster sin) None 0 tt;;
      match r with
      | inr _ => Ret tt
      | inl (_, fp, _) =>
          deref fp brelse;;;
          upd_inode ip (fun i => set_i_flags (Z.lor (i_flags i) I_VALID) i)
      end.

(** Unlock the given inode. *)
Definition fat_iunlock (ip : nat) : fsprog unit :=
  sin <- get_inode ip;;
  if negb (i_has sin I_BUSY) || (i_ref sin <? 1) then panic "iunlock"
  else upd_inode ip (set_i_flags (Z.land (i_flags sin) (Z.lnot I_BUSY))).

Definition fat_match (dev inum : Z) (x : inode) : bool :=
  (i_fstype x =? FAT_INODE) && (0 <? i_ref x) && (i_dev x =? dev) && (i_inum x =? inum).

(** Find the inode with number inum on device dev and return the in-memory
    copy. *)
Definition fat_iget (dev inum type dircl : Z) : fsprog nat :=
  k <- get;;
  match icache_scan (fat_match dev inum) (km_icache k) 0 None with
  | inl ip =>
      upd_inode ip (fun i => set_i_ref (i_ref i + 1) i);;;
      Ret ip
  | inr None => panic "iget: no inodes"
  | inr (Some ip) =>
      upd_inode ip (fun i => set_dircluster dircl (claim_inode dev inum i));;;
      (if negb (type =? 0) then upd_inode ip (set_i_type type)
       else fat_ilock ip;;; fat_iunlock ip);;;
      tip <- get_inode ip;;
      ops <- fat_get_ops (i_type tip);;
      upd_inode ip (inode_init ops FAT_INODE);;;
      Ret ip
  end.

(** Increment reference count for ip. *)
Definition fat_idup (ip : nat) : fsprog nat :=
  upd_inode ip (fun i => set_i_ref (i_ref i + 1) i);;; Ret ip.

(** ** Freeing a file *)

(** Mark the short entry deleted; where it was, and its checksum. *)
Definition itrunc_entry (sin : inode) (bpb : BPB) : fsprog (Z * (Z * Z * nat) * Z) :=
  r <- fat_walk (fun b => bwrite b;;; brelse b) (i_dev sin) bpb
    (fat_sector (i_dev sin) bpb brelse (fun (_ : unit) sp cno si j fp =>
      d <- bdata sp;;
      let e := de_bytes j d in
      if DIR_cluster e =? i_inum sin then
        bstore sp (put_de j (put_u8 0 0xE5 e) d);;;
        bwrite sp;;;
        brelse sp;;;
        opt_rel brelse fp;;;
        (* [lastFatsect] is the number of the sector [fp] holds, or 0 *)
        Ret (inr (fat_getChkSum e, (cno, si, j), match fp with Some b => b.2 | None => 0 end))
      else Ret (inl tt)))
    (dircluster sin) None 0 tt;;
  match r with
  | inr x => Ret x
  | inl _ => panic "iupdate DIR entry not found"
  end.

(** Mark the long-name entries with that checksum deleted, up to the short
    entry; the value [lastFatsect] has afterwards. *)
Definition itrunc_longname (sin : inode) (bpb : BPB) (chksum : Z) (at_ : Z * Z * nat) (last : Z)
    : fsprog Z :=
  let '(cnoend, siend, deend) := at_ in
  r <- fat_walk brelse (i_dev sin) bpb
    (fat_sector (i_dev sin) bpb brelse (fun (_ : unit) sp cno si j fp =>
      d <- bdata sp;;
      (if LDIR_ChkSum (de_bytes j d) =? chksum
       then bstore sp (put_de j (put_u8 0 0xE5 (de_bytes j d)) d) else Ret tt);;;
      if (deend =? j)%nat && (siend =? si) && (cnoend =? cno) then
        bwrite sp;;;
        brelse sp;;;
        opt_rel brelse fp;;;
        Ret (inr (match fp with Some b => b.2 | None => last end))
      else Ret (inl tt)))
    (dircluster sin) None last tt;;
  match r with
  | inr last => Ret last
  | inl (_, fp, last) => opt_rel brelse fp;;; Ret last
  end.

(** Clear and free the clusters of the chain. *)
Definition itrunc_chain (sin : inode) (bpb : BPB) (last : Z) : fsprog unit :=
  fsip <- bread (i_dev sin) (FSInfo bpb);;
  fp <- while_fuel (chain_fuel bpb) (fun '(cno, fp, last) =>
    let* (cur, secOff) := fat_entry bpb cno in
    let* (fp, last) := fat_load (fun b => fat_updateFATs b;;; bwrite b;;; brelse b)
                         (i_dev sin) cur fp last in
    fat_cclear (i_dev sin) cno;;;
    deref fp (fun b =>
      cno <- fat_word b secOff;;
      fat_put_word b secOff 0;;;
      bmodify fsip (fun d => put_free_count (u32 (fsi_free_count d + 1)) d);;;
      if isEOF cno then Ret (inr b) else Ret (inl (cno, fp, last))))
    (i_inum sin, None, last);;
  fat_updateFATs fp;;;
  bwrite fp;;;
  brelse fp;;;
  bwrite fsip;;;
  brelse fsip.

(** Truncate inode (discard contents). *)
Definition fat_itrunc (ip : nat) : fsprog unit :=
  sin <- get_inode ip;;
  bpb <- fat_readbpb (i_dev sin);;
  let* (chksum, at_, last) := itrunc_entry sin bpb in
  last <- itrunc_longname sin bpb chksum at_ last;;
  itrunc_chain sin bpb last;;;
  upd_inode ip (set_i_size 0).

(** Caller holds reference to unlocked ip.  Drop reference. *)
Definition fat_iput (ip : nat) : fsprog unit :=
  sin <- get_inode ip;;
  (if (i_ref sin =? 1) && i_has sin I_VALID && (i_nlink sin =? 0) then
     if i_has sin I_BUSY then panic "iput busy"
     else
       upd_inode ip (set_i_flags (Z.lor (i_flags sin) I_BUSY));;;
       fat_itrunc ip;;;
       upd_inode ip (set_i_type 0);;;
       upd_inode ip (set_i_flags 0)
   else Ret tt);;;
  upd_inode ip (fun i => set_i_ref (i_ref i - 1) i).

Definition fat_iunlockput (ip : nat) : fsprog unit :=
  fat_iunlock ip;;; fat_iput ip.

Definition fat_stati (ip : nat) : fsprog stat :=
  sin <- get_inode ip;;
  Ret (mkstat (i_type sin) (s32 (i_dev sin)) (i_inum sin) (i_nlink sin) (i_size sin) (i_fstype sin)).

(** ** Reading and writing *)

Section IO.
Context `{DevSw}.

(** The position of a transfer: bytes done, offset, and what is left of (or
    has been put into) the caller's buffer. *)
Definition fat_io_pos : Type := Z * Z * list Z.

(** Sector [si] of cluster [cno] in [fat_readi]: [inr] when [tot == n]. *)
Definition readi_sector (dev : Z) (bpb : BPB) (n cno : Z) (p : fat_io_pos) (si : Z)
    : fsprog (fat_io_pos + fat_io_pos) :=
  let '(tot, off, dst) := p in
  sp <- bread dev (fat_getFirstSectorofCluster bpb cno + si);;
  let m := Z.min (u32 (n - tot)) (SECTSIZE - off mod SECTSIZE) in
  d <- bdata sp;;
  brelse sp;;;
  let p := (u32 (tot + m), u32 (off + m),
            dst ++ slice (Z.to_nat (off mod SECTSIZE)) (Z.to_nat m) d) in
  Ret (if u32 (tot + m) =? n then inr p else inl p).

(** One round of the [do] loop of [fat_readi]: the result, what was read, and
    the FAT sector still locked. *)
Definition readi_cluster (dev : Z) (bpb : BPB) (n clustersize : Z)
    '((cno, fp, last, pos, (tot, off, dst)) : Z * option bufkey * Z * Z * fat_io_pos)
    : fsprog ((Z * option bufkey * Z * Z * fat_io_pos) + (Z * list Z * option bufkey)) :=
  (* If it is in this cluster *)
  x <- (if off <? u32 (pos + clustersize)
        then iter_list (readi_sector dev bpb n cno)
               (seqZ (u32 (off - pos) / SECTSIZE) (SecPerClus bpb - u32 (off - pos) / SECTSIZE))
               (tot, off, dst)
        else Ret (inl (tot, off, dst)));;
  match x with
  | inr (_, _, dst) => Ret (inr (n, dst, fp))
  | inl (tot, off, dst) =>
      let* (cno, fp, last) := fat_next brelse dev bpb cno fp last in
      if isEOF cno then Ret (inr (0, dst, fp))
      else Ret (inl (cno, fp, last, u32 (pos + clustersize), (tot, off, dst)))
  end.

(** Read data from inode. *)
Definition fat_readi (ip : nat) (off n : Z) : fsprog (Z * list Z) :=
  sin <- get_inode ip;;
  if i_type sin =? T_DEV then
    if (i_major sin <? 0) || (NDEV <=? i_major sin) then Ret (-1, [])
    else match dev_read (i_major sin) with
         | None => Ret (-1, [])
         | Some f => f ip n
         end
  else if negb (i_type sin =? T_DIR) && ((i_size sin <? off) || (u32 (off + n) <? off)) then
    Ret (-1, [])
  else
    let n := if i_type sin =? T_DIR then 32
             else if i_size sin <? u32 (off + n) then u32 (i_size sin - off) else n in
    bpb <- fat_readbpb (i_dev sin);;
    let clustersize := u32 (SecPerClus bpb * SECTSIZE) in
    let* (n, dst, fp) := while_fuel (chain_fuel bpb) (readi_cluster (i_dev sin) bpb n clustersize)
                           (i_inum sin, None, 0, 0, (0, off, [])) in
    opt_rel brelse fp;;;
    Ret (s32 n, dst).

Definition writei_sector (dev : Z) (bpb : BPB) (n cno : Z) (p : fat_io_pos) (si : Z)
    : fsprog (fat_io_pos + fat_io_pos) :=
  let '(tot, off, src) := p in
  sp <- bread dev (fat_getFirstSectorofCluster bpb cno + si);;
  let m := Z.min (u32 (n - tot)) (SECTSIZE - off mod SECTSIZE) in
  (if Z.of_nat (length src) <? m then undef "read outside the source buffer"
   else bmodify sp (splice (Z.to_nat (off mod SECTSIZE)) (take (Z.to_nat m) src)));;;
  bwrite sp;;;
  brelse sp;;;
  let p := (u32 (tot + m), u32 (off + m), drop (Z.to_nat m) src) in
  Ret (if u32 (tot + m) =? n then inr p else inl p).

Definition rel_fat (b : bufkey) : fsprog unit := fat_updateFATs b;;; bwrite b;;; brelse b.

(** One round of the [do] loop of [fat_writei]: the offset reached and the FAT
    sector still locked. *)
Definition writei_cluster (dev : Z) (bpb : BPB) (n clustersize : Z)
    '((cno, fp, last, pos, (tot, off, src)) : Z * option bufkey * Z * Z * fat_io_pos)
    : fsprog ((Z * option bufkey * Z * Z * fat_io_pos) + (Z * option bufkey)) :=
  (* If it is in this cluster *)
  x <- (if off <? u32 (pos + clustersize)
        then iter_list (writei_sector dev bpb n cno)
               (seqZ (u32 (off - pos) / SECTSIZE) (SecPerClus bpb - u32 (off - pos) / SECTSIZE))
               (tot, off, src)
        else Ret (inl (tot, off, src)));;
  match x with
  | inr (_, off, _) => Ret (inr (off, fp))
  | inl (tot, off, src) =>
      (* Locate to FAT entry *)
      let* (cur, secOff) := fat_entry bpb cno in
      let* (fp, last) := fat_load rel_fat dev cur fp last in
      deref fp (fun b =>
        cno <- fat_word b secOff;;
        if isEOF cno then
          brelse b;;;
          cno <- fat_calloc dev;;
          b <- bread dev cur;;
          fat_put_word b secOff cno;;;
          Ret (inl (cno, Some b, last, u32 (pos + clustersize), (tot, off, src)))
        else Ret (inl (cno, fp, last, u32 (pos + clustersize), (tot, off, src))))
  end.

(** Write data to inode, appending clusters to its chain as needed. *)
Definition fat_writei (ip : nat) (src : list Z) (off n : Z) : fsprog Z :=
  sin <- get_inode ip;;
  if i_type sin =? T_DEV then
    if (i_major sin <? 0) || (NDEV <=? i_major sin) then Ret (-1)
    else match dev_write (i_major sin) with
         | None => Ret (-1)
         | Some f => f ip src n
         end
  else if (i_size sin <? off) || (u32 (off + n) <? off) then Ret (-1)
  else
    bpb <- fat_readbpb (i_dev sin);;
    let clustersize := u32 (SecPerClus bpb * SECTSIZE) in
    let* (off, fp) := while_fuel (chain_fuel bpb) (writei_cluster (i_dev sin) bpb n clustersize)
                        (i_inum sin, None, 0, 0, (0, off, src)) in
    opt_rel rel_fat fp;;;
    sin <- get_inode ip;;
    (if (0 <? n) && (i_size sin <? off) then
       upd_inode ip (set_i_size off);;;
       fat_iupdate ip
     else Ret tt);;;
    Ret (s32 n).
End IO.
