(* ===== verification/FatSpec.v ===== *)
(** * FAT32 volumes, cluster chains and reading

    [fat_vol] says what a FAT32 volume is, [chain] which clusters a file has;
    [fat_bytes] are the bytes of the file. *)

From stdpp Require Import base gmap strings numbers list.
From S2P Require Import Prelude Prog Layout Log LStore State FsLogic FatBase FatInode.

(** Two blocks differ because their sector numbers do. *)
Ltac other_sector :=
  let E := fresh in intros E; apply (f_equal snd) in E; cbn [snd] in E; lia.

Section Volume.
Context (dev : Z).
Implicit Types (l : lstore) (k : kmem) (c n : Z) (cs : list Z).

Definition bpb_of l : BPB := get_bpb (lget l (dev, 0)).

(** The sectors of the first FAT and of the data. *)
Definition fat_start (b : BPB) : Z := ResvdSecCnt b.
Definition data_start (b : BPB) : Z := ResvdSecCnt b + NumFATs b * FATSz32 b.
Definition fat_sec (b : BPB) (s : Z) : Prop := fat_start b <= s < fat_start b + FATSz32 b.

Record bpb_ok (b : BPB) : Prop := {
  bo_bps : BytsPerSec b = 512;
  bo_spc : 1 <= SecPerClus b < 256;
  bo_fsi : 1 <= FSInfo b < ResvdSecCnt b;
  bo_nfats : 1 <= NumFATs b;
  bo_fatsz : 1 <= FATSz32 b;
  bo_total : data_start b <= TotSec32 b < 2 ^ 28;
}.

Record fat_vol l : Prop := {
  fv_bpb : bpb_ok (bpb_of l);
  fv_blk : forall s, 0 <= s < TotSec32 (bpb_of l) -> blk_ok l (dev, s);
  fv_len : forall s, 0 <= s < TotSec32 (bpb_of l) -> length (lget l (dev, s)) = 512%nat;
}.

(** A cluster that has an entry in the FAT and its sectors on the volume. *)
Definition cluster_ok (b : BPB) c : Prop :=
  2 <= c /\ c / 128 < FATSz32 b /\ data_start b + (c - 1) * SecPerClus b <= TotSec32 b.

(** A cluster number the FAT has an entry for. *)
Definition entry_ok (b : BPB) c : Prop := 0 <= c < 2 ^ 28 /\ c / 128 < FATSz32 b.

Definition fat_at l c : Z := get_u32 (Z.to_nat (4 * (c mod 128))) (lget l (dev, fat_start (bpb_of l) + c / 128)).

Fixpoint chain l c cs : Prop :=
  match cs with
  | [] => False
  | x :: rest => x = c /\ cluster_ok (bpb_of l) c /\
      match rest with
      | [] => isEOF (fat_at l c) = true
      | _ => isEOF (fat_at l c) = false /\ chain l (fat_at l c) rest
      end
  end.

(** Sector [s] of the file, and its bytes. *)
Definition first_sec (b : BPB) c : Z := data_start b + (c - 2) * SecPerClus b.
Definition file_sec l cs (s : Z) : Z :=
  let spc := SecPerClus (bpb_of l) in
  first_sec (bpb_of l) (nth (Z.to_nat (s / spc)) cs 0) + s mod spc.
Definition fat_byte l cs (x : Z) : Z := nth (Z.to_nat (x mod 512)) (lget l (dev, file_sec l cs (x / 512))) 0.
Definition fat_bytes l cs (off n : Z) : list Z := map (fat_byte l cs) (seqZ off n).

(** ** Chains *)

Lemma chain_det l c cs cs' : chain l c cs -> chain l c cs' -> cs = cs'.
Proof.
  revert c cs'. induction cs as [|x cs IH]; intros c [|x' cs'] H H'; try done; cbn [chain] in *.
  destruct H as (-> & _ & H), H' as (-> & _ & H'). f_equal.
  destruct cs as [|y cs], cs' as [|y' cs']; [done| | |].
  - destruct H' as [H' _]. congruence.
  - destruct H as [H _]. congruence.
  - destruct H as [_ H], H' as [_ H']. by apply (IH (fat_at l c)).
Qed.

Lemma chain_head l c cs : chain l c cs -> exists rest, cs = c :: rest.
Proof. destruct cs as [|x cs]; [done|]. intros (-> & _). eauto. Qed.

Lemma chain_suffix l c cs1 x cs2 : chain l c (cs1 ++ x :: cs2) -> chain l x (x :: cs2).
Proof.
  revert c. induction cs1 as [|y cs1 IH]; intros c H; cbn [app] in H.
  - by destruct (chain_head _ _ _ H) as (? & [= <- <-]).
  - apply (IH (fat_at l c)). cbn [chain] in H. destruct H as (_ & _ & H).
    destruct (cs1 ++ x :: cs2) eqn:E; [by destruct cs1|]. apply H.
Qed.

Lemma chain_ok l c cs : chain l c cs -> Forall (cluster_ok (bpb_of l)) cs.
Proof.
  revert c. induction cs as [|x cs IH]; intros c H; [done|]. cbn [chain] in H. destruct H as (-> & Hc & H).
  constructor; [done|]. destruct cs as [|y cs]; [constructor|]. apply (IH _ (proj2 H)).
Qed.

(** A chain that ends visits no cluster twice. *)
Lemma chain_nodup l c cs : chain l c cs -> NoDup cs.
Proof.
  revert c. induction cs as [|x cs IH]; intros c H; [constructor|].
  pose proof H as Hc. destruct (chain_head _ _ _ H) as (rest & [= -> ->]). constructor.
  - intros (r1 & r2 & ->)%list_elem_of_split. pose proof (chain_suffix l c (c :: r1) c r2 H) as H2.
    pose proof (chain_det _ _ _ _ Hc H2) as E. apply (f_equal length) in E. cbn in E. rewrite length_app in E. cbn in E. lia.
  - destruct rest as [|y rest]; [constructor|]. cbn [chain] in H. eapply (IH (fat_at l c)), H.
Qed.

Lemma chain_length l c cs : fat_vol l -> chain l c cs -> (length cs <= Z.to_nat (TotSec32 (bpb_of l)))%nat.
Proof.
  intros Hv Hc. pose proof (fv_bpb _ Hv) as []. 
  assert (cs ⊆+ seqZ 0 (TotSec32 (bpb_of l))) as Hs.
  { apply NoDup_submseteq; [by eapply chain_nodup|]. intros x Hx.
    pose proof (proj1 (Forall_forall _ _) (chain_ok _ _ _ Hc) x Hx) as (H2 & _ & H3). apply elem_of_seqZ.
    unfold data_start in *. nia. }
  apply submseteq_length in Hs. by rewrite length_seqZ in Hs.
Qed.
(** ** The code's arithmetic *)

Lemma bpb_order b : bpb_ok b -> 1 <= FSInfo b < fat_start b /\ 1 <= FATSz32 b /\ fat_start b + FATSz32 b <= data_start b /\ data_start b <= TotSec32 b < 2 ^ 28.
Proof. intros []. unfold data_start, fat_start in *. split_and!; try lia. assert (FATSz32 b <= NumFATs b * FATSz32 b) by nia. lia. Qed.

Lemma cluster_bound b c : bpb_ok b -> cluster_ok b c -> 2 <= c < 2 ^ 28 /\ fat_sec b (fat_start b + c / 128) /\
  forall i, 0 <= i < SecPerClus b -> data_start b <= first_sec b c + i < TotSec32 b.
Proof. intros [] (H2 & Hf & Hd). unfold fat_sec, first_sec, data_start, fat_start in *. split_and!; try lia; try nia. Qed.

Lemma first_sector b c : bpb_ok b -> cluster_ok b c -> fat_getFirstSectorofCluster b c = first_sec b c.
Proof.
  intros Hb Hc. destruct (cluster_bound _ _ Hb Hc) as (H1 & _ & H3). destruct Hb. specialize (H3 0 ltac:(lia)).
  unfold fat_getFirstSectorofCluster. rewrite (u32_small (c - 2)) by lia.
  unfold first_sec, data_start in *. rewrite u32_small by lia. lia.
Qed.

Lemma cluster_entry b c : bpb_ok b -> cluster_ok b c -> entry_ok b c.
Proof. intros Hb Hc. destruct (cluster_bound _ _ Hb Hc) as (H1 & _). destruct Hc as (_ & Hf & _). split; [lia|done]. Qed.

Lemma entry_sec b c : entry_ok b c -> fat_sec b (fat_start b + c / 128).
Proof. intros [H1 H2]. unfold fat_sec. lia. Qed.

Lemma fat_entry_at b c : bpb_ok b -> entry_ok b c -> fat_getFATEntry b c = (fat_start b + c / 128, 4 * (c mod 128)).
Proof.
  intros Hb [H1 H2]. pose proof (bpb_order _ Hb) as H3. unfold fat_getFATEntry.
  rewrite (bo_bps _ Hb), (u32_small (c * 4)) by lia. unfold fat_start in *. f_equal; [rewrite u32_small|]; lia.
Qed.

(** ** The FAT sector kept locked *)

(** The store with the buffer [fp] locked, and what [fp] and the number of the
    last sector can be. *)
Definition with_fp l (fp : option bufkey) : lstore :=
  match fp with Some b => hold b (lget l b) l | None => l end.
Definition fp_ok l (fp : option bufkey) (last : Z) : Prop :=
  match fp with Some b => b = (dev, last) /\ fat_sec (bpb_of l) last | None => last = 0 end.

(** A store in which at most the FSInfo sector is locked, and buffers are
    free. *)
Record idle l : Prop := {
  id_held : forall b, b <> (dev, FSInfo (bpb_of l)) -> ls_held l !! b = None;
  id_one : (size (ls_held l) <= 1)%nat;
  id_room : (size (ls_logged l) <= 6)%nat;
}.

Lemma calm_hold l b d : (size (ls_logged l) + size (ls_held l) <= 8)%nat -> calm (hold b d l).
Proof. intros Hl. unfold calm. cbn. rewrite map_size_insert. destruct (ls_held l !! b); unfold id; lia. Qed.

Lemma with_fp_calm l fp : idle l -> calm (with_fp l fp).
Proof. intros [_ H1 H2]. destruct fp as [b|]; [apply calm_hold; lia|unfold calm; cbn; lia]. Qed.

Lemma lget_with_fp l fp b : lget (with_fp l fp) b = lget l b.
Proof. by destruct fp. Qed.

Lemma blk_ok_with_fp l fp b : blk_ok l b -> blk_ok (with_fp l fp) b.
Proof. by destruct fp. Qed.

Lemma fat_sec_range l s : fat_vol l -> fat_sec (bpb_of l) s -> 1 <= s < data_start (bpb_of l).
Proof. intros Hv Hs. destruct (fv_bpb _ Hv). unfold fat_sec, fat_start, data_start in *. nia. Qed.

(** The data of a cluster is not the FAT sector that is locked. *)
Lemma data_free l fp last s : idle l -> fat_vol l -> fp_ok l fp last -> data_start (bpb_of l) <= s -> ls_held (with_fp l fp) !! (dev, s) = None.
Proof.
  intros Hi Hv Hf Hs. assert (ls_held l !! (dev, s) = None) as Hn.
  { apply (id_held _ Hi). pose proof (bpb_order _ (fv_bpb _ Hv)). other_sector. }
  destruct fp as [b|]; cbn; [|done]. destruct Hf as [-> Hf].
  pose proof (fat_sec_range _ _ Hv Hf). rewrite lookup_insert_ne; [done|]. intros [= E]. lia.
Qed.

Lemma fat_free l s : idle l -> fat_vol l -> fat_sec (bpb_of l) s -> ls_held l !! (dev, s) = None.
Proof. intros Hi Hv Hs. apply (id_held _ Hi). pose proof (bpb_order _ (fv_bpb _ Hv)). unfold fat_sec in *. other_sector. Qed.

(** Reading a sector while [fp] is locked. *)
Lemma run_read_sector l fp last s k : idle l -> fat_vol l -> fp_ok l fp last -> data_start (bpb_of l) <= s < TotSec32 (bpb_of l) ->
  run (bread dev s) k (with_fp l fp) = Ok ((dev, s), k, hold (dev, s) (lget l (dev, s)) (with_fp l fp)) /\
  run (brelse (dev, s)) k (hold (dev, s) (lget l (dev, s)) (with_fp l fp)) = Ok (tt, k, with_fp l fp).
Proof.
  intros Hi Hv Hf Hs. assert (0 <= data_start (bpb_of l)) by (destruct (fv_bpb _ Hv); unfold data_start; nia). split.
  - rewrite run_bread; [by rewrite lget_with_fp| | |].
    + apply blk_ok_with_fp, (fv_blk _ Hv). lia.
    + by apply with_fp_calm.
    + eapply data_free; eauto; lia.
  - apply run_brelse; [by rewrite lget_with_fp|]. eapply data_free; eauto; lia.
Qed.

Lemma run_opt_rel l fp last k : idle l -> fat_vol l -> fp_ok l fp last -> run (opt_rel brelse fp) k (with_fp l fp) = Ok (tt, k, l).
Proof. intros Hi Hv Hf. destruct fp as [b|]; [|done]. destruct Hf as [-> Hf]. cbn [with_fp opt_rel]. apply run_brelse; [done|]. by apply fat_free. Qed.

(** [fat_load] of a FAT sector *)
Lemma run_fat_load l fp last s k : idle l -> fat_vol l -> fp_ok l fp last -> fat_sec (bpb_of l) s ->
  run (fat_load brelse dev s fp last) k (with_fp l fp) = Ok ((Some (dev, s), s), k, with_fp l (Some (dev, s))).
Proof.
  intros Hi Hv Hf Hs. pose proof (fat_sec_range _ _ Hv Hs) as Hr. destruct (fv_bpb _ Hv). unfold fat_load.
  destruct (Z.eqb_spec s last) as [<-|Hne]; cbn [negb].
  - destruct fp as [b|]; [destruct Hf as [-> _]; done|]. cbn in Hf. lia.
  - run_step run_opt_rel; [|done..]. run_step run_bread.
    + done.
    + apply (fv_blk _ Hv). lia.
    + apply (with_fp_calm l None Hi).
    + by apply fat_free.
Qed.

Lemma run_fat_word l s c k : idle l -> 0 <= c < 128 ->
  run (fat_word (dev, s) (4 * c)) k (with_fp l (Some (dev, s))) = Ok (get_u32 (Z.to_nat (4 * c)) (lget l (dev, s)), k, with_fp l (Some (dev, s))).
Proof.
  intros Hi Hc. unfold fat_word. cbn [with_fp]. run_step run_bdata. unfold SECTSIZE.
  rewrite (proj2 (Z.leb_le _ _)), (proj2 (Z.leb_le _ _)) by lia. done.
Qed.

(** "Find FAT entry" *)
Lemma run_fat_next l fp last c k : idle l -> fat_vol l -> fp_ok l fp last -> entry_ok (bpb_of l) c ->
  let s := fat_start (bpb_of l) + c / 128 in
  run (fat_next brelse dev (bpb_of l) c fp last) k (with_fp l fp) =
    Ok ((fat_at l c, Some (dev, s), s), k, with_fp l (Some (dev, s))) /\ fp_ok l (Some (dev, s)) s.
Proof.
  intros Hi Hv Hf Hc s. pose proof (fv_bpb _ Hv) as Hb. pose proof (entry_sec _ _ Hc) as Hs. split; [|done].
  unfold fat_next, fat_entry. rewrite (bo_bps _ Hb). cbn [Z.eqb]. rewrite (fat_entry_at _ _ Hb Hc). fold s.
  cbn [pbind]. run_step run_fat_load. cbn [deref]. run_step run_fat_word; [done|lia].
Qed.
(** ** Reading *)

Lemma fat_bytes_app l cs off m n : 0 <= m -> 0 <= n -> fat_bytes l cs off (m + n) = fat_bytes l cs off m ++ fat_bytes l cs (off + m) n.
Proof. intros. unfold fat_bytes. by rewrite seqZ_app, map_app. Qed.

Lemma length_fat_bytes l cs off n : length (fat_bytes l cs off n) = Z.to_nat n.
Proof. unfold fat_bytes. by rewrite length_map, length_seqZ. Qed.

Lemma lookup_fat_bytes l cs off n j :
  (j < Z.to_nat n)%nat -> fat_bytes l cs off n !! j = Some (fat_byte l cs (off + Z.of_nat j)).
Proof. intros Hj. unfold fat_bytes. rewrite list_lookup_fmap. rewrite lookup_seqZ_lt by lia. done. Qed.

(** Part of one sector. *)
Lemma fat_bytes_sector l cs off m :
  0 <= off -> 0 <= m -> off mod 512 + m <= 512 -> length (lget l (dev, file_sec l cs (off / 512))) = 512%nat ->
  slice (Z.to_nat (off mod 512)) (Z.to_nat m) (lget l (dev, file_sec l cs (off / 512))) = fat_bytes l cs off m.
Proof.
  intros Hoff Hm Hb Hl. apply list_eq. intros j. rewrite lookup_slice. case_decide as Hj.
  - rewrite lookup_fat_bytes by done. unfold fat_byte. replace ((off + Z.of_nat j) / 512) with (off / 512) by lia.
    replace (Z.to_nat ((off + Z.of_nat j) mod 512)) with (Z.to_nat (off mod 512) + j)%nat by lia.
    destruct (lookup_lt_is_Some_2 (lget l (dev, file_sec l cs (off / 512))) (Z.to_nat (off mod 512) + j)) as [c Hc]; [lia|].
    rewrite Hc. f_equal. symmetry. by apply nth_lookup_Some.
  - symmetry. apply lookup_ge_None. rewrite length_fat_bytes. lia.
Qed.

(** The sectors of cluster number [j] of the file. *)
Lemma file_sec_cluster l cs j c s : cs !! j = Some c -> 0 <= s < SecPerClus (bpb_of l) ->
  file_sec l cs (Z.of_nat j * SecPerClus (bpb_of l) + s) = first_sec (bpb_of l) c + s.
Proof.
  intros Hj Hs. unfold file_sec. rewrite Z.div_add_l, Z.div_small, Z.add_0_r, Nat2Z.id by lia.
  assert ((Z.of_nat j * SecPerClus (bpb_of l) + s) mod SecPerClus (bpb_of l) = s) as ->
    by (rewrite Z.add_comm, Z.mod_add, Z.mod_small by lia; done).
  by rewrite (nth_lookup_Some _ _ _ _ Hj).
Qed.

Lemma run_readi_sectors l cs fp last k j c off0 n ns s tot :
  idle l -> fat_vol l -> fp_ok l fp last -> cs !! j = Some c -> cluster_ok (bpb_of l) c ->
  0 <= off0 -> 0 <= tot <= n -> off0 + n < 2 ^ 32 ->
  0 <= s -> s + Z.of_nat ns = SecPerClus (bpb_of l) -> (0 < ns)%nat ->
  (off0 + tot) / 512 = Z.of_nat j * SecPerClus (bpb_of l) + s ->
  let end_ := 512 * SecPerClus (bpb_of l) * (Z.of_nat j + 1) in
  run (iter_list (readi_sector dev (bpb_of l) n c) (seqZ s (Z.of_nat ns)) (tot, off0 + tot, fat_bytes l cs off0 tot)) k (with_fp l fp) =
    Ok ((if off0 + n <=? end_ then inr (n, off0 + n, fat_bytes l cs off0 n)
         else inl (end_ - off0, end_, fat_bytes l cs off0 (end_ - off0))), k, with_fp l fp).
Proof.
  intros Hi Hv Hf Hj Hc Hoff. revert s tot. induction ns as [|ns IH]; intros s tot Ht Hn Hs Hns Hpos Hsec end_; [lia|].
  pose proof (fv_bpb _ Hv) as Hb. destruct (cluster_bound _ _ Hb Hc) as (_ & _ & Hdata). specialize (Hdata s ltac:(lia)).
  rewrite seqZ_cons by lia. cbn [iter_list]. unfold readi_sector at 1. rewrite (first_sector _ _ Hb Hc).
  destruct (run_read_sector l fp last (first_sec (bpb_of l) c + s) k Hi Hv Hf ltac:(lia)) as [Hrd Hrl].
  rewrite !run_assoc. erewrite run_bind_Ok by exact Hrd. rewrite run_assoc. run_step run_bdata.
  rewrite run_assoc. erewrite run_bind_Ok by exact Hrl. cbn [pbind]. unfold SECTSIZE.
  set (m := Z.min (u32 (n - tot)) (512 - (off0 + tot) mod 512)).
  assert (0 <= m /\ (off0 + tot) mod 512 + m <= 512 /\ tot + m <= n /\ (tot < n -> 0 < m)) as Hm by (subst m; rewrite u32_small by lia; lia).
  assert (tot + m = n \/ (off0 + tot + m) mod 512 = 0 /\ (off0 + tot + m) / 512 = Z.of_nat j * SecPerClus (bpb_of l) + (s + 1)) as Hend
    by (subst m; rewrite u32_small by lia; lia).
  rewrite <- (file_sec_cluster l cs j c s Hj), <- Hsec by lia.
  rewrite fat_bytes_sector; [|lia|lia|lia|].
  2: { rewrite Hsec, (file_sec_cluster l cs j c s Hj) by lia. apply (fv_len _ Hv).
       destruct Hb. unfold data_start in *. nia. }
  rewrite <- fat_bytes_app by lia. rewrite (u32_small (tot + m)), (u32_small (off0 + tot + m)) by lia.
  clearbody m. destruct (Z.eqb_spec (tot + m) n) as [He|Hne].
  - rewrite (proj2 (Z.leb_le _ _)); [|subst end_; nia]. rewrite <- Z.add_assoc, He. done.
  - destruct Hend as [|[Hm0 Hd]]; [done|]. rewrite <- Z.add_assoc. rewrite <- Z.add_assoc in Hm0, Hd.
    destruct (decide (ns = 0%nat)) as [->|Hne0].
    + assert (s + 1 = SecPerClus (bpb_of l)) as E by lia. rewrite E in Hd.
      assert (off0 + (tot + m) = end_) as <-.
      { subst end_. replace (512 * SecPerClus (bpb_of l) * (Z.of_nat j + 1)) with (512 * (Z.of_nat j * SecPerClus (bpb_of l) + SecPerClus (bpb_of l))) by ring. lia. }
      rewrite (proj2 (Z.leb_gt _ _)) by lia. replace (off0 + (tot + m) - off0) with (tot + m) by lia. done.
    + replace (Z.pred (Z.of_nat (S ns))) with (Z.of_nat ns) by lia. unfold Z.succ. apply IH; lia.
Qed.
Lemma run_readi_clusters l cs n off0 k cs2 : forall cs1 c fp last tot fuel,
  idle l -> fat_vol l -> cs = cs1 ++ cs2 -> chain l c cs2 -> fp_ok l fp last ->
  0 <= off0 -> 0 <= tot <= n -> tot < n \/ tot = 0 ->
  let C := 512 * SecPerClus (bpb_of l) in
  off0 + n <= C * Z.of_nat (length cs) < 2 ^ 32 -> C * Z.of_nat (length cs1) <= off0 + tot -> (length cs2 <= fuel)%nat ->
  exists fp' last', fp_ok l fp' last' /\
    run (while_fuel fuel (readi_cluster dev (bpb_of l) n C) (c, fp, last, C * Z.of_nat (length cs1), (tot, off0 + tot, fat_bytes l cs off0 tot))) k (with_fp l fp) =
      Ok ((n, fat_bytes l cs off0 n, fp'), k, with_fp l fp').
Proof.
  induction cs2 as [|x cs2 IH]; intros cs1 c fp last tot fuel Hi Hv Hcs Hch Hf Hoff Htot Htn C Hend Hpos Hfuel; [done|].
  destruct fuel as [|fuel]; [cbn in Hfuel; lia|]. pose proof (fv_bpb _ Hv) as Hb. pose proof (bo_spc _ Hb) as Hspc.
  destruct (chain_head _ _ _ Hch) as (? & [= -> <-]). cbn [chain] in Hch. destruct Hch as (_ & Hc & Hch).
  assert (cs !! length cs1 = Some c) as Hj by (subst cs; apply list_lookup_middle; done).
  assert (C * (Z.of_nat (length cs1) + 1) <= C * Z.of_nat (length cs)) as Hle by (subst cs C; rewrite length_app; cbn [length]; nia).
  cbn [while_fuel]. unfold readi_cluster at 1.
  set (pos := C * Z.of_nat (length cs1)) in *. assert (pos + C = C * (Z.of_nat (length cs1) + 1)) as HposC by (subst pos; ring).
  rewrite (u32_small (pos + C)) by lia. rewrite run_assoc.
  set (read := if off0 + tot <? pos + C then _ else _).
  assert (run read k (with_fp l fp) = Ok ((if off0 + n <=? pos + C then
       (if off0 + tot <? pos + C then inr (n, off0 + n, fat_bytes l cs off0 n) else inl (tot, off0 + tot, fat_bytes l cs off0 tot))
     else inl (Z.max tot (pos + C - off0), off0 + Z.max tot (pos + C - off0), fat_bytes l cs off0 (Z.max tot (pos + C - off0)))), k, with_fp l fp)) as Hread.
  { subst read. destruct (Z.ltb_spec (off0 + tot) (pos + C)) as [Hin|Hout].
    - rewrite (u32_small (off0 + tot - pos)) by lia. unfold SECTSIZE. set (s := (off0 + tot - pos) / 512).
      assert (0 <= s < SecPerClus (bpb_of l)) as Hs by (subst s C; split; [|apply Z.div_lt_upper_bound]; lia).
      replace (SecPerClus (bpb_of l) - s) with (Z.of_nat (Z.to_nat (SecPerClus (bpb_of l) - s))) by lia.
      rewrite (run_readi_sectors l cs fp last k (length cs1) c off0 n) by (try done; try lia;
        subst s pos C; rewrite <- (Z.add_comm (- _)), Z.add_opp_l; try lia).
      fold C. rewrite <- HposC. rewrite (Z.max_r tot) by lia. replace (off0 + (pos + C - off0)) with (pos + C) by lia. done.
    - destruct (off0 + n <=? pos + C); [done|]. by rewrite Z.max_l by lia. }
  erewrite run_bind_Ok by exact Hread. clear Hread read.
  set (tot' := Z.max tot (pos + C - off0)).
  assert (off0 + n <= pos + C /\ off0 + tot < pos + C \/
    (if off0 + n <=? pos + C then
       (if off0 + tot <? pos + C then inr (n, off0 + n, fat_bytes l cs off0 n) else inl (tot, off0 + tot, fat_bytes l cs off0 tot))
     else inl (tot', off0 + tot', fat_bytes l cs off0 tot')) = (inl (tot', off0 + tot', fat_bytes l cs off0 tot') : fat_io_pos + fat_io_pos) /\
    (off0 + n <= pos + C -> off0 + tot >= pos + C)) as [[H1 H2]|[-> Hout]].
  { destruct (Z.leb_spec (off0 + n) (pos + C)); [|right; split; [done|lia]].
    destruct (Z.ltb_spec (off0 + tot) (pos + C)); [by left|right]. split; [|lia]. assert (tot' = tot) as -> by (subst tot'; lia). done. }
  { rewrite (proj2 (Z.leb_le _ _)), (proj2 (Z.ltb_lt _ _)) by lia. exists fp, last. done. }
  destruct (run_fat_next l fp last c k Hi Hv Hf (cluster_entry _ _ Hb Hc)) as [Hnext Hf']. rewrite run_assoc. erewrite run_bind_Ok by exact Hnext.
  destruct cs2 as [|y cs2].
  - rewrite Hch. eexists _, _. split; [exact Hf'|]. assert (off0 + n <= pos + C) as Hle2.
    { rewrite HposC. subst cs. rewrite length_app in Hend. cbn [length] in Hend. lia. }
    specialize (Hout Hle2). assert (n = 0) as -> by lia. assert (tot' = 0) as -> by (subst tot'; lia). done.
  - assert (0 <= tot' <= n /\ (tot' < n \/ tot' = 0) /\ pos + C <= off0 + tot') as (H1 & H2 & H3).
    { destruct (Z.le_gt_cases (off0 + n) (pos + C)) as [Hx|Hx]; [specialize (Hout Hx)|]; subst tot'; lia. }
    destruct Hch as [He Hch]. rewrite He. cbn [pbind].
    replace (pos + C) with (C * Z.of_nat (length (cs1 ++ [c]))) by (rewrite length_app; cbn [length]; lia).
    apply IH; try done; try lia.
    + subst cs. by rewrite <- app_assoc.
    + rewrite length_app. cbn [length]. lia.
    + cbn in Hfuel |- *. lia.
Qed.
(** The file of a cached inode: its clusters, less than 4 GB of them. *)
Record fat_file l (i : inode) cs : Prop := {
  ff_dev : i_dev i = dev;
  ff_chain : chain l (i_inum i) cs;
  ff_size : 0 <= i_size i <= 512 * SecPerClus (bpb_of l) * Z.of_nat (length cs);
  ff_cap : 512 * SecPerClus (bpb_of l) * Z.of_nat (length cs) < 2 ^ 32;
}.

Lemma run_readbpb_calm l k : blk_ok l (dev, 0) -> calm l -> ls_held l !! (dev, 0) = None -> run (fat_readbpb dev) k l = Ok (bpb_of l, k, l).
Proof. intros Hb Hc Hh. unfold fat_readbpb. run_step run_bread. run_step run_bdata. by run_step run_brelse. Qed.

Lemma blk_ok_0 l : fat_vol l -> blk_ok l (dev, 0).
Proof. intros Hv. apply (fv_blk _ Hv). pose proof (bpb_order _ (fv_bpb _ Hv)). lia. Qed.

Lemma run_readbpb l k : idle l -> fat_vol l -> run (fat_readbpb dev) k l = Ok (bpb_of l, k, l).
Proof.
  intros Hi Hv. apply run_readbpb_calm; [by apply blk_ok_0|apply (with_fp_calm l None Hi)|].
  pose proof (bpb_order _ (fv_bpb _ Hv)). apply (id_held _ Hi). other_sector.
Qed.

(** C10: [fat_readi] returns exactly the bytes of the file.  For a file whose
    clusters the FAT chains from its first one, it follows the chain to the
    offset asked for, returns the bytes asked for across sectors and
    clusters, cut at the size of the file, and fails with -1 for an offset
    beyond the end or a range that wraps around; no buffer stays locked and
    nothing changes. *)
Theorem fat_readi_spec `{DevSw} l cs i ip off n k :
  idle l -> fat_vol l -> cached k ip i -> fat_file l i cs -> i_type i <> T_DEV -> i_type i <> T_DIR ->
  0 <= off < 2 ^ 32 -> 0 <= n < 2 ^ 32 ->
  run (fat_readi ip off n) k l =
    if (i_size i <? off) || (2 ^ 32 <=? off + n) then Ok ((-1, []), k, l)
    else let m := Z.min n (i_size i - off) in Ok ((s32 m, fat_bytes l cs off m), k, l).
Proof.
  intros Hi Hv Hk Hf Ht Hd Ho Hn. pose proof (ff_cap _ _ _ Hf) as Hcap. pose proof (ff_size _ _ _ Hf) as Hsz.
  pose proof (bo_spc _ (fv_bpb _ Hv)) as Hspc.
  unfold fat_readi. run_step run_get_inode. rewrite (proj2 (Z.eqb_neq _ T_DEV)), (proj2 (Z.eqb_neq _ T_DIR)) by done.
  destruct (Z.ltb_spec (i_size i) off) as [|Hle]; [done|]. cbn [negb andb orb].
  destruct (Z.leb_spec (2 ^ 32) (off + n)) as [Hw|Hw].
  { rewrite (proj2 (Z.ltb_lt (u32 (off + n)) off)) by (unfold u32; lia). done. }
  rewrite (u32_small (off + n)) by lia. rewrite (proj2 (Z.ltb_ge (off + n) off)) by lia. cbv zeta iota.
  set (m := Z.min n (i_size i - off)).
  assert ((if i_size i <? off + n then u32 (i_size i - off) else n) = m) as ->.
  { unfold m. destruct (Z.ltb_spec (i_size i) (off + n)); [rewrite u32_small|]; lia. }
  rewrite (ff_dev _ _ _ Hf). run_step run_readbpb. unfold SECTSIZE. rewrite (u32_small (SecPerClus (bpb_of l) * 512)), (Z.mul_comm _ 512) by lia.
  destruct (run_readi_clusters l cs m off k cs [] (i_inum i) None 0 0 (chain_fuel (bpb_of l))) as (fp & last & Hfp & Hrun);
    try done; try lia.
  - apply (ff_chain _ _ _ Hf).
  - cbn. lia.
  - pose proof (chain_length _ _ _ Hv (ff_chain _ _ _ Hf)). unfold chain_fuel. lia.
  - rewrite Z.mul_0_r, Z.add_0_r in Hrun. erewrite run_bind_Ok by exact Hrun. cbn [fst snd]. by run_step run_opt_rel.
Qed.
End Volume.
