(* ===== verification/FatAlloc.v ===== *)
(** * Allocating clusters of a FAT32 volume

    [fat_calloc] on a volume with any number of copies of the FAT. *)

From stdpp Require Import base gmap strings numbers list.
From S2P Require Import Prelude Prog Layout Log LStore State FsLogic FatBase FatInode FatSpec.

(** The store after a [bwrite] of a block that is not in the transaction. *)
Definition wput (b : bufkey) (d : block) (l : lstore) : lstore :=
  mklstore (ls_geom l) (<[b := d]> (ls_view l)) (<[b := d]> (ls_durable l)) (ls_held l) (ls_logged l) (ls_trans l).

Lemma lget_wput b d l : lget (wput b d l) b = d.
Proof. unfold lget, disk_get. cbn. by rewrite lookup_insert_eq. Qed.

Lemma lget_wput_ne b b' d l : b <> b' -> lget (wput b d l) b' = lget l b'.
Proof. intros. unfold lget, disk_get. cbn. by rewrite lookup_insert_ne. Qed.

Lemma run_bwrite_now {K} b d (k : K) l : is_logged l b = false -> run (bwrite b) k (hold b d l) = Ok (tt, k, hold b d (wput b d l)).
Proof. intros Hl. simpl. unfold ls_with. simpl. rewrite lookup_insert_eq. unfold ls_bwrite. change (is_logged (hold b d l) b) with (is_logged l b). by rewrite Hl. Qed.

Section Alloc.
Context (dev : Z).
Implicit Types (l : lstore) (k : kmem) (c n s : Z).

(** A FAT volume is never written in transactions. *)
Definition unlogged l : Prop := forall s, is_logged l (dev, s) = false.

(** The copies of FAT sector [s]: the same sector of each FAT. *)
Definition copy_sec (b : BPB) (s i : Z) : bufkey := (dev, s + i * FATSz32 b).
Definition copies (b : BPB) (s : Z) (d : block) (is_ : list Z) l : lstore := foldl (fun l i => wput (copy_sec b s i) d l) l is_.

Lemma copies_frame b s d is_ l :
  ls_geom (copies b s d is_ l) = ls_geom l /\ ls_held (copies b s d is_ l) = ls_held l /\
  ls_logged (copies b s d is_ l) = ls_logged l /\ ls_trans (copies b s d is_ l) = ls_trans l.
Proof. unfold copies. revert l. induction is_ as [|i is_ IH]; intros l; [done|]. cbn [foldl]. apply (IH (wput _ d l)). Qed.

Lemma lget_copies b s d is_ l x :
  lget (copies b s d is_ l) x = if decide (Exists (fun i => x = copy_sec b s i) is_) then d else lget l x.
Proof.
  unfold copies. revert l. induction is_ as [|i is_ IH]; intros l; cbn [foldl]; [by rewrite decide_False by (by intros H%Exists_nil)|].
  rewrite IH. destruct (decide (Exists _ is_)) as [He|He].
  - by rewrite decide_True by (by right).
  - destruct (decide (x = copy_sec b s i)) as [->|Hne].
    + rewrite decide_True by (by left). apply lget_wput.
    + rewrite decide_False by (rewrite Exists_cons; tauto). by apply lget_wput_ne.
Qed.

Lemma copies_hold b s d is_ b' d' l : copies b s d is_ (hold b' d' l) = hold b' d' (copies b s d is_ l).
Proof. unfold copies. revert l. induction is_ as [|i is_ IH]; intros l; [done|]. cbn [foldl]. apply (IH (wput _ d l)). Qed.

(** [fat_updateFATs] writes the sector it is given to the other FATs. *)
Lemma run_updateFATs_loop bpb s d is_ l k :
  bpb_ok bpb -> fat_sec bpb s -> length d = 512%nat -> unlogged l -> calm (hold (dev, s) d l) ->
  Forall (fun i => 1 <= i < NumFATs bpb) is_ ->
  (forall i, 1 <= i < NumFATs bpb -> blk_ok l (copy_sec bpb s i) /\ ls_held l !! copy_sec bpb s i = None) ->
  run (for_each is_ (fun i =>
    tp <- bread dev (s + i * FATSz32 bpb);;
    d <- bdata (dev, s);;
    bstore tp d;;;
    bwrite tp;;;
    brelse tp)) k (hold (dev, s) d l) = Ok (tt, k, hold (dev, s) d (copies bpb s d is_ l)).
Proof.
  intros Hb Hs Hd Hu Hc His Hblk. revert l Hu Hc Hblk. induction is_ as [|i is_ IH]; intros l Hu Hc Hblk; [done|].
  apply Forall_cons in His as [Hi His]. destruct (Hblk i Hi) as [Hok Hfree]. cbn [for_each copies foldl].
  assert ((dev, s) <> copy_sec bpb s i) as Hne by (pose proof (bo_fatsz _ Hb); unfold copy_sec; intros E; apply (f_equal snd) in E; cbn [snd] in E; nia).
  rewrite !run_assoc. run_step run_bread.
  2: { cbn. by rewrite lookup_insert_ne. }
  fold (copy_sec bpb s i). rewrite hold_comm by done. rewrite run_assoc. run_step run_bdata. rewrite hold_comm by done.
  rewrite run_assoc. run_step run_bstore. rewrite run_assoc. run_step run_bwrite_now; [|apply Hu].
  run_step run_brelse.
  - apply (IH His (wput (copy_sec bpb s i) d l)); try done. 
  - symmetry. apply lget_wput.
  - cbn. by rewrite lookup_insert_ne.
Qed.
Lemma copy_range b s i : bpb_ok b -> fat_sec b s -> 0 <= i < NumFATs b ->
  fat_start b <= s + i * FATSz32 b < data_start b /\ fat_start b + i * FATSz32 b <= s + i * FATSz32 b < fat_start b + (i + 1) * FATSz32 b.
Proof. intros [] [] Hi. unfold data_start, fat_start in *. split; nia. Qed.

Lemma run_updateFATs s d l k : idle dev l -> fat_vol dev l -> unlogged l -> fat_sec (bpb_of dev l) s -> length d = 512%nat ->
  run (fat_updateFATs (dev, s)) k (hold (dev, s) d l) =
    Ok (tt, k, hold (dev, s) d (copies (bpb_of dev l) s d (seqZ 1 (NumFATs (bpb_of dev l) - 1)) l)).
Proof.
  intros Hi Hv Hu Hs Hd. pose proof (fv_bpb _ _ Hv) as Hb. pose proof (bpb_order _ Hb) as Ho.
  assert (calm (hold (dev, s) d l)) as Hc by (destruct Hi; apply calm_hold; lia).
  unfold fat_updateFATs. cbn [fst snd]. run_step run_readbpb_calm.
  - change (bpb_of dev (hold (dev, s) d l)) with (bpb_of dev l). apply run_updateFATs_loop; try done.
    + apply Forall_forall. intros i Hin%elem_of_seqZ. lia.
    + intros i Hin. destruct (copy_range _ _ i Hb Hs ltac:(lia)) as [Hr _]. split.
      * apply (fv_blk _ _ Hv). lia.
      * apply (id_held _ _ Hi). unfold copy_sec. other_sector.
  - apply blk_ok_hold. by apply blk_ok_0.
  - unfold fat_sec in Hs. cbn. rewrite lookup_insert_ne by other_sector. apply (id_held _ _ Hi). other_sector.
Qed.

(** ** One cluster *)

Section Try.
Context (l0 : lstore) (d0 : block).
Let b := bpb_of dev l0.
Let fsi := (dev, FSInfo b).
Let l := hold fsi d0 l0.
Hypothesis Hv : fat_vol dev l0.
Hypothesis Hu : unlogged l0.
Hypothesis Hheld : ls_held l0 = ∅.
Hypothesis Hroom : (size (ls_logged l0) <= 6)%nat.
Hypothesis Hd0 : length d0 = 512%nat.

Lemma try_vol : fat_vol dev l.
Proof. destruct Hv. by split. Qed.

Lemma try_idle : idle dev l.
Proof.
  split; [|cbn; rewrite Hheld, map_size_insert, lookup_empty, map_size_empty; lia|done].
  intros x Hx. cbn. rewrite Hheld, lookup_insert_ne; [done|]. by apply not_eq_sym.
Qed.

(** Cluster [c] taken: its entry marked in every FAT, and FSInfo. *)
Definition new_sec c : block := put_u32 (Z.to_nat (4 * (c mod 128))) LAST_FAT_ENTRY (lget l0 (dev, fat_start b + c / 128)).
Definition new_fsi (nxt : Z -> Z) : block := put_free_count (u32 (fsi_free_count d0 - 1)) (put_nxt_free (u32 (nxt (fsi_nxt_free d0))) d0).
Definition taken (nxt : Z -> Z) c : lstore :=
  let s := fat_start b + c / 128 in
  wput fsi (new_fsi nxt) (wput (dev, s) (new_sec c) (copies b s (new_sec c) (seqZ 1 (NumFATs b - 1)) l0)).

Lemma run_calloc_try nxt c fp last k : fp_ok dev l fp last -> entry_ok b c ->
  let s := fat_start b + c / 128 in
  run (calloc_try dev b fsi nxt c fp last) k (with_fp l fp) =
    if fat_at dev l0 c =? 0 then Ok (inr c, k, taken nxt c)
    else Ok (inl (Some (dev, s), s), k, with_fp l (Some (dev, s))).
Proof.
  intros Hf He s. pose proof try_vol as Hv'. pose proof try_idle as Hi. pose proof (fv_bpb _ _ Hv) as Hb. fold b in Hb.
  pose proof (entry_sec _ _ He) as Hs. fold s in Hs. pose proof (bpb_order _ Hb) as Ho.
  unfold calloc_try, fat_entry. rewrite (bo_bps _ Hb). cbn [Z.eqb]. rewrite (fat_entry_at _ _ Hb He). fold s. cbn [pbind].
  run_step run_fat_load. cbn [deref]. run_step run_fat_word; [|lia]. fold (fat_at dev l c).
  change (get_u32 (Z.to_nat (4 * (c mod 128))) (lget l (dev, s))) with (fat_at dev l0 c).
  destruct (fat_at dev l0 c =? 0); [|done].
  assert (length (lget l0 (dev, s)) = 512%nat) as Hlen by (apply (fv_len _ _ Hv); unfold fat_sec in Hs; fold b; lia).
  assert (length (new_sec c) = 512%nat) as Hnew by (unfold new_sec; fold s; rewrite length_put_u32; lia).
  assert (length (new_fsi nxt) = 512%nat) as Hnf.
  { unfold new_fsi, put_free_count, put_nxt_free. rewrite !length_put_u32; rewrite ?length_put_u32; lia. }
  destruct (copies_frame b s (new_sec c) (seqZ 1 (NumFATs b - 1)) l0) as (Hg & Hh & Hlg & _).
  assert (unlogged (copies b s (new_sec c) (seqZ 1 (NumFATs b - 1)) l0)) as Huc by (intros t; unfold is_logged; rewrite Hlg, Hg; apply Hu).
  unfold fat_put_word. cbn [with_fp]. run_step run_bmodify. fold (new_sec c).
  change (put_u32 (Z.to_nat (4 * (c mod 128))) LAST_FAT_ENTRY (lget l (dev, s))) with (new_sec c).
  run_step run_updateFATs. change (bpb_of dev l) with b. unfold l at 1. rewrite copies_hold.
  run_step run_bwrite_now; [|apply Huc].
  run_step run_brelse; [|symmetry; apply lget_wput|].
  2: { cbn [ls_held wput hold upd_held]. rewrite Hh, Hheld. rewrite lookup_insert_ne; [done|]. unfold fsi. unfold fat_sec in Hs. other_sector. }
  change (wput (dev, s) (new_sec c) (hold fsi d0 ?L)) with (hold fsi d0 (wput (dev, s) (new_sec c) L)).
  run_step run_bmodify. cbv beta. fold (new_fsi nxt).
  run_step run_bwrite_now; [|apply Huc].
  run_step run_brelse; [|symmetry; apply lget_wput|].
  - done.
  - cbn [ls_held wput hold upd_held]. by rewrite Hh, Hheld.
Qed.
(** ** The state after an allocation *)

Section Taken.
Context (nxt : Z -> Z) (c : Z).
Hypothesis Hc : entry_ok b c.
Let s := fat_start b + c / 128.
Let l' := taken nxt c.

Lemma taken_fsi : lget l' fsi = new_fsi nxt.
Proof. apply lget_wput. Qed.

Lemma taken_copy i : 0 <= i < NumFATs b -> lget l' (copy_sec b s i) = new_sec c.
Proof.
  intros Hi. pose proof (fv_bpb _ _ Hv) as Hb. fold b in Hb. pose proof (bpb_order _ Hb) as Ho.
  destruct (copy_range b s i Hb (entry_sec _ _ Hc) Hi) as [Hr _].
  unfold l', taken. rewrite lget_wput_ne by (unfold fsi, copy_sec; other_sector). fold s.
  destruct (decide (i = 0)) as [->|Hne].
  - unfold copy_sec. rewrite Z.mul_0_l, Z.add_0_r. apply lget_wput.
  - rewrite lget_wput_ne by (unfold copy_sec; intros E; apply (f_equal snd) in E; cbn [snd] in E; nia).
    rewrite lget_copies, decide_True; [done|]. apply Exists_exists. exists i. split; [apply elem_of_seqZ; lia|done].
Qed.

Lemma taken_other x : x <> fsi -> (forall i, 0 <= i < NumFATs b -> x <> copy_sec b s i) -> lget l' x = lget l0 x.
Proof.
  intros Hf Hx. pose proof (fv_bpb _ _ Hv) as Hb. fold b in Hb. unfold l', taken. rewrite lget_wput_ne by congruence. fold s.
  rewrite lget_wput_ne.
  2: { intros <-. apply (Hx 0); [destruct Hb; lia|]. unfold copy_sec. f_equal. lia. }
  rewrite lget_copies, decide_False; [done|]. intros (i & Hi%elem_of_seqZ & ->)%Exists_exists. apply (Hx i); [lia|done].
Qed.

Lemma taken_bpb : bpb_of dev l' = b.
Proof.
  pose proof (fv_bpb _ _ Hv) as Hb. fold b in Hb. pose proof (bpb_order _ Hb) as Ho. unfold bpb_of. rewrite taken_other; [done|unfold fsi; other_sector|].
  intros i Hi. destruct (copy_range b s i Hb (entry_sec _ _ Hc) Hi) as [Hr _]. unfold copy_sec. other_sector.
Qed.

Lemma taken_fat x : entry_ok b x -> fat_at dev l' x = if decide (x = c) then LAST_FAT_ENTRY else fat_at dev l0 x.
Proof.
  intros Hx. pose proof (fv_bpb _ _ Hv) as Hb. fold b in Hb. pose proof (bpb_order _ Hb) as Ho.
  assert (length (lget l0 (dev, s)) = 512%nat) as Hlen.
  { apply (fv_len _ _ Hv). pose proof (entry_sec _ _ Hc) as Hs. unfold fat_sec, s in *. fold b. lia. }
  unfold fat_at. rewrite taken_bpb. destruct (decide (x / 128 = c / 128)) as [E|Hne].
  - rewrite E. fold s. pose proof (taken_copy 0 ltac:(destruct Hb; lia)) as Hcp. unfold copy_sec in Hcp. rewrite Z.mul_0_l, Z.add_0_r in Hcp.
    rewrite Hcp. unfold new_sec. fold s. destruct (decide (x = c)) as [->|Hxc].
    + rewrite get_put_u32; [done|lia].
    + fold b. fold s. unfold get_u32. rewrite slice_put_u32_other; [done|lia|lia].
  - rewrite decide_False by congruence. fold b. f_equal. apply taken_other.
    + pose proof (entry_sec _ _ Hx) as Hs. unfold fat_sec, fsi in *. other_sector.
    + intros i Hi. destruct (copy_range b s i Hb (entry_sec _ _ Hc) Hi) as [_ Hr]. pose proof (entry_sec _ _ Hx) as Hs.
      unfold fat_sec, copy_sec, s in *. intros Eq. apply (f_equal snd) in Eq. cbn [snd] in Eq.
      destruct (decide (i = 0)) as [->|]; nia.
Qed.

Lemma taken_vol : fat_vol dev l'.
Proof.
  pose proof (fv_bpb _ _ Hv) as Hb. fold b in Hb. pose proof (bpb_order _ Hb) as Ho. pose proof (entry_sec _ _ Hc) as Hs. fold s in Hs.
  destruct (copies_frame b s (new_sec c) (seqZ 1 (NumFATs b - 1)) l0) as (Hg & _).
  assert (length (lget l0 (dev, s)) = 512%nat) as Hlen by (apply (fv_len _ _ Hv); unfold fat_sec in *; fold b; lia).
  split; rewrite taken_bpb; [done| |]; intros t Ht.
  - pose proof (fv_blk _ _ Hv t Ht) as Hok. unfold blk_ok in *. change (ls_geom l') with (ls_geom (copies b s (new_sec c) (seqZ 1 (NumFATs b - 1)) l0)).
    by rewrite Hg.
  - destruct (decide ((dev, t) = fsi)) as [->|Hf].
    { rewrite taken_fsi. unfold new_fsi, put_free_count, put_nxt_free. rewrite !length_put_u32; rewrite ?length_put_u32; lia. }
    destruct (decide (Exists (fun i => (dev, t) = copy_sec b s i) (seqZ 0 (NumFATs b)))) as [(i & Hi%elem_of_seqZ & ->)%Exists_exists|Hno].
    + rewrite taken_copy by lia. unfold new_sec. fold s. rewrite length_put_u32; lia.
    + rewrite taken_other; [by apply (fv_len _ _ Hv)|done|]. intros i Hi E. apply Hno, Exists_exists. exists i. split; [apply elem_of_seqZ; lia|done].
Qed.

Lemma taken_idle : ls_held l' = ∅ /\ ls_logged l' = ls_logged l0 /\ ls_geom l' = ls_geom l0 /\ ls_trans l' = ls_trans l0.
Proof.
  destruct (copies_frame b s (new_sec c) (seqZ 1 (NumFATs b - 1)) l0) as (Hg & Hh & Hl & Ht).
  unfold l', taken. cbn [ls_held ls_logged ls_geom ls_trans wput]. fold s. by rewrite Hg, Hh, Hl, Ht.
Qed.
End Taken.

(** ** The searches *)

Definition free_from (c : Z) (n : nat) : option Z := head (filter (fun x => fat_at dev l0 x = 0) (seqZ c (Z.of_nat n))).

Lemma free_from_S c (n : nat) : free_from c (S n) = if fat_at dev l0 c =? 0 then Some c else free_from (c + 1) n.
Proof.
  unfold free_from. rewrite seqZ_cons by lia. replace (Z.pred (Z.of_nat (S n))) with (Z.of_nat n) by lia.
  rewrite filter_cons. destruct (Z.eqb_spec (fat_at dev l0 c) 0); case_decide; done.
Qed.

Lemma calloc_from_eq total c fp last : calloc_from dev b fsi total (c, fp, last) =
  if negb (c <? total) then Ret (inr (inl (fp, last)))
  else x <- calloc_try dev b fsi (fun n => n + 1) c fp last;;
       match x with inl (bp, last) => Ret (inl (u32 (c + 1), bp, last)) | inr c => Ret (inr (inr c)) end.
Proof. done. Qed.

Lemma run_calloc_from (n : nat) : forall c fp last fuel k,
  fp_ok dev l fp last -> (forall x, c <= x < c + Z.of_nat n -> entry_ok b x) -> 0 <= c -> c + Z.of_nat n < 2 ^ 28 -> (n < fuel)%nat ->
  match free_from c n with
  | Some x => run (while_fuel fuel (calloc_from dev b fsi (c + Z.of_nat n)) (c, fp, last)) k (with_fp l fp) = Ok (inr x, k, taken (fun n => n + 1) x)
  | None => exists fp' last', fp_ok dev l fp' last' /\
      run (while_fuel fuel (calloc_from dev b fsi (c + Z.of_nat n)) (c, fp, last)) k (with_fp l fp) = Ok (inl (fp', last'), k, with_fp l fp')
  end.
Proof.
  induction n as [|n IH]; intros c fp last [|fuel] k Hf He Hc Ht Hn; try lia; cbn [while_fuel]; rewrite calloc_from_eq.
  - change (Z.of_nat 0) with 0. rewrite Z.add_0_r, Z.ltb_irrefl. exists fp, last. done.
  - rewrite free_from_S. rewrite (proj2 (Z.ltb_lt c _)) by lia. cbn [negb]. rewrite run_assoc, run_bind.
    rewrite run_calloc_try by (try done; apply He; lia).
    destruct (fat_at dev l0 c =? 0) eqn:E; [done|]. cbn [pbind]. rewrite (u32_small (c + 1)) by lia.
    replace (c + Z.of_nat (S n)) with (c + 1 + Z.of_nat n) by lia.
    apply IH; try lia; [|intros x Hx; apply He; lia]. split; [done|]. apply entry_sec, He. lia.
Qed.

Lemma run_calloc_below (n : nat) : forall c fp last fuel k,
  fp_ok dev l fp last -> (forall x, c <= x < c + Z.of_nat n -> entry_ok b x) -> 0 <= c -> c + Z.of_nat n < 2 ^ 28 -> (n < fuel)%nat ->
  run (while_fuel fuel (calloc_below dev b fsi (c + Z.of_nat n)) (c, fp, last)) k (with_fp l fp) =
  match free_from c n with
  | Some x => Ok (x, k, taken (fun _ => x + 1) x)
  | None => Fail (Panic "balloc: out of clusters")
  end.
Proof.
  induction n as [|n IH]; intros c fp last [|fuel] k Hf He Hc Ht Hn; try lia; cbn [while_fuel]; unfold calloc_below at 1.
  - change (Z.of_nat 0) with 0. by rewrite Z.add_0_r, Z.ltb_irrefl.
  - rewrite free_from_S. rewrite (proj2 (Z.ltb_lt c _)) by lia. cbn [negb]. rewrite run_assoc, run_bind.
    rewrite run_calloc_try by (try done; apply He; lia).
    destruct (fat_at dev l0 c =? 0) eqn:E; [done|]. cbn [pbind]. rewrite (u32_small (c + 1)) by lia.
    replace (c + Z.of_nat (S n)) with (c + 1 + Z.of_nat n) by lia.
    apply IH; try lia; [|intros x Hx; apply He; lia]. split; [done|]. apply entry_sec, He. lia.
Qed.
End Try.
(** What an allocation of cluster [c] does to the volume. *)
Record allocated l c (l' : lstore) : Prop := {
  al_vol : fat_vol dev l';
  al_bpb : bpb_of dev l' = bpb_of dev l;
  al_fat : forall x, entry_ok (bpb_of dev l) x -> fat_at dev l' x = if decide (x = c) then LAST_FAT_ENTRY else fat_at dev l x;
  al_copies : forall i, 0 <= i < NumFATs (bpb_of dev l) ->
    lget l' (copy_sec (bpb_of dev l) (fat_start (bpb_of dev l) + c / 128) i) = lget l' (dev, fat_start (bpb_of dev l) + c / 128);
  al_count : fsi_free_count (lget l' (dev, FSInfo (bpb_of dev l))) = u32 (fsi_free_count (lget l (dev, FSInfo (bpb_of dev l))) - 1);
  al_other : forall x, x <> (dev, FSInfo (bpb_of dev l)) ->
    (forall i, 0 <= i < NumFATs (bpb_of dev l) -> x <> copy_sec (bpb_of dev l) (fat_start (bpb_of dev l) + c / 128) i) -> lget l' x = lget l x;
  al_free : ls_held l' = ∅ /\ ls_logged l' = ls_logged l /\ ls_geom l' = ls_geom l;
}.

Lemma taken_allocated l d0 nxt c :
  fat_vol dev l -> unlogged l -> ls_held l = ∅ -> (size (ls_logged l) <= 6)%nat -> d0 = lget l (dev, FSInfo (bpb_of dev l)) -> entry_ok (bpb_of dev l) c -> allocated l c (taken l d0 nxt c).
Proof.
  intros Hv Hu Hh Hr -> Hc. pose proof (fv_bpb _ _ Hv) as Hb. pose proof (bpb_order _ Hb) as Ho.
  set (d0 := lget l (dev, FSInfo (bpb_of dev l))). assert (length d0 = 512%nat) as Hd by (apply (fv_len _ _ Hv); lia).
  assert (forall i, 0 <= i < NumFATs (bpb_of dev l) -> lget (taken l d0 nxt c) (copy_sec (bpb_of dev l) (fat_start (bpb_of dev l) + c / 128) i) = new_sec l c) as Hcp
    by (intros i Hi; by apply taken_copy).
  split.
  - by apply taken_vol.
  - by apply taken_bpb.
  - intros x Hx. by apply taken_fat.
  - intros i Hi. rewrite (Hcp i Hi), <- (Hcp 0 ltac:(destruct Hb; lia)). unfold copy_sec. do 2 f_equal. lia.
  - rewrite taken_fsi. unfold new_fsi, fsi_free_count at 1, put_free_count. rewrite get_put_u32; [fold d0; unfold u32; lia|].
    unfold put_nxt_free. rewrite length_put_u32; lia.
  - intros x Hx Hn. by apply taken_other.
  - pose proof (taken_idle l d0 Hh nxt c) as (? & ? & ? & ?). done.
Qed.

Lemma head_filter_app {A} (P : A -> Prop) `{forall x, Decision (P x)} (l1 l2 : list A) :
  head (filter P (l1 ++ l2)) = match head (filter P l1) with Some x => Some x | None => head (filter P l2) end.
Proof. rewrite filter_app. by destruct (filter P l1). Qed.

Lemma head_filter_in {A} (P : A -> Prop) `{forall x, Decision (P x)} (l : list A) x : head (filter P l) = Some x -> x ∈ l /\ P x.
Proof.
  intros E. assert (x ∈ filter P l) as Hin by (destruct (filter P l); [done|]; injection E as ->; by left).
  apply list_elem_of_filter in Hin. tauto.
Qed.

(** The cluster the search finds: from the hint in FSInfo to the end, then
    from cluster 2 to the hint. *)
Definition hint l : Z := fsi_nxt_free (lget l (dev, FSInfo (bpb_of dev l))).
Definition clusters (b : BPB) : Z := TotSec32 b / SecPerClus b.
Definition free_cluster l : option Z :=
  head (filter (fun x => fat_at dev l x = 0) (seqZ (hint l) (clusters (bpb_of dev l) - hint l) ++ seqZ 2 (hint l - 2))).

(** The FAT has an entry for every cluster number searched. *)
Definition hint_ok l : Prop := 2 <= hint l <= clusters (bpb_of dev l) /\ clusters (bpb_of dev l) <= 128 * FATSz32 (bpb_of dev l).

Lemma run_calloc l k :
  fat_vol dev l -> unlogged l -> ls_held l = ∅ -> (size (ls_logged l) <= 6)%nat -> hint_ok l ->
  match free_cluster l with
  | Some c => exists l', run (fat_calloc dev) k l = Ok (c, k, l') /\ allocated l c l' /\ fat_at dev l c = 0
  | None => run (fat_calloc dev) k l = Fail (Panic "balloc: out of clusters")
  end.
Proof.
  set (b := bpb_of dev l). set (nxt := hint l). set (total := clusters b).
  intros Hv Hu Hh Hr [Hn Ht]. fold b nxt total in Hn, Ht. pose proof (fv_bpb _ _ Hv) as Hb. fold b in Hb. pose proof (bpb_order _ Hb) as Ho.
  unfold free_cluster. fold b nxt total.
  assert (idle dev l) as Hi by (split; [intros x _; by rewrite Hh|rewrite Hh, map_size_empty; lia|done]).
  assert (length (lget l (dev, FSInfo b)) = 512%nat) as Hd by (apply (fv_len _ _ Hv); fold b; lia).
  assert (total < 2 ^ 28) as Htot by (subst total; unfold clusters; destruct Hb; apply Z.div_lt_upper_bound; nia).
  assert (forall x, 2 <= x < total -> entry_ok b x) as He by (intros x Hx; split; [lia|apply Z.div_lt_upper_bound; lia]).
  unfold fat_calloc. run_step run_readbpb. fold b. run_step run_bread; [|apply (fv_blk _ _ Hv); fold b; lia|apply (with_fp_calm dev l None Hi)|by rewrite Hh].
  run_step run_bdata. rewrite (proj2 (Z.eqb_neq (SecPerClus b) 0)) by (destruct Hb; lia). cbv zeta. fold (clusters b). fold total. change (fsi_nxt_free (lget l (dev, FSInfo b))) with nxt.
  rewrite head_filter_app.
  pose proof (run_calloc_from l (lget l (dev, FSInfo b)) Hv Hu Hh Hr Hd (Z.to_nat (total - nxt)) nxt None 0 (Z.to_nat (total - nxt) + 1) k
    eq_refl ltac:(intros x Hx; apply He; lia) ltac:(lia) ltac:(lia) ltac:(lia)) as H1.
  rewrite Z2Nat.id in H1 by lia. replace (nxt + (total - nxt)) with total in H1 by lia.
  unfold free_from in H1. rewrite Z2Nat.id in H1 by lia. cbn [with_fp] in H1. fold b in H1.
  destruct (head (filter _ (seqZ nxt _))) as [c|] eqn:E1.
  - erewrite run_bind_Ok by exact H1. eexists. split; [done|].
    assert (nxt <= c < total /\ fat_at dev l c = 0) as [Hc H0].
    { apply head_filter_in in E1 as [Hin H0]. apply elem_of_seqZ in Hin. split; [lia|done]. }
    split; [|done]. apply taken_allocated; try done. apply He. lia.
  - destruct H1 as (fp & last & Hf & H1). erewrite run_bind_Ok by exact H1.
    pose proof (run_calloc_below l (lget l (dev, FSInfo b)) Hv Hu Hh Hr Hd (Z.to_nat (nxt - 2)) 2 fp last (Z.to_nat (nxt - 2) + 1) k
      Hf ltac:(intros x Hx; apply He; lia) ltac:(lia) ltac:(lia) ltac:(lia)) as H2.
    rewrite Z2Nat.id in H2 by lia. replace (2 + (nxt - 2)) with nxt in H2 by lia. fold b in H2.
    unfold free_from in H2. rewrite Z2Nat.id in H2 by lia.
    destruct (head (filter _ (seqZ 2 _))) as [c|] eqn:E2; [|exact H2]. eexists. split; [exact H2|].
    apply head_filter_in in E2 as [Hin H0]. apply elem_of_seqZ in Hin.
    split; [|done]. apply taken_allocated; try done. apply He. lia.
Qed.
(** C11: [fat_calloc] takes the first free cluster, searching from the hint
    in FSInfo to the end and then from cluster 2 to the hint: its entry is
    marked as the end of a chain in every copy of the FAT, no other entry and
    no other sector changes but FSInfo, whose count of free clusters goes down
    by one; it panics exactly when no cluster is free. *)
Theorem fat_calloc_spec l k :
  fat_vol dev l -> unlogged l -> ls_held l = ∅ -> (size (ls_logged l) <= 6)%nat -> hint_ok l ->
  match free_cluster l with
  | Some c => exists l', run (fat_calloc dev) k l = Ok (c, k, l') /\ allocated l c l' /\ fat_at dev l c = 0
  | None => run (fat_calloc dev) k l = Fail (Panic "balloc: out of clusters")
  end.
Proof. apply run_calloc. Qed.
End Alloc.
