(* ===== verification/FatWrite.v ===== *)
(** * Writing files of a FAT32 volume

    [wrote l cs off n src l'] says that [l'] is the volume [l] with the [n]
    bytes [src] at offset [off] of the file with clusters [cs]. *)

From stdpp Require Import base gmap strings numbers list.
From S2P Require Import Prelude Prog Layout Log LStore State FsLogic FatBase FatInode FatSpec FatAlloc.

Section Write.
Context (dev : Z).
Implicit Types (l : lstore) (k : kmem) (c s : Z) (cs : list Z).

(** ** The sectors of a file *)

Lemma first_sec_inj b c c' s s' : 0 <= s < SecPerClus b -> 0 <= s' < SecPerClus b -> first_sec b c + s = first_sec b c' + s' -> c = c' /\ s = s'.
Proof. intros H1 H2 E. unfold first_sec in E. assert ((c - c') * SecPerClus b = s' - s) as E' by lia. assert (c - c' = 0) by nia. split; nia. Qed.

Definition sectors l cs : Z := SecPerClus (bpb_of dev l) * Z.of_nat (length cs).

Lemma sector_split l cs s : bpb_ok (bpb_of dev l) -> 0 <= s < sectors l cs ->
  exists j c, cs !! j = Some c /\ s = Z.of_nat j * SecPerClus (bpb_of dev l) + s mod SecPerClus (bpb_of dev l) /\
    0 <= s mod SecPerClus (bpb_of dev l) < SecPerClus (bpb_of dev l) /\ file_sec dev l cs s = first_sec (bpb_of dev l) c + s mod SecPerClus (bpb_of dev l).
Proof.
  intros Hb Hs. destruct Hb. set (p := SecPerClus (bpb_of dev l)) in *. unfold sectors in Hs. fold p in Hs.
  assert (0 <= s / p < Z.of_nat (length cs)) as Hj by (split; [apply Z.div_pos|apply Z.div_lt_upper_bound]; lia).
  destruct (lookup_lt_is_Some_2 cs (Z.to_nat (s / p))) as [c Hc]; [lia|].
  exists (Z.to_nat (s / p)), c. pose proof (Z.div_mod s p ltac:(lia)). pose proof (Z.mod_pos_bound s p ltac:(lia)).
  rewrite Z2Nat.id by lia. split_and!; [done|lia|lia|lia|]. unfold file_sec. fold p. by rewrite (nth_lookup_Some _ _ _ _ Hc).
Qed.

Lemma file_sec_inj l cs s s' : bpb_ok (bpb_of dev l) -> NoDup cs -> 0 <= s < sectors l cs -> 0 <= s' < sectors l cs ->
  file_sec dev l cs s = file_sec dev l cs s' -> s = s'.
Proof.
  intros Hb Hn Hs Hs' E. destruct (sector_split _ _ _ Hb Hs) as (j & c & Hj & E1 & R1 & F1), (sector_split _ _ _ Hb Hs') as (j' & c' & Hj' & E2 & R2 & F2).
  rewrite F1, F2 in E. apply first_sec_inj in E as [<- E]; [|done..].
  pose proof (NoDup_lookup _ _ _ _ Hn Hj Hj'). subst j'. lia.
Qed.

Lemma file_sec_range l cs s : fat_vol dev l -> Forall (cluster_ok (bpb_of dev l)) cs -> 0 <= s < sectors l cs ->
  data_start (bpb_of dev l) <= file_sec dev l cs s < TotSec32 (bpb_of dev l).
Proof.
  intros Hv Hc Hs. pose proof (fv_bpb _ _ Hv) as Hb. destruct (sector_split _ _ _ Hb Hs) as (j & c & Hj & _ & R1 & ->).
  pose proof (Forall_lookup_1 _ _ _ _ Hc Hj) as Hcc. destruct (cluster_bound _ _ Hb Hcc) as (_ & _ & H). by apply H.
Qed.

(** ** Volumes that differ in the bytes of a file *)

Record wrote l cs (off n : Z) (src : list Z) (l' : lstore) : Prop := {
  wr_frame : ls_geom l' = ls_geom l /\ ls_held l' = ls_held l /\ ls_logged l' = ls_logged l;
  wr_byte : forall y, 0 <= y < 512 * sectors l cs ->
    fat_byte dev l' cs y = if decide (off <= y < off + n) then nth (Z.to_nat (y - off)) src 0 else fat_byte dev l cs y;
  wr_other : forall x, (forall s, 0 <= s < sectors l cs -> x <> (dev, file_sec dev l cs s)) -> lget l' x = lget l x;
  wr_len : forall s, 0 <= s < TotSec32 (bpb_of dev l) -> length (lget l' (dev, s)) = 512%nat;
}.

Section Wrote.
Context (l : lstore) (cs : list Z) (off n : Z) (src : list Z) (l' : lstore).
Hypothesis Hv : fat_vol dev l.
Hypothesis Hcs : Forall (cluster_ok (bpb_of dev l)) cs.
Hypothesis Hw : wrote l cs off n src l'.

(** The part before the data is as it was. *)
Lemma wrote_meta s : s < data_start (bpb_of dev l) -> lget l' (dev, s) = lget l (dev, s).
Proof. intros Hs. apply (wr_other _ _ _ _ _ _ Hw). intros t Ht. pose proof (file_sec_range _ _ _ Hv Hcs Ht). other_sector. Qed.

Lemma wrote_bpb : bpb_of dev l' = bpb_of dev l.
Proof. unfold bpb_of at 1. rewrite wrote_meta; [done|]. pose proof (bpb_order _ (fv_bpb _ _ Hv)). lia. Qed.

Lemma wrote_vol : fat_vol dev l'.
Proof.
  destruct (wr_frame _ _ _ _ _ _ Hw) as (Hg & _). split; rewrite wrote_bpb.
  - apply (fv_bpb _ _ Hv).
  - intros s Hs. pose proof (fv_blk _ _ Hv s Hs) as Hb. unfold blk_ok in *. by rewrite Hg.
  - apply (wr_len _ _ _ _ _ _ Hw).
Qed.

Lemma wrote_fat c : entry_ok (bpb_of dev l) c -> fat_at dev l' c = fat_at dev l c.
Proof.
  intros Hc. unfold fat_at. rewrite wrote_bpb, wrote_meta; [done|]. pose proof (entry_sec _ _ Hc) as Hs.
  pose proof (bpb_order _ (fv_bpb _ _ Hv)). unfold fat_sec in Hs. lia.
Qed.

Lemma wrote_file_sec s : file_sec dev l' cs s = file_sec dev l cs s.
Proof. unfold file_sec. by rewrite wrote_bpb. Qed.

Lemma wrote_idle : idle dev l -> idle dev l'.
Proof. destruct (wr_frame _ _ _ _ _ _ Hw) as (_ & Hh & Hl). intros []. split; rewrite ?wrote_bpb, ?Hh, ?Hl; auto. Qed.
End Wrote.

Lemma wrote_nil l cs off src : fat_vol dev l -> wrote l cs off 0 src l.
Proof. intros Hv. split; [done| |done|apply (fv_len _ _ Hv)]. intros y Hy. by rewrite decide_False by lia. Qed.
(** One more piece, within a sector. *)
Lemma wrote_step l cs off0 tot m src l1 :
  fat_vol dev l -> Forall (cluster_ok (bpb_of dev l)) cs -> NoDup cs -> wrote l cs off0 tot src l1 ->
  0 <= off0 -> 0 <= tot -> 0 <= m -> (off0 + tot) mod 512 + m <= 512 -> off0 + tot < 512 * sectors l cs -> tot + m <= Z.of_nat (length src) ->
  let b := (dev, file_sec dev l cs ((off0 + tot) / 512)) in
  wrote l cs off0 (tot + m) src (wput b (splice (Z.to_nat ((off0 + tot) mod 512)) (take (Z.to_nat m) (drop (Z.to_nat tot) src)) (lget l1 b)) l1).
Proof.
  intros Hv Hcs Hnd Hw Hoff Htot Hm Hsec Hin Hsrc b. pose proof (fv_bpb _ _ Hv) as Hb. pose proof (bpb_order _ Hb) as Ho.
  assert (0 <= (off0 + tot) / 512 < sectors l cs) as Hs by (split; [apply Z.div_pos|apply Z.div_lt_upper_bound]; lia).
  pose proof (file_sec_range _ _ _ Hv Hcs Hs) as Hr.
  assert (length (lget l1 b) = 512%nat) as Hlen by (apply (wr_len _ _ _ _ _ _ Hw); lia).
  set (d := splice _ _ _). set (piece := take (Z.to_nat m) (drop (Z.to_nat tot) src)) in *.
  assert (length piece = Z.to_nat m) as Hpl by (subst piece; rewrite length_take, length_drop; lia).
  assert (length d = 512%nat) as Hd by (subst d; rewrite length_splice; lia).
  assert (bpb_of dev (wput b d l1) = bpb_of dev l) as Hbpb.
  { rewrite <- (wrote_bpb l cs off0 tot src l1 Hv Hcs Hw). unfold bpb_of. by rewrite lget_wput_ne by (subst b; other_sector). }
  split.
  - destruct (wr_frame _ _ _ _ _ _ Hw) as (? & ? & ?). done.
  - intros y Hy. pose proof (wr_byte _ _ _ _ _ _ Hw y Hy) as Hold.
    assert (0 <= y / 512 < sectors l cs) as Hys by (split; [apply Z.div_pos|apply Z.div_lt_upper_bound]; lia).
    unfold fat_byte at 1. unfold file_sec. rewrite Hbpb. fold (file_sec dev l cs (y / 512)).
    unfold fat_byte at 1 in Hold. rewrite (wrote_file_sec _ _ _ _ _ _ Hv Hcs Hw) in Hold.
    destruct (decide (y / 512 = (off0 + tot) / 512)) as [E|Hne].
    + rewrite E in *. fold b in Hold |- *. rewrite lget_wput. subst d. rewrite nth_lookup, lookup_splice by lia. rewrite nth_lookup in Hold.
      destruct (decide (off0 + tot <= y < off0 + tot + m)) as [Hp|Hp].
      * rewrite decide_True by lia. rewrite (decide_True (P := off0 <= y < off0 + (tot + m))) by lia. subst piece.
        rewrite lookup_take_lt, lookup_drop by lia. rewrite nth_lookup. do 2 f_equal. lia.
      * rewrite decide_False by lia. rewrite Hold. destruct (decide (off0 <= y < off0 + tot)); [rewrite decide_True|rewrite decide_False]; (done || lia).
    + rewrite lget_wput_ne.
      2: { intros Eq. apply (f_equal snd) in Eq. cbn [snd b] in Eq. apply Hne. symmetry. by apply (file_sec_inj l cs). }
      rewrite Hold. destruct (decide (off0 <= y < off0 + tot)); [rewrite decide_True|rewrite decide_False]; (done || lia).
  - intros x Hx. rewrite lget_wput_ne by (intros <-; by apply (Hx ((off0 + tot) / 512))). by apply (wr_other _ _ _ _ _ _ Hw).
  - intros s Hs'. destruct (decide (b = (dev, s))) as [<-|Hne]; [by rewrite lget_wput|]. rewrite lget_wput_ne by done. by apply (wr_len _ _ _ _ _ _ Hw).
Qed.
(** ** The loop over the sectors of a cluster *)

(** The store with a FAT sector locked that may have been changed. *)
Definition holdo l (h : option (bufkey * block)) : lstore := match h with Some (b, d) => hold b d l | None => l end.
Definition fat_held l (h : option (bufkey * block)) : Prop :=
  match h with Some (b, _) => exists s, b = (dev, s) /\ fat_sec (bpb_of dev l) s | None => True end.

Lemma holdo_free l h s : idle dev l -> fat_vol dev l -> fat_held l h -> data_start (bpb_of dev l) <= s -> ls_held (holdo l h) !! (dev, s) = None.
Proof.
  intros Hi Hv Hh Hs. pose proof (bpb_order _ (fv_bpb _ _ Hv)) as Ho.
  assert (ls_held l !! (dev, s) = None) as Hn by (apply (id_held _ _ Hi); other_sector).
  destruct h as [[b d]|]; [|done]. destruct Hh as (t & -> & Ht). cbn. rewrite lookup_insert_ne; [done|].
  unfold fat_sec in Ht. other_sector.
Qed.

Lemma holdo_calm l h : idle dev l -> calm (holdo l h).
Proof. intros [_ H1 H2]. destruct h as [[b d]|]; [apply calm_hold; lia|unfold calm; cbn; lia]. Qed.

(** Storing to a data sector. *)
Lemma run_write_sector l h s d k :
  idle dev l -> fat_vol dev l -> unlogged dev l -> fat_held l h -> data_start (bpb_of dev l) <= s < TotSec32 (bpb_of dev l) ->
  run (bread dev s) k (holdo l h) = Ok ((dev, s), k, hold (dev, s) (lget l (dev, s)) (holdo l h)) /\
  run (bwrite (dev, s)) k (hold (dev, s) d (holdo l h)) = Ok (tt, k, hold (dev, s) d (wput (dev, s) d (holdo l h))) /\
  run (brelse (dev, s)) k (hold (dev, s) d (wput (dev, s) d (holdo l h))) = Ok (tt, k, holdo (wput (dev, s) d l) h).
Proof.
  intros Hi Hv Hu Hh Hs. pose proof (bpb_order _ (fv_bpb _ _ Hv)) as Ho.
  assert (lget (holdo l h) (dev, s) = lget l (dev, s)) as Hg by (by destruct h as [[??]|]).
  pose proof (holdo_free l h s Hi Hv Hh ltac:(lia)) as Hfree. split_and!.
  - rewrite run_bread; [by rewrite Hg|destruct h as [[??]|]; apply (fv_blk _ _ Hv); lia|by apply holdo_calm|done].
  - apply run_bwrite_now. destruct h as [[??]|]; apply Hu.
  - rewrite run_brelse; [by destruct h as [[??]|]|symmetry; apply lget_wput|done].
Qed.

Lemma run_writei_sectors l cs h k j c off0 n src ns s tot l1 :
  idle dev l -> fat_vol dev l -> unlogged dev l -> fat_held l h -> Forall (cluster_ok (bpb_of dev l)) cs -> NoDup cs -> cs !! j = Some c ->
  0 <= off0 -> 0 <= tot <= n -> off0 + n < 2 ^ 32 -> n <= Z.of_nat (length src) ->
  0 <= s -> s + Z.of_nat ns = SecPerClus (bpb_of dev l) -> (0 < ns)%nat ->
  (off0 + tot) / 512 = Z.of_nat j * SecPerClus (bpb_of dev l) + s -> wrote l cs off0 tot src l1 ->
  let end_ := 512 * SecPerClus (bpb_of dev l) * (Z.of_nat j + 1) in
  let m := if off0 + n <=? end_ then n else end_ - off0 in
  exists l2, wrote l cs off0 m src l2 /\
    run (iter_list (writei_sector dev (bpb_of dev l) n c) (seqZ s (Z.of_nat ns)) (tot, off0 + tot, drop (Z.to_nat tot) src)) k (holdo l1 h) =
    Ok ((if off0 + n <=? end_ then inr (n, off0 + n, drop (Z.to_nat n) src) else inl (m, off0 + m, drop (Z.to_nat m) src)), k, holdo l2 h).
Proof.
  intros Hi Hv Hu Hh Hcs Hnd Hj Hoff. revert s tot l1. induction ns as [|ns IH]; intros s tot l1 Ht Hn Hsrc Hs Hns Hpos Hsec Hw end_ m0; [lia|].
  pose proof (fv_bpb _ _ Hv) as Hb. pose proof (Forall_lookup_1 _ _ _ _ Hcs Hj) as Hc.
  assert (off0 + tot < 512 * sectors l cs) as Hin.
  { apply lookup_lt_Some in Hj. unfold sectors. destruct Hb. nia. }
  destruct (cluster_bound _ _ Hb Hc) as (_ & _ & Hdata). specialize (Hdata s ltac:(lia)).
  rewrite seqZ_cons by lia. cbn [iter_list]. unfold writei_sector at 1. rewrite (first_sector _ _ Hb Hc). unfold SECTSIZE.
  set (m := Z.min (u32 (n - tot)) (512 - (off0 + tot) mod 512)).
  assert (0 <= m /\ (off0 + tot) mod 512 + m <= 512 /\ tot + m <= n /\ (tot < n -> 0 < m)) as Hm by (subst m; rewrite u32_small by lia; lia).
  assert (tot + m = n \/ (off0 + tot + m) mod 512 = 0 /\ (off0 + tot + m) / 512 = Z.of_nat j * SecPerClus (bpb_of dev l) + (s + 1)) as Hend
    by (subst m; rewrite u32_small by lia; lia).
  rewrite (proj2 (Z.ltb_ge (Z.of_nat (length (drop (Z.to_nat tot) src))) m)) by (rewrite length_drop; lia).
  set (piece := take (Z.to_nat m) (drop (Z.to_nat tot) src)).
  pose proof (wrote_bpb _ _ _ _ _ _ Hv Hcs Hw) as Hbpb. pose proof (wrote_vol _ _ _ _ _ _ Hv Hcs Hw) as Hv1.
  pose proof (wrote_idle _ _ _ _ _ _ Hv Hcs Hw Hi) as Hi1.
  pose proof (wrote_step l cs off0 tot m src l1 Hv Hcs Hnd Hw Hoff ltac:(lia) ltac:(lia) ltac:(lia) Hin ltac:(lia)) as Hw2. cbv zeta in Hw2.
  rewrite Hsec, (file_sec_cluster dev l cs j c s Hj) in Hw2 by lia. fold piece in Hw2.
  destruct (wr_frame _ _ _ _ _ _ Hw) as (Hfg & _ & Hfl).
  assert (unlogged dev l1) as Hu1 by (intros t; unfold is_logged; rewrite Hfl, Hfg; apply Hu).
  assert (fat_held l1 h) as Hh1 by (destruct h as [[??]|]; [unfold fat_held; by rewrite Hbpb|done]).
  set (d := splice (Z.to_nat ((off0 + tot) mod 512)) piece (lget l1 (dev, first_sec (bpb_of dev l) c + s))) in *.
  destruct (run_write_sector l1 h (first_sec (bpb_of dev l) c + s) d k Hi1 Hv1 Hu1 Hh1 ltac:(by rewrite Hbpb)) as (R1 & R2 & R3).
  assert (length d = 512%nat) as Hd.
  { assert (length (lget l1 (dev, first_sec (bpb_of dev l) c + s)) = 512%nat) as E by (apply (wr_len _ _ _ _ _ _ Hw); pose proof (bpb_order _ Hb); lia).
    subst d piece. rewrite length_splice; [done|]. rewrite length_take, length_drop. lia. }
  rewrite !run_assoc. erewrite run_bind_Ok by exact R1. rewrite run_assoc. erewrite run_bind_Ok by (apply run_bmodify; exact Hd).
  rewrite run_assoc. erewrite run_bind_Ok by exact R2. rewrite run_assoc. erewrite run_bind_Ok by exact R3. cbn [pbind].
  rewrite (u32_small (tot + m)), (u32_small (off0 + tot + m)) by lia.
  rewrite drop_drop. replace (Z.to_nat tot + Z.to_nat m)%nat with (Z.to_nat (tot + m)) by lia.
  clearbody m d. destruct (Z.eqb_spec (tot + m) n) as [He|Hne].
  - assert (off0 + n <= end_) as Hle by (subst end_; destruct Hb; nia).
    subst m0. rewrite (proj2 (Z.leb_le _ _)) by done. rewrite <- Z.add_assoc, He. eexists. split; [rewrite <- He; exact Hw2|done].
  - destruct Hend as [|[Hm0 Hd0]]; [done|]. rewrite <- Z.add_assoc. rewrite <- Z.add_assoc in Hm0, Hd0.
    destruct (decide (ns = 0%nat)) as [->|Hne0].
    + assert (s + 1 = SecPerClus (bpb_of dev l)) as E by lia. rewrite E in Hd0.
      assert (off0 + (tot + m) = end_) as Eend.
      { subst end_. replace (512 * SecPerClus (bpb_of dev l) * (Z.of_nat j + 1)) with (512 * (Z.of_nat j * SecPerClus (bpb_of dev l) + SecPerClus (bpb_of dev l))) by ring. lia. }
      subst m0. rewrite (proj2 (Z.leb_gt _ _)) by lia. replace (end_ - off0) with (tot + m) by lia. eexists. split; [exact Hw2|done].
    + replace (Z.pred (Z.of_nat (S ns))) with (Z.of_nat ns) by lia. unfold Z.succ. apply IH; try lia. exact Hw2.
Qed.
(** ** Writing FAT sectors back *)

(** All copies of the FAT agree. *)
Definition mirrored l : Prop := forall s i, fat_sec (bpb_of dev l) s -> 0 <= i < NumFATs (bpb_of dev l) ->
  lget l (copy_sec dev (bpb_of dev l) s i) = lget l (dev, s).

Definition fat_put s (d : block) l : lstore :=
  wput (dev, s) d (copies dev (bpb_of dev l) s d (seqZ 1 (NumFATs (bpb_of dev l) - 1)) l).

Lemma fat_put_frame s d l : ls_geom (fat_put s d l) = ls_geom l /\ ls_held (fat_put s d l) = ls_held l /\ ls_logged (fat_put s d l) = ls_logged l.
Proof. destruct (copies_frame dev (bpb_of dev l) s d (seqZ 1 (NumFATs (bpb_of dev l) - 1)) l) as (? & ? & ? & _). done. Qed.

Lemma lget_fat_put s d l x : bpb_ok (bpb_of dev l) ->
  lget (fat_put s d l) x = if decide (Exists (fun i => x = copy_sec dev (bpb_of dev l) s i) (seqZ 0 (NumFATs (bpb_of dev l)))) then d else lget l x.
Proof.
  intros Hb. destruct Hb. rewrite seqZ_cons by lia. unfold fat_put.
  assert (copy_sec dev (bpb_of dev l) s 0 = (dev, s)) as E0 by (unfold copy_sec; f_equal; lia).
  destruct (decide (x = (dev, s))) as [->|Hne].
  - rewrite lget_wput, decide_True; [done|]. left. done.
  - rewrite lget_wput_ne by congruence. rewrite lget_copies.
    change (Z.succ 0) with 1. replace (Z.pred (NumFATs (bpb_of dev l))) with (NumFATs (bpb_of dev l) - 1) by lia.
    destruct (decide (Exists _ _)) as [He|He]; [rewrite decide_True by (by right)|rewrite decide_False]; [done|done|].
    rewrite Exists_cons, E0. tauto.
Qed.

Lemma run_rel_fat l s d k : idle dev l -> fat_vol dev l -> unlogged dev l -> fat_sec (bpb_of dev l) s -> length d = 512%nat ->
  run (rel_fat (dev, s)) k (hold (dev, s) d l) = Ok (tt, k, fat_put s d l).
Proof.
  intros Hi Hv Hu Hs Hd. destruct (copies_frame dev (bpb_of dev l) s d (seqZ 1 (NumFATs (bpb_of dev l) - 1)) l) as (Hg & Hh & Hl & _).
  unfold rel_fat. run_step run_updateFATs. run_step run_bwrite_now.
  2: { unfold is_logged. rewrite Hg, Hl. apply Hu. }
  rewrite run_brelse; [done|symmetry; apply lget_wput|]. cbn [ls_held wput]. rewrite Hh. by apply fat_free.
Qed.

(** Stores with the same blocks. *)
Record same l l' : Prop := {
  sm_frame : ls_geom l' = ls_geom l /\ ls_held l' = ls_held l /\ ls_logged l' = ls_logged l;
  sm_get : forall x, lget l' x = lget l x;
}.

Lemma same_bpb l l' : same l l' -> bpb_of dev l' = bpb_of dev l.
Proof. intros Hs. unfold bpb_of. by rewrite (sm_get _ _ Hs). Qed.

Lemma same_refl l : same l l.
Proof. by split. Qed.

Lemma same_vol l l' : same l l' -> fat_vol dev l -> fat_vol dev l'.
Proof.
  intros Hs []. destruct (sm_frame _ _ Hs) as (Hg & _). split; rewrite (same_bpb _ _ Hs); [done| |].
  - intros s Hr. specialize (fv_blk s Hr). unfold blk_ok in *. by rewrite Hg.
  - intros s Hr. rewrite (sm_get _ _ Hs). auto.
Qed.

Lemma same_wrote l cs off n src l1 l2 : wrote l cs off n src l1 -> same l1 l2 -> wrote l cs off n src l2.
Proof.
  intros [] Hs. destruct (sm_frame _ _ Hs) as (Hg & Hh & Hl), wr_frame0 as (? & ? & ?). split.
  - rewrite Hg, Hh, Hl. done.
  - intros y Hy. rewrite <- wr_byte0 by done. unfold fat_byte, file_sec. by rewrite (same_bpb _ _ Hs), (sm_get _ _ Hs).
  - intros x Hx. rewrite (sm_get _ _ Hs). auto.
  - intros s Hr. rewrite (sm_get _ _ Hs). auto.
Qed.

(** Writing back a FAT sector that was not changed changes nothing. *)
Lemma fat_put_same l s : fat_vol dev l -> mirrored l -> fat_sec (bpb_of dev l) s -> same l (fat_put s (lget l (dev, s)) l).
Proof.
  intros Hv Hm Hs. split; [apply fat_put_frame|]. intros x. rewrite lget_fat_put by apply (fv_bpb _ _ Hv).
  destruct (decide (Exists _ _)) as [(i & Hi%elem_of_seqZ & ->)%Exists_exists|]; [|done]. rewrite Hm by (done || lia). done.
Qed.

Lemma run_load_rel l fp last s k : idle dev l -> fat_vol dev l -> unlogged dev l -> mirrored l -> fp_ok dev l fp last -> fat_sec (bpb_of dev l) s ->
  exists l', same l l' /\ run (fat_load rel_fat dev s fp last) k (with_fp l fp) = Ok ((Some (dev, s), s), k, with_fp l' (Some (dev, s))).
Proof.
  intros Hi Hv Hu Hm Hf Hs. pose proof (fat_sec_range _ _ _ Hv Hs) as Hr. pose proof (bpb_order _ (fv_bpb _ _ Hv)) as Ho. unfold fat_load.
  destruct (Z.eqb_spec s last) as [<-|Hne]; cbn [negb].
  - destruct fp as [b|]; [destruct Hf as [-> _]; by exists l|]. cbn in Hf. lia.
  - assert (exists l', same l l' /\ run (opt_rel rel_fat fp) k (with_fp l fp) = Ok (tt, k, l')) as (l' & Hsm & Hrel).
    { destruct fp as [b|]; [|by exists l]. destruct Hf as [-> Hf]. cbn [opt_rel with_fp].
      exists (fat_put last (lget l (dev, last)) l). split; [by apply fat_put_same|]. apply run_rel_fat; try done. apply (fv_len _ _ Hv).
      pose proof (fat_sec_range _ _ _ Hv Hf). lia. }
    exists l'. split; [done|]. erewrite run_bind_Ok by exact Hrel. destruct (sm_frame _ _ Hsm) as (Hg & Hh & Hl). run_step run_bread.
    + done.
    + unfold blk_ok. rewrite Hg. apply (fv_blk _ _ Hv). lia.
    + unfold calm. rewrite Hh, Hl. destruct Hi. lia.
    + rewrite Hh. by apply fat_free.
Qed.
(** ** The loop over the clusters *)

(** The bytes of cluster number [j], if the transfer is there: it ends in it,
    or the cluster is full (or was passed over). *)
Lemma run_writei_in l cs h k j c off0 n src tot l1 :
  idle dev l -> fat_vol dev l -> unlogged dev l -> fat_held l h -> Forall (cluster_ok (bpb_of dev l)) cs -> NoDup cs -> cs !! j = Some c ->
  0 <= off0 -> 0 <= tot <= n -> off0 + n < 2 ^ 32 -> n <= Z.of_nat (length src) -> wrote l cs off0 tot src l1 ->
  let C := 512 * SecPerClus (bpb_of dev l) in
  let pos := C * Z.of_nat j in
  pos <= off0 + tot -> pos + C < 2 ^ 32 ->
  let x := if off0 + tot <? u32 (pos + C)
           then iter_list (writei_sector dev (bpb_of dev l) n c)
                  (seqZ (u32 (off0 + tot - pos) / SECTSIZE) (SecPerClus (bpb_of dev l) - u32 (off0 + tot - pos) / SECTSIZE))
                  (tot, off0 + tot, drop (Z.to_nat tot) src)
           else Ret (inl (tot, off0 + tot, drop (Z.to_nat tot) src)) in
  let tot' := Z.max tot (pos + C - off0) in
  exists l2,
    (off0 + n <= pos + C /\ off0 + tot < pos + C /\ wrote l cs off0 n src l2 /\
       run x k (holdo l1 h) = Ok (inr (n, off0 + n, drop (Z.to_nat n) src), k, holdo l2 h)) \/
    (~ (off0 + n <= pos + C /\ off0 + tot < pos + C) /\ wrote l cs off0 tot' src l2 /\
       run x k (holdo l1 h) = Ok (inl (tot', off0 + tot', drop (Z.to_nat tot') src), k, holdo l2 h)).
Proof.
  intros Hi Hv Hu Hh Hcs Hnd Hj Hoff Ht Hn Hsrc Hw C pos Hpos HC x tot'. pose proof (bo_spc _ (fv_bpb _ _ Hv)) as Hspc.
  assert (pos + C = 512 * SecPerClus (bpb_of dev l) * (Z.of_nat j + 1)) as Hend by (subst pos C; ring).
  subst x. rewrite (u32_small (pos + C)) by (subst pos C; nia). destruct (Z.ltb_spec (off0 + tot) (pos + C)) as [Hin|Hout].
  - rewrite (u32_small (off0 + tot - pos)) by lia. unfold SECTSIZE. set (s := (off0 + tot - pos) / 512).
    assert (0 <= s < SecPerClus (bpb_of dev l)) as Hs by (subst s; split; [apply Z.div_pos|apply Z.div_lt_upper_bound]; lia).
    replace (SecPerClus (bpb_of dev l) - s) with (Z.of_nat (Z.to_nat (SecPerClus (bpb_of dev l) - s))) by lia.
    destruct (run_writei_sectors l cs h k j c off0 n src (Z.to_nat (SecPerClus (bpb_of dev l) - s)) s tot l1) as (l2 & Hw2 & Hrun);
      try done; try lia.
    rewrite <- Hend in Hw2, Hrun. exists l2. rewrite Hrun. destruct (Z.leb_spec (off0 + n) (pos + C)) as [Hle|Hgt]; [by left|right].
    assert (tot' = pos + C - off0) as -> by (subst tot'; lia). split; [lia|done].
  - exists l1. right. assert (tot' = tot) as -> by (subst tot'; lia). split; [lia|done].
Qed.

Lemma with_fp_holdo l fp : with_fp l fp = holdo l ((fun b => (b, lget l b)) <$> fp).
Proof. by destruct fp. Qed.

Lemma fp_fat_held l l1 fp last : fp_ok dev l fp last -> fat_held l ((fun b => (b, lget l1 b)) <$> fp).
Proof. destruct fp as [b|]; [|done]. intros [-> Hs]. cbn. eauto. Qed.

(** Data being written, the FAT sector locked keeps its content. *)
Lemma holdo_fp l cs off n src off' n' src' l1 l2 fp last :
  fat_vol dev l -> Forall (cluster_ok (bpb_of dev l)) cs -> wrote l cs off n src l1 -> wrote l cs off' n' src' l2 -> fp_ok dev l fp last ->
  holdo l2 ((fun b => (b, lget l1 b)) <$> fp) = with_fp l2 fp.
Proof.
  intros Hv Hcs H1 H2 Hf. destruct fp as [b|]; [|done]. destruct Hf as [-> Hf]. cbn. f_equal.
  pose proof (fat_sec_range _ _ _ Hv Hf) as Hr.
  by rewrite (wrote_meta _ _ _ _ _ _ Hv Hcs H1), (wrote_meta _ _ _ _ _ _ Hv Hcs H2) by lia.
Qed.
Section Clusters.
Context (l : lstore) (cs : list Z) (off0 n : Z) (src : list Z) (k : kmem).
Let C := 512 * SecPerClus (bpb_of dev l).
Hypothesis Hi : idle dev l.
Hypothesis Hv : fat_vol dev l.
Hypothesis Hu : unlogged dev l.
Hypothesis Hm : mirrored l.
Hypothesis Hcs : Forall (cluster_ok (bpb_of dev l)) cs.
Hypothesis Hnd : NoDup cs.
Hypothesis Hoff : 0 <= off0.
Hypothesis Hn : off0 + n < 2 ^ 32.
Hypothesis Hsrc : n <= Z.of_nat (length src).
Hypothesis Hcap : C * Z.of_nat (length cs) < 2 ^ 32.

Definition body := writei_cluster dev (bpb_of dev l) n C.

(** What holds of a volume [l] holds of it with the data written. *)
Lemma wrote_context m l1 : wrote l cs off0 m src l1 ->
  idle dev l1 /\ fat_vol dev l1 /\ unlogged dev l1 /\ mirrored l1 /\ bpb_of dev l1 = bpb_of dev l /\
  (forall fp last, fp_ok dev l fp last -> fp_ok dev l1 fp last).
Proof.
  intros Hw. pose proof (wrote_bpb _ _ _ _ _ _ Hv Hcs Hw) as Hb. destruct (wr_frame _ _ _ _ _ _ Hw) as (Hg & _ & Hl). split_and!.
  - by eapply wrote_idle.
  - by eapply wrote_vol.
  - intros t. unfold is_logged. rewrite Hl, Hg. apply Hu.
  - intros s i Hs Hi'. rewrite Hb in *. destruct (copy_range _ _ i (fv_bpb _ _ Hv) Hs Hi') as [Hr _].
    pose proof (fat_sec_range _ _ _ Hv Hs). unfold copy_sec. rewrite !(wrote_meta _ _ _ _ _ _ Hv Hcs Hw) by lia. by apply Hm.
  - done.
  - intros fp last Hf. destruct fp; [|done]. unfold fp_ok. by rewrite Hb.
Qed.

Lemma round_bound j c : cs !! j = Some c -> C * Z.of_nat j + C = C * (Z.of_nat j + 1) /\ C * (Z.of_nat j + 1) <= C * Z.of_nat (length cs).
Proof. intros Hj%lookup_lt_Some. pose proof (bo_spc _ (fv_bpb _ _ Hv)). split; [ring|]. unfold C. nia. Qed.

(** One round in which the transfer ends. *)
Lemma round_ends j c fp last tot l1 :
  cs !! j = Some c -> fp_ok dev l fp last -> wrote l cs off0 tot src l1 -> 0 <= tot <= n ->
  C * Z.of_nat j <= off0 + tot -> off0 + n <= C * (Z.of_nat j + 1) -> off0 + tot < C * (Z.of_nat j + 1) ->
  exists l2, wrote l cs off0 n src l2 /\
    run (body (c, fp, last, C * Z.of_nat j, (tot, off0 + tot, drop (Z.to_nat tot) src))) k (with_fp l1 fp) =
      Ok (inr (off0 + n, fp), k, with_fp l2 fp).
Proof.
  intros Hj Hf Hw Ht Hpos H1 H2. destruct (round_bound _ _ Hj) as [Hend Hle].
  destruct (run_writei_in l cs ((fun b => (b, lget l1 b)) <$> fp) k j c off0 n src tot l1) as (l2 & [(_ & _ & Hw2 & Hrun)|(Hno & _)]);
    try done; try (fold C; lia).
  - by eapply fp_fat_held.
  - exists l2. split; [done|]. unfold body, writei_cluster. fold C in Hrun. rewrite with_fp_holdo. erewrite run_bind_Ok by exact Hrun.
    by rewrite (holdo_fp l cs off0 tot src off0 n src l1 l2 fp last).
Qed.

(** One round that goes on to the entry of the cluster in the FAT. *)
Lemma round_entry j c fp last tot l1 :
  cs !! j = Some c -> fp_ok dev l fp last -> wrote l cs off0 tot src l1 -> 0 <= tot <= n ->
  C * Z.of_nat j <= off0 + tot -> ~ (off0 + n <= C * (Z.of_nat j + 1) /\ off0 + tot < C * (Z.of_nat j + 1)) ->
  let tot' := Z.max tot (C * (Z.of_nat j + 1) - off0) in
  let s := fat_start (bpb_of dev l) + c / 128 in
  exists l2, wrote l cs off0 tot' src l2 /\
    run (body (c, fp, last, C * Z.of_nat j, (tot, off0 + tot, drop (Z.to_nat tot) src))) k (with_fp l1 fp) =
    run (if isEOF (fat_at dev l c) then
           brelse (dev, s);;;
           cno <- fat_calloc dev;;
           b <- bread dev s;;
           fat_put_word b (4 * (c mod 128)) cno;;;
           Ret (inl (cno, Some b, s, C * (Z.of_nat j + 1), (tot', off0 + tot', drop (Z.to_nat tot') src)))
         else Ret (inl (fat_at dev l c, Some (dev, s), s, C * (Z.of_nat j + 1), (tot', off0 + tot', drop (Z.to_nat tot') src))))
      k (with_fp l2 (Some (dev, s))).
Proof.
  intros Hj Hf Hw Ht Hpos Hno tot' s. destruct (round_bound _ _ Hj) as [Hend Hle]. pose proof (fv_bpb _ _ Hv) as Hb.
  pose proof (cluster_entry _ _ Hb (Forall_lookup_1 _ _ _ _ Hcs Hj)) as Hc. pose proof (entry_sec _ _ Hc) as Hs. fold s in Hs.
  destruct (run_writei_in l cs ((fun b => (b, lget l1 b)) <$> fp) k j c off0 n src tot l1) as (l2 & [(H1 & H2 & _)|(_ & Hw2 & Hrun)]);
    try done; try (fold C; lia).
  - by eapply fp_fat_held.
  - fold C in Hw2, Hrun. rewrite Hend in Hw2, Hrun. fold tot' in Hw2, Hrun.
    destruct (wrote_context _ _ Hw2) as (Hi2 & Hv2 & Hu2 & Hm2 & Hb2 & Hfp).
    destruct (run_load_rel l2 fp last s k) as (l3 & Hsm & Hload); try done; [by apply Hfp|by rewrite Hb2|].
    assert (wrote l cs off0 tot' src l3) as Hw3 by (by eapply same_wrote). exists l3. split; [done|].
    destruct (wrote_context _ _ Hw3) as (Hi3 & _).
    unfold body, writei_cluster. rewrite Hend, with_fp_holdo. erewrite run_bind_Ok by exact Hrun.
    rewrite (holdo_fp l cs off0 tot src off0 tot' src l1 l2 fp last) by done.
    unfold fat_entry. rewrite (bo_bps _ Hb). cbn [Z.eqb]. rewrite (fat_entry_at _ _ Hb Hc). fold s. cbn [pbind].
    erewrite run_bind_Ok by exact Hload. cbn [deref]. run_step run_fat_word; [|lia].
    rewrite (u32_small (C * _)) by (pose proof (bo_spc _ Hb); unfold C in *; nia).
    assert (get_u32 (Z.to_nat (4 * (c mod 128))) (lget l3 (dev, s)) = fat_at dev l c) as ->; [|done].
    rewrite <- (wrote_fat _ _ _ _ _ _ Hv Hcs Hw3) by done. unfold fat_at. by rewrite (wrote_bpb _ _ _ _ _ _ Hv Hcs Hw3).
Qed.
Definition pos0 cs1 (tot : Z) : Prop := 0 <= tot <= n /\ (tot < n \/ tot = 0) /\ C * Z.of_nat (length cs1) <= off0 + tot.

(** The state of the loop at the cluster after [cs1]. *)
Definition at_ c fp (last : Z) cs1 (tot : Z) : Z * option bufkey * Z * Z * fat_io_pos :=
  (c, fp, last, C * Z.of_nat (length cs1), (tot, off0 + tot, drop (Z.to_nat tot) src)).

Lemma next_pos cs1 c cs2 tot : cs = cs1 ++ c :: cs2 -> pos0 cs1 tot ->
  ~ (off0 + n <= C * (Z.of_nat (length cs1) + 1) /\ off0 + tot < C * (Z.of_nat (length cs1) + 1)) ->
  pos0 (cs1 ++ [c]) (Z.max tot (C * (Z.of_nat (length cs1) + 1) - off0)).
Proof. intros _ (H1 & H2 & H3) Hno. unfold pos0. rewrite length_app. cbn [length]. replace (Z.of_nat (length cs1 + 1)) with (Z.of_nat (length cs1) + 1) by lia. lia. Qed.

(** A transfer within the clusters of the file. *)
Lemma run_loop_within cs2 : forall cs1 c fp last tot fuel l1,
  cs = cs1 ++ cs2 -> chain dev l c cs2 -> fp_ok dev l fp last -> wrote l cs off0 tot src l1 -> pos0 cs1 tot -> (length cs2 <= fuel)%nat ->
  off0 + n <= C * Z.of_nat (length cs) -> off0 < C * Z.of_nat (length cs) ->
  exists l2 fp' last', wrote l cs off0 n src l2 /\ fp_ok dev l fp' last' /\
    run (while_fuel fuel body (at_ c fp last cs1 tot)) k (with_fp l1 fp) = Ok ((off0 + n, fp'), k, with_fp l2 fp').
Proof.
  induction cs2 as [|x cs2 IH]; intros cs1 c fp last tot fuel l1 Hcs12 Hch Hf Hw Hp Hfuel Hin Hlt; [done|].
  destruct fuel as [|fuel]; [cbn in Hfuel; lia|]. destruct (chain_head _ _ _ _ Hch) as (? & [= -> <-]).
  assert (cs !! length cs1 = Some c) as Hj by (rewrite Hcs12; by apply list_lookup_middle).
  destruct (round_bound _ _ Hj) as [_ Hle]. pose proof Hp as (Ht & Htn & Hpos). cbn [while_fuel]. unfold at_.
  destruct (decide (off0 + n <= C * (Z.of_nat (length cs1) + 1) /\ off0 + tot < C * (Z.of_nat (length cs1) + 1))) as [[H1 H2]|Hno].
  { destruct (round_ends (length cs1) c fp last tot l1) as (l2 & Hw2 & Hrun); try done.
    exists l2, fp, last. split_and!; [done..|]. by erewrite run_bind_Ok by exact Hrun. }
  destruct (round_entry (length cs1) c fp last tot l1) as (l2 & Hw2 & Hrun); try done.
  cbn [chain] in Hch. destruct Hch as (_ & Hc & Hch). destruct cs2 as [|y cs2].
  { exfalso. assert (Z.of_nat (length cs) = Z.of_nat (length cs1) + 1) as E by (rewrite Hcs12, length_app; cbn; lia). rewrite E in *. lia. }
  destruct Hch as [He Hch]. rewrite He in Hrun. cbn [run] in Hrun. erewrite run_bind_Ok by exact Hrun.
  pose proof (next_pos cs1 c (y :: cs2) tot Hcs12 Hp Hno) as Hp2.
  destruct (IH (cs1 ++ [c]) (fat_at dev l c) (Some (dev, fat_start (bpb_of dev l) + c / 128)) (fat_start (bpb_of dev l) + c / 128)
    (Z.max tot (C * (Z.of_nat (length cs1) + 1) - off0)) fuel l2) as (l3 & fp' & last' & Hw3 & Hf3 & Hrun3); try done.
  - rewrite Hcs12. by rewrite <- app_assoc.
  - split; [done|]. apply entry_sec, cluster_entry; [apply (fv_bpb _ _ Hv)|done].
  - cbn in Hfuel |- *. lia.
  - exists l3, fp', last'. split_and!; [done..|]. rewrite <- Hrun3. unfold at_. rewrite length_app. cbn [length].
    replace (Z.of_nat (length cs1 + 1)) with (Z.of_nat (length cs1) + 1) by lia. done.
Qed.
(** Up to the end of the chain. *)
Lemma run_loop_to_end cs2 : forall cs1 c fp last tot fuel l1,
  cs = cs1 ++ cs2 -> chain dev l c cs2 -> fp_ok dev l fp last -> wrote l cs off0 tot src l1 -> pos0 cs1 tot -> (length cs2 <= fuel)%nat ->
  off0 + tot <= C * Z.of_nat (length cs) -> ~ (off0 + n <= C * Z.of_nat (length cs) /\ off0 < C * Z.of_nat (length cs)) ->
  let tot' := C * Z.of_nat (length cs) - off0 in
  exists l2 c' fuel', (fuel <= fuel' + length cs2)%nat /\ wrote l cs off0 tot' src l2 /\ list.last cs2 = Some c' /\ 0 <= tot' <= n /\
    let s := fat_start (bpb_of dev l) + c' / 128 in
    isEOF (fat_at dev l c') = true /\
    run (while_fuel fuel body (at_ c fp last cs1 tot)) k (with_fp l1 fp) =
    run (brelse (dev, s);;;
         cno <- fat_calloc dev;;
         b <- bread dev s;;
         fat_put_word b (4 * (c' mod 128)) cno;;;
         while_fuel fuel' body (at_ cno (Some b) s cs tot')) k (with_fp l2 (Some (dev, s))).
Proof.
  induction cs2 as [|x cs2 IH]; intros cs1 c fp last tot fuel l1 Hcs12 Hch Hf Hw Hp Hfuel Hin Hlt tot'; [done|].
  destruct fuel as [|fuel]; [cbn in Hfuel; lia|]. destruct (chain_head _ _ _ _ Hch) as (? & [= -> <-]).
  assert (cs !! length cs1 = Some c) as Hj by (rewrite Hcs12; by apply list_lookup_middle).
  destruct (round_bound _ _ Hj) as [_ Hle]. pose proof Hp as (Ht & Htn & Hpos). cbn [while_fuel]. unfold at_ at 1.
  assert (~ (off0 + n <= C * (Z.of_nat (length cs1) + 1) /\ off0 + tot < C * (Z.of_nat (length cs1) + 1))) as Hno by lia.
  destruct (round_entry (length cs1) c fp last tot l1) as (l2 & Hw2 & Hrun); try done.
  cbn [chain] in Hch. destruct Hch as (_ & Hc & Hch). destruct cs2 as [|y cs2].
  { assert (Z.of_nat (length cs) = Z.of_nat (length cs1) + 1) as E by (rewrite Hcs12, length_app; cbn; lia).
    assert (Z.max tot (C * (Z.of_nat (length cs1) + 1) - off0) = tot') as Et by (subst tot'; rewrite E in *; lia).
    rewrite Et in Hw2, Hrun. exists l2, c, fuel. split_and!; [cbn; lia|done|done|subst tot'; lia|subst tot'; rewrite E in *; lia|done|].
    rewrite Hch in Hrun. unfold at_. rewrite E, run_bind, Hrun. rewrite <- run_bind, !run_assoc. 
    rewrite !run_bind. destruct (run (brelse _) k _) as [[[[] k1] l3]|]; [|done]. rewrite !run_assoc, !run_bind.
    destruct (run (fat_calloc dev) k1 l3) as [[[cno k2] l4]|]; [|done]. rewrite !run_assoc, !run_bind.
    destruct (run (bread dev _) k2 l4) as [[[b k3] l5]|]; [|done]. rewrite !run_assoc, !run_bind.
    destruct (run (fat_put_word b _ cno) k3 l5) as [[[[] k4] l6]|]; done. }
  destruct Hch as [He Hch]. rewrite He in Hrun. cbn [run] in Hrun. erewrite run_bind_Ok by exact Hrun.
  pose proof (next_pos cs1 c (y :: cs2) tot Hcs12 Hp Hno) as Hp2.
  destruct (IH (cs1 ++ [c]) (fat_at dev l c) (Some (dev, fat_start (bpb_of dev l) + c / 128)) (fat_start (bpb_of dev l) + c / 128)
    (Z.max tot (C * (Z.of_nat (length cs1) + 1) - off0)) fuel l2) as (l3 & c' & fuel' & Hfu & Hw3 & Hlast & Htot & Heof & Hrun3); try done.
  - rewrite Hcs12. by rewrite <- app_assoc.
  - split; [done|]. apply entry_sec, cluster_entry; [apply (fv_bpb _ _ Hv)|done].
  - cbn in Hfuel |- *. lia.
  - lia.
  - exists l3, c', fuel'. split_and!; [cbn [length] in *; lia|done|done|lia|lia|done|]. refine (eq_trans _ Hrun3). unfold at_. rewrite length_app. cbn [length].
    replace (Z.of_nat (length cs1 + 1)) with (Z.of_nat (length cs1) + 1) by lia. done.
Qed.
End Clusters.
End Write.
