(* ===== verification/FatFile.v ===== *)
(** * Files of a FAT32 volume that grow

    [extended] is what a write does to a volume: the bytes of the file, its
    chain, and nothing of any other file. *)

From stdpp Require Import base gmap strings numbers list.
From S2P Require Import Prelude Prog Layout Log LStore State FsLogic FatBase FatInode FatSpec FatAlloc FatWrite.

Section File.
Context (dev : Z).
Implicit Types (l : lstore) (k : kmem) (c s : Z) (cs : list Z).

Definition csize l : Z := 512 * SecPerClus (bpb_of dev l).

Record extended l cs (off n : Z) (src : list Z) (c0 : Z) cs' (l' : lstore) : Prop := {
  ex_bpb : bpb_of dev l' = bpb_of dev l;
  ex_vol : fat_vol dev l';
  ex_mirror : mirrored dev l';
  ex_frame : ls_geom l' = ls_geom l /\ ls_held l' = ls_held l /\ ls_logged l' = ls_logged l;
  ex_chain : chain dev l' c0 cs';
  ex_grow : cs' = cs \/ exists c, fat_at dev l c = 0 /\ cluster_ok (bpb_of dev l) c /\ cs' = cs ++ [c];
  ex_cap : off + n <= csize l * Z.of_nat (length cs');
  ex_byte : forall y, 0 <= y < Z.max (csize l * Z.of_nat (length cs)) (off + n) ->
    fat_byte dev l' cs' y = if decide (off <= y < off + n) then nth (Z.to_nat (y - off)) src 0 else fat_byte dev l cs y;
  ex_fat : forall x, entry_ok (bpb_of dev l) x -> x ∉ cs' -> fat_at dev l' x = fat_at dev l x;
  ex_data : forall x i, cluster_ok (bpb_of dev l) x -> x ∉ cs' -> 0 <= i < SecPerClus (bpb_of dev l) ->
    lget l' (dev, first_sec (bpb_of dev l) x + i) = lget l (dev, first_sec (bpb_of dev l) x + i);
}.

(** A cluster of a file is not free. *)
Lemma chain_nonzero l c cs x : bpb_ok (bpb_of dev l) -> chain dev l c cs -> x ∈ cs -> fat_at dev l x <> 0.
Proof.
  intros Hb Hc (r1 & r2 & ->)%list_elem_of_split. apply chain_suffix in Hc. cbn [chain] in Hc. destruct Hc as (_ & _ & Hc).
  destruct r2 as [|y r2].
  - intros E. rewrite E in Hc. done.
  - destruct Hc as [_ Hc]. pose proof (chain_ok _ _ _ _ Hc) as Hok. destruct (chain_head _ _ _ _ Hc) as (r & E). rewrite E in Hok.
    apply Forall_cons in Hok as [(H2 & _) _]. lia.
Qed.

(** A chain whose entries are as they were. *)
Lemma chain_same l l' c cs : bpb_ok (bpb_of dev l) -> bpb_of dev l' = bpb_of dev l -> (forall x, x ∈ cs -> fat_at dev l' x = fat_at dev l x) -> chain dev l c cs -> chain dev l' c cs.
Proof.
  intros Hb He. revert c. induction cs as [|x cs IH]; intros c Hx; [done|]. cbn [chain]. intros (-> & Hc & H).
  rewrite He. rewrite (Hx c) by (by left). split_and!; [done..|]. destruct cs as [|y cs]; [done|]. destruct H as [H1 H2]. split; [done|].
  apply IH; [|done]. intros z Hz. apply Hx. by right.
Qed.

(** A chain with one more cluster at its end. *)
Lemma chain_append l l' c cs cl c' : bpb_ok (bpb_of dev l) -> bpb_of dev l' = bpb_of dev l -> chain dev l c cs -> last cs = Some cl ->
  (forall x, x ∈ cs -> x <> cl -> fat_at dev l' x = fat_at dev l x) -> fat_at dev l' cl = c' -> cluster_ok (bpb_of dev l) c' ->
  isEOF (fat_at dev l' c') = true -> chain dev l' c (cs ++ [c']).
Proof.
  intros Hb He. revert c. induction cs as [|x cs IH]; intros c Hc Hl Hx Hcl Hok Heof; [done|].
  pose proof (chain_nodup _ _ _ _ Hc) as Hnd. cbn [chain app] in *. destruct Hc as (-> & Hc & H). rewrite He.
  assert (isEOF c' = false) as Hne.
  { destruct Hok as (H2 & Hf & Hd). pose proof (bpb_order _ Hb) as Ho. pose proof (bo_spc _ Hb). apply Z.leb_gt. nia. }
  split_and!; [done..|]. destruct cs as [|y cs].
  - injection Hl as ->. cbn [app]. rewrite Hcl. split; [done|]. cbn [chain]. by rewrite He.
  - destruct H as [H1 H2]. cbn [app]. rewrite (Hx c); [| by left|].
    + split; [done|]. apply IH; try done. intros z Hz. apply Hx. by right.
    + intros ->. apply NoDup_cons in Hnd as [Hnin _]. apply Hnin. apply last_Some_elem_of. done.
Qed.

(** Data sectors of different clusters are different. *)
Lemma data_sec_ne l cs x i s : fat_vol dev l -> Forall (cluster_ok (bpb_of dev l)) cs -> x ∉ cs -> 0 <= i < SecPerClus (bpb_of dev l) ->
  0 <= s < sectors dev l cs -> first_sec (bpb_of dev l) x + i <> file_sec dev l cs s.
Proof.
  intros Hv Hcs Hx Hi Hs E. destruct (sector_split _ _ _ _ (fv_bpb _ _ Hv) Hs) as (j & c & Hj & _ & Hr & F).
  rewrite F in E. apply first_sec_inj in E as [<- _]; [|done..]. apply Hx. by eapply list_elem_of_lookup_2.
Qed.

(** A write within the clusters of the file. *)
Lemma wrote_extended l cs off n src c0 l' :
  fat_vol dev l -> mirrored dev l -> chain dev l c0 cs -> 0 <= off -> off + n <= csize l * Z.of_nat (length cs) ->
  wrote dev l cs off n src l' -> extended l cs off n src c0 cs l'.
Proof.
  intros Hv Hm Hc Hoff Hcap Hw. pose proof (chain_ok _ _ _ _ Hc) as Hok. pose proof (fv_bpb _ _ Hv) as Hb.
  pose proof (wrote_bpb _ _ _ _ _ _ _ Hv Hok Hw) as Hbpb.
  split; auto.
  - by eapply wrote_vol.
  - intros s i Hs Hi. rewrite Hbpb in *. destruct (copy_range _ _ i Hb Hs Hi) as [Hr _].
    pose proof (fat_sec_range _ _ _ Hv Hs). unfold copy_sec. rewrite !(wrote_meta _ _ _ _ _ _ _ Hv Hok Hw) by lia. by apply Hm.
  - apply (wr_frame _ _ _ _ _ _ _ Hw).
  - apply (chain_same l); [done|done| |done]. intros x Hx. apply (wrote_fat _ _ _ _ _ _ _ Hv Hok Hw).
    apply cluster_entry; [done|]. by eapply Forall_forall in Hok.
  - intros y Hy. apply (wr_byte _ _ _ _ _ _ _ Hw). unfold sectors, csize in *. lia.
  - intros x Hx _. by apply (wrote_fat _ _ _ _ _ _ _ Hv Hok Hw).
  - intros x i Hx Hn Hi. apply (wr_other _ _ _ _ _ _ _ Hw). intros s Hs E. apply (f_equal snd) in E. cbn [snd] in E.
    by apply (data_sec_ne l cs x i s) in E.
Qed.
(** ** Appending a cluster *)

Section Append.
Context (l : lstore) (cs : list Z) (off n : Z) (src : list Z) (c0 c' cl : Z) (tot : Z) (l2 l3 l4 : lstore).
Let b := bpb_of dev l.
Let s := fat_start b + cl / 128.
Let cs' := cs ++ [c'].
Let cap := csize l * Z.of_nat (length cs).
Hypothesis Hv : fat_vol dev l.
Hypothesis Hm : mirrored dev l.
Hypothesis Hc : chain dev l c0 cs.
Hypothesis Hlast : last cs = Some cl.
Hypothesis Hoff : 0 <= off <= cap.
Hypothesis Hn : cap <= off + n <= cap + csize l.
Hypothesis Htot : tot = cap - off.
Hypothesis Hw2 : wrote dev l cs off tot src l2.
Hypothesis Hal : allocated dev l2 c' l3.
Hypothesis H0 : fat_at dev l c' = 0.
Hypothesis Hok' : cluster_ok b c'.
Hypothesis Hw4 : wrote dev l3 cs' off n src l4.
Hypothesis Hheld : ls_held l = ∅.

(** The entry of the last cluster, pointing to the new one. *)
Definition linked : block := put_u32 (Z.to_nat (4 * (cl mod 128))) c' (lget l3 (dev, s)).
Let l5 := fat_put dev s linked l4.

Lemma ap_ok : Forall (cluster_ok b) cs.
Proof. by eapply chain_ok. Qed.
Lemma ap_new : c' ∉ cs.
Proof. intros Hin. by eapply chain_nonzero in Hin; [|apply (fv_bpb _ _ Hv)|exact Hc]. Qed.
Lemma ap_ok' : Forall (cluster_ok b) cs'.
Proof. apply Forall_app. split; [apply ap_ok|]. by apply Forall_singleton. Qed.
Lemma ap_nodup : NoDup cs'.
Proof.
  apply NoDup_app. split_and!; [by eapply chain_nodup| |apply NoDup_singleton].
  intros x Hx Hx'. apply list_elem_of_singleton in Hx' as ->. by apply ap_new.
Qed.
Lemma ap_cl : cl ∈ cs.
Proof. by apply last_Some_elem_of. Qed.

Lemma ap_bpb2 : bpb_of dev l2 = b.
Proof. apply (wrote_bpb _ _ _ _ _ _ _ Hv ap_ok Hw2). Qed.
Lemma ap_bpb3 : bpb_of dev l3 = b.
Proof. rewrite (al_bpb _ _ _ _ Hal). apply ap_bpb2. Qed.
Lemma ap_bpb4 : bpb_of dev l4 = b.
Proof. rewrite (wrote_bpb dev l3 cs' off n src l4); [apply ap_bpb3|apply (al_vol _ _ _ _ Hal)|rewrite ap_bpb3; apply ap_ok'|done]. Qed.

Lemma ap_sec : fat_sec b s.
Proof. apply entry_sec, cluster_entry; [apply (fv_bpb _ _ Hv)|]. eapply (proj1 (Forall_forall _ _) ap_ok), ap_cl. Qed.

(** The data sectors are as they were after the first part. *)
Lemma ap_data x i : cluster_ok b x -> 0 <= i < SecPerClus b -> lget l3 (dev, first_sec b x + i) = lget l2 (dev, first_sec b x + i).
Proof.
  intros Hx Hi. pose proof (fv_bpb _ _ Hv) as Hb. fold b in Hb. destruct (cluster_bound _ _ Hb Hx) as (_ & _ & Hd). specialize (Hd i Hi).
  pose proof (bpb_order _ Hb) as Ho. apply (al_other _ _ _ _ Hal); rewrite ap_bpb2.
  - other_sector.
  - intros j Hj. pose proof (entry_sec _ _ (cluster_entry _ _ Hb Hok')) as Hs. destruct (copy_range _ _ j Hb Hs Hj) as [Hr _].
    unfold copy_sec. other_sector.
Qed.

Lemma ap_fat3 x : entry_ok b x -> fat_at dev l3 x = if decide (x = c') then LAST_FAT_ENTRY else fat_at dev l x.
Proof.
  intros Hx. rewrite (al_fat _ _ _ _ Hal) by (by rewrite ap_bpb2). destruct (decide (x = c')); [done|].
  by apply (wrote_fat _ _ _ _ _ _ _ Hv ap_ok Hw2).
Qed.

Lemma ap_byte_old l1 y : bpb_of dev l1 = b -> 0 <= y < cap -> fat_byte dev l1 cs' y = fat_byte dev l1 cs y.
Proof.
  intros Hb1 Hy. unfold fat_byte, file_sec. rewrite Hb1. pose proof (bo_spc _ (fv_bpb _ _ Hv)) as Hp. fold b in Hp.
  assert (0 <= y / 512 / SecPerClus b < Z.of_nat (length cs)) as Hr.
  { rewrite Z.div_div by lia. split; [apply Z.div_pos|apply Z.div_lt_upper_bound]; unfold cap, csize in *; fold b in Hy; lia. }
  subst cs'. by rewrite app_nth1 by lia.
Qed.

(** In the extended file, the first part has been written. *)
Lemma ap_wrote3 : wrote dev l3 cs' off tot src l3.
Proof.
  split; [done| |done|rewrite ap_bpb3; intros t Ht; apply (fv_len _ _ (al_vol _ _ _ _ Hal)); by rewrite ap_bpb3].
  intros y Hy. destruct (decide (off <= y < off + tot)) as [Hin|]; [|done].
  rewrite ap_byte_old; [|apply ap_bpb3|lia]. pose proof (wr_byte _ _ _ _ _ _ _ Hw2 y) as Hb2.
  rewrite decide_True in Hb2 by lia. rewrite <- Hb2.
  2: { unfold sectors, cap, csize in *. lia. }
  assert (0 <= y / 512 < sectors dev l cs) as Hs.
  { unfold sectors, cap, csize in *. split; [apply Z.div_pos|apply Z.div_lt_upper_bound]; lia. }
  destruct (sector_split _ _ _ _ (fv_bpb _ _ Hv) Hs) as (j & c & Hj & _ & Hr & F).
  unfold fat_byte. assert (forall l1, bpb_of dev l1 = b -> file_sec dev l1 cs (y / 512) = file_sec dev l cs (y / 512)) as Hf.
  { intros l1 E. unfold file_sec. by rewrite E. }
  rewrite (Hf l3 ap_bpb3), (Hf l2 ap_bpb2), F. f_equal. apply ap_data; [|done]. by eapply Forall_lookup_1 in Hj; [|apply ap_ok].
Qed.
Lemma ap_vol4 : fat_vol dev l4.
Proof. eapply wrote_vol; [apply (al_vol _ _ _ _ Hal)|rewrite ap_bpb3; apply ap_ok'|exact Hw4]. Qed.

(** Sectors below the data: the second part did not touch them. *)
Lemma ap_meta4 t : t < data_start b -> lget l4 (dev, t) = lget l3 (dev, t).
Proof.
  intros Ht. apply (wrote_meta dev l3 cs' off n src l4); [apply (al_vol _ _ _ _ Hal)|rewrite ap_bpb3; apply ap_ok'|done|by rewrite ap_bpb3].
Qed.

Lemma ap_len3 : length (lget l3 (dev, s)) = 512%nat.
Proof.
  apply (fv_len _ _ (al_vol _ _ _ _ Hal)). rewrite ap_bpb3. pose proof ap_sec as Hs. pose proof (bpb_order _ (fv_bpb _ _ Hv)) as Ho.
  fold b in Ho. unfold fat_sec in Hs. lia.
Qed.

Lemma ap_linked_len : length linked = 512%nat.
Proof. pose proof ap_len3. unfold linked. rewrite length_put_u32; lia. Qed.

Lemma ap_get5 x : lget l5 x = if decide (Exists (fun i => x = copy_sec dev b s i) (seqZ 0 (NumFATs b))) then linked else lget l4 x.
Proof. unfold l5. rewrite lget_fat_put by (rewrite ap_bpb4; apply (fv_bpb _ _ Hv)). by rewrite ap_bpb4. Qed.

Lemma ap_get5_other x : (forall i, 0 <= i < NumFATs b -> x <> copy_sec dev b s i) -> lget l5 x = lget l4 x.
Proof. intros Hx. rewrite ap_get5, decide_False; [done|]. intros (i & Hi%elem_of_seqZ & E)%Exists_exists. apply (Hx i); [lia|done]. Qed.

Lemma ap_copy i : 0 <= i < NumFATs b -> fat_start b <= s + i * FATSz32 b < data_start b /\ s <= s + i * FATSz32 b.
Proof.
  intros Hi. pose proof (fv_bpb _ _ Hv) as Hb. fold b in Hb. destruct (copy_range _ _ i Hb ap_sec Hi) as [Hr _]. split; [done|]. destruct Hb. nia.
Qed.

Lemma ap_data5 t : data_start b <= t \/ t < fat_start b -> lget l5 (dev, t) = lget l4 (dev, t).
Proof. intros Ht. apply ap_get5_other. intros i Hi. pose proof (ap_copy i Hi). unfold copy_sec. other_sector. Qed.

Lemma ap_bpb5 : bpb_of dev l5 = b.
Proof. rewrite <- ap_bpb4. unfold bpb_of at 1. rewrite ap_data5; [done|]. pose proof (bpb_order _ (fv_bpb _ _ Hv)) as Ho. fold b in Ho. lia. Qed.

Lemma ap_fat5 x : entry_ok b x -> fat_at dev l5 x = if decide (x = cl) then c' else fat_at dev l3 x.
Proof.
  intros Hx. pose proof (fv_bpb _ _ Hv) as Hb. fold b in Hb. pose proof (bpb_order _ Hb) as Ho. pose proof (cluster_bound _ _ Hb Hok') as [Hc' _].
  pose proof ap_linked_len as Hlen. pose proof ap_sec as Hs. unfold fat_sec in Hs.
  unfold fat_at. rewrite ap_bpb5, ap_bpb3. destruct (decide (x / 128 = cl / 128)) as [E|Hne].
  - rewrite E. fold s. rewrite ap_get5, decide_True.
    2: { apply Exists_exists. exists 0. split; [apply elem_of_seqZ; destruct Hb; lia|]. unfold copy_sec. f_equal. lia. }
    pose proof ap_len3 as Hl3.
    unfold linked. destruct (decide (x = cl)) as [->|Hxc].
    + rewrite get_put_u32 by lia. rewrite u32_small; lia.
    + unfold get_u32. rewrite slice_put_u32_other; [done|lia|lia].
  - rewrite decide_False by congruence. f_equal. rewrite ap_get5_other.
    + apply ap_meta4. pose proof (entry_sec _ _ Hx) as Hsx. unfold fat_sec in Hsx. lia.
    + intros i Hi. destruct (copy_range b s i Hb ap_sec Hi) as [_ Hr]. pose proof (entry_sec _ _ Hx) as Hsx.
      unfold fat_sec, copy_sec in *. intros Eq. apply (f_equal snd) in Eq. cbn [snd] in Eq.
      assert (s = fat_start b + cl / 128) as Es by done. destruct (decide (i = 0)) as [->|]; nia.
Qed.
Lemma ap_vol5 : fat_vol dev l5.
Proof.
  destruct (fat_put_frame dev s linked l4) as (Hg & _). split; rewrite ap_bpb5.
  - apply (fv_bpb _ _ Hv).
  - intros t Ht. pose proof (fv_blk _ _ ap_vol4 t) as Hb. rewrite ap_bpb4 in Hb. specialize (Hb Ht). unfold blk_ok in *. unfold l5. by rewrite Hg.
  - intros t Ht. rewrite ap_get5. destruct (decide _); [apply ap_linked_len|]. apply (fv_len _ _ ap_vol4). by rewrite ap_bpb4.
Qed.

Lemma ap_mirror3 : mirrored dev l3.
Proof.
  intros t i Ht Hi. rewrite ap_bpb3 in *. pose proof (fv_bpb _ _ Hv) as Hb. fold b in Hb. pose proof (bpb_order _ Hb) as Ho.
  set (s3 := fat_start b + c' / 128). pose proof (entry_sec _ _ (cluster_entry _ _ Hb Hok')) as Hs3. fold s3 in Hs3.
  destruct (decide (t = s3)) as [->|Hne]; [pose proof (al_copies _ _ _ _ Hal i) as Hcp; rewrite ap_bpb2 in Hcp; by apply Hcp|].
  assert (forall j, 0 <= j < NumFATs b -> lget l3 (copy_sec dev b t j) = lget l (copy_sec dev b t j)) as Hold.
  { intros j Hj. destruct (copy_range _ _ j Hb Ht Hj) as [Hr Hr2]. rewrite (al_other _ _ _ _ Hal).
    - apply (wrote_meta _ _ _ _ _ _ _ Hv ap_ok Hw2). fold b. lia.
    - rewrite ap_bpb2. unfold copy_sec. other_sector.
    - rewrite ap_bpb2. fold s3. intros j' Hj'. destruct (copy_range _ _ j' Hb Hs3 Hj') as [_ Hr3]. unfold copy_sec.
      intros Eq. apply (f_equal snd) in Eq. cbn [snd] in Eq. unfold fat_sec in *. assert (j = j') by nia. subst j'. lia. }
  assert (copy_sec dev b t 0 = (dev, t)) as E0 by (unfold copy_sec; f_equal; lia).
  rewrite (Hold i Hi), <- E0, (Hold 0) by (destruct Hb; lia). rewrite E0. by apply Hm.
Qed.

Lemma ap_mirror5 : mirrored dev l5.
Proof.
  intros t i Ht Hi. rewrite ap_bpb5 in *. pose proof (fv_bpb _ _ Hv) as Hb. fold b in Hb.
  assert (copy_sec dev b t 0 = (dev, t)) as E0 by (unfold copy_sec; f_equal; lia). rewrite <- E0.
  assert (forall j, 0 <= j < NumFATs b -> lget l5 (copy_sec dev b t j) = if decide (t = s) then linked else lget l3 (dev, t)) as H.
  { intros j Hj. destruct (copy_range _ _ j Hb Ht Hj) as [Hr Hr2]. destruct (decide (t = s)) as [->|Hne].
    - rewrite ap_get5, decide_True; [done|]. apply Exists_exists. exists j. split; [apply elem_of_seqZ; lia|done].
    - rewrite ap_get5_other.
      + unfold copy_sec at 1. rewrite ap_meta4 by lia. pose proof (ap_mirror3 t j) as Hm3. rewrite ap_bpb3 in Hm3. by apply Hm3.
      + intros j' Hj'. destruct (copy_range _ _ j' Hb ap_sec Hj') as [_ Hr3]. pose proof ap_sec as Hs. unfold copy_sec, fat_sec in *.
        intros Eq. apply (f_equal snd) in Eq. cbn [snd] in Eq. assert (j = j') by nia. subst j'. lia. }
  rewrite !H by (destruct Hb; lia). done.
Qed.
Lemma ap_chain5 : chain dev l5 c0 cs'.
Proof.
  pose proof (fv_bpb _ _ Hv) as Hb. fold b in Hb. pose proof (cluster_entry _ _ Hb Hok') as He'.
  assert (c' <> cl) as Hne' by (intros E; apply ap_new; rewrite E; apply ap_cl).
  assert (fat_at dev l5 c' = LAST_FAT_ENTRY) as Hn'.
  { rewrite ap_fat5, ap_fat3, decide_False, decide_True by done. done. }
  apply (chain_append l l5 c0 cs cl c'); try done; try apply ap_bpb5.
  - intros x Hx Hne. assert (x <> c') by (intros E; apply ap_new; by rewrite <- E).
    assert (entry_ok b x) as Hex by (apply cluster_entry; [done|]; by eapply (proj1 (Forall_forall _ _) ap_ok)).
    by rewrite ap_fat5, ap_fat3, !decide_False.
  - rewrite ap_fat5, decide_True; [done|done|]. apply cluster_entry; [done|]. eapply (proj1 (Forall_forall _ _) ap_ok), ap_cl.
  - by rewrite Hn'.
Qed.

Lemma ap_extended : extended l cs off n src c0 cs' l5.
Proof.
  pose proof (fv_bpb _ _ Hv) as Hb. fold b in Hb. pose proof (bo_spc _ Hb) as Hspc.
  split.
  - apply ap_bpb5.
  - apply ap_vol5.
  - apply ap_mirror5.
  - unfold l5. destruct (fat_put_frame dev s linked l4) as (-> & -> & ->), (wr_frame _ _ _ _ _ _ _ Hw4) as (-> & -> & ->),
      (al_free _ _ _ _ Hal) as (E1 & -> & ->), (wr_frame _ _ _ _ _ _ _ Hw2) as (-> & E2 & ->). rewrite E1, Hheld. done.
  - apply ap_chain5.
  - right. by exists c'.
  - subst cs'. rewrite length_app. cbn [length]. unfold cap in Hn. lia.
  - intros y Hy. assert (0 <= y < 512 * sectors dev l3 cs') as Hy3.
    { unfold sectors. rewrite ap_bpb3. subst cs'. rewrite length_app. cbn [length]. unfold cap, csize in *. fold b in Hy, Hn. lia. }
    assert (fat_byte dev l5 cs' y = fat_byte dev l4 cs' y) as ->.
    { assert (0 <= y / 512 < sectors dev l3 cs') as Hs by (split; [apply Z.div_pos|apply Z.div_lt_upper_bound]; lia).
      pose proof (file_sec_range dev l3 cs' (y / 512) (al_vol _ _ _ _ Hal) ltac:(rewrite ap_bpb3; apply ap_ok') Hs) as Hr.
      unfold fat_byte. unfold file_sec in *. rewrite ap_bpb5, ap_bpb4. rewrite ap_bpb3 in Hr. rewrite ap_data5; [done|lia]. }
    rewrite (wr_byte _ _ _ _ _ _ _ Hw4 y Hy3). destruct (decide (off <= y < off + n)) as [|Hout]; [done|].
    rewrite ap_byte_old; [|apply ap_bpb3|unfold cap in *; lia].
    assert (0 <= y < cap) as Hyc by (unfold cap in *; lia).
    assert (0 <= y / 512 < sectors dev l cs) as Hs.
    { unfold sectors, cap, csize in *. split; [apply Z.div_pos|apply Z.div_lt_upper_bound]; lia. }
    destruct (sector_split _ _ _ _ Hb Hs) as (j & c & Hj & _ & Hr & F).
    pose proof (wr_byte _ _ _ _ _ _ _ Hw2 y) as Hb2. rewrite decide_False in Hb2 by (unfold cap in *; lia).
    rewrite <- Hb2 by (unfold sectors, cap, csize in *; lia).
    assert (forall l1, bpb_of dev l1 = b -> file_sec dev l1 cs (y / 512) = file_sec dev l cs (y / 512)) as Hf
      by (intros l1 E; unfold file_sec; by rewrite E).
    unfold fat_byte. rewrite (Hf l3 ap_bpb3), (Hf l2 ap_bpb2), F. f_equal. apply ap_data; [|done]. by eapply Forall_lookup_1 in Hj; [|apply ap_ok].
  - intros x Hx Hnot. assert (x <> cl /\ x <> c') as [H1 H2].
    { split; intros ->; apply Hnot; subst cs'; rewrite elem_of_app; [left; apply ap_cl|right; by apply list_elem_of_singleton]. }
    by rewrite ap_fat5, ap_fat3, !decide_False.
  - intros x i Hx Hnot Hi. destruct (cluster_bound _ _ Hb Hx) as (_ & _ & Hd). specialize (Hd i Hi). fold b. rewrite ap_data5 by lia.
    rewrite (wr_other _ _ _ _ _ _ _ Hw4).
    + rewrite ap_data by done. apply (wr_other _ _ _ _ _ _ _ Hw2). intros t Ht E. apply (f_equal snd) in E. cbn [snd] in E.
      apply (data_sec_ne l cs x i t) in E; try done; [apply ap_ok|]. intros Hin. apply Hnot. subst cs'. rewrite elem_of_app. by left.
    + intros t Ht E. apply (f_equal snd) in E. cbn [snd] in E. pose proof (data_sec_ne l3 cs' x i t (al_vol _ _ _ _ Hal)) as Hne.
      rewrite ap_bpb3 in Hne. revert E. apply Hne; [apply ap_ok'|done|done|done].
Qed.
End Append.
(** ** The whole transfer *)

Lemma free_cluster_same l l' : bpb_ok (bpb_of dev l) -> bpb_of dev l' = bpb_of dev l -> hint dev l' = hint dev l -> hint_ok dev l ->
  (forall x, entry_ok (bpb_of dev l) x -> fat_at dev l' x = fat_at dev l x) -> free_cluster dev l' = free_cluster dev l /\ hint_ok dev l'.
Proof.
  intros Hb He Hh Hok Hf. pose proof (bpb_order _ Hb) as Ho. pose proof (bo_spc _ Hb) as Hspc. split; [|unfold hint_ok; by rewrite Hh, He].
  unfold free_cluster. rewrite Hh, He. f_equal. apply filter_ext_in. intros x Hx. rewrite Hf; [done|].
  destruct Hok as [H1 H2]. assert (clusters (bpb_of dev l) < 2 ^ 28) by (unfold clusters; apply Z.div_lt_upper_bound; nia).
  rewrite elem_of_app, !elem_of_seqZ in Hx. split; [lia|]. apply Z.div_lt_upper_bound; lia.
Qed.

(** There is room for the transfer: in the clusters the file has, or with one
    more. *)
Definition room l cs (off n : Z) : Prop :=
  let cap := csize l * Z.of_nat (length cs) in
  off + n <= cap /\ off < cap \/
  exists c, hint_ok dev l /\ free_cluster dev l = Some c /\ cluster_ok (bpb_of dev l) c /\ off + n <= cap + csize l < 2 ^ 32.

Section Transfer.
Context (l : lstore) (cs : list Z) (off n : Z) (src : list Z) (c0 : Z) (k : kmem).
Let C := csize l.
Hypothesis Hv : fat_vol dev l.
Hypothesis Hu : unlogged dev l.
Hypothesis Hm : mirrored dev l.
Hypothesis Hheld : ls_held l = ∅.
Hypothesis Hroom : (size (ls_logged l) <= 6)%nat.
Hypothesis Hc : chain dev l c0 cs.
Hypothesis Hcap : C * Z.of_nat (length cs) < 2 ^ 32.
Hypothesis Hoff : 0 <= off <= C * Z.of_nat (length cs).
Hypothesis Hn : 0 <= n <= Z.of_nat (length src).

Lemma tr_idle : idle dev l.
Proof. split; [intros x _; by rewrite Hheld|rewrite Hheld, map_size_empty; lia|done]. Qed.

Lemma tr_fuel : (length cs + 2 <= chain_fuel (bpb_of dev l))%nat.
Proof. pose proof (chain_length _ _ _ _ Hv Hc). unfold chain_fuel. lia. Qed.

Lemma transfer_within : off + n <= C * Z.of_nat (length cs) -> off < C * Z.of_nat (length cs) ->
  exists fp l1 l', run (while_fuel (chain_fuel (bpb_of dev l)) (writei_cluster dev (bpb_of dev l) n C) (c0, None, 0, 0, (0, off, src))) k l = Ok ((off + n, fp), k, l1) /\
    run (opt_rel rel_fat fp) k l1 = Ok (tt, k, l') /\ extended l cs off n src c0 cs l'.
Proof.
  intros Hin Hlt. pose proof tr_idle as Hi. pose proof (chain_ok _ _ _ _ Hc) as Hok. pose proof (chain_nodup _ _ _ _ Hc) as Hnd. pose proof tr_fuel as Hfuel.
  destruct (run_loop_within dev l cs off n src k Hi Hv Hu Hm Hok Hnd ltac:(lia) ltac:(unfold C, csize in *; lia) ltac:(lia) Hcap cs [] c0 None 0 0 (chain_fuel (bpb_of dev l)) l)
    as (l2 & fp & last & Hw & Hf & Hrun); try done; try lia.
  - by apply wrote_nil.
  - unfold pos0. cbn. unfold C in *. lia.
  - unfold at_, body in Hrun. cbn [length Z.of_nat Z.to_nat drop] in Hrun. rewrite Z.mul_0_r, Z.add_0_r in Hrun.
    exists fp, (with_fp l2 fp). destruct (wrote_context dev l cs off src Hi Hv Hu Hm Hok n l2 Hw) as (Hi2 & Hv2 & Hu2 & Hm2 & Hb2 & Hfp).
    assert (exists l', run (opt_rel rel_fat fp) k (with_fp l2 fp) = Ok (tt, k, l') /\ same l2 l') as (l' & Hrel & Hsm).
    { destruct fp as [b|]; [|exists l2; split; [done|apply same_refl]]. destruct (Hfp _ _ Hf) as [-> Hs]. cbn [opt_rel with_fp].
      exists (fat_put dev last (lget l2 (dev, last)) l2). split; [|by apply fat_put_same]. apply run_rel_fat; try done.
      apply (fv_len _ _ Hv2). pose proof (fat_sec_range _ _ _ Hv2 Hs). pose proof (bpb_order _ (fv_bpb _ _ Hv2)). lia. }
    exists l'. split_and!; [exact Hrun|exact Hrel|]. apply wrote_extended; try done; [lia|]. by eapply same_wrote.
Qed.
Lemma transfer_append c' : ~ (off + n <= C * Z.of_nat (length cs) /\ off < C * Z.of_nat (length cs)) ->
  hint_ok dev l -> free_cluster dev l = Some c' -> cluster_ok (bpb_of dev l) c' -> off + n <= C * Z.of_nat (length cs) + C < 2 ^ 32 ->
  exists fp l1 l', run (while_fuel (chain_fuel (bpb_of dev l)) (writei_cluster dev (bpb_of dev l) n C) (c0, None, 0, 0, (0, off, src))) k l = Ok ((off + n, fp), k, l1) /\
    run (opt_rel rel_fat fp) k l1 = Ok (tt, k, l') /\ extended l cs off n src c0 (cs ++ [c']) l'.
Proof.
  intros Hno Hhint Hfree Hok' Hend. pose proof tr_idle as Hi. pose proof (chain_ok _ _ _ _ Hc) as Hok. pose proof (chain_nodup _ _ _ _ Hc) as Hnd.
  pose proof tr_fuel as Hfuel. pose proof (fv_bpb _ _ Hv) as Hb. pose proof (bpb_order _ Hb) as Ho. pose proof (bo_spc _ Hb) as Hspc.
  set (cap := C * Z.of_nat (length cs)) in *. set (tot := cap - off).
  destruct (run_loop_to_end dev l cs off n src k Hi Hv Hu Hm Hok Hnd ltac:(lia) ltac:(unfold C, csize in *; lia) ltac:(lia) Hcap cs [] c0 None 0 0 (chain_fuel (bpb_of dev l)) l)
    as (l2 & cl & fuel & Hfu & Hw2 & Hlast & Htot & Heof & Hrun); try done; try lia.
  { by apply wrote_nil. } { unfold pos0. cbn. unfold cap, C in *. lia. } { unfold cap, C, csize in *. lia. }
  fold (csize l) in Htot, Hw2, Hrun. fold C in Htot, Hw2, Hrun. fold cap in Htot, Hw2, Hrun. fold tot in Htot, Hw2, Hrun.
  set (s := fat_start (bpb_of dev l) + cl / 128) in *.
  destruct (wrote_context dev l cs off src Hi Hv Hu Hm Hok tot l2 Hw2) as (Hi2 & Hv2 & Hu2 & Hm2 & Hb2 & _).
  destruct (wr_frame _ _ _ _ _ _ _ Hw2) as (Hg2 & Hh2 & Hl2).
  assert (cl ∈ cs) as Hcl by (by apply last_Some_elem_of).
  assert (fat_sec (bpb_of dev l) s) as Hs by (apply entry_sec, cluster_entry; [done|]; by eapply (proj1 (Forall_forall _ _) Hok)).
  (* the old FAT sector is released, a cluster allocated *)
  assert (hint dev l2 = hint dev l) as Hhint2.
  { unfold hint. rewrite Hb2. by rewrite (wrote_meta _ _ _ _ _ _ _ Hv Hok Hw2) by lia. }
  destruct (free_cluster_same l l2 Hb Hb2 Hhint2 Hhint) as [Hfree2 Hhok2]; [intros x Hx; by apply (wrote_fat _ _ _ _ _ _ _ Hv Hok Hw2)|].
  pose proof (run_calloc dev l2 k Hv2 Hu2 ltac:(by rewrite Hh2) ltac:(by rewrite Hl2) Hhok2) as Hcall. rewrite Hfree2, Hfree in Hcall.
  destruct Hcall as (l3 & Hcall & Hal & Hz2).
  assert (fat_at dev l c' = 0) as Hz by (rewrite <- Hz2; symmetry; apply (wrote_fat _ _ _ _ _ _ _ Hv Hok Hw2), cluster_entry; done).
  destruct (al_free _ _ _ _ Hal) as (Hh3 & Hl3 & Hg3). pose proof (al_vol _ _ _ _ Hal) as Hv3.
  assert (bpb_of dev l3 = bpb_of dev l) as Hb3 by (by rewrite (al_bpb _ _ _ _ Hal)).
  assert (unlogged dev l3) as Hu3 by (intros t; unfold is_logged; rewrite Hl3, Hg3; apply Hu2).
  assert (idle dev l3) as Hi3 by (split; [intros x _; by rewrite Hh3|rewrite Hh3, map_size_empty; lia|by rewrite Hl3, Hl2]).
  set (d1 := linked l c' cl l3). assert (length d1 = 512%nat) as Hd1 by (by eapply (ap_linked_len l cs off src c0 c' cl tot l2 l3)).
  (* the bytes in the new cluster *)
  assert (wrote dev l3 (cs ++ [c']) off tot src l3) as Hw3 by (by apply (ap_wrote3 l cs off src c0 c' cl tot l2 l3)).
  destruct fuel as [|fuel]; [lia|].
  destruct (run_writei_in dev l3 (cs ++ [c']) (Some ((dev, s), d1)) k (length cs) c' off n src tot l3)
    as (l4 & [(_ & _ & Hw4 & Hlast4)|(Hno4 & _)]); rewrite ?Hb3; try done; try lia.
  - exists s. by rewrite Hb3.
  - by apply (ap_ok' l cs c0 c').
  - by apply (ap_nodup l cs c0 c').
  - by apply list_lookup_middle.
  - fold (csize l). fold C. fold cap. lia.
  - fold (csize l). fold C. fold cap. lia.
  - exists (Some (dev, s)), (hold (dev, s) d1 l4), (fat_put dev s d1 l4). split_and!.
    + change (run _ k l) with (run (while_fuel (chain_fuel (bpb_of dev l)) (writei_cluster dev (bpb_of dev l) n C) (c0, None, 0, 0, (0, off, src))) k (with_fp l None)).
      unfold at_ at 1, body at 1 in Hrun. cbn [length Z.of_nat Z.to_nat drop] in Hrun. rewrite Z.mul_0_r, Z.add_0_r in Hrun.
      refine (eq_trans Hrun _). cbn [with_fp]. run_step run_brelse; [|apply fat_free; by rewrite ?Hb2].
      erewrite run_bind_Ok by exact Hcall. run_step run_bread.
      * unfold fat_put_word. run_step run_bmodify. fold (linked l c' cl l3). fold d1. cbn [while_fuel]. unfold body at 1, writei_cluster, at_.
        fold (csize l). fold C. fold cap. rewrite Hb3 in Hlast4. fold (csize l) in Hlast4. fold C in Hlast4. fold cap in Hlast4.
        change (hold (dev, s) d1 l3) with (holdo l3 (Some ((dev, s), d1))). rewrite run_assoc. erewrite run_bind_Ok by exact Hlast4. done.
      * apply (fv_blk _ _ Hv3). rewrite Hb3. unfold fat_sec in Hs. lia.
      * apply (with_fp_calm dev l3 None Hi3).
      * by rewrite Hh3.
    + cbn [opt_rel]. pose proof (wrote_bpb dev l3 (cs ++ [c']) off n src l4 Hv3 ltac:(rewrite Hb3; by apply (ap_ok' l cs c0 c')) Hw4) as Hb4.
      assert (Forall (cluster_ok (bpb_of dev l3)) (cs ++ [c'])) as Hok3 by (rewrite Hb3; by apply (ap_ok' l cs c0 c')).
      apply run_rel_fat; [by eapply wrote_idle|by eapply wrote_vol| |by rewrite Hb4, Hb3|done].
      destruct (wr_frame _ _ _ _ _ _ _ Hw4) as (Hg4 & _ & Hl4). intros t. unfold is_logged. rewrite Hl4, Hg4. apply Hu3.
    + apply (ap_extended l cs off n src c0 c' cl tot l2 l3 l4); try done. fold C. fold cap. lia.
  - exfalso. rewrite Hb3 in Hno4. apply Hno4. fold (csize l). fold C. fold cap. lia.
Qed.
End Transfer.
End File.
