(* ===== verification/FatEntry.v ===== *)
(** * The directory entry of a FAT32 file

    [fat_ilock], [fat_iupdate] and [fat_itrunc] look for the directory entry
    of an inode by walking the clusters of its directory; [walk_finds] is what
    such a walk does.  With it, what [fat_writei] does as a whole. *)

From stdpp Require Import base gmap strings numbers list.
From S2P Require Import Prelude Prog Layout Log LStore State FsLogic FatBase FatInode FatSpec FatAlloc FatWrite FatFile.

Section Walk.
Context (dev : Z) (l : lstore) (k : kmem).
Context {R : Type} (E : unit -> bufkey -> Z -> Z -> nat -> option bufkey -> fsprog (unit + R)).
Context (r : R) (k' : kmem) (l' : lstore).
Context (dcs : list Z) (t0 : Z) (j0 : nat).
Let b := bpb_of dev l.
Let spc := SecPerClus b.
Hypothesis Hi : idle dev l.
Hypothesis Hv : fat_vol dev l.
Hypothesis Hok : Forall (cluster_ok b) dcs.
Hypothesis Ht0 : 0 <= t0 < spc * Z.of_nat (length dcs).
Hypothesis Hj0 : (j0 < 16)%nat.

(** The sector of entry number [j] of sector [t] of the directory, locked. *)
Definition at_sec (t : Z) (fp : option bufkey) : lstore :=
  hold (dev, file_sec dev l dcs t) (lget l (dev, file_sec dev l dcs t)) (with_fp l fp).

Hypothesis Hmiss : forall t c fp j, 0 <= t <= t0 -> dcs !! Z.to_nat (t / spc) = Some c -> (j < 16)%nat -> t < t0 \/ (j < j0)%nat ->
  run (E tt (dev, file_sec dev l dcs t) c (t mod spc) j fp) k (at_sec t fp) = Ok (inl tt, k, at_sec t fp).
Hypothesis Hhit : forall c fp last, fp_ok dev l fp last -> dcs !! Z.to_nat (t0 / spc) = Some c ->
  run (E tt (dev, file_sec dev l dcs t0) c (t0 mod spc) j0 fp) k (at_sec t0 fp) = Ok (inr r, k', l').

Lemma entries_miss t c fp js : 0 <= t <= t0 -> dcs !! Z.to_nat (t / spc) = Some c -> Forall (fun j => (j < 16)%nat /\ (t < t0 \/ (j < j0)%nat)) js ->
  run (iter_list (fun s j => E s (dev, file_sec dev l dcs t) c (t mod spc) j fp) js tt) k (at_sec t fp) = Ok (inl tt, k, at_sec t fp).
Proof.
  intros Ht Hc. induction js as [|j js IH]; intros Hjs; [done|]. apply Forall_cons in Hjs as [[Hj Hlt] Hjs]. cbn [iter_list].
  erewrite run_bind_Ok by (by apply Hmiss). by apply IH.
Qed.

Lemma iter_list_app {A S} (f : S -> A -> fsprog (S + R)) xs ys (s : S) (kk : kmem) (ll : lstore) :
  run (iter_list f (xs ++ ys) s) kk ll =
  match run (iter_list f xs s) kk ll with
  | Ok (inl s', k1, l1) => run (iter_list f ys s') k1 l1
  | Ok (inr x, k1, l1) => Ok (inr x, k1, l1)
  | Fail e => Fail e
  end.
Proof.
  revert s kk ll. induction xs as [|x xs IH]; intros s kk ll; [done|]. cbn [app iter_list]. rewrite !run_bind.
  destruct (run (f s x) kk ll) as [[[[s'|y] k1] l1]|e]; [apply IH|done..].
Qed.

(** The sector of the directory with number [t] *)
Lemma dir_sector t c : 0 <= t < spc * Z.of_nat (length dcs) -> dcs !! Z.to_nat (t / spc) = Some c ->
  fat_getFirstSectorofCluster b c + t mod spc = file_sec dev l dcs t /\ data_start b <= file_sec dev l dcs t < TotSec32 b.
Proof.
  intros Ht Hc. pose proof (fv_bpb _ _ Hv) as Hb. fold b in Hb. split; [|by apply file_sec_range].
  rewrite (first_sector _ _ Hb (Forall_lookup_1 _ _ _ _ Hok Hc)). unfold file_sec. fold b. fold spc. by rewrite (nth_lookup_Some _ _ _ _ Hc).
Qed.

Lemma sector_miss t c fp last : 0 <= t < t0 -> dcs !! Z.to_nat (t / spc) = Some c -> fp_ok dev l fp last ->
  run (fat_sector dev b brelse E tt c (t mod spc) fp) k (with_fp l fp) = Ok (inl tt, k, with_fp l fp).
Proof.
  intros Ht Hc Hf. destruct (dir_sector t c ltac:(lia) Hc) as [Es Hr]. unfold fat_sector. rewrite Es.
  destruct (run_read_sector dev l fp last (file_sec dev l dcs t) k Hi Hv Hf Hr) as [Hrd Hrl].
  erewrite run_bind_Ok by exact Hrd. erewrite run_bind_Ok.
  2: { apply entries_miss; [lia|done|]. apply Forall_forall. intros j Hj%elem_of_seq. lia. }
  cbv beta iota. by erewrite run_bind_Ok by exact Hrl.
Qed.

Lemma sector_hit c fp last : dcs !! Z.to_nat (t0 / spc) = Some c -> fp_ok dev l fp last ->
  run (fat_sector dev b brelse E tt c (t0 mod spc) fp) k (with_fp l fp) = Ok (inr r, k', l').
Proof.
  intros Hc Hf. destruct (dir_sector t0 c Ht0 Hc) as [Es Hr]. unfold fat_sector. rewrite Es.
  destruct (run_read_sector dev l fp last (file_sec dev l dcs t0) k Hi Hv Hf Hr) as [Hrd _].
  erewrite run_bind_Ok by exact Hrd.
  assert (seq 0 16 = seq 0 j0 ++ j0 :: seq (S j0) (15 - j0)) as ->.
  { replace 16%nat with (j0 + S (15 - j0))%nat by lia. rewrite seq_app. done. }
  rewrite run_bind, iter_list_app, entries_miss; [|lia|done|apply Forall_forall; intros j Hj%elem_of_seq; lia].
  cbn [iter_list]. erewrite run_bind_Ok by (by eapply Hhit). done.
Qed.
Lemma spc_pos : 0 < spc.
Proof. pose proof (bo_spc _ (fv_bpb _ _ Hv)). unfold spc, b. lia. Qed.

Lemma sectors_miss q c fp last is_ : dcs !! q = Some c -> fp_ok dev l fp last ->
  Forall (fun i => 0 <= i < spc /\ Z.of_nat q * spc + i < t0) is_ ->
  run (iter_list (fun s si => fat_sector dev b brelse E s c si fp) is_ tt) k (with_fp l fp) = Ok (inl tt, k, with_fp l fp).
Proof.
  intros Hc Hf. pose proof spc_pos as Hp. induction is_ as [|i is_ IH]; intros Hs; [done|]. apply Forall_cons in Hs as [[Hi1 Hi2] Hs]. cbn [iter_list].
  pose proof (sector_miss (Z.of_nat q * spc + i) c fp last) as Hm.
  rewrite Z.div_add_l, Z.div_small, Z.add_0_r, Nat2Z.id in Hm by lia. rewrite Z.add_comm, Z.mod_add, Z.mod_small in Hm by lia.
  erewrite run_bind_Ok by (apply Hm; [lia|done|done]). by apply IH.
Qed.

Lemma cluster_hit c fp last : dcs !! Z.to_nat (t0 / spc) = Some c -> fp_ok dev l fp last ->
  run (iter_list (fun s si => fat_sector dev b brelse E s c si fp) (seqZ 0 spc) tt) k (with_fp l fp) = Ok (inr r, k', l').
Proof.
  intros Hc Hf. pose proof spc_pos as Hp. pose proof (Z.mod_pos_bound t0 spc Hp) as Hm. pose proof (Z.div_mod t0 spc ltac:(lia)) as Hd.
  assert (0 <= t0 / spc) as Hq by (apply Z.div_pos; lia).
  assert (seqZ 0 spc = seqZ 0 (t0 mod spc) ++ t0 mod spc :: seqZ (t0 mod spc + 1) (spc - 1 - t0 mod spc)) as ->.
  { replace spc with (t0 mod spc + (spc - t0 mod spc)) at 1 by lia. rewrite seqZ_app by lia. f_equal.
    rewrite seqZ_cons by lia. rewrite Z.add_0_l. f_equal. f_equal; lia. }
  rewrite iter_list_app, (sectors_miss (Z.to_nat (t0 / spc)) c fp last); [|done|done|].
  - cbn [iter_list]. by erewrite run_bind_Ok by (by eapply sector_hit).
  - apply Forall_forall. intros i Hin%elem_of_seqZ. rewrite Z2Nat.id by done. split; [lia|]. lia.
Qed.

(** The walk from the cluster after [cs1]. *)
Lemma walk_from cs2 : forall cs1 c fp last fuel,
  dcs = cs1 ++ cs2 -> chain dev l c cs2 -> fp_ok dev l fp last -> Z.of_nat (length cs1) * spc <= t0 -> (length cs2 <= fuel)%nat ->
  run (while_fuel fuel (fun '(cno, fp, last, s) =>
    x <- iter_list (fun s si => fat_sector dev b brelse E s cno si fp) (seqZ 0 (SecPerClus b)) s;;
    match x with
    | inr r => Ret (inr (inr r))
    | inl s =>
        let* (cno, fp, last) := fat_next brelse dev b cno fp last in
        if isEOF cno then Ret (inr (inl (s, fp, last)))
        else Ret (inl (cno, fp, last, s))
    end) (c, fp, last, tt)) k (with_fp l fp) = Ok (inr r, k', l').
Proof.
  pose proof spc_pos as Hp. induction cs2 as [|x cs2 IH]; intros cs1 c fp last fuel Hd Hch Hf Ht Hfuel; [done|].
  destruct fuel as [|fuel]; [cbn in Hfuel; lia|]. destruct (chain_head _ _ _ _ Hch) as (? & [= -> <-]).
  assert (dcs !! length cs1 = Some c) as Hj by (rewrite Hd; by apply list_lookup_middle). cbn [while_fuel]. rewrite !run_assoc.
  destruct (decide (t0 < (Z.of_nat (length cs1) + 1) * spc)) as [Hin|Hout].
  - assert (t0 / spc = Z.of_nat (length cs1)) as Eq by (symmetry; apply (Z.div_unique_pos _ _ _ (t0 - Z.of_nat (length cs1) * spc)); lia).
    erewrite run_bind_Ok; [|eapply cluster_hit; [rewrite Eq, Nat2Z.id; exact Hj|exact Hf]]. done.
  - erewrite run_bind_Ok; [|eapply sectors_miss; [exact Hj|exact Hf|]].
    2: { apply Forall_forall. intros i Hin%elem_of_seqZ. fold spc in Hin. lia. }
    cbn [chain] in Hch. destruct Hch as (_ & Hc & Hch).
    destruct (run_fat_next dev l fp last c k Hi Hv Hf (cluster_entry _ _ (fv_bpb _ _ Hv) Hc)) as [Hnext Hf']. rewrite run_assoc.
    erewrite run_bind_Ok by exact Hnext. destruct cs2 as [|y cs2].
    { exfalso. rewrite Hd, length_app in Ht0. cbn [length] in Ht0. lia. }
    destruct Hch as [He Hch]. rewrite He. cbn [pbind]. apply (IH (cs1 ++ [c])); [by rewrite <- app_assoc|done|done| |cbn in Hfuel |- *; lia].
    rewrite length_app. cbn [length]. lia.
Qed.

Lemma walk_finds c : chain dev l c dcs -> run (fat_walk brelse dev b (fat_sector dev b brelse E) c None 0 tt) k l = Ok (inr r, k', l').
Proof.
  intros Hch. pose proof (chain_length _ _ _ _ Hv Hch) as Hlen. unfold fat_walk.
  apply (walk_from dcs [] c None 0); [done|done|done|cbn; lia|]. unfold chain_fuel, b. lia.
Qed.
End Walk.

Section Entry.
Context (dev : Z).
Implicit Types (l : lstore) (k : kmem) (dcs : list Z).

(** Entry [j] of sector [t] of a directory, and the first one of a file. *)
Definition entry_at l dcs (t : Z) (j : nat) : list Z := de_bytes j (lget l (dev, file_sec dev l dcs t)).

Record first_entry l dcs (inum t0 : Z) (j0 : nat) : Prop := {
  fe_range : 0 <= t0 < SecPerClus (bpb_of dev l) * Z.of_nat (length dcs);
  fe_slot : (j0 < 16)%nat;
  fe_match : DIR_cluster (entry_at l dcs t0 j0) = inum;
  fe_first : forall t j, 0 <= t <= t0 -> (j < 16)%nat -> t < t0 \/ (j < j0)%nat -> DIR_cluster (entry_at l dcs t j) <> inum;
}.

Lemma length_de_bytes j d : length d = 512%nat -> (j < 16)%nat -> length (de_bytes j d) = 32%nat.
Proof. intros Hd Hj. unfold de_bytes. rewrite length_slice; lia. Qed.

Lemma length_update_entry i e : length e = 32%nat -> length (update_entry i e) = 32%nat.
Proof.
  intros He. unfold update_entry. cbv zeta.
  assert (length (put_u16 14 (i_minor i) (put_u16 16 (i_major i) (put_u8 11 (fat_mapType (i_type i)) e))) = 32%nat) as E
    by (rewrite !length_put_u16; rewrite ?length_put_u16; rewrite ?length_put_u8; lia).
  destruct (_ && _); [rewrite length_put_u8; rewrite ?length_put_u32|rewrite length_put_u32]; lia.
Qed.

Definition with_entry l dcs (t0 : Z) (j0 : nat) (e : list Z) : lstore :=
  let sp := (dev, file_sec dev l dcs t0) in wput sp (put_de j0 e (lget l sp)) l.

(** [fat_iupdate] stores the inode in the entry of the file. *)
Lemma run_fat_iupdate l dcs t0 j0 ip i k :
  idle dev l -> fat_vol dev l -> unlogged dev l -> cached k ip i -> i_dev i = dev -> chain dev l (dircluster i) dcs -> first_entry l dcs (i_inum i) t0 j0 ->
  run (fat_iupdate ip) k l = Ok (tt, k, with_entry l dcs t0 j0 (update_entry i (entry_at l dcs t0 j0))).
Proof.
  intros Hi Hv Hu Hk Hd Hch [Hr Hs Hm Hf]. pose proof (chain_ok _ _ _ _ Hch) as Hok. pose proof (bpb_order _ (fv_bpb _ _ Hv)) as Ho.
  unfold fat_iupdate. run_step run_get_inode. rewrite Hd. run_step run_readbpb.
  rewrite (run_bind_Ok _ _ _ _ (inr tt) k (with_entry l dcs t0 j0 (update_entry i (entry_at l dcs t0 j0)))); [done|].
  apply (walk_finds dev l k _ tt k _ dcs t0 j0); try done.
  - intros t c fp j Ht _ Hj Hlt. unfold at_sec. run_step run_bdata. by rewrite (proj2 (Z.eqb_neq _ _)) by (by apply Hf).
  - intros c fp last Hfp _. unfold at_sec. set (sp := (dev, file_sec dev l dcs t0)).
    pose proof (file_sec_range _ _ _ _ Hv Hok Hr) as Hrange. fold sp in Hrange.
    assert (length (lget l sp) = 512%nat) as Hlen by (apply (fv_len _ _ Hv); lia).
    run_step run_bdata. rewrite (proj2 (Z.eqb_eq _ _)) by exact Hm. run_step run_bstore.
    2: { unfold put_de. rewrite length_splice; [exact Hlen|]. rewrite length_update_entry by (by apply length_de_bytes). rewrite Hlen. lia. }
    pose proof (data_free _ _ _ _ _ Hi Hv Hfp (proj1 Hrange)) as Hfree.
    run_step run_bwrite_now; [|destruct fp; apply Hu]. run_step run_brelse; [|symmetry; apply lget_wput].
    unfold with_entry. fold sp. unfold entry_at. fold sp.
    set (d := put_de _ _ _). destruct fp as [x|]; [|done]. destruct Hfp as [-> Hsec]. cbn [opt_rel with_fp].
    change (wput sp d (hold (dev, last) (lget l (dev, last)) l)) with (hold (dev, last) (lget l (dev, last)) (wput sp d l)).
    run_step run_brelse; [done| |by apply (fat_free dev l)].
    rewrite lget_wput_ne; [done|]. pose proof (fat_sec_range _ _ _ Hv Hsec). unfold sp. other_sector.
Qed.
(** ** The entry changed *)

Section WithEntry.
Context (l : lstore) (dcs : list Z) (t0 : Z) (j0 : nat) (e : list Z).
Hypothesis Hv : fat_vol dev l.
Hypothesis Hok : Forall (cluster_ok (bpb_of dev l)) dcs.
Hypothesis Hr : 0 <= t0 < SecPerClus (bpb_of dev l) * Z.of_nat (length dcs).
Hypothesis Hj : (j0 < 16)%nat.
Hypothesis He : length e = 32%nat.
Let l' := with_entry l dcs t0 j0 e.

Lemma we_len : length (lget l (dev, file_sec dev l dcs t0)) = 512%nat.
Proof. clear l' He Hj. apply (fv_len _ _ Hv). pose proof (file_sec_range _ _ _ _ Hv Hok Hr). pose proof (bpb_order _ (fv_bpb _ _ Hv)). lia. Qed.

Lemma we_other x : x <> (dev, file_sec dev l dcs t0) -> lget l' x = lget l x.
Proof. intros Hx. by apply lget_wput_ne, not_eq_sym. Qed.

Lemma we_meta s : s < data_start (bpb_of dev l) -> lget l' (dev, s) = lget l (dev, s).
Proof. intros Hs. pose proof (file_sec_range _ _ _ _ Hv Hok Hr). apply we_other. other_sector. Qed.

Lemma we_bpb : bpb_of dev l' = bpb_of dev l.
Proof. unfold bpb_of. rewrite we_meta; [done|]. pose proof (bpb_order _ (fv_bpb _ _ Hv)). lia. Qed.

Lemma we_vol : fat_vol dev l'.
Proof.
  split; rewrite we_bpb; [apply (fv_bpb _ _ Hv)|apply (fv_blk _ _ Hv)|]. intros s Hs. pose proof we_len as Hlen.
  destruct (decide ((dev, s) = (dev, file_sec dev l dcs t0))) as [E|Hne]; [|rewrite we_other by done; by apply (fv_len _ _ Hv)].
  rewrite E. unfold l', with_entry. rewrite lget_wput. unfold put_de. rewrite length_splice; lia.
Qed.

Lemma we_mirror : mirrored dev l -> mirrored dev l'.
Proof.
  intros Hm s i Hs Hi. rewrite we_bpb in *. destruct (copy_range _ _ i (fv_bpb _ _ Hv) Hs Hi) as [Hc _].
  pose proof (fat_sec_range _ _ _ Hv Hs). unfold copy_sec. rewrite !we_meta by lia. by apply Hm.
Qed.

Lemma we_fat x : entry_ok (bpb_of dev l) x -> fat_at dev l' x = fat_at dev l x.
Proof.
  intros Hx. unfold fat_at. rewrite we_bpb, we_meta; [done|]. pose proof (entry_sec _ _ Hx) as Hs. pose proof (bpb_order _ (fv_bpb _ _ Hv)).
  unfold fat_sec in Hs. lia.
Qed.

Lemma we_entry : entry_at l' dcs t0 j0 = e.
Proof.
  unfold entry_at, file_sec. rewrite we_bpb. fold (file_sec dev l dcs t0). unfold l', with_entry. rewrite lget_wput.
  pose proof we_len as Hlen. unfold de_bytes, put_de. rewrite <- He. apply slice_splice_same. lia.
Qed.

(** The other entries of the directory, those of the same sector included. *)
Lemma we_entries t j : NoDup dcs -> 0 <= t < SecPerClus (bpb_of dev l) * Z.of_nat (length dcs) -> (j < 16)%nat -> (t, j) <> (t0, j0) ->
  entry_at l' dcs t j = entry_at l dcs t j.
Proof.
  intros Hnd Ht Hjt Hne. unfold entry_at, file_sec. rewrite we_bpb. fold (file_sec dev l dcs t). pose proof we_len as Hlen.
  destruct (decide (t = t0)) as [->|Hd].
  - unfold l', with_entry. rewrite lget_wput. unfold de_bytes, put_de. apply slice_splice_disjoint; [lia|].
    assert (j <> j0) by congruence. lia.
  - f_equal. apply we_other. intros E. apply (f_equal snd) in E. cbn [snd] in E. apply Hd.
    by apply (file_sec_inj dev l dcs) in E; [|apply (fv_bpb _ _ Hv)|..].
Qed.

(** The bytes of a file with other clusters. *)
Lemma we_byte cs y : Forall (cluster_ok (bpb_of dev l)) cs -> (forall x, x ∈ dcs -> x ∉ cs) -> 0 <= y < 512 * sectors dev l cs ->
  fat_byte dev l' cs y = fat_byte dev l cs y.
Proof.
  intros Hcs Hdis Hy. unfold fat_byte, file_sec. rewrite we_bpb. fold (file_sec dev l cs (y / 512)). f_equal. apply we_other.
  intros E. apply (f_equal snd) in E. cbn [snd] in E.
  destruct (sector_split _ _ _ _ (fv_bpb _ _ Hv) Hr) as (q & c & Hq & _ & Hm & F). rewrite F in E. symmetry in E. revert E.
  apply data_sec_ne; try done; [by eapply Hdis, list_elem_of_lookup_2|]. split; [apply Z.div_pos|apply Z.div_lt_upper_bound]; lia.
Qed.
End WithEntry.

(** ** Writing *)

Section ExtendedDir.
Context (l : lstore) (cs : list Z) (off n : Z) (src : list Z) (c0 : Z) (cs' : list Z) (le : lstore) (dcs : list Z) (dc inum t0 : Z) (j0 : nat).
Hypothesis Hv : fat_vol dev l.
Hypothesis Hx : extended dev l cs off n src c0 cs' le.
Hypothesis Hd : chain dev l dc dcs.
Hypothesis Hdis : forall x, x ∈ dcs -> x ∉ cs.
Hypothesis Hfe : first_entry l dcs inum t0 j0.

(** A directory has none of the clusters of the file, nor the new one. *)
Lemma xd_disjoint x : x ∈ dcs -> x ∉ cs'.
Proof.
  intros Hin. destruct (ex_grow _ _ _ _ _ _ _ _ _ Hx) as [->|(c & Hz & _ & ->)]; [by apply Hdis|].
  rewrite elem_of_app, list_elem_of_singleton. intros [Hc| ->]; [by apply (Hdis x)|].
  by eapply chain_nonzero in Hin; [|apply (fv_bpb _ _ Hv)|exact Hd].
Qed.

Lemma xd_chain : chain dev le dc dcs.
Proof.
  apply (chain_same dev l); [apply (fv_bpb _ _ Hv)|apply (ex_bpb _ _ _ _ _ _ _ _ _ Hx)| |done]. intros x Hin.
  apply (ex_fat _ _ _ _ _ _ _ _ _ Hx); [|by apply xd_disjoint]. apply cluster_entry; [apply (fv_bpb _ _ Hv)|].
  by eapply (proj1 (Forall_forall _ _) (chain_ok _ _ _ _ Hd)).
Qed.

Lemma xd_sec t : file_sec dev le dcs t = file_sec dev l dcs t.
Proof. unfold file_sec. by rewrite (ex_bpb _ _ _ _ _ _ _ _ _ Hx). Qed.

Lemma xd_entry t j : 0 <= t < SecPerClus (bpb_of dev l) * Z.of_nat (length dcs) -> entry_at le dcs t j = entry_at l dcs t j.
Proof.
  intros Ht. unfold entry_at. rewrite xd_sec. f_equal.
  destruct (sector_split _ _ _ _ (fv_bpb _ _ Hv) Ht) as (q & c & Hq & _ & Hm & F). rewrite F.
  apply (ex_data _ _ _ _ _ _ _ _ _ Hx); [|by eapply xd_disjoint, list_elem_of_lookup_2|done].
  by eapply Forall_lookup_1 in Hq; [|apply (chain_ok _ _ _ _ Hd)].
Qed.

Lemma xd_first : first_entry le dcs inum t0 j0.
Proof.
  destruct Hfe as [Hr Hs Hm Hf]. split; rewrite ?(ex_bpb _ _ _ _ _ _ _ _ _ Hx); try done.
  - by rewrite xd_entry.
  - intros t j Ht Hj Hlt. rewrite xd_entry by lia. by apply Hf.
Qed.
End ExtendedDir.
(** A file grown to [size]. *)
Lemma file_grown l l' i i' cs cs' off n src le :
  fat_vol dev l -> fat_file dev l i cs -> extended dev l cs off n src (i_inum i) cs' le -> bpb_of dev l' = bpb_of dev l -> chain dev l' (i_inum i) cs' ->
  i_dev i' = i_dev i -> i_inum i' = i_inum i -> i_size i' = Z.max (i_size i) (off + n) -> csize dev l * Z.of_nat (length cs') < 2 ^ 32 -> fat_file dev l' i' cs'.
Proof.
  intros Hv [Hd Hc Hsz Hcap] Hx Hb Hc' E1 E2 E3 Hlt. split; rewrite ?E1, ?E2, ?Hb; try done.
  rewrite E3. pose proof (ex_cap _ _ _ _ _ _ _ _ _ Hx) as Hend. unfold csize in *.
  assert (length cs <= length cs')%nat as Hle by (destruct (ex_grow _ _ _ _ _ _ _ _ _ Hx) as [->|(c & _ & _ & ->)]; rewrite ?length_app; lia).
  pose proof (bo_spc _ (fv_bpb _ _ Hv)). assert (512 * SecPerClus (bpb_of dev l) * Z.of_nat (length cs) <= 512 * SecPerClus (bpb_of dev l) * Z.of_nat (length cs')) by nia. lia.
Qed.

Lemma room_extended l cs off n src c0 k : fat_vol dev l -> unlogged dev l -> mirrored dev l -> ls_held l = ∅ -> (size (ls_logged l) <= 6)%nat ->
  chain dev l c0 cs -> csize dev l * Z.of_nat (length cs) < 2 ^ 32 -> 0 <= off <= csize dev l * Z.of_nat (length cs) -> 0 <= n <= Z.of_nat (length src) -> room dev l cs off n ->
  exists fp l1 l' cs', run (while_fuel (chain_fuel (bpb_of dev l)) (writei_cluster dev (bpb_of dev l) n (csize dev l)) (c0, None, 0, 0, (0, off, src))) k l = Ok ((off + n, fp), k, l1) /\
    run (opt_rel rel_fat fp) k l1 = Ok (tt, k, l') /\ extended dev l cs off n src c0 cs' l' /\ csize dev l * Z.of_nat (length cs') < 2 ^ 32 /\ off + n < 2 ^ 32.
Proof.
  intros Hv Hu Hm Hh Hr Hc Hcap Hoff Hn Hroom. pose proof (bo_spc _ (fv_bpb _ _ Hv)) as Hspc.
  destruct (decide (off + n <= csize dev l * Z.of_nat (length cs) /\ off < csize dev l * Z.of_nat (length cs))) as [[H1 H2]|Hno].
  - destruct (transfer_within dev l cs off n src c0 k Hv Hu Hm Hh Hr Hc Hcap Hoff Hn H1 H2) as (fp & l1 & l' & R1 & R2 & Hx).
    exists fp, l1, l', cs. split_and!; try done. lia.
  - destruct Hroom as [[H1 H2]|(c & Hh1 & Hh2 & Hok & Hend)]; [by destruct Hno|].
    destruct (transfer_append dev l cs off n src c0 k Hv Hu Hm Hh Hr Hc Hcap Hoff Hn c Hno Hh1 Hh2 Hok Hend) as (fp & l1 & l' & R1 & R2 & Hx).
    exists fp, l1, l', (cs ++ [c]). split_and!; try done; [|lia]. rewrite length_app. cbn [length]. lia.
Qed.

(** [src] has been written at [off] of the file: the inode, the clusters of the
    file, the entry in slot [j0] of sector [t0] of its directory, and what has
    not changed. *)
Definition fat_written l cs dcs t0 j0 i off n src i' l' cs' : Prop :=
  i_size i' = Z.max (i_size i) (off + n) /\ fat_file dev l' i' cs' /\ fat_vol dev l' /\ mirrored dev l' /\
  (forall y, 0 <= y < i_size i' ->
     fat_byte dev l' cs' y = if decide (off <= y < off + n) then nth (Z.to_nat (y - off)) src 0 else fat_byte dev l cs y) /\
  entry_at l' dcs t0 j0 = (if i_size i <? off + n then update_entry i' else id) (entry_at l dcs t0 j0) /\
  (forall t j, 0 <= t < SecPerClus (bpb_of dev l) * Z.of_nat (length dcs) -> (j < 16)%nat -> (t, j) <> (t0, j0) ->
     entry_at l' dcs t j = entry_at l dcs t j) /\
  (forall x, entry_ok (bpb_of dev l) x -> x ∉ cs' -> fat_at dev l' x = fat_at dev l x) /\
  (forall x q, cluster_ok (bpb_of dev l) x -> x ∉ cs' -> 0 <= q < SecPerClus (bpb_of dev l) ->
     (dev, first_sec (bpb_of dev l) x + q) <> (dev, file_sec dev l dcs t0) ->
     lget l' (dev, first_sec (bpb_of dev l) x + q) = lget l (dev, first_sec (bpb_of dev l) x + q)).

Section Written.
Context (l : lstore) (cs dcs : list Z) (i : inode) (off n : Z) (src : list Z) (t0 : Z) (j0 : nat) (cs' : list Z) (le : lstore).
Hypothesis Hv : fat_vol dev l.
Hypothesis Hf : fat_file dev l i cs.
Hypothesis Hd : chain dev l (dircluster i) dcs.
Hypothesis Hdis : forall x, x ∈ dcs -> x ∉ cs.
Hypothesis Hfe : first_entry l dcs (i_inum i) t0 j0.
Hypothesis Hx : extended dev l cs off n src (i_inum i) cs' le.
Hypothesis Hcap : csize dev l * Z.of_nat (length cs') < 2 ^ 32.
Hypothesis Ho : 0 <= off <= i_size i.
Hypothesis Hn : 0 <= n.

Lemma written_size_cap : Z.max (i_size i) (off + n) <= csize dev l * Z.of_nat (length cs').
Proof.
  pose proof (ex_cap _ _ _ _ _ _ _ _ _ Hx). pose proof (ff_size _ _ _ _ Hf). pose proof (bo_spc _ (fv_bpb _ _ Hv)).
  assert (length cs <= length cs')%nat by (destruct (ex_grow _ _ _ _ _ _ _ _ _ Hx) as [->|(c & _ & _ & ->)]; rewrite ?length_app; lia).
  unfold csize in *. nia.
Qed.

(** The file kept its size. *)
Lemma written_kept : off + n <= i_size i -> fat_written l cs dcs t0 j0 i off n src i le cs'.
Proof.
  intros Hsame. pose proof (ff_size _ _ _ _ Hf) as Hsz. pose proof written_size_cap as Hend. rewrite Z.max_l in Hend by lia. unfold fat_written.
  rewrite (proj2 (Z.ltb_ge (i_size i) (off + n))) by lia. split_and!.
  - lia.
  - eapply (file_grown l le i i cs cs' off n src le); try done; [apply (ex_bpb _ _ _ _ _ _ _ _ _ Hx)|apply (ex_chain _ _ _ _ _ _ _ _ _ Hx)|lia].
  - apply (ex_vol _ _ _ _ _ _ _ _ _ Hx).
  - apply (ex_mirror _ _ _ _ _ _ _ _ _ Hx).
  - intros y Hy. apply (ex_byte _ _ _ _ _ _ _ _ _ Hx). unfold csize in *. lia.
  - by apply (xd_entry l cs off n src (i_inum i) cs' le dcs (dircluster i)), (fe_range _ _ _ _ _ Hfe).
  - intros t j Ht _ _. by apply (xd_entry l cs off n src (i_inum i) cs' le dcs (dircluster i)).
  - apply (ex_fat _ _ _ _ _ _ _ _ _ Hx).
  - intros x q Hin Hnot Hq _. by apply (ex_data _ _ _ _ _ _ _ _ _ Hx).
Qed.

(** The file has grown, and its entry has been updated. *)
Lemma written_grown : i_size i < off + n ->
  let i' := set_i_size (off + n) i in
  fat_written l cs dcs t0 j0 i off n src i' (with_entry le dcs t0 j0 (update_entry i' (entry_at le dcs t0 j0))) cs'.
Proof.
  intros Hgrow i'. pose proof written_size_cap as Hend. pose proof (ff_size _ _ _ _ Hf) as Hsz.
  pose proof (ex_vol _ _ _ _ _ _ _ _ _ Hx) as Hve. pose proof (ex_bpb _ _ _ _ _ _ _ _ _ Hx) as Hbe.
  pose proof (chain_ok _ _ _ _ (ex_chain _ _ _ _ _ _ _ _ _ Hx)) as Hoke.
  pose proof (chain_ok _ _ _ _ (xd_chain l cs off n src (i_inum i) cs' le dcs (dircluster i) Hv Hx Hd Hdis)) as Hokd.
  pose proof (xd_disjoint l cs off n src (i_inum i) cs' le dcs (dircluster i) Hv Hx Hd Hdis) as Hdis'.
  pose proof (fe_range _ _ _ _ _ Hfe) as Hrange. pose proof (fe_slot _ _ _ _ _ Hfe) as Hslot.
  assert (0 <= t0 < SecPerClus (bpb_of dev le) * Z.of_nat (length dcs)) as Hrange' by (by rewrite Hbe).
  set (e := update_entry i' (entry_at le dcs t0 j0)).
  assert (length e = 32%nat) as He by (apply length_update_entry, length_de_bytes; [by eapply we_len|done]).
  assert (bpb_of dev (with_entry le dcs t0 j0 e) = bpb_of dev l) as Hb' by (by rewrite we_bpb).
  assert (forall x, x ∈ cs' -> fat_at dev (with_entry le dcs t0 j0 e) x = fat_at dev le x) as Hfat'.
  { intros x Hin. apply we_fat; try done. apply cluster_entry; [by rewrite Hbe; apply (fv_bpb _ _ Hv)|]. by eapply (proj1 (Forall_forall _ _) Hoke). }
  assert (i_size i' = Z.max (i_size i) (off + n)) as Hsz' by (cbn; rewrite u32_small; lia).
  unfold fat_written. rewrite (proj2 (Z.ltb_lt (i_size i) (off + n)) Hgrow). split_and!; try done.
  - eapply (file_grown l _ i i' cs cs' off n src le); try done. apply (chain_same dev le); [by apply (fv_bpb _ _ Hve)|by rewrite Hb', Hbe|done|apply (ex_chain _ _ _ _ _ _ _ _ _ Hx)].
  - by apply we_vol.
  - apply we_mirror; try done. apply (ex_mirror _ _ _ _ _ _ _ _ _ Hx).
  - intros y Hy. unfold csize in Hend, Hsz. rewrite we_byte; try done; [apply (ex_byte _ _ _ _ _ _ _ _ _ Hx); unfold csize; lia|].
    unfold sectors. rewrite Hbe. lia.
  - rewrite we_entry by done. unfold e. by rewrite (xd_entry l cs off n src (i_inum i) cs' le dcs (dircluster i)) by done.
  - intros t j Ht Hjt Hne. rewrite we_entries; try done; [by apply (xd_entry l cs off n src (i_inum i) cs' le dcs (dircluster i))| |by rewrite Hbe].
    by eapply chain_nodup.
  - intros x Hin Hnot. rewrite we_fat; try done; [|by rewrite Hbe]. by apply (ex_fat _ _ _ _ _ _ _ _ _ Hx).
  - intros x q Hin Hnot Hq Hne. rewrite we_other; [by apply (ex_data _ _ _ _ _ _ _ _ _ Hx)|].
    by rewrite (xd_sec l cs off n src (i_inum i) cs' le dcs).
Qed.
End Written.

End Entry.
