(* ===== verification/FatDir.v ===== *)
(** * Names, directories and paths of the FAT32 file system: [fat_inode.c],
    87-141, 866-1104, 1165-1475 and 1496-1598 *)

From stdpp Require Import base gmap strings numbers list.
From S2P Require Import Prelude Prog CString Layout Log State SfsInode SfsDir FatBase FatInode.

Definition FAT_DIRSIZ : Z := 260.

(** What the code reads outside its own data: the CMOS clock's registers, and
    the stack bytes that follow [dbuf.Name], which [strncmp] and [strlen] run
    into because that name has no terminator. *)
Class Machine := {
  cmos : Z -> Z;
  stack_junk : list Z;
}.

(** ** Short names *)

Definition chr_space : Z := 0x20.
Definition chr_dot : Z := 46.
Definition chr_tilde : Z := 126.
Definition chr_under : Z := 95.
Definition chr_0 : Z := 48.
Definition chr_1 : Z := 49.
Definition chr_9 : Z := 57.

(** [copyshortname]: [n] iterations are left, the next is number [i]; [src]
    advances only past bytes that are not blanks. *)
Fixpoint copyshortname_loop (n : nat) (i : Z) (d : nat) (src dst : list Z) : outcome (nat * list Z) :=
  match n with
  | O => Ok (d, dst)
  | S n =>
      match src with
      | [] => oob
      | c :: src' =>
          if c =? chr_space then copyshortname_loop n (i + 1) d src dst
          else
            let? dst := wr dst d c in
            if i =? 7 then
              let? dst := wr dst (S d) chr_dot in
              copyshortname_loop n (i + 1) (S (S d)) src' dst
            else copyshortname_loop n (i + 1) (S d) src' dst
      end
  end.
Definition copyshortname (dst src : list Z) : outcome (list Z) :=
  let? (d, dst) := copyshortname_loop 11 0 0 src dst in wr dst d 0.

(** [char] comparisons are signed. *)
Definition fat_upper (c : Z) : Z := if (97 <=? s8 c) && (s8 c <=? 122) then c - 32 else c.

(** The characters of [set] in [fat_isvalid] *)
Definition fat_invalid_set : list Z := [34; 42; 43; 44; 46; 47; 58; 59; 60; 61; 62; 63; 91; 92; 93; 124].
Definition fat_isvalid (c : Z) : bool :=
  if (s8 c <=? 32) || (c =? 127) then false
  else negb (existsb (fun p => c =? p) fat_invalid_set).

Definition short_char (c : Z) : Z := if fat_isvalid c then fat_upper c else chr_under.

(** The last dot of a string, or [FAT_DIRSIZ]. *)
Definition dot_pos (s : list Z) : Z :=
  foldl (fun p i => if nth i s 0 =? chr_dot then Z.of_nat i else p) FAT_DIRSIZ (seq 0 (length s)).

(** [for (i = 0, namelen = 0; namelen < 6 && i < dotpos; ++i)] with [s[i]] read
    at every step. *)
Fixpoint short_base (n : nat) (i : nat) (dotpos : Z) (s buf : list Z) : outcome (nat * list Z) :=
  match n with
  | O => Ok (i, buf)
  | S n =>
      if negb (Z.of_nat i <? dotpos) then Ok (i, buf)
      else
        let? c := rd s i in
        let? buf := wr buf i (short_char c) in
        short_base n (S i) dotpos s buf
  end.

(** [for (i = dotpos, extlen = 0; extlen < 3 && i < len; ++i)]; [extlen] stays
    0. *)
Fixpoint short_ext (cs : list Z) (namelen : nat) (buf : list Z) : outcome (list Z) :=
  match cs with
  | [] => Ok buf
  | c :: cs => let? buf := wr buf namelen (short_char c) in short_ext cs (S namelen) buf
  end.

(** [buf] is all of [dbuf], whose first 11 bytes are [Name]. *)
Definition fat_getshortname (s buf : list Z) : outcome (list Z) :=
  let? buf := stosb 11 0 chr_space buf in
  let? len := strlen s in
  let dotpos := dot_pos (cstr s) in
  let? (namelen, buf) := short_base 6 0 dotpos s buf in
  let? buf := wr buf namelen chr_tilde in
  let? buf := wr buf (S namelen) chr_1 in
  if dotpos <? len then short_ext (drop (Z.to_nat dotpos) (cstr s)) (S (S namelen)) buf
  else Ok buf.

(** [fat_updatename], [i] being the current position. *)
Fixpoint updatename_loop (i : nat) (name : list Z) : outcome (list Z) :=
  let? c := rd name i in
  if c =? chr_tilde then
    match i with
    | O => oob
    | S i' => let? name := wr name i chr_1 in wr name i' chr_tilde
    end
  else
    let? name := wr name i (c + 1) in
    if chr_9 <? u8 (c + 1) then
      let? name := wr name i chr_0 in
      match i with
      | O => oob
      | S i' => updatename_loop i' name
      end
    else Ok name.
Definition fat_updatename (name : list Z) : outcome (list Z) := updatename_loop 7 name.

Definition fat_namecmp {E K} (s t : list Z) : prog E K Z := lift (strncmp s t 260).

(** ** The clock *)

Definition bcd (data : Z) : Z := u8 (Z.shiftr data 4 * 10 + Z.land data 0xf).

Section Dir.
Context `{DevSw} `{Machine}.

Definition fat_getBIOSsecond : Z := bcd (u8 (cmos 0x00)).
Definition fat_getBIOSminute : Z := bcd (u8 (cmos 0x02)).
Definition fat_getBIOShour : Z :=
  let data := u8 (cmos 0x04) in (Z.shiftr data 4 * 10 + Z.land data 0xf + 8) mod 24.
Definition fat_getBIOSday : Z := bcd (u8 (cmos 0x07)).
Definition fat_getBIOSmonth : Z := bcd (u8 (cmos 0x08)).
Definition fat_getBIOSyear : Z := bcd (u8 (cmos 0x09)).

(** ** Lookup *)

(** The long name being assembled: buffer, next position, checksum, order. *)
Record lname := mklname { ln_buf : list Z; ln_nbp : Z; ln_chksum : Z; ln_ord : Z }.
Definition lname0 : lname := mklname (replicate 261 0) 0 0 0.

(** The thirteen characters of a long-name entry in order: [Name1], [Name2],
    [Name3], each cut to a [char]. *)
Definition LDIR_chars (e : list Z) : list Z :=
  map (fun o => u8 (get_u16 o e)) [1; 3; 5; 7; 9; 14; 16; 18; 20; 22; 24; 28; 30]%nat.

(** case [FAT_TYPE_LNAME] *)
Definition lname_add (e : list Z) (n : lname) : fsprog lname :=
  let last := negb (Z.land (LDIR_Ord e) FAT_TYPE_LLNMASK =? 0) in
  n <- (if last then Ret (mklname (ln_buf n) (FAT_DIRSIZ - 1) (LDIR_ChkSum e) (LDIR_Ord e - FAT_TYPE_LLNMASK))
        else if negb (ln_chksum n =? LDIR_ChkSum e) then panic "dirlookup long filename wrong"
        else if negb (ln_ord n - 1 =? LDIR_Ord e) then panic "dirlookup long filename wrong"
        else Ret (mklname (ln_buf n) (ln_nbp n) (ln_chksum n) (ln_ord n - 1)));;
  if ln_nbp n - 13 <? 0 then undef "write before namebuf"
  else Ret (mklname (splice (Z.to_nat (ln_nbp n - 13)) (LDIR_chars e) (ln_buf n))
              (ln_nbp n - 13) (ln_chksum n) (ln_ord n)).

(** [!fat_namecmp(name, namebuf + nbp) || !strncmp(name, de, 11) ||
    !strncmp(name, de, strlen(name))]; [de] is the rest of the sector. *)
Definition fat_name_matches (name : list Z) (n : lname) (de : list Z) : fsprog bool :=
  c1 <- fat_namecmp name (drop (Z.to_nat (ln_nbp n)) (ln_buf n));;
  if c1 =? 0 then Ret true
  else
    c2 <- lift (strncmp name de 11);;
    if c2 =? 0 then Ret true
    else
      len <- lift (strlen name);;
      c3 <- lift (strncmp name de (Z.to_nat len));;
      Ret (c3 =? 0).

(** Look for a directory entry in a directory.  Caller must have already
    locked dp. *)
Definition fat_dirlookup (dp : nat) (name : list Z) : fsprog (option nat) :=
  fdp <- get_inode dp;;
  if negb (i_type fdp =? T_DIR) then panic "dirlookup not DIR"
  else
    root <- (if i_inum fdp =? 2 then c <- lift (strncmp name str_dotdot 2);; Ret (c =? 0) else Ret false);;
    if root : bool then Ret (Some dp)
    else
      bpb <- fat_readbpb (i_dev fdp);;
      r <- fat_walk brelse (i_dev fdp) bpb
        (fat_sector (i_dev fdp) bpb brelse (fun n sp cno si j fp =>
          d <- bdata sp;;
          let e := de_bytes j d in
          let ty := fat_getDIRType e in
          if (ty =? FAT_TYPE_VOLLBL) || (ty =? FAT_TYPE_EMPTY) then Ret (inl n)
          else if ty =? FAT_TYPE_ERROR then panic "dirlookup wrong DIR entry"
          else if ty =? FAT_TYPE_LNAME then n <- lname_add e n;; Ret (inl n)
          else
            m <- fat_name_matches name n (drop (32 * j) d);;
            if negb m then Ret (inl n)
            else
              (* Matches *)
              inum <- (if negb (DIR_cluster e =? 0) then Ret (DIR_cluster e)
                       else
                         c <- lift (strncmp str_dotdot e 2);;
                         if c =? 0 then Ret 2                                  (* Root file *)
                         else                                                  (* Empty file *)
                           inum <- fat_calloc (i_dev fdp);;
                           bstore sp (put_de j (put_u8 13 0x5A (put_u32 28 1
                             (put_u16 26 inum (put_u16 20 (Z.shiftr inum 16) e)))) d);;;
                           bwrite sp;;;
                           Ret inum);;
              opt_rel brelse fp;;;
              brelse sp;;;
              ip <- fat_iget (i_dev fdp) inum 0 (i_inum fdp);;
              Ret (inr ip)))
        (i_inum fdp) None 0 lname0;;
      match r with
      | inr ip => Ret (Some ip)
      | inl (_, fp, _) => deref fp brelse;;; Ret None
      end.

(** The short name under which a directory lists a first cluster. *)
Definition fat_inumtoname (dp : nat) (inum : Z) (name : list Z) : fsprog (Z * list Z) :=
  fdp <- get_inode dp;;
  bpb <- fat_readbpb (i_dev fdp);;
  r <- fat_walk brelse (i_dev fdp) bpb
    (fat_sector (i_dev fdp) bpb brelse (fun (_ : unit) sp cno si j fp =>
      d <- bdata sp;;
      let e := de_bytes j d in
      if DIR_cluster e =? inum then
        nm <- lift (copyshortname name e);;
        opt_rel brelse fp;;;
        brelse sp;;;
        Ret (inr nm)
      else Ret (inl tt)))
    (i_inum fdp) None 0 tt;;
  match r with
  | inr nm => Ret (0, nm)
  | inl (_, fp, _) => deref fp brelse;;; Ret (-1, name)
  end.

(** ** Adding an entry *)

(** The long-name entries of a name, first to last on disk. *)
Definition ldir_bytes (nb : list Z) (dbnum chksum : Z) (i : nat) : list Z :=
  let at_ := Z.to_nat (13 * (dbnum - Z.of_nat i - 1)) in
  let ord := if (i =? 0)%nat then Z.lor (dbnum - Z.of_nat i) FAT_TYPE_LLNMASK else dbnum - Z.of_nat i in
  le_enc 1 ord ++ concat (map (le_enc 2) (slice at_ 5 nb)) ++ [FAT_TYPE_LNAME; 0; chksum]
  ++ concat (map (le_enc 2) (slice (at_ + 5) 6 nb)) ++ le_enc 2 0
  ++ concat (map (le_enc 2) (slice (at_ + 11) 2 nb)).

(** [namebuf]: the name as 16-bit characters, NUL and padding. *)
Definition long_namebuf (name : list Z) : outcome (list Z) :=
  let s := cstr name in
  if (length s <=? 260)%nat
  then Ok (take 261 (map (fun c => u16 (s8 c)) s ++ [0] ++ replicate (260 - length s - 1) 0xFFFF ++ [0]))
  else oob.

(** [while ((tip = fat_dirlookup(dp, dbuf.Name, 0)) != 0) { fat_iput(tip);
    fat_updatename(dbuf.Name); }]; a FAT directory has at most 65536 entries. *)
Definition unique_shortname (dp : nat) (dbuf : list Z) : fsprog (list Z) :=
  while_fuel (Z.to_nat 65537) (fun dbuf =>
    x <- fat_dirlookup dp (dbuf ++ drop 32 stack_junk);;
    match x with
    | Some tip =>
        fat_iput tip;;;
        dbuf <- lift (fat_updatename dbuf);;
        Ret (inl dbuf)
    | None => Ret (inr dbuf)
    end) dbuf.

(** The short entry. *)
Definition dir_bytes (name11 : list Z) (fip : inode) (tenth crttime crtdate : Z) : list Z :=
  let clus := if i_inum fip =? 2 then 0 else i_inum fip in
  take 11 name11 ++ [u8 (i_type fip); 0; u8 tenth] ++ le_enc 2 crttime ++ le_enc 2 crtdate ++ le_enc 2 0
  ++ le_enc 2 (Z.shiftr clus 16) ++ le_enc 2 crttime ++ le_enc 2 crtdate
  ++ le_enc 2 (Z.land clus 0xFFFF) ++ le_enc 4 (i_size fip).

Definition crt_time : Z :=
  u16 (Z.lor (Z.lor (Z.shiftl fat_getBIOShour 11) (Z.shiftl fat_getBIOSminute 5)) (fat_getBIOSsecond / 2)).
Definition crt_date : Z :=
  let d := u16 (Z.lor (Z.lor (Z.shiftl (fat_getBIOSyear + 20) 9) (Z.shiftl fat_getBIOSmonth 5))
                  fat_getBIOSday) in
  if Z.shiftr crt_time 11 <? 8 then u16 (d + 1) else d.

Definition grow_dir (dp : nat) : fsprog unit := upd_inode dp (fun i => set_i_size (i_size i + 32) i).

(** Looking for [dbnum + 1] free entries: whether the previous entry was free,
    how many were, and where the run starts. *)
Definition run_state : Type := bool * Z * (Z * Z * nat).

Definition find_slot_entry (dp : nat) (dbnum : Z) (s : run_state) (sp : bufkey) (cno si : Z) (j : nat)
    (fp : option bufkey) : fsprog (run_state + (Z * Z * nat)) :=
  let '(last, cnt, at0) := s in
  d <- bdata sp;;
  if fat_getDIRType (de_bytes j d) =? FAT_TYPE_EMPTY then
    if dbnum =? 0 then                                        (* Only short name *)
      bwrite sp;;;
      brelse sp;;;
      opt_rel rel_fat fp;;;
      Ret (inr (cno, si, j))
    else if last : bool then
      if cnt =? dbnum then                                    (* Found a sequence *)
        bwrite sp;;;
        brelse sp;;;
        opt_rel rel_fat fp;;;
        grow_dir dp;;;
        Ret (inr at0)
      else Ret (inl (true, cnt + 1, at0))
    else
      grow_dir dp;;;
      Ret (inl (true, 1, (cno, si, j)))
  else Ret (inl (false, cnt, at0)).

(** Find room, appending a cluster to the directory when its chain ends; also
    the value [lastFatsect] has. *)
Definition find_slot (dp : nat) (dbnum : Z) (bpb : BPB) : fsprog (Z * Z * nat * Z) :=
  fdp <- get_inode dp;;
  while_fuel (chain_fuel bpb) (fun '(cno, fp, last, s) =>
    x <- iter_list (fun s si =>
           fat_sector (i_dev fdp) bpb (fun sp => bwrite sp;;; brelse sp)
             (find_slot_entry dp dbnum) s cno si fp) (seqZ 0 (SecPerClus bpb)) s;;
    match x with
    | inr at_ => Ret (inr (at_, last))
    | inl s =>
        let* (cur, secOff) := fat_entry bpb cno in
        let* (fp, last) := fat_load rel_fat (i_dev fdp) cur fp last in
        deref fp (fun b =>
          cno <- fat_word b secOff;;
          cno <- (if isEOF cno then
                    cno <- fat_calloc (i_dev fdp);;
                    fat_put_word b secOff cno;;;
                    Ret cno
                  else Ret cno);;
          Ret (inl (cno, fp, last, s)))
    end) (i_inum fdp, None, 0, (false, 0, (0, 0, 0%nat))).

(** The entries that go into one sector, from position [j]; [i] counts them. *)
Fixpoint write_entries (n : nat) (j i : nat) (dbnum : nat) (lds : list (list Z)) (dbuf : list Z) (d : block)
    : outcome (block * bool) :=
  match n with
  | O => Ok (d, false)
  | S n =>
      if (i =? dbnum)%nat then Ok (put_de j dbuf d, true)
      else match lds !! i with
           | Some e => write_entries n (S j) (S i) dbnum lds dbuf (put_de j e d)
           | None => oob
           end
  end.

Definition fill_slot (dp : nat) (bpb : BPB) (at_ : Z * Z * nat) (last : Z) (lds : list (list Z)) (dbuf : list Z)
    : fsprog Z :=
  fdp <- get_inode dp;;
  let '(cno0, si0, de0) := at_ in
  while_fuel (chain_fuel bpb) (fun '(cno, fp, last, si0, de0) =>
    x <- iter_list (fun de0 si =>
           sp <- bread (i_dev fdp) (fat_getFirstSectorofCluster bpb cno + si);;
           d <- bdata sp;;
           let* (d, done) := lift (write_entries (16 - de0) de0 0 (length lds) lds dbuf d) in
           bstore sp d;;;
           bwrite sp;;;
           brelse sp;;;
           if done : bool then opt_rel brelse fp;;; Ret (inr tt)
           else Ret (inl 0%nat)) (seqZ si0 (SecPerClus bpb - si0)) de0;;
    match x with
    | inr _ => Ret (inr 0)
    | inl de0 =>
        let* (cno, fp, last) := fat_next brelse (i_dev fdp) bpb cno fp last in
        if isEOF cno then panic "dirlink"
        else Ret (inl (cno, fp, last, 0, de0))
    end) (cno0, None, last, si0, de0).

(** Write a new directory entry (name, ip) into the directory dp. *)
Definition fat_dirlink (dp : nat) (name : list Z) (ip : nat) : fsprog Z :=
  (* Check that name is not present. *)
  x <- fat_dirlookup dp name;;
  match x with
  | Some tip => fat_iput tip;;; Ret (-1)
  | None =>
      (* Generate Name Blocks *)
      c1 <- lift (strncmp name str_dot 1);;
      c2 <- (if c1 =? 0 then Ret 0 else lift (strncmp name str_dotdot 2));;
      let* (dbuf, lds) :=
        (if negb (c1 =? 0) && negb (c2 =? 0) then               (* Long name *)
           dbuf <- lift (fat_getshortname name (pad 32 stack_junk));;
           dbuf <- unique_shortname dp dbuf;;
           nb <- lift (long_namebuf name);;
           len <- lift (strlen name);;
           let dbnum := Z.quot (len - 1) 13 + 1 in
           if 20 <? dbnum then undef "ldbuf index"
           else Ret (dbuf, map (ldir_bytes nb dbnum (fat_getChkSum dbuf)) (seq 0 (Z.to_nat dbnum)))
         else                                                    (* Short name *)
           c <- lift (rd name 1);;
           Ret ([46; if negb (c =? 0) then 46 else chr_space] ++ replicate 9 chr_space, [])) in
      fip <- get_inode ip;;
      dbuf <- (if negb (Z.land (i_type fip) (Z.lor T_DIR T_FILE) =? 0)
               then Ret (dir_bytes dbuf fip ((1000 * fat_getBIOSsecond) mod 2) crt_time crt_date)
               else undef "CrtTime is not set");;
      (* Update DIR entry *)
      fdp <- get_inode dp;;
      bpb <- fat_readbpb (i_dev fdp);;
      let* (at_, last) := find_slot dp (Z.of_nat (length lds)) bpb in
      grow_dir dp;;;
      fill_slot dp bpb at_ last lds dbuf
  end.

(** ** Paths *)

Definition fat_skipelem (path name : list Z) : outcome (option (list Z * list Z)) :=
  let? path := skip_slashes path in
  match path with
  | [] => oob
  | c :: _ =>
      if c =? 0 then Ok None
      else
        let? (s, path) := skip_name path in
        let? name :=
          if FAT_DIRSIZ <=? Z.of_nat (length s) then copy_to (take 260 s) name
          else copy_to (s ++ [0]) name in
        let? path := skip_slashes path in
        Ok (Some (path, name))
  end.

(** Look up and return the inode for a path name. *)
Definition fat_namex (ip : nat) (path : list Z) (nameiparent : bool) (name : list Z)
    : fsprog (option nat * list Z) :=
  c <- lift (rd path 0);;
  path <- (if c =? chr_dot then
             k <- get;;
             fnode <- get_inode (p_cwd (km_proc k));;
             Ret (if i_inum fnode =? 2 then drop 1 path else path)
           else Ret path);;
  while_fuel (length path + 1) (fun '(ip, path, name) =>
    e <- lift (fat_skipelem path name);;
    match e with
    | None =>
        if nameiparent then fat_iput ip;;; Ret (inr (None, name))
        else Ret (inr (Some ip, name))
    | Some (path, name) =>
        fat_ilock ip;;;
        fip <- get_inode ip;;
        if negb (i_type fip =? T_DIR) then
          fat_iunlockput ip;;; Ret (inr (None, name))
        else if nameiparent && (nth 0 path 0 =? 0) then
          (* Stop one level early. *)
          fat_iunlock ip;;; Ret (inr (Some ip, name))
        else
          next <- fat_dirlookup ip name;;
          fat_iunlockput ip;;;
          match next with
          | None => Ret (inr (None, name))
          | Some next => Ret (inl (next, path, name))
          end
    end) (ip, path, name).

Definition fat_namei (node : nat) (path : list Z) : fsprog (option nat) :=
  r <- fat_namex node path false (replicate 260 0);; Ret r.1.

Definition fat_nameiparent (node : nat) (path name : list Z) : fsprog (option nat * list Z) :=
  fat_namex node path true name.
End Dir.

Definition fat_link_inc (ip : nat) : fsprog nat :=
  upd_inode ip (fun i => set_i_nlink (i_nlink i + 1) i);;; Ret ip.
Definition fat_link_dec (ip : nat) : fsprog nat :=
  upd_inode ip (fun i => set_i_nlink (i_nlink i - 1) i);;; Ret ip.

Definition fat_opendir (node : nat) (open_flags : Z) : fsprog Z :=
  if negb (open_flags =? O_RDONLY) then Ret (-1) else Ret 0.
Definition fat_openfile (node : nat) (open_flags : Z) : fsprog Z := Ret 0.
Definition fat_gettype (node : nat) : fsprog Z := i <- get_inode node;; Ret (i_type i).
Definition fat_getdev (node : nat) : fsprog Z := i <- get_inode node;; Ret (i_dev i).
Definition fat_getnlink (node : nat) : fsprog Z := i <- get_inode node;; Ret (i_nlink i).
Definition fat_getmajor (node : nat) : fsprog Z := i <- get_inode node;; Ret (i_major i).
Definition fat_getminor (node : nat) : fsprog Z := i <- get_inode node;; Ret (i_minor i).
