(* ===== verification/Vop.v ===== *)
(** * The virtual file system layer: [vfs/inode.h], [vfs.c], and the operations
    of both file systems that go through it

    [vop_x(ip)] calls the entry [vop_x] of the table [ip->in_ops] points to; an
    inode without a table, or a table without that entry, is a call through a
    null pointer. *)

From stdpp Require Import base gmap strings numbers list.
From S2P Require Import Prelude Prog CString Layout Log State SfsBlock SfsInode SfsDir FatBase FatInode FatDir.

Definition null_op {A} : fsprog A := undef "call through a null pointer".

(** The table of an inode. *)
Definition in_ops (ip : nat) : fsprog inode_ops :=
  i <- get_inode ip;;
  match i_ops i with
  | Some o => Ret o
  | None => null_op
  end.

(** Entries both tables of a file system have. *)
Definition vop_both {A} (sfs fat : nat -> fsprog A) (ip : nat) : fsprog A :=
  o <- in_ops ip;;
  match o with
  | sfs_node_dirops | sfs_node_fileops => sfs ip
  | fat_node_dirops | fat_node_fileops => fat ip
  end.

(** Entries only the directory tables have. *)
Definition vop_dir {A} (sfs fat : nat -> fsprog A) (ip : nat) : fsprog A :=
  o <- in_ops ip;;
  match o with
  | sfs_node_dirops => sfs ip
  | fat_node_dirops => fat ip
  | sfs_node_fileops | fat_node_fileops => null_op
  end.

(** Entries only the file tables have. *)
Definition vop_file {A} (sfs fat : nat -> fsprog A) (ip : nat) : fsprog A :=
  o <- in_ops ip;;
  match o with
  | sfs_node_fileops => sfs ip
  | fat_node_fileops => fat ip
  | sfs_node_dirops | fat_node_dirops => null_op
  end.

Definition vop_fstat : nat -> fsprog stat := vop_both sfs_stati fat_stati.
Definition vop_iupdate : nat -> fsprog unit := vop_both sfs_iupdate fat_iupdate.
Definition vop_ref_inc : nat -> fsprog nat := vop_both sfs_idup fat_idup.
Definition vop_ref_dec : nat -> fsprog unit := vop_both sfs_iput fat_iput.
Definition vop_ilock : nat -> fsprog unit := vop_both sfs_ilock fat_ilock.
Definition vop_iunlock : nat -> fsprog unit := vop_both sfs_iunlock fat_iunlock.
Definition vop_iunlockput : nat -> fsprog unit := vop_both sfs_iunlockput fat_iunlockput.
Definition vop_link_inc : nat -> fsprog nat := vop_both sfs_link_inc fat_link_inc.
Definition vop_link_dec : nat -> fsprog nat := vop_both sfs_link_dec fat_link_dec.
Definition vop_gettype : nat -> fsprog Z := vop_both sfs_gettype fat_gettype.
Definition vop_getdev : nat -> fsprog Z := vop_both sfs_getdev fat_getdev.
Definition vop_getnlink : nat -> fsprog Z := vop_both sfs_getnlink fat_getnlink.
Definition vop_getmajor : nat -> fsprog Z := vop_file sfs_getmajor fat_getmajor.
Definition vop_getminor : nat -> fsprog Z := vop_file sfs_getminor fat_getminor.

Definition vop_open (ip : nat) (open_flags : Z) : fsprog Z :=
  o <- in_ops ip;;
  match o with
  | sfs_node_dirops => sfs_opendir ip open_flags
  | sfs_node_fileops => sfs_openfile ip open_flags
  | fat_node_dirops => fat_opendir ip open_flags
  | fat_node_fileops => fat_openfile ip open_flags
  end.

Definition sfs_get_root : fsprog nat := sfs_iget ROOTDEV ROOTINO T_DIR.
Definition fat_get_root : fsprog nat := fat_iget 2 2 T_DIR 0.

(** A write at an offset that may be outside the buffer. *)
Definition wrz (m : list Z) (i v : Z) : outcome (list Z) :=
  if i <? 0 then oob else wr m (Z.to_nat i) v.
Definition copyz (m : list Z) (i : Z) (src : list Z) : outcome (list Z) :=
  if (0 <=? i) && (i + Z.of_nat (length src) <=? Z.of_nat (length m))
  then Ok (splice (Z.to_nat i) src m) else oob.

Section Vop.
Context `{DevSw} `{Machine}.

Definition vop_read (ip : nat) (off n : Z) : fsprog (Z * list Z) :=
  vop_both (fun ip => sfs_readi ip off n) (fun ip => fat_readi ip off n) ip.
Definition vop_write (ip : nat) (src : list Z) (off n : Z) : fsprog Z :=
  vop_both (fun ip => sfs_writei ip src off n) (fun ip => fat_writei ip src off n) ip.
Definition vop_namei (ip : nat) (path : list Z) : fsprog (option nat) :=
  vop_dir (fun ip => sfs_namei ip path) (fun ip => fat_namei ip path) ip.
Definition vop_nameiparent (ip : nat) (path name : list Z) : fsprog (option nat * list Z) :=
  vop_dir (fun ip => sfs_nameiparent ip path name) (fun ip => fat_nameiparent ip path name) ip.
Definition vop_dirlink (dp : nat) (name : list Z) (ip : nat) : fsprog Z :=
  vop_dir (fun dp => sfs_dirlink dp name ip) (fun dp => fat_dirlink dp name ip) dp.

(** The offset of the entry is set by one of the two only. *)
Definition vop_dirlookup (dp : nat) (name : list Z) : fsprog (option (nat * option Z)) :=
  vop_dir (fun dp => x <- sfs_dirlookup dp name;;
                     Ret (match x with Some (ip, off) => Some (ip, Some off) | None => None end))
          (fun dp => x <- fat_dirlookup dp name;;
                     Ret (match x with Some ip => Some (ip, None) | None => None end)) dp.

(** ** FAT operations that use the layer *)

Definition fat_isdirempty (dp : nat) : fsprog bool :=
  fdp <- get_inode dp;;
  while_fuel (Z.to_nat (i_size fdp / 32) + 2) (fun off =>
    fdp <- get_inode dp;;
    if negb (off <? i_size fdp) then Ret (inr true)
    else
      let* (r, de) := vop_read dp off 32 in
      if negb (r =? 32) then panic "isdirempty: readi"
      else
        let c := nth 0 de 0 in
        if negb (c =? 0xE5) && negb (c =? 0) then Ret (inr false) else Ret (inl (off + 32))) 64.

Definition vop_isdirempty : nat -> fsprog bool := vop_dir sfs_isdirempty fat_isdirempty.

(** The part [sfs_getpath] and [fat_getpath] share: climb to the root, writing
    the names from the end of the buffer backwards. *)
Definition getpath_finish (path : list Z) (maxlen pos ptr : Z) (prefix : list Z) : outcome (list Z) :=
  let namelen := maxlen - pos - 2 in
  let? path :=
    if (0 <=? namelen) && (0 <=? ptr)
    then if (ptr + namelen <=? Z.of_nat (length path)) then
           copyz path 5 (slice (Z.to_nat ptr) (Z.to_nat namelen) path) else oob
    else oob in
  let? path := copyz path 0 prefix in
  wrz path (5 + namelen) 0.

Definition getpath (lookup_parent : nat -> fsprog (option nat))
    (inumtoname : nat -> Z -> list Z -> fsprog (Z * list Z)) (namesize : nat) (prefix : list Z)
    (node : nat) (path : list Z) (maxlen : Z) : fsprog (Z * list Z) :=
  vop_ref_inc node;;;
  while_fuel (Z.to_nat maxlen + 2) (fun '(node, pos, ptr, path) =>
    parent <- lookup_parent node;;
    match parent with
    | None => vop_ref_dec node;;; Ret (inr (-1, path))
    | Some parent =>
        sin <- get_inode node;;
        let inum := i_inum sin in
        vop_ref_dec node;;;
        if (node =? parent)%nat then
          vop_ref_dec node;;;
          path <- lift (getpath_finish path maxlen pos ptr prefix);;
          Ret (inr (0, path))
        else
          let* (ret, namebuf) := inumtoname parent inum (replicate namesize 0) in
          if negb (ret =? 0) then vop_ref_dec parent;;; Ret (inr (-1, path))
          else
            len <- lift (strlen namebuf);;
            let namelen := len + 1 in
            if pos <? namelen then Ret (inr (-1, path))
            else
              path <- lift (copyz path (ptr - namelen) (take (Z.to_nat len) namebuf ++ [chr_slash]));;
              Ret (inl (parent, pos - namelen, ptr - namelen, path))
    end) (node, maxlen - 2, maxlen, path).

(** "sfs:/" and "fat:/" *)
Definition str_sfs : list Z := [115; 102; 115; 58; 47].
Definition str_fat : list Z := [102; 97; 116; 58; 47].

Definition sfs_getpath (node : nat) (path : list Z) (maxlen : Z) : fsprog (Z * list Z) :=
  getpath (fun n => x <- sfs_dirlookup n str_dotdot;; Ret (fst <$> x)) sfs_inumtoname 14 str_sfs
    node path maxlen.

Definition fat_getpath (node : nat) (path : list Z) (maxlen : Z) : fsprog (Z * list Z) :=
  getpath (fun n => fat_dirlookup n str_dotdot) fat_inumtoname 11 str_fat node path maxlen.

Definition vop_getpath (node : nat) (path : list Z) (maxlen : Z) : fsprog (Z * list Z) :=
  o <- in_ops node;;
  match o with
  | sfs_node_dirops => sfs_getpath node path maxlen
  | fat_node_dirops | fat_node_fileops => fat_getpath node path maxlen
  | sfs_node_fileops => null_op
  end.

(** ** Removing and creating *)

Definition sfs_unlink (dp : nat) (name : list Z) : fsprog Z :=
  vop_ilock dp;;;
  let bad := vop_iunlockput dp;;; Ret (-1) in
  (* Cannot unlink "." or "..". *)
  c1 <- namecmp name str_dot;;
  c2 <- (if c1 =? 0 then Ret 0 else namecmp name str_dotdot);;
  if (c1 =? 0) || (c2 =? 0) then bad
  else
    x <- vop_dirlookup dp name;;
    match x with
    | None => bad
    | Some (ip, off) =>
        vop_ilock ip;;;
        nlink <- vop_getnlink ip;;
        if nlink <? 1 then panic "unlink: nlink < 1"
        else
          t <- vop_gettype ip;;
          empty <- (if t =? T_DIR then vop_isdirempty ip else Ret true);;
          if (t =? T_DIR) && negb empty then vop_iunlockput ip;;; bad
          else
            match off with
            | None => undef "off is not set"
            | Some off =>
                r <- vop_write dp (replicate 16 0) off 16;;
                if negb (r =? 16) then panic "unlink: writei"
                else
                  t <- vop_gettype ip;;
                  (if t =? T_DIR then vop_link_dec dp;;; vop_iupdate dp else Ret tt);;;
                  vop_iunlockput dp;;;
                  vop_link_dec ip;;;
                  vop_iupdate ip;;;
                  vop_iunlockput ip;;;
                  Ret 0
            end
    end.

Definition fat_unlink (dp : nat) (name : list Z) : fsprog Z :=
  vop_ilock dp;;;
  let bad := vop_iunlockput dp;;; Ret (-1) in
  (* Cannot unlink "." or "..". *)
  c1 <- fat_namecmp name str_dot;;
  c2 <- (if c1 =? 0 then Ret 0 else fat_namecmp name str_dotdot);;
  if (c1 =? 0) || (c2 =? 0) then bad
  else
    x <- vop_dirlookup dp name;;
    match x with
    | None => bad
    | Some (ip, _) =>
        vop_ilock ip;;;
        fip <- get_inode ip;;
        upd_inode dp (fun i => set_i_size (i_size i - (i_size fip + 32)) i);;;
        fip <- get_inode ip;;
        if i_nlink fip <? 1 then panic "unlink: nlink < 1"
        else
          empty <- (if i_type fip =? T_DIR then vop_isdirempty ip else Ret true);;
          if (i_type fip =? T_DIR) && negb empty then vop_iunlockput ip;;; bad
          else
            vop_iunlockput dp;;;
            vop_link_dec ip;;;
            vop_iupdate ip;;;
            fdp <- get_inode dp;;
            (if negb (i_inum fdp =? 2) then vop_iupdate dp else Ret tt);;;
            vop_iunlockput ip;;;
            Ret 0
    end.

Definition vop_unlink (dp : nat) (name : list Z) : fsprog Z :=
  vop_dir (fun dp => sfs_unlink dp name) (fun dp => fat_unlink dp name) dp.

Definition sfs_create_inode (dirnode : nat) (type major minor : Z) (name : list Z) : fsprog nat :=
  sdirnode <- get_inode dirnode;;
  ip <- sfs_ialloc dirnode (i_dev sdirnode) type;;
  vop_ilock ip;;;
  upd_inode ip (fun i => set_i_nlink 1 (set_i_majmin major minor i));;;
  vop_iupdate ip;;;
  (if type =? T_DIR then                     (* Create . and .. entries. *)
     vop_link_inc dirnode;;;                 (* for ".." *)
     vop_iupdate dirnode;;;
     (* No ip->nlink++ for ".": avoid cyclic ref count. *)
     r <- vop_dirlink ip str_dot ip;;
     if r <? 0 then panic "create dots"
     else
       r <- vop_dirlink ip str_dotdot dirnode;;
       if r <? 0 then panic "create dots" else Ret tt
   else Ret tt);;;
  r <- vop_dirlink dirnode name ip;;
  if r <? 0 then panic "create: dirlink" else Ret ip.

Definition fat_create_inode (dirnode : nat) (type major minor : Z) (name : list Z) : fsprog nat :=
  dp <- get_inode dirnode;;
  c <- fat_calloc (i_dev dp);;
  ip <- fat_iget (i_dev dp) c type (i_inum dp);;
  upd_inode ip (fun i => set_i_nlink 1 (set_i_size 0 (set_i_majmin major minor i)));;;
  (if type =? T_DIR then                     (* Create . and .. entries. *)
     r <- fat_dirlink ip str_dot ip;;
     if r <? 0 then panic "create dots"
     else
       r <- fat_dirlink ip str_dotdot dirnode;;
       if r <? 0 then panic "create dots" else Ret tt
   else Ret tt);;;
  r <- fat_dirlink dirnode name ip;;
  if r <? 0 then panic "create: dirlink"
  else
    fat_ilock ip;;;
    fat_iupdate ip;;;
    dp <- get_inode dirnode;;
    (if negb (i_inum dp =? 2) then fat_iupdate dirnode else Ret tt);;;
    Ret ip.

Definition vop_create_inode (dirnode : nat) (type major minor : Z) (name : list Z) : fsprog nat :=
  vop_dir (fun d => sfs_create_inode d type major minor name)
          (fun d => fat_create_inode d type major minor name) dirnode.
End Vop.
