(* ===== verification/Vfs.v ===== *)
(** * Path names across file systems: [vfs.c]

    [get_device] writes into the path it is given, so every function returns
    the path buffer it leaves behind. *)

From stdpp Require Import base gmap strings numbers list.
From S2P Require Import Prelude Prog CString Layout Log State SfsInode SfsDir FatBase FatInode FatDir Vop.

Definition chr_colon : Z := 58.
Definition str3 (a b c : Z) : list Z := [a; b; c; 0].

Section Vfs.
Context `{DevSw} `{Machine}.

Definition vfs_get_curdir : fsprog nat :=
  node <- gets (fun k => p_cwd (km_proc k));;
  vop_ref_inc node;;;
  Ret node.

(** [strncmp(devname, s, 3) == 0] *)
Definition dev_is (devname s : list Z) : fsprog bool :=
  c <- lift (strncmp devname s 3);; Ret (c =? 0).

Definition vfs_get_root (devname : list Z) : fsprog nat :=
  a <- dev_is devname (str3 115 102 115);;                 (* "sfs" *)
  b <- (if a : bool then Ret true else dev_is devname (str3 83 70 83));;
  if b : bool then sfs_get_root
  else
    a <- dev_is devname (str3 102 97 116);;                (* "fat" *)
    b <- (if a : bool then Ret true else dev_is devname (str3 70 65 84));;
    if b : bool then fat_get_root else sfs_get_root.

Definition vfs_get_bootfs : fsprog nat := sfs_get_root.

(** The first ':' or '/' of a path: its index and whether it is a colon. *)
Fixpoint find_sep (p : list Z) (i : nat) : outcome (option (nat * bool)) :=
  match p with
  | [] => oob
  | c :: p =>
      if c =? 0 then Ok None
      else if c =? chr_colon then Ok (Some (i, true))
      else if c =? chr_slash then Ok (Some (i, false))
      else find_sep p (S i)
  end.

(** The node to start from, the offset of the rest of the path, and the path
    buffer. *)
Definition get_device (path : list Z) : fsprog (nat * nat * list Z) :=
  sep <- lift (find_sep path 0);;
  match sep with
  | None | Some (S _, false) =>
      (* No colon before a slash, and the slash isn't leading: a relative path *)
      node <- vfs_get_curdir;;
      Ret (node, 0%nat, path)
  | Some (S c, true) =>
      (* device:path - get root of device's filesystem *)
      path <- lift (wr path (S c) 0);;
      rest <- lift (skip_slashes (drop (S (S c)) path));;
      node <- vfs_get_root path;;
      Ret (node, (length path - length rest)%nat, path)
  | Some (O, false) =>
      (* ///... *)
      node <- vfs_get_bootfs;;
      rest <- lift (skip_slashes (drop 1 path));;
      Ret (node, (length path - length rest)%nat, path)
  | Some (O, true) => undef "node is not set"
  end.

(** Get the inode according to the path filename. *)
Definition vfs_lookup (path : list Z) : fsprog (option nat * list Z) :=
  let* (node, sub, path) := get_device path in
  c <- lift (rd path sub);;
  if negb (c =? 0) then
    result <- vop_namei node (drop sub path);;
    Ret (result, path)
  else Ret (Some node, path).

Definition vfs_lookup_parent (path name : list Z) : fsprog (option nat * list Z * list Z) :=
  let* (node, sub, path) := get_device path in
  let* (dp, name) := vop_nameiparent node (drop sub path) name in
  Ret (dp, name, path).

(** Retrieve current working directory (cwd). *)
Definition vfs_getcwd (path : list Z) (len : Z) : fsprog (Z * list Z) :=
  node <- vfs_get_curdir;;
  vop_getpath node path len.
End Vfs.
