(* ===== verification/Console.v ===== *)
(** * The console device: [console.c], 161-305 *)

From stdpp Require Import base gmap strings numbers list.
From S2P Require Import Prelude Prog Log State Vop.

Definition BACKSPACE : Z := 0x100.
Definition ctrl (c : Z) : Z := c - 64.
Definition chr_nl : Z := 10.
Definition chr_cr : Z := 13.

(** What [consputc] sends to the serial line. *)
Definition consputc (c : Z) (s : console) : console :=
  mkconsole (in_buf s) (in_r s) (in_w s) (in_e s)
    (con_out s ++ if c =? BACKSPACE then [8; 32; 8] else [u8 c]).

Definition set_r (v : Z) (s : console) : console := mkconsole (in_buf s) (u32 v) (in_w s) (in_e s) (con_out s).
Definition set_w (v : Z) (s : console) : console := mkconsole (in_buf s) (in_r s) (u32 v) (in_e s) (con_out s).
Definition set_e (v : Z) (s : console) : console := mkconsole (in_buf s) (in_r s) (in_w s) (u32 v) (con_out s).

(** [input.buf[input.e++ % INPUT_BUF] = c] *)
Definition push_input (c : Z) (s : console) : console :=
  mkconsole (<[Z.to_nat (in_e s mod INPUT_BUF) := u8 c]> (in_buf s)) (in_r s) (in_w s)
    (u32 (in_e s + 1)) (con_out s).
Definition input_at (i : Z) (s : console) : Z := nth (Z.to_nat (u32 i mod INPUT_BUF)) (in_buf s) 0.

(** case C('U'): at most [INPUT_BUF] characters are pending *)
Fixpoint kill_line (fuel : nat) (s : console) : console :=
  match fuel with
  | O => s
  | S fuel =>
      if negb (in_e s =? in_w s) && negb (input_at (in_e s - 1) s =? chr_nl)
      then kill_line fuel (consputc BACKSPACE (set_e (in_e s - 1) s))
      else s
  end.

(** One character of the loop of [consoleintr]; [procdump] (C('P')) prints
    and changes nothing here. *)
Definition consoleintr_char (s : console) (c : Z) : console :=
  if c =? ctrl 80 then s                                            (* Process listing. *)
  else if c =? ctrl 85 then kill_line (Z.to_nat INPUT_BUF) s         (* Kill line. *)
  else if (c =? ctrl 72) || (c =? 127) then                          (* Backspace *)
    if negb (in_e s =? in_w s) then consputc BACKSPACE (set_e (in_e s - 1) s) else s
  else if c =? 67 then                                               (* 'C' *)
    let s := push_input 99 (set_w (in_e s) s) in set_w (in_e s) s
  else if c =? 81 then                                               (* 'Q' *)
    let s := push_input 113 (set_w (in_e s) s) in set_w (in_e s) s
  else if negb (c =? 0) && (u32 (in_e s - in_r s) <? INPUT_BUF) then
    let c := if c =? chr_cr then chr_nl else c in
    let s := consputc c (push_input c s) in
    if (c =? chr_nl) || (c =? ctrl 68) || (in_e s =? u32 (in_r s + INPUT_BUF))
    then set_w (in_e s) s else s
  else s.

(** [while((c = getc()) >= 0)] over the characters the device has. *)
Definition consoleintr (cs : list Z) (s : console) : console := foldl consoleintr_char s cs.

Definition upd_cons (f : console -> console) : fsprog unit := modify (fun k => with_cons (f (km_cons k)) k).

(** One round of the loop of [consoleread], over [n] and what was stored at
    [dst]: whether the process was killed, and the bytes. *)
Definition read_body (target : Z) '((n, dst) : Z * list Z) : fsprog (Z * list Z + bool * list Z) :=
  if negb (0 <? n) then Ret (inr (false, dst))
  else
    k <- get;;
    let s := km_cons k in
    if in_r s =? in_w s then
      if p_killed (km_proc k) then Ret (inr (true, dst)) else Stop Blocked
    else
      let c := input_at (in_r s) s in
      upd_cons (set_r (in_r s + 1));;;
      if c =? ctrl 68 then                                         (* EOF *)
        (* Save ^D for next time, to make sure caller gets a 0-byte result. *)
        (if n <? target then upd_cons (set_r (in_r s)) else Ret tt);;;
        Ret (inr (false, dst))
      else if c =? chr_nl then Ret (inr (false, dst ++ [c]))
      else Ret (inl (n - 1, dst ++ [c])).

Definition read_loop (target : Z) : fsprog (bool * list Z) :=
  while_fuel (Z.to_nat target + 1) (read_body target) (target, []).

Definition consoleread (ip : nat) (n : Z) : fsprog (Z * list Z) :=
  vop_iunlock ip;;;
  let* (killed, dst) := read_loop (s32 n) in
  vop_ilock ip;;;
  Ret (if killed : bool then -1 else Z.of_nat (length dst), dst).

Definition consolewrite (ip : nat) (buf : list Z) (n : Z) : fsprog Z :=
  vop_iunlock ip;;;
  for_each (seq 0 (Z.to_nat (s32 n))) (fun i =>
    match buf !! i with
    | Some c => upd_cons (consputc (Z.land c 0xff))
    | None => undef "read outside the source buffer"
    end);;;
  vop_ilock ip;;;
  Ret (s32 n).

(** [consoleinit]: the console is the only device. *)
Definition CONSOLE : Z := 1.
#[global] Instance console_devsw : DevSw := {
  dev_read major := if major =? CONSOLE then Some consoleread else None;
  dev_write major := if major =? CONSOLE then Some consolewrite else None;
}.
