(* ===== verification/VopSpec.v ===== *)
(** * Locking through the virtual file system

    What [vop_ilock] and [vop_iunlock] do to an inode of sfs in the cache. *)

From stdpp Require Import base gmap strings numbers list.
From S2P Require Import Prelude Prog Log LStore State FsLogic SfsInode Vop.

Definition sfs_ops (i : inode) : Prop := i_ops i = Some sfs_node_dirops \/ i_ops i = Some sfs_node_fileops.
Definition unlocked (i : inode) : inode := set_i_flags (Z.land (i_flags i) (Z.lnot I_BUSY)) i.
Definition locked (i : inode) : inode := set_i_flags (Z.lor (i_flags i) I_BUSY) i.

Lemma run_in_ops ip i o k (l : lstore) : cached k ip i -> i_ops i = Some o -> run (in_ops ip) k l = Ok (o, k, l).
Proof. intros Hc Ho. unfold in_ops. run_step run_get_inode. by rewrite Ho. Qed.

Lemma run_vop_both {A} (p q : nat -> fsprog A) ip i k (l : lstore) : cached k ip i -> sfs_ops i -> run (vop_both p q ip) k l = run (p ip) k l.
Proof. intros Hc [Ho|Ho]; unfold vop_both; by run_step run_in_ops. Qed.

Lemma i_has_bit i n : 0 <= n -> i_has i (2 ^ n) = Z.testbit (i_flags i) n.
Proof.
  intros Hn. unfold i_has. destruct (Z.testbit (i_flags i) n) eqn:Hb.
  - apply negb_true_iff, Z.eqb_neq. intros H0. apply (f_equal (fun x => Z.testbit x n)) in H0.
    rewrite Z.land_spec, Hb, Z.pow2_bits_true, Z.bits_0 in H0; done.
  - apply negb_false_iff, Z.eqb_eq, Z.bits_inj'. intros m Hm. rewrite Z.land_spec, Z.bits_0.
    destruct (decide (m = n)) as [->|Hne]; [by rewrite Hb|]. by rewrite Z.pow2_bits_false, andb_false_r by done.
Qed.

Lemma set_bit0 x : Z.testbit x 0 = true -> Z.lor (Z.land x (Z.lnot I_BUSY)) I_BUSY = x.
Proof.
  intros Hb. apply Z.bits_inj'. intros m Hm. rewrite Z.lor_spec, Z.land_spec, Z.lnot_spec by done.
  change I_BUSY with (2 ^ 0). destruct (decide (m = 0)) as [->|Hne]; [by rewrite Hb|].
  by rewrite Z.pow2_bits_false, orb_false_r, andb_true_r by done.
Qed.

Lemma locked_unlocked i : i_has i I_BUSY = true -> locked (unlocked i) = i.
Proof.
  intros Hb. change I_BUSY with (2 ^ 0) in Hb. rewrite i_has_bit in Hb by done. apply set_bit0 in Hb.
  unfold locked, unlocked. cbn [set_i_flags i_flags]. rewrite Hb. by destruct i.
Qed.

Lemma unlocked_busy i : i_has (unlocked i) I_BUSY = false.
Proof.
  change I_BUSY with (2 ^ 0). rewrite i_has_bit by done. cbn [unlocked set_i_flags i_flags].
  rewrite Z.land_spec, Z.lnot_spec by done. apply andb_false_r.
Qed.

Lemma unlocked_valid i : i_has (unlocked i) I_VALID = i_has i I_VALID.
Proof.
  change I_VALID with (2 ^ 1). rewrite !i_has_bit by done. cbn [unlocked set_i_flags i_flags].
  rewrite Z.land_spec, Z.lnot_spec by done. apply andb_true_r.
Qed.

Lemma run_vop_iunlock ip i k (l : lstore) : cached k ip i -> sfs_ops i -> i_has i I_BUSY = true -> 1 <= i_ref i ->
  run (vop_iunlock ip) k l = Ok (tt, set_inode ip (unlocked i) k, l).
Proof.
  intros Hc Ho Hb Hr. unfold vop_iunlock. rewrite (run_vop_both _ _ _ _ _ _ Hc Ho). unfold sfs_iunlock. run_step run_get_inode.
  rewrite Hb, (proj2 (Z.ltb_ge _ _)) by lia. cbn [negb orb]. by rewrite (run_upd_inode _ _ _ _ _ Hc).
Qed.

Lemma run_vop_ilock ip i k (l : lstore) :
  cached k ip i -> sfs_ops i -> i_has i I_BUSY = false -> i_has i I_VALID = true -> 1 <= i_ref i ->
  run (vop_ilock ip) k l = Ok (tt, set_inode ip (locked i) k, l).
Proof.
  intros Hc Ho Hb Hv Hr. unfold vop_ilock. rewrite (run_vop_both _ _ _ _ _ _ Hc Ho). unfold sfs_ilock. run_step run_get_inode.
  rewrite Hb, (proj2 (Z.ltb_ge _ _)) by lia. run_step run_upd_inode. by rewrite Hv.
Qed.
