(* ===== verification/Tty.v ===== *)
(** * The line discipline of the console

    [tty] is what a terminal promises: the characters ready to be read, the
    line being typed, and what has been put out.  [consoleintr] and
    [consoleread] of [console.c] implement it with a ring of 128 bytes and
    three indices that wrap around at 2^32. *)

From stdpp Require Import base gmap strings numbers list.
From S2P Require Import Prelude Prog Log LStore State FsLogic SfsInode Vop VopSpec Console.

Record tty := mktty { t_done : list Z; t_line : list Z; t_out : list Z }.

Definition rubout : list Z := [8; 32; 8].
Definition room (t : tty) : bool := (length (t_done t) + length (t_line t) <? 128)%nat.

(** One character typed.  A capital [C] or [Q] is delivered at once, in lower
    case and without an echo; with the ring full it would overwrite what has
    not been read ([None]). *)
Definition deliver (c : Z) (t : tty) : option tty :=
  if room t then Some (mktty (t_done t ++ t_line t ++ [c]) [] (t_out t)) else None.

Definition type_char (c : Z) (t : tty) : tty :=
  let c := if c =? chr_cr then chr_nl else c in
  let t := mktty (t_done t) (t_line t ++ [c]) (t_out t ++ [c]) in
  if (c =? chr_nl) || (c =? ctrl 68) || negb (room t)
  then mktty (t_done t ++ t_line t) [] (t_out t) else t.

(** One character typed.  The terminal of this kernel is peculiar in two keys:
    a capital C or Q (console.c has the letters themselves as cases, where
    control characters are meant elsewhere in that switch) hands the line over
    at once, with a small c or q at its end and without an echo. *)
Definition tty_char (t : tty) (c : Z) : option tty :=
  if c =? ctrl 80 then Some t
  else if c =? ctrl 85 then Some (mktty (t_done t) [] (t_out t ++ mjoin (replicate (length (t_line t)) rubout)))
  else if (c =? ctrl 72) || (c =? 127) then
    match t_line t with
    | [] => Some t
    | _ => Some (mktty (t_done t) (take (length (t_line t) - 1) (t_line t)) (t_out t ++ rubout))
    end
  else if c =? 67 then deliver 99 t
  else if c =? 81 then deliver 113 t
  else Some (if negb (c =? 0) && room t then type_char c t else t).

Fixpoint tty_chars (cs : list Z) (t : tty) : option tty :=
  match cs with
  | [] => Some t
  | c :: cs => match tty_char t c with Some t => tty_chars cs t | None => None end
  end.

(** A read of at most [n] characters: up to a newline, or to a control-D,
    which is left for the next read unless this one has got nothing.  [None]
    waits. *)
Fixpoint tty_read (first : bool) (n : nat) (l : list Z) : option (list Z * list Z) :=
  match n with
  | O => Some ([], l)
  | S n =>
      match l with
      | [] => None
      | c :: r =>
          if c =? ctrl 68 then Some ([], if first then r else l)
          else if c =? chr_nl then Some ([c], r)
          else '(dst, rest) ← tty_read false n r; Some (c :: dst, rest)
      end
  end.

(** The ring holds the terminal. *)
Record ring_holds (s : console) (t : tty) : Prop := {
  rh_r : 0 <= in_r s < 2 ^ 32;
  rh_buf : length (in_buf s) = 128%nat;
  rh_fit : (length (t_done t) + length (t_line t) <= 128)%nat;
  rh_w : in_w s = u32 (in_r s + Z.of_nat (length (t_done t)));
  rh_e : in_e s = u32 (in_r s + Z.of_nat (length (t_done t) + length (t_line t)));
  rh_at : forall i c, (t_done t ++ t_line t) !! i = Some c -> in_buf s !! Z.to_nat ((in_r s + Z.of_nat i) mod 128) = Some c;
  rh_out : con_out s = t_out t;
}.

(** A newline ends the line it is typed on. *)
Definition one_line (t : tty) : Prop := Forall (fun c => c <> chr_nl) (t_line t).

(** ** The ring *)

Lemma u32_mod128 x : u32 x mod 128 = x mod 128.
Proof. unfold u32. lia. Qed.

Lemma u32_add_eq x y r : u32 (r + x) = u32 (r + y) -> 0 <= x < 2 ^ 32 -> 0 <= y < 2 ^ 32 -> x = y.
Proof. unfold u32. lia. Qed.

Lemma input_at_holds s t i c : ring_holds s t -> (t_done t ++ t_line t) !! i = Some c -> input_at (in_r s + Z.of_nat i) s = c.
Proof. intros Hh Hi. unfold input_at, INPUT_BUF. rewrite u32_mod128. apply nth_lookup_Some, (rh_at _ _ Hh _ _ Hi). Qed.

Lemma consputc_holds s t c : ring_holds s t ->
  ring_holds (consputc c s) (mktty (t_done t) (t_line t) (t_out t ++ if c =? BACKSPACE then rubout else [u8 c])).
Proof. intros []. split; try done. cbn. by rewrite rh_out0. Qed.

Lemma commit_holds s t : ring_holds s t -> ring_holds (set_w (in_e s) s) (mktty (t_done t ++ t_line t) [] (t_out t)).
Proof.
  intros []. split; cbn [t_done t_line t_out in_r in_w in_e in_buf con_out set_w]; rewrite ?length_app, ?app_nil_r; try done; cbn [length].
  - lia.
  - rewrite rh_e0. unfold u32. lia.
  - rewrite rh_e0. f_equal. lia.
Qed.

Lemma push_holds s t c : ring_holds s t -> room t = true -> 0 <= c < 256 ->
  ring_holds (push_input c s) (mktty (t_done t) (t_line t ++ [c]) (t_out t)).
Proof.
  intros [] Hroom Hc. unfold room in Hroom. apply Nat.ltb_lt in Hroom.
  assert (in_e s mod 128 = (in_r s + Z.of_nat (length (t_done t) + length (t_line t))) mod 128) as He by (rewrite rh_e0; apply u32_mod128).
  split; cbn [t_done t_line t_out in_r in_w in_e in_buf con_out push_input]; rewrite ?length_app, ?length_insert; try done; cbn [length].
  - lia.
  - rewrite rh_e0. unfold u32. lia.
  - intros i x. unfold INPUT_BUF. rewrite He, app_assoc. intros [Hi|(-> & ->)]%lookup_snoc_Some.
    + pose proof (lookup_lt_Some _ _ _ (proj2 Hi)) as Hlt. rewrite length_app in Hlt.
      rewrite list_lookup_insert_ne by lia. apply rh_at0, Hi.
    + rewrite length_app, list_lookup_insert_eq by lia. f_equal. unfold u8. lia.
Qed.

Lemma back_holds s t : ring_holds s t -> t_line t <> [] ->
  ring_holds (consputc BACKSPACE (set_e (in_e s - 1) s)) (mktty (t_done t) (take (length (t_line t) - 1) (t_line t)) (t_out t ++ rubout)).
Proof.
  intros [] Hl. assert (0 < length (t_line t))%nat by (destruct (t_line t); [done|cbn; lia]).
  split; cbn [t_done t_line t_out in_r in_w in_e in_buf con_out set_e consputc]; rewrite ?length_take; try done; try lia.
  - rewrite rh_e0. unfold u32. lia.
  - intros i c Hi. apply rh_at0. rewrite lookup_app in Hi |- *. destruct (t_done t !! i); [done|].
    apply lookup_take_Some in Hi as [Hi _]. done.
  - by rewrite rh_out0.
Qed.

Lemma back_one_line t o : one_line t -> one_line (mktty (t_done t) (take (length (t_line t) - 1) (t_line t)) o).
Proof. apply Forall_take. Qed.

Lemma empty_line s t : ring_holds s t -> (in_e s =? in_w s) = match t_line t with [] => true | _ => false end.
Proof.
  intros []. rewrite rh_e0, rh_w0. unfold u32. destruct (t_line t) as [|x l]; cbn [length] in *; [apply Z.eqb_eq|apply Z.eqb_neq]; lia.
Qed.

Lemma last_typed s t c l : ring_holds s t -> t_line t = l ++ [c] -> input_at (in_e s - 1) s = c.
Proof.
  intros Hh Hl. assert ((t_done t ++ t_line t) !! (length (t_done t) + length l)%nat = Some c) as Hi.
  { rewrite Hl, app_assoc. apply lookup_snoc_Some. right. rewrite length_app. done. }
  rewrite <- (input_at_holds _ _ _ _ Hh Hi). unfold input_at. f_equal. unfold INPUT_BUF. rewrite !u32_mod128, (rh_e _ _ Hh), Hl, length_app.
  cbn [length]. unfold u32. lia.
Qed.

Lemma kill_line_holds n s t : ring_holds s t -> one_line t -> (length (t_line t) <= n)%nat ->
  ring_holds (kill_line n s) (mktty (t_done t) [] (t_out t ++ mjoin (replicate (length (t_line t)) rubout))).
Proof.
  revert s t. induction n as [|n IH]; intros s [d l o] Hh Hl Hn; cbn [t_done t_line t_out] in *.
  - destruct l; [|cbn in Hn; lia]. cbn. by rewrite app_nil_r.
  - cbn [kill_line]. rewrite (empty_line _ _ Hh). cbn [t_line]. destruct l as [|c l _] using rev_ind; [cbn; by rewrite app_nil_r|].
    assert (exists x y, l ++ [c] = x :: y) as (x & y & Hxy) by (destruct l; eauto). rewrite Hxy. cbn [negb andb].
    rewrite (last_typed _ _ c l Hh eq_refl). apply Forall_app in Hl as [Hl Hc]. rewrite Forall_singleton in Hc.
    apply Z.eqb_neq in Hc. rewrite Hc. cbn [negb]. rewrite <- Hxy.
    apply back_holds in Hh; [|cbn; by destruct l]. cbn [t_done t_line t_out] in Hh.
    rewrite length_app, Nat.add_sub, take_app_length in Hh.
    apply IH in Hh; cbn [t_done t_line t_out] in *; [|done|rewrite length_app in Hn; cbn in Hn; lia].
    rewrite <- app_assoc in Hh. rewrite length_app, Nat.add_comm. exact Hh.
Qed.

(** ** Typing *)

Lemma deliver_holds s t c t' : ring_holds s t -> 0 <= c < 256 -> deliver c t = Some t' ->
  ring_holds (let s := push_input c (set_w (in_e s) s) in set_w (in_e s) s) t' /\ one_line t'.
Proof.
  intros Hh Hc. unfold deliver. destruct (room t) eqn:Hr; [|done]. intros [= <-]. split; [|apply Forall_nil_2].
  apply commit_holds in Hh. apply (push_holds _ _ c) in Hh; [|unfold room in *; cbn; rewrite length_app, Nat.add_0_r; done|done].
  apply commit_holds in Hh. cbn [t_done t_line t_out app] in Hh. rewrite <- app_assoc in Hh. exact Hh.
Qed.

Lemma ring_full s t : ring_holds s t -> (in_e s =? u32 (in_r s + INPUT_BUF)) = negb (room t).
Proof.
  intros []. unfold room, INPUT_BUF. rewrite rh_e0. destruct (Nat.ltb_spec (length (t_done t) + length (t_line t)) 128); cbn [negb]; [apply Z.eqb_neq|apply Z.eqb_eq]; unfold u32; lia.
Qed.

Lemma ring_room s t : ring_holds s t -> (u32 (in_e s - in_r s) <? INPUT_BUF) = room t.
Proof.
  intros []. unfold room, INPUT_BUF. rewrite rh_e0. destruct (Nat.ltb_spec (length (t_done t) + length (t_line t)) 128); [apply Z.ltb_lt|apply Z.ltb_ge]; unfold u32; lia.
Qed.

Lemma type_char_holds s t c : ring_holds s t -> one_line t -> room t = true -> 0 <= c < 256 ->
  let c' := if c =? chr_cr then chr_nl else c in
  let s' := consputc c' (push_input c' s) in
  ring_holds (if (c' =? chr_nl) || (c' =? ctrl 68) || (in_e s' =? u32 (in_r s' + INPUT_BUF)) then set_w (in_e s') s' else s') (type_char c t) /\
  one_line (type_char c t).
Proof.
  intros Hh Hl Hr Hc c'. assert (0 <= c' < 256) as Hc' by (unfold c', chr_nl; destruct (c =? chr_cr); lia).
  apply (push_holds _ _ c') in Hh; [|done..]. apply (consputc_holds _ _ c') in Hh. cbn [t_done t_line t_out] in Hh.
  assert ((c' =? BACKSPACE) = false) as Hb by (apply Z.eqb_neq; unfold BACKSPACE; lia). rewrite Hb in Hh.
  assert (u8 c' = c') as Hu by (unfold u8; lia). rewrite Hu in Hh. intros s'. change (consputc c' (push_input c' s)) with s' in Hh.
  rewrite (ring_full _ _ Hh). unfold type_char. fold c'. cbv zeta. cbn [t_done t_line t_out].
  destruct ((c' =? chr_nl) || (c' =? ctrl 68) || negb (room _)) eqn:Hx.
  - split; [apply (commit_holds _ _ Hh)|apply Forall_nil_2].
  - split; [done|]. apply Forall_app; split; [done|]. apply Forall_singleton.
    apply orb_false_iff in Hx as [[Hx _]%orb_false_iff _]. by apply Z.eqb_neq in Hx.
Qed.

Lemma tty_char_holds s t c t' : ring_holds s t -> one_line t -> 0 <= c < 256 -> tty_char t c = Some t' ->
  ring_holds (consoleintr_char s c) t' /\ one_line t'.
Proof.
  intros Hh Hl Hc. unfold tty_char, consoleintr_char.
  destruct (c =? ctrl 80); [intros [= <-]; done|].
  destruct (c =? ctrl 85).
  { intros [= <-]. split; [|apply Forall_nil_2]. apply kill_line_holds; [done..|]. pose proof (rh_fit _ _ Hh). change (Z.to_nat INPUT_BUF) with 128%nat. lia. }
  destruct ((c =? ctrl 72) || (c =? 127)).
  { rewrite (empty_line _ _ Hh). destruct (t_line t) as [|x l] eqn:Ht; [by intros [= <-]|]. rewrite <- Ht. intros Hs. apply (inj Some) in Hs as <-.
    split; [|by apply back_one_line]. apply back_holds; [done|]. by rewrite Ht. }
  destruct (c =? 67); [intros Hd; by apply (deliver_holds _ _ _ _ Hh) in Hd|].
  destruct (c =? 81); [intros Hd; by apply (deliver_holds _ _ _ _ Hh) in Hd|].
  rewrite (ring_room _ _ Hh). destruct (negb (c =? 0) && room t) eqn:Hx; intros [= <-]; [|done].
  apply andb_true_iff in Hx as [_ Hr]. by apply type_char_holds.
Qed.

Lemma tty_chars_holds cs s t t' : ring_holds s t -> one_line t -> Forall (fun c => 0 <= c < 256) cs -> tty_chars cs t = Some t' ->
  ring_holds (consoleintr cs s) t' /\ one_line t'.
Proof.
  revert s t. induction cs as [|c cs IH]; intros s t Hh Hl Hcs; [intros [= <-]; done|].
  apply Forall_cons in Hcs as [Hc Hcs]. cbn [tty_chars]. destruct (tty_char t c) as [t1|] eqn:H1; [|done].
  destruct (tty_char_holds _ _ _ _ Hh Hl Hc H1). by apply IH.
Qed.

(** ** Reading *)

Section Read.
Context {B : Type} `{Store fsE B}.
Implicit Types (k : kmem) (b : B).

Lemma ring_empty s t : ring_holds s t -> (in_r s =? in_w s) = match t_done t with [] => true | _ => false end.
Proof.
  intros []. rewrite rh_w0. destruct (t_done t) as [|x l]; cbn [length] in *; [apply Z.eqb_eq|apply Z.eqb_neq]; unfold u32; lia.
Qed.

Lemma next_holds s c d l o : ring_holds s (mktty (c :: d) l o) -> ring_holds (set_r (in_r s + 1) s) (mktty d l o).
Proof.
  intros []. cbn [t_done t_line t_out length] in *. split; cbn [t_done t_line t_out in_r in_w in_e in_buf con_out set_r]; try done; try lia.
  - unfold u32. lia.
  - rewrite rh_w0. unfold u32. lia.
  - rewrite rh_e0. unfold u32. lia.
  - intros i x Hi. rewrite <- (rh_at0 (S i) x Hi). do 2 f_equal. unfold u32. lia.
Qed.

Lemma set_r_back s : 0 <= in_r s < 2 ^ 32 -> set_r (in_r s) (set_r (in_r s + 1) s) = s.
Proof. intros Hr. destruct s. unfold set_r. cbn in *. f_equal. unfold u32. lia. Qed.

Lemma with_cons_twice x y k : with_cons x (with_cons y k) = with_cons x k.
Proof. done. Qed.

Lemma run_read_body target n dst k b d l o :
  ring_holds (km_cons k) (mktty d l o) -> 0 < n -> p_killed (km_proc k) = false ->
  run (read_body target (n, dst)) k b =
  match d with
  | [] => Fail Blocked
  | c :: _ =>
      let k' := with_cons (set_r (in_r (km_cons k) + 1) (km_cons k)) k in
      if c =? ctrl 68 then Ok (inr (false, dst), if n <? target then k else k', b)
      else Ok ((if c =? chr_nl then inr (false, dst ++ [c]) else inl (n - 1, dst ++ [c])), k', b)
  end.
Proof.
  intros Hh Hn Hk. unfold read_body. apply Z.ltb_lt in Hn. rewrite Hn. cbn [negb].
  change (run (pbind get ?f) k b) with (run (f k) k b). cbv beta. rewrite (ring_empty _ _ Hh). cbn [t_done].
  destruct d as [|c d]; [by rewrite Hk|]. rewrite <- (input_at_holds _ _ 0 c Hh eq_refl), Z.add_0_r.
  change (run (pbind (upd_cons ?g) ?f) k b) with (run (f tt) (with_cons (g (km_cons k)) k) b). cbv beta zeta.
  destruct (_ =? ctrl 68); [|by destruct (_ =? chr_nl)]. destruct (n <? target); [|done].
  cbn. rewrite set_r_back by apply (rh_r _ _ Hh). by destruct k.
Qed.

(** The loop of [consoleread], from its middle on. *)
Lemma run_read_loop n target dst fuel k b d l o :
  ring_holds (km_cons k) (mktty d l o) -> Z.of_nat n <= target -> (n < fuel)%nat -> p_killed (km_proc k) = false ->
  match tty_read (Z.of_nat n =? target) n d with
  | Some (dst', d') => exists s', ring_holds s' (mktty d' l o) /\
      run (while_fuel fuel (read_body target) (Z.of_nat n, dst)) k b = Ok ((false, dst ++ dst'), with_cons s' k, b)
  | None => run (while_fuel fuel (read_body target) (Z.of_nat n, dst)) k b = Fail Blocked
  end.
Proof.
  revert fuel dst k d. induction n as [|n IH]; intros [|fuel] dst k d Hh Ht Hf Hk; try lia; cbn [while_fuel tty_read].
  { exists (km_cons k). split; [done|]. rewrite app_nil_r. by destruct k. }
  rewrite run_bind, (run_read_body _ _ _ _ _ _ _ _ Hh) by (done || lia). destruct d as [|c d]; [done|].
  destruct (c =? ctrl 68).
  { destruct (Z.eqb_spec (Z.of_nat (S n)) target) as [He|He].
    - rewrite (proj2 (Z.ltb_ge _ _)) by lia. eexists. split; [by eapply next_holds|]. rewrite app_nil_r. done.
    - rewrite (proj2 (Z.ltb_lt _ _)) by lia. exists (km_cons k). rewrite app_nil_r. split; [done|]. by destruct k. }
  apply next_holds in Hh. destruct (c =? chr_nl); [by eexists|]. cbn [run].
  replace (Z.of_nat (S n) - 1) with (Z.of_nat n) by lia.
  specialize (IH fuel (dst ++ [c]) (with_cons (set_r (in_r (km_cons k) + 1) (km_cons k)) k) d Hh ltac:(lia) ltac:(lia) Hk).
  rewrite (proj2 (Z.eqb_neq (Z.of_nat n) target)) in IH by lia.
  destruct (tty_read false n d) as [[dst' d']|]; cbn; [|done].
  destruct IH as (s' & Hs' & Hrun). exists s'. split; [done|]. rewrite Hrun, <- app_assoc. done.
Qed.

End Read.

Lemma consoleread_spec (ip : nat) (i : inode) (n : Z) (k : kmem) (l : lstore) (t : tty) :
  cached k ip i -> sfs_ops i -> i_has i I_BUSY = true -> i_has i I_VALID = true -> 1 <= i_ref i ->
  ring_holds (km_cons k) t -> p_killed (km_proc k) = false -> 0 <= n < 2 ^ 31 ->
  match tty_read true (Z.to_nat n) (t_done t) with
  | Some (dst, rest) => exists s, run (consoleread ip n) k l = Ok ((Z.of_nat (length dst), dst), with_cons s k, l) /\
      ring_holds s (mktty rest (t_line t) (t_out t))
  | None => run (consoleread ip n) k l = Fail Blocked
  end.
Proof.
  intros Hc Ho Hb Hv Hr Hh Hk Hn. destruct t as [d li o]. cbn [t_done t_line t_out]. unfold consoleread.
  run_step run_vop_iunlock. assert (s32 n = n) as -> by (unfold s32; lia). unfold read_loop.
  set (k1 := set_inode ip (unlocked i) k).
  pose proof (run_read_loop (Z.to_nat n) n [] (Z.to_nat n + 1) k1 l d li o Hh ltac:(lia) ltac:(lia) Hk) as Hloop.
  rewrite Z2Nat.id, Z.eqb_refl in Hloop by lia. destruct (tty_read true (Z.to_nat n) d) as [[dst rest]|].
  - destruct Hloop as (s & Hs & Hrun). exists s. split; [|done]. erewrite run_bind_Ok by exact Hrun. cbn [app].
    run_step (run_vop_ilock ip (unlocked i)).
    + rewrite locked_unlocked by done. cbn. do 2 f_equal. subst k1. unfold set_inode. cbn.
      by rewrite list_insert_insert_eq, list_insert_id by done.
    + by apply (cached_set _ _ i).
    + apply unlocked_busy.
    + by rewrite unlocked_valid.
  - by erewrite run_bind_Fail by exact Hloop.
Qed.

(** C35: the console is a terminal with line editing.  Characters typed in any
    number of interrupts leave the ring and the output as the terminal says:
    backspace and control-U take back what was typed on the line, with its
    echo, and nothing before it; and a read of at most [n] characters returns
    the first line, or the part of it that fits, or nothing for a control-D,
    and leaves the rest for later reads; it waits exactly when there is no
    complete line. *)
Theorem console_lines (cs : list Z) (s : console) (t t' : tty) (ip : nat) (i : inode) (n : Z) (k : kmem) (l : lstore) :
  ring_holds s t -> one_line t -> Forall (fun c => 0 <= c < 256) cs -> tty_chars cs t = Some t' ->
  cached k ip i -> sfs_ops i -> i_has i I_BUSY = true -> i_has i I_VALID = true -> 1 <= i_ref i ->
  km_cons k = consoleintr cs s -> p_killed (km_proc k) = false -> 0 <= n < 2 ^ 31 ->
  ring_holds (consoleintr cs s) t' /\ one_line t' /\
  match tty_read true (Z.to_nat n) (t_done t') with
  | Some (dst, rest) => exists s', run (consoleread ip n) k l = Ok ((Z.of_nat (length dst), dst), with_cons s' k, l) /\
      ring_holds s' (mktty rest (t_line t') (t_out t'))
  | None => run (consoleread ip n) k l = Fail Blocked
  end.
Proof.
  intros Hh Hl Hcs Ht Hc Ho Hb Hv Hr Hk Hp Hn. destruct (tty_chars_holds _ _ _ _ Hh Hl Hcs Ht) as [Hh' Hl'].
  split_and!; [done..|]. apply (consoleread_spec ip i); try done. by rewrite Hk.
Qed.

Definition demo_tty_inode : inode := mkinode 1 5 1 3 3 1 1 1 0 (replicate 13 0) SFS_INODE (Some sfs_node_fileops).
(** The indices are about to wrap around. *)
Definition demo_console : console := mkconsole (replicate 128 0) (2 ^ 32 - 2) (2 ^ 32 - 2) (2 ^ 32 - 2) [].
Definition demo_kernel (s : console) : kmem := mkkmem [demo_tty_inode] [] ∅ [] s (mkuproc 0 [] false [] 0).
Definition demo_log : lstore := mklstore (mkgeom 1 2 10) ∅ ∅ ∅ ∅ false.
(** [x], control-U, [ab], backspace, [c], carriage return, [d] *)
Definition demo_keys : list Z := [120; 21; 97; 98; 8; 99; 13; 100].

Lemma demo_ring : ring_holds demo_console (mktty [] [] []).
Proof. split; try done; cbn; lia. Qed.

(** What was typed is read as the line [ac]; [d] is not read yet. *)
Lemma console_lines_witness : exists s',
  run (consoleread 0 10) (demo_kernel (consoleintr demo_keys demo_console)) demo_log =
    Ok ((3, [97; 99; 10]), with_cons s' (demo_kernel (consoleintr demo_keys demo_console)), demo_log) /\
  ring_holds s' (mktty [] [100] [120; 8; 32; 8; 97; 98; 8; 32; 8; 99; 10; 100]).
Proof.
  destruct (console_lines demo_keys demo_console (mktty [] [] [])
    (mktty [97; 99; 10] [100] [120; 8; 32; 8; 97; 98; 8; 32; 8; 99; 10; 100]) 0 demo_tty_inode 10
    (demo_kernel (consoleintr demo_keys demo_console)) demo_log) as (_ & _ & s' & Hrun & Hs').
  - apply demo_ring.
  - apply Forall_nil_2.
  - repeat apply Forall_cons_2; try apply Forall_nil_2; lia.
  - reflexivity.
  - reflexivity.
  - by right.
  - reflexivity.
  - reflexivity.
  - by apply Z.leb_le.
  - reflexivity.
  - reflexivity.
  - lia.
  - exists s'. split; [exact Hrun|exact Hs'].
Defined.
