(* ===== verification/File.v ===== *)
(** * Pipes and open files: [pipe.c] and [file.c] *)

From stdpp Require Import base gmap strings numbers list.
From S2P Require Import Prelude Prog Log State SfsInode FatDir Vop.

(** ** Pipes *)

Definition get_pipe (p : nat) : fsprog pipe :=
  k <- get;;
  match km_pipes k !! p with
  | Some x => Ret x
  | None => undef "not a pipe"
  end.
Definition put_pipe (p : nat) (x : pipe) : fsprog unit :=
  modify (fun k => with_pipes (<[p := x]> (km_pipes k)) k).

(** [kalloc] and [kfree] of a pipe's page. *)
Definition kalloc_page : fsprog (option nat) :=
  k <- get;;
  match km_pages k with
  | [] => Ret None
  | p :: l => put (with_pages l k);;; Ret (Some p)
  end.
Definition kfree_page (p : nat) : fsprog unit :=
  modify (fun k => with_pages (p :: km_pages k) (with_pipes (delete p (km_pipes k)) k)).

Definition pipeclose (p : nat) (writable : bool) : fsprog unit :=
  x <- get_pipe p;;
  let x := if writable then mkpipe (pi_data x) (pi_nread x) (pi_nwrite x) (pi_readopen x) false
           else mkpipe (pi_data x) (pi_nread x) (pi_nwrite x) false (pi_writeopen x) in
  put_pipe p x;;;
  if negb (pi_readopen x) && negb (pi_writeopen x) then kfree_page p else Ret tt.

(** One byte put into, and taken out of, the ring. *)
Definition pipe_put (c : Z) (x : pipe) : pipe :=
  mkpipe (<[Z.to_nat (pi_nwrite x mod PIPESIZE) := c]> (pi_data x)) (pi_nread x)
    (u32 (pi_nwrite x + 1)) (pi_readopen x) (pi_writeopen x).
Definition pipe_get (x : pipe) : Z * pipe :=
  (nth (Z.to_nat (pi_nread x mod PIPESIZE)) (pi_data x) 0,
   mkpipe (pi_data x) (u32 (pi_nread x + 1)) (pi_nwrite x) (pi_readopen x) (pi_writeopen x)).

Definition killed : fsprog bool := gets (fun k => p_killed (km_proc k)).

Definition pipewrite (p : nat) (addr : list Z) (n : Z) : fsprog Z :=
  r <- for_upto (Z.to_nat n) 0 (fun i =>
    x <- get_pipe p;;
    if pi_nwrite x =? u32 (pi_nread x + PIPESIZE) then              (* pipewrite-full *)
      kd <- killed;;
      if negb (pi_readopen x) || kd then Ret (Some (-1)) else Stop Blocked
    else match addr !! Z.to_nat i with
         | Some c => put_pipe p (pipe_put c x);;; Ret None
         | None => undef "read outside the source buffer"
         end);;
  Ret (default n r).

(** The copy loop: at most [n] bytes. *)
Fixpoint pipe_take (n : nat) (x : pipe) : list Z * pipe :=
  match n with
  | O => ([], x)
  | S n =>
      if pi_nread x =? pi_nwrite x then ([], x)
      else
        let '(c, x) := pipe_get x in
        let '(l, x) := pipe_take n x in
        (c :: l, x)
  end.

Definition piperead (p : nat) (n : Z) : fsprog (Z * list Z) :=
  x <- get_pipe p;;
  if (pi_nread x =? pi_nwrite x) && pi_writeopen x then              (* pipe-empty *)
    kd <- killed;;
    if kd : bool then Ret (-1, []) else Stop Blocked
  else
    let '(l, x) := pipe_take (Z.to_nat n) x in
    put_pipe p x;;;
    Ret (Z.of_nat (length l), l).

(** ** Open files *)

Definition set_f_ref (v : Z) (f : file) : file :=
  mkfile (f_type f) (s32 v) (f_readable f) (f_writable f) (f_pipe f) (f_ip f) (f_off f).
Definition set_f_off (v : Z) (f : file) : file :=
  mkfile (f_type f) (f_ref f) (f_readable f) (f_writable f) (f_pipe f) (f_ip f) (u32 v).
Definition free_file (f : file) : file :=
  mkfile FD_NONE 0 (f_readable f) (f_writable f) (f_pipe f) (f_ip f) (f_off f).

Fixpoint find_file (l : list file) (i : nat) : option nat :=
  match l with
  | [] => None
  | f :: l => if f_ref f =? 0 then Some i else find_file l (S i)
  end.

(** Allocate a file structure. *)
Definition filealloc : fsprog (option nat) :=
  k <- get;;
  match find_file (km_ftable k) 0 with
  | Some f => upd_file f (set_f_ref 1);;; Ret (Some f)
  | None => Ret None
  end.

(** Increment ref count for file f. *)
Definition filedup (f : nat) : fsprog nat :=
  x <- get_file f;;
  if f_ref x <? 1 then panic "filedup"
  else upd_file f (set_f_ref (f_ref x + 1));;; Ret f.

(** Close file f.  (Decrement ref count, close when reaches 0.) *)
Definition fileclose (f : nat) : fsprog unit :=
  x <- get_file f;;
  if f_ref x <? 1 then panic "fileclose"
  else
    upd_file f (set_f_ref (f_ref x - 1));;;
    if 0 <? f_ref x - 1 then Ret tt
    else
      upd_file f free_file;;;
      match f_type x with
      | FD_PIPE => pipeclose (f_pipe x) (f_writable x)
      | FD_INODE => begin_trans_;;; vop_ref_dec (f_ip x);;; commit_trans_
      | FD_NONE => Ret tt
      end.

Definition pipe_end (writable : bool) (p : nat) (f : file) : file :=
  mkfile FD_PIPE (f_ref f) (negb writable) writable p (f_ip f) (f_off f).

Definition opt_close (f : option nat) : fsprog unit :=
  match f with
  | Some f => fileclose f
  | None => Ret tt
  end.

Definition pipealloc : fsprog (option (nat * nat)) :=
  f0 <- filealloc;;
  f1 <- (match f0 with Some _ => filealloc | None => Ret None end);;
  p <- (match f0, f1 with Some _, Some _ => kalloc_page | _, _ => Ret None end);;
  match f0, f1, p with
  | Some f0, Some f1, Some p =>
      put_pipe p (mkpipe (replicate 512 0) 0 0 true true);;;
      upd_file f0 (pipe_end false p);;;
      upd_file f1 (pipe_end true p);;;
      Ret (Some (f0, f1))
  | _, _, _ =>
      opt_close f0;;;
      opt_close f1;;;
      Ret None
  end.

Section File.
Context `{DevSw} `{Machine}.

(** Get metadata about file f. *)
Definition filestat (f : nat) : fsprog (Z * option stat) :=
  x <- get_file f;;
  match f_type x with
  | FD_INODE =>
      vop_ilock (f_ip x);;;
      st <- vop_fstat (f_ip x);;
      vop_iunlock (f_ip x);;;
      Ret (0, Some st)
  | _ => Ret (-1, None)
  end.

(** Read from file f. *)
Definition fileread (f : nat) (n : Z) : fsprog (Z * list Z) :=
  x <- get_file f;;
  if negb (f_readable x) then Ret (-1, [])
  else match f_type x with
  | FD_PIPE => piperead (f_pipe x) n
  | FD_INODE =>
      vop_ilock (f_ip x);;;
      let* (r, dst) := vop_read (f_ip x) (f_off x) (u32 n) in
      (if 0 <? r then upd_file f (fun y => set_f_off (f_off y + r) y) else Ret tt);;;
      vop_iunlock (f_ip x);;;
      Ret (r, dst)
  | FD_NONE => panic "fileread"
  end.

(** [((LOGSIZE-1-1-2) / 2) * 512] *)
Definition write_max : Z := (LOGSIZE - 1 - 1 - 2) / 2 * 512.

(** One round of the loop: at most [write_max] bytes in a transaction. *)
Definition filewrite_round (f ip : nat) (addr : list Z) (n i : Z) : fsprog (Z + Z) :=
  if negb (i <? n) then Ret (inr i)
  else
    let n1 := Z.min (n - i) write_max in
    begin_trans_;;;
    vop_ilock ip;;;
    y <- get_file f;;
    r <- vop_write ip (drop (Z.to_nat i) addr) (f_off y) n1;;
    (if 0 <? r then upd_file f (fun y => set_f_off (f_off y + r) y) else Ret tt);;;
    vop_iunlock ip;;;
    commit_trans_;;;
    if r <? 0 then Ret (inr i)
    else if negb (r =? n1) then panic "short filewrite"
    else Ret (inl (i + r)).

(** Write to file f: a few blocks at a time to avoid exceeding the maximum log
    transaction size. *)
Definition filewrite (f : nat) (addr : list Z) (n : Z) : fsprog Z :=
  x <- get_file f;;
  if negb (f_writable x) then Ret (-1)
  else match f_type x with
  | FD_PIPE => pipewrite (f_pipe x) addr n
  | FD_INODE =>
      i <- while_fuel (Z.to_nat (n / write_max) + 2) (filewrite_round f (f_ip x) addr n) 0;;
      Ret (if i =? n then n else -1)
  | FD_NONE => panic "filewrite"
  end.
End File.
