(* ===== verification/FileSpec.v ===== *)
(** * Writing through an open file

    [filewrite] splits a write into transactions.  Here its rounds are put
    together: what the whole call does to a file of sfs, and which contents a
    power failure in the middle of it can leave. *)

From stdpp Require Import base gmap strings numbers list.
From S2P Require Import Prelude Prog Bio Layout Log LStore LogRecover LogRefine Storage State FsLogic.
From S2P Require Import SfsBlock SfsInode SfsFile Vop VopSpec File.

(** ** Programs that leave the durable content alone *)

Lemma in_trans_while {K S R} fuel (body : S -> prog fsE K (S + R)) s :
  (forall s, in_trans (body s)) -> in_trans (while_fuel fuel body s).
Proof.
  intros Hb. revert s. induction fuel as [|fuel IH]; intros s; [done|]. cbn [while_fuel].
  apply in_trans_bind; [done|]. by intros [].
Qed.

Ltac in_trans_tac :=
  repeat first
    [ apply in_trans_bind; [|intros ?] | apply in_trans_while; intros ?
    | progress case_match | progress cbv zeta
    | solve [cbn; repeat (split || intros ? || case_match); done] ].

Lemma in_trans_balloc dev : in_trans (balloc dev).
Proof. unfold balloc, readsb, bzero. in_trans_tac. Qed.

Lemma in_trans_bmap ip bn : in_trans (bmap ip bn).
Proof. unfold bmap. in_trans_tac; apply in_trans_balloc. Qed.

Lemma in_trans_iupdate ip : in_trans (sfs_iupdate ip).
Proof. unfold sfs_iupdate. in_trans_tac. Qed.

(** Whenever the power fails during [p], the disk is as it was before. *)
Definition silent {R} (p : fsprog R) (k : kmem) (l : lstore) : Prop :=
  forall d, d ∈ disks p k l -> d = ls_durable l.

Lemma in_trans_silent {R} (p : fsprog R) k l : in_trans p -> silent p k l.
Proof. intros Hp. exact (proj1 (in_trans_durable p k l Hp)). Qed.

Lemma silent_get_inode {R} ip i (f : inode -> fsprog R) k l :
  cached k ip i -> silent (f i) k l -> silent (pbind (get_inode ip) f) k l.
Proof. intros Hc Hs d. simpl. rewrite Hc. simpl. apply Hs. Qed.

Lemma silent_vop_both {A} (p q : nat -> fsprog A) ip i k l :
  cached k ip i -> sfs_ops i -> silent (p ip) k l -> silent (vop_both p q ip) k l.
Proof.
  intros Hc Ho Hs d. unfold vop_both, in_ops, get_inode. simpl. rewrite Hc. simpl.
  destruct Ho as [-> | ->]; apply Hs.
Qed.

Lemma silent_writei `{DevSw} ip i k l src off n :
  cached k ip i -> i_type i <> T_DEV -> silent (sfs_writei ip src off n) k l.
Proof.
  intros Hc Ht. unfold sfs_writei. eapply silent_get_inode; [done|].
  rewrite (proj2 (Z.eqb_neq _ T_DEV)) by done. apply in_trans_silent.
  in_trans_tac; first [apply in_trans_bmap|apply in_trans_iupdate].
Qed.

(** A step that leaves the durable content alone, seen from a power failure
    later on. *)
Lemma disks_step {R S} (p : fsprog R) (f : R -> fsprog S) k l r k' l' d0 d :
  run p k l = Ok (r, k', l') -> silent p k l -> ls_durable l = d0 ->
  d ∈ disks (pbind p f) k l -> d = d0 \/ d ∈ disks (f r) k' l'.
Proof.
  intros Hr Hs <- [Hd|(r1 & k1 & l1 & Hr1 & Hd)]%disks_bind; [left; by apply Hs|].
  right. rewrite Hr in Hr1. by simplify_eq.
Qed.

(** ** Open files *)

Definition set_file (f : nat) (x : file) (k : kmem) : kmem := with_ftable (<[f := x]> (km_ftable k)) k.

Lemma run_get_file f x k (l : lstore) : km_ftable k !! f = Some x -> run (get_file f) k l = Ok (x, k, l).
Proof. intros Hx. simpl. by rewrite Hx. Qed.

Lemma disks_get_file {R} f x (g : file -> fsprog R) k (l : lstore) :
  km_ftable k !! f = Some x -> disks (pbind (get_file f) g) k l = disks (g x) k l.
Proof. intros Hx. simpl. by rewrite Hx. Qed.

Lemma run_upd_file f g x k (l : lstore) :
  km_ftable k !! f = Some x -> run (upd_file f g) k l = Ok (tt, set_file f (g x) k, l).
Proof. intros Hx. simpl. unfold set_file. by rewrite (alter_insert _ _ _ _ Hx). Qed.

Definition begun (l : lstore) : lstore :=
  mklstore (ls_geom l) (ls_view l) (ls_durable l) (ls_held l) (ls_logged l) true.
Definition committed_now (l : lstore) : lstore := mklstore (ls_geom l) (ls_view l) (ls_view l) ∅ ∅ false.

Lemma run_begin_trans k (l : lstore) : ls_trans l = false -> run begin_trans_ k l = Ok (tt, k, begun l).
Proof. intros Ht. simpl. unfold ls_begin. by rewrite Ht. Qed.

Lemma run_commit_trans k (l : lstore) : ls_held l = ∅ -> run commit_trans_ k l = Ok (tt, k, committed_now l).
Proof. intros Hh. simpl. unfold ls_commit. by rewrite decide_True. Qed.

Lemma silent_begin_trans k (l : lstore) : ls_trans l = false -> silent begin_trans_ k l.
Proof.
  intros Ht d. simpl. unfold ls_trace, ls_begin. simpl. unfold ls_begin. rewrite Ht. simpl.
  rewrite !elem_of_cons, elem_of_nil. naive_solver.
Qed.

Lemma disks_commit_trans k (l : lstore) d :
  ls_held l = ∅ -> d ∈ disks commit_trans_ k l -> d = ls_durable l \/ d = ls_view l.
Proof.
  intros Hh. simpl. unfold ls_trace. simpl. unfold ls_commit. rewrite decide_True by done. simpl.
  rewrite !elem_of_cons, elem_of_nil. naive_solver.
Qed.

(** ** The same blocks, the same inode up to its flags *)

Section Same.
Context (dev : Z) (l l' : lstore).
Hypothesis Hg : ls_geom l' = ls_geom l.
Hypothesis Hv : ls_view l' = ls_view l.

Lemma lget_same b : lget l' b = lget l b.
Proof. unfold lget. by rewrite Hv. Qed.

Lemma super_same : super_of dev l' = super_of dev l.
Proof. unfold super_of. by rewrite lget_same. Qed.

Lemma volume_same : volume_ok dev l -> volume_ok dev l'.
Proof. destruct l, l'. simpl in *. subst. intros []. by split. Qed.

Lemma slot_same i s : slot i l' s = slot i l s.
Proof. unfold slot. by rewrite lget_same. Qed.

Lemma fbyte_same i x : fbyte i l' x = fbyte i l x.
Proof. unfold fbyte. by rewrite slot_same, lget_same. Qed.

Lemma file_same i : file_ok dev i l -> file_ok dev i l'.
Proof. destruct l, l'. simpl in *. subst. intros []. by split. Qed.

Lemma iblock_same i : iblock_ok dev i l -> iblock_ok dev i l'.
Proof. destruct l, l'. simpl in *. subst. intros []. by split. Qed.

Lemma foreign_same i x : foreign dev i l x -> foreign dev i l' x.
Proof. destruct l, l'. simpl in *. by subst. Qed.

Lemma nfree_same : nfree dev l' = nfree dev l.
Proof. destruct l, l'. simpl in *. by subst. Qed.
End Same.

Lemma file_flags dev v i l : file_ok dev i l -> file_ok dev (set_i_flags v i) l.
Proof. intros []. by split. Qed.

Lemma iblock_flags dev v i l : iblock_ok dev i l -> iblock_ok dev (set_i_flags v i) l.
Proof. intros []. by split. Qed.

(** ** What a write does to a file *)

(** The inode on disk is the one in memory. *)
Definition stored (dev : Z) (i : inode) (l : lstore) : Prop :=
  dinode_ok (inode_dinode i) /\ get_dinode (i_inum i) (lget l (dev, IBLOCK (i_inum i))) = inode_dinode i.

(** [src], from its start, has been written at [off]: [n] bytes of it. *)
Record file_wrote (dev : Z) (i : inode) (l : lstore) (off n : Z) (src : list Z) (i' : inode) (l' : lstore) : Prop := {
  fw_vol : volume_ok dev l';
  fw_file : file_ok dev i' l';
  fw_iblock : iblock_ok dev i' l';
  fw_stored : stored dev i' l';
  fw_size : i_size i' = Z.max (i_size i) (off + n);
  fw_same : i' = set_i_size (i_size i') (set_i_addrs (i_addrs i') i);
  fw_byte : forall x, 0 <= x < 140 * 512 ->
    fbyte i' l' x = if (off <=? x) && (x <? off + n) then nth (Z.to_nat (x - off)) src 0 else fbyte i l x;
  fw_foreign : forall x, foreign dev i l x -> foreign dev i' l' x;
  fw_other : forall x, foreign dev i l x -> x <> (dev, IBLOCK (i_inum i)) -> lget l' x = lget l x;
  fw_inodes : forall j, i_inum i mod IPB <> j mod IPB ->
    get_dinode j (lget l' (dev, IBLOCK (i_inum i))) = get_dinode j (lget l (dev, IBLOCK (i_inum i)));
  fw_geom : ls_geom l' = ls_geom l;
  fw_super : super_of dev l' = super_of dev l;
}.

Lemma file_wrote_nil dev i l off src :
  volume_ok dev l -> file_ok dev i l -> iblock_ok dev i l -> stored dev i l -> 0 <= off <= i_size i ->
  file_wrote dev i l off 0 src i l.
Proof.
  intros Hv Hi Hb Hs Ho. pose proof (fo_size _ _ _ Hi). split; auto.
  - lia.
  - by rewrite set_addrs_same, set_size_same by lia.
  - intros x Hx. by replace ((off <=? x) && (x <? off + 0)) with false by lia.
Qed.

Lemma file_wrote_app dev i l off m n src i1 l1 i2 l2 :
  0 <= m -> 0 <= n -> 0 <= off ->
  file_wrote dev i l off m src i1 l1 -> file_wrote dev i1 l1 (off + m) n (drop (Z.to_nat m) src) i2 l2 ->
  file_wrote dev i l off (m + n) src i2 l2.
Proof.
  intros Hm Hn Ho H1 H2. pose proof (fw_same _ _ _ _ _ _ _ _ H1) as E1.
  assert (i_inum i1 = i_inum i) as En by (rewrite E1; done).
  split; [apply H2|apply H2|apply H2|apply H2|..].
  - rewrite (fw_size _ _ _ _ _ _ _ _ H2), (fw_size _ _ _ _ _ _ _ _ H1). lia.
  - rewrite (fw_same _ _ _ _ _ _ _ _ H2) at 1. by rewrite E1.
  - intros x Hx. rewrite (fw_byte _ _ _ _ _ _ _ _ H2), (fw_byte _ _ _ _ _ _ _ _ H1) by done.
    rewrite !nth_lookup, lookup_drop.
    destruct (Z.leb_spec (off + m) x), (Z.ltb_spec x (off + m + n)), (Z.leb_spec off x), (Z.ltb_spec x (off + m)),
      (Z.ltb_spec x (off + (m + n))); simpl; try lia; try done.
    do 2 f_equal. lia.
  - intros x Hx. by apply (fw_foreign _ _ _ _ _ _ _ _ H2), (fw_foreign _ _ _ _ _ _ _ _ H1).
  - intros x Hx Hne. rewrite (fw_other _ _ _ _ _ _ _ _ H2), (fw_other _ _ _ _ _ _ _ _ H1); try done.
    + by apply (fw_foreign _ _ _ _ _ _ _ _ H1).
    + by rewrite En.
  - intros j Hj. rewrite <- (fw_inodes _ _ _ _ _ _ _ _ H1 j Hj), <- En.
    apply (fw_inodes _ _ _ _ _ _ _ _ H2). by rewrite En.
  - rewrite (fw_geom _ _ _ _ _ _ _ _ H2). apply H1.
  - rewrite (fw_super _ _ _ _ _ _ _ _ H2). apply H1.
Qed.

Lemma file_wrote_same dev i l off n src i' l1 l2 :
  ls_geom l2 = ls_geom l1 -> ls_view l2 = ls_view l1 ->
  file_wrote dev i l off n src i' l1 -> file_wrote dev i l off n src i' l2.
Proof.
  intros Hg Hv Hw.
  split; [eapply volume_same, Hw; done|eapply file_same, Hw; done|eapply iblock_same, Hw; done|..];
    destruct l1, l2; simpl in *; subst; by destruct Hw.
Qed.

Lemma addr_slot i l s : (s < 13)%nat -> addr_at i s = slot i l (if (s =? 12)%nat then 140 else Z.of_nat s).
Proof.
  intros Hs. unfold slot. destruct (Nat.eqb_spec s 12) as [->|Hne]; [done|].
  rewrite (proj2 (Z.eqb_neq _ _)), (proj2 (Z.ltb_lt _ _)) by lia. by rewrite Nat2Z.id.
Qed.

Lemma file_addrs dev i l : volume_ok dev l -> file_ok dev i l -> Forall uint_range (i_addrs i).
Proof.
  intros Hv Hi. apply Forall_lookup. intros s a Ha. pose proof (lookup_lt_Some _ _ _ Ha) as Hs.
  rewrite (fo_len _ _ _ Hi) in Hs. apply (nth_lookup_Some _ _ 0) in Ha. change (addr_at i s = a) in Ha. subst a.
  rewrite (addr_slot i l) by done. set (s' := if (s =? 12)%nat then 140 else Z.of_nat s).
  destruct (decide (slot i l s' = 0)) as [->|Hne]; [unfold uint_range; lia|].
  destruct (fo_slot _ _ _ Hi s' ltac:(unfold s'; destruct (Nat.eqb_spec s 12); lia) Hne) as (Hd & _).
  pose proof (data_blk_size _ _ Hv _ Hd). pose proof (vo_size _ _ Hv). unfold uint_range. lia.
Qed.

Lemma stored_write dev i l off n src i' l' :
  iblock_ok dev i l -> write_post dev i l off n src i' l' -> stored dev i l -> stored dev i' l'.
Proof.
  intros Hb Hw [Hok Hg]. pose proof (wp_disk _ _ _ _ _ _ _ _ Hw) as Ed. cbv zeta in Ed.
  pose proof (wp_same _ _ _ _ _ _ _ _ Hw) as Es. assert (i_inum i' = i_inum i) as En by (by rewrite Es).
  unfold stored. rewrite En, Ed. destruct (Z.ltb_spec (i_size i) (off + n)) as [Hlt|Hle].
  2: { by rewrite (wp_fixed _ _ _ _ _ _ _ _ Hw). }
  assert (dinode_ok (inode_dinode i')) as Hok'; [|by rewrite get_put_dinode by (done || apply Hb)].
  pose proof (wp_file _ _ _ _ _ _ _ _ Hw) as Hi'. pose proof (fo_size _ _ _ Hi').
  destruct Hok as (? & ? & ? & ? & _). unfold dinode_ok, inode_dinode. cbn -[Z.pow].
  split_and!; [by rewrite Es..|unfold uint_range; lia|apply Hi'|].
  eapply file_addrs; [apply Hw|done].
Qed.

Lemma unlocked_locked i : i_has i I_BUSY = false -> unlocked (locked i) = i.
Proof.
  change I_BUSY with (2 ^ 0). rewrite i_has_bit by done. intros Hb. unfold locked, unlocked. cbn [set_i_flags i_flags].
  replace (Z.land (Z.lor (i_flags i) I_BUSY) (Z.lnot I_BUSY)) with (i_flags i); [by destruct i|].
  apply Z.bits_inj'. intros m Hm. rewrite Z.land_spec, Z.lor_spec, Z.lnot_spec by done. change I_BUSY with (2 ^ 0).
  destruct (decide (m = 0)) as [->|Hne]; [by rewrite Hb|].
  by rewrite Z.pow2_bits_false, orb_false_r, andb_true_r by done.
Qed.

Lemma locked_busy i : i_has (locked i) I_BUSY = true.
Proof.
  change I_BUSY with (2 ^ 0). rewrite i_has_bit by done. cbn [locked set_i_flags i_flags].
  rewrite Z.lor_spec. apply orb_true_r.
Qed.

Lemma locked_valid i : i_has (locked i) I_VALID = i_has i I_VALID.
Proof.
  change I_VALID with (2 ^ 1). rewrite !i_has_bit by done. cbn [locked set_i_flags i_flags].
  rewrite Z.lor_spec. apply orb_false_r.
Qed.

(** A write with the inode locked for it. *)
Lemma file_wrote_post dev i l off n src i' l' :
  i_has i I_BUSY = false -> iblock_ok dev i l -> stored dev i l ->
  write_post dev (locked i) l off n src i' l' -> file_wrote dev i l off n src (unlocked i') l'.
Proof.
  intros Hb Hib Hs Hw. pose proof (stored_write _ _ _ _ _ _ _ _ (iblock_flags _ _ _ _ Hib) Hw Hs) as Hs'.
  split; [apply Hw| | |exact Hs'|exact (wp_size _ _ _ _ _ _ _ _ Hw)| |apply Hw|apply Hw|apply Hw| |apply Hw|apply Hw].
  - eapply file_flags, Hw.
  - eapply iblock_flags, Hw.
  - assert (unlocked i' = set_i_size (i_size i') (set_i_addrs (i_addrs i') (unlocked (locked i)))) as E
      by (by rewrite (wp_same _ _ _ _ _ _ _ _ Hw) at 1).
    rewrite unlocked_locked in E by done. exact E.
  - intros j Hj. pose proof (wp_disk _ _ _ _ _ _ _ _ Hw) as Ed. cbv zeta in Ed.
    change (i_inum (locked i)) with (i_inum i) in Ed. rewrite Ed. case_match; [|done].
    rewrite get_put_dinode_ne; [done|done|apply (wp_file _ _ _ _ _ _ _ _ Hw)|apply Hib].
Qed.

(** ** [filewrite] *)

(** Entry [f] of the file table is open on inode [ip], a file of sfs that is
    in the cache and not locked; nothing is going on on the disk.  Two limits
    of the volume are part of it: the log has at least [LOGSIZE] blocks
    ([of_log]), and one block holds the whole bitmap ([of_bitmap]), since with
    several of them a round of [filewrite] can touch more blocks than the log
    takes. *)
Record sfs_opened (dev : Z) (f ip : nat) (x : file) (i : inode) (k : kmem) (l : lstore) : Prop := {
  of_file : km_ftable k !! f = Some x;
  of_writable : f_writable x = true;
  of_type : f_type x = FD_INODE;
  of_ip : f_ip x = ip;
  of_off : 0 <= f_off x <= i_size i;
  of_cached : cached k ip i;
  of_ops : sfs_ops i;
  of_unlocked : i_has i I_BUSY = false;
  of_valid : i_has i I_VALID = true;
  of_ref : 1 <= i_ref i;
  of_regular : i_type i <> T_DEV;
  of_vol : volume_ok dev l;
  of_fok : file_ok dev i l;
  of_iblock : iblock_ok dev i l;
  of_stored : stored dev i l;
  of_held : ls_held l = ∅;
  of_logged : ls_logged l = ∅;
  of_trans : ls_trans l = false;
  of_durable : ls_durable l = ls_view l;
  of_log : LOGSIZE <= g_size (ls_geom l);
  of_bitmap : sb_size (super_of dev l) <= SFSBPB;
}.

(** The file and the kernel's memory after a write of [m] bytes. *)
Definition moved (m : Z) (x : file) : file := set_f_off (f_off x + m) x.
Definition after_write (f ip : nat) (m : Z) (x : file) (i : inode) (k : kmem) : kmem :=
  set_file f (moved m x) (set_inode ip i k).

Lemma moved_moved m n x : 0 <= m -> 0 <= f_off x -> f_off x + m < 2 ^ 32 -> moved n (moved m x) = moved (m + n) x.
Proof.
  intros. unfold moved, set_f_off. simpl. rewrite (u32_small (f_off x + m)) by lia.
  by rewrite Z.add_assoc.
Qed.

Lemma after_after f ip m n x i i' k : 0 <= m -> 0 <= f_off x -> f_off x + m < 2 ^ 32 ->
  after_write f ip n (moved m x) i' (after_write f ip m x i k) = after_write f ip (m + n) x i' k.
Proof.
  intros. unfold after_write. rewrite moved_moved by done. unfold set_file, set_inode, with_ftable, with_icache. simpl.
  by rewrite !list_insert_insert_eq.
Qed.

Lemma moved_off m x : 0 <= f_off x + m < 2 ^ 32 -> f_off (moved m x) = f_off x + m.
Proof. intros. simpl. by rewrite u32_small by lia. Qed.

(** The file is open after a write as it was before. *)
Lemma open_after dev f ip m x i k l src i' l0 :
  sfs_opened dev f ip x i k l -> 0 <= m -> f_off x + m <= 140 * 512 ->
  file_wrote dev i l (f_off x) m src i' l0 ->
  sfs_opened dev f ip (moved m x) i' (after_write f ip m x i' k) (committed_now l0).
Proof.
  intros Ho Hm Hmax Hw. pose proof (of_off _ _ _ _ _ _ _ Ho) as Hoff. pose proof (fw_same _ _ _ _ _ _ _ _ Hw) as Es.
  assert (file_wrote dev i l (f_off x) m src i' (committed_now l0)) as Hw' by (by eapply file_wrote_same, Hw).
  split; try apply Hw'; try done.
  - simpl. apply list_lookup_insert_eq. eapply lookup_lt_Some, Ho.
  - apply Ho.
  - apply Ho.
  - apply Ho.
  - rewrite moved_off, (fw_size _ _ _ _ _ _ _ _ Hw) by lia. lia.
  - eapply (cached_set ip i' i). apply Ho.
  - rewrite Es. exact (of_ops _ _ _ _ _ _ _ Ho).
  - rewrite Es. exact (of_unlocked _ _ _ _ _ _ _ Ho).
  - rewrite Es. exact (of_valid _ _ _ _ _ _ _ Ho).
  - rewrite Es. exact (of_ref _ _ _ _ _ _ _ Ho).
  - rewrite Es. exact (of_regular _ _ _ _ _ _ _ Ho).
  - simpl. rewrite (fw_geom _ _ _ _ _ _ _ _ Hw). apply Ho.
  - rewrite (fw_super _ _ _ _ _ _ _ _ Hw'). apply Ho.
Qed.

Lemma write_max_eq : write_max = 1536.
Proof. done. Qed.

(** The transactions of a write of [r] bytes. *)
Definition rounds (r : Z) : nat := Z.to_nat ((r + 1535) / 1536).

Lemma rounds_step r : 0 < r -> rounds r = S (rounds (r - Z.min r 1536)).
Proof. unfold rounds. lia. Qed.

(** How many of the [n] bytes get written at [off]: all, or whole rounds up
    to the one that would make the file longer than [MAXFILE] blocks. *)
Definition bytes_fit (off n : Z) : Z :=
  if off + n <=? MAXFILE * SFS_BSIZE then n else write_max * ((MAXFILE * SFS_BSIZE - off) / write_max).

Section Filewrite.
Context `{DevSw} (dev : Z) (f ip : nat) (addr : list Z) (n : Z).
Hypothesis Hn : n <= Z.of_nat (length addr).

(** The write of one round, in its transaction. *)
Lemma round_write x i k l j :
  let m := Z.min (n - j) write_max in
  sfs_opened dev f ip x i k l -> 0 <= j < n -> f_off x + m <= 140 * 512 -> (5 <= nfree dev l)%nat ->
  exists i1 l1,
    run (sfs_writei ip (drop (Z.to_nat j) addr) (f_off x) m) (set_inode ip (locked i) k) (begun l) =
      Ok (m, set_inode ip i1 (set_inode ip (locked i) k), l1) /\
    write_post dev (locked i) (begun l) (f_off x) m (drop (Z.to_nat j) addr) i1 l1.
Proof.
  intros m Ho Hj Hmax Hfree. assert (0 < m <= 1536 /\ m <= n - j) as Hm by (unfold m; rewrite write_max_eq; lia).
  clearbody m.
  assert (ls_geom (begun l) = ls_geom l /\ ls_view (begun l) = ls_view l) as [Hg Hv] by done.
  apply (write_fits_transaction dev); try done.
  - eapply cached_set, Ho.
  - eapply volume_same, Ho; done.
  - eapply file_flags, file_same, Ho; done.
  - eapply iblock_flags, iblock_same, Ho; done.
  - apply Ho.
  - apply Ho.
  - apply Ho.
  - rewrite (super_same dev l (begun l)) by done. apply Ho.
  - apply Ho.
  - apply Ho.
  - lia.
  - rewrite length_drop. lia.
Qed.

Lemma round_free i l off m i' l' src :
  0 <= m <= write_max -> write_post dev i l off m src i' l' -> (nfree dev l + pot i' <= nfree dev l' + pot i + 4)%nat.
Proof.
  rewrite write_max_eq. intros Hm Hw. pose proof (wp_free _ _ _ _ _ _ _ _ Hw).
  assert (blocks_left off m <= 4)%nat by (unfold blocks_left; destruct (m =? 0); lia). lia.
Qed.

(** One round, the write having succeeded. *)
Section Round.
Context (x : file) (i : inode) (k : kmem) (l : lstore) (j : Z) (i1 : inode) (l1 : lstore).
Let m := Z.min (n - j) write_max.
Let src := drop (Z.to_nat j) addr.
Let k1 := set_inode ip (locked i) k.
Hypothesis Ho : sfs_opened dev f ip x i k l.
Hypothesis Hj : 0 <= j < n.
Hypothesis Hrun : run (sfs_writei ip src (f_off x) m) k1 (begun l) = Ok (m, set_inode ip i1 k1, l1).
Hypothesis Hw : write_post dev (locked i) (begun l) (f_off x) m src i1 l1.
Let k3 := set_file f (moved m x) (set_inode ip i1 k1).
Let k' := after_write f ip m x (unlocked i1) k.

Lemma round_m : 0 < m <= 1536.
Proof. unfold m. rewrite write_max_eq. lia. Qed.

Lemma round_ilock : run (vop_ilock ip) k (begun l) = Ok (tt, k1, begun l) /\ silent (vop_ilock ip) k (begun l).
Proof.
  pose proof (of_cached _ _ _ _ _ _ _ Ho) as Hc. pose proof (of_ops _ _ _ _ _ _ _ Ho) as Hops. split.
  - apply run_vop_ilock; first [done|apply Ho].
  - eapply silent_vop_both; [done..|]. apply in_trans_silent. unfold sfs_ilock. in_trans_tac.
Qed.

Lemma round_vop_write : let p := vop_write ip src (f_off x) m in
  run p k1 (begun l) = Ok (m, set_inode ip i1 k1, l1) /\ silent p k1 (begun l).
Proof.
  assert (cached k1 ip (locked i)) as Hc1 by (eapply cached_set, Ho).
  pose proof (of_ops _ _ _ _ _ _ _ Ho : sfs_ops (locked i)) as Hops. split.
  - unfold vop_write. by rewrite (run_vop_both _ _ _ _ _ _ Hc1 Hops).
  - eapply silent_vop_both; [done..|]. eapply silent_writei; [done|]. exact (of_regular _ _ _ _ _ _ _ Ho).
Qed.

Lemma round_iunlock : run (vop_iunlock ip) k3 l1 = Ok (tt, k', l1) /\ silent (vop_iunlock ip) k3 l1.
Proof.
  assert (cached k3 ip i1) as Hc3 by (eapply (cached_set ip i1 (locked i) k1), cached_set, Ho).
  pose proof (wp_same _ _ _ _ _ _ _ _ Hw) as Es.
  assert (sfs_ops i1) as Hops by (rewrite Es; exact (of_ops _ _ _ _ _ _ _ Ho)). split.
  - rewrite (run_vop_iunlock _ i1); try done.
    + unfold k', k3, k1, after_write, set_file, set_inode, with_ftable, with_icache. simpl.
      by rewrite !list_insert_insert_eq.
    + rewrite Es. apply locked_busy.
    + rewrite Es. exact (of_ref _ _ _ _ _ _ _ Ho).
  - eapply silent_vop_both; [done..|]. apply in_trans_silent. unfold sfs_iunlock. in_trans_tac.
Qed.

Lemma round_run : run (filewrite_round f ip addr n j) k l = Ok (inl (j + m), k', committed_now l1).
Proof.
  pose proof round_m as Hm. unfold filewrite_round. rewrite (proj2 (Z.ltb_lt j n)) by lia. cbv zeta. cbn [negb].
  fold m src. run_step run_begin_trans; [|apply Ho].
  rewrite (run_bind_Ok _ _ _ _ _ _ _ (proj1 round_ilock)). run_step run_get_file; [|exact (of_file _ _ _ _ _ _ _ Ho)].
  rewrite (run_bind_Ok _ _ _ _ _ _ _ (proj1 round_vop_write)). rewrite (proj2 (Z.ltb_lt 0 m)) by lia.
  run_step run_upd_file; [|exact (of_file _ _ _ _ _ _ _ Ho)].
  rewrite (run_bind_Ok _ _ _ _ _ _ _ (proj1 round_iunlock)). run_step run_commit_trans; [|apply Hw].
  by rewrite (proj2 (Z.ltb_ge m 0)), Z.eqb_refl by lia.
Qed.

Lemma round_disks d : d ∈ disks (filewrite_round f ip addr n j) k l -> d = ls_view l \/ d = ls_view l1.
Proof.
  pose proof round_m as Hm. pose proof (of_durable _ _ _ _ _ _ _ Ho) as Hd.
  assert (ls_durable l1 = ls_view l) as Hd1 by (rewrite (wp_durable _ _ _ _ _ _ _ _ Hw); done).
  pose proof (of_file _ _ _ _ _ _ _ Ho) as Hf.
  unfold filewrite_round. rewrite (proj2 (Z.ltb_lt j n)) by lia. cbv zeta. cbn [negb]. fold m src.
  intros [->|Hin]%(disks_step _ _ _ _ _ _ _ (ls_view l) d (run_begin_trans k l (of_trans _ _ _ _ _ _ _ Ho))
    (silent_begin_trans _ _ (of_trans _ _ _ _ _ _ _ Ho)) Hd); [by left|].
  apply (disks_step _ _ _ _ _ _ _ (ls_view l) d (proj1 round_ilock) (proj2 round_ilock) Hd) in Hin as [->|Hin]; [by left|].
  apply (disks_step _ _ _ _ _ _ _ (ls_view l) d (run_get_file f x k1 (begun l) Hf)) in Hin as [->|Hin];
    [by left| |by apply in_trans_silent; cbn; intros ?; case_match|done].
  apply (disks_step _ _ _ _ _ _ _ (ls_view l) d (proj1 round_vop_write) (proj2 round_vop_write) Hd) in Hin
    as [->|Hin]; [by left|].
  rewrite (proj2 (Z.ltb_lt 0 m)) in Hin by lia.
  apply (disks_step _ _ _ _ _ _ _ (ls_view l) d
    (run_upd_file f (fun y => set_f_off (f_off y + m) y) x (set_inode ip i1 k1) l1 Hf)) in Hin as [->|Hin];
    [by left| |by apply in_trans_silent|done].
  apply (disks_step _ _ _ _ _ _ _ (ls_view l) d (proj1 round_iunlock) (proj2 round_iunlock) Hd1) in Hin as [->|Hin]; [by left|].
  pose proof (wp_held _ _ _ _ _ _ _ _ Hw) as Hh.
  apply disks_bind in Hin as [Hin|(r & k4 & l4 & Hr & Hin)].
  - apply disks_commit_trans in Hin as [->|?]; auto.
  - rewrite (run_commit_trans _ _ Hh) in Hr. simplify_eq.
    rewrite (proj2 (Z.ltb_ge m 0)), Z.eqb_refl in Hin by lia. right. by apply list_elem_of_singleton in Hin.
Qed.
End Round.

Lemma run_write_round x i k l j :
  let m := Z.min (n - j) write_max in
  sfs_opened dev f ip x i k l -> 0 <= j < n -> f_off x + m <= 140 * 512 -> (5 <= nfree dev l)%nat ->
  exists i' l', let k' := after_write f ip m x i' k in
    run (filewrite_round f ip addr n j) k l = Ok (inl (j + m), k', l') /\
    (forall d, d ∈ disks (filewrite_round f ip addr n j) k l -> d = ls_view l \/ d = ls_view l') /\
    sfs_opened dev f ip (moved m x) i' k' l' /\ file_wrote dev i l (f_off x) m (drop (Z.to_nat j) addr) i' l' /\
    (nfree dev l + pot i' <= nfree dev l' + pot i + 4)%nat.
Proof.
  intros m Ho Hj Hmax Hfree. destruct (round_write x i k l j Ho Hj Hmax Hfree) as (i1 & l1 & Hrun & Hw).
  pose proof (round_m j Hj) as Hm.
  assert (file_wrote dev i l (f_off x) m (drop (Z.to_nat j) addr) (unlocked i1) l1) as Hfw.
  { apply file_wrote_post; [apply Ho|apply Ho|apply Ho|]. by destruct Hw. }
  exists (unlocked i1), (committed_now l1). split_and!.
  - by apply (round_run x i k l j i1 l1).
  - by apply (round_disks x i k l j i1 l1).
  - eapply open_after; eauto; lia.
  - by eapply file_wrote_same, Hfw.
  - apply round_free in Hw; [exact Hw|rewrite write_max_eq; lia].
Qed.

(** What a power failure during the rest of the write can leave: the file with
    the first [m] bytes written, a whole number of rounds. *)
Definition part_written (i : inode) (l : lstore) (off r : Z) (src : list Z) (d : diskmap) : Prop :=
  exists m i' l', 0 <= m <= r /\ (m mod write_max = 0 \/ m = r) /\ file_wrote dev i l off m src i' l' /\ d = ls_view l'.

Lemma part_app i l off m r src i1 l1 d :
  0 <= m -> 0 <= off -> m mod write_max = 0 \/ r = 0 -> file_wrote dev i l off m src i1 l1 ->
  part_written i1 l1 (off + m) r (drop (Z.to_nat m) src) d -> part_written i l off (m + r) src d.
Proof.
  rewrite write_max_eq. intros Hm Ho Hr Hw (m' & i' & l' & Hm' & Hr' & Hw' & ->). rewrite write_max_eq in Hr'.
  exists (m + m'), i', l'. rewrite write_max_eq. split_and!; [lia..|lia| |done].
  eapply file_wrote_app; eauto; lia.
Qed.

(** Writing nothing changes nothing. *)
Lemma wrote_nothing x i k l src :
  sfs_opened dev f ip x i k l ->
  moved 0 x = x /\ after_write f ip 0 x i k = k /\ file_wrote dev i l (f_off x) 0 src i l.
Proof.
  intros Ho. pose proof (of_off _ _ _ _ _ _ _ Ho) as Hoff. pose proof (fo_size _ _ _ (of_fok _ _ _ _ _ _ _ Ho)).
  assert (moved 0 x = x) as Ex by (destruct x; unfold moved, set_f_off; simpl in *; by rewrite Z.add_0_r, u32_small by lia).
  split_and!; [done| |apply file_wrote_nil; apply Ho].
  unfold after_write. rewrite Ex, (set_self ip i k) by apply Ho. unfold set_file.
  rewrite list_insert_id by apply Ho. by destruct k.
Qed.

Lemma loop_end fuel x i k l :
  sfs_opened dev f ip x i k l ->
  exists i' l',
    run (while_fuel (S fuel) (filewrite_round f ip addr n) n) k l = Ok (n, after_write f ip 0 x i' k, l') /\
    sfs_opened dev f ip (moved 0 x) i' (after_write f ip 0 x i' k) l' /\
    file_wrote dev i l (f_off x) 0 (drop (Z.to_nat n) addr) i' l' /\
    forall d, d ∈ disks (while_fuel (S fuel) (filewrite_round f ip addr n) n) k l ->
      part_written i l (f_off x) 0 (drop (Z.to_nat n) addr) d.
Proof.
  intros Ho. destruct (wrote_nothing x i k l (drop (Z.to_nat n) addr) Ho) as (Ex & Ek & Hw).
  exists i, l. rewrite Ek, Ex. cbn [while_fuel]. unfold filewrite_round. rewrite Z.ltb_irrefl. split_and!; try done.
  intros d Hd%list_elem_of_singleton. exists 0, i, l. split_and!; [lia..|by left|done|].
  rewrite Hd. exact (of_durable _ _ _ _ _ _ _ Ho).
Qed.

(** A round that would make the file too long ends the loop; its transaction
    is empty. *)
Lemma round_refused x i k l j :
  sfs_opened dev f ip x i k l -> 0 <= j < n -> 140 * 512 < f_off x + Z.min (n - j) write_max ->
  run (filewrite_round f ip addr n j) k l = Ok (inr j, k, l).
Proof.
  intros Ho Hj Hmax. pose proof (of_off _ _ _ _ _ _ _ Ho) as Hoff. pose proof (fo_size _ _ _ (of_fok _ _ _ _ _ _ _ Ho)) as Hsz.
  pose proof (round_m j Hj) as Hm. unfold filewrite_round. rewrite (proj2 (Z.ltb_lt j n)) by lia. cbv zeta. cbn [negb].
  set (m := Z.min (n - j) write_max) in *. clearbody m. run_step run_begin_trans; [|apply Ho].
  rewrite (run_bind_Ok _ _ _ _ _ _ _ (proj1 (round_ilock x i k l Ho))). run_step run_get_file; [|exact (of_file _ _ _ _ _ _ _ Ho)].
  assert (cached (set_inode ip (locked i) k) ip (locked i)) as Hc by (eapply cached_set, Ho).
  assert (sfs_ops (locked i)) as Hops by exact (of_ops _ _ _ _ _ _ _ Ho).
  rewrite (run_bind_Ok _ _ _ _ (-1) (set_inode ip (locked i) k) (begun l)).
  2: { unfold vop_write. rewrite (run_vop_both _ _ _ _ _ _ Hc Hops).
       apply (sfs_writei_refused ip _ (locked i)); [done|apply Ho|unfold uint_range; lia|unfold uint_range; lia|right; exact Hmax]. }
  change (0 <? -1) with false. cbv iota. rewrite run_bind. cbn [run].
  rewrite (run_bind_Ok _ _ _ _ _ _ _ (run_vop_iunlock ip (locked i) _ (begun l) Hc Hops (locked_busy i) (of_ref _ _ _ _ _ _ _ Ho))).
  rewrite unlocked_locked by apply Ho. run_step run_commit_trans; [|apply Ho]. change (-1 <? 0) with true. cbv iota. cbn [run].
  f_equal. f_equal; [f_equal|].
  - rewrite <- (set_self ip i k) at 2 by apply Ho. unfold set_inode, with_icache. simpl. by rewrite list_insert_insert_eq.
  - destruct Ho as [_ _ _ _ _ _ _ _ _ _ _ _ _ _ _ Hh Hl Ht Hd _ _]. destruct l; cbn in *. by subst.
Qed.

Lemma write_loop fuel j x i k l :
  sfs_opened dev f ip x i k l -> 0 <= j <= n -> f_off x + (n - j) <= 140 * 512 ->
  (4 * rounds (n - j) + 1 + pot i <= nfree dev l)%nat -> (rounds (n - j) < fuel)%nat ->
  exists i' l',
    run (while_fuel fuel (filewrite_round f ip addr n) j) k l = Ok (n, after_write f ip (n - j) x i' k, l') /\
    sfs_opened dev f ip (moved (n - j) x) i' (after_write f ip (n - j) x i' k) l' /\
    file_wrote dev i l (f_off x) (n - j) (drop (Z.to_nat j) addr) i' l' /\
    forall d, d ∈ disks (while_fuel fuel (filewrite_round f ip addr n) j) k l ->
      part_written i l (f_off x) (n - j) (drop (Z.to_nat j) addr) d.
Proof.
  revert j x i k l. induction fuel as [|fuel IH]; intros j x i k l Ho Hj Hmax Hroom Hf; [lia|].
  destruct (decide (j = n)) as [->|Hne]; [rewrite Z.sub_diag in *; by apply loop_end|].
  pose proof (rounds_step (n - j) ltac:(lia)) as Hrd. set (m := Z.min (n - j) 1536) in *.
  replace (n - j - m) with (n - (j + m)) in Hrd by lia.
  pose proof (of_off _ _ _ _ _ _ _ Ho) as Hoff.
  destruct (run_write_round x i k l j Ho) as (i1 & l1 & Hrun & Hd1 & Ho1 & Hw1 & Hn1); rewrite ?write_max_eq; try lia.
  rewrite write_max_eq in Hrun, Ho1, Hw1. fold m in Hrun, Ho1, Hw1.
  assert (f_off (moved m x) = f_off x + m) as Em by (apply moved_off; lia).
  destruct (IH (j + m) _ _ _ _ Ho1) as (i2 & l2 & Hrun2 & Ho2 & Hw2 & Hd2); rewrite ?Em; try lia.
  rewrite after_after in Hrun2, Ho2 by lia. rewrite moved_moved in Ho2 by lia.
  replace (m + (n - (j + m))) with (n - j) in * by lia.
  rewrite Em in Hw2, Hd2. rewrite Z2Nat.inj_add, <- drop_drop in Hw2, Hd2 by lia.
  exists i2, l2. split_and!; [|done| |].
  - cbn [while_fuel]. by rewrite (run_bind_Ok _ _ _ _ _ _ _ Hrun).
  - replace (n - j) with (m + (n - (j + m))) by lia. eapply file_wrote_app; eauto; lia.
  - intros d Hd. cbn [while_fuel] in Hd. apply disks_bind in Hd as [Hd|(r & k' & l' & Hr & Hd)].
    + apply Hd1 in Hd as [->| ->]; [|exists m, i1, l1; rewrite write_max_eq; split_and!; auto; lia].
      exists 0, i, l. split_and!; [lia..|by left| |done]. apply file_wrote_nil; apply Ho.
    + rewrite Hrun in Hr. injection Hr as <- <- <-. replace (n - j) with (m + (n - (j + m))) by lia.
      eapply part_app; eauto; rewrite ?write_max_eq; lia.
Qed.

(** The loop when the file would become too long. *)
Lemma loop_refused fuel j x i k l :
  let m := write_max * ((140 * 512 - f_off x) / write_max) in
  sfs_opened dev f ip x i k l -> 0 <= j < n -> 140 * 512 < f_off x + (n - j) ->
  (4 * rounds m + 1 + pot i <= nfree dev l)%nat -> (rounds m < fuel)%nat ->
  exists i' l',
    run (while_fuel fuel (filewrite_round f ip addr n) j) k l = Ok (j + m, after_write f ip m x i' k, l') /\
    sfs_opened dev f ip (moved m x) i' (after_write f ip m x i' k) l' /\
    file_wrote dev i l (f_off x) m (drop (Z.to_nat j) addr) i' l'.
Proof.
  cbv zeta. rewrite write_max_eq. revert j x i k l. induction fuel as [|fuel IH]; intros j x i k l Ho Hj Hmax Hroom Hf; [lia|].
  pose proof (of_off _ _ _ _ _ _ _ Ho) as Hoff. pose proof (fo_size _ _ _ (of_fok _ _ _ _ _ _ _ Ho)) as Hsz.
  set (m := 1536 * ((140 * 512 - f_off x) / 1536)) in *. cbn [while_fuel].
  destruct (decide (m = 0)) as [Hm|Hm].
  { destruct (wrote_nothing x i k l (drop (Z.to_nat j) addr) Ho) as (Ex & Ek & Hw). exists i, l. rewrite Hm, Ek, Ex, Z.add_0_r.
    split_and!; try done. rewrite (run_bind_Ok _ _ _ _ _ _ _ (round_refused x i k l j Ho Hj ltac:(rewrite write_max_eq; lia))). done. }
  pose proof (rounds_step m ltac:(lia)) as Hrd. replace (Z.min m 1536) with 1536 in Hrd by lia.
  destruct (run_write_round x i k l j Ho) as (i1 & l1 & Hrun & _ & Ho1 & Hw1 & Hn1); rewrite ?write_max_eq; try lia.
  rewrite write_max_eq in Hrun, Ho1, Hw1. replace (Z.min (n - j) 1536) with 1536 in Hrun, Ho1, Hw1 by lia.
  assert (f_off (moved 1536 x) = f_off x + 1536) as Em by (apply moved_off; lia).
  destruct (IH (j + 1536) _ _ _ _ Ho1) as (i2 & l2 & Hrun2 & Ho2 & Hw2); rewrite ?Em;
    replace (1536 * ((140 * 512 - (f_off x + 1536)) / 1536)) with (m - 1536) by lia; try lia.
  rewrite Em in Hrun2, Ho2, Hw2. replace (1536 * ((140 * 512 - (f_off x + 1536)) / 1536)) with (m - 1536) in Hrun2, Ho2, Hw2 by lia.
  rewrite after_after in Hrun2, Ho2 by lia. rewrite moved_moved in Ho2 by lia. rewrite Z2Nat.inj_add, <- drop_drop in Hw2 by lia.
  replace (1536 + (m - 1536)) with m in * by lia. replace (j + 1536 + (m - 1536)) with (j + m) in Hrun2 by lia.
  exists i2, l2. split_and!; [by rewrite (run_bind_Ok _ _ _ _ _ _ _ Hrun)|done|].
  replace m with (1536 + (m - 1536)) by lia. eapply file_wrote_app; eauto; lia.
Qed.

Lemma run_filewrite x i k l :
  sfs_opened dev f ip x i k l -> 0 <= n -> f_off x + n <= 140 * 512 ->
  (4 * rounds n + 1 + pot i <= nfree dev l)%nat ->
  exists i' l',
    run (filewrite f addr n) k l = Ok (n, after_write f ip n x i' k, l') /\
    sfs_opened dev f ip (moved n x) i' (after_write f ip n x i' k) l' /\
    file_wrote dev i l (f_off x) n addr i' l' /\
    forall d, d ∈ disks (filewrite f addr n) k l -> part_written i l (f_off x) n addr d.
Proof.
  intros Ho Hn0 Hmax Hroom.
  destruct (write_loop (Z.to_nat (n / write_max) + 2) 0 x i k l) as (i' & l' & Hrun & Ho' & Hw & Hd);
    rewrite ?Z.sub_0_r in *; auto; try lia.
  { rewrite write_max_eq. unfold rounds. lia. }
  pose proof (of_file _ _ _ _ _ _ _ Ho) as Hf. exists i', l'. unfold filewrite. split_and!; try done.
  - run_step run_get_file. rewrite (of_writable _ _ _ _ _ _ _ Ho), (of_type _ _ _ _ _ _ _ Ho), (of_ip _ _ _ _ _ _ _ Ho).
    cbn [negb]. rewrite (run_bind_Ok _ _ _ _ _ _ _ Hrun). by rewrite Z.eqb_refl.
  - intros d. rewrite (disks_get_file _ _ _ _ _ Hf).
    rewrite (of_writable _ _ _ _ _ _ _ Ho), (of_type _ _ _ _ _ _ _ Ho), (of_ip _ _ _ _ _ _ _ Ho). cbn [negb].
    intros [Hin|(r & k' & l1 & Hr & Hin)]%disks_bind; [by apply Hd|].
    rewrite Hrun in Hr. injection Hr as <- <- <-. apply list_elem_of_singleton in Hin. exists n, i', l'.
    split_and!; [lia..|by right|done|]. rewrite Hin. exact (of_durable _ _ _ _ _ _ _ Ho').
Qed.
Lemma run_filewrite_refused x i k l :
  let m := write_max * ((140 * 512 - f_off x) / write_max) in
  sfs_opened dev f ip x i k l -> 140 * 512 < f_off x + n -> (4 * rounds m + 1 + pot i <= nfree dev l)%nat ->
  exists i' l',
    run (filewrite f addr n) k l = Ok (-1, after_write f ip m x i' k, l') /\
    sfs_opened dev f ip (moved m x) i' (after_write f ip m x i' k) l' /\ file_wrote dev i l (f_off x) m addr i' l'.
Proof.
  intros m Ho Hmax Hroom. pose proof (of_off _ _ _ _ _ _ _ Ho) as Hoff. pose proof (fo_size _ _ _ (of_fok _ _ _ _ _ _ _ Ho)) as Hsz.
  pose proof (of_file _ _ _ _ _ _ _ Ho) as Hf.
  assert (m < n) as Hmn by (unfold m; rewrite write_max_eq; lia).
  destruct (loop_refused (Z.to_nat (n / write_max) + 2) 0 x i k l Ho) as (i' & l' & Hrun & Ho' & Hw); [lia|lia|done| |].
  { clear -Hoff Hsz Hmax. unfold rounds. rewrite write_max_eq. lia. }
  fold m in Hrun, Ho', Hw. exists i', l'. split_and!; [|done|by rewrite drop_0 in Hw].
  unfold filewrite. run_step run_get_file. rewrite (of_writable _ _ _ _ _ _ _ Ho), (of_type _ _ _ _ _ _ _ Ho), (of_ip _ _ _ _ _ _ _ Ho).
  cbn [negb]. rewrite (run_bind_Ok _ _ _ _ _ _ _ Hrun). cbn [run]. by rewrite (proj2 (Z.eqb_neq _ _)) by lia.
Qed.
End Filewrite.

(** ** Theorems *)

(** C6: [filewrite] on an open file of sfs, whose volume has a single bitmap
    block and whose log has at least [LOGSIZE] blocks ([sfs_opened]), with
    four free blocks for each round of 1536 bytes and two more.  If the [n]
    bytes end within [MAXFILE] blocks, it returns [n] and writes all of them at
    the file's offset; otherwise it returns -1 after the rounds before the
    first that would go beyond.  Either way it advances the offset by what it
    has written, the file has those bytes of the buffer there, every other byte
    of the file, every block of other files and every other inode keeps its
    value, the inode on disk is the one in memory, no transaction is left open,
    no lock is held, and all of it is durable: each round fits the log. *)
Theorem filewrite_spec `{DevSw} dev f ip addr n x i k l :
  let m := bytes_fit (f_off x) n in
  sfs_opened dev f ip x i k l -> 0 <= n <= Z.of_nat (length addr) ->
  (4 * rounds m + 2 <= nfree dev l)%nat ->
  exists i' l',
    run (filewrite f addr n) k l = Ok (if f_off x + n <=? MAXFILE * SFS_BSIZE then n else -1, after_write f ip m x i' k, l') /\
    sfs_opened dev f ip (moved m x) i' (after_write f ip m x i' k) l' /\
    file_wrote dev i l (f_off x) m addr i' l'.
Proof.
  intros m Ho Hn Hroom. assert (pot i <= 1)%nat by (unfold pot; destruct (_ =? _); lia).
  unfold m, bytes_fit in *. change (MAXFILE * SFS_BSIZE) with (140 * 512) in *. destruct (Z.leb_spec (f_off x + n) (140 * 512)) as [Hmax|Hmax].
  - destruct (run_filewrite dev f ip addr n ltac:(lia) x i k l Ho) as (i' & l' & Hrun & Ho' & Hw & _); [lia|lia|lia|]. eauto.
  - apply run_filewrite_refused; [lia|done|lia|lia].
Qed.

(** C3: a power failure during a long write.  A write that ends within
    [MAXFILE] blocks, to an open file of sfs on a volume with a single bitmap
    block, a log of at least [LOGSIZE] blocks and the free blocks [filewrite]
    may need, runs on the log over the buffer cache over the drive; the power
    fails at any moment of it, and
    again any number of times during recovery.  Then recovery completes, and
    the file has exactly the first [m] bytes of the buffer at the offset, where
    [m] is a whole number of rounds of 1536 bytes or everything: the file's
    inode, size and blocks are those of that shorter write, and everything that
    is not the file's is as before the call. *)
Theorem filewrite_crash_safe `{DevSw} f ip addr n x i k d D s lg0 :
  let l := fs_boot (disk_geom d) D in
  geom_ok (disk_geom d) -> committed (disk_geom d) d D -> mounted d s ->
  sfs_opened ROOTDEV f ip x i k l -> 0 <= n <= Z.of_nat (length addr) -> f_off x + n <= MAXFILE * SFS_BSIZE ->
  (4 * rounds n + 2 <= nfree ROOTDEV l)%nat -> log_at (disk_geom d) lg0 -> lg_busy lg0 = false ->
  forall d1 d2, d1 ∈ disks (filewrite f addr n) k s -> reboots lg0 d1 d2 ->
  exists m i' D' lg' c, 0 <= m <= n /\ (m mod 1536 = 0 \/ m = n) /\
    run recover_from_log lg0 (boot_state d2) = Ok (tt, lg', c) /\
    stack_rel (disk_geom d) (fs_boot (disk_geom d) D') (mklogged lg' c) /\
    file_wrote ROOTDEV i l (f_off x) m addr i' (fs_boot (disk_geom d) D').
Proof.
  intros l Hg Hc Hm Ho Hn Hmax Hroom Hlg Hb d1 d2 Hd1 Hrb.
  assert (pot i <= 1)%nat by (unfold pot; destruct (_ =? _); lia).
  destruct (run_filewrite ROOTDEV f ip addr n ltac:(lia) x i k l Ho) as (i' & l' & Hrun & _ & _ & Hd); [lia|done|lia|].
  destruct (initlog_stack d D Hg Hc) as (lg & c & Hinit & Hrel). unfold mounted in Hm.
  rewrite Hinit in Hm. destruct s as [slg sc]. injection Hm as <- <-.
  destruct (disks_refines (filewrite f addr n) k _ _ Hrel) with (d := d1) as (D' & HD' & d1' & Hc' & ->); [|done|].
  { intros why Hw. fold l in Hw. by rewrite Hrun in Hw. }
  destruct (recover_stack _ d2 D' lg0 Hg Hlg Hb) as (lg' & c' & Hr & Hs); [by eapply reboots_committed|].
  destruct (Hd D' HD') as (m & i1 & l1 & Hm & Hmod & Hw & ->). exists m, i1, (ls_view l1), lg', c'.
  rewrite write_max_eq in Hmod. split_and!; [lia|lia|exact Hmod|exact Hr|exact Hs|]. eapply file_wrote_same, Hw; [|done]. by rewrite (fw_geom _ _ _ _ _ _ _ _ Hw).
Qed.
