(* ===== verification/Sysfile.v ===== *)
(** * File-system calls: [sysfile.c] and the argument fetching of [syscall.c]

    The messages the calls print with [cprintf] are not modelled.  A path or
    buffer argument is an address in the user memory, and what the kernel
    writes there (results, and the NUL [get_device] stores in a path) is
    written to that memory. *)

From stdpp Require Import base gmap strings numbers list.
From S2P Require Import Prelude Prog CString Layout Log State SfsInode SfsDir FatBase FatInode FatDir Vop Vfs File.

Definition O_WRONLY : Z := 1.
Definition O_RDWR : Z := 2.
Definition O_CREATE : Z := 0x200.

Definition with_mem (m : list Z) (p : uproc) : uproc :=
  mkuproc (p_cwd p) (p_ofile p) (p_killed p) m (p_esp p).
Definition with_cwd (n : nat) (p : uproc) : uproc :=
  mkuproc n (p_ofile p) (p_killed p) (p_mem p) (p_esp p).
Definition with_ofile (l : list (option nat)) (p : uproc) : uproc :=
  mkuproc (p_cwd p) l (p_killed p) (p_mem p) (p_esp p).

Definition upd_proc (f : uproc -> uproc) : fsprog unit := modify (fun k => with_proc (f (km_proc k)) k).
Definition myproc : fsprog uproc := gets km_proc.

(** ** Arguments ([syscall.c]) *)

Definition fetchint (addr : Z) (mem : list Z) : option Z :=
  let sz := Z.of_nat (length mem) in
  if (sz <=? addr) || (sz <? u32 (addr + 4)) then None
  else Some (s32 (get_u32 (Z.to_nat addr) mem)).

(** The address of a NUL-terminated string. *)
Definition fetchstr (addr : Z) (mem : list Z) : option nat :=
  if Z.of_nat (length mem) <=? addr then None
  else if existsb (fun c => c =? 0) (drop (Z.to_nat addr) mem) then Some (Z.to_nat addr) else None.

Definition argint (n : Z) : fsprog (option Z) :=
  p <- myproc;; Ret (fetchint (u32 (p_esp p + 4 + 4 * n)) (p_mem p)).

Definition argptr (n size : Z) : fsprog (option nat) :=
  x <- argint n;;
  p <- myproc;;
  let sz := Z.of_nat (length (p_mem p)) in
  Ret (match x with
       | Some i => if (sz <=? u32 i) || (sz <? u32 (u32 i + size)) then None else Some (Z.to_nat (u32 i))
       | None => None
       end).

Definition argstr (n : Z) : fsprog (option nat) :=
  x <- argint n;;
  p <- myproc;;
  Ret (match x with
       | Some addr => fetchstr (u32 addr) (p_mem p)
       | None => None
       end).

(** The user memory from an address on, and writing it. *)
Definition user_from (a : nat) : fsprog (list Z) := p <- myproc;; Ret (drop a (p_mem p)).
Definition user_put (a : nat) (l : list Z) : fsprog unit :=
  p <- myproc;;
  if decide (a + length l <= length (p_mem p))%nat
  then upd_proc (with_mem (splice a l (p_mem p)))
  else undef "write outside the process".

(** ** Descriptors *)

(** The nth argument as a file descriptor, and the file. *)
Definition argfd (n : Z) : fsprog (option (Z * nat)) :=
  x <- argint n;;
  p <- myproc;;
  Ret (match x with
       | None => None
       | Some fd =>
           if (fd <? 0) || (Z.of_nat NOFILE <=? fd) then None
           else match p_ofile p !! Z.to_nat fd with
                | Some (Some f) => Some (fd, f)
                | _ => None
                end
       end).

Fixpoint find_fd (l : list (option nat)) (i : nat) : option nat :=
  match l with
  | [] => None
  | None :: _ => Some i
  | Some _ :: l => find_fd l (S i)
  end.

(** Allocate a file descriptor for the given file. *)
Definition fdalloc (f : nat) : fsprog Z :=
  p <- myproc;;
  match find_fd (p_ofile p) 0 with
  | Some fd => upd_proc (with_ofile (<[fd := Some f]> (p_ofile p)));;; Ret (Z.of_nat fd)
  | None => Ret (-1)
  end.

Definition clear_fd (fd : Z) : fsprog unit :=
  upd_proc (fun p => with_ofile (<[Z.to_nat fd := None]> (p_ofile p)) p).

Definition sys_dup : fsprog Z :=
  x <- argfd 0;;
  match x with
  | None => Ret (-1)
  | Some (_, f) =>
      fd <- fdalloc f;;
      if fd <? 0 then Ret (-1) else filedup f;;; Ret fd
  end.

Section Sys.
Context `{DevSw} `{Machine}.

Definition sys_read : fsprog Z :=
  x <- argfd 0;; n <- argint 2;;
  match x, n with
  | Some (_, f), Some n =>
      p <- argptr 1 n;;
      match p with
      | None => Ret (-1)
      | Some p =>
          let* (r, dst) := fileread f n in
          user_put p dst;;;
          Ret r
      end
  | _, _ => Ret (-1)
  end.

Definition sys_write : fsprog Z :=
  x <- argfd 0;; n <- argint 2;;
  match x, n with
  | Some (_, f), Some n =>
      p <- argptr 1 n;;
      match p with
      | None => Ret (-1)
      | Some p => src <- user_from p;; filewrite f src n
      end
  | _, _ => Ret (-1)
  end.

Definition sys_close : fsprog Z :=
  x <- argfd 0;;
  match x with
  | None => Ret (-1)
  | Some (fd, f) => clear_fd fd;;; fileclose f;;; Ret 0
  end.

(** [struct stat] as the compiler lays it out: 24 bytes, the padding after the
    two [short]s left alone. *)
Definition put_stat (a : nat) (st : stat) : fsprog unit :=
  user_put a (le_enc 2 (st_type st));;;
  user_put (a + 4) (le_enc 4 (st_dev st) ++ le_enc 4 (st_ino st) ++ le_enc 2 (st_nlink st));;;
  user_put (a + 16) (le_enc 4 (st_size st) ++ le_enc 4 (st_fstype st)).

Definition sys_fstat : fsprog Z :=
  x <- argfd 0;;
  match x with
  | None => Ret (-1)
  | Some (_, f) =>
      p <- argptr 1 24;;
      match p with
      | None => Ret (-1)
      | Some a =>
          let* (r, st) := filestat f in
          match st with
          | Some st => put_stat a st;;; Ret r
          | None => Ret r
          end
      end
  end.

(** ** Lookups of user paths *)

Definition lookup_user (a : nat) : fsprog (option nat) :=
  s <- user_from a;;
  let* (r, s) := vfs_lookup s in
  user_put a s;;;
  Ret r.

Definition lookup_parent_user (a : nat) (name : list Z) : fsprog (option nat * list Z) :=
  s <- user_from a;;
  let* (dp, name, s) := vfs_lookup_parent s name in
  user_put a s;;;
  Ret (dp, name).

(** [char name[DIRSIZ]] *)
Definition name14 : list Z := replicate 14 0.

(** Create the path new as a link to the same inode as old. *)
Definition sys_link : fsprog Z :=
  old <- argstr 0;; new <- argstr 1;;
  match old, new with
  | Some old, Some new =>
      ip <- lookup_user old;;
      match ip with
      | None => Ret (-1)
      | Some ip =>
          begin_trans_;;;
          vop_ilock ip;;;
          t <- vop_gettype ip;;
          if t =? T_DIR then vop_iunlockput ip;;; commit_trans_;;; Ret (-1)
          else
            vop_link_inc ip;;;
            vop_iupdate ip;;;
            vop_iunlock ip;;;
            let bad :=
              vop_ilock ip;;; vop_link_dec ip;;; vop_iupdate ip;;; vop_iunlockput ip;;;
              commit_trans_;;; Ret (-1) in
            let* (dp, name) := lookup_parent_user new name14 in
            match dp with
            | None => bad
            | Some dp =>
                vop_ilock dp;;;
                d1 <- vop_getdev dp;;
                d2 <- vop_getdev ip;;
                r <- (if negb (d1 =? d2) then Ret (-1) else vop_dirlink dp name ip);;
                if r <? 0 then vop_iunlockput dp;;; bad
                else
                  vop_iunlockput dp;;;
                  vop_ref_dec ip;;;
                  commit_trans_;;;
                  Ret 0
            end
      end
  | _, _ => Ret (-1)
  end.

Definition sys_unlink : fsprog Z :=
  path <- argstr 0;;
  match path with
  | None => Ret (-1)
  | Some path =>
      let* (dp, name) := lookup_parent_user path name14 in
      match dp with
      | None => Ret (-1)
      | Some dp =>
          begin_trans_;;;
          r <- vop_unlink dp name;;
          commit_trans_;;;
          Ret (if negb (r =? 0) then -1 else 0)
      end
  end.

(** [create]: the path buffer is threaded like in [Vfs]. *)
Definition create (path : list Z) (type major minor : Z) : fsprog (option nat * list Z) :=
  let* (dp, name, path) := vfs_lookup_parent path name14 in
  match dp with
  | None => Ret (None, path)
  | Some dp =>
      vop_ilock dp;;;
      x <- vop_dirlookup dp name;;
      match x with
      | Some (ip, _) =>
          vop_iunlockput dp;;;
          vop_ilock ip;;;
          t <- (if type =? T_FILE then vop_gettype ip else Ret 0);;
          if (type =? T_FILE) && (t =? T_FILE) then Ret (Some ip, path)
          else vop_iunlockput ip;;; Ret (None, path)
      | None =>
          ip <- vop_create_inode dp type major minor name;;
          vop_iunlockput dp;;;
          Ret (Some ip, path)
      end
  end.

Definition create_user (a : nat) (type major minor : Z) : fsprog (option nat) :=
  s <- user_from a;;
  let* (r, s) := create s type major minor in
  user_put a s;;;
  Ret r.

(** The part of [sys_open] and [sb_open] after the inode is found and locked. *)
Definition open_file (ip : nat) (omode : Z) : fsprog Z :=
  f <- filealloc;;
  fd <- (match f with Some f => fdalloc f | None => Ret (-1) end);;
  match f with
  | Some f =>
      if fd <? 0 then fileclose f;;; vop_iunlockput ip;;; Ret (-1)
      else
        vop_iunlock ip;;;
        upd_file f (fun x => mkfile FD_INODE (f_ref x) (Z.land omode O_WRONLY =? 0)
          (negb (Z.land omode O_WRONLY =? 0) || negb (Z.land omode O_RDWR =? 0)) (f_pipe x) ip 0);;;
        Ret fd
  | None => vop_iunlockput ip;;; Ret (-1)
  end.

Definition open_inode (lookup : fsprog (option nat)) (mk : fsprog (option nat)) (omode : Z) : fsprog Z :=
  if negb (Z.land omode O_CREATE =? 0) then
    begin_trans_;;;
    ip <- mk;;
    commit_trans_;;;
    match ip with
    | None => Ret (-1)
    | Some ip => open_file ip omode
    end
  else
    ip <- lookup;;
    match ip with
    | None => Ret (-1)
    | Some ip =>
        vop_ilock ip;;;
        r <- vop_open ip omode;;
        if negb (r =? 0) then vop_iunlockput ip;;; Ret (-1) else open_file ip omode
    end.

Definition sys_open : fsprog Z :=
  path <- argstr 0;; omode <- argint 1;;
  match path, omode with
  | Some path, Some omode =>
      open_inode (lookup_user path) (create_user path T_FILE 0 0) omode
  | _, _ => Ret (-1)
  end.

Definition sys_mkdir : fsprog Z :=
  begin_trans_;;;
  path <- argstr 0;;
  ip <- (match path with Some path => create_user path T_DIR 0 0 | None => Ret None end);;
  match ip with
  | None => commit_trans_;;; Ret (-1)
  | Some ip => vop_iunlockput ip;;; commit_trans_;;; Ret 0
  end.

Definition sys_mknod : fsprog Z :=
  begin_trans_;;;
  path <- argstr 0;; major <- argint 1;; minor <- argint 2;;
  ip <- (match path, major, minor with
         | Some path, Some major, Some minor => create_user path T_DEV (s16 major) (s16 minor)
         | _, _, _ => Ret None
         end);;
  match ip with
  | None => commit_trans_;;; Ret (-1)
  | Some ip => vop_iunlockput ip;;; commit_trans_;;; Ret 0
  end.

Definition sys_chdir : fsprog Z :=
  path <- argstr 0;;
  ip <- (match path with Some path => lookup_user path | None => Ret None end);;
  match ip with
  | None => Ret (-1)
  | Some ip =>
      vop_ilock ip;;;
      t <- vop_gettype ip;;
      if negb (t =? T_DIR) then vop_iunlockput ip;;; Ret (-1)
      else
        vop_iunlock ip;;;
        p <- myproc;;
        vop_ref_dec (p_cwd p);;;
        upd_proc (with_cwd ip);;;
        Ret 0
  end.

Definition sys_pipe : fsprog Z :=
  fd <- argptr 0 8;;
  match fd with
  | None => Ret (-1)
  | Some fd =>
      x <- pipealloc;;
      match x with
      | None => Ret (-1)
      | Some (rf, wf) =>
          fd0 <- fdalloc rf;;
          fd1 <- (if fd0 <? 0 then Ret (-1) else fdalloc wf);;
          if (fd0 <? 0) || (fd1 <? 0) then
            (if 0 <=? fd0 then clear_fd fd0 else Ret tt);;;
            fileclose rf;;;
            fileclose wf;;;
            Ret (-1)
          else
            user_put fd (le_enc 4 fd0 ++ le_enc 4 fd1);;;
            Ret 0
      end
  end.

Definition sys_getcwd : fsprog Z :=
  buf <- argstr 0;; len <- argint 1;;
  match buf, len with
  | Some buf, Some len =>
      if len =? 0 then Ret (-1)
      else
        s <- user_from buf;;
        let* (r, s) := vfs_getcwd s len in
        user_put buf s;;;
        Ret r
  | _, _ => Ret (-1)
  end.
End Sys.
