(* ===== verification/ProcFiles.v ===== *)
(** * The files of a process: [fork] and [exit] of [proc.c], [sys_exec] of
    [sysfile.c]

    What [fork] and [exit] do to the file table and the inode cache; the
    process table is the subject of [Sched], the address space of [VmCopy]. *)

From stdpp Require Import base gmap strings numbers list.
From S2P Require Import Prelude Prog Bio Layout Log LStore State FsLogic SfsInode FatDir Vop VopSpec File FileSpec Sysfile.

(** The loop of [fork] over [proc->ofile], and the reference to the current
    directory: what the child gets. *)
Definition dup_fd (f : option nat) : fsprog unit :=
  match f with
  | Some f => filedup f;;; Ret tt
  | None => Ret tt
  end.

Definition fork_files : fsprog (list (option nat) * nat) :=
  p <- myproc;;
  for_each (p_ofile p) dup_fd;;;
  cwd <- vop_ref_inc (p_cwd p);;
  Ret (p_ofile p, cwd).

(** Close all open files, and drop the current directory; the null pointer
    [proc->cwd] gets is never read. *)
Definition close_fd (fd : nat) : fsprog unit :=
  p <- myproc;;
  match p_ofile p !! fd with
  | Some (Some f) =>
      fileclose f;;;
      upd_proc (fun p => with_ofile (<[fd := None]> (p_ofile p)) p)
  | Some None => Ret tt
  | None => undef "proc->ofile"
  end.

Definition exit_files : fsprog unit :=
  for_each (seq 0 NOFILE) close_fd;;;
  p <- myproc;;
  vop_ref_dec (p_cwd p).

(** The child starts with what [fork_files] gave it. *)
Definition child (x : list (option nat) * nat) : fsprog unit :=
  upd_proc (fun p => with_cwd x.2 (with_ofile x.1 p)).

(** ** [sys_exec] *)

(** [NELEM(argv)], that is [MAXARG]. *)
Definition NARGV : nat := 32.

(** The loop that collects [argv]: the addresses of the arguments. *)
Definition argv_round (mem : list Z) (uargv : Z) : nat * list nat -> fsprog (nat * list nat + option (list nat)) :=
  fun '(i, argv) =>
    if (NARGV <=? i)%nat then Ret (inr None)
    else match fetchint (u32 (uargv + 4 * Z.of_nat i)) mem with
         | None => Ret (inr None)
         | Some uarg =>
             if uarg =? 0 then Ret (inr (Some argv))
             else match fetchstr (u32 uarg) mem with
                  | None => Ret (inr None)
                  | Some a => Ret (inl (S i, argv ++ [a]))
                  end
         end.

Definition fetch_argv (uargv : Z) : fsprog (option (list nat)) :=
  p <- myproc;;
  while_fuel (NARGV + 2) (argv_round (p_mem p) uargv) (0%nat, []).

(** [exec_] is [exec], which works on the address space ([Exec]). *)
Definition sys_exec (exec_ : nat -> list nat -> fsprog Z) : fsprog Z :=
  path <- argstr 0;;
  x <- argint 1;;
  match path, x with
  | Some path, Some uargv =>
      argv <- fetch_argv (u32 uargv);;
      match argv with
      | Some argv => exec_ path argv
      | None => Ret (-1)
      end
  | _, _ => Ret (-1)
  end.

(** ** [argv] *)

(** Entry [i] of the vector at [uargv] points to a string at [a]. *)
Definition arg_at (mem : list Z) (uargv : Z) (i : nat) (a : nat) : Prop :=
  exists uarg, fetchint (u32 (uargv + 4 * Z.of_nat i)) mem = Some uarg /\ uarg <> 0 /\ fetchstr (u32 uarg) mem = Some a.

Lemma fetch_argv_loop fuel mem uargv i argv k (l : lstore) :
  length argv = i -> (i <= NARGV)%nat -> (NARGV < fuel + i)%nat ->
  (forall j a, argv !! j = Some a -> arg_at mem uargv j a) ->
  exists r, run (while_fuel fuel (argv_round mem uargv) (i, argv)) k l = Ok (r, k, l) /\
    match r with
    | Some v => (length v < NARGV)%nat /\ (forall j a, v !! j = Some a -> arg_at mem uargv j a) /\
        fetchint (u32 (uargv + 4 * Z.of_nat (length v))) mem = Some 0
    | None => True
    end.
Proof.
  revert i argv. induction fuel as [|fuel IH]; intros i argv Hl Hi Hf Ha; [lia|]. cbn [while_fuel]. unfold argv_round at 1.
  destruct (Nat.leb_spec NARGV i) as [Hge|Hlt]; [by exists None|].
  destruct (fetchint _ mem) as [uarg|] eqn:E1; [|by exists None].
  destruct (Z.eqb_spec uarg 0) as [->|Hne].
  { exists (Some argv). split; [done|]. rewrite Hl. done. }
  destruct (fetchstr (u32 uarg) mem) as [a|] eqn:E2; [|by exists None]. cbn [pbind].
  apply IH; [rewrite length_app; simpl; lia|lia|lia|].
  intros j b Hj. apply lookup_app_Some in Hj as [Hj|[Hge Hj]]; [by apply Ha|].
  apply list_lookup_singleton_Some in Hj as [Hj <-]. assert (j = i) as -> by lia. by exists uarg.
Qed.

(** Collecting [argv] always ends, without a change; what it returns are the
    strings of the vector up to its null pointer, fewer than [MAXARG]. *)
Theorem fetch_argv_spec uargv k (l : lstore) :
  exists r, run (fetch_argv uargv) k l = Ok (r, k, l) /\
    match r with
    | Some v => (length v < NARGV)%nat /\ (forall j a, v !! j = Some a -> arg_at (p_mem (km_proc k)) uargv j a) /\
        fetchint (u32 (uargv + 4 * Z.of_nat (length v))) (p_mem (km_proc k)) = Some 0
    | None => True
    end.
Proof.
  unfold fetch_argv. erewrite run_bind_Ok; [|reflexivity].
  apply fetch_argv_loop; [done|unfold NARGV; lia|unfold NARGV; lia|]. intros j a Hj. by rewrite lookup_nil in Hj.
Qed.

(** ** Reference counts *)

(** The file table with [c f] more references to each file [f]. *)
Definition refs (c : nat -> Z) (ft : list file) : list file := imap (fun f x => set_f_ref (f_ref x + c f) x) ft.

Definition plus1 (f : nat) (d : Z) (c : nat -> Z) : nat -> Z := fun g => if decide (g = f) then c g + d else c g.

Fixpoint uses (ofs : list (option nat)) (g : nat) : Z :=
  match ofs with
  | [] => 0
  | Some f :: ofs => (if decide (g = f) then 1 else 0) + uses ofs g
  | None :: ofs => uses ofs g
  end.

Lemma uses_range ofs g : 0 <= uses ofs g <= Z.of_nat (length ofs).
Proof. induction ofs as [|[f|] ofs IH]; cbn [uses length]; [lia| |lia]. destruct (decide _); lia. Qed.

Lemma lookup_refs c ft f x : ft !! f = Some x -> refs c ft !! f = Some (set_f_ref (f_ref x + c f) x).
Proof. intros Hx. unfold refs. by rewrite list_lookup_imap, Hx. Qed.

Lemma refs_ext c c' ft : (forall f, c f = c' f) -> refs c ft = refs c' ft.
Proof. intros Hc. unfold refs. apply imap_ext. intros f x _. by rewrite Hc. Qed.

(** The references there are leave room for those of two processes more. *)
Definition few (x : file) : Prop := 0 <= f_ref x < 2 ^ 31 - 2 * Z.of_nat NOFILE.

Lemma refs_none ft : Forall few ft -> refs (fun _ => 0) ft = ft.
Proof.
  intros Hft. apply list_eq. intros f. unfold refs. rewrite list_lookup_imap. destruct (ft !! f) as [x|] eqn:Hx; [|done]. cbn.
  pose proof (Forall_lookup_1 _ _ _ _ Hft Hx) as Hr. unfold few, NOFILE in Hr. unfold set_f_ref. rewrite Z.add_0_r, s32_small by lia.
  by destruct x.
Qed.

Lemma refs_change c d ft f x : Forall few ft -> ft !! f = Some x -> 0 <= c f <= 16 -> 0 <= c f + d <= 16 ->
  <[f := set_f_ref (f_ref (set_f_ref (f_ref x + c f) x) + d) (set_f_ref (f_ref x + c f) x)]> (refs c ft) = refs (plus1 f d c) ft.
Proof.
  intros Hft Hx Hc Hd. pose proof (Forall_lookup_1 _ _ _ _ Hft Hx) as Hr. unfold few, NOFILE in Hr.
  apply list_eq. intros g. destruct (decide (g = f)) as [->|Hne].
  - rewrite list_lookup_insert_eq by (unfold refs; rewrite length_imap; by eapply lookup_lt_Some).
    rewrite (lookup_refs _ _ _ _ Hx). unfold plus1. rewrite decide_True by done. unfold set_f_ref. cbn [f_ref f_type f_readable f_writable f_pipe f_ip f_off].
    rewrite (s32_small (f_ref x + c f)) by lia. by rewrite Z.add_assoc.
  - rewrite list_lookup_insert_ne by done. unfold refs. rewrite !list_lookup_imap. destruct (ft !! g); [|done]. cbn.
    unfold plus1. by rewrite decide_False.
Qed.

Section ForkExit.
Context (k : kmem) (l : lstore).
Hypothesis Hfew : Forall few (km_ftable k).
(** The kernel's memory with the reference counts changed. *)
Let at_refs (c : nat -> Z) (p : uproc) (ic : list inode) : kmem :=
  mkkmem ic (refs c (km_ftable k)) (km_pipes k) (km_pages k) (km_cons k) p.

Definition held_fd (f : nat) : Prop := exists x, km_ftable k !! f = Some x /\ 1 <= f_ref x.

Lemma run_filedup c p ic f : held_fd f -> 0 <= c f < 16 ->
  run (filedup f) (at_refs c p ic) l = Ok (f, at_refs (plus1 f 1 c) p ic, l).
Proof.
  intros (x & Hx & Hr) Hc. pose proof (Forall_lookup_1 _ _ _ _ Hfew Hx) as Hfx. unfold few, NOFILE in Hfx.
  pose proof (lookup_refs c _ _ _ Hx) as Hy. set (y := set_f_ref (f_ref x + c f) x) in *.
  assert (f_ref y = f_ref x + c f) as Ey by (cbn; rewrite s32_small; lia).
  unfold filedup. run_step run_get_file. rewrite (proj2 (Z.ltb_ge _ 1)) by lia.
  run_step run_upd_file. cbn [run]. do 3 f_equal. unfold set_file, at_refs, with_ftable. cbn. f_equal.
  apply (refs_change c 1 _ f x); [done|done|lia|lia].
Qed.

Lemma run_fileclose c p ic f : held_fd f -> 1 <= c f <= 16 ->
  run (fileclose f) (at_refs c p ic) l = Ok (tt, at_refs (plus1 f (-1) c) p ic, l).
Proof.
  intros (x & Hx & Hr) Hc. pose proof (Forall_lookup_1 _ _ _ _ Hfew Hx) as Hfx. unfold few, NOFILE in Hfx.
  pose proof (lookup_refs c _ _ _ Hx) as Hy. set (y := set_f_ref (f_ref x + c f) x) in *.
  assert (f_ref y = f_ref x + c f) as Ey by (cbn; rewrite s32_small; lia).
  unfold fileclose. run_step run_get_file. rewrite (proj2 (Z.ltb_ge _ 1)) by lia.
  run_step run_upd_file. rewrite (proj2 (Z.ltb_lt 0 _)) by lia. cbn [run]. do 3 f_equal.
  unfold set_file, at_refs, with_ftable. cbn. f_equal. apply (refs_change c (-1) _ f x); [done|done|lia|lia].
Qed.

Lemma at_refs_ext c c' p ic : (forall f, c f = c' f) -> at_refs c p ic = at_refs c' p ic.
Proof. intros Hc. unfold at_refs. by rewrite (refs_ext c c'). Qed.

Lemma run_dup_all ofs c p ic :
  (forall f, Some f ∈ ofs -> held_fd f) -> (forall g, 0 <= c g /\ c g + uses ofs g <= 16) ->
  run (for_each ofs dup_fd) (at_refs c p ic) l = Ok (tt, at_refs (fun g => c g + uses ofs g) p ic, l).
Proof.
  revert c. induction ofs as [|o ofs IH]; intros c Hh Hc; cbn [for_each].
  { cbn [run]. do 3 f_equal. apply at_refs_ext. intros g. cbn. lia. }
  assert (forall f, Some f ∈ ofs -> held_fd f) as Hh' by (intros f Hf; apply Hh; by right).
  destruct o as [f|].
  - cbn [dup_fd]. rewrite run_assoc. pose proof (Hc f) as Hcf. cbn [uses] in Hcf. rewrite decide_True in Hcf by done.
    pose proof (uses_range ofs f). run_step run_filedup; [|apply Hh; by left|lia]. cbn [pbind].
    rewrite IH; [|done|].
    + do 3 f_equal. apply at_refs_ext. intros g. unfold plus1. cbn [uses]. destruct (decide (g = f)); lia.
    + intros g. specialize (Hc g). cbn [uses] in Hc. unfold plus1. destruct (decide (g = f)); lia.
  - cbn [dup_fd pbind]. by apply IH.
Qed.

Definition with_rest (i : nat) (rest : list (option nat)) (p : uproc) : uproc := with_ofile (replicate i None ++ rest) p.

Lemma run_close_all n i rest p ic :
  length rest = n -> (n <= 16)%nat -> (forall f, Some f ∈ rest -> held_fd f) ->
  run (for_each (seq i n) close_fd) (at_refs (uses rest) (with_rest i rest p) ic) l =
    Ok (tt, at_refs (fun _ => 0) (with_ofile (replicate (i + n) None) p) ic, l).
Proof.
  revert i rest. induction n as [|n IH]; intros i rest Hl Hn Hh; cbn [seq for_each].
  { destruct rest; [|done]. cbn [run]. unfold with_rest. by rewrite app_nil_r, Nat.add_0_r. }
  destruct rest as [|o rest]; [done|]. injection Hl as Hl. unfold close_fd at 1. rewrite run_assoc.
  erewrite run_bind_Ok; [|reflexivity]. cbn [km_proc at_refs with_rest with_ofile p_ofile].
  rewrite list_lookup_middle by by rewrite length_replicate.
  assert (forall q, with_ofile (<[i := None]> (p_ofile (with_rest i (q :: rest) p))) (with_rest i (q :: rest) p) = with_rest (S i) rest p) as Ep.
  { intros q. unfold with_rest, with_ofile. cbn. f_equal. rewrite insert_app_r_alt by by rewrite length_replicate.
    rewrite length_replicate, Nat.sub_diag. cbn. by rewrite app_comm_cons, replicate_cons_app, <- app_assoc. }
  assert (forall f, Some f ∈ rest -> held_fd f) as Hh' by (intros f Hf; apply Hh; by right).
  replace (i + S n)%nat with (S i + n)%nat by lia. destruct o as [f|].
  - rewrite run_assoc. pose proof (uses_range rest f).
    run_step run_fileclose; [|apply Hh; by left|cbn [uses]; rewrite decide_True by done; lia].
    erewrite run_bind_Ok; [|reflexivity]. rewrite <- (IH (S i) rest) by (done || lia). f_equal. cbn [at_refs km_proc with_proc km_icache km_ftable km_pipes km_pages km_cons].
    rewrite Ep. apply at_refs_ext. intros g. unfold plus1. cbn [uses]. destruct (decide (g = f)); lia.
  - cbn [pbind]. rewrite <- (IH (S i) rest) by (done || lia). f_equal. unfold at_refs. f_equal.
    unfold with_rest. by rewrite replicate_S_end, <- app_assoc.
Qed.
End ForkExit.

Lemma run_ref_inc ip i k (l : lstore) : cached k ip i -> sfs_ops i ->
  run (vop_ref_inc ip) k l = Ok (ip, set_inode ip (set_i_ref (i_ref i + 1) i) k, l).
Proof.
  intros Hc Ho. unfold vop_ref_inc. rewrite (run_vop_both _ _ _ _ _ _ Hc Ho). unfold sfs_idup.
  by run_step run_upd_inode.
Qed.

(** Not the last reference. *)
Lemma run_ref_dec ip i k (l : lstore) : cached k ip i -> sfs_ops i -> i_ref i <> 1 ->
  run (vop_ref_dec ip) k l = Ok (tt, set_inode ip (set_i_ref (i_ref i - 1) i) k, l).
Proof.
  intros Hc Ho Hr. unfold vop_ref_dec. rewrite (run_vop_both _ _ _ _ _ _ Hc Ho). unfold sfs_iput. run_step run_get_inode.
  rewrite (proj2 (Z.eqb_neq _ 1)) by done. cbn [andb pbind]. by rewrite (run_upd_inode _ _ i).
Qed.

(** C18: A child that exits leaves no trace in the file table, in the inode cache or
    on the disk: after [fork] and the child's [exit] every file and the current
    directory have the references they had, however many descriptors share a
    file, and no file has been closed. *)
Theorem fork_exit_files k (l : lstore) i :
  let p := km_proc k in
  Forall few (km_ftable k) -> length (p_ofile p) = NOFILE ->
  (forall f, Some f ∈ p_ofile p -> exists x, km_ftable k !! f = Some x /\ 1 <= f_ref x) ->
  cached k (p_cwd p) i -> sfs_ops i -> 1 <= i_ref i < 2 ^ 31 - 1 ->
  run (x <- fork_files;; child x;;; exit_files) k l = Ok (tt, with_proc (with_ofile (replicate NOFILE None) p) k, l).
Proof.
  intros p Hfew Hlen Hh Hc Ho Hr. unfold NOFILE in *. set (ic := km_icache k).
  set (at_ := fun c p ic => mkkmem ic (refs c (km_ftable k)) (km_pipes k) (km_pages k) (km_cons k) p).
  assert (k = at_ (fun _ => 0) p ic) as Ek by (unfold at_; rewrite refs_none by done; by destruct k).
  unfold fork_files. rewrite run_assoc. erewrite run_bind_Ok; [|reflexivity]. fold p. rewrite run_assoc.
  pose proof (run_dup_all k l Hfew (p_ofile p) (fun _ => 0) p ic Hh) as Hdup.
  rewrite Ek at 1. erewrite run_bind_Ok; [|apply Hdup; intros g; pose proof (uses_range (p_ofile p) g); lia].
  rewrite run_assoc. erewrite run_bind_Ok; [|by apply (run_ref_inc _ i)]. cbn [pbind].
  set (i1 := set_i_ref (i_ref i + 1) i). erewrite run_bind_Ok; [|reflexivity]. unfold exit_files.
  pose proof (run_close_all k l Hfew 16 0 (p_ofile p) p (<[p_cwd p := i1]> ic) Hlen ltac:(lia) Hh) as Hclose.
  erewrite run_bind_Ok; [|refine (eq_trans _ Hclose); by f_equal].
  erewrite run_bind_Ok; [|reflexivity]. cbn [km_proc with_ofile p_cwd].
  rewrite (run_ref_dec _ i1); [| |done|].
  - do 3 f_equal. unfold set_inode, with_icache, with_proc. cbn. rewrite refs_none by done. f_equal.
    rewrite list_insert_insert_eq. rewrite list_insert_id; [done|]. unfold ic. rewrite Hc. f_equal. unfold i1, set_i_ref. cbn.
    rewrite (s32_small (i_ref i + 1)) by lia. replace (i_ref i + 1 - 1) with (i_ref i) by lia. rewrite s32_small by lia. by destruct i.
  - unfold cached. cbn. apply list_lookup_insert_eq. by eapply lookup_lt_Some.
  - cbn. rewrite s32_small; lia.
Qed.
