(* ===== verification/SysTree.v ===== *)
(** * Copying, moving and removing: [sysfile.c], 391-1008

    The [sb_] routines are system calls with C arguments; a path argument of
    theirs is a kernel buffer, threaded because [get_device] writes to it.
    Buffers the code fills and never reads (the [buf] of [sb_remove]) are left
    out. *)

From stdpp Require Import base gmap strings numbers list.
From S2P Require Import Prelude Prog CString Layout Log State SfsInode SfsDir FatBase FatInode FatDir Vop Vfs File Sysfile.

(** ** [cp] and [mv] *)

(** [while( *s != '/' && s != srcpath) s--], from the last byte of the path *)
Fixpoint last_elem (n : nat) (src : list Z) : outcome nat :=
  let? c := rd src n in
  match n with
  | O => Ok O
  | S n' => if c =? chr_slash then Ok n else last_elem n' src
  end.

(** [while( *s != 0) *d++ = *s++; *d = 0], in the memory both point into *)
Fixpoint append_name (fuel : nat) (d s : nat) (m : list Z) : outcome (list Z) :=
  match fuel with
  | O => oob
  | S fuel =>
      let? c := rd m s in
      if c =? 0 then wr m d 0
      else let? m := wr m d c in append_name fuel (S d) (S s) m
  end.

(** The last element of the string at [src], appended to the string at [dest]. *)
Definition append_elem (src dest : nat) (m : list Z) : outcome (list Z) :=
  let? n := strlen (drop src m) in
  if n =? 0 then oob
  else
    let? o := last_elem (Z.to_nat (n - 1)) (drop src m) in
    let? len := strlen (drop dest m) in
    let d := (dest + Z.to_nat len)%nat in
    let? c := rd m (src + o) in
    if negb (c =? chr_slash) then
      let? m := wr m d chr_slash in append_name (S (length m)) (S d) (src + o) m
    else append_name (S (length m)) d (src + o) m.

(** ** Strings of [sb_remove] *)

Fixpoint sb_strcpy (s t : list Z) (d : nat) {struct t} : outcome (list Z) :=
  match t with
  | [] => oob
  | c :: t => let? s := wr s d c in if negb (c =? 0) then sb_strcpy s t (S d) else Ok s
  end.

Fixpoint sb_strcmp (p q : list Z) : outcome Z :=
  match p, q with
  | a :: p, b :: q => if negb (a =? 0) && (a =? b) then sb_strcmp p q else Ok (a - b)
  | _, _ => oob
  end.

Definition sb_strcat (des src : list Z) : outcome (list Z) :=
  let? dlen := strlen des in
  let? slen := strlen src in
  let? des := copyz des dlen (take (Z.to_nat slen) src) in
  wrz des (dlen + slen) 0.

Definition str_slash : list Z := [47; 0].

(** [combine = path + "/" + name] *)
Definition combine_path (path name : list Z) : outcome (list Z) :=
  let? c := sb_strcpy (replicate 512 0) [0] 0 in
  let? c := sb_strcat c path in
  let? c := sb_strcat c str_slash in
  sb_strcat c name.

Definition is_dots {E K} (name : list Z) : prog E K bool :=
  c1 <- lift (sb_strcmp name str_dot);;
  if c1 =? 0 then Ret true else c2 <- lift (sb_strcmp name str_dotdot);; Ret (c2 =? 0).

(** [namecmp(name, ".") == 0 || namecmp(name, "..") == 0] *)
Definition name_dots {E K} (name : list Z) : prog E K bool :=
  c1 <- namecmp name str_dot;;
  if c1 =? 0 then Ret true else c2 <- namecmp name str_dotdot;; Ret (c2 =? 0).

Section Tree.
Context `{DevSw} `{Machine}.

(** [while((count = vop_read(srcnode, buf, offset, 512)) > 0) ...] *)
Definition copy_data (srcnode destnode : nat) : fsprog unit :=
  src <- get_inode srcnode;;
  while_fuel (Z.to_nat (i_size src / 512) + 2) (fun offset =>
    let* (count, buf) := vop_read srcnode offset 512 in
    if 0 <? count then
      vop_write destnode buf offset count;;;
      Ret (inl (offset + 512))
    else Ret (inr tt)) 0.

(** [sys_copy] and [sys_move] up to the last [vop_ref_dec]: [inl] the code
    returns -1.  [temppath] is the local buffer's first contents. *)
Definition copy_node (temppath : list Z) : fsprog (option nat) :=
  src <- argstr 0;; dest <- argstr 1;;
  match src, dest with
  | Some srcpath, Some destpath =>
      srcnode <- lookup_user srcpath;;
      match srcnode with
      | None => Ret None
      | Some srcnode =>
          t <- vop_gettype srcnode;;
          if negb (t =? T_FILE) then Ret None
          else
            d <- user_from destpath;;
            n <- lift (strlen d);;
            temppath <- lift (strncpy temppath d n);;
            let* (destnode, _) := vfs_lookup temppath in
            t <- (match destnode with Some destnode => vop_gettype destnode | None => Ret 0 end);;
            (if t =? T_DIR then
               p <- myproc;;
               m <- lift (append_elem srcpath destpath (p_mem p));;
               upd_proc (with_mem m)
             else Ret tt);;;
            major <- vop_getmajor srcnode;;
            minor <- vop_getminor srcnode;;
            destnode <- create_user destpath T_FILE major minor;;
            match destnode with
            | None => Ret None
            | Some destnode =>
                vop_iunlockput destnode;;;
                vop_ilock srcnode;;;
                copy_data srcnode destnode;;;
                vop_iunlock srcnode;;;
                vop_ref_dec srcnode;;;
                Ret (Some srcpath)
            end
      end
  | _, _ => Ret None
  end.

Definition sys_copy : fsprog Z :=
  begin_trans_;;;
  r <- copy_node (replicate 100 0);;
  commit_trans_;;;
  Ret (match r with Some _ => 0 | None => -1 end).

(** [temppath] is not initialised: it holds what the stack held. *)
Definition sys_move : fsprog Z :=
  begin_trans_;;;
  r <- copy_node (take 100 (stack_junk ++ replicate 100 0));;
  match r with
  | None => commit_trans_;;; Ret (-1)
  | Some srcpath =>
      let* (srcptnode, _) := lookup_parent_user srcpath (replicate 260 0) in
      match srcptnode with
      | None => commit_trans_;;; Ret (-1)
      | Some srcptnode =>
          s <- user_from srcpath;;
          vop_unlink srcptnode s;;;
          commit_trans_;;;
          Ret 0
      end
  end.

(** ** The [sb_] family *)

Definition sb_unlink (path : list Z) : fsprog (Z * list Z) :=
  let* (dp, name, path) := vfs_lookup_parent path name14 in
  match dp with
  | None => Ret (-1, path)
  | Some dp =>
      r <- vop_unlink dp name;;
      Ret (if negb (r =? 0) then -1 else 0, path)
  end.

Definition sb_open (path : list Z) (omode : Z) : fsprog (Z * list Z) :=
  if negb (Z.land omode O_CREATE =? 0) then
    begin_trans_;;;
    let* (ip, path) := create path T_FILE 0 0 in
    commit_trans_;;;
    match ip with
    | None => Ret (-1, path)
    | Some ip => fd <- open_file ip omode;; Ret (fd, path)
    end
  else
    let* (ip, path) := vfs_lookup path in
    match ip with
    | None => Ret (-1, path)
    | Some ip =>
        vop_ilock ip;;;
        r <- vop_open ip omode;;
        if negb (r =? 0) then vop_iunlockput ip;;; Ret (-1, path)
        else fd <- open_file ip omode;; Ret (fd, path)
    end.

(** [proc->ofile[fd]] of a descriptor the kernel got from [fdalloc] *)
Definition ofile (fd : Z) : fsprog (option nat) :=
  p <- myproc;;
  match p_ofile p !! Z.to_nat fd with
  | Some f => if fd <? 0 then undef "access outside ofile" else Ret f
  | None => undef "access outside ofile"
  end.

Definition sb_fstat (fd : Z) : fsprog (Z * option stat) :=
  f <- ofile fd;;
  match f with
  | None => Ret (-1, None)
  | Some f => filestat f
  end.

Definition sb_read (fd n : Z) : fsprog (Z * list Z) :=
  f <- ofile fd;;
  match f with
  | None => Ret (-1, [])
  | Some f => fileread f n
  end.

Definition sb_close (fd : Z) : fsprog Z :=
  if (fd <? 0) || (Z.of_nat NOFILE <=? fd) then Ret (-1)
  else
    f <- ofile fd;;
    match f with
    | None => Ret (-1)
    | Some f => clear_fd fd;;; fileclose f;;; Ret 0
    end.

Definition sb_stat (n : list Z) : fsprog (Z * option stat * list Z) :=
  let* (fd, n) := sb_open n O_RDONLY in
  if fd <? 0 then Ret (-1, None, n)
  else
    let* (r, st) := sb_fstat fd in
    sb_close fd;;;
    Ret (r, st, n).

(** A directory of the simple file system has at most [MAXFILE * 512 / 16]
    entries. *)
Definition dir_fuel : nat := 4481.

(** [while (sb_read(fd, &sfs_de, sizeof(sfs_de)) == sizeof(sfs_de))], the body
    skipped for free entries, "." and "..". *)
Definition for_dirents {A} (fd : Z) (body : list Z -> A -> fsprog A) (a : A) : fsprog A :=
  while_fuel dir_fuel (fun a =>
    let* (r, de) := sb_read fd 16 in
    if negb (r =? 16) then Ret (inr a)
    else
      let de := dec_dirent de in
      if de_inum de =? 0 then Ret (inl a)
      else
        dots <- is_dots (de_name de);;
        if dots : bool then Ret (inl a)
        else a <- body (de_name de) a;; Ret (inl a)) a.

(** The result of opening a directory that is about to be emptied, [None] when
    the code gives up. *)
Definition open_for_remove (path name : list Z) : fsprog (option Z * list Z) :=
  let* (fd, path) := sb_open path 0 in
  if fd <? 0 then Ret (None, path)
  else
    let* (r, _) := sb_fstat fd in
    if r <? 0 then Ret (None, path)
    else
      n <- lift (strlen name);;
      Ret (if 512 <? n + 1 + DIRSIZ + 1 then None else Some fd, path).

(** Each level of recursion lengthens [combine], a buffer of 512 bytes, by two
    bytes or more: 257 levels are more than can be reached. *)
Fixpoint sb_remove (fuel : nat) (path : list Z) {struct fuel} : fsprog (Z * list Z) :=
  match fuel with
  | O => Stop OutOfFuel
  | S fuel =>
      let* (dp, name, path) := vfs_lookup_parent path name14 in
      match dp with
      | None => Ret (-1, path)
      | Some dp =>
          dots <- name_dots name;;
          if dots : bool then Ret (-1, path)
          else
            x <- vop_dirlookup dp name;;
            match x with
            | None => Ret (-1, path)
            | Some (ip, _) =>
                d <- get_inode dp;;
                let fstype := i_fstype d in
                vop_ilock ip;;;
                nlink <- vop_getnlink ip;;
                if nlink <? 1 then Ret (-1, path)
                else
                  t <- vop_gettype ip;;
                  if t =? T_FILE then
                    vop_iunlockput ip;;;
                    let* (_, path) := sb_unlink path in
                    Ret (-1, path)
                  else
                    empty <- vop_isdirempty ip;;
                    vop_iunlockput ip;;;
                    if empty : bool then
                      let* (_, path) := sb_unlink path in
                      Ret (0, path)
                    else if fstype =? SFS_INODE then
                      let* (fd, path) := open_for_remove path name in
                      match fd with
                      | None => Ret (-1, path)
                      | Some fd =>
                          path <- for_dirents fd (fun dename path =>
                            c <- lift (combine_path path dename);;
                            sb_remove fuel c;;;
                            let* (_, path) := sb_unlink path in
                            Ret path) path;;
                          Ret (0, path)
                      end
                    else Ret (-1, path)
            end
      end
  end.

Definition remove_fuel : nat := 257.

(** The part of [sys_remove] after [begin_trans]: the result, and whether the
    code commits before it returns. *)
Definition remove_body (path dp : nat) (name : list Z) : fsprog (Z * bool) :=
  vop_ilock dp;;;
  dots <- name_dots name;;
  if dots : bool then Ret (-1, true)
  else
    x <- vop_dirlookup dp name;;
    match x with
    | None => Ret (-1, true)
    | Some (ip, _) =>
        d <- get_inode dp;;
        let fstype := i_fstype d in
        vop_iunlockput dp;;;
        vop_ilock ip;;;
        nlink <- vop_getnlink ip;;
        if nlink <? 1 then Ret (-1, true)
        else
          t <- vop_gettype ip;;
          if t =? T_FILE then
            vop_iunlockput ip;;;
            sb_unlink name;;;
            Ret (-1, false)
          else
            empty <- vop_isdirempty ip;;
            vop_iunlockput ip;;;
            if empty : bool then sb_unlink name;;; Ret (0, true)
            else if fstype =? SFS_INODE then
              s <- user_from path;;
              let* (fd, s) := open_for_remove s name in
              user_put path s;;;
              match fd with
              | None => Ret (-1, true)
              | Some fd =>
                  buf <- lift (sb_strcpy (replicate 512 0) name 0);;
                  n <- lift (strlen buf);;
                  buf <- lift (wrz buf n chr_slash);;
                  for_dirents fd (fun dename '(buf, name) =>
                    buf <- lift (copyz buf (n + 1) dename);;
                    buf <- lift (wrz buf (n + 1 + DIRSIZ) 0);;
                    let* (_, buf) := sb_remove remove_fuel buf in
                    let* (_, name) := sb_unlink name in
                    Ret (buf, name)) (buf, name);;;
                  Ret (0, true)
              end
            else Ret (-1, true)
    end.

Definition sys_remove : fsprog Z :=
  path <- argstr 0;;
  match path with
  | None => Ret (-1)
  | Some path =>
      let* (dp, name) := lookup_parent_user path name14 in
      match dp with
      | None => Ret (-1)
      | Some dp =>
          begin_trans_;;;
          let* (r, commits) := remove_body path dp name in
          (if commits : bool then commit_trans_ else Ret tt);;;
          Ret r
      end
  end.

Definition sys_rmdir : fsprog Z :=
  path <- argstr 0;;
  match path with
  | None => Ret (-1)
  | Some path =>
      dirnode <- lookup_user path;;
      match dirnode with
      | None => Ret (-1)
      | Some dirnode =>
          t <- vop_gettype dirnode;;
          Ret (if negb (t =? T_DIR) then -1 else 0)
      end
  end.

Definition sys_touch : fsprog Z :=
  begin_trans_;;;
  path <- argstr 0;;
  ip <- (match path with Some path => create_user path T_FILE 0 0 | None => Ret None end);;
  match ip with
  | None => commit_trans_;;; Ret (-1)
  | Some ip => vop_iunlockput ip;;; commit_trans_;;; Ret 0
  end.

Definition sys_find : fsprog Z := Ret 0.
End Tree.
