(* ===== verification/Mkfs.v ===== *)
(** * Making a file system: [mkfs.c]

    The image file is a map from sector numbers to sectors; [xint] and
    [xshort] are the little-endian encodings of [Layout].  An [assert] that
    fails, and a read outside the image, stop the program.  Input files are
    read in full buffers of 512 bytes. *)

From stdpp Require Import base gmap strings numbers list.
From S2P Require Import Prelude Prog CString Layout Log.

Definition nblocks : Z := 985.
Definition nlog : Z := LOGSIZE.
Definition ninodes : Z := 200.
Definition size_ : Z := 1024.

(** The globals of the program. *)
Record mk := mkmk { m_img : gmap Z block; m_freeblock : Z; m_usedblocks : Z; m_freeinode : Z }.

Definition assert_ (b : bool) : outcome unit := if b then Ok tt else Fail (Panic "assert").

Definition bitblocks : Z := size_ / (512 * 8) + 1.

Definition wsect (sec : Z) (buf : block) (m : mk) : mk :=
  mkmk (<[sec := buf]> (m_img m)) (m_freeblock m) (m_usedblocks m) (m_freeinode m).

Definition rsect (sec : Z) (m : mk) : outcome block :=
  match m_img m !! sec with
  | Some b => Ok b
  | None => Fail (Panic "read")
  end.

Definition i2b (inum : Z) : Z := inum / IPB + 2.

Definition winode (inum : Z) (ip : sfs_dinode) (m : mk) : outcome mk :=
  let? buf := rsect (i2b inum) m in
  Ok (wsect (i2b inum) (put_dinode inum ip buf) m).

Definition rinode (inum : Z) (m : mk) : outcome sfs_dinode :=
  let? buf := rsect (i2b inum) m in
  Ok (get_dinode inum buf).

(** [freeinode++], and [x = freeblock++; usedblocks++] *)
Definition next_inode (m : mk) : Z * mk :=
  (m_freeinode m, mkmk (m_img m) (m_freeblock m) (m_usedblocks m) (m_freeinode m + 1)).
Definition next_block (m : mk) : Z * mk :=
  (m_freeblock m, mkmk (m_img m) (m_freeblock m + 1) (m_usedblocks m + 1) (m_freeinode m)).

Definition ialloc (type : Z) (m : mk) : outcome (Z * mk) :=
  let '(inum, m) := next_inode m in
  let? m := winode inum (mkdinode type 0 0 1 0 (replicate 13 0)) m in
  Ok (inum, m).

(** The bitmap: a one for each of the first [used] blocks. *)
Definition bitmap_byte (used i : Z) : Z :=
  foldr (fun j acc => if 8 * i + j <? used then Z.lor acc (Z.shiftl 1 j) else acc) 0 (seqZ 0 8).
Definition balloc (used : Z) (m : mk) : outcome mk :=
  let? _ := assert_ (used <? 512 * 8) in
  Ok (wsect (ninodes / IPB + 3) (map (bitmap_byte used) (seqZ 0 512)) m).

(** The block that holds block [fbn] of the file. *)
Definition iappend_block (fbn : Z) (din : sfs_dinode) (m : mk) : outcome (Z * sfs_dinode * mk) :=
  let set_addr i a :=
    mkdinode (di_type din) (di_major din) (di_minor din) (di_nlink din) (di_size din)
      (<[i := a]> (di_addrs din)) in
  if fbn <? NDIRECT then
    let a := nth (Z.to_nat fbn) (di_addrs din) 0 in
    if a =? 0 then
      let '(x, m) := next_block m in Ok (x, set_addr (Z.to_nat fbn) x, m)
    else Ok (a, din, m)
  else
    let a := nth 12 (di_addrs din) 0 in
    let '(ind, din, m) :=
      if a =? 0 then let '(x, m) := next_block m in (x, set_addr 12%nat x, m)
      else (a, din, m) in
    let? indirect := rsect ind m in
    let o := (4 * Z.to_nat (fbn - NDIRECT))%nat in
    if get_u32 o indirect =? 0 then
      let '(x, m) := next_block m in
      Ok (x, din, wsect ind (put_u32 o x indirect) m)
    else Ok (get_u32 o indirect, din, m).

Fixpoint iappend_loop (fuel : nat) (p : list Z) (off : Z) (din : sfs_dinode) (m : mk)
    : outcome (Z * sfs_dinode * mk) :=
  match fuel with
  | O => Fail OutOfFuel
  | S fuel =>
      let n := Z.of_nat (length p) in
      if negb (0 <? n) then Ok (off, din, m)
      else
        let fbn := off / 512 in
        let? _ := assert_ (fbn <? MAXFILE) in
        let? (x, din, m) := iappend_block fbn din m in
        let n1 := Z.min n ((fbn + 1) * 512 - off) in
        let? buf := rsect x m in
        let m := wsect x (splice (Z.to_nat (off - fbn * 512)) (take (Z.to_nat n1) p) buf) m in
        iappend_loop fuel (drop (Z.to_nat n1) p) (off + n1) din m
  end.

Definition iappend (inum : Z) (p : list Z) (m : mk) : outcome mk :=
  let? din := rinode inum m in
  let? (off, din, m) := iappend_loop (length p + 1) p (di_size din) din m in
  winode inum (mkdinode (di_type din) (di_major din) (di_minor din) (di_nlink din) off (di_addrs din)) m.

(** A directory entry of a NUL-terminated name. *)
Definition mkfs_dirent (inum : Z) (name : list Z) : outcome (list Z) :=
  let? nm := strncpy (replicate 14 0) name DIRSIZ in
  Ok (enc_dirent (mkdirent (u16 inum) nm)).

Definition append_dirent (dir inum : Z) (name : list Z) (m : mk) : outcome mk :=
  let? de := mkfs_dirent inum name in iappend dir de m.

(** [while((cc = read(fd, buf, sizeof(buf))) > 0) iappend(inum, buf, cc);] *)
Fixpoint append_file (fuel : nat) (inum : Z) (bytes : list Z) (m : mk) : outcome mk :=
  match fuel with
  | O => Fail OutOfFuel
  | S fuel =>
      match bytes with
      | [] => Ok m
      | _ => let? m := iappend inum (take 512 bytes) m in append_file fuel inum (drop 512 bytes) m
      end
  end.

(** One file of the command line: its name and its bytes. *)
Definition add_file (rootino : Z) (f : list Z * list Z) (m : mk) : outcome mk :=
  let '(name, bytes) := f in
  let? _ := assert_ (negb (existsb (fun c => c =? 47) (cstr name))) in
  (* Skip leading _ in name when writing to file system. *)
  let name := match name with 95 :: n => n | _ => name end in
  let? (inum, m) := ialloc T_FILE m in
  let? m := append_dirent rootino inum name m in
  append_file (length bytes + 1) inum bytes m.

Fixpoint add_files (rootino : Z) (fs : list (list Z * list Z)) (m : mk) : outcome mk :=
  match fs with
  | [] => Ok m
  | f :: fs => let? m := add_file rootino f m in add_files rootino fs m
  end.

Definition super : sfs_super := mksuper size_ nblocks ninodes nlog.

(** The image before any file is added: every block zero, then the super
    block. *)
Definition blank : mk :=
  let used := ninodes / IPB + 3 + bitblocks in
  let m := mkmk (list_to_map ((fun i => (i, zblock)) <$> seqZ 0 (nblocks + used + nlog))) used used 1 in
  wsect 1 (put_super super zblock) m.

(** fix size of root inode dir *)
Definition fix_root (rootino : Z) (m : mk) : outcome mk :=
  let? din := rinode rootino m in
  winode rootino (mkdinode (di_type din) (di_major din) (di_minor din) (di_nlink din)
                    ((di_size din / BSIZE + 1) * BSIZE) (di_addrs din)) m.

Definition mkfs (fs : list (list Z * list Z)) : outcome mk :=
  let? _ := assert_ (nblocks + m_usedblocks blank + nlog =? size_) in
  let? (rootino, m) := ialloc T_DIR blank in
  let? _ := assert_ (rootino =? ROOTINO) in
  let? m := append_dirent rootino rootino [46; 0] m in
  let? m := append_dirent rootino rootino [46; 46; 0] m in
  let? m := add_files rootino fs m in
  let? m := fix_root rootino m in
  balloc (m_usedblocks m) m.

(** The image as the disk the kernel boots from. *)
Definition image_disk (m : mk) : diskmap := kmap (fun s => (ROOTDEV, s)) (m_img m).
