(* ===== verification/Demo.v ===== *)
(** * A volume on which the theorems apply

    The image [mkfs] makes of two files, mounted, with a transaction open and
    the root directory and one of the files in the inode cache.  The
    conditions of the theorems of [SfsBlock], [SfsFile] and [SfsDirSpec] are
    decidable on it; each is evaluated. *)

From stdpp Require Import base gmap strings numbers list.
From S2P Require Import Mkfs Prelude Prog Bio CString Layout Log LStore Storage State FsLogic SfsBlock SfsInode SfsFile.
From S2P Require Import SfsDir SfsDirSpec Vop VopSpec File FileSpec Sysfile ProcFiles LogRecover Console.

(** ** Deciding the invariants *)

Definition all_below (n : Z) (f : Z -> bool) : bool := forallb f (seqZ 0 n).

Lemma all_below_spec n f : all_below n f = true -> forall x, 0 <= x < n -> f x = true.
Proof.
  unfold all_below. intros Hf x Hx. rewrite forallb_forall in Hf. apply Hf, list_elem_of_In, elem_of_seqZ. lia.
Qed.

Definition blk_okb (l : lstore) (b : bufkey) : bool := dev_ok b.1 b.2 && negb (in_log (ls_geom l) b).

Lemma blk_okb_spec l b : blk_okb l b = true -> blk_ok l b.
Proof. unfold blk_okb. rewrite andb_true_iff, negb_true_iff. done. Qed.

Definition volume_okb (dev : Z) (l : lstore) : bool :=
  let sb := super_of dev l in
  (g_dev (ls_geom l) =? dev) && (0 <=? sb_size sb) && (sb_size sb <=? 2 ^ 28) && (0 <=? dev) && (dev <? 4)
  && (0 <=? g_start (ls_geom l)) && (g_start (ls_geom l) <=? sb_size sb) && blk_okb l (dev, 1)
  && all_below (sb_size sb) (fun b => blk_okb l (bitmap_of dev b l)
       && (length (lget l (bitmap_of dev b l)) =? 512)%nat && (block_used dev l b || (meta_end dev l <? b))).

Lemma volume_okb_spec dev l : volume_okb dev l = true -> volume_ok dev l.
Proof.
  unfold volume_okb. cbv zeta. rewrite !andb_true_iff, !Z.leb_le, Z.ltb_lt, Z.eqb_eq.
  intros [[[[[[[[? ?] ?] ?] ?] ?] ?] Hs%blk_okb_spec] Ha]. pose proof (all_below_spec _ _ Ha) as Hb.
  split; try done.
  - intros b Hr. specialize (Hb b Hr). rewrite !andb_true_iff, Nat.eqb_eq in Hb.
    split; [apply blk_okb_spec|]; apply Hb.
  - intros b Hr Hu. specialize (Hb b Hr). rewrite !andb_true_iff, Hu in Hb. simpl in Hb. lia.
Qed.

Definition file_okb (dev : Z) (i : inode) (l : lstore) : bool :=
  (i_dev i =? dev) && (length (i_addrs i) =? 13)%nat && (0 <=? i_size i) && (i_size i <=? 140 * 512)
  && all_below 141 (fun s =>
       let a := slot i l s in
       ((a =? 0) || ((meta_end dev l <? a) && (a <? g_start (ls_geom l)) && block_used dev l a
          && (length (lget l (dev, a)) =? 512)%nat
          && all_below 141 (fun s' => (s =? s') || negb (a =? slot i l s'))))
       && ((140 <=? s) || (i_size i <=? s * 512) || negb (a =? 0))).

Lemma file_okb_spec dev i l : file_okb dev i l = true -> file_ok dev i l.
Proof.
  unfold file_okb. cbv zeta. rewrite !andb_true_iff, Z.eqb_eq, Nat.eqb_eq, !Z.leb_le.
  intros [[[[? ?] ?] ?] Ha]. pose proof (all_below_spec _ _ Ha) as Hb. clear Ha. split; try done.
  - intros s Hs Hn. specialize (Hb s ltac:(lia)). apply andb_true_iff in Hb as [Hb _].
    rewrite (proj2 (Z.eqb_neq _ _) Hn), orb_false_l, !andb_true_iff, !Z.ltb_lt, Nat.eqb_eq in Hb. split_and!; apply Hb.
  - intros s s' Hs Hs' He Hn. specialize (Hb s ltac:(lia)). apply andb_true_iff in Hb as [Hb _].
    rewrite (proj2 (Z.eqb_neq _ _) Hn), orb_false_l, andb_true_iff in Hb. destruct Hb as [_ Hb].
    pose proof (all_below_spec _ _ Hb s' ltac:(lia)) as H3. rewrite He, Z.eqb_refl, orb_false_r in H3. by apply Z.eqb_eq.
  - intros s Hs Hz. specialize (Hb s ltac:(lia)). apply andb_true_iff in Hb as [_ Hb].
    rewrite !orb_true_iff, !Z.leb_le, negb_true_iff, Z.eqb_neq in Hb. lia.
Qed.

Definition iblock_okb (dev : Z) (i : inode) (l : lstore) : bool :=
  (0 <=? i_inum i) && (i_inum i <? sb_ninodes (super_of dev l)) && (sb_ninodes (super_of dev l) <? 2 ^ 32)
  && blk_okb l (dev, IBLOCK (i_inum i)) && (length (lget l (dev, IBLOCK (i_inum i))) =? 512)%nat.

Lemma iblock_okb_spec dev i l : iblock_okb dev i l = true -> iblock_ok dev i l.
Proof.
  unfold iblock_okb. rewrite !andb_true_iff, Z.leb_le, !Z.ltb_lt, Nat.eqb_eq.
  intros [[[[? ?] ?] ?%blk_okb_spec] ?]. by split.
Qed.

Definition paidb (dev : Z) (S : gset Z) (i : inode) (l : lstore) : bool :=
  all_below (sb_size (super_of dev l)) (fun b => bool_decide ((bitmap_of dev b l).2 ∈ S))
  && ((addr_at i 12 =? 0) || bool_decide (addr_at i 12 ∈ ls_logged l ∪ S)).

Lemma paidb_spec dev S i l : paidb dev S i l = true -> paid dev S i l.
Proof.
  unfold paidb. rewrite andb_true_iff, orb_true_iff, Z.eqb_eq. intros [Ha Hb]. split.
  - intros b Hr. by apply (all_below_spec _ _ Ha b), bool_decide_eq_true_1 in Hr.
  - intros Hn. destruct Hb as [|Hb]; [done|]. by apply bool_decide_eq_true_1 in Hb.
Qed.

Definition readyb (S : gset Z) (n : nat) (l : lstore) : bool :=
  ls_trans l && (size (ls_logged l ∪ S) + n <=? txmax)%nat
  && (Z.of_nat (size (ls_logged l ∪ S) + n) <? g_size (ls_geom l) - 1) && (size (ls_held l) <=? 1)%nat.

Lemma readyb_spec S n l : readyb S n l = true -> ready S n l.
Proof.
  unfold readyb. rewrite !andb_true_iff, !Nat.leb_le, Z.ltb_lt. intros [[[? ?] ?] ?]. by split.
Qed.

(** ** The volume *)

Definition bytes (x : string) : list Z := (Z.of_nat ∘ Ascii.nat_of_ascii <$> String.list_ascii_of_string x).
Definition path (x : string) : list Z := bytes x ++ [0].

Definition demo_files : list (list Z * list Z) :=
  [(path "_cat", bytes "hello world"); (path "README", replicate 700 65)].

Definition ok_or {A} (d : A) (o : outcome A) : A :=
  match o with
  | Ok a => a
  | Fail _ => d
  end.

Definition demo_image : diskmap := image_disk (ok_or blank (mkfs demo_files)).

Definition demo_kmem : kmem :=
  mkkmem (replicate NINODE inode0) (replicate NFILE file0) ∅ [1%nat; 2%nat] console0
    (mkuproc 0 (replicate NOFILE None) false (replicate 400 0) 0).

Definition final {A} (c : fsprog A) (k : kmem) (l : lstore) : kmem * lstore :=
  match run c k l with
  | Ok (_, k', l') => (k', l')
  | Fail _ => (k, l)
  end.

(** Entry 0 of the cache is the root directory, entry 1 the file README;
    both locked, and a transaction open. *)
Definition demo : kmem * lstore :=
  final (r <- sfs_get_root;; sfs_ilock r;;; f <- sfs_iget ROOTDEV 3 0;; sfs_ilock f;;; begin_trans_)
    demo_kmem (fs_boot (disk_geom demo_image) demo_image).
Definition demo_k : kmem := demo.1.
Definition demo_l : lstore := demo.2.
Definition demo_ino (ip : nat) : inode := nth ip (km_icache demo_k) inode0.
Definition demo_S : gset Z := {[28; IBLOCK 1]}.

Lemma demo_cached ip : (ip < 50)%nat -> cached demo_k ip (demo_ino ip).
Proof.
  intros Hip. unfold cached, demo_ino. rewrite nth_lookup.
  destruct (lookup_lt_is_Some_2 (km_icache demo_k) ip) as [i ->]; [|done].
  replace (length (km_icache demo_k)) with 50%nat by by vm_compute. done.
Qed.

Lemma demo_volume : volume_ok ROOTDEV demo_l.
Proof. apply volume_okb_spec. by vm_compute. Qed.

Lemma demo_held : ls_held demo_l = ∅.
Proof. by vm_compute. Qed.

Lemma demo_calm : calm demo_l.
Proof. unfold calm. vm_compute. lia. Qed.

Lemma demo_root : dir_ok ROOTDEV (demo_ino 0) demo_l.
Proof. split; [apply file_okb_spec|..]; by vm_compute. Qed.

Lemma demo_file : file_ok ROOTDEV (demo_ino 1) demo_l.
Proof. apply file_okb_spec. by vm_compute. Qed.

Lemma demo_iblock ip : (ip < 2)%nat -> iblock_ok ROOTDEV (demo_ino ip) demo_l.
Proof. intros Hip. apply iblock_okb_spec. destruct ip as [|[|ip]]; [by vm_compute..|lia]. Qed.

Lemma demo_paid ip : (ip < 2)%nat -> paid ROOTDEV demo_S (demo_ino ip) demo_l.
Proof. intros Hip. apply paidb_spec. destruct ip as [|[|ip]]; [by vm_compute..|lia]. Qed.

Lemma demo_nfree : nfree ROOTDEV demo_l = 981%nat.
Proof. by vm_compute. Qed.

Lemma demo_type ip : (ip < 2)%nat -> i_type (demo_ino ip) <> T_DEV.
Proof. intros Hip. destruct ip as [|[|ip]]; [by vm_compute..|lia]. Qed.

Lemma demo_size ip : (ip < 2)%nat -> i_size (demo_ino ip) = nth ip [512; 700] 0.
Proof. intros Hip. destruct ip as [|[|ip]]; [by vm_compute..|lia]. Qed.

Lemma demo_super : super_of ROOTDEV demo_l = mksuper 1024 985 200 10.
Proof. by vm_compute. Qed.

Definition demo_src : list Z := replicate 600 66.

Lemma demo_name x : name_buf (path x).
Proof. left. unfold terminated, path. apply elem_of_app. right. by left. Qed.

(** The conditions of the theorems, on this volume. *)
Ltac demo_side :=
  lazymatch goal with
  | |- cached _ _ _ => apply demo_cached; lia
  | |- volume_ok _ _ => exact demo_volume
  | |- dir_ok _ _ _ => exact demo_root
  | |- file_ok _ _ _ => exact demo_file
  | |- iblock_ok _ _ _ => apply demo_iblock; lia
  | |- ls_held _ = _ => exact demo_held
  | |- calm _ => exact demo_calm
  | |- i_type _ <> _ => apply demo_type; lia
  | |- paid _ _ _ _ => apply demo_paid; lia
  | |- ready _ _ _ => apply readyb_spec; by vm_compute
  | |- name_buf _ => apply demo_name
  | |- context [i_size (demo_ino _)] => rewrite demo_size by lia; cbn; lia
  | |- (_ <= nfree _ _)%nat => rewrite demo_nfree; apply Nat.leb_le; by vm_compute
  | |- _ <= Z.of_nat (length demo_src) => unfold demo_src; rewrite length_replicate; lia
  | |- _ ∈ demo_S => by vm_compute
  | |- uint_range _ => unfold uint_range; lia
  | |- _ <= MAXFILE * SFS_BSIZE => vm_compute; discriminate
  | |- 0 <= _ <= _ => lia
  | |- 0 <= _ => lia
  | |- _ = _ => by vm_compute
  end.

Lemma demo_first_free : first_free ROOTDEV demo_l 33.
Proof.
  unfold first_free. rewrite demo_super. split; [cbn; lia|]. split; [by vm_compute|].
  apply all_below_spec. by vm_compute.
Qed.

(** ** The block allocator *)

Definition demo_full : lstore := lput (ROOTDEV, 28) (replicate 512 255) demo_l.

Lemma balloc_spec_witness :
  exists l', run (balloc ROOTDEV) demo_k demo_l = Ok (33, demo_k, l') /\ block_used ROOTDEV l' 33 = true.
Proof.
  destruct (balloc_spec ROOTDEV 33 demo_k demo_l) as (l' & Hrun & _ & _ & Hu & _).
  - exact demo_volume.
  - exact demo_held.
  - apply readyb_spec. by vm_compute.
  - exact demo_first_free.
  - apply blk_okb_spec. by vm_compute.
  - exists l'. split; [exact Hrun|]. rewrite Hu; [reflexivity|]. rewrite demo_super. cbn. lia.
Defined.

Lemma balloc_full_witness :
  run (balloc ROOTDEV) demo_k demo_full = Fail (Panic "balloc: out of blocks").
Proof.
  apply balloc_full.
  - apply volume_okb_spec. by vm_compute.
  - assert (ls_held demo_full = ∅) as Hh by by vm_compute. split; intros; rewrite Hh; apply lookup_empty.
  - unfold calm. vm_compute. lia.
  - apply all_below_spec. by vm_compute.
Defined.

Lemma bfree_spec_witness :
  exists l', run (bfree ROOTDEV 31) demo_k demo_l = Ok (tt, demo_k, l') /\ block_used ROOTDEV l' 31 = false.
Proof.
  assert (block_used ROOTDEV demo_l 31 = true) as Hu by by vm_compute.
  assert (0 <= 31 < sb_size (super_of ROOTDEV demo_l)) as Hb by (rewrite demo_super; cbn; lia).
  pose proof (bfree_spec ROOTDEV 31 demo_S 3 demo_k demo_l demo_volume) as Hs. rewrite Hu in Hs.
  destruct Hs as (l' & Hrun & Hf & _).
  - split; intros; rewrite demo_held; apply lookup_empty.
  - apply readyb_spec. by vm_compute.
  - exact Hb.
  - exists l'. split; [exact Hrun|]. by rewrite Hf.
Defined.

(** ** Files *)

Lemma bmap_spec_witness :
  exists i' l', run (bmap 1 20) demo_k demo_l = Ok (slot i' l' 20, set_inode 1 i' demo_k, l') /\
    slot i' l' 20 <> 0 /\ grown ROOTDEV (demo_ino 1) demo_l i' l'.
Proof. apply (bmap_spec ROOTDEV 1 demo_S demo_k (demo_ino 1) demo_l 20); [demo_side..|by vm_compute]. Defined.

Lemma sfs_readi_spec_witness :
  run (sfs_readi 1 600 512) demo_k demo_l = Ok ((100, replicate 100 65), demo_k, demo_l).
Proof.
  rewrite (sfs_readi_spec ROOTDEV 1 demo_k (demo_ino 1) demo_l 600 512); [|demo_side..].
  assert (fdata (demo_ino 1) demo_l 600 100 = replicate 100 65) as Hf by by vm_compute.
  rewrite demo_size by lia. cbn [nth]. change ((700 <? 600) || (2 ^ 32 <=? 600 + 512)) with false.
  change (Z.min 512 (700 - 600)) with 100. cbv zeta iota. by rewrite Hf.
Defined.

(** A write of 600 bytes at offset 650: it changes the second block of the file
    and adds a third. *)
Lemma sfs_writei_spec_witness :
  exists i' l', run (sfs_writei 1 demo_src 650 600) demo_k demo_l = Ok (600, set_inode 1 i' demo_k, l') /\
    write_post ROOTDEV (demo_ino 1) demo_l 650 600 demo_src i' l'.
Proof. apply (sfs_writei_spec ROOTDEV 1 demo_S demo_k (demo_ino 1) demo_l 650 600 demo_src); demo_side. Defined.

Lemma sfs_writei_refused_witness :
  run (sfs_writei 1 demo_src 701 600) demo_k demo_l = Ok (-1, demo_k, demo_l).
Proof. apply (sfs_writei_refused 1 demo_k (demo_ino 1)); [demo_side..|left; demo_side]. Defined.

Lemma sfs_write_read_witness :
  exists k' l', run (sfs_writei 1 demo_src 650 600;;; sfs_readi 1 650 600) demo_k demo_l =
    Ok ((600, take 600 demo_src), k', l').
Proof. apply (sfs_write_read ROOTDEV 1 demo_S demo_k (demo_ino 1) demo_l 650 600 demo_src); demo_side. Defined.

Lemma write_fits_transaction_witness :
  exists i' l', run (sfs_writei 1 demo_src 650 600) demo_k demo_l = Ok (600, set_inode 1 i' demo_k, l') /\
    write_post ROOTDEV (demo_ino 1) demo_l 650 600 demo_src i' l'.
Proof.
  apply (write_fits_transaction ROOTDEV 1 demo_k (demo_ino 1) demo_l 650 600 demo_src);
    try demo_side; try rewrite demo_super; vm_compute; discriminate.
Defined.

(** ** Directories *)

Lemma demo_lookup : list_find (entry_is (path "cat")) (dents (demo_ino 0) demo_l) =
  Some (2%nat, mkdirent 2 (pad 14 (bytes "cat"))).
Proof. by vm_compute. Qed.

Lemma sfs_dirlookup_spec_witness :
  run (sfs_dirlookup 0 (path "cat")) demo_k demo_l =
    run (ip <- sfs_iget ROOTDEV 2 0;; Ret (Some (ip, 32))) demo_k demo_l.
Proof.
  rewrite (sfs_dirlookup_spec ROOTDEV 0 demo_k (demo_ino 0) demo_l (path "cat")); [|demo_side..].
  by rewrite demo_lookup.
Defined.

Lemma demo_bytes : Forall is_byte (path "new").
Proof. unfold path, bytes. repeat constructor; cbn; lia. Qed.


Lemma sfs_dirlink_exists_witness :
  exists ip k' l', run (sfs_dirlink 0 (path "cat") 1) demo_k demo_l = run (sfs_iput ip;;; Ret (-1)) k' l'.
Proof.
  assert (forall o : outcome (nat * kmem * lstore), (if o then true else false) = true ->
    exists ip k' l', o = Ok (ip, k', l')) as Hok by (intros [[[ip k'] l']|e] Ho; [eauto|done]).
  destruct (Hok (run (sfs_iget ROOTDEV 2 0) demo_k demo_l)) as (ip & k' & l' & Hg); [by vm_compute|].
  exists ip, k', l'.
  apply (sfs_dirlink_exists ROOTDEV 0 demo_k (demo_ino 0) demo_l (path "cat") 1 2
    (mkdirent 2 (pad 14 (bytes "cat"))) ip k' l'); [demo_side..|exact demo_lookup|exact Hg].
Defined.

(** ** Writing through an open file

    README is open for writing at offset 650, and not locked; no transaction is
    open.  4000 bytes take three transactions. *)

Definition open_l : lstore := fs_boot (disk_geom demo_image) demo_image.
Definition open_k : kmem :=
  (final (f <- sfs_iget ROOTDEV 3 0;; sfs_ilock f;;; sfs_iunlock f;;;
          upd_file 0 (fun _ => mkfile FD_INODE 1 false true 0 f 650)) demo_kmem open_l).1.
Definition open_f : file := nth 0 (km_ftable open_k) file0.
Definition open_i : inode := nth 0 (km_icache open_k) inode0.
Definition long_src : list Z := replicate 4000 66.

Lemma open_stored : stored ROOTDEV open_i open_l.
Proof.
  split; [|by vm_compute]. unfold dinode_ok, short_range, uint_range. apply (bool_decide_unpack _). by vm_compute.
Qed.

Lemma open_demo : sfs_opened ROOTDEV 0 0 open_f open_i open_k open_l.
Proof.
  split; [by vm_compute|by vm_compute|by vm_compute|by vm_compute|vm_compute; split; discriminate|by vm_compute|
    right; by vm_compute|by vm_compute|by vm_compute|vm_compute; discriminate|vm_compute; discriminate|
    apply volume_okb_spec; by vm_compute|apply file_okb_spec; by vm_compute|apply iblock_okb_spec; by vm_compute|
    exact open_stored|reflexivity|reflexivity|reflexivity|reflexivity|vm_compute; discriminate|vm_compute; discriminate].
Qed.

Lemma open_room : (4 * rounds 4000 + 2 <= nfree ROOTDEV open_l)%nat.
Proof. apply Nat.leb_le. by vm_compute. Qed.

Lemma open_room_long : (4 * rounds 70656 + 2 <= nfree ROOTDEV open_l)%nat.
Proof. apply Nat.leb_le. by vm_compute. Qed.

(** 4000 bytes are written; of 80000 the first 46 rounds are. *)
Lemma filewrite_spec_witness :
  (exists i' l',
    run (@filewrite console_devsw 0 long_src 4000) open_k open_l =
      Ok (4000, after_write 0 0 4000 open_f i' open_k, l') /\
    sfs_opened ROOTDEV 0 0 (moved 4000 open_f) i' (after_write 0 0 4000 open_f i' open_k) l' /\
    file_wrote ROOTDEV open_i open_l (f_off open_f) 4000 long_src i' l') /\
  exists i' l',
    run (@filewrite console_devsw 0 (replicate (Z.to_nat 80000) 66) 80000) open_k open_l =
      Ok (-1, after_write 0 0 70656 open_f i' open_k, l') /\
    sfs_opened ROOTDEV 0 0 (moved 70656 open_f) i' (after_write 0 0 70656 open_f i' open_k) l' /\
    file_wrote ROOTDEV open_i open_l (f_off open_f) 70656 (replicate (Z.to_nat 80000) 66) i' l'.
Proof.
  assert (f_off open_f = 650) as Ho by (vm_compute; reflexivity).
  split.
  - pose proof (@filewrite_spec console_devsw ROOTDEV 0 0 long_src 4000 open_f open_i open_k open_l) as H. cbv zeta in H.
    rewrite Ho in H. change (bytes_fit 650 4000) with 4000 in H. rewrite Ho. apply H; [exact open_demo| |exact open_room].
    unfold long_src. rewrite length_replicate. lia.
  - pose proof (@filewrite_spec console_devsw ROOTDEV 0 0 (replicate (Z.to_nat 80000) 66) 80000 open_f open_i open_k open_l) as H.
    cbv zeta in H. rewrite Ho in H. change (bytes_fit 650 80000) with 70656 in H. rewrite Ho. apply H; [exact open_demo| |exact open_room_long].
    rewrite length_replicate. lia.
Defined.

(** The machine after mounting the image. *)
Definition open_machine : logged bstate :=
  match run initlog log0 (boot_state demo_image) with
  | Ok (_, lg, c) => mklogged lg c
  | Fail _ => mklogged log0 (boot_state demo_image)
  end.

Lemma image_wf : disk_wf demo_image.
Proof.
  assert (map_Forall (fun _ b => length b = 512%nat) demo_image) as Hm
    by (apply (bool_decide_unpack _); by vm_compute).
  intros k. unfold disk_get. destruct (demo_image !! k) as [b|] eqn:Hb; [|done]. exact (Hm k b Hb).
Qed.

Lemma image_geom : disk_geom demo_image = mkgeom ROOTDEV 1014 10.
Proof. by vm_compute. Qed.

Lemma image_geom_ok : geom_ok (disk_geom demo_image).
Proof. rewrite image_geom. unfold geom_ok, ROOTDEV. simpl. lia. Qed.

Lemma image_committed : committed (disk_geom demo_image) demo_image demo_image.
Proof. apply committed_empty; [exact image_geom_ok|exact image_wf|by vm_compute|done]. Qed.

Lemma open_mounted : mounted demo_image open_machine.
Proof.
  destruct (initlog_stack demo_image demo_image image_geom_ok image_committed) as (lg & c & Hrun & _).
  unfold mounted, open_machine. rewrite Hrun. reflexivity.
Qed.

Definition reboot_log : log := mklog 1014 10 false ROOTDEV 0 (replicate 10 0).

Lemma filewrite_crash_safe_witness :
  let d1 := st_disk open_machine in
  exists m i' D' lg' c, 0 <= m <= 4000 /\ (m mod 1536 = 0 \/ m = 4000) /\
    run recover_from_log reboot_log (boot_state d1) = Ok (tt, lg', c) /\
    stack_rel (disk_geom demo_image) (fs_boot (disk_geom demo_image) D') (mklogged lg' c) /\
    file_wrote ROOTDEV open_i open_l (f_off open_f) m long_src i' (fs_boot (disk_geom demo_image) D').
Proof.
  apply (@filewrite_crash_safe console_devsw 0 0 long_src 4000 open_f open_i open_k demo_image demo_image
    open_machine reboot_log image_geom_ok image_committed open_mounted open_demo) with (d1 := st_disk open_machine);
    [unfold long_src; rewrite length_replicate; lia|vm_compute; discriminate|exact open_room
    |rewrite image_geom; by split|reflexivity|apply disks_start|apply reboots_now].
Defined.

(** A process with README open on two descriptors forks, and the child exits. *)
Definition forker : kmem :=
  with_proc (mkuproc 0 (Some 0%nat :: Some 0%nat :: replicate 14 None) false [] 0) open_k.

Lemma fork_exit_files_witness :
  run (x <- fork_files;; child x;;; exit_files) forker open_l =
    Ok (tt, with_proc (with_ofile (replicate NOFILE None) (km_proc forker)) forker, open_l).
Proof.
  apply (fork_exit_files forker open_l open_i).
  - unfold few. apply (bool_decide_unpack _). by vm_compute.
  - reflexivity.
  - intros f Hf. exists open_f. assert (f = 0%nat) as ->.
    { cbn in Hf. rewrite !elem_of_cons, elem_of_nil in Hf. naive_solver. }
    split; [by vm_compute|by vm_compute].
  - by vm_compute.
  - right. by vm_compute.
  - split; by vm_compute.
Defined.
