(* ===== verification/FatDemo.v ===== *)
(** * A FAT32 volume

    A volume of 20 sectors with two FATs of a sector each, one sector a
    cluster: the root directory in cluster 2, and a file of 700 bytes in
    clusters 3 and 5 whose entry is the second of the root directory. *)

From stdpp Require Import base gmap strings numbers list.
From S2P Require Import Prelude Prog Layout Log LStore State FsLogic FatBase FatInode FatSpec FatAlloc FatWrite FatFile FatEntry Vop Console Demo.

Definition fd_bpb : block :=
  put_u16 11 512 (put_u8 13 1 (put_u16 14 2 (put_u8 16 2 (put_u32 32 20 (put_u32 36 1 (put_u16 48 1 zblock)))))).
Definition fd_fsi : block := put_free_count 14 (put_nxt_free 4 zblock).
Definition fd_fat : block :=
  put_u32 0 LAST_FAT_ENTRY (put_u32 4 LAST_FAT_ENTRY (put_u32 8 LAST_FAT_ENTRY (put_u32 12 5 (put_u32 20 LAST_FAT_ENTRY zblock)))).
Definition fd_root : block :=
  put_de 1 (put_u32 28 700 (put_u16 26 3 (put_u8 11 0x20 (splice 0 [70; 73; 76; 69; 32; 32; 32; 32; 32; 32; 32] (replicate 32 0))))) zblock.

Definition fd_store : lstore :=
  let view : diskmap := list_to_map [((2, 0), fd_bpb); ((2, 1), fd_fsi); ((2, 2), fd_fat); ((2, 3), fd_fat); ((2, 4), fd_root);
    ((2, 5), replicate 512 97); ((2, 7), replicate 188 98 ++ replicate 324 0)] in
  mklstore (mkgeom 1 2 10) view view ∅ ∅ false.
Definition fd_inode : inode := mkinode 2 3 1 3 T_FILE 0 0 1 700 (2 :: replicate 12 0) FAT_INODE (Some fat_node_fileops).
Definition fd_kernel : kmem := mkkmem [fd_inode] [] ∅ [] console0 (mkuproc 0 [] false [] 0).

Lemma fd_bpb_of : bpb_of 2 fd_store = mkBPB 512 1 2 2 20 1 1.
Proof. vm_compute. reflexivity. Qed.

Lemma fd_vol : fat_vol 2 fd_store.
Proof.
  split; rewrite fd_bpb_of.
  - split; unfold data_start; cbn; lia.
  - intros s Hs. split; [|done]. cbn in Hs. unfold dev_ok. cbn. lia.
  - intros s Hs. apply Nat.eqb_eq, (all_below_spec 20 (fun s => Nat.eqb (length (lget fd_store (2, s))) 512)); [vm_compute; reflexivity|done].
Qed.

Lemma fd_unlogged : unlogged 2 fd_store.
Proof. intros s. reflexivity. Qed.

Lemma fd_idle : idle 2 fd_store.
Proof. split; [done|vm_compute; lia|vm_compute; lia]. Qed.

Lemma fd_chain : chain 2 fd_store 3 [3; 5].
Proof. vm_compute. repeat split; discriminate || auto. Qed.
Lemma fd_dir : chain 2 fd_store 2 [2].
Proof. vm_compute. repeat split; discriminate || auto. Qed.

Lemma fd_file : fat_file 2 fd_store fd_inode [3; 5].
Proof. split; [done|apply fd_chain|rewrite fd_bpb_of; cbn; lia|rewrite fd_bpb_of; cbn; lia]. Qed.

Lemma fd_mirror : mirrored 2 fd_store.
Proof.
  intros s i. rewrite fd_bpb_of. intros Hs Hi. unfold fat_sec in Hs. cbn in Hs, Hi. assert (s = 2) as -> by lia. 
  assert (i = 0 \/ i = 1) as [-> | ->] by lia; vm_compute; reflexivity.
Qed.

Lemma fd_first : first_entry 2 fd_store [2] 3 0 1.
Proof.
  split; [rewrite fd_bpb_of; cbn; lia|lia|vm_compute; reflexivity|]. intros t j Ht Hj [Hlt|Hlt]; [lia|].
  assert (t = 0) as -> by lia. assert (j = 0%nat) as -> by lia. vm_compute. discriminate.
Qed.

Lemma fd_disjoint x : x ∈ [2] -> x ∉ [3; 5].
Proof. intros ->%list_elem_of_singleton. rewrite !not_elem_of_cons. split_and!; [lia|lia|apply not_elem_of_nil]. Qed.

Lemma fd_hint : hint_ok 2 fd_store.
Proof. split; [split|]; by apply Z.leb_le. Qed.

(** Reading 30 bytes across the boundary of the two clusters. *)
Lemma fat_readi_spec_witness :
  run (fat_readi 0 500 30) fd_kernel fd_store = Ok ((30, fat_bytes 2 fd_store [3; 5] 500 30), fd_kernel, fd_store) /\
  fat_bytes 2 fd_store [3; 5] 500 30 = replicate 12 97 ++ replicate 18 98.
Proof.
  split; [|vm_compute; reflexivity].
  exact (fat_readi_spec 2 fd_store [3; 5] fd_inode 0 500 30 fd_kernel fd_idle fd_vol eq_refl fd_file
    ltac:(discriminate) ltac:(discriminate) ltac:(lia) ltac:(lia)).
Defined.

Lemma fd_free : free_cluster 2 fd_store = Some 4.
Proof. vm_compute. reflexivity. Qed.

(** The hint is cluster 4, which is free. *)
Lemma fat_calloc_spec_witness : exists l', run (fat_calloc 2) fd_kernel fd_store = Ok (4, fd_kernel, l') /\ allocated 2 fd_store 4 l'.
Proof.
  pose proof (fat_calloc_spec 2 fd_store fd_kernel fd_vol fd_unlogged eq_refl ltac:(vm_compute; lia) fd_hint) as H. rewrite fd_free in H.
  destruct H as (l' & H1 & H2 & _). exists l'. split; [exact H1|exact H2].
Defined.

Lemma fd_room : room 2 fd_store [3; 5] 700 400.
Proof.
  right. exists 4. split_and!; [apply fd_hint|apply fd_free|..]; unfold cluster_ok, csize, data_start; rewrite fd_bpb_of; cbn; lia.
Qed.


(** ** Where the code falls short *)

(** The volume with clusters 2 to 17 in use, which are all it has sectors
    for. *)
Definition fd_full : lstore :=
  let fat := splice 0 (mjoin (replicate 18 (le_enc 4 LAST_FAT_ENTRY))) zblock in
  lput (2, 3) fat (lput (2, 2) fat fd_store).

(** [fat_calloc] counts the sectors before the data as clusters, and hands out
    a cluster beyond the end of the volume. *)
Lemma calloc_beyond_end :
  match run (fat_calloc 2) fd_kernel fd_full with
  | Ok (c, _, _) => c = 18 /\ first_sec (bpb_of 2 fd_full) c = TotSec32 (bpb_of 2 fd_full)
  | Fail _ => False
  end.
Proof. vm_compute. split; reflexivity. Qed.

(** A write that needs two more clusters releases the FAT sector with the link
    to the first of them without writing it. *)
Lemma writei_two_clusters :
  run (fat_writei 0 (replicate 1000 99) 700 1000) fd_kernel fd_store = Fail (Undef "changed buffer released without a write").
Proof. vm_compute. reflexivity. Qed.

(** A write of no bytes at the end of the last cluster allocates a cluster. *)
Lemma writei_nothing_allocates :
  match run (fat_writei 0 [] 1024 0) (set_inode 0 (set_i_size 1024 fd_inode) fd_kernel) fd_store with
  | Ok (r, _, l) => r = 0 /\ fat_at 2 fd_store 5 = LAST_FAT_ENTRY /\ fat_at 2 l 5 = 4
  | Fail _ => False
  end.
Proof. vm_compute. split_and!; reflexivity. Qed.
