(* ===== verification/Kalloc.v ===== *)
(** * Physical memory and its allocator: [kalloc.c], [memlayout.h], [mmu.h]

    Physical memory is a map from page frames to their bytes; a kernel address
    [v] is the physical address [v - KERNBASE].  The free list is threaded
    through the free pages themselves: [r->next] is the first word of page
    [r].

    The code is a [prog] over any signature of disk operations, because the
    callers ([exec], [fork], pipes) mix it with file-system code. *)

From stdpp Require Import base gmap strings numbers list.
From S2P Require Import Prelude Prog.

Definition PGSIZE : Z := 4096.
Definition EXTMEM : Z := 0x100000.
Definition PHYSTOP : Z := 0xE000000.
Definition DEVSPACE : Z := 0xFE000000.
Definition KERNBASE : Z := 0x80000000.
Definition KERNLINK : Z := KERNBASE + EXTMEM.

Definition v2p (a : Z) : Z := u32 (a - KERNBASE).
Definition p2v (a : Z) : Z := u32 (a + KERNBASE).

Definition PGROUNDUP (sz : Z) : Z := Z.land (u32 (sz + PGSIZE - 1)) (Z.lnot (PGSIZE - 1)).
Definition PGROUNDDOWN (a : Z) : Z := Z.land (u32 a) (Z.lnot (PGSIZE - 1)).

(** The symbols [kernel.ld] defines: [data], where writable data starts, and
    [end], the first address after the kernel. *)
Class Linker := { lk_data : Z; lk_end : Z }.

(** What [kernel.ld] and the boot page table (which maps 4 MB) guarantee of
    them. *)
Class LinkerOk `{Linker} := {
  lk_align : lk_data mod PGSIZE = 0;
  lk_order : KERNLINK < lk_data <= lk_end;
  lk_mapped : lk_end <= KERNBASE + 4 * 1024 * 1024;
}.

Abbreviation page := (list Z).
Definition zpage : page := replicate 4096 0.

Record phys := mkphys { ph_mem : gmap Z page; ph_freelist : Z; ph_use_lock : bool }.

Definition page_of (m : phys) (f : Z) : page := default zpage (ph_mem m !! f).
Definition set_page (f : Z) (p : page) (m : phys) : phys :=
  mkphys (<[f := p]> (ph_mem m)) (ph_freelist m) (ph_use_lock m).
Definition set_freelist (v : Z) (m : phys) : phys := mkphys (ph_mem m) v (ph_use_lock m).
Definition set_use_lock (b : bool) (m : phys) : phys := mkphys (ph_mem m) (ph_freelist m) b.

Section Kalloc.
Context {E : Type -> Type} `{Linker}.
Abbreviation mprog := (prog E phys).

(** The frame of a kernel address, which must be in memory. *)
Definition frame_at (v : Z) : mprog Z :=
  let pa := v2p v in
  if pa <? PHYSTOP then Ret (pa - pa mod PGSIZE) else undef "address outside memory".

(** A word of memory: [ *(uint* )a ]. *)
Definition ld32 (a : Z) : mprog Z :=
  f <- frame_at a;;
  if negb (a mod 4 =? 0) then undef "misaligned access"
  else m <- get;; Ret (get_u32 (Z.to_nat (a mod PGSIZE)) (page_of m f)).
Definition st32 (a v : Z) : mprog unit :=
  f <- frame_at a;;
  if negb (a mod 4 =? 0) then undef "misaligned access"
  else modify (fun m => set_page f (put_u32 (Z.to_nat (a mod PGSIZE)) v (page_of m f)) m).

(** [memset(v, c, PGSIZE)] of a page *)
Definition memset_page (v c : Z) : mprog unit :=
  f <- frame_at v;; modify (set_page f (replicate 4096 (u8 c))).

(** Free the page of physical memory pointed at by v. *)
Definition kfree (v : Z) : mprog unit :=
  if negb (v mod PGSIZE =? 0) || (v <? lk_end) || (PHYSTOP <=? v2p v) then panic "kfree"
  else
    (* Fill with junk to catch dangling refs. *)
    memset_page v 1;;;
    m <- get;;
    st32 v (ph_freelist m);;;
    modify (set_freelist v).

(** Allocate one 4096-byte page of physical memory; 0 if there is none. *)
Definition kalloc : mprog Z :=
  m <- get;;
  let r := ph_freelist m in
  (if negb (r =? 0) then next <- ld32 r;; modify (set_freelist next) else Ret tt);;;
  Ret r.

Definition freerange (vstart vend : Z) : mprog unit :=
  while_fuel (Z.to_nat (vend / PGSIZE) + 1) (fun p =>
    if p + PGSIZE <=? vend then kfree p;;; Ret (inl (p + PGSIZE)) else Ret (inr tt))
    (PGROUNDUP vstart).

Definition kinit1 (vstart vend : Z) : mprog unit :=
  modify (set_use_lock false);;;
  freerange vstart vend.

Definition kinit2 (vstart vend : Z) : mprog unit :=
  freerange vstart vend;;;
  modify (set_use_lock true).
End Kalloc.

(** ** Address arithmetic *)

Lemma land_lnot_page x : 0 <= x -> Z.land x (Z.lnot (PGSIZE - 1)) = x / 4096 * 4096.
Proof.
  intros Hx. change (PGSIZE - 1) with (Z.ones 12). rewrite <- Z.ldiff_land, Z.ldiff_ones_r by lia.
  rewrite Z.shiftl_mul_pow2, Z.shiftr_div_pow2 by lia. done.
Qed.

Lemma PGROUNDUP_eq sz : 0 <= sz <= 2 ^ 32 - 4096 -> PGROUNDUP sz = (sz + 4095) / 4096 * 4096.
Proof.
  intros Hs. unfold PGROUNDUP, PGSIZE. rewrite u32_small by lia. rewrite land_lnot_page by lia.
  f_equal. f_equal. lia.
Qed.

Lemma PGROUNDDOWN_eq a : 0 <= a < 2 ^ 32 -> PGROUNDDOWN a = a / 4096 * 4096.
Proof. intros Ha. unfold PGROUNDDOWN. rewrite u32_small by lia. apply land_lnot_page. lia. Qed.

Lemma v2p_eq v : KERNBASE <= v < 2 ^ 32 -> v2p v = v - KERNBASE.
Proof. intros Hv. unfold v2p, KERNBASE in *. apply u32_small. lia. Qed.

Lemma p2v_eq f : 0 <= f < KERNBASE -> p2v f = f + KERNBASE.
Proof. intros Hf. unfold p2v, KERNBASE in *. apply u32_small. lia. Qed.

(** ** The free list *)

Section KallocFacts.
Context `{LinkerOk}.
Context {E : Type -> Type} {B : Type} `{Store E B}.
Implicit Types (m : phys) (f : Z) (l : list Z) (b : B).

(** A page frame in memory, and one the allocator may own. *)
Definition frame f : Prop := f mod 4096 = 0 /\ 0 <= f < PHYSTOP.
Definition kpage f : Prop := f mod 4096 = 0 /\ lk_end - KERNBASE <= f < PHYSTOP.

Lemma kpage_frame f : kpage f -> frame f.
Proof.
  pose proof lk_order. unfold kpage, frame, KERNLINK, EXTMEM in *. lia.
Qed.

Lemma frame_v2p f : frame f -> v2p (f + KERNBASE) = f.
Proof. unfold frame, PHYSTOP. intros Hf. rewrite v2p_eq; unfold KERNBASE in *; lia. Qed.

Lemma frame_p2v f : frame f -> p2v f = f + KERNBASE.
Proof. unfold frame, PHYSTOP. intros Hf. apply p2v_eq. unfold KERNBASE in *. lia. Qed.

(** The pages [l] are linked from [v] on. *)
Fixpoint linked (m : phys) (v : Z) (l : list Z) : Prop :=
  match l with
  | [] => v = 0
  | f :: l => v = f + KERNBASE /\ linked m (get_u32 0 (page_of m f)) l
  end.

Record free_ok (m : phys) (l : list Z) : Prop := {
  fr_linked : linked m (ph_freelist m) l;
  fr_nodup : NoDup l;
  fr_pages : Forall kpage l;
  fr_length : forall f, length (page_of m f) = 4096%nat;
}.

Lemma page_set f p m f' : page_of (set_page f p m) f' = if decide (f' = f) then p else page_of m f'.
Proof.
  unfold page_of, set_page. simpl. case_decide as Hd.
  - subst. by rewrite lookup_insert_eq.
  - by rewrite lookup_insert_ne by done.
Qed.

Lemma linked_ext m m' v l : (forall f, f ∈ l -> page_of m' f = page_of m f) -> linked m v l -> linked m' v l.
Proof.
  revert v. induction l as [|f l IH]; intros v Hp; simpl; [done|]. intros [Hv Hl]. split; [done|].
  rewrite Hp by by left. apply IH; [|done]. intros f' Hf'. apply Hp. by right.
Qed.

(** Pages outside the free list can be written. *)
Lemma free_set_page m l f p :
  free_ok m l -> f ∉ l -> length p = 4096%nat -> free_ok (set_page f p m) l.
Proof.
  intros Hf Hin Hp. split; try apply Hf.
  - eapply linked_ext; [|apply Hf]. intros f' Hf'. rewrite page_set, decide_False; [done|]. by intros ->.
  - intros f'. rewrite page_set. case_decide; [done|apply Hf].
Qed.

Lemma run_frame_at v m b : KERNBASE <= v < KERNBASE + PHYSTOP ->
  run (E := E) (frame_at v) m b = Ok (v - KERNBASE - (v - KERNBASE) mod 4096, m, b).
Proof.
  intros Hv. unfold frame_at. rewrite v2p_eq by (unfold KERNBASE, PHYSTOP in *; lia).
  rewrite (proj2 (Z.ltb_lt _ _)) by lia. done.
Qed.

(** Word [i] of page [f]. *)
Definition word (m : phys) (f i : Z) : Z := get_u32 (4 * Z.to_nat i) (page_of m f).
Definition set_word (f i v : Z) (m : phys) : phys :=
  set_page f (put_u32 (4 * Z.to_nat i) v (page_of m f)) m.

Lemma run_ld32 f i m b : frame f -> 0 <= i < 1024 ->
  run (E := E) (ld32 (f + KERNBASE + 4 * i)) m b = Ok (word m f i, m, b).
Proof.
  intros [Hf Hr] Hi. unfold ld32. rewrite run_bind, run_frame_at by (unfold KERNBASE, PHYSTOP in *; lia).
  unfold KERNBASE. rewrite (proj2 (Z.eqb_eq _ 0)) by lia. simpl. do 3 f_equal. unfold word. f_equal; [|f_equal]; unfold PGSIZE; lia.
Qed.

Lemma run_st32 f i v m b : frame f -> 0 <= i < 1024 ->
  run (E := E) (st32 (f + KERNBASE + 4 * i) v) m b = Ok (tt, set_word f i v m, b).
Proof.
  intros [Hf Hr] Hi. unfold st32. rewrite run_bind, run_frame_at by (unfold KERNBASE, PHYSTOP in *; lia).
  unfold KERNBASE. rewrite (proj2 (Z.eqb_eq _ 0)) by lia. simpl. unfold set_word.
  replace (f + 2147483648 + 4 * i - 2147483648 - (f + 2147483648 + 4 * i - 2147483648) mod 4096) with f by lia.
  replace (Z.to_nat ((f + 2147483648 + 4 * i) mod PGSIZE)) with (4 * Z.to_nat i)%nat by (unfold PGSIZE; lia). done.
Qed.

Lemma run_memset_page f c m b : frame f ->
  run (E := E) (memset_page (f + KERNBASE) c) m b = Ok (tt, set_page f (replicate 4096 (u8 c)) m, b).
Proof.
  intros [Hf Hr]. unfold memset_page. rewrite run_bind, run_frame_at by (unfold KERNBASE, PHYSTOP in *; lia).
  simpl. do 3 f_equal. unfold KERNBASE. f_equal. lia.
Qed.

Lemma word_set f i v m f' i' :
  length (page_of m f) = 4096%nat -> 0 <= i < 1024 -> 0 <= i' < 1024 ->
  word (set_word f i v m) f' i' = if decide (f' = f /\ i' = i) then u32 v else word m f' i'.
Proof.
  intros Hl Hi Hi'. unfold word, set_word. rewrite page_set. destruct (decide (f' = f)) as [->|].
  - destruct (decide (i' = i)) as [->|].
    + rewrite decide_True by done. apply get_put_u32. lia.
    + rewrite decide_False by tauto. unfold get_u32. f_equal. apply slice_put_u32_other; lia.
  - by rewrite decide_False by tauto.
Qed.

Lemma run_kalloc m f l b : free_ok m (f :: l) ->
  exists m', run (E := E) kalloc m b = Ok (f + KERNBASE, m', b) /\ free_ok m' l /\ ph_mem m' = ph_mem m.
Proof.
  intros Hf. destruct (fr_linked _ _ Hf) as [Hv Hl]. pose proof (fr_nodup _ _ Hf) as Hn. pose proof (fr_pages _ _ Hf) as Hp.
  apply NoDup_cons in Hn as [Hn1 Hn2]. apply Forall_cons in Hp as [Hp1 Hp2].
  exists (set_freelist (word m f 0) m). unfold kalloc. rewrite run_bind. cbn [run get]. rewrite Hv.
  destruct (kpage_frame _ Hp1) as [Ha Hb]. rewrite (proj2 (Z.eqb_neq _ 0)) by (unfold KERNBASE; lia). cbn [negb].
  rewrite !run_bind. replace (f + KERNBASE) with (f + KERNBASE + 4 * 0) at 1 by lia.
  rewrite run_ld32 by (done || lia). simpl. split_and!; [done| |done].
  split; [by eapply linked_ext; [|exact Hl]|done|done|apply Hf].
Qed.

Lemma run_kalloc_none m b : free_ok m [] -> run (E := E) kalloc m b = Ok (0, m, b).
Proof. intros Hf. pose proof (fr_linked _ _ Hf) as Hv. simpl in Hv. unfold kalloc. simpl. by rewrite Hv. Qed.

Lemma run_kfree m f l b : free_ok m l -> kpage f -> f ∉ l ->
  exists m', run (E := E) (kfree (f + KERNBASE)) m b = Ok (tt, m', b) /\ free_ok m' (f :: l) /\
    forall f', f' <> f -> page_of m' f' = page_of m f'.
Proof.
  intros Hf Hk Hin. pose proof (kpage_frame _ Hk) as Hfr. destruct Hk as [Ha Hb].
  set (m1 := set_page f (replicate 4096 (u8 1)) m). set (m2 := set_word f 0 (ph_freelist m) m1).
  exists (set_freelist (f + KERNBASE) m2). unfold kfree. rewrite frame_v2p by done.
  rewrite (proj2 (Z.eqb_eq _ 0)) by (unfold PGSIZE, KERNBASE; lia).
  rewrite (proj2 (Z.ltb_ge _ _)), (proj2 (Z.leb_gt _ _)) by lia. simpl negb. simpl orb. cbv iota.
  rewrite run_bind, run_memset_page by done. rewrite run_bind. cbn [run get]. rewrite run_bind.
  replace (f + KERNBASE) with (f + KERNBASE + 4 * 0) at 1 by lia. rewrite run_st32 by (done || lia).
  change (ph_freelist m1) with (ph_freelist m). split; [done|]. fold m1 m2.
  assert (free_ok m1 l) as Hm1 by (apply free_set_page; [done|done|by rewrite length_replicate]).
  assert (free_ok m2 l) as Hm2.
  { apply free_set_page; [done|done|]. rewrite length_put_u32; rewrite (fr_length _ _ Hm1); lia. }
  split.
  - split; [|constructor; [done|apply Hf]|constructor; [done|apply Hf]|apply Hm2]. split; [done|].
    change (get_u32 0 (page_of (set_freelist (f + KERNBASE) m2) f)) with (word m2 f 0).
    unfold m2. rewrite word_set; [|apply Hm1|lia|lia]. rewrite decide_True by done.
    pose proof (fr_linked _ _ Hm2) as Hl. rewrite u32_small.
    + by eapply linked_ext; [|exact Hl].
    + pose proof (fr_linked _ _ Hf) as Hl'. pose proof (fr_pages _ _ Hf) as Hp. destruct l as [|g l]; simpl in Hl'; [lia|].
      destruct Hl' as [-> _]. apply Forall_cons in Hp as [Hg _]. destruct (kpage_frame _ Hg). unfold KERNBASE, PHYSTOP in *. lia.
  - intros f' Hne. change (page_of m2 f' = page_of m f'). unfold m2, set_word, m1. by rewrite !page_set, !decide_False.
Qed.

(** ** A range of pages *)

Definition frames (a : Z) (n : nat) : list Z := map (fun i => a + 4096 * i) (seqZ 0 (Z.of_nat n)).

Lemma frames_S a n : frames a (S n) = frames a n ++ [a + 4096 * Z.of_nat n].
Proof.
  unfold frames. replace (Z.of_nat (S n)) with (Z.of_nat n + 1) by lia. rewrite seqZ_app by lia.
  rewrite map_app. f_equal.
Qed.

Lemma elem_of_frames a n f : f ∈ frames a n <-> exists i, 0 <= i < Z.of_nat n /\ f = a + 4096 * i.
Proof.
  unfold frames. rewrite list_elem_of_In, in_map_iff. split.
  - intros (i & <- & Hi%list_elem_of_In%elem_of_seqZ). exists i. split; [lia|done].
  - intros (i & Hi & ->). exists i. split; [done|]. apply list_elem_of_In, elem_of_seqZ. lia.
Qed.

Lemma frames_cons a n : frames a (S n) = a :: frames (a + 4096) n.
Proof.
  unfold frames. rewrite seqZ_cons by lia. cbn [map]. f_equal; [lia|].
  replace (Z.pred (Z.of_nat (S n))) with (Z.of_nat n) by lia.
  replace (seqZ (Z.succ 0) (Z.of_nat n)) with (Z.add 1 <$> seqZ 0 (Z.of_nat n)) by (rewrite fmap_add_seqZ; done).
  change (Z.add 1 <$> seqZ 0 (Z.of_nat n)) with (map (Z.add 1) (seqZ 0 (Z.of_nat n))). rewrite map_map.
  apply map_ext. intros i. lia.
Qed.

(** The loop of [freerange] from page [a] on, [n] pages before [vend]. *)
Lemma freerange_loop n : forall fuel a vend m l b,
  (n < fuel)%nat -> a mod 4096 = 0 -> lk_end <= a -> a + 4096 * Z.of_nat n <= vend -> vend < a + 4096 * Z.of_nat n + 4096 ->
  vend <= KERNBASE + PHYSTOP -> free_ok m l -> (forall f, f ∈ frames (a - KERNBASE) n -> f ∉ l) ->
  exists m', run (E := E) (while_fuel fuel (fun p =>
      if p + PGSIZE <=? vend then kfree p;;; Ret (inl (p + PGSIZE)) else Ret (inr tt)) a) m b = Ok (tt, m', b) /\
    free_ok m' (rev (frames (a - KERNBASE) n) ++ l).
Proof.
  pose proof lk_order as Ho. unfold KERNLINK, EXTMEM in Ho.
  induction n as [|n IH]; intros [|fuel] a vend m l b Hfu Ha He H1' H2' Hv Hf Hd; try lia.
  - exists m. cbn [while_fuel]. unfold PGSIZE. rewrite (proj2 (Z.leb_gt _ _)) by lia. done.
  - cbn [while_fuel]. unfold PGSIZE. rewrite (proj2 (Z.leb_le _ _)) by lia. rewrite run_assoc, run_bind.
    destruct (run_kfree m (a - KERNBASE) l b Hf) as (m1 & Hr & Hf1 & _).
    { split; unfold KERNBASE in *; lia. }
    { apply Hd. rewrite frames_cons. by left. }
    replace (a - KERNBASE + KERNBASE) with a in Hr by lia. rewrite Hr. cbn [pbind].
    destruct (IH fuel (a + 4096) vend m1 (a - KERNBASE :: l) b) as (m' & Hr' & Hf'); try lia; auto.
    { intros f Hin Hin'. apply elem_of_cons in Hin' as [->|Hin'].
      - apply elem_of_frames in Hin as (i & Hi & Hq). lia.
      - eapply Hd; [|exact Hin']. rewrite frames_cons. right. by replace (a - KERNBASE + 4096) with (a + 4096 - KERNBASE) by lia. }
    exists m'. split; [exact Hr'|]. rewrite frames_cons. cbn [rev]. rewrite <- app_assoc. cbn [app].
    by replace (a - KERNBASE + 4096) with (a + 4096 - KERNBASE) by lia.
Qed.

Lemma run_freerange vstart vend n m l b :
  let a := PGROUNDUP vstart in
  lk_end <= vstart -> vstart <= KERNBASE + PHYSTOP -> vend <= KERNBASE + PHYSTOP -> n = Z.to_nat ((vend - a) / 4096) -> a <= vend ->
  free_ok m l -> (forall f, f ∈ frames (a - KERNBASE) n -> f ∉ l) ->
  exists m', run (E := E) (freerange vstart vend) m b = Ok (tt, m', b) /\
    free_ok m' (rev (frames (a - KERNBASE) n) ++ l).
Proof.
  intros a Hs Hs' Hv -> Hav Hf Hd. pose proof lk_order as Ho. unfold KERNLINK, EXTMEM, KERNBASE, PHYSTOP in Ho, Hs', Hv.
  assert (a = (vstart + 4095) / 4096 * 4096) as Ea by (apply PGROUNDUP_eq; lia).
  unfold freerange. apply freerange_loop; fold a; try done; unfold PGSIZE, KERNBASE, PHYSTOP; lia.
Qed.

(** ** The allocator as a stack of pages *)

Inductive mem_op := Alloc | Free (f : Z).

(** What a sequence of calls does with the free pages; freeing a page that is
    free already, or is not the allocator's, has no meaning. *)
Fixpoint stack_run (ops : list mem_op) (l : list Z) : option (list Z * list Z) :=
  match ops with
  | [] => Some ([], l)
  | Alloc :: ops =>
      let '(r, l') := match l with [] => (0, []) | f :: l => (f + KERNBASE, l) end in
      p ← stack_run ops l'; Some (r :: p.1, p.2)
  | Free f :: ops => if decide (kpage f /\ f ∉ l) then stack_run ops (f :: l) else None
  end.

(** The same calls on memory. *)
Fixpoint kalloc_run (ops : list mem_op) : prog E phys (list Z) :=
  match ops with
  | [] => Ret []
  | Alloc :: ops => r <- kalloc;; rs <- kalloc_run ops;; Ret (r :: rs)
  | Free f :: ops => kfree (f + KERNBASE);;; kalloc_run ops
  end.

Lemma run_kalloc_any m l b : free_ok m l ->
  let '(r, l') := match l with [] => (0, []) | f :: l => (f + KERNBASE, l) end in
  exists m', run (E := E) kalloc m b = Ok (r, m', b) /\ free_ok m' l' /\ ph_mem m' = ph_mem m.
Proof.
  destruct l as [|f l]; intros Hf; [|by apply run_kalloc]. exists m. split_and!; [by apply run_kalloc_none|done|done].
Qed.

(** C17: the page allocator is a stack.  Starting from a well-formed free list,
    any sequence of [kalloc]s and legal [kfree]s returns what the stack of
    free pages returns (the page freed last, 0 when there is none), keeps the
    list well-formed (linked, in range, without duplicates), and changes no
    page that is not freed. *)
Theorem kalloc_stack ops m l rs l' b :
  free_ok m l -> stack_run ops l = Some (rs, l') ->
  exists m', run (E := E) (kalloc_run ops) m b = Ok (rs, m', b) /\ free_ok m' l' /\
    forall f, Free f ∉ ops -> page_of m' f = page_of m f.
Proof.
  revert m l rs l'. induction ops as [|[|f] ops IH]; intros m l rs l' Hf Hs; cbn [stack_run kalloc_run] in *.
  - injection Hs as <- <-. by exists m.
  - pose proof (run_kalloc_any m l b Hf) as Hk. destruct (match l with [] => _ | _ => _ end) as [r l1].
    destruct Hk as (m1 & Hr & Hf1 & Hm). destruct (stack_run ops l1) as [[rs1 l2]|] eqn:E1; [|done]. injection Hs as <- <-.
    destruct (IH _ _ _ _ Hf1 E1) as (m' & Hr' & Hf' & Hp). exists m'. rewrite run_bind, Hr, run_bind, Hr'. split_and!; [done|done|].
    intros f Hin. rewrite Hp by (intros ?; apply Hin; by right). unfold page_of. by rewrite Hm.
  - case_decide as Hd; [|done]. destruct (run_kfree m f l b) as (m1 & Hr & Hf1 & Hp1); [done|apply Hd|apply Hd|].
    destruct (IH _ _ _ _ Hf1 Hs) as (m' & Hr' & Hf' & Hp). exists m'. rewrite run_bind, Hr. split_and!; [done|done|].
    intros f' Hin. rewrite Hp, Hp1; [done| |]; intros Hx; apply Hin; [subst; by left|by right].
Qed.
End KallocFacts.
