(* ===== verification/Vm.v ===== *)
(** * Address spaces: [vm.c]

    A page table is two levels of 1024 words in physical memory, as the x86
    walks them.  Addresses of page table entries, like all kernel pointers,
    are kernel virtual addresses.  Segment descriptors and the loading of CR3
    ([seginit], [switchkvm], [switchuvm]) do not touch memory and are not part
    of this model. *)

From stdpp Require Import base gmap strings numbers list.
From S2P Require Import Prelude Prog Kalloc.

Definition PTE_P : Z := 0x001.
Definition PTE_W : Z := 0x002.
Definition PTE_U : Z := 0x004.
Definition NPDENTRIES : nat := 1024.
Definition NPTENTRIES : Z := 1024.

Definition PDX (va : Z) : Z := Z.land (Z.shiftr (u32 va) 22) 0x3FF.
Definition PTX (va : Z) : Z := Z.land (Z.shiftr (u32 va) 12) 0x3FF.
Definition PTE_ADDR (pte : Z) : Z := Z.land (u32 pte) (Z.lnot 0xFFF).
Definition PTE_FLAGS (pte : Z) : Z := Z.land (u32 pte) 0xFFF.

Definition has (x flag : Z) : bool := negb (Z.land x flag =? 0).

(** [struct kmap] *)
Record kmap_entry := mkkmap { k_virt : Z; k_phys_start : Z; k_phys_end : Z; k_perm : Z }.

Section Vm.
Context {E : Type -> Type} `{Linker}.
Abbreviation mprog := (prog E phys).

(** Return the address of the PTE in page table pgdir that corresponds to
    virtual address va.  If alloc, create any required page table pages. *)
Definition walkpgdir (pgdir va : Z) (alloc : bool) : mprog (option Z) :=
  let pde := u32 (pgdir + 4 * PDX va) in
  e <- ld32 pde;;
  if has e PTE_P then Ret (Some (u32 (p2v (PTE_ADDR e) + 4 * PTX va)))
  else if negb alloc then Ret None
  else
    pgtab <- kalloc;;
    if pgtab =? 0 then Ret None
    else
      (* Make sure all those PTE_P bits are zero. *)
      memset_page pgtab 0;;;
      st32 pde (Z.lor (Z.lor (Z.lor (v2p pgtab) PTE_P) PTE_W) PTE_U);;;
      Ret (Some (u32 (pgtab + 4 * PTX va))).

(** Create PTEs for virtual addresses starting at va that refer to physical
    addresses starting at pa.  The loop ends when [a == last]. *)
Definition map_one (pgdir a pa perm : Z) : mprog bool :=
  pte <- walkpgdir pgdir a true;;
  match pte with
  | None => Ret false
  | Some pte =>
      e <- ld32 pte;;
      if has e PTE_P then panic "remap"
      else st32 pte (Z.lor (Z.lor pa perm) PTE_P);;; Ret true
  end.

Definition mappages (pgdir va size pa perm : Z) : mprog Z :=
  let last := PGROUNDDOWN (u32 (va + size - 1)) in
  let a := PGROUNDDOWN va in
  while_fuel (S (Z.to_nat (u32 (last - a) / PGSIZE))) (fun '(a, pa) =>
    ok <- map_one pgdir a pa perm;;
    if negb ok then Ret (inr (-1))
    else if a =? last then Ret (inr 0)
    else Ret (inl (u32 (a + PGSIZE), u32 (pa + PGSIZE)))) (a, pa).

(** This table defines the kernel's mappings, which are present in every
    process's page table. *)
Definition kmap : list kmap_entry :=
  [ mkkmap KERNBASE 0 EXTMEM PTE_W;                        (* I/O space *)
    mkkmap KERNLINK (v2p KERNLINK) (v2p lk_data) 0;        (* kern text+rodata *)
    mkkmap lk_data (v2p lk_data) PHYSTOP PTE_W;            (* kern data+memory *)
    mkkmap DEVSPACE DEVSPACE 0 PTE_W ].                    (* more devices *)

Fixpoint map_all (pgdir : Z) (ks : list kmap_entry) : mprog bool :=
  match ks with
  | [] => Ret true
  | k :: ks =>
      r <- mappages pgdir (k_virt k) (u32 (k_phys_end k - k_phys_start k)) (k_phys_start k) (k_perm k);;
      if r <? 0 then Ret false else map_all pgdir ks
  end.

(** Set up kernel part of a page table. *)
Definition setupkvm : mprog Z :=
  pgdir <- kalloc;;
  if pgdir =? 0 then Ret 0
  else
    memset_page pgdir 0;;;
    if DEVSPACE <? p2v PHYSTOP then panic "PHYSTOP too high"
    else ok <- map_all pgdir kmap;; Ret (if ok : bool then pgdir else 0).

(** Load the initcode into address 0 of pgdir. *)
Definition inituvm (pgdir : Z) (init : list Z) : mprog unit :=
  let sz := Z.of_nat (length init) in
  if PGSIZE <=? sz then panic "inituvm: more than a page"
  else
    mem <- kalloc;;
    memset_page mem 0;;;
    mappages pgdir 0 PGSIZE (v2p mem) (Z.lor PTE_W PTE_U);;;
    f <- frame_at mem;;
    modify (fun m => set_page f (splice 0 init (page_of m f)) m).

(** Deallocate user pages to bring the process size from oldsz to newsz. *)
Definition deallocuvm (pgdir oldsz newsz : Z) : mprog Z :=
  if oldsz <=? newsz then Ret oldsz
  else
    while_fuel (S (Z.to_nat ((oldsz - newsz) / PGSIZE + 1))) (fun a =>
      if negb (a <? oldsz) then Ret (inr newsz)
      else
        pte <- walkpgdir pgdir a false;;
        match pte with
        | None => Ret (inl (u32 (u32 (a + (NPTENTRIES - 1) * PGSIZE) + PGSIZE)))
        | Some pte =>
            e <- ld32 pte;;
            (if has e PTE_P then
               let pa := PTE_ADDR e in
               if pa =? 0 then panic "kfree"
               else kfree (p2v pa);;; st32 pte 0
             else Ret tt);;;
            Ret (inl (u32 (a + PGSIZE)))
        end) (PGROUNDUP newsz).

(** Allocate page tables and physical memory to grow process from oldsz to
    newsz.  Returns new size or 0 on error. *)
Definition allocuvm (pgdir oldsz newsz : Z) : mprog Z :=
  if KERNBASE <=? newsz then Ret 0
  else if newsz <? oldsz then Ret oldsz
  else
    while_fuel (S (Z.to_nat ((newsz - oldsz) / PGSIZE + 1))) (fun a =>
      if negb (a <? newsz) then Ret (inr newsz)
      else
        mem <- kalloc;;
        if mem =? 0 then deallocuvm pgdir newsz oldsz;;; Ret (inr 0)
        else
          memset_page mem 0;;;
          mappages pgdir a PGSIZE (v2p mem) (Z.lor PTE_W PTE_U);;;
          Ret (inl (u32 (a + PGSIZE)))) (PGROUNDUP oldsz).

(** Free a page table and all the physical memory pages in the user part. *)
Definition freevm (pgdir : Z) : mprog unit :=
  if pgdir =? 0 then panic "freevm: no pgdir"
  else
    deallocuvm pgdir KERNBASE 0;;;
    for_each (seqZ 0 (Z.of_nat NPDENTRIES)) (fun i =>
      e <- ld32 (u32 (pgdir + 4 * i));;
      if has e PTE_P then kfree (p2v (PTE_ADDR e)) else Ret tt);;;
    kfree pgdir.

(** Clear PTE_U on a page.  Used to create an inaccessible page beneath the
    user stack. *)
Definition clearpteu (pgdir uva : Z) : mprog unit :=
  pte <- walkpgdir pgdir uva false;;
  match pte with
  | None => panic "clearpteu"
  | Some pte => e <- ld32 pte;; st32 pte (Z.land e (Z.lnot PTE_U))
  end.

(** [memmove(mem, (char* )p2v(pa), PGSIZE)] between two pages *)
Definition copy_page (dst src : Z) : mprog unit :=
  fs <- frame_at src;;
  fd <- frame_at dst;;
  modify (fun m => set_page fd (page_of m fs) m).

(** Given a parent process's page table, create a copy of it for a child. *)
Definition copyuvm (pgdir sz : Z) : mprog Z :=
  d <- setupkvm;;
  if d =? 0 then Ret 0
  else
    while_fuel (S (Z.to_nat (sz / PGSIZE + 1))) (fun i =>
      if negb (i <? sz) then Ret (inr d)
      else
        pte <- walkpgdir pgdir i false;;
        match pte with
        | None => panic "copyuvm: pte should exist"
        | Some pte =>
            e <- ld32 pte;;
            if negb (has e PTE_P) then panic "copyuvm: page not present"
            else
              let pa := PTE_ADDR e in
              let flags := PTE_FLAGS e in
              mem <- kalloc;;
              if mem =? 0 then freevm d;;; Ret (inr 0)
              else
                copy_page mem (p2v pa);;;
                r <- mappages d i PGSIZE (v2p mem) flags;;
                if r <? 0 then freevm d;;; Ret (inr 0)
                else Ret (inl (u32 (i + PGSIZE)))
        end) 0.

(** Map user virtual address to kernel address: 0 if it is not mapped for the
    user.  A null [pte] is dereferenced. *)
Definition uva2ka (pgdir uva : Z) : mprog Z :=
  pte <- walkpgdir pgdir uva false;;
  match pte with
  | None => undef "null pte"
  | Some pte =>
      e <- ld32 pte;;
      if negb (has e PTE_P) then Ret 0
      else if negb (has e PTE_U) then Ret 0
      else Ret (p2v (PTE_ADDR e))
  end.

(** [memmove(pa0 + off, buf, length buf)] inside a page *)
Definition store_bytes (v : Z) (off : Z) (buf : list Z) : mprog unit :=
  f <- frame_at v;;
  modify (fun m => set_page f (splice (Z.to_nat off) buf (page_of m f)) m).

(** Copy the bytes p to user address va in page table pgdir. *)
Definition copyout (pgdir va : Z) (p : list Z) : mprog Z :=
  while_fuel (S (length p)) (fun '(va, buf) =>
    match buf with
    | [] => Ret (inr 0)
    | _ =>
        let len := Z.of_nat (length buf) in
        let va0 := PGROUNDDOWN va in
        pa0 <- uva2ka pgdir va0;;
        if pa0 =? 0 then Ret (inr (-1))
        else
          let n := Z.min (PGSIZE - (va - va0)) len in
          store_bytes pa0 (va - va0) (take (Z.to_nat n) buf);;;
          Ret (inl (u32 (va0 + PGSIZE), drop (Z.to_nat n) buf))
    end) (va, p).
End Vm.
