(* ===== verification/VmSpec.v ===== *)
(** * What the page-table code does

    The abstract view of a page table is the function from virtual page
    numbers to page table entries ([view]); every operation of [Vm] is
    described by what it does to the view, to the contents of pages and to the
    free list.  [vm_ok] is the invariant of a page directory [d] whose tables
    are [tabs], next to the free pages [l]. *)

From stdpp Require Import base gmap strings numbers list.
From S2P Require Import Prelude Prog Kalloc Vm.

(** ** Page table entries as numbers *)

Lemma lor_low f k n : 0 <= n -> f mod 2 ^ n = 0 -> 0 <= k < 2 ^ n -> Z.lor f k = f + k.
Proof.
  intros Hn Hf Hk. assert (Z.land f k = 0) as Hz.
  { apply Z.bits_inj'. intros i Hi. rewrite Z.land_spec, Z.bits_0. destruct (Z.ltb_spec i n).
    - rewrite <- (Z.mod_pow2_bits_low f n i), Hf, Z.bits_0 by lia. done.
    - rewrite <- (Z.mod_small k (2 ^ n)) by lia. rewrite Z.mod_pow2_bits_high by lia. apply andb_false_r. }
  rewrite <- Z.lxor_lor, <- Z.add_nocarry_lxor by done. done.
Qed.

Lemma lor_flag f k : f mod 4096 = 0 -> 0 <= k < 4096 -> Z.lor f k = f + k.
Proof. intros. apply (lor_low f k 12); lia. Qed.

Lemma land_high f k g : f mod 4096 = 0 -> 0 <= k < 4096 -> 0 <= g < 4096 -> Z.land (f + k) g = Z.land k g.
Proof.
  intros Hf Hk Hg. rewrite <- lor_flag, Z.land_lor_distr_l by done. replace (Z.land f g) with 0; [done|].
  symmetry. apply Z.bits_inj'. intros i Hi. rewrite Z.land_spec, Z.bits_0. destruct (Z.ltb_spec i 12).
  - rewrite <- (Z.mod_pow2_bits_low f 12 i) by lia. change (2 ^ 12) with 4096. by rewrite Hf, Z.bits_0.
  - rewrite <- (Z.mod_small g (2 ^ 12)) by (change (2 ^ 12) with 4096; lia). rewrite Z.mod_pow2_bits_high by lia. apply andb_false_r.
Qed.

Lemma PTE_ADDR_eq f k : f mod 4096 = 0 -> 0 <= f < 2 ^ 32 -> 0 <= k < 4096 -> PTE_ADDR (f + k) = f.
Proof.
  intros Hf Hr Hk. unfold PTE_ADDR. rewrite u32_small by lia. change 0xFFF with (PGSIZE - 1).
  rewrite land_lnot_page by lia. lia.
Qed.

Lemma PTE_FLAGS_eq f k : f mod 4096 = 0 -> 0 <= f < 2 ^ 32 -> 0 <= k < 4096 -> PTE_FLAGS (f + k) = k.
Proof.
  intros Hf Hr Hk. unfold PTE_FLAGS. rewrite u32_small by lia. change 0xFFF with (Z.ones 12).
  rewrite Z.land_ones by lia. change (2 ^ 12) with 4096. lia.
Qed.

Lemma has_flag f k g : f mod 4096 = 0 -> 0 <= k < 4096 -> 0 <= g < 4096 -> has (f + k) g = has k g.
Proof. intros. unfold has. by rewrite land_high. Qed.

Lemma PDX_eq n : 0 <= n < 2 ^ 20 -> PDX (4096 * n) = n / 1024.
Proof.
  intros Hn. unfold PDX. rewrite u32_small by lia. change 0x3FF with (Z.ones 10). rewrite Z.land_ones by lia.
  rewrite Z.shiftr_div_pow2 by lia. change (2 ^ 22) with 4194304. change (2 ^ 10) with 1024. lia.
Qed.

Lemma PTX_eq n : 0 <= n < 2 ^ 20 -> PTX (4096 * n) = n mod 1024.
Proof.
  intros Hn. unfold PTX. rewrite u32_small by lia. change 0x3FF with (Z.ones 10). rewrite Z.land_ones by lia.
  rewrite Z.shiftr_div_pow2 by lia. change (2 ^ 12) with 4096. change (2 ^ 10) with 1024. lia.
Qed.

(** ** The view of a page table *)

Definition tabs_of (tabs : gmap Z Z) : list Z := (map_to_list tabs).*2.

Definition view (m : phys) (tabs : gmap Z Z) (n : Z) : Z :=
  match tabs !! (n / 1024) with
  | Some f => word m f (n mod 1024)
  | None => 0
  end.

Section VmFacts.
Context `{LinkerOk}.
Context {E : Type -> Type} {B : Type} `{Store E B}.
Implicit Types (m : phys) (d f n : Z) (tabs : gmap Z Z) (l : list Z) (b : B).

(** All tables but the directory come from [kalloc]; no page is used twice. *)
Record vm_ok (m : phys) (d : Z) (tabs : gmap Z Z) (l : list Z) : Prop := {
  vk_dir : forall i, 0 <= i < 1024 -> word m d i = match tabs !! i with Some f => f + 7 | None => 0 end;
  vk_dom : forall i f, tabs !! i = Some f -> 0 <= i < 1024;
  vk_free : free_ok m l;
  vk_pages : Forall kpage (d :: tabs_of tabs);
  vk_nodup : NoDup (d :: tabs_of tabs ++ l);
}.

(** From one state to the next: tables are taken from the free pages, the view
    becomes [v], pages that are neither tables nor free are kept. *)
Record grows (d : Z) (m : phys) (tabs : gmap Z Z) (l : list Z) (m' : phys) (tabs' : gmap Z Z) (l' : list Z)
    (v : Z -> Z) : Prop := {
  gr_ok : vm_ok m' d tabs' l';
  gr_tabs : tabs ⊆ tabs';
  gr_perm : tabs_of tabs' ++ l' ≡ₚ tabs_of tabs ++ l;
  gr_view : forall n, 0 <= n < 2 ^ 20 -> view m' tabs' n = v n;
  gr_keep : forall f, f ∉ d :: tabs_of tabs ++ l -> page_of m' f = page_of m f;
  gr_free : exists new, l = new ++ l';
}.

Lemma elem_of_tabs tabs f : f ∈ tabs_of tabs <-> exists i, tabs !! i = Some f.
Proof.
  unfold tabs_of. rewrite list_elem_of_fmap. split.
  - intros ([i f'] & -> & Hi%elem_of_map_to_list). eauto.
  - intros (i & Hi). exists (i, f). by rewrite elem_of_map_to_list.
Qed.

Lemma tabs_insert tabs i f : tabs !! i = None -> tabs_of (<[i := f]> tabs) ≡ₚ f :: tabs_of tabs.
Proof. intros Hi. unfold tabs_of. by rewrite map_to_list_insert. Qed.

Lemma tab_kpage m d tabs l i f : vm_ok m d tabs l -> tabs !! i = Some f -> kpage f.
Proof.
  intros Hv Hi. pose proof (vk_pages _ _ _ _ Hv) as Hp. apply Forall_cons in Hp as [_ Hp].
  rewrite Forall_forall in Hp. apply Hp, elem_of_tabs. eauto.
Qed.

Lemma dir_kpage m d tabs l : vm_ok m d tabs l -> kpage d.
Proof. intros Hv. pose proof (vk_pages _ _ _ _ Hv) as Hp. by apply Forall_cons in Hp as [Hp _]. Qed.

Lemma dir_not_tab m d tabs l i f : vm_ok m d tabs l -> tabs !! i = Some f -> f <> d.
Proof.
  intros Hv Hi ->. pose proof (vk_nodup _ _ _ _ Hv) as Hn. apply NoDup_cons in Hn as [Hn _].
  apply Hn, elem_of_app. left. apply elem_of_tabs. eauto.
Qed.

Lemma tab_inj m d tabs l i j f : vm_ok m d tabs l -> tabs !! i = Some f -> tabs !! j = Some f -> i = j.
Proof.
  intros Hv Hi Hj. pose proof (vk_nodup _ _ _ _ Hv) as Hn. apply NoDup_cons in Hn as [_ Hn].
  apply NoDup_app in Hn as [Hn _]. unfold tabs_of in Hn.
  apply elem_of_map_to_list, list_elem_of_lookup in Hi as [x Hx]. apply elem_of_map_to_list, list_elem_of_lookup in Hj as [y Hy].
  assert (x = y) as ->.
  { eapply NoDup_lookup; [exact Hn| |]; rewrite list_lookup_fmap; [rewrite Hx|rewrite Hy]; done. }
  rewrite Hx in Hy. by injection Hy.
Qed.

Lemma tab_not_free m d tabs l i f : vm_ok m d tabs l -> tabs !! i = Some f -> f ∉ l.
Proof.
  intros Hv Hi Hl. pose proof (vk_nodup _ _ _ _ Hv) as Hn. apply NoDup_cons in Hn as [_ Hn].
  apply NoDup_app in Hn as (_ & Hn & _). eapply Hn; [|exact Hl]. apply elem_of_tabs. eauto.
Qed.

Lemma dir_not_free m d tabs l : vm_ok m d tabs l -> d ∉ l.
Proof.
  intros Hv Hl. pose proof (vk_nodup _ _ _ _ Hv) as Hn. apply NoDup_cons in Hn as [Hn _].
  apply Hn, elem_of_app. by right.
Qed.

Lemma page_length m d tabs l f : vm_ok m d tabs l -> length (page_of m f) = 4096%nat.
Proof. intros Hv. apply (fr_length _ _ (vk_free _ _ _ _ Hv)). Qed.

(** Writing a page that is not a table. *)
Lemma vm_set_page m d tabs l f p :
  vm_ok m d tabs l -> f ∉ d :: tabs_of tabs ++ l -> length p = 4096%nat ->
  vm_ok (set_page f p m) d tabs l /\ forall n, view (set_page f p m) tabs n = view m tabs n.
Proof.
  intros Hv Hf Hp. apply not_elem_of_cons in Hf as [Hd Hf]. apply not_elem_of_app in Hf as [Ht Hl].
  assert (forall g i, g <> f -> word (set_page f p m) g i = word m g i) as Hw.
  { intros g i Hg. unfold word. by rewrite page_set, decide_False. }
  split.
  - split; try apply Hv.
    + intros i Hi. rewrite Hw by done. by apply Hv.
    + apply free_set_page; [apply Hv|done|done].
  - intros n. unfold view. destruct (tabs !! (n / 1024)) as [g|] eqn:Eg; [|done]. apply Hw.
    intros ->. apply Ht, elem_of_tabs. eauto.
Qed.

(** Writing an entry of a table. *)
Lemma vm_set_entry m d tabs l n f v :
  vm_ok m d tabs l -> 0 <= n < 2 ^ 20 -> tabs !! (n / 1024) = Some f ->
  vm_ok (set_word f (n mod 1024) v m) d tabs l /\
  forall n', 0 <= n' < 2 ^ 20 ->
    view (set_word f (n mod 1024) v m) tabs n' = if decide (n' = n) then u32 v else view m tabs n'.
Proof.
  intros Hv Hn Hf.
  assert (length (page_of m f) = 4096%nat) as Hlen by (by eapply page_length). split.
  - split; try apply Hv.
    + intros i Hi. rewrite word_set by (done || lia). rewrite decide_False; [by apply Hv|].
      intros [-> _]. by eapply dir_not_tab.
    + apply free_set_page; [apply Hv|by eapply tab_not_free|]. rewrite length_put_u32; lia.
  - intros n' Hn'. unfold view. destruct (tabs !! (n' / 1024)) as [g|] eqn:Eg.
    + rewrite word_set by (done || lia). destruct (decide (n' = n)) as [->|Hne].
      * rewrite Hf in Eg. injection Eg as ->. by rewrite decide_True.
      * rewrite decide_False; [done|]. intros [-> Hm]. assert (n' / 1024 = n / 1024) by (by eapply tab_inj). lia.
    + rewrite decide_False; [done|]. intros ->. congruence.
Qed.

Lemma entry_addr m d tabs l i f : vm_ok m d tabs l -> tabs !! i = Some f -> PTE_ADDR (f + 7) = f.
Proof.
  intros Hv Hi. destruct (kpage_frame _ (tab_kpage _ _ _ _ _ _ Hv Hi)). unfold PHYSTOP in *. apply PTE_ADDR_eq; lia.
Qed.

(** ** [walkpgdir] *)

Lemma walk_pde m d tabs l n b : vm_ok m d tabs l -> 0 <= n < 2 ^ 20 ->
  u32 (d + KERNBASE + 4 * PDX (4096 * n)) = d + KERNBASE + 4 * (n / 1024) /\
  run (E := E) (ld32 (d + KERNBASE + 4 * (n / 1024))) m b =
    Ok (match tabs !! (n / 1024) with Some f => f + 7 | None => 0 end, m, b).
Proof.
  intros Hv Hn. pose proof (kpage_frame _ (dir_kpage _ _ _ _ Hv)) as Hd. rewrite PDX_eq by done. split.
  - destruct Hd. apply u32_small. unfold KERNBASE, PHYSTOP in *. lia.
  - rewrite run_ld32 by (done || lia). rewrite (vk_dir _ _ _ _ Hv) by lia. done.
Qed.

Lemma run_walk_hit m d tabs l n f alloc b :
  vm_ok m d tabs l -> 0 <= n < 2 ^ 20 -> tabs !! (n / 1024) = Some f ->
  run (E := E) (walkpgdir (d + KERNBASE) (4096 * n) alloc) m b =
    Ok (Some (f + KERNBASE + 4 * (n mod 1024)), m, b).
Proof.
  intros Hv Hn Hf. unfold walkpgdir. destruct (walk_pde m d tabs l n b Hv Hn) as [-> Hl].
  rewrite run_bind, Hl, Hf. pose proof (kpage_frame _ (tab_kpage _ _ _ _ _ _ Hv Hf)) as Hfr. destruct Hfr as [Ha Hr].
  rewrite has_flag by (unfold PTE_P; lia). change (has 7 PTE_P) with true. cbv iota.
  rewrite (entry_addr m d tabs l (n / 1024) f Hv Hf), PTX_eq by done. rewrite p2v_eq by (unfold KERNBASE, PHYSTOP in *; lia).
  rewrite u32_small by (unfold KERNBASE, PHYSTOP in *; lia). done.
Qed.

Lemma run_walk_none m d tabs l n b :
  vm_ok m d tabs l -> 0 <= n < 2 ^ 20 -> tabs !! (n / 1024) = None ->
  run (E := E) (walkpgdir (d + KERNBASE) (4096 * n) false) m b = Ok (None, m, b).
Proof.
  intros Hv Hn Hf. unfold walkpgdir. destruct (walk_pde m d tabs l n b Hv Hn) as [-> Hl].
  by rewrite run_bind, Hl, Hf.
Qed.

Lemma le_dec_zeros k : le_dec (replicate k 0) = 0.
Proof. induction k as [|k IH]; simpl; lia. Qed.

Lemma word_zpage m f i : page_of m f = replicate 4096 0 -> 0 <= i < 1024 -> word m f i = 0.
Proof.
  intros Hp Hi. unfold word, get_u32, slice. rewrite Hp, drop_replicate, take_replicate. apply le_dec_zeros.
Qed.

Lemma grows_refl m d tabs l : vm_ok m d tabs l -> grows d m tabs l m tabs l (view m tabs).
Proof. intros Hv. split; auto. by exists []. Qed.

Lemma grows_trans m d tabs l m1 tabs1 l1 v1 m2 tabs2 l2 v2 :
  grows d m tabs l m1 tabs1 l1 v1 -> grows d m1 tabs1 l1 m2 tabs2 l2 v2 -> grows d m tabs l m2 tabs2 l2 v2.
Proof.
  intros G1 G2. split; try apply G2.
  - etrans; [apply G1|apply G2].
  - etrans; [apply G2|apply G1].
  - intros f Hf. rewrite (gr_keep _ _ _ _ _ _ _ _ G2); [by apply G1|]. by rewrite (gr_perm _ _ _ _ _ _ _ _ G1).
  - destruct (gr_free _ _ _ _ _ _ _ _ G1) as [n1 ->], (gr_free _ _ _ _ _ _ _ _ G2) as [n2 ->].
    exists (n1 ++ n2). by rewrite app_assoc.
Qed.

Lemma run_walk_alloc m d tabs l n b : vm_ok m d tabs l -> 0 <= n < 2 ^ 20 ->
  (l = [] /\ tabs !! (n / 1024) = None /\
   run (E := E) (walkpgdir (d + KERNBASE) (4096 * n) true) m b = Ok (None, m, b)) \/
  exists f m' tabs' l',
    run (E := E) (walkpgdir (d + KERNBASE) (4096 * n) true) m b =
      Ok (Some (f + KERNBASE + 4 * (n mod 1024)), m', b) /\
    tabs' !! (n / 1024) = Some f /\ grows d m tabs l m' tabs' l' (view m tabs).
Proof.
  intros Hv Hn. destruct (tabs !! (n / 1024)) as [f|] eqn:Et.
  { right. exists f, m, tabs, l. split_and!; [by eapply run_walk_hit|done|by apply grows_refl]. }
  unfold walkpgdir. destruct (walk_pde m d tabs l n b Hv Hn) as [-> Hl].
  rewrite run_bind, Hl, Et. change (has 0 PTE_P) with false. cbv iota. cbn [negb]. rewrite run_bind.
  destruct l as [|f l].
  { left. rewrite run_kalloc_none by apply Hv. done. }
  right. destruct (run_kalloc m f l b) as (m1 & -> & Hf1 & Hm1); [apply Hv|].
  pose proof (fr_pages _ _ (vk_free _ _ _ _ Hv)) as Hkp. apply Forall_cons in Hkp as [Hk _].
  pose proof (kpage_frame _ Hk) as Hfr. pose proof (dir_kpage _ _ _ _ Hv) as Hkd. pose proof (kpage_frame _ Hkd) as Hdr.
  destruct Hfr as [Ha Hr]. rewrite (proj2 (Z.eqb_neq _ 0)) by (unfold KERNBASE; lia). cbv iota.
  rewrite run_bind, run_memset_page by done. rewrite run_bind.
  set (m2 := set_page f (replicate 4096 (u8 0)) m1). rewrite frame_v2p by done. rewrite run_st32 by (done || lia).
  rewrite <- !Z.lor_assoc. change (Z.lor PTE_P (Z.lor PTE_W PTE_U)) with 7. rewrite lor_flag by lia. cbn [run].
  rewrite PTX_eq by done. rewrite u32_small by (unfold KERNBASE, PHYSTOP in *; lia).
  set (m3 := set_word d (n / 1024) (f + 7) m2). exists f, m3, (<[n / 1024 := f]> tabs), l.
  pose proof (vk_nodup _ _ _ _ Hv) as Hnd. apply NoDup_cons in Hnd as [Hnd1 Hnd2].
  assert (f <> d /\ d ∉ l /\ f ∉ l /\ f ∉ tabs_of tabs) as (Hfd & Hdl & Hfl & Hft).
  { rewrite not_elem_of_app, not_elem_of_cons in Hnd1. apply NoDup_app in Hnd2 as (_ & Hx & Hy). apply NoDup_cons in Hy as [Hy _].
    split_and!; [naive_solver|naive_solver|done|]. intros Hin. apply (Hx f Hin). by left. }
  assert (free_ok m2 l) as Hf2 by (by apply free_set_page).
  assert (length (page_of m2 d) = 4096%nat) as Hld by apply Hf2.
  assert (forall g i, g <> f -> word m2 g i = word m g i) as Hw2.
  { intros g i Hg. unfold word, m2. rewrite page_set, decide_False by done. unfold page_of. by rewrite Hm1. }
  assert (tabs_of (<[n / 1024:=f]> tabs) ++ l ≡ₚ tabs_of tabs ++ f :: l) as Hperm.
  { rewrite tabs_insert by done. cbn [app]. by rewrite Permutation_middle. }
  split_and!; [done|apply lookup_insert_eq|]. split.
  - split.
    + intros i Hi. unfold m3. rewrite word_set by (done || lia). destruct (decide (i = n / 1024)) as [->|Hne].
      * rewrite decide_True, lookup_insert_eq by done. apply u32_small. unfold PHYSTOP in *; lia.
      * rewrite decide_False, lookup_insert_ne by naive_solver. rewrite Hw2 by done. by apply Hv.
    + intros i g. destruct (decide (i = n / 1024)) as [->|Hne]; [lia|]. rewrite lookup_insert_ne by done. apply Hv.
    + apply free_set_page; [done|done|]. rewrite length_put_u32; lia.
    + rewrite tabs_insert by done. pose proof (vk_pages _ _ _ _ Hv) as Hp. apply Forall_cons in Hp as [? ?]. by apply Forall_cons; split; [|apply Forall_cons].
    + rewrite Hperm. by constructor.
  - by apply insert_subseteq.
  - exact Hperm.
  - intros n' Hn'. unfold view. destruct (decide (n' / 1024 = n / 1024)) as [E1|Hne].
    + rewrite E1, lookup_insert_eq, Et. unfold m3. rewrite word_set by (done || lia). rewrite decide_False by naive_solver.
      apply word_zpage; [|lia]. unfold m2. by rewrite page_set, decide_True.
    + rewrite lookup_insert_ne by done. destruct (tabs !! (n' / 1024)) as [g|] eqn:Eg; [|done].
      unfold m3. rewrite word_set by (done || lia). rewrite decide_False.
      * apply Hw2. intros ->. apply Hft, elem_of_tabs. eauto.
      * intros [-> _]. by eapply dir_not_tab.
  - intros g Hg. rewrite not_elem_of_cons, not_elem_of_app, not_elem_of_cons in Hg. destruct Hg as (Hg1 & Hg2 & Hg3 & Hg4).
    unfold m3, set_word. rewrite page_set, decide_False by done. unfold m2. rewrite page_set, decide_False by done.
    unfold page_of. by rewrite Hm1.
  - by exists [f].
Qed.

(** ** [mappages] *)

(** The view with one more entry. *)
Definition upd_view (v : Z -> Z) (n e : Z) : Z -> Z := fun n' => if decide (n' = n) then e else v n'.

Lemma run_map_one m d tabs l n pa perm b :
  vm_ok m d tabs l -> 0 <= n < 2 ^ 20 -> has (view m tabs n) PTE_P = false ->
  pa mod 4096 = 0 -> 0 <= pa < 2 ^ 32 -> 0 <= perm < 4096 ->
  (l = [] /\ run (E := E) (map_one (d + KERNBASE) (4096 * n) pa perm) m b = Ok (false, m, b)) \/
  exists m' tabs' l',
    run (E := E) (map_one (d + KERNBASE) (4096 * n) pa perm) m b = Ok (true, m', b) /\
    grows d m tabs l m' tabs' l' (upd_view (view m tabs) n (pa + Z.lor perm PTE_P)).
Proof.
  intros Hv Hn Hp Hpa Hpr Hperm. unfold map_one.
  destruct (run_walk_alloc m d tabs l n b Hv Hn) as [(-> & _ & Hw)|(f & m1 & tabs1 & l1 & Hw & Hf & G)].
  { left. rewrite run_bind, Hw. done. }
  right. rewrite run_bind, Hw. pose proof (gr_ok _ _ _ _ _ _ _ _ G) as Hv1.
  pose proof (kpage_frame _ (tab_kpage _ _ _ _ _ _ Hv1 Hf)) as Hfr.
  rewrite run_bind, run_ld32 by (done || lia). replace (word m1 f (n mod 1024)) with (view m tabs n).
  2: { rewrite <- (gr_view _ _ _ _ _ _ _ _ G) by done. unfold view. by rewrite Hf. }
  rewrite Hp. rewrite run_bind, run_st32 by (done || lia). cbn [run].
  assert (0 <= Z.lor perm PTE_P < 4096) as Hlp.
  { split; [apply Z.lor_nonneg; unfold PTE_P; lia|]. destruct (Z.eq_dec (Z.lor perm PTE_P) 0) as [E0|E0]; [lia|].
    change 4096 with (2 ^ 12). apply Z.log2_lt_pow2; [pose proof (Z.lor_nonneg perm PTE_P); unfold PTE_P in *; lia|].
    rewrite Z.log2_lor by (unfold PTE_P; lia). apply Z.max_lub_lt; [|done].
    destruct (Z.eq_dec perm 0) as [->|]; [done|]. apply Z.log2_lt_pow2; lia. }
  rewrite <- Z.lor_assoc, lor_flag by done.
  destruct (vm_set_entry m1 d tabs1 l1 n f (pa + Z.lor perm PTE_P) Hv1 Hn Hf) as [Hv2 Hview].
  eexists _, tabs1, l1. split; [done|]. split; try apply G; [done| |].
  - intros n' Hn'. rewrite Hview by done. unfold upd_view. case_decide; [apply u32_small; lia|]. by apply G.
  - intros g Hg. unfold set_word. rewrite page_set, decide_False; [by apply G|]. intros ->. apply Hg. right.
    rewrite <- (gr_perm _ _ _ _ _ _ _ _ G). apply elem_of_app. left. apply elem_of_tabs. eauto.
Qed.

Lemma grows_ext d m tabs l m' tabs' l' v v' :
  (forall n, 0 <= n < 2 ^ 20 -> v n = v' n) -> grows d m tabs l m' tabs' l' v -> grows d m tabs l m' tabs' l' v'.
Proof. intros Hvv G. split; try apply G. intros n Hn. rewrite <- Hvv by done. by apply G. Qed.

(** The view with pages [n .. n + k - 1] mapped to consecutive frames. *)
Definition map_view (v : Z -> Z) (n k pa perm : Z) : Z -> Z := fun n' =>
  if decide (n <= n' < n + k) then pa + 4096 * (n' - n) + Z.lor perm PTE_P else v n'.

Definition map_body (d perm last : Z) : Z * Z -> prog E phys (Z * Z + Z) := fun '(a, pa) =>
  ok <- map_one (d + KERNBASE) a pa perm;;
  if negb ok then Ret (inr (-1))
  else if a =? last then Ret (inr 0)
  else Ret (inl (u32 (a + PGSIZE), u32 (pa + PGSIZE))).

Lemma mappages_loop d perm k : forall fuel n pa m tabs l b,
  (k < fuel)%nat -> vm_ok m d tabs l -> 0 <= n -> n + Z.of_nat k < 2 ^ 20 ->
  (forall n', n <= n' <= n + Z.of_nat k -> has (view m tabs n') PTE_P = false) ->
  pa mod 4096 = 0 -> 0 <= pa -> pa + 4096 * Z.of_nat k < 2 ^ 32 -> 0 <= perm < 4096 ->
  exists r m' tabs' l' j,
    run (while_fuel fuel (map_body d perm (4096 * (n + Z.of_nat k))) (4096 * n, pa)) m b = Ok (r, m', b) /\
    (r = 0 /\ j = Z.of_nat k + 1 \/ r = -1 /\ l' = [] /\ 0 <= j <= Z.of_nat k) /\
    grows d m tabs l m' tabs' l' (map_view (view m tabs) n j pa perm).
Proof.
  induction k as [|k IH]; intros [|fuel] n pa m tabs l b Hfu Hv Hn0 Hn1 Hpres Hpa Hp0 Hp1 Hperm; try lia.
  - cbn [while_fuel map_body]. rewrite run_assoc, run_bind.
    destruct (run_map_one m d tabs l n pa perm b) as [(-> & ->)|(m' & tabs' & l' & -> & G)]; auto; try lia.
    { apply Hpres. lia. }
    + exists (-1), m, tabs, [], 0. split_and!; [done|right; split_and!; done || lia|]. eapply grows_ext; [|by apply grows_refl].
      intros n' Hn'. unfold map_view. by rewrite decide_False by lia.
    + cbn [negb]. destruct (Z.eqb_spec (4096 * n) (4096 * (n + Z.of_nat 0))); [|lia]. cbn [pbind run].
      exists 0, m', tabs', l', 1. split_and!; [done|left; lia|]. eapply grows_ext; [|exact G].
      intros n' Hn'. unfold upd_view, map_view. repeat case_decide; try lia.
  - cbn [while_fuel map_body]. rewrite run_assoc, run_bind.
    destruct (run_map_one m d tabs l n pa perm b) as [(-> & ->)|(m1 & tabs1 & l1 & -> & G)]; auto; try lia.
    { apply Hpres. lia. }
    { exists (-1), m, tabs, [], 0. split_and!; [done|right; split_and!; done || lia|]. eapply grows_ext; [|by apply grows_refl].
      intros n' Hn'. unfold map_view. by rewrite decide_False by lia. }
    cbn [negb]. destruct (Z.eqb_spec (4096 * n) (4096 * (n + Z.of_nat (S k)))); [lia|]. cbn [pbind]. unfold PGSIZE. rewrite !u32_small by lia.
    replace (4096 * n + 4096) with (4096 * (n + 1)) by lia.
    replace (4096 * (n + Z.of_nat (S k))) with (4096 * (n + 1 + Z.of_nat k)) by lia.
    destruct (IH fuel (n + 1) (pa + 4096) m1 tabs1 l1 b) as (r & m' & tabs' & l' & j & Hrun & Hr & G'); auto; try lia.
    { apply G. }
    { intros n' Hn'. rewrite (gr_view _ _ _ _ _ _ _ _ G) by lia. unfold upd_view. rewrite decide_False by lia. apply Hpres. lia. }
    exists r, m', tabs', l', (j + 1). split_and!; [done|naive_solver lia|]. eapply grows_ext; [|by eapply grows_trans].
    intros n' Hn'. unfold map_view. rewrite (gr_view _ _ _ _ _ _ _ _ G) by done. unfold upd_view.
    repeat case_decide; try lia.
Qed.

Lemma run_mappages m d tabs l n k pa perm b :
  vm_ok m d tabs l -> 0 <= n -> 0 < k -> n + k <= 2 ^ 20 ->
  (forall n', n <= n' < n + k -> has (view m tabs n') PTE_P = false) ->
  pa mod 4096 = 0 -> 0 <= pa -> pa + 4096 * k <= 2 ^ 32 -> 0 <= perm < 4096 ->
  exists r m' tabs' l' j,
    run (E := E) (mappages (d + KERNBASE) (4096 * n) (u32 (4096 * k)) pa perm) m b = Ok (r, m', b) /\
    (r = 0 /\ j = k \/ r = -1 /\ l' = [] /\ 0 <= j < k) /\
    grows d m tabs l m' tabs' l' (map_view (view m tabs) n j pa perm).
Proof.
  intros Hv Hn Hk Hnk Hpres Hpa Hp0 Hp1 Hperm. unfold mappages.
  assert (u32 (4096 * n + u32 (4096 * k) - 1) = 4096 * (n + k) - 1) as -> by (unfold u32; lia).
  rewrite !PGROUNDDOWN_eq by lia. replace ((4096 * (n + k) - 1) / 4096 * 4096) with (4096 * (n + (k - 1))) by lia.
  replace (4096 * n / 4096 * 4096) with (4096 * n) by lia.
  rewrite u32_small by lia. replace ((4096 * (n + (k - 1)) - 4096 * n) / PGSIZE) with (k - 1) by (unfold PGSIZE; lia).
  destruct (mappages_loop d perm (Z.to_nat (k - 1)) (S (Z.to_nat (k - 1))) n pa m tabs l b)
    as (r & m' & tabs' & l' & j & Hrun & Hr & G); auto; try lia.
  { intros n' Hn'. apply Hpres. lia. }
  exists r, m', tabs', l', j. split_and!; [|naive_solver lia|exact G]. rewrite Z2Nat.id in Hrun by lia. exact Hrun.
Qed.

(** How many tables can still be needed. *)
Lemma tabs_bound m d tabs l : vm_ok m d tabs l -> (size tabs <= 1024)%nat.
Proof.
  intros Hv. rewrite <- size_dom. transitivity (size (list_to_set (seqZ 0 1024) : gset Z)).
  - apply subseteq_size. intros i [f Hi]%elem_of_dom. apply elem_of_list_to_set, elem_of_seqZ.
    pose proof (vk_dom _ _ _ _ Hv i f Hi). lia.
  - rewrite size_list_to_set by apply NoDup_seqZ. by rewrite length_seqZ.
Qed.

Lemma length_tabs tabs : length (tabs_of tabs) = size tabs.
Proof. unfold tabs_of. by rewrite length_fmap, length_map_to_list. Qed.

Lemma grows_length d m tabs l m' tabs' l' v :
  grows d m tabs l m' tabs' l' v -> (size tabs' + length l' = size tabs + length l)%nat.
Proof.
  intros G. pose proof (Permutation_length (gr_perm _ _ _ _ _ _ _ _ G)) as Hp.
  by rewrite !length_app, !length_tabs in Hp.
Qed.

(** ** [setupkvm] *)

(** A row of [kmap] in pages: [c] pages from page [n] on, mapped to [pa]. *)
Definition row (x : Z * Z * Z * Z) : kmap_entry :=
  let '(n, c, pa, perm) := x in mkkmap (4096 * n) pa (u32 (pa + 4096 * c)) perm.

Definition krows : list (Z * Z * Z * Z) :=
  let t := (lk_data - KERNLINK) / 4096 in
  [ (524288, 256, 0, PTE_W);
    (524544, t, EXTMEM, 0);
    (524544 + t, 57088 - t, EXTMEM + 4096 * t, PTE_W);
    (1040384, 8192, DEVSPACE, PTE_W) ].

Lemma kmap_rows : kmap = map row krows.
Proof.
  pose proof lk_align as Ha. pose proof lk_order as Ho. pose proof lk_mapped as Hm.
  unfold kmap, krows, row. cbn [map]. unfold KERNLINK, EXTMEM, PGSIZE in *.
  rewrite !v2p_eq by (unfold KERNBASE in *; lia). repeat f_equal; unfold KERNBASE, PHYSTOP, DEVSPACE, u32 in *; lia.
Qed.

(** The rows can be mapped, one after the other, into a space with view [v]. *)
Fixpoint fits (v : Z -> Z) (ks : list (Z * Z * Z * Z)) : Prop :=
  match ks with
  | [] => True
  | (n, c, pa, perm) :: ks =>
      0 <= n /\ 0 < c /\ n + c <= 2 ^ 20 /\ pa mod 4096 = 0 /\ 0 <= pa /\ pa + 4096 * c <= 2 ^ 32 /\ 0 <= perm < 4096 /\
      (forall n', n <= n' < n + c -> has (v n') PTE_P = false) /\ fits (map_view v n c pa perm) ks
  end.

Definition map_rows (v : Z -> Z) (ks : list (Z * Z * Z * Z)) : Z -> Z :=
  foldl (fun v '(n, c, pa, perm) => map_view v n c pa perm) v ks.

Lemma map_view_ext v v' n c pa perm x : v x = v' x -> map_view v n c pa perm x = map_view v' n c pa perm x.
Proof. intros Hx. unfold map_view. by case_decide. Qed.

Lemma fits_ext ks : forall v v', (forall n, 0 <= n < 2 ^ 20 -> v n = v' n) -> fits v ks -> fits v' ks.
Proof.
  induction ks as [|[[[n c] pa] perm] ks IH]; intros v v' Hx; [done|]. cbn [fits].
  intros (? & ? & ? & ? & ? & ? & ? & Hh & Hf). split_and!; auto; try lia.
  - intros n' Hn'. rewrite <- Hx by lia. by apply Hh.
  - eapply IH; [|exact Hf]. intros n' Hn'. apply map_view_ext. by apply Hx.
Qed.

Lemma map_rows_ext ks : forall v v' x, v x = v' x -> map_rows v ks x = map_rows v' ks x.
Proof.
  induction ks as [|[[[n c] pa] perm] ks IH]; intros v v' x Hx; [done|]. cbn. apply IH. by apply map_view_ext.
Qed.

Lemma run_map_all d ks : forall m tabs l b,
  vm_ok m d tabs l -> fits (view m tabs) ks ->
  exists ok m' tabs' l' v, run (E := E) (map_all (d + KERNBASE) (map row ks)) m b = Ok (ok, m', b) /\
    grows d m tabs l m' tabs' l' v /\
    if ok : bool then forall n, 0 <= n < 2 ^ 20 -> v n = map_rows (view m tabs) ks n else l' = [].
Proof.
  induction ks as [|[[[n c] pa] perm] ks IH]; intros m tabs l b Hv Hf.
  { exists true, m, tabs, l, (view m tabs). split_and!; [done|by apply grows_refl|done]. }
  cbn [fits] in Hf. destruct Hf as (Hn & Hc & Hnc & Hpa & Hp0 & Hpc & Hperm & Hh & Hf).
  cbn [map row map_all k_virt k_phys_end k_phys_start k_perm]. rewrite run_bind.
  replace (u32 (u32 (pa + 4096 * c) - pa)) with (u32 (4096 * c)) by (unfold u32; lia).
  destruct (run_mappages m d tabs l n c pa perm b) as (r & m1 & tabs1 & l1 & j & Hrun & Hr & G); auto.
  rewrite Hrun. destruct Hr as [[-> ->]|(-> & -> & Hj)].
  - cbn [Z.ltb Z.compare]. destruct (IH m1 tabs1 l1 b) as (ok & m' & tabs' & l' & v & Hrun' & G' & Hok).
    { apply G. }
    { eapply fits_ext; [|exact Hf]. intros x Hx. symmetry. by apply G. }
    exists ok, m', tabs', l', v. split_and!; [done|by eapply grows_trans|]. destruct ok; [|done].
    intros x Hx. rewrite Hok by done. cbn. apply map_rows_ext. by apply G.
  - exists false, m1, tabs1, [], (map_view (view m tabs) n j pa perm). done.
Qed.

(** The kernel's mappings, page by page: physical memory, read-only where the
    program text is, and the devices. *)
Definition kview (n : Z) : Z :=
  if decide (524288 <= n < 524288 + PHYSTOP / 4096) then
    4096 * (n - 524288) + (if decide (KERNLINK <= 4096 * n < lk_data) then PTE_P else PTE_P + PTE_W)
  else if decide (1040384 <= n) then 4096 * n + (PTE_P + PTE_W)
  else 0.

Lemma krows_view n : 0 <= n < 2 ^ 20 -> map_rows (fun _ => 0) krows n = kview n.
Proof.
  intros Hn. pose proof lk_align as Ha. pose proof lk_order as Ho. pose proof lk_mapped as Hm.
  unfold krows, kview. cbn. unfold map_view. change (Z.lor PTE_W PTE_P) with (PTE_P + PTE_W). change (Z.lor 0 PTE_P) with PTE_P.
  change (PHYSTOP / 4096) with 57344. unfold KERNLINK, EXTMEM, DEVSPACE, KERNBASE, PGSIZE in *.
  repeat case_decide; lia.
Qed.

Lemma krows_fit : fits (fun _ => 0) krows.
Proof.
  pose proof lk_align as Ha. pose proof lk_order as Ho. pose proof lk_mapped as Hm.
  unfold krows. cbn [fits]. unfold KERNLINK, EXTMEM, KERNBASE, PGSIZE, DEVSPACE, PTE_W in *.
  split_and!; try lia; try done; intros n' Hn'; unfold map_view; repeat case_decide; try lia; done.
Qed.

Lemma fresh_dir m d l : free_ok m l -> d ∉ l -> kpage d -> vm_ok (set_page d (replicate 4096 (u8 0)) m) d ∅ l.
Proof.
  intros Hf Hd Hk. split.
  - intros i Hi. rewrite lookup_empty. apply word_zpage; [|done]. by rewrite page_set, decide_True.
  - intros i f. by rewrite lookup_empty.
  - by apply free_set_page.
  - unfold tabs_of. rewrite map_to_list_empty. by constructor.
  - unfold tabs_of. rewrite map_to_list_empty. constructor; [done|apply Hf].
Qed.

Lemma run_setupkvm m l b : free_ok m l ->
  exists r m', run (E := E) setupkvm m b = Ok (r, m', b) /\
    (forall f, f ∉ l -> page_of m' f = page_of m f) /\
    (r = 0 /\ free_ok m' [] /\ (length l <= 1025)%nat \/
     exists d tabs l', r = d + KERNBASE /\ vm_ok m' d tabs l' /\ d :: tabs_of tabs ++ l' ≡ₚ l /\
       (exists new, l = new ++ l') /\ forall n, 0 <= n < 2 ^ 20 -> view m' tabs n = kview n).
Proof.
  intros Hf. unfold setupkvm. rewrite run_bind. destruct l as [|d l].
  { rewrite run_kalloc_none by done. exists 0, m. split_and!; [done|done|left]. split_and!; [done|done|simpl; lia]. }
  destruct (run_kalloc m d l b Hf) as (m1 & -> & Hf1 & Hm1).
  pose proof (fr_pages _ _ Hf) as Hp. apply Forall_cons in Hp as [Hk _]. destruct (kpage_frame _ Hk) as [Ha Hr].
  pose proof (fr_nodup _ _ Hf) as Hnd. apply NoDup_cons in Hnd as [Hdl _].
  rewrite (proj2 (Z.eqb_neq _ 0)) by (unfold KERNBASE; lia). rewrite run_bind, run_memset_page by done.
  change (DEVSPACE <? p2v PHYSTOP) with false. cbv iota. rewrite run_bind, kmap_rows.
  pose proof (fresh_dir m1 d l Hf1 Hdl Hk) as Hv. set (m2 := set_page d (replicate 4096 (u8 0)) m1) in *.
  destruct (run_map_all d krows m2 ∅ l b) as (ok & m' & tabs & l' & v & -> & G & Hok); [done|apply krows_fit|].
  assert (forall f, f ∉ d :: l -> page_of m' f = page_of m f) as Hkeep.
  { intros f Hnin. rewrite (gr_keep _ _ _ _ _ _ _ _ G) by done. apply not_elem_of_cons in Hnin as [Hnd _].
    unfold m2. rewrite page_set, decide_False by done. unfold page_of. by rewrite Hm1. }
  cbn [run]. exists (if ok then d + KERNBASE else 0), m'. split_and!; [done|done|]. destruct ok.
  - right. exists d, tabs, l'. destruct (gr_free _ _ _ _ _ _ _ _ G) as [new ->]. split_and!; [done|apply G| | |].
    + constructor. apply G.
    + by exists (d :: new).
    + intros n Hn. rewrite (gr_view _ _ _ _ _ _ _ _ G), Hok by done. by apply krows_view.
  - left. subst l'. split; [done|]. split; [apply (gr_ok _ _ _ _ _ _ _ _ G)|]. pose proof (grows_length _ _ _ _ _ _ _ _ G) as Hgl.
    pose proof (tabs_bound _ _ _ _ (gr_ok _ _ _ _ _ _ _ _ G)). rewrite map_size_empty in Hgl. cbn [length] in *. lia.
Qed.
End VmFacts.
