(* ===== verification/VmUser.v ===== *)
(** * User memory

    A process image is the list [us] of its pages (frame and flags), page [n]
    of the process being entry [n].  [as_ok] says that a page table implements
    an image; the theorems say what growing, shrinking, freeing, copying and
    writing do to it. *)

From stdpp Require Import base gmap strings numbers list.
From S2P Require Import Prelude Prog Kalloc Vm VmSpec.

Abbreviation upage := (Z * Z)%type.

Section VmUser.
Context `{LinkerOk}.
Context {E : Type -> Type} {B : Type} `{Store E B}.
Implicit Types (m : phys) (d f n : Z) (tabs : gmap Z Z) (l : list Z) (us : list upage) (b : B).

Definition upage_ok (u : upage) : Prop := kpage u.1 /\ 0 <= u.2 < 4096 /\ has u.2 PTE_P = true.

Definition uentry us n : Z :=
  match us !! Z.to_nat n with
  | Some u => u.1 + u.2
  | None => 0
  end.

(** Page table [d] maps the pages [us] at address 0 and the kernel above
    [KERNBASE]. *)
Record as_ok (m : phys) (d : Z) (tabs : gmap Z Z) (us : list upage) (l : list Z) : Prop := {
  as_vm : vm_ok m d tabs l;
  as_user : forall n, 0 <= n < 524288 -> view m tabs n = uentry us n;
  as_kern : forall n, 524288 <= n < 2 ^ 20 -> view m tabs n = kview n;
  as_pages : Forall upage_ok us;
  as_nodup : NoDup (d :: tabs_of tabs ++ us.*1 ++ l);
  as_len : Z.of_nat (length us) <= 524288;
}.

Lemma as_length m d tabs us l f : as_ok m d tabs us l -> length (page_of m f) = 4096%nat.
Proof. intros Ha. eapply page_length, Ha. Qed.

(** The pages of the image are neither tables nor free. *)
Lemma as_user_page m d tabs us l u : as_ok m d tabs us l -> u ∈ us -> u.1 ∉ d :: tabs_of tabs ++ l.
Proof.
  intros Ha Hu. assert (u.1 ∈ us.*1) as Hin by (apply list_elem_of_fmap; eauto).
  pose proof (as_nodup _ _ _ _ _ Ha) as Hn. apply NoDup_cons in Hn as [Hn1 Hn2].
  apply NoDup_app in Hn2 as (_ & Hn3 & Hn4). apply NoDup_app in Hn4 as (_ & Hn5 & _).
  rewrite not_elem_of_cons, not_elem_of_app. split_and!.
  - intros E1. apply Hn1. rewrite !elem_of_app. right; left. by rewrite <- E1.
  - intros Ht. apply (Hn3 _ Ht). apply elem_of_app. by left.
  - by apply Hn5.
Qed.

Lemma uentry_present us n : Forall upage_ok us -> 0 <= n ->
  has (uentry us n) PTE_P = bool_decide (n < Z.of_nat (length us)).
Proof.
  intros Hp Hn. unfold uentry. destruct (us !! Z.to_nat n) as [u|] eqn:Eu.
  - rewrite bool_decide_eq_true_2 by (apply lookup_lt_Some in Eu; lia).
    eapply Forall_lookup_1 in Hp as (Hk & Hf & Hh); [|done]. destruct (kpage_frame _ Hk) as [Ha _].
    by rewrite has_flag by (unfold PTE_P; lia).
  - rewrite bool_decide_eq_false_2 by (apply lookup_ge_None in Eu; lia). done.
Qed.

Lemma uentry_app us u n : 0 <= n ->
  uentry (us ++ [u]) n = if decide (n = Z.of_nat (length us)) then u.1 + u.2 else uentry us n.
Proof.
  intros Hn. unfold uentry. case_decide as Hd.
  - subst n. by rewrite Nat2Z.id, list_lookup_middle by done.
  - destruct (decide (Z.to_nat n < length us)%nat).
    + by rewrite lookup_app_l by lia.
    + rewrite lookup_app_r by lia. rewrite (lookup_ge_None_2 us) by lia. rewrite (lookup_ge_None_2 [u]) by (simpl; lia). done.
Qed.

(** Number of pages of [sz] bytes. *)
Definition npages (sz : Z) : Z := (sz + 4095) / 4096.

(** A page table next to a free page that is taken. *)
Lemma vm_take m m1 d tabs f l :
  vm_ok m d tabs (f :: l) -> free_ok m1 l -> ph_mem m1 = ph_mem m ->
  vm_ok m1 d tabs l /\ (forall n, view m1 tabs n = view m tabs n) /\ f ∉ d :: tabs_of tabs ++ l /\ kpage f.
Proof.
  intros Hv Hf Hm. assert (forall g i, word m1 g i = word m g i) as Hw by (intros; unfold word, page_of; by rewrite Hm).
  pose proof (vk_nodup _ _ _ _ Hv) as Hnd. rewrite <- Permutation_middle, Permutation_swap in Hnd.
  apply NoDup_cons in Hnd as [Hnd1 Hnd2].
  pose proof (fr_pages _ _ (vk_free _ _ _ _ Hv)) as Hfp. apply Forall_cons in Hfp as [Hkf _]. split_and!; [|..|done|done].
  - destruct Hv as [V1 V2 V3 V4 V5]. split; auto. intros i Hi. by rewrite Hw, V1.
  - intros n. unfold view. by destruct (tabs !! (n / 1024)).
Qed.

(** A new page at the end of the image: the step of [allocuvm] and
    [copyuvm]. *)
Lemma as_extend m0 m d tabs us l f fl m' tabs' l' v :
  as_ok m0 d tabs us (f :: l) -> Z.of_nat (length us) < 524288 -> 0 <= fl < 4096 -> has fl PTE_P = true ->
  Z.lor fl PTE_P = fl -> grows d m tabs l m' tabs' l' v ->
  (forall n, 0 <= n < 2 ^ 20 -> v n = map_view (view m0 tabs) (Z.of_nat (length us)) 1 f fl n) ->
  as_ok m' d tabs' (us ++ [(f, fl)]) l'.
Proof.
  intros Ha Hlen Hfl Hp Hlor G Hv. pose proof (fr_pages _ _ (vk_free _ _ _ _ (as_vm _ _ _ _ _ Ha))) as Hfp.
  apply Forall_cons in Hfp as [Hk _]. split.
  - apply G.
  - intros n Hn. rewrite (gr_view _ _ _ _ _ _ _ _ G), Hv by lia. unfold map_view. rewrite uentry_app by lia. cbn [fst snd].
    rewrite (as_user _ _ _ _ _ Ha) by done. rewrite Hlor. repeat case_decide; lia || done.
  - intros n Hn. rewrite (gr_view _ _ _ _ _ _ _ _ G), Hv by lia. unfold map_view. rewrite decide_False by lia. by apply Ha.
  - apply Forall_app. split; [apply Ha|]. apply Forall_singleton. by split.
  - rewrite fmap_app. cbn [fmap list_fmap fst]. pose proof (as_nodup _ _ _ _ _ Ha) as Hn.
    assert (d :: tabs_of tabs' ++ (us.*1 ++ [f]) ++ l' ≡ₚ d :: tabs_of tabs ++ us.*1 ++ f :: l) as ->; [|done].
    constructor. rewrite <- !app_assoc. cbn [app].
    rewrite (Permutation_app_comm (us.*1) (f :: l)), (Permutation_app_comm (us.*1) (f :: l')). cbn [app].
    rewrite <- !Permutation_middle. constructor. rewrite !app_assoc. apply Permutation_app_tail. apply G.
  - rewrite length_app. cbn [length]. lia.
Qed.

(** ** [allocuvm] *)

Definition alloc_body (d newsz oldsz : Z) : Z -> prog E phys (Z + Z) := fun a =>
  if negb (a <? newsz) then Ret (inr newsz)
  else
    mem <- kalloc;;
    if mem =? 0 then deallocuvm (d + KERNBASE) newsz oldsz;;; Ret (inr 0)
    else
      memset_page mem 0;;;
      mappages (d + KERNBASE) a PGSIZE (v2p mem) (Z.lor PTE_W PTE_U);;;
      Ret (inl (u32 (a + PGSIZE))).

(** One page more. *)
Lemma alloc_step m d tabs us l newsz oldsz b :
  as_ok m d tabs us l -> (1025 < length l + size tabs)%nat -> 4096 * Z.of_nat (length us) < newsz -> newsz < KERNBASE ->
  exists f m' tabs' l',
    run (alloc_body d newsz oldsz (4096 * Z.of_nat (length us))) m b =
      Ok (inl (4096 * (Z.of_nat (length us) + 1)), m', b) /\
    as_ok m' d tabs' (us ++ [(f, 7)]) l' /\ page_of m' f = zpage /\
    (size tabs' + length l' + 1 = size tabs + length l)%nat /\
    f :: tabs_of tabs' ++ l' ≡ₚ tabs_of tabs ++ l /\
    (forall g, g ∉ d :: tabs_of tabs ++ l -> page_of m' g = page_of m g).
Proof.
  intros Ha Hl Hn Hk. unfold KERNBASE in Hk. pose proof (as_vm _ _ _ _ _ Ha) as Hv. pose proof (tabs_bound _ _ _ _ Hv) as Hb.
  unfold alloc_body. rewrite (proj2 (Z.ltb_lt _ _)) by done. cbn [negb].
  destruct l as [|f l]; [simpl in Hl; lia|]. rewrite run_bind.
  destruct (run_kalloc m f l b) as (m1 & -> & Hf1 & Hm1); [apply Hv|].
  destruct (vm_take m m1 d tabs f l Hv Hf1 Hm1) as (Hv1 & Hview1 & Hfn & Hkf). destruct (kpage_frame _ Hkf) as [Haf Hrf].
  rewrite (proj2 (Z.eqb_neq _ 0)) by (unfold KERNBASE; lia). rewrite run_bind, run_memset_page by done.
  destruct (vm_set_page m1 d tabs l f (replicate 4096 (u8 0)) Hv1 Hfn) as [Hv2 Hview2]; [by rewrite length_replicate|].
  set (m2 := set_page f (replicate 4096 (u8 0)) m1) in *. rewrite run_bind, frame_v2p by done.
  change PGSIZE with (u32 (4096 * 1)).
  destruct (run_mappages m2 d tabs l (Z.of_nat (length us)) 1 f (Z.lor PTE_W PTE_U) b)
    as (r & m' & tabs' & l' & j & -> & Hr & G); auto; try (unfold PHYSTOP in *; lia); [|done|].
  { intros n' Hn'. rewrite Hview2, Hview1, (as_user _ _ _ _ _ Ha) by lia. rewrite uentry_present by (apply Ha || lia).
    rewrite bool_decide_eq_false_2 by lia. done. }
  pose proof (grows_length _ _ _ _ _ _ _ _ G) as Hgl. pose proof (tabs_bound _ _ _ _ (gr_ok _ _ _ _ _ _ _ _ G)) as Hb'.
  destruct Hr as [[-> ->]|(_ & -> & _)]; [|cbn [length] in *; lia]. cbn [run].
  change (u32 (4096 * 1)) with 4096. rewrite u32_small by lia. exists f, m', tabs', l'.
  replace (4096 * Z.of_nat (length us) + 4096) with (4096 * (Z.of_nat (length us) + 1)) by lia. split_and!.
  - done.
  - eapply (as_extend m m2); [exact Ha|lia|lia|done|done|exact G|]. intros n _. unfold map_view. by rewrite Hview2, Hview1.
  - rewrite (gr_keep _ _ _ _ _ _ _ _ G) by done. unfold m2. by rewrite page_set, decide_True.
  - cbn [length] in *. lia.
  - rewrite (gr_perm _ _ _ _ _ _ _ _ G). by rewrite Permutation_middle.
  - intros g Hg. rewrite <- Permutation_middle, Permutation_swap in Hg. apply not_elem_of_cons in Hg as [Hgf Hg].
    rewrite (gr_keep _ _ _ _ _ _ _ _ G) by done. unfold m2. rewrite page_set, decide_False by done. unfold page_of. by rewrite Hm1.
Qed.

(** Pages a process may read and write. *)
Definition rw_pages (zs : list Z) : list upage := map (fun f => (f, 7)) zs.

(** New pages [zs], all zero, at the end of the image. *)
Lemma alloc_loop k : forall fuel m d tabs us l newsz oldsz b,
  (k < fuel)%nat -> as_ok m d tabs us l -> (1025 + k <= length l + size tabs)%nat ->
  npages newsz = Z.of_nat (length us + k) -> newsz < KERNBASE ->
  exists zs m' tabs' l',
    run (while_fuel fuel (alloc_body d newsz oldsz) (4096 * Z.of_nat (length us))) m b = Ok (newsz, m', b) /\
    length zs = k /\ as_ok m' d tabs' (us ++ rw_pages zs) l' /\ (forall f, f ∈ zs -> page_of m' f = zpage) /\
    zs ++ tabs_of tabs' ++ l' ≡ₚ tabs_of tabs ++ l /\
    (forall g, g ∉ d :: tabs_of tabs ++ l -> page_of m' g = page_of m g).
Proof.
  unfold npages. induction k as [|k IH]; intros [|fuel] m d tabs us l newsz oldsz b Hfu Ha Hl Hn Hk; try lia.
  - exists [], m, tabs, l. cbn [while_fuel]. rewrite run_bind. unfold alloc_body at 1.
    rewrite (proj2 (Z.ltb_ge _ _)) by lia. cbn [negb run]. rewrite app_nil_r. split_and!; try done. intros f ?%elem_of_nil; done.
  - cbn [while_fuel]. rewrite run_bind.
    destruct (alloc_step m d tabs us l newsz oldsz b) as (f & m1 & tabs1 & l1 & -> & Ha1 & Hz & Hlen & Hp1 & Hkeep); auto; try lia.
    replace (Z.of_nat (length us) + 1) with (Z.of_nat (length (us ++ [(f, 7)]))) by (rewrite length_app; cbn [length]; lia).
    destruct (IH fuel m1 d tabs1 (us ++ [(f, 7)]) l1 newsz oldsz b) as (zs & m' & tabs' & l' & Hr & Hzl & Ha' & Hzs & Hp & Hk'); auto; try lia.
    { rewrite length_app. cbn [length]. lia. }
    exists (f :: zs), m', tabs', l'. split_and!.
    + done.
    + cbn [length]. lia.
    + rewrite <- app_assoc in Ha'. exact Ha'.
    + intros g [->|Hg]%elem_of_cons; [|by apply Hzs]. rewrite Hk'; [done|].
      apply (as_user_page m1 d tabs1 (us ++ [(f, 7)]) l1 (f, 7) Ha1). apply elem_of_app. right. by left.
    + cbn [app]. rewrite Hp. done.
    + intros g Hg. rewrite Hk', Hkeep; [done|done|]. intros Hin. apply Hg. rewrite elem_of_cons in Hin |- *.
      destruct Hin as [|Hin]; [by left|]. right. rewrite <- Hp1. by right.
Qed.

Lemma run_allocuvm m d tabs us l oldsz newsz b :
  as_ok m d tabs us l -> npages oldsz = Z.of_nat (length us) -> 0 <= oldsz <= newsz -> newsz < KERNBASE ->
  (1025 + Z.to_nat (npages newsz - npages oldsz) <= length l + size tabs)%nat ->
  exists zs m' tabs' l',
    run (E := E) (allocuvm (d + KERNBASE) oldsz newsz) m b = Ok (newsz, m', b) /\
    as_ok m' d tabs' (us ++ rw_pages zs) l' /\ npages newsz = Z.of_nat (length us + length zs) /\
    (forall f, f ∈ zs -> page_of m' f = zpage) /\ zs ++ tabs_of tabs' ++ l' ≡ₚ tabs_of tabs ++ l /\
    (forall g, g ∉ d :: tabs_of tabs ++ l -> page_of m' g = page_of m g).
Proof.
  intros Ha Hus Ho Hn Hl. unfold allocuvm. rewrite (proj2 (Z.leb_gt _ _)), (proj2 (Z.ltb_ge _ _)) by lia.
  unfold KERNBASE, npages in *. rewrite PGROUNDUP_eq by lia. rewrite Hus, Z.mul_comm.
  destruct (alloc_loop (Z.to_nat ((newsz + 4095) / 4096 - Z.of_nat (length us))) (S (Z.to_nat ((newsz - oldsz) / PGSIZE + 1)))
    m d tabs us l newsz oldsz b) as (zs & m' & tabs' & l' & Hr & Hzl & Ha' & Hz & Hp & Hk); auto.
  - unfold PGSIZE. lia.
  - lia.
  - unfold npages. lia.
  - exists zs, m', tabs', l'. split_and!; auto. lia.
Qed.

(** ** [deallocuvm] *)

Lemma vm_give m m1 d tabs f l :
  vm_ok m d tabs l -> kpage f -> f ∉ d :: tabs_of tabs ++ l -> free_ok m1 (f :: l) ->
  (forall g, g <> f -> page_of m1 g = page_of m g) ->
  vm_ok m1 d tabs (f :: l) /\ forall n, view m1 tabs n = view m tabs n.
Proof.
  intros Hv Hk Hf Hf1 Hkeep. assert (forall g i, g <> f -> word m1 g i = word m g i) as Hw.
  { intros g i Hg. unfold word. by rewrite Hkeep. }
  apply not_elem_of_cons in Hf as Hf'. destruct Hf' as [Hfd Hf']. apply not_elem_of_app in Hf' as [Hft _]. split.
  - split; try apply Hv.
    + intros i Hi. rewrite Hw by done. by apply Hv.
    + done.
    + rewrite <- Permutation_middle, Permutation_swap. constructor; [done|apply Hv].
  - intros n. unfold view. destruct (tabs !! (n / 1024)) as [g|] eqn:Eg; [|done]. apply Hw. intros ->.
    apply Hft, elem_of_tabs. eauto.
Qed.

Definition dealloc_body (d oldsz newsz : Z) : Z -> prog E phys (Z + Z) := fun a =>
  if negb (a <? oldsz) then Ret (inr newsz)
  else
    pte <- walkpgdir (d + KERNBASE) a false;;
    match pte with
    | None => Ret (inl (u32 (u32 (a + (NPTENTRIES - 1) * PGSIZE) + PGSIZE)))
    | Some pte =>
        e <- ld32 pte;;
        (if has e PTE_P then
           let pa := PTE_ADDR e in
           if pa =? 0 then panic "kfree"
           else kfree (p2v pa);;; st32 pte 0
         else Ret tt);;;
        Ret (inl (u32 (a + PGSIZE)))
    end.

(** Half way: pages [k .. a - 1] are gone. *)
Record dealloc_at (m : phys) (d : Z) (tabs : gmap Z Z) (us : list upage) (l : list Z) (k a : nat) : Prop := {
  da_vm : vm_ok m d tabs l;
  da_view : forall n, 0 <= n < 524288 ->
    view m tabs n = if decide (Z.of_nat k <= n < Z.of_nat a) then 0 else uentry us n;
  da_kern : forall n, 524288 <= n < 2 ^ 20 -> view m tabs n = kview n;
  da_pages : Forall upage_ok us;
  da_nodup : NoDup (d :: tabs_of tabs ++ (take k us).*1 ++ (drop a us).*1 ++ l);
  da_len : Z.of_nat (length us) <= 524288;
}.

(** Above the image there is nothing to free. *)
Lemma dealloc_tail N : forall fuel m d tabs us l k a oldsz newsz b,
  (N < fuel)%nat -> dealloc_at m d tabs us l k (length us) -> (k <= length us)%nat ->
  oldsz <= KERNBASE -> Z.of_nat (length us) <= a -> npages oldsz - a <= Z.of_nat N ->
  run (while_fuel fuel (dealloc_body d oldsz newsz) (4096 * a)) m b = Ok (newsz, m, b).
Proof.
  unfold npages, KERNBASE. induction N as [|N IH]; intros [|fuel] m d tabs us l k a oldsz newsz b Hfu Hd Hk Ho Ha HN; try lia.
  - cbn [while_fuel]. rewrite run_bind. unfold dealloc_body at 1. by rewrite (proj2 (Z.ltb_ge _ _)) by lia.
  - cbn [while_fuel]. rewrite run_bind. unfold dealloc_body at 1.
    destruct (Z.ltb_spec (4096 * a) oldsz) as [Hlt|]; cbn [negb]; [|done]. pose proof (da_vm _ _ _ _ _ _ _ Hd) as Hv.
    rewrite run_bind. destruct (tabs !! (a / 1024)) as [t|] eqn:Et.
    + rewrite (run_walk_hit m d tabs l a t false b Hv) by (done || lia). rewrite run_bind.
      pose proof (kpage_frame _ (tab_kpage _ _ _ _ _ _ Hv Et)) as Hfr. rewrite run_ld32 by (done || lia).
      replace (word m t (a mod 1024)) with 0.
      2: { transitivity (view m tabs a); [|unfold view; by rewrite Et]. rewrite (da_view _ _ _ _ _ _ _ Hd) by lia.
           rewrite decide_False by lia. unfold uentry. by rewrite lookup_ge_None_2 by lia. }
      cbn [has]. change (has 0 PTE_P) with false. cbv iota. cbn [pbind run]. unfold PGSIZE. rewrite u32_small by lia.
      replace (4096 * a + 4096) with (4096 * (a + 1)) by lia. eapply IH; eauto; lia.
    + rewrite (run_walk_none m d tabs l a b Hv) by (done || lia). cbn [run]. unfold PGSIZE, NPTENTRIES. rewrite !u32_small by (rewrite ?u32_small; lia).
      replace (4096 * a + (1024 - 1) * 4096 + 4096) with (4096 * (a + 1024)) by lia. eapply IH; eauto; lia.
Qed.

Lemma dealloc_loop N : forall fuel m d tabs us l k a oldsz newsz b,
  (N < fuel)%nat -> dealloc_at m d tabs us l k a -> (k <= a <= length us)%nat ->
  oldsz <= KERNBASE -> Z.of_nat (length us) <= npages oldsz -> npages oldsz - Z.of_nat a <= Z.of_nat N ->
  exists m', run (while_fuel fuel (dealloc_body d oldsz newsz) (4096 * Z.of_nat a)) m b = Ok (newsz, m', b) /\
    dealloc_at m' d tabs us (rev (drop a us).*1 ++ l) k (length us) /\
    forall g, g ∉ d :: tabs_of tabs ++ (drop a us).*1 -> page_of m' g = page_of m g.
Proof.
  induction N as [|N IH]; intros fuel m d tabs us l k a oldsz newsz b Hfu Hd Hk Ho Hlen HN.
  - assert (a = length us) as -> by lia. exists m. rewrite drop_all. split_and!; [|done|done]. eapply dealloc_tail; eauto; lia.
  - destruct (decide (a = length us)) as [->|Hne].
    { exists m. rewrite drop_all. split_and!; [|done|done]. eapply dealloc_tail; eauto; lia. }
    destruct fuel as [|fuel]; [lia|]. destruct (lookup_lt_is_Some_2 us a) as [u Hu]; [lia|].
    pose proof (da_vm _ _ _ _ _ _ _ Hd) as Hv. pose proof (da_len _ _ _ _ _ _ _ Hd) as Hl.
    pose proof (Forall_lookup_1 _ _ _ _ (da_pages _ _ _ _ _ _ _ Hd) Hu) as (Hkp & Hfl & Hpres).
    destruct (kpage_frame _ Hkp) as [Haf Hrf]. cbn [while_fuel]. rewrite run_bind. unfold dealloc_body at 1.
    unfold npages, KERNBASE in Ho, HN, Hlen. rewrite (proj2 (Z.ltb_lt _ _)) by lia. cbn [negb]. rewrite run_bind.
    assert (view m tabs (Z.of_nat a) = u.1 + u.2) as Hview.
    { rewrite (da_view _ _ _ _ _ _ _ Hd) by lia. rewrite decide_False by lia. unfold uentry. by rewrite Nat2Z.id, Hu. }
    destruct (tabs !! (Z.of_nat a / 1024)) as [t|] eqn:Et.
    2: { unfold view in Hview. rewrite Et in Hview. pose proof lk_order. unfold kpage, KERNLINK, EXTMEM in *. lia. }
    rewrite (run_walk_hit m d tabs l _ t false b Hv) by (done || lia). rewrite run_bind.
    pose proof (kpage_frame _ (tab_kpage _ _ _ _ _ _ Hv Et)) as Hfr. rewrite run_ld32 by (done || lia).
    replace (word m t (Z.of_nat a mod 1024)) with (u.1 + u.2) by (rewrite <- Hview; unfold view; by rewrite Et).
    rewrite has_flag, Hpres by (unfold PTE_P; lia). cbv zeta. rewrite PTE_ADDR_eq by (unfold PHYSTOP in *; lia).
    rewrite (proj2 (Z.eqb_neq u.1 0)) by (pose proof lk_order; unfold kpage, KERNLINK, EXTMEM in *; lia).
    rewrite frame_p2v by done. rewrite run_assoc, run_bind.
    pose proof (da_nodup _ _ _ _ _ _ _ Hd) as Hnd. rewrite (drop_S _ _ _ Hu) in Hnd. cbn [fmap list_fmap] in Hnd.
    assert (d :: tabs_of tabs ++ (take k us).*1 ++ (u.1 :: (drop (S a) us).*1) ++ l ≡ₚ
      u.1 :: d :: tabs_of tabs ++ (take k us).*1 ++ (drop (S a) us).*1 ++ l) as Hperm.
    { cbn [app]. rewrite Permutation_swap. constructor. rewrite <- !Permutation_middle. done. }
    rewrite Hperm in Hnd. pose proof Hnd as Hnd'. apply NoDup_cons in Hnd' as [Hnu _].
    assert (u.1 ∉ d :: tabs_of tabs ++ l) as Hun by set_solver.
    destruct (run_kfree m u.1 l b) as (m1 & -> & Hf1 & Hk1); [apply Hv|done|set_solver|].
    destruct (vm_give m m1 d tabs u.1 l Hv Hkp Hun Hf1 Hk1) as [Hv1 Hview1]. rewrite run_bind, run_st32 by (done || lia).
    destruct (vm_set_entry m1 d tabs (u.1 :: l) (Z.of_nat a) t 0 Hv1 ltac:(lia) Et) as [Hv2 Hview2].
    cbn [pbind run]. unfold PGSIZE. rewrite u32_small by lia.
    replace (4096 * Z.of_nat a + 4096) with (4096 * Z.of_nat (S a)) by lia.
    destruct (IH fuel (set_word t (Z.of_nat a mod 1024) 0 m1) d tabs us (u.1 :: l) k (S a) oldsz newsz b)
      as (m' & Hr & Hd' & Hkeep); auto; try (unfold npages, KERNBASE; lia).
    { split; try apply Hd; [done| | |].
      - intros n Hn. rewrite Hview2, Hview1 by lia. rewrite (da_view _ _ _ _ _ _ _ Hd) by done.
        repeat case_decide; try lia; done.
      - intros n Hn. rewrite Hview2, Hview1 by lia. rewrite decide_False by lia. by apply Hd.
      - rewrite <- Hperm in Hnd. revert Hnd. apply NoDup_Permutation_proper.
        constructor. cbn [app]. rewrite <- !Permutation_middle. done. }
    exists m'. split_and!; [done| |].
    + rewrite (drop_S _ _ _ Hu). cbn [fmap list_fmap rev]. rewrite <- app_assoc. exact Hd'.
    + intros g Hg. rewrite (drop_S _ _ _ Hu) in Hg. cbn [fmap list_fmap] in Hg. rewrite Hkeep by set_solver. unfold set_word.
      rewrite page_set, decide_False; [apply Hk1; set_solver|].
      intros ->. apply Hg. right. apply elem_of_app. left. apply elem_of_tabs. eauto.
Qed.

Lemma run_deallocuvm m d tabs us l oldsz newsz b :
  as_ok m d tabs us l -> 0 <= newsz < oldsz -> oldsz <= KERNBASE -> npages newsz <= Z.of_nat (length us) <= npages oldsz ->
  let k := Z.to_nat (npages newsz) in
  exists m', run (E := E) (deallocuvm (d + KERNBASE) oldsz newsz) m b = Ok (newsz, m', b) /\
    as_ok m' d tabs (take k us) (rev (drop k us).*1 ++ l) /\
    forall g, g ∉ d :: tabs_of tabs ++ (drop k us).*1 -> page_of m' g = page_of m g.
Proof.
  intros Ha Hn Ho Hlen k. unfold deallocuvm. rewrite (proj2 (Z.leb_gt _ _)) by lia.
  assert (0 <= npages newsz) by (unfold npages; lia). unfold KERNBASE in Ho. rewrite PGROUNDUP_eq by lia.
  replace ((newsz + 4095) / 4096 * 4096) with (4096 * Z.of_nat k) by (unfold k, npages; lia).
  destruct (dealloc_loop (Z.to_nat ((oldsz - newsz) / PGSIZE + 1)) (S (Z.to_nat ((oldsz - newsz) / PGSIZE + 1)))
    m d tabs us l k k oldsz newsz b) as (m' & Hr & Hd & Hk); try (unfold k, KERNBASE, npages, PGSIZE in *; lia).
  { destruct Ha as [A1 A2 A3 A4 A5 A6]. split; auto.
    - intros n Hn'. rewrite decide_False by lia. by apply A2.
    - by rewrite (app_assoc (take k us).*1), <- fmap_app, take_drop. }
  exists m'. split_and!; [exact Hr| |exact Hk]. destruct Hd as [D1 D2 D3 D4 D5 D6]. split; auto.
  - intros n Hn'. rewrite D2 by done. unfold uentry. case_decide as Hc.
    + by rewrite lookup_take_ge by lia.
    + destruct (decide (Z.to_nat n < k)%nat); [by rewrite lookup_take_lt|].
      by rewrite lookup_take_ge, lookup_ge_None_2 by lia.
  - by apply Forall_take.
  - by rewrite drop_all in D5.
  - rewrite length_take. lia.
Qed.

(** ** [freevm] *)

(** The tables of directory entries [js], in order. *)
Definition tabs_in (tabs : gmap Z Z) (js : list Z) : list Z := omap (fun i => tabs !! i) js.

Lemma tabs_in_all m d tabs l : vm_ok m d tabs l -> tabs_in tabs (seqZ 0 1024) ≡ₚ tabs_of tabs.
Proof.
  intros Hv. apply NoDup_Permutation.
  - unfold tabs_in. pose proof (NoDup_seqZ 0 1024) as Hn. induction Hn as [|i js Hi Hn IH]; cbn; [constructor|].
    destruct (tabs !! i) as [f|] eqn:Ef; [|done]. constructor; [|done]. intros (j & Hj & Hjf)%list_elem_of_omap.
    assert (i = j) as <- by (by eapply tab_inj). done.
  - pose proof (vk_nodup _ _ _ _ Hv) as Hn. apply NoDup_cons in Hn as [_ Hn]. by apply NoDup_app in Hn as [Hn _].
  - intros f. unfold tabs_in. rewrite list_elem_of_omap, elem_of_tabs. split.
    + intros (i & _ & Hi). eauto.
    + intros (i & Hi). exists i. split; [|done]. apply elem_of_seqZ. pose proof (vk_dom _ _ _ _ Hv i f Hi). lia.
Qed.

Lemma free_tables d tabs js : forall m l b,
  free_ok m l -> kpage d -> (forall i, i ∈ js -> 0 <= i < 1024) ->
  (forall i, 0 <= i < 1024 -> word m d i = match tabs !! i with Some f => f + 7 | None => 0 end) ->
  (forall i f, tabs !! i = Some f -> kpage f /\ f <> d) -> NoDup (tabs_in tabs js ++ l) ->
  exists m', run (E := E) (for_each js (fun i =>
      e <- ld32 (u32 (d + KERNBASE + 4 * i));; if has e PTE_P then kfree (p2v (PTE_ADDR e)) else Ret tt)) m b = Ok (tt, m', b) /\
    free_ok m' (rev (tabs_in tabs js) ++ l) /\ forall g, g ∉ tabs_in tabs js -> page_of m' g = page_of m g.
Proof.
  induction js as [|i js IH]; intros m l b Hf Hd Hjs Hw Ht Hnd; cbn [for_each].
  { by exists m. }
  destruct (kpage_frame _ Hd) as [Ha Hr]. assert (0 <= i < 1024) as Hi by (apply Hjs; by left).
  rewrite run_assoc, run_bind. rewrite u32_small by (unfold KERNBASE, PHYSTOP in *; lia). rewrite run_ld32 by done.
  rewrite Hw by done. unfold tabs_in in *. cbn [omap list_omap] in *. destruct (tabs !! i) as [f|] eqn:Ef.
  - destruct (Ht i f Ef) as [Hk Hfd]. destruct (kpage_frame _ Hk) as [Haf Hrf]. rewrite has_flag by (unfold PTE_P; lia).
    change (has 7 PTE_P) with true. cbv iota. rewrite PTE_ADDR_eq by (unfold PHYSTOP in *; lia).
    rewrite frame_p2v by done. rewrite run_bind. cbn [app] in Hnd. apply NoDup_cons in Hnd as [Hn1 Hn2].
    apply not_elem_of_app in Hn1 as [Hn1 Hn1'].
    destruct (run_kfree m f l b Hf Hk Hn1') as (m1 & -> & Hf1 & Hk1).
    destruct (IH m1 (f :: l) b) as (m' & Hrun & Hf' & Hkeep); auto.
    + intros j Hj. apply Hjs. by right.
    + intros j Hj. unfold word. rewrite Hk1 by done. by apply Hw.
    + rewrite <- Permutation_middle. constructor; [|done]. by apply not_elem_of_app.
    + exists m'. split_and!; [done| |].
      * cbn [rev]. by rewrite <- app_assoc.
      * intros g [Hg1 Hg2]%not_elem_of_cons. by rewrite Hkeep, Hk1.
  - change (has 0 PTE_P) with false. cbv iota. cbn [pbind]. apply IH; auto. intros j Hj. apply Hjs. by right.
Qed.

Lemma run_freevm m d tabs us l b : as_ok m d tabs us l ->
  exists m' l', run (E := E) (freevm (d + KERNBASE)) m b = Ok (tt, m', b) /\ free_ok m' l' /\
    l' ≡ₚ d :: tabs_of tabs ++ us.*1 ++ l /\ forall g, g ∉ d :: tabs_of tabs ++ us.*1 -> page_of m' g = page_of m g.
Proof.
  intros Ha. pose proof (as_vm _ _ _ _ _ Ha) as Hv. pose proof (dir_kpage _ _ _ _ Hv) as Hk. destruct (kpage_frame _ Hk) as [Had Hrd].
  unfold freevm. rewrite (proj2 (Z.eqb_neq _ 0)) by (unfold KERNBASE; lia). rewrite run_bind.
  destruct (run_deallocuvm m d tabs us l KERNBASE 0 b Ha) as (m1 & -> & Ha1 & Hk1); try done.
  { pose proof (as_len _ _ _ _ _ Ha). unfold npages, KERNBASE. split; [lia|]. change ((2147483648 + 4095) / 4096) with 524288. lia. }
  change (Z.to_nat (npages 0)) with 0%nat in *. rewrite drop_0 in *. pose proof (as_vm _ _ _ _ _ Ha1) as Hv1.
  pose proof (tabs_in_all _ _ _ _ Hv1) as Hall. pose proof (vk_nodup _ _ _ _ Hv1) as Hnd. apply NoDup_cons in Hnd as [Hnd1 Hnd2].
  rewrite run_bind. change (Z.of_nat NPDENTRIES) with 1024.
  destruct (free_tables d tabs (seqZ 0 1024) m1 (rev us.*1 ++ l) b) as (m2 & -> & Hf2 & Hk2).
  { apply Hv1. }
  { done. }
  { intros i Hi%elem_of_seqZ. lia. }
  { apply Hv1. }
  { intros i f Hi. split; [by eapply tab_kpage|by eapply dir_not_tab]. }
  { by rewrite Hall. }
  destruct (run_kfree m2 d (rev (tabs_in tabs (seqZ 0 1024)) ++ rev us.*1 ++ l) b Hf2 Hk) as (m' & -> & Hf' & Hk').
  { by rewrite <- (Permutation_rev (tabs_in _ _)), Hall. }
  exists m', (d :: rev (tabs_in tabs (seqZ 0 1024)) ++ rev us.*1 ++ l). split_and!; [done|done| |].
  - constructor. rewrite <- !Permutation_rev. by rewrite Hall.
  - intros g Hg. rewrite not_elem_of_cons, not_elem_of_app in Hg. destruct Hg as (Hg1 & Hg2 & Hg3).
    rewrite Hk', Hk2, Hk1; [done| | |done].
    + rewrite not_elem_of_cons, not_elem_of_app. done.
    + by rewrite Hall.
Qed.
End VmUser.
