(* ===== verification/VmCopy.v ===== *)
(** * Copying address spaces and writing into them: [copyuvm], [copyout] *)

From stdpp Require Import base gmap strings numbers list.
From S2P Require Import Prelude Prog Kalloc Vm VmSpec VmUser.

Section VmCopy.
Context `{LinkerOk}.
Context {E : Type -> Type} {B : Type} `{Store E B}.
Implicit Types (m : phys) (d f n : Z) (tabs : gmap Z Z) (l : list Z) (us : list upage) (b : B).

(** Every page of an address space. *)
Definition as_all (d : Z) (tabs : gmap Z Z) (us : list upage) : list Z := d :: tabs_of tabs ++ us.*1.

Lemma as_all_app d tabs us l : as_all d tabs us ++ l = d :: tabs_of tabs ++ us.*1 ++ l.
Proof. unfold as_all. cbn. by rewrite <- app_assoc. Qed.

(** An address space does not notice what happens to other pages. *)
Lemma as_frame m m' d tabs us l l' :
  as_ok m d tabs us l -> (forall g, g ∈ d :: tabs_of tabs -> page_of m' g = page_of m g) ->
  free_ok m' l' -> NoDup (as_all d tabs us ++ l') -> as_ok m' d tabs us l'.
Proof.
  intros Ha Hk Hf Hn. rewrite as_all_app in Hn.
  assert (forall n, view m' tabs n = view m tabs n) as Hview.
  { intros n. unfold view. destruct (tabs !! (n / 1024)) as [t|] eqn:Et; [|done]. unfold word. rewrite Hk; [done|].
    right. apply elem_of_tabs. eauto. }
  destruct Ha as [A1 A2 A3 A4 A5 A6]. split; auto.
  - split; try apply A1.
    + intros i Hi. unfold word. rewrite Hk by by left. by apply A1.
    + done.
    + apply NoDup_cons in Hn as [Hn1 Hn2]. constructor; [set_solver|]. apply NoDup_app in Hn2 as (? & Hd & Hn4).
      apply NoDup_app in Hn4 as (_ & _ & ?). apply NoDup_app. split_and!; [done| |done]. set_solver.
  - intros n Hn'. rewrite Hview. by apply A2.
  - intros n Hn'. rewrite Hview. by apply A3.
Qed.

Lemma lor_present fl : 0 <= fl -> has fl PTE_P = true -> Z.lor fl PTE_P = fl.
Proof.
  intros Hf Hp. apply Z.bits_inj'. intros i Hi. rewrite Z.lor_spec. destruct (Z.eq_dec i 0) as [->|Hne].
  - change (Z.testbit PTE_P 0) with true. rewrite orb_true_r. unfold has, PTE_P in Hp. change 1 with (Z.ones 1) in Hp.
    rewrite Z.land_ones in Hp by lia. symmetry. rewrite Z.bit0_odd. apply negb_true_iff, Z.eqb_neq in Hp. change (2 ^ 1) with 2 in Hp.
    rewrite Zmod_odd in Hp. destruct (Z.odd fl); [done|lia].
  - replace (Z.testbit PTE_P i) with false; [apply orb_false_r|]. symmetry. unfold PTE_P. change 1 with (2 ^ 0).
    by apply Z.pow2_bits_false; lia.
Qed.

(** The child's pages are copies of the parent's first pages. *)
Definition copies (m : phys) (us us2 : list upage) : Prop :=
  Forall2 (fun u u2 => u2.2 = u.2 /\ page_of m u2.1 = page_of m u.1) us us2.

Lemma copies_keep m m' us us2 :
  (forall g, g ∈ us.*1 -> page_of m' g = page_of m g) -> (forall g, g ∈ us2.*1 -> page_of m' g = page_of m g) ->
  copies m us us2 -> copies m' us us2.
Proof.
  intros H1' H2' Hc. induction Hc as [|u u2 us us2 [Hf Hp] Hc IH]; constructor.
  - split; [done|]. rewrite (H1' u.1), (H2' u2.1); [done|by left|by left].
  - apply IH; intros g Hg; [apply H1'|apply H2']; by right.
Qed.

Record copy_inv (m : phys) (d : Z) (tabs : gmap Z Z) (us : list upage) (d2 : Z) (tabs2 : gmap Z Z)
    (us2 : list upage) (l l0 : list Z) : Prop := {
  ci_parent : as_ok m d tabs us l;
  ci_child : as_ok m d2 tabs2 us2 l;
  ci_disj : NoDup (as_all d tabs us ++ as_all d2 tabs2 us2 ++ l);
  ci_copy : copies m (take (length us2) us) us2;
  ci_perm : as_all d2 tabs2 us2 ++ l ≡ₚ l0;
}.

Definition copy_body (pgdir d sz : Z) : Z -> prog E phys (Z + Z) := fun i =>
  if negb (i <? sz) then Ret (inr d)
  else
    pte <- walkpgdir pgdir i false;;
    match pte with
    | None => panic "copyuvm: pte should exist"
    | Some pte =>
        e <- ld32 pte;;
        if negb (has e PTE_P) then panic "copyuvm: page not present"
        else
          let pa := PTE_ADDR e in
          let flags := PTE_FLAGS e in
          mem <- kalloc;;
          if mem =? 0 then freevm d;;; Ret (inr 0)
          else
            copy_page mem (p2v pa);;;
            r <- mappages d i PGSIZE (v2p mem) flags;;
            if r <? 0 then freevm d;;; Ret (inr 0)
            else Ret (inl (u32 (i + PGSIZE)))
    end.

Lemma run_copy_page f g m b : frame f -> frame g ->
  run (E := E) (copy_page (f + KERNBASE) (g + KERNBASE)) m b = Ok (tt, set_page f (page_of m g) m, b).
Proof.
  intros [Hf Hr] [Hg Hr']. unfold copy_page. rewrite run_bind, run_frame_at by (unfold KERNBASE, PHYSTOP in *; lia).
  rewrite run_bind, run_frame_at by (unfold KERNBASE, PHYSTOP in *; lia). simpl. unfold KERNBASE.
  replace (f + 2147483648 - 2147483648 - (f + 2147483648 - 2147483648) mod 4096) with f by lia.
  by replace (g + 2147483648 - 2147483648 - (g + 2147483648 - 2147483648) mod 4096) with g by lia.
Qed.

(** What the end of the copy leaves: the parent as it was, and either a whole
    copy or nothing; a failed [mappages] loses the page just allocated. *)
Definition copy_post (m0 : phys) (d : Z) (tabs : gmap Z Z) (us : list upage) (l0 : list Z) (r : Z) (m' : phys) : Prop :=
  exists l', as_ok m' d tabs us l' /\ (forall g, g ∉ l0 -> page_of m' g = page_of m0 g) /\
    (r = 0 /\ (length l0 <= 1026 + length us)%nat /\ (exists lost, (length lost <= 1)%nat /\ lost ++ l' ≡ₚ l0) \/
     exists d2 tabs2 us2, r = d2 + KERNBASE /\ as_ok m' d2 tabs2 us2 l' /\ copies m' us us2 /\
       as_all d2 tabs2 us2 ++ l' ≡ₚ l0).

(** Giving up: everything the child had is free again. *)
Lemma copy_fail m d tabs us d2 tabs2 us2 l l1 l0 b :
  as_ok m d tabs us l -> as_ok m d2 tabs2 us2 l -> NoDup (as_all d tabs us ++ as_all d2 tabs2 us2 ++ l) ->
  l1 ++ as_all d2 tabs2 us2 ++ l ≡ₚ l0 -> (length l1 <= 1)%nat -> (length l0 <= 1026 + length us)%nat ->
  exists m', run (E := E) (freevm (d2 + KERNBASE)) m b = Ok (tt, m', b) /\ copy_post m d tabs us l0 0 m'.
Proof.
  intros Hp Hc Hd Hl0 Hl1 Hlen. destruct (run_freevm m d2 tabs2 us2 l b Hc) as (m' & l' & -> & Hf & Hperm & Hk).
  exists m'. split; [done|]. rewrite <- as_all_app in Hperm.
  assert (forall g, g ∉ as_all d2 tabs2 us2 -> page_of m' g = page_of m g) as Hk'.
  { intros g Hg. by apply Hk. }
  exists l'. split_and!.
  - eapply as_frame; [exact Hp| |done|by rewrite Hperm]. intros g Hg. apply Hk'. apply NoDup_app in Hd as (_ & Hd & _).
    intros Hin. apply (Hd g); [unfold as_all; set_solver|]. apply elem_of_app. by left.
  - intros g Hg. apply Hk'. intros Hin. apply Hg. rewrite <- Hl0. rewrite !elem_of_app. auto.
  - left. split_and!; [done|done|]. exists l1. split; [done|]. by rewrite Hperm.
Qed.

(** Finding a page of the image. *)
Lemma as_walk m d tabs us l (n : nat) u alloc b : as_ok m d tabs us l -> us !! n = Some u ->
  exists t, frame t /\ run (E := E) (walkpgdir (d + KERNBASE) (4096 * Z.of_nat n) alloc) m b =
      Ok (Some (t + KERNBASE + 4 * (Z.of_nat n mod 1024)), m, b) /\
    run (E := E) (ld32 (t + KERNBASE + 4 * (Z.of_nat n mod 1024))) m b = Ok (u.1 + u.2, m, b).
Proof.
  intros Ha Hu. pose proof (as_vm _ _ _ _ _ Ha) as Hv. pose proof (lookup_lt_Some _ _ _ Hu). pose proof (as_len _ _ _ _ _ Ha).
  assert (view m tabs (Z.of_nat n) = u.1 + u.2) as Hview.
  { rewrite (as_user _ _ _ _ _ Ha) by lia. unfold uentry. by rewrite Nat2Z.id, Hu. }
  pose proof (Forall_lookup_1 _ _ _ _ (as_pages _ _ _ _ _ Ha) Hu) as (Hk & Hf & _).
  unfold view in Hview. destruct (tabs !! (Z.of_nat n / 1024)) as [t|] eqn:Et.
  2: { pose proof lk_order. unfold kpage, KERNLINK, EXTMEM in *. lia. }
  pose proof (kpage_frame _ (tab_kpage _ _ _ _ _ _ Hv Et)) as Hfr. exists t. split_and!; [done| |].
  - eapply run_walk_hit; eauto. lia.
  - rewrite run_ld32 by (done || lia). by rewrite Hview.
Qed.

(** New tables change nothing in the image. *)
Lemma as_grow m0 m d tabs us l f m' tabs' l' v :
  as_ok m0 d tabs us (f :: l) -> grows d m tabs l m' tabs' l' v ->
  (forall n, 0 <= n < 2 ^ 20 -> v n = view m0 tabs n) -> as_ok m' d tabs' us l'.
Proof.
  intros Ha G Hv. destruct Ha as [A1 A2 A3 A4 A5 A6]. split; auto.
  - apply G.
  - intros n Hn. rewrite (gr_view _ _ _ _ _ _ _ _ G), Hv by lia. by apply A2.
  - intros n Hn. rewrite (gr_view _ _ _ _ _ _ _ _ G), Hv by lia. by apply A3.
  - rewrite <- !Permutation_middle, Permutation_swap in A5. apply NoDup_cons in A5 as [_ A5].
    revert A5. apply NoDup_Permutation_proper. constructor. rewrite (Permutation_app_comm us.*1 l), (Permutation_app_comm us.*1 l'), !app_assoc.
    apply Permutation_app_tail. apply G.
Qed.

(** A page [f] has been taken, filled with the parent's page [u] and given to
    [mappages], which has mapped it ([j = 1]) or not ([j = 0]). *)
Section CopyMapped.
Context (m : phys) (d : Z) (tabs : gmap Z Z) (us : list upage) (d2 : Z) (tabs2 : gmap Z Z) (us2 : list upage).
Context (f : Z) (l l0 : list Z) (u : upage) (m2 m' : phys) (tabs2' : gmap Z Z) (l' : list Z) (j : Z).
Hypothesis Hi : copy_inv m d tabs us d2 tabs2 us2 (f :: l) l0.
Hypothesis Hu : us !! length us2 = Some u.
Hypothesis Hfn : f ∉ d2 :: tabs_of tabs2 ++ l.
Hypothesis Hview : forall n, view m2 tabs2 n = view m tabs2 n.
Hypothesis Hother : forall g, g <> f -> page_of m2 g = page_of m g.
Hypothesis Hfilled : page_of m2 f = page_of m u.1.
Hypothesis G : grows d2 m2 tabs2 l m' tabs2' l' (map_view (view m2 tabs2) (Z.of_nat (length us2)) j f u.2).

Lemma cm_keep g : g ∉ d2 :: tabs_of tabs2 ++ f :: l -> page_of m' g = page_of m g.
Proof.
  intros Hg. rewrite <- Permutation_middle, Permutation_swap in Hg. apply not_elem_of_cons in Hg as [Hgf Hg].
  rewrite (gr_keep _ _ _ _ _ _ _ _ G) by done. by apply Hother.
Qed.

Lemma cm_parent_page g : g ∈ as_all d tabs us -> page_of m' g = page_of m g.
Proof.
  intros Hg. apply cm_keep. pose proof (ci_disj _ _ _ _ _ _ _ _ _ Hi) as Hd.
  apply NoDup_app in Hd as (_ & Hd & _). pose proof (Hd g Hg) as Hn. clear -Hn. unfold as_all in Hn. set_solver.
Qed.

Lemma cm_outside m0 : (forall g, g ∉ l0 -> page_of m g = page_of m0 g) -> forall g, g ∉ l0 -> page_of m' g = page_of m0 g.
Proof.
  intros Hm0 g Hg. rewrite <- Hm0 by done. apply cm_keep. intros Hx. apply Hg.
  rewrite <- (ci_perm _ _ _ _ _ _ _ _ _ Hi). clear -Hx. unfold as_all. set_solver.
Qed.

Lemma cm_perm : f :: tabs_of tabs2' ++ l' ≡ₚ tabs_of tabs2 ++ f :: l.
Proof. rewrite (gr_perm _ _ _ _ _ _ _ _ G). by rewrite Permutation_middle. Qed.

Lemma cm_parent : NoDup (as_all d tabs us ++ l') -> as_ok m' d tabs us l'.
Proof.
  intros Hnd. eapply as_frame; [apply Hi| |apply (gr_ok _ _ _ _ _ _ _ _ G)|done].
  intros g Hg. apply cm_parent_page. clear -Hg. unfold as_all. set_solver.
Qed.

Lemma cm_copies : copies m' (take (length (us2 ++ [(f, u.2)])) us) (us2 ++ [(f, u.2)]).
Proof.
  assert (u.1 ∈ us.*1) as Hin by (apply list_elem_of_fmap; exists u; split; [done|by eapply list_elem_of_lookup_2]).
  rewrite length_app. cbn [length]. rewrite Nat.add_1_r, (take_S_r _ _ _ Hu). apply Forall2_app.
  - eapply copies_keep; [| |apply Hi].
    + intros g Hg. apply cm_parent_page. unfold as_all. right. apply elem_of_app. right.
      apply list_elem_of_fmap in Hg as (w & -> & Hw'). apply list_elem_of_fmap. exists w. split; [done|].
      by eapply elem_of_take in Hw' as (? & ? & _); eapply list_elem_of_lookup_2.
    + intros g (w & -> & Hw')%list_elem_of_fmap. apply cm_keep. eapply as_user_page; [apply Hi|done].
  - constructor; [|constructor]. cbn [fst snd]. split; [done|]. rewrite (gr_keep _ _ _ _ _ _ _ _ G) by done.
    rewrite cm_parent_page by (unfold as_all; set_solver). by rewrite Hfilled.
Qed.

(** Mapped: the child has one page more. *)
Lemma cm_mapped : j = 1 -> Z.of_nat (length us2) < 524288 -> copy_inv m' d tabs us d2 tabs2' (us2 ++ [(f, u.2)]) l' l0.
Proof.
  intros Hj Hlen. destruct (Forall_lookup_1 _ _ _ _ (as_pages _ _ _ _ _ (ci_parent _ _ _ _ _ _ _ _ _ Hi)) Hu) as (_ & Hfl & Hpres).
  assert (as_all d2 tabs2' (us2 ++ [(f, u.2)]) ++ l' ≡ₚ as_all d2 tabs2 us2 ++ f :: l) as Hperm.
  { rewrite !as_all_app. constructor. rewrite fmap_app. cbn [fmap list_fmap fst]. rewrite <- !app_assoc. cbn [app].
    rewrite (Permutation_app_comm us2.*1 (f :: l)), (Permutation_app_comm us2.*1 (f :: l')). rewrite !app_assoc. apply Permutation_app_tail.
    rewrite <- cm_perm. by rewrite Permutation_middle. }
  assert (NoDup (as_all d tabs us ++ as_all d2 tabs2' (us2 ++ [(f, u.2)]) ++ l')) as Hd' by (rewrite Hperm; apply Hi).
  split.
  - apply cm_parent. apply NoDup_app in Hd' as (Hx & Hy & Hz). apply NoDup_app in Hz as (_ & _ & Hz). apply NoDup_app.
    split_and!; [done| |done]. intros g Hg Hg'. apply (Hy g Hg). apply elem_of_app. by right.
  - eapply (as_extend m m2); [apply Hi|done|lia|done|by apply lor_present; [lia|]|exact G|].
    intros n _. unfold map_view. by rewrite Hj, Hview.
  - exact Hd'.
  - exact cm_copies.
  - rewrite Hperm. apply Hi.
Qed.

(** Not mapped: everything is given back but the page. *)
Lemma cm_unmapped m0 b : j = 0 -> l' = [] -> (length us2 < length us)%nat -> (forall g, g ∉ l0 -> page_of m g = page_of m0 g) ->
  exists m3, run (E := E) (freevm (d2 + KERNBASE)) m' b = Ok (tt, m3, b) /\ copy_post m0 d tabs us l0 0 m3.
Proof.
  intros Hj Hl' Hlt Hm0. pose proof (tabs_bound _ _ _ _ (gr_ok _ _ _ _ _ _ _ _ G)) as Hb'. pose proof cm_perm as HP.
  pose proof cm_parent as Hpar. pose proof (cm_outside m0 Hm0) as Hout. rewrite Hl' in *.
  assert (f :: as_all d2 tabs2' us2 ≡ₚ as_all d2 tabs2 us2 ++ f :: l) as Hperm.
  { rewrite as_all_app. unfold as_all. rewrite Permutation_swap. constructor.
    rewrite (Permutation_app_comm us2.*1 (f :: l)), !app_assoc. rewrite app_comm_cons. apply Permutation_app_tail.
    rewrite <- HP. by rewrite app_nil_r. }
  pose proof (ci_disj _ _ _ _ _ _ _ _ _ Hi) as Hd. rewrite <- Hperm, <- Permutation_middle in Hd. apply NoDup_cons in Hd as [_ Hd].
  destruct (copy_fail m' d tabs us d2 tabs2' us2 [] [f] l0 b) as (m3 & Hr3 & (l3 & H1' & H2' & H3')).
  - apply Hpar. rewrite app_nil_r. by apply NoDup_app in Hd as (? & _ & _).
  - eapply (as_grow m m2); [apply Hi|exact G|]. intros n _. unfold map_view. rewrite Hj, decide_False by lia. apply Hview.
  - by rewrite app_nil_r.
  - rewrite app_nil_r. cbn [app]. rewrite Hperm. apply Hi.
  - simpl; lia.
  - rewrite <- (ci_perm _ _ _ _ _ _ _ _ _ Hi), <- Hperm. unfold as_all. cbn [length]. rewrite length_app, length_tabs, length_fmap. lia.
  - exists m3. split; [done|]. exists l3. split_and!; [done| |done]. intros g Hg. rewrite H2', Hout; done.
Qed.
End CopyMapped.

Lemma copy_step m0 m d tabs us d2 tabs2 us2 l l0 sz b :
  copy_inv m d tabs us d2 tabs2 us2 l l0 -> (length us2 < length us)%nat -> npages sz = Z.of_nat (length us) ->
  (forall g, g ∉ l0 -> page_of m g = page_of m0 g) ->
  (exists m', run (copy_body (d + KERNBASE) (d2 + KERNBASE) sz (4096 * Z.of_nat (length us2))) m b = Ok (inr 0, m', b) /\
     copy_post m0 d tabs us l0 0 m') \/
  exists f fl m' tabs2' l',
    run (copy_body (d + KERNBASE) (d2 + KERNBASE) sz (4096 * Z.of_nat (length us2))) m b =
      Ok (inl (4096 * Z.of_nat (length (us2 ++ [(f, fl)]))), m', b) /\
    copy_inv m' d tabs us d2 tabs2' (us2 ++ [(f, fl)]) l' l0 /\ (forall g, g ∉ l0 -> page_of m' g = page_of m0 g).
Proof.
  intros Hi Hlt Hsz Hm0. pose proof Hi as [Hp Hc Hd Hcp Hl0]. destruct (lookup_lt_is_Some_2 us (length us2) Hlt) as [u Hu].
  pose proof (as_len _ _ _ _ _ Hp) as Hlen. pose proof (as_vm _ _ _ _ _ Hc) as Hvc. pose proof (tabs_bound _ _ _ _ Hvc) as Htb.
  pose proof (Forall_lookup_1 _ _ _ _ (as_pages _ _ _ _ _ Hp) Hu) as (Hk & Hfl & Hpres). destruct (kpage_frame _ Hk) as [Hau Hru].
  destruct (as_walk m d tabs us l (length us2) u false b Hp Hu) as (t & Hft & Hw & Hld).
  unfold npages in Hsz. unfold copy_body. rewrite (proj2 (Z.ltb_lt _ _)) by lia. cbn [negb].
  rewrite run_bind, Hw, run_bind, Hld. rewrite has_flag, Hpres by (unfold PTE_P; lia). cbn [negb]. cbv zeta.
  rewrite PTE_ADDR_eq, PTE_FLAGS_eq by (unfold PHYSTOP in *; lia). rewrite run_bind. destruct l as [|f l].
  { left. rewrite run_kalloc_none by apply Hp. change (0 =? 0) with true. cbv iota.
    destruct (copy_fail m d tabs us d2 tabs2 us2 [] [] l0 b Hp Hc Hd) as (m' & Hr & Hpost); [done|simpl; lia| |].
    { rewrite <- Hl0, app_nil_r. unfold as_all. cbn [length]. rewrite length_app, length_tabs, length_fmap. lia. }
    exists m'. rewrite run_bind, Hr. split; [done|]. destruct Hpost as (l' & H1' & H2' & H3'). exists l'. split_and!; [done| |done].
    intros g Hg. rewrite H2', Hm0; done. }
  destruct (run_kalloc m f l b) as (m1 & -> & Hf1 & Hm1); [apply Hp|].
  destruct (vm_take m m1 d2 tabs2 f l Hvc Hf1 Hm1) as (Hv1 & Hview1 & Hfn & Hkf). destruct (kpage_frame _ Hkf) as [Haf Hrf].
  rewrite (proj2 (Z.eqb_neq _ 0)) by (unfold KERNBASE; lia). rewrite frame_p2v by done. rewrite run_bind, run_copy_page by done.
  destruct (vm_set_page m1 d2 tabs2 l f (page_of m1 u.1) Hv1 Hfn) as [Hv2 Hview2]; [apply Hf1|].
  set (m2 := set_page f (page_of m1 u.1) m1) in *. rewrite run_bind, frame_v2p by done. change PGSIZE with (u32 (4096 * 1)).
  destruct (run_mappages m2 d2 tabs2 l (Z.of_nat (length us2)) 1 f u.2 b)
    as (r & m' & tabs2' & l' & j & -> & Hr & G); auto; try (unfold PHYSTOP in *; lia).
  { intros n' Hn'. rewrite Hview2, Hview1, (as_user _ _ _ _ _ Hc) by lia. rewrite uentry_present by (apply Hc || lia).
    rewrite bool_decide_eq_false_2 by lia. done. }
  assert (forall n, view m2 tabs2 n = view m tabs2 n) as Hview by (intros n; by rewrite Hview2, Hview1).
  assert (forall g, g <> f -> page_of m2 g = page_of m g) as Hother
    by (intros g Hg; unfold m2; rewrite page_set, decide_False by done; unfold page_of; by rewrite Hm1).
  assert (page_of m2 f = page_of m u.1) as Hfilled
    by (unfold m2; rewrite page_set, decide_True by done; unfold page_of; by rewrite Hm1).
  destruct Hr as [[-> ->]|(-> & Hl' & Hj)].
  - right. cbn [Z.ltb Z.compare]. exists f, u.2, m', tabs2', l'. change (u32 (4096 * 1)) with 4096. rewrite u32_small by lia.
    split_and!; [|by eapply cm_mapped; eauto; lia|by eapply cm_outside]. cbn [run]. rewrite length_app. cbn [length]. repeat f_equal. lia.
  - left. change (-1 <? 0) with true. cbv iota.
    edestruct (cm_unmapped m d tabs us d2 tabs2 us2 f l l0 u m2 m' tabs2' l' j) as (m3 & Hr3 & Hpost); eauto; [lia|].
    exists m3. by rewrite run_bind, Hr3.
Qed.

Lemma copy_loop N : forall fuel m0 m d tabs us d2 tabs2 us2 l l0 sz b,
  (N < fuel)%nat -> copy_inv m d tabs us d2 tabs2 us2 l l0 -> (length us2 + N = length us)%nat ->
  npages sz = Z.of_nat (length us) -> (forall g, g ∉ l0 -> page_of m g = page_of m0 g) ->
  exists r m', run (while_fuel fuel (copy_body (d + KERNBASE) (d2 + KERNBASE) sz) (4096 * Z.of_nat (length us2))) m b = Ok (r, m', b) /\
    copy_post m0 d tabs us l0 r m'.
Proof.
  induction N as [|N IH]; intros [|fuel] m0 m d tabs us d2 tabs2 us2 l l0 sz b Hfu Hi Hlen Hsz Hm0; try lia; cbn [while_fuel]; rewrite run_bind.
  - unfold copy_body at 1. unfold npages in Hsz. rewrite (proj2 (Z.ltb_ge _ _)) by lia. cbn [negb run].
    exists (d2 + KERNBASE), m. split; [done|]. destruct Hi as [Hp Hc Hd Hcp Hl0]. exists l. split_and!; [done|done|]. right.
    exists d2, tabs2, us2. split_and!; [done|done| |done]. by rewrite take_ge in Hcp by lia.
  - destruct (copy_step m0 m d tabs us d2 tabs2 us2 l l0 sz b Hi) as [(m' & -> & Hpost)|(f & fl & m' & tabs2' & l' & -> & Hi' & Hm0')]; auto; [lia| |].
    + by exists 0, m'.
    + eapply IH; eauto; [lia|]. rewrite length_app. cbn [length]. lia.
Qed.

Lemma run_copyuvm m d tabs us l sz b : as_ok m d tabs us l -> npages sz = Z.of_nat (length us) ->
  exists r m' l', run (E := E) (copyuvm (d + KERNBASE) sz) m b = Ok (r, m', b) /\ as_ok m' d tabs us l' /\
    (forall g, g ∉ l -> page_of m' g = page_of m g) /\
    (r = 0 /\ (length l <= 1026 + length us)%nat \/
     exists d2 tabs2 us2, r = d2 + KERNBASE /\ as_ok m' d2 tabs2 us2 l' /\ copies m' us us2 /\
       as_all d2 tabs2 us2 ++ l' ≡ₚ l).
Proof.
  intros Ha Hsz. pose proof (as_nodup _ _ _ _ _ Ha) as Hnd. rewrite <- as_all_app in Hnd.
  unfold copyuvm. rewrite run_bind. destruct (run_setupkvm m l b) as (r & m1 & -> & Hk & Hr); [apply Ha|].
  assert (forall g, g ∈ as_all d tabs us -> page_of m1 g = page_of m g) as HkP.
  { intros g Hg. apply Hk. apply NoDup_app in Hnd as (_ & Hnd & _). by apply Hnd. }
  destruct Hr as [(-> & Hf & Hlen)|(d2 & tabs2 & l2 & -> & Hv2 & Hperm & _ & Hview)].
  - change (0 =? 0) with true. cbv iota. exists 0, m1, []. split_and!; [done| |done|left; split; [done|lia]].
    eapply as_frame; [exact Ha| |done|]; [|by rewrite app_nil_r; apply NoDup_app in Hnd as (? & _ & _)].
    intros g Hg. apply HkP. clear -Hg. unfold as_all. set_solver.
  - destruct (kpage_frame _ (dir_kpage _ _ _ _ Hv2)) as [_ Hrd]. rewrite (proj2 (Z.eqb_neq _ 0)) by (unfold KERNBASE; lia).
    assert (NoDup (as_all d tabs us ++ as_all d2 tabs2 [] ++ l2)) as Hd.
    { rewrite (as_all_app d2). cbn [fmap list_fmap app]. by rewrite Hperm. }
    assert (copy_inv m1 d tabs us d2 tabs2 [] l2 l) as Hinv.
    { split; [| |done|constructor|by rewrite as_all_app].
      - eapply as_frame; [exact Ha| |apply Hv2|].
        + intros g Hg. apply HkP. clear -Hg. unfold as_all. set_solver.
        + rewrite app_assoc in Hd. apply NoDup_app in Hd as (Hx & Hy & Hz). apply NoDup_app in Hx as (Hx & _ & _). apply NoDup_app.
          split_and!; [done| |done]. intros g Hg. apply Hy, elem_of_app. by left.
      - split; [done| | |constructor| |done].
        + intros n Hn. rewrite Hview by lia. unfold uentry, kview. cbn. rewrite !decide_False by lia. done.
        + intros n Hn. apply Hview. lia.
        + cbn [fmap list_fmap app]. apply Hv2. }
    unfold npages in Hsz.
    destruct (copy_loop (length us) (S (Z.to_nat (sz / PGSIZE + 1))) m m1 d tabs us d2 tabs2 [] l2 l sz b) as (r & m' & Hrun & Hpost); auto.
    { unfold PGSIZE. lia. }
    destruct Hpost as (l' & Hp' & Hm' & Hr). exists r, m', l'. split_and!; [exact Hrun|done|done|]. destruct Hr as [(? & ? & _)|?]; auto.
Qed.

(** ** [copyout] *)

(** Byte [x] of the process. *)
Definition ubyte (m : phys) (us : list upage) (x : Z) : Z :=
  match us !! Z.to_nat (x / 4096) with
  | Some u => nth (Z.to_nat (x mod 4096)) (page_of m u.1) 0
  | None => 0
  end.

Definition user_page (us : list upage) (n : Z) : Prop :=
  exists u, us !! Z.to_nat n = Some u /\ has u.2 PTE_U = true.

Lemma run_uva2ka m d tabs us l n b : as_ok m d tabs us l -> 0 <= n -> user_page us n ->
  exists u, us !! Z.to_nat n = Some u /\ frame u.1 /\
    run (E := E) (uva2ka (d + KERNBASE) (4096 * n)) m b = Ok (u.1 + KERNBASE, m, b).
Proof.
  intros Ha Hn (u & Hu & HU). pose proof (Forall_lookup_1 _ _ _ _ (as_pages _ _ _ _ _ Ha) Hu) as (Hk & Hfl & Hpres).
  pose proof (kpage_frame _ Hk) as Hfr. exists u. split_and!; [done|done|].
  destruct (as_walk m d tabs us l (Z.to_nat n) u false b Ha Hu) as (t & _ & Hw & Hl). rewrite Z2Nat.id in Hw, Hl by done.
  unfold uva2ka. rewrite run_bind, Hw, run_bind, Hl. destruct Hfr as [Hau Hru].
  rewrite !has_flag by (unfold PTE_P, PTE_U; lia). rewrite Hpres, HU. cbn [negb run].
  rewrite PTE_ADDR_eq by (unfold PHYSTOP in *; lia). by rewrite frame_p2v.
Qed.

(** A page without [PTE_U], such as the guard page below the stack. *)
Lemma run_uva2ka_none m d tabs us l n u b : as_ok m d tabs us l -> 0 <= n -> us !! Z.to_nat n = Some u ->
  has u.2 PTE_U = false -> run (E := E) (uva2ka (d + KERNBASE) (4096 * n)) m b = Ok (0, m, b).
Proof.
  intros Ha Hn Hu HU. pose proof (Forall_lookup_1 _ _ _ _ (as_pages _ _ _ _ _ Ha) Hu) as (Hk & Hfl & Hpres).
  destruct (kpage_frame _ Hk) as [Hau Hru].
  destruct (as_walk m d tabs us l (Z.to_nat n) u false b Ha Hu) as (t & _ & Hw & Hl). rewrite Z2Nat.id in Hw, Hl by done.
  unfold uva2ka. rewrite run_bind, Hw, run_bind, Hl. rewrite !has_flag by (unfold PTE_P, PTE_U; lia). by rewrite Hpres, HU.
Qed.

Lemma as_store m d tabs us l u p : as_ok m d tabs us l -> u ∈ us -> length p = 4096%nat ->
  as_ok (set_page u.1 p m) d tabs us l.
Proof.
  intros Ha Hu Hp. pose proof (as_user_page _ _ _ _ _ _ Ha Hu) as Hn.
  destruct (vm_set_page m d tabs l u.1 p (as_vm _ _ _ _ _ Ha) Hn Hp) as [Hv _].
  eapply as_frame; [exact Ha| |apply Hv|rewrite as_all_app; apply Ha]. intros g Hg. rewrite page_set, decide_False; [done|].
  intros ->. apply Hn. clear -Hg. set_solver.
Qed.

Lemma run_store_bytes f off buf m b : frame f ->
  run (E := E) (store_bytes (f + KERNBASE) off buf) m b = Ok (tt, set_page f (splice (Z.to_nat off) buf (page_of m f)) m, b).
Proof.
  intros [Hf Hr]. unfold store_bytes. rewrite run_bind, run_frame_at by (unfold KERNBASE, PHYSTOP in *; lia). simpl. unfold KERNBASE.
  by replace (f + 2147483648 - 2147483648 - (f + 2147483648 - 2147483648) mod 4096) with f by lia.
Qed.

(** One page of [copyout]. *)
Lemma ubyte_store m d tabs us l n u off buf x :
  as_ok m d tabs us l -> us !! Z.to_nat n = Some u -> 0 <= n -> 0 <= off -> off + Z.of_nat (length buf) <= 4096 -> 0 <= x ->
  ubyte (set_page u.1 (splice (Z.to_nat off) buf (page_of m u.1)) m) us x =
    if decide (4096 * n + off <= x < 4096 * n + off + Z.of_nat (length buf))
    then nth (Z.to_nat (x - (4096 * n + off))) buf 0 else ubyte m us x.
Proof.
  intros Ha Hu Hn Ho Hl Hx. unfold ubyte. pose proof (as_length _ _ _ _ _ u.1 Ha) as Hlen.
  destruct (decide (x / 4096 = n)) as [E1|Hne].
  - rewrite E1, Hu. rewrite page_set, decide_True by done. rewrite !nth_lookup. rewrite lookup_splice by lia.
    repeat case_decide; try lia; try done. do 2 f_equal. lia.
  - rewrite decide_False by lia. destruct (us !! Z.to_nat (x / 4096)) as [w|] eqn:Ew; [|done]. rewrite page_set, decide_False; [done|].
    intros Eq. apply Hne. pose proof (as_nodup _ _ _ _ _ Ha) as Hnd. apply NoDup_cons in Hnd as [_ Hnd]. apply NoDup_app in Hnd as (_ & _ & Hnd).
    apply NoDup_app in Hnd as (Hnd & _ & _). assert (Z.to_nat (x / 4096) = Z.to_nat n); [|lia].
    apply (NoDup_lookup _ _ _ w.1 Hnd); rewrite list_lookup_fmap; [by rewrite Ew|rewrite Hu; cbn; congruence].
Qed.

Definition copyout_body (d : Z) : Z * list Z -> prog E phys (Z * list Z + Z) := fun '(va, buf) =>
  match buf with
  | [] => Ret (inr 0)
  | _ =>
      let len := Z.of_nat (length buf) in
      let va0 := PGROUNDDOWN va in
      pa0 <- uva2ka (d + KERNBASE) va0;;
      if pa0 =? 0 then Ret (inr (-1))
      else
        let n := Z.min (PGSIZE - (va - va0)) len in
        store_bytes pa0 (va - va0) (take (Z.to_nat n) buf);;;
        Ret (inl (u32 (va0 + PGSIZE), drop (Z.to_nat n) buf))
  end.

Lemma copyout_loop N : forall fuel m d tabs us l va buf b,
  (length buf <= N)%nat -> (N < fuel)%nat -> as_ok m d tabs us l -> 0 <= va -> va + Z.of_nat (length buf) <= 4096 * Z.of_nat (length us) ->
  (forall n, va / 4096 <= n <= (va + Z.of_nat (length buf) - 1) / 4096 -> user_page us n) ->
  exists m', run (while_fuel fuel (copyout_body d) (va, buf)) m b = Ok (0, m', b) /\ as_ok m' d tabs us l /\
    (forall x, 0 <= x -> ubyte m' us x =
       if decide (va <= x < va + Z.of_nat (length buf)) then nth (Z.to_nat (x - va)) buf 0 else ubyte m us x) /\
    forall g, g ∉ us.*1 -> page_of m' g = page_of m g.
Proof.
  induction N as [|N IH]; intros [|fuel] m d tabs us l va buf b HN Hfu Ha Hva Hend HU; try lia; cbn [while_fuel]; rewrite run_bind.
  { destruct buf; [|simpl in HN; lia]. exists m. split_and!; try done. intros x Hx. rewrite decide_False by (simpl; lia). done. }
  destruct buf as [|c buf'].
  { exists m. split_and!; try done. intros x Hx. rewrite decide_False by (simpl; lia). done. }
  set (buf := c :: buf') in *. assert (0 < length buf)%nat as Hpos by (simpl; lia). unfold copyout_body at 1.
  change (match buf with [] => _ | _ => ?x end) with x. cbv zeta. pose proof (as_len _ _ _ _ _ Ha) as Hlen.
  rewrite PGROUNDDOWN_eq by lia. rewrite (Z.mul_comm (va / 4096)). rewrite run_bind.
  destruct (run_uva2ka m d tabs us l (va / 4096) b Ha) as (u & Hu & Hfr & ->); [lia|apply HU; lia|].
  destruct Hfr as [Hau Hru]. rewrite (proj2 (Z.eqb_neq _ 0)) by (unfold KERNBASE; lia). unfold PGSIZE.
  set (k := Z.min (4096 - (va - 4096 * (va / 4096))) (Z.of_nat (length buf))). rewrite run_bind, run_store_bytes by done. cbn [run].
  assert (length (take (Z.to_nat k) buf) = Z.to_nat k) as Hlt by (rewrite length_take; lia).
  set (m1 := set_page u.1 _ m). assert (as_ok m1 d tabs us l) as Ha1.
  { apply as_store; [done|by eapply list_elem_of_lookup_2|]. rewrite length_splice; rewrite (as_length _ _ _ _ _ _ Ha); lia. }
  assert (forall x, 0 <= x -> ubyte m1 us x = if decide (va <= x < va + k) then nth (Z.to_nat (x - va)) buf 0 else ubyte m us x) as Hb1.
  { intros x Hx. unfold m1. rewrite (ubyte_store m d tabs us l (va / 4096) u) by (done || lia). rewrite Hlt.
    repeat case_decide; try lia; try done. rewrite !nth_lookup. rewrite lookup_take_lt by lia. do 2 f_equal. lia. }
  assert (forall g, g ∉ us.*1 -> page_of m1 g = page_of m g) as Hk1.
  { intros g Hg. unfold m1. rewrite page_set, decide_False; [done|]. intros ->. apply Hg, list_elem_of_fmap. exists u.
    split; [done|by eapply list_elem_of_lookup_2]. }
  destruct (decide (k = Z.of_nat (length buf))) as [Ek|Hk].
  - rewrite drop_ge by lia. destruct fuel as [|fuel]; [lia|]. exists m1. cbn [while_fuel]. split_and!; [done|done| |done].
    intros x Hx. by rewrite Hb1, Ek.
  - rewrite u32_small by lia.
    destruct (IH fuel m1 d tabs us l (4096 * (va / 4096) + 4096) (drop (Z.to_nat k) buf) b) as (m' & Hr & Ha' & Hb' & Hk'); auto;
      rewrite ?length_drop; try lia.
    { intros n Hn. apply HU. lia. }
    exists m'. split_and!; [exact Hr|done| |].
    + intros x Hx. rewrite Hb', Hb1 by done. rewrite length_drop. repeat case_decide; try lia; try done.
      rewrite !nth_lookup, lookup_drop. do 2 f_equal. lia.
    + intros g Hg. by rewrite Hk', Hk1.
Qed.

Lemma run_copyout m d tabs us l va p b :
  as_ok m d tabs us l -> 0 <= va -> va + Z.of_nat (length p) <= 4096 * Z.of_nat (length us) ->
  (forall n, va / 4096 <= n <= (va + Z.of_nat (length p) - 1) / 4096 -> user_page us n) ->
  exists m', run (E := E) (copyout (d + KERNBASE) va p) m b = Ok (0, m', b) /\ as_ok m' d tabs us l /\
    (forall x, 0 <= x -> ubyte m' us x =
       if decide (va <= x < va + Z.of_nat (length p)) then nth (Z.to_nat (x - va)) p 0 else ubyte m us x) /\
    forall g, g ∉ us.*1 -> page_of m' g = page_of m g.
Proof. intros. eapply (copyout_loop (length p)); eauto. Qed.

Lemma ubyte_copy m us us2 x : copies m us us2 -> ubyte m us2 x = ubyte m us x.
Proof.
  intros Hc. unfold ubyte. destruct (us !! Z.to_nat (x / 4096)) as [u|] eqn:Eu.
  - destruct (Forall2_lookup_l _ _ _ _ _ Hc Eu) as (u2 & -> & _ & Hp). by rewrite Hp.
  - assert (us2 !! Z.to_nat (x / 4096) = None) as ->; [|done].
    apply lookup_ge_None. rewrite <- (Forall2_length _ _ _ Hc). by apply lookup_ge_None.
Qed.

Lemma ubyte_keep m m' us x : (forall g, g ∈ us.*1 -> page_of m' g = page_of m g) -> ubyte m' us x = ubyte m us x.
Proof.
  intros Hk. unfold ubyte. destruct (us !! _) as [u|] eqn:Eu; [|done]. rewrite Hk; [done|].
  apply list_elem_of_fmap. exists u. split; [done|by eapply list_elem_of_lookup_2].
Qed.

(** A fresh address space. *)
Lemma setupkvm_as m l b : free_ok m l ->
  exists r m', run (E := E) setupkvm m b = Ok (r, m', b) /\ (forall f, f ∉ l -> page_of m' f = page_of m f) /\
    (r = 0 /\ (length l <= 1025)%nat \/
     exists d tabs l', r = d + KERNBASE /\ as_ok m' d tabs [] l' /\ as_all d tabs [] ++ l' ≡ₚ l).
Proof.
  intros Hf. destruct (run_setupkvm m l b Hf) as (r & m' & Hr & Hk & Hc). exists r, m'. split_and!; [done|done|].
  destruct Hc as [(-> & _ & Hl)|(d & tabs & l' & -> & Hv & Hp & _ & Hview)]; [by left|right].
  exists d, tabs, l'. split_and!; [done| |by rewrite as_all_app]. split; [done| | |constructor|apply Hv|done].
  - intros n Hn. rewrite Hview by lia. unfold uentry, kview. cbn. by rewrite !decide_False by lia.
  - intros n Hn. apply Hview. lia.
Qed.

(** A larger address space, byte by byte. *)
Lemma allocuvm_bytes m d tabs us l oldsz newsz b :
  as_ok m d tabs us l -> npages oldsz = Z.of_nat (length us) -> 0 <= oldsz <= newsz -> newsz < KERNBASE ->
  (1025 + Z.to_nat (npages newsz - npages oldsz) <= length l + size tabs)%nat ->
  exists zs m' tabs' l',
    run (E := E) (allocuvm (d + KERNBASE) oldsz newsz) m b = Ok (newsz, m', b) /\
    as_ok m' d tabs' (us ++ rw_pages zs) l' /\ npages newsz = Z.of_nat (length (us ++ rw_pages zs)) /\
    zs ++ tabs_of tabs' ++ l' ≡ₚ tabs_of tabs ++ l /\
    (forall x, 0 <= x < 4096 * npages newsz ->
      ubyte m' (us ++ rw_pages zs) x = if decide (x / 4096 < npages oldsz) then ubyte m us x else 0) /\
    forall g, g ∉ d :: tabs_of tabs ++ l -> page_of m' g = page_of m g.
Proof.
  intros Ha Ho Hr Hn Hl. destruct (run_allocuvm m d tabs us l oldsz newsz b) as (zs & m' & tabs' & l' & Hrun & Ha' & Hlen & Hz & Hp & Hk); auto.
  exists zs, m', tabs', l'. split_and!; auto.
  { rewrite length_app. unfold rw_pages. by rewrite length_map. }
  intros x Hx. unfold ubyte. case_decide as Hd.
  - rewrite lookup_app_l by lia. destruct (us !! _) as [u|] eqn:Eu; [|done]. rewrite Hk; [done|].
    eapply as_user_page; [exact Ha|by eapply list_elem_of_lookup_2].
  - rewrite lookup_app_r by lia. unfold rw_pages. rewrite list_lookup_fmap.
    destruct (zs !! _) as [f|] eqn:Ef; [|done]. cbn. rewrite Hz by (by eapply list_elem_of_lookup_2).
    unfold zpage. rewrite nth_lookup. rewrite lookup_replicate_2 by lia. done.
Qed.

(** ** Theorems *)

(** [setupkvm] returns a page table with exactly the kernel's mappings
    (physical memory at [KERNBASE], the program text read-only, the devices)
    and no user page, made of pages that were free; it fails, returning 0, only
    when free pages are scarce. *)
Theorem setupkvm_spec m l b : free_ok m l ->
  exists r m', run (E := E) setupkvm m b = Ok (r, m', b) /\ (forall f, f ∉ l -> page_of m' f = page_of m f) /\
    (r = 0 /\ (length l <= 1025)%nat \/
     exists d tabs l', r = d + KERNBASE /\ as_ok m' d tabs [] l' /\ as_all d tabs [] ++ l' ≡ₚ l).
Proof. apply setupkvm_as. Qed.

(** C15: [freevm] leaks nothing: the directory, the tables and the pages of the
    process are on the free list again, each once. *)
Theorem freevm_spec m d tabs us l b : as_ok m d tabs us l ->
  exists m' l', run (E := E) (freevm (d + KERNBASE)) m b = Ok (tt, m', b) /\ free_ok m' l' /\
    l' ≡ₚ as_all d tabs us ++ l /\ forall g, g ∉ as_all d tabs us -> page_of m' g = page_of m g.
Proof.
  intros Ha. destruct (run_freevm m d tabs us l b Ha) as (m' & l' & Hr & Hf & Hp & Hk). exists m', l'.
  rewrite as_all_app. by split_and!.
Qed.

(** C14: [copyuvm] gives the child a copy of the parent's memory in pages of
    its own: same bytes, same permissions, no page shared, parent unchanged; it
    fails only when free pages are scarce, and never panics. *)
Theorem copyuvm_spec m d tabs us l sz b : as_ok m d tabs us l -> npages sz = Z.of_nat (length us) ->
  exists r m' l', run (E := E) (copyuvm (d + KERNBASE) sz) m b = Ok (r, m', b) /\ as_ok m' d tabs us l' /\
    (forall x, ubyte m' us x = ubyte m us x) /\
    (r = 0 /\ (length l <= 1026 + length us)%nat \/
     exists d2 tabs2 us2, r = d2 + KERNBASE /\ as_ok m' d2 tabs2 us2 l' /\ us2.*2 = us.*2 /\
       (forall x, ubyte m' us2 x = ubyte m us x) /\ NoDup (as_all d tabs us ++ as_all d2 tabs2 us2 ++ l')).
Proof.
  intros Ha Hsz. destruct (run_copyuvm m d tabs us l sz b Ha Hsz) as (r & m' & l' & Hr & Hp & Hk & Hc).
  assert (forall x, ubyte m' us x = ubyte m us x) as Hb.
  { intros x. apply ubyte_keep. intros g (u & -> & Hu)%list_elem_of_fmap. apply Hk. pose proof (as_user_page _ _ _ _ _ _ Ha Hu) as Hn.
    clear -Hn. set_solver. }
  exists r, m', l'. split_and!; auto. destruct Hc as [?|(d2 & tabs2 & us2 & -> & Hc & Hcp & Hperm)]; [by left|right].
  exists d2, tabs2, us2. split_and!; auto.
  - clear -Hcp. induction Hcp as [|u u2 us us2 [Hf _] _ IH]; [done|]. cbn. by rewrite Hf, IH.
  - intros x. rewrite <- Hb. by apply ubyte_copy.
  - rewrite Hperm. rewrite as_all_app. apply Ha.
Qed.

(** [copyout] stores exactly the given bytes at the given user address,
    across page boundaries, and touches no page outside the process. *)
Theorem copyout_spec m d tabs us l va p b :
  as_ok m d tabs us l -> 0 <= va -> va + Z.of_nat (length p) <= 4096 * Z.of_nat (length us) ->
  (forall n, va / 4096 <= n <= (va + Z.of_nat (length p) - 1) / 4096 -> user_page us n) ->
  exists m', run (E := E) (copyout (d + KERNBASE) va p) m b = Ok (0, m', b) /\ as_ok m' d tabs us l /\
    (forall x, 0 <= x -> ubyte m' us x =
       if decide (va <= x < va + Z.of_nat (length p)) then nth (Z.to_nat (x - va)) p 0 else ubyte m us x) /\
    forall g, g ∉ us.*1 -> page_of m' g = page_of m g.
Proof. intros. by apply run_copyout. Qed.

(** Address spaces are isolated.  After [copyuvm], whatever [copyout]
    stores in the child leaves every byte of the parent as it was. *)
Theorem copy_isolated m d tabs us l sz va p b :
  as_ok m d tabs us l -> npages sz = Z.of_nat (length us) -> (1026 + length us < length l)%nat -> 0 <= va ->
  va + Z.of_nat (length p) <= 4096 * Z.of_nat (length us) ->
  (forall n, va / 4096 <= n <= (va + Z.of_nat (length p) - 1) / 4096 -> user_page us n) ->
  exists m' l', run (E := E) (c <- copyuvm (d + KERNBASE) sz;; copyout c va p) m b = Ok (0, m', b) /\
    as_ok m' d tabs us l' /\ forall x, ubyte m' us x = ubyte m us x.
Proof.
  intros Ha Hsz Hl Hva Hend HU. destruct (run_copyuvm m d tabs us l sz b Ha Hsz) as (r & m1 & l1 & Hr & Hp & Hk & Hc).
  destruct Hc as [[_ ?]|(d2 & tabs2 & us2 & -> & Hc & Hcp & Hperm)]; [lia|].
  assert (NoDup (as_all d tabs us ++ as_all d2 tabs2 us2 ++ l1)) as Hnd by (rewrite Hperm, as_all_app; apply Ha).
  pose proof (Forall2_length _ _ _ Hcp) as Hlen.
  destruct (run_copyout m1 d2 tabs2 us2 l1 va p b Hc Hva) as (m' & Hr' & Hc' & _ & Hk'); [lia| |].
  { intros n Hn. destruct (HU n Hn) as (u & Hu & Hfl). destruct (Forall2_lookup_l _ _ _ _ _ Hcp Hu) as (u2 & Hu2 & Hf2 & _).
    exists u2. by rewrite Hf2. }
  assert (forall g, g ∈ as_all d tabs us -> page_of m' g = page_of m1 g) as HkP.
  { intros g Hg. apply Hk'. apply NoDup_app in Hnd as (_ & Hnd & _). specialize (Hnd g Hg). clear -Hnd. unfold as_all in Hnd. set_solver. }
  exists m', l1. split_and!.
  - by rewrite run_bind, Hr.
  - eapply as_frame; [exact Hp| |apply Hc'|rewrite as_all_app; apply Hp].
    intros g Hg. apply HkP. clear -Hg. unfold as_all. set_solver.
  - intros x. etrans; apply ubyte_keep; intros g Hg.
    + apply HkP. clear -Hg. unfold as_all. set_solver.
    + apply Hk. apply list_elem_of_fmap in Hg as (u & -> & Hu). pose proof (as_user_page _ _ _ _ _ _ Ha Hu) as Hn. clear -Hn. set_solver.
Qed.
End VmCopy.
