(* ===== verification/ProcMem.v ===== *)
(** * The size of a process: [growproc] of [proc.c], [sys_sbrk] of [sysproc.c]

    The process is its page directory and [proc->sz]; the results are the C
    result and the new [proc->sz].  [switchuvm], which makes the processor
    forget old translations, is not part of the memory. *)

From stdpp Require Import base gmap strings numbers list.
From S2P Require Import Prelude Prog Kalloc Vm VmSpec VmUser VmCopy.

Section ProcMem.
Context `{LinkerOk}.
Context {E : Type -> Type} {B : Type} `{Store E B}.
Implicit Types (m : phys) (d f : Z) (tabs : gmap Z Z) (l : list Z) (us : list upage) (b : B).

Definition growproc (pgdir psz n : Z) : prog E phys (Z * Z) :=
  if 0 <? n then
    sz <- allocuvm pgdir psz (u32 (psz + n));;
    Ret (if sz =? 0 then (-1, psz) else (0, sz))
  else if n <? 0 then
    sz <- deallocuvm pgdir psz (u32 (psz + n));;
    Ret (if sz =? 0 then (-1, psz) else (0, sz))
  else Ret (0, psz).

(** The argument is [None] when [argint] fails. *)
Definition sys_sbrk (pgdir psz : Z) (arg : option Z) : prog E phys (Z * Z) :=
  match arg with
  | None => Ret (-1, psz)
  | Some n =>
      let addr := s32 psz in
      let* (r, sz) := growproc pgdir psz n in
      Ret (if r <? 0 then -1 else addr, sz)
  end.

Lemma ubyte_take m us k x : 0 <= x < 4096 * Z.of_nat k -> ubyte m (take k us) x = ubyte m us x.
Proof. intros Hx. unfold ubyte. rewrite lookup_take_lt by lia. done. Qed.

(** A page that stays is none of those given back. *)
Lemma kept_page m d tabs us l k g : as_ok m d tabs us l -> g ∈ (take k us).*1 -> g ∉ d :: tabs_of tabs ++ (drop k us).*1.
Proof.
  intros Ha Hg. pose proof (as_nodup _ _ _ _ _ Ha) as Hnd.
  assert (us.*1 = (take k us).*1 ++ (drop k us).*1) as Hus by (by rewrite <- fmap_app, take_drop). rewrite Hus in Hnd.
  apply NoDup_cons in Hnd as [Hd Hnd]. apply NoDup_app in Hnd as (_ & Ht & Hnd). apply NoDup_app in Hnd as (Hnd & _ & _). apply NoDup_app in Hnd as (_ & Hdr & _).
  rewrite elem_of_cons, elem_of_app. intros [-> | [Hin|Hin]].
  - apply Hd. rewrite !elem_of_app. auto.
  - apply (Ht _ Hin). rewrite !elem_of_app. auto.
  - by apply (Hdr _ Hg).
Qed.

Lemma run_growproc m d tabs us l sz n b :
  as_ok m d tabs us l -> npages sz = Z.of_nat (length us) -> 0 <= sz < KERNBASE -> 0 < sz + n < KERNBASE ->
  (0 < n -> (1025 + Z.to_nat (npages (sz + n) - npages sz) <= length l + size tabs)%nat) ->
  exists us' m' tabs' l',
    run (growproc (d + KERNBASE) sz n) m b = Ok ((0, sz + n), m', b) /\
    as_ok m' d tabs' us' l' /\ npages (sz + n) = Z.of_nat (length us') /\
    us'.*1 ++ tabs_of tabs' ++ l' ≡ₚ us.*1 ++ tabs_of tabs ++ l /\
    (forall x, 0 <= x < 4096 * npages (sz + n) -> ubyte m' us' x = if decide (x / 4096 < npages sz) then ubyte m us x else 0) /\
    forall g, g ∉ d :: tabs_of tabs ++ us.*1 ++ l -> page_of m' g = page_of m g.
Proof.
  intros Ha Hsz Hr Hn Hl. unfold KERNBASE in *. unfold growproc. destruct (Z.ltb_spec 0 n) as [Hpos|Hneg]; [|destruct (Z.ltb_spec n 0) as [Hlt|Hge]].
  - rewrite (u32_small (sz + n)) by lia. rewrite run_bind.
    destruct (allocuvm_bytes m d tabs us l sz (sz + n) b) as (zs & m' & tabs' & l' & Hrun & Ha' & Hlen & Hp & Hb & Hk); auto; [lia|unfold KERNBASE; lia|].
    unfold KERNBASE in Hrun. rewrite Hrun. cbn [run]. rewrite (proj2 (Z.eqb_neq _ _)) by lia. exists (us ++ rw_pages zs), m', tabs', l'. split_and!; auto.
    + rewrite fmap_app, <- app_assoc. apply Permutation_app_head. rewrite <- Hp. apply Permutation_app_tail. unfold rw_pages. rewrite map_map. by rewrite map_id.
    + intros g Hg. apply Hk. set_solver.
  - rewrite (u32_small (sz + n)) by lia. rewrite run_bind.
    assert (npages (sz + n) <= npages sz) by (unfold npages; lia).
    destruct (run_deallocuvm m d tabs us l sz (sz + n) b Ha) as (m' & Hrun & Ha' & Hk); [lia|unfold KERNBASE; lia|lia|]. unfold KERNBASE in Hrun. rewrite Hrun. cbn [run].
    rewrite (proj2 (Z.eqb_neq _ _)) by lia. set (k := Z.to_nat (npages (sz + n))) in *. assert (0 <= npages (sz + n)) by (unfold npages; lia).
    eexists (take k us), m', tabs, _. split_and!; [done|exact Ha'| | | |].
    + rewrite length_take. lia.
    + assert (us.*1 = (take k us).*1 ++ (drop k us).*1) as -> by (by rewrite <- fmap_app, take_drop). rewrite <- app_assoc. apply Permutation_app_head. rewrite app_assoc, app_assoc. apply Permutation_app_tail.
      rewrite <- Permutation_rev. apply Permutation_app_comm.
    + intros x Hx. rewrite decide_True by lia. rewrite <- (ubyte_take m us k) by lia. apply ubyte_keep. intros g Hg. apply Hk. by apply (kept_page m d tabs us l).
    + intros g Hg. apply Hk. intros Hin. apply Hg. rewrite <- (take_drop k us), fmap_app. set_solver.
  - assert (n = 0) as -> by lia. rewrite Z.add_0_r in *. exists us, m, tabs, l. split_and!; auto. intros x Hx. by rewrite decide_True by lia.
Qed.

(** C16: [sbrk] resizes a process: whenever the new size is positive and below
    [KERNBASE] (and, if it grows, the free pages suffice for the new pages and
    a full set of page tables), [sys_sbrk] returns
    the old size and sets the new one.  Shrinking and asking for nothing need
    no free page.  In each case every byte below both sizes keeps its
    value, new pages are zero, pages no longer needed are free again, none is
    lost or used twice, and no other page of memory changes. *)
Theorem sbrk_spec m d tabs us l sz n b :
  as_ok m d tabs us l -> npages sz = Z.of_nat (length us) -> 0 <= sz < KERNBASE -> 0 < sz + n < KERNBASE ->
  (0 < n -> (1025 + Z.to_nat (npages (sz + n) - npages sz) <= length l + size tabs)%nat) ->
  exists us' m' tabs' l',
    run (sys_sbrk (d + KERNBASE) sz (Some n)) m b = Ok ((sz, sz + n), m', b) /\
    as_ok m' d tabs' us' l' /\ npages (sz + n) = Z.of_nat (length us') /\
    us'.*1 ++ tabs_of tabs' ++ l' ≡ₚ us.*1 ++ tabs_of tabs ++ l /\
    (forall x, 0 <= x < 4096 * npages (sz + n) -> ubyte m' us' x = if decide (x / 4096 < npages sz) then ubyte m us x else 0) /\
    forall g, g ∉ d :: tabs_of tabs ++ us.*1 ++ l -> page_of m' g = page_of m g.
Proof.
  intros Ha Hsz Hr Hn Hl. destruct (run_growproc m d tabs us l sz n b Ha Hsz Hr Hn Hl) as (us' & m' & tabs' & l' & Hrun & Hrest). exists us', m', tabs', l'. split; [|exact Hrest].
  unfold sys_sbrk. rewrite run_bind, Hrun. cbn [run]. change (0 <? 0) with false. cbv iota. rewrite s32_small by (unfold KERNBASE in Hr; lia). done.
Qed.

(** Giving up all memory: the pages are freed, but the call fails and
    [proc->sz] stays, so the process keeps the addresses without the pages. *)
Lemma growproc_to_zero m d tabs us l sz b :
  as_ok m d tabs us l -> npages sz = Z.of_nat (length us) -> 0 < sz < KERNBASE ->
  exists m', run (growproc (d + KERNBASE) sz (- sz)) m b = Ok ((-1, sz), m', b) /\ as_ok m' d tabs [] (rev us.*1 ++ l).
Proof.
  intros Ha Hsz Hr. unfold growproc, KERNBASE in *. rewrite (proj2 (Z.ltb_ge _ _)), (proj2 (Z.ltb_lt _ _)) by lia. rewrite Z.add_opp_diag_r. change (u32 0) with 0. rewrite run_bind.
  destruct (run_deallocuvm m d tabs us l sz 0 b Ha) as (m' & Hrun & Ha' & _); [lia|unfold KERNBASE; lia|unfold npages in *; lia|]. unfold KERNBASE in Hrun. rewrite Hrun.
  change (Z.to_nat (npages 0)) with 0%nat in Ha'. rewrite drop_0 in Ha'. by exists m'.
Qed.
End ProcMem.
