(* ===== verification/VmDemo.v ===== *)
(** * A booted memory

    The linker symbols of a small kernel, and the memory after [kinit1]
    has freed the pages above it, with a page table set up and a process of
    three pages: the state at which the theorems on memory are applied. *)

From stdpp Require Import base gmap strings numbers list.
From S2P Require Import Prelude Prog Kalloc Vm VmSpec VmUser VmCopy ProcMem.

(** No disk operations. *)
Inductive noE : Type -> Type := .

#[global] Instance no_store : Store noE unit := {
  st_step X (e : noE X) s := match e in noE X return outcome (X * unit) with end;
  st_trace X e s := [];
  st_disk s := ∅;
}.

#[global] Instance demo_linker : Linker := { lk_data := 0x80108000; lk_end := 0x80110000 }.

#[global] Instance demo_linker_ok : LinkerOk.
Proof. split; vm_compute; try split; congruence. Qed.

Definition phys0 : phys := mkphys ∅ 0 false.

Definition mem_after {A} (c : prog noE phys A) (m : phys) : phys :=
  match run c m tt with
  | Ok (_, m', _) => m'
  | Fail _ => m
  end.

Definition demo_free : phys := mem_after (kinit1 0x80110000 0x80A00000) phys0.
Definition demo_dir : phys := mem_after setupkvm demo_free.
Definition demo_proc : phys := mem_after (d <- setupkvm;; allocuvm d 0 10000) demo_free.

Definition demo_pages : list Z := rev (frames 0x110000 2288) ++ [].

#[local] Opaque setupkvm allocuvm deallocuvm freevm copyuvm copyout freerange.

Lemma phys0_free : free_ok phys0 [].
Proof. split; [done|constructor|constructor|]. intros f. unfold page_of, phys0. cbn [ph_mem]. rewrite lookup_empty. apply length_replicate. Qed.

Lemma demo_free_ok : free_ok demo_free demo_pages.
Proof.
  unfold demo_free, mem_after, kinit1. rewrite run_bind. cbn [run modify].
  destruct (run_freerange 0x80110000 0x80A00000 2288 (set_use_lock false phys0) [] tt) as (m' & -> & Hf);
    [done|done|done|done|done|exact phys0_free| |exact Hf]. intros f _. apply not_elem_of_nil.
Qed.

Lemma demo_pages_length : length demo_pages = 2288%nat.
Proof. unfold demo_pages, frames. rewrite length_app, length_rev, length_map, length_seqZ. done. Qed.

#[local] Opaque demo_free demo_pages.

Lemma demo_dir_ok : exists d tabs l, run (E := noE) setupkvm demo_free tt = Ok (d + KERNBASE, demo_dir, tt) /\
  as_ok demo_dir d tabs [] l /\ (length l + size tabs = 2287)%nat.
Proof.
  unfold demo_dir, mem_after. destruct (run_setupkvm (E := noE) demo_free demo_pages tt demo_free_ok) as (r & m' & Hr & _ & Hc).
  rewrite demo_pages_length in Hc. destruct Hc as [(_ & _ & ?)|(d & tabs & l & -> & Hv & Hp & _ & Hview)]; [lia|].
  rewrite Hr. exists d, tabs, l. split; [reflexivity|]. split.
  - split; [done| | |constructor|apply Hv|done].
    + intros n Hn. rewrite Hview by (clear -Hn; lia). unfold uentry, kview. cbn [lookup list_lookup].
      by rewrite !decide_False by (clear -Hn; lia).
    + intros n Hn. apply Hview. clear -Hn. lia.
  - apply Permutation_length in Hp. cbn [length] in Hp. rewrite length_app, length_tabs, demo_pages_length in Hp. lia.
Qed.

#[local] Opaque demo_dir.

Lemma as_dir_nonzero m d tabs us l : as_ok m d tabs us l -> d + KERNBASE <> 0.
Proof.
  intros Ha. destruct (kpage_frame _ (dir_kpage _ _ _ _ (as_vm _ _ _ _ _ Ha))). unfold KERNBASE. lia.
Qed.

(** A process of three pages. *)
Lemma demo_proc_ok : exists d tabs zs l, as_ok demo_proc d tabs (rw_pages zs) l /\ length zs = 3%nat /\ (1100 < length l)%nat.
Proof.
  destruct demo_dir_ok as (d & tabs & l & Hr & Ha & Hl).
  destruct (run_allocuvm (E := noE) demo_dir d tabs [] l 0 10000 tt Ha) as (zs & m' & tabs' & l' & Hr' & Ha' & Hn & _ & Hp & _).
  - reflexivity.
  - clear. lia.
  - reflexivity.
  - change (Z.to_nat (npages 10000 - npages 0)) with 3%nat. lia.
  - assert (length zs = 3%nat) as Hz by (change (npages 10000) with 3 in Hn; cbn [length] in Hn; lia).
    exists d, tabs', zs, l'. unfold demo_proc, mem_after. rewrite run_bind, Hr, Hr'. split; [exact Ha'|]. split; [exact Hz|].
    apply Permutation_length in Hp. rewrite !length_app, !length_tabs in Hp.
    pose proof (tabs_bound _ _ _ _ (as_vm _ _ _ _ _ Ha')). lia.
Qed.

#[local] Opaque demo_proc.

Lemma demo_user zs n : length zs = 3%nat -> 0 <= n < 3 -> user_page (rw_pages zs) n.
Proof.
  intros Hz Hn. destruct (lookup_lt_is_Some_2 zs (Z.to_nat n)) as [f Hf]; [lia|]. exists (f, 7).
  unfold rw_pages. rewrite list_lookup_fmap, Hf. done.
Qed.

Lemma kalloc_stack_witness :
  exists m', run (E := noE) (kalloc_run [Alloc; Alloc; Free 0x9FF000; Alloc]) demo_free tt =
    Ok ([0x809FF000; 0x809FE000; 0x809FF000], m', tt).
Proof.
  destruct (kalloc_stack (E := noE) [Alloc; Alloc; Free 0x9FF000; Alloc] demo_free demo_pages
    [0x809FF000; 0x809FE000; 0x809FF000] (drop 2 demo_pages) tt demo_free_ok) as (m' & Hr & _).
  - Transparent demo_pages. by vm_compute.
  - exists m'. exact Hr.
Defined.

Lemma setupkvm_spec_witness : exists r m', run (E := noE) setupkvm demo_free tt = Ok (r, m', tt) /\ r <> 0.
Proof.
  destruct (setupkvm_spec (E := noE) demo_free demo_pages tt demo_free_ok) as (r & m' & Hr & _ & Hc). exists r, m'. split; [exact Hr|].
  rewrite demo_pages_length in Hc. destruct Hc as [[_ Hl]|(d & tabs & l & -> & Ha & _)]; [lia|].
  exact (as_dir_nonzero _ _ _ _ _ Ha).
Defined.

Lemma sbrk_spec_witness :
  exists d tabs l us m' tabs' l', run (E := noE) (sys_sbrk (d + KERNBASE) 0 (Some 10000)) demo_dir tt = Ok ((0, 10000), m', tt) /\
    as_ok demo_dir d tabs [] l /\ as_ok m' d tabs' us l'.
Proof.
  destruct demo_dir_ok as (d & tabs & l & _ & Ha & Hl).
  destruct (sbrk_spec (E := noE) demo_dir d tabs [] l 0 10000 tt Ha) as (us & m' & tabs' & l' & Hr & Ha' & _).
  - reflexivity.
  - clear. unfold KERNBASE. lia.
  - clear. unfold KERNBASE. lia.
  - change (Z.to_nat (npages (0 + 10000) - npages 0)) with 3%nat. lia.
  - exists d, tabs, l, us, m', tabs', l'. split; [exact Hr|]. split; [exact Ha|exact Ha'].
Defined.

Lemma freevm_spec_witness : exists d m' l', run (E := noE) (freevm (d + KERNBASE)) demo_proc tt = Ok (tt, m', tt) /\ free_ok m' l'.
Proof.
  destruct demo_proc_ok as (d & tabs & zs & l & Ha & _).
  destruct (freevm_spec (E := noE) demo_proc d tabs (rw_pages zs) l tt Ha) as (m' & l' & Hr & Hf & _).
  exists d, m', l'. split; [exact Hr|exact Hf].
Defined.

Lemma copyuvm_spec_witness :
  exists d r m', run (E := noE) (copyuvm (d + KERNBASE) 10000) demo_proc tt = Ok (r, m', tt) /\ r <> 0.
Proof.
  destruct demo_proc_ok as (d & tabs & zs & l & Ha & Hz & Hl). assert (length (rw_pages zs) = 3%nat) as Hlz by (unfold rw_pages; by rewrite length_map).
  destruct (copyuvm_spec (E := noE) demo_proc d tabs (rw_pages zs) l 10000 tt Ha) as (r & m' & l' & Hr & _ & _ & Hc).
  - rewrite Hlz. done.
  - exists d, r, m'. split; [exact Hr|]. rewrite Hlz in Hc. destruct Hc as [[_ ?]|(d2 & tabs2 & us2 & -> & Ha2 & _)]; [lia|].
    exact (as_dir_nonzero _ _ _ _ _ Ha2).
Defined.

(** Five bytes across the boundary of the first two pages. *)
Lemma copyout_spec_witness :
  exists d us m', run (E := noE) (copyout (d + KERNBASE) 4094 [1; 2; 3; 4; 5]) demo_proc tt = Ok (0, m', tt) /\
    ubyte m' us 4096 = 3.
Proof.
  destruct demo_proc_ok as (d & tabs & zs & l & Ha & Hz & Hl). assert (length (rw_pages zs) = 3%nat) as Hlz by (unfold rw_pages; by rewrite length_map).
  destruct (copyout_spec (E := noE) demo_proc d tabs (rw_pages zs) l 4094 [1; 2; 3; 4; 5] tt Ha) as (m' & Hr & _ & Hb & _).
  - lia.
  - rewrite Hlz. cbn [length]. lia.
  - intros n Hn. apply demo_user; [exact Hz|]. cbn [length] in Hn. lia.
  - exists d, (rw_pages zs), m'. split; [exact Hr|]. rewrite Hb by lia. reflexivity.
Defined.

Lemma copy_isolated_witness :
  exists d us m', run (E := noE) (c <- copyuvm (d + KERNBASE) 10000;; copyout c 4094 [1; 2; 3; 4; 5]) demo_proc tt = Ok (0, m', tt) /\
    forall x, ubyte m' us x = ubyte demo_proc us x.
Proof.
  destruct demo_proc_ok as (d & tabs & zs & l & Ha & Hz & Hl). assert (length (rw_pages zs) = 3%nat) as Hlz by (unfold rw_pages; by rewrite length_map).
  destruct (copy_isolated (E := noE) demo_proc d tabs (rw_pages zs) l 10000 4094 [1; 2; 3; 4; 5] tt Ha) as (m' & l' & Hr & _ & Hb).
  - rewrite Hlz. done.
  - rewrite Hlz. lia.
  - lia.
  - rewrite Hlz. cbn [length]. lia.
  - intros n Hn. apply demo_user; [exact Hz|]. cbn [length] in Hn. lia.
  - exists d, (rw_pages zs), m'. split; [exact Hr|exact Hb].
Defined.
