(* ===== verification/Grep.v ===== *)
(** * The pattern matcher of [grep.c]

    [match], [matchhere] and [matchstar] on NUL-terminated strings, against
    the language of a pattern: what [^], [$], [.] and [*] mean. *)

From stdpp Require Import base gmap strings numbers list.
From S2P Require Import Prelude CString.

Definition c_caret : Z := 94.
Definition c_dollar : Z := 36.
Definition c_dot : Z := 46.
Definition c_star : Z := 42.

(** [do { if(matchhere(re, text)) return 1; } while( *text != 0 && ( *text++ == c || c == '.'));]
    where [here] is [matchhere] of the rest of the pattern. *)
Fixpoint matchstar (here : list Z -> outcome bool) (c : Z) (text : list Z) : outcome bool :=
  let? b := here text in
  if b : bool then Ok true
  else match text with
  | [] => oob
  | t :: text' =>
      if negb (t =? 0) && ((t =? c) || (c =? c_dot)) then matchstar here c text' else Ok false
  end.

Fixpoint matchhere (re text : list Z) {struct re} : outcome bool :=
  match re with
  | [] => oob
  | r0 :: re1 =>
      if r0 =? 0 then Ok true
      else match re1 with
      | [] => oob
      | r1 :: re2 =>
          if r1 =? c_star then matchstar (fun t => matchhere re2 t) r0 text
          else match text with
          | [] => oob
          | t :: text' =>
              if (r0 =? c_dollar) && (r1 =? 0) then Ok (t =? 0)
              else if negb (t =? 0) && ((r0 =? c_dot) || (r0 =? t)) then matchhere re1 text'
              else Ok false
          end
      end
  end.

(** [do { if(matchhere(re, text)) return 1; } while( *text++ != 0);] *)
Fixpoint match_any (re text : list Z) {struct text} : outcome bool :=
  let? b := matchhere re text in
  if b : bool then Ok true
  else match text with
  | [] => oob
  | t :: text' => if negb (t =? 0) then match_any re text' else Ok false
  end.

Definition match_ (re text : list Z) : outcome bool :=
  match re with
  | [] => oob
  | r0 :: re1 => if r0 =? c_caret then matchhere re1 text else match_any re text
  end.

(** ** Patterns and what they match *)

Inductive pat :=
| PEnd                            (* nothing more to match *)
| PDollar                         (* [$] at the end of the pattern *)
| PStar (c : Z) (p : pat)         (* [c*] *)
| PChar (c : Z) (p : pat).

(** Does the pattern character match this character? *)
Definition admits (c t : Z) : Prop := c = c_dot \/ c = t.

(** [matches p s]: some prefix of [s] matches [p] (all of [s], if [p] ends in
    [$]). *)
Inductive matches : pat -> list Z -> Prop :=
| m_end s : matches PEnd s
| m_dollar : matches PDollar []
| m_star c p u s : Forall (admits c) u -> matches p s -> matches (PStar c p) (u ++ s)
| m_char c p t s : admits c t -> matches p s -> matches (PChar c p) (t :: s).

(** The pattern a string stands for (without its terminator). *)
Fixpoint parse (re : list Z) : pat :=
  match re with
  | [] => PEnd
  | c :: re1 =>
      match re1 with
      | r1 :: re2 => if r1 =? c_star then PStar c (parse re2) else PChar c (parse re1)
      | [] => if c =? c_dollar then PDollar else PChar c PEnd
      end
  end.

(** What [grep pattern] looks for in a line. *)
Definition found_in (re s : list Z) : Prop :=
  match re with
  | 94 :: re1 => matches (parse re1) s
  | _ => exists u v, s = u ++ v /\ matches (parse re) v
  end.

(** ** Correctness *)

Definition nonzero (s : list Z) : Prop := Forall (fun c => c <> 0) s.

Definition decides (o : outcome bool) (P : Prop) : Prop := exists b, o = Ok b /\ (b = true <-> P).

Lemma decides_iff o P Q : (P <-> Q) -> decides o P -> decides o Q.
Proof. intros H (b & Ho & Hb). exists b. tauto. Qed.

(** The terminator stops every read in time. *)
Lemma matchstar_decides here c P s t :
  nonzero s -> (forall u v, s = u ++ v -> decides (here (v ++ 0 :: t)) (P v)) ->
  decides (matchstar here c (s ++ 0 :: t)) (exists u v, s = u ++ v /\ Forall (admits c) u /\ P v).
Proof.
  intros Hs. induction Hs as [|x s Hx Hs IH]; intros Hh; simpl.
  - destruct (Hh [] [] eq_refl) as ([|] & E & Hb); simpl in E; rewrite E; simpl.
    + exists true. split; [done|]. split; [intros _|done]. exists [], []. split_and!; [done|constructor|tauto].
    + exists false. split; [done|]. split; [done|]. intros (u & v & H & _ & HP).
      symmetry in H. apply app_eq_nil in H as [-> ->]. tauto.
  - destruct (Hh [] (x :: s) eq_refl) as ([|] & E & Hb); simpl in E; rewrite E; simpl.
    { exists true. split; [done|]. split; [intros _|done]. exists [], (x :: s). split_and!; [done|constructor|tauto]. }
    rewrite (proj2 (Z.eqb_neq x 0)) by done. simpl.
    destruct ((x =? c) || (c =? c_dot)) eqn:Hc.
    + assert (admits c x) as Ha by (unfold admits; lia).
      destruct IH as (b & Hm & Hbb). { intros u v Hu. apply (Hh (x :: u) v). by rewrite Hu. }
      exists b. split; [done|]. rewrite Hbb. split.
      * intros (u & v & -> & Hu & HP). exists (x :: u), v. split_and!; [done|by constructor|done].
      * intros ([|y u] & v & Hu & Hf & HP); simpl in Hu.
        -- subst v. discriminate (proj2 Hb HP).
        -- injection Hu as <- Hu. exists u, v. inversion Hf; auto.
    + exists false. split; [done|]. split; [done|]. intros ([|y u] & v & Hu & Hf & HP); simpl in Hu.
      * subst v. discriminate (proj2 Hb HP).
      * injection Hu as <- Hu. inversion Hf as [|? ? Ha]. unfold admits in Ha. lia.
Qed.

Lemma matches_star_iff c p s :
  matches (PStar c p) s <-> exists u v, s = u ++ v /\ Forall (admits c) u /\ matches p v.
Proof.
  split.
  - inversion 1; subst; eauto 6.
  - intros (u & v & -> & Hu & Hv). by constructor.
Qed.

Lemma matches_char_iff c p s :
  matches (PChar c p) s <-> exists t s', s = t :: s' /\ admits c t /\ matches p s'.
Proof.
  split.
  - inversion 1; subst; eauto 6.
  - intros (t & s' & -> & Ha & Hm). by constructor.
Qed.

(** Two cases of [matchhere]: one character of the pattern, one of the text. *)
Lemma char_decides c p s t o :
  nonzero s -> (forall x s', s = x :: s' -> decides (o (s' ++ 0 :: t)) (matches p s')) ->
  decides match s ++ 0 :: t with
          | [] => oob
          | x :: text' => if negb (x =? 0) && ((c =? c_dot) || (c =? x)) then o text' else Ok false
          end (matches (PChar c p) s).
Proof.
  intros Hs Ho. destruct Hs as [|x s Hx Hs]; simpl.
  - exists false. split; [done|]. split; [done|]. inversion 1.
  - rewrite (proj2 (Z.eqb_neq x 0)) by done. simpl. destruct ((c =? c_dot) || (c =? x)) eqn:Hc.
    + eapply decides_iff; [|by apply (Ho x)]. rewrite matches_char_iff. split.
      * intros Hm. exists x, s. split_and!; [done| |done]. unfold admits. lia.
      * by intros (? & ? & [= <- <-] & _ & Hm).
    + exists false. split; [done|]. split; [done|]. rewrite matches_char_iff.
      intros (? & ? & [= <- <-] & Ha & _). unfold admits in Ha. lia.
Qed.

Lemma matchhere_decides re s r t :
  nonzero re -> nonzero s -> decides (matchhere (re ++ 0 :: r) (s ++ 0 :: t)) (matches (parse re) s).
Proof.
  intros Hre. remember (length re) as n eqn:Hn. revert re Hre Hn s.
  induction (lt_wf n) as [n _ IH]. intros re Hre -> s Hs. destruct Hre as [|c re Hc Hre].
  { exists true. split; [done|]. split; [constructor|done]. }
  simpl. rewrite (proj2 (Z.eqb_neq c 0)) by done. destruct Hre as [|r1 re Hr1 Hre].
  - change ([] ++ 0 :: r) with (0 :: r). cbn [Z.eqb c_star]. cbn [matchhere].
    destruct (Z.eqb_spec c c_dollar) as [->|Hd].
    + destruct s as [|x s]; simpl.
      * exists true. split; [done|]. split; [constructor|done].
      * inversion Hs as [|? ? Hx ?]; subst. rewrite (proj2 (Z.eqb_neq x 0)) by done.
        exists false. split; [done|]. split; [done|]. inversion 1.
    + simpl. apply (char_decides c PEnd s t (fun text' => Ok true)); [done|].
      intros x s' _. exists true. split; [done|]. split; [constructor|done].
  - cbn [app]. destruct (Z.eqb_spec r1 c_star) as [->|Hst].
    + eapply decides_iff; [symmetry; apply matches_star_iff|]. apply matchstar_decides; [done|].
      intros u v ->. apply (IH (length re)); [simpl; lia|done|done|].
      unfold nonzero in *. by apply Forall_app in Hs as [_ Hs].
    + rewrite (proj2 (Z.eqb_neq r1 0)), andb_false_r by done.
      apply (char_decides c (parse (r1 :: re)) s t (fun text' => matchhere (r1 :: re ++ 0 :: r) text')); [done|].
      intros x s' ->. apply (IH (length (r1 :: re)) ltac:(simpl; lia) (r1 :: re)); [by constructor|done|].
      by inversion Hs.
Qed.

Lemma match_any_decides re s r t :
  nonzero re -> nonzero s ->
  decides (match_any (re ++ 0 :: r) (s ++ 0 :: t)) (exists u v, s = u ++ v /\ matches (parse re) v).
Proof.
  intros Hre Hs. induction Hs as [|x s Hx Hs IH].
  - simpl. destruct (matchhere_decides re [] r t Hre ltac:(constructor)) as (b & E & Hb). simpl in E. rewrite E. simpl.
    destruct b; eexists; (split; [done|]); (split; [|done || intros (u & v & H & Hm)]).
    + intros _. exists [], []. tauto.
    + done.
    + symmetry in H. apply app_eq_nil in H as [-> ->]. tauto.
  - simpl. destruct (matchhere_decides re (x :: s) r t Hre ltac:(by constructor)) as (b & E & Hb). simpl in E.
    rewrite E. simpl. destruct b.
    + exists true. split; [done|]. split; [intros _|done]. exists [], (x :: s). tauto.
    + rewrite (proj2 (Z.eqb_neq x 0)) by done. simpl. destruct IH as (b & E' & Hb'). exists b. split; [done|].
      rewrite Hb'. split.
      * intros (u & v & -> & Hm). by exists (x :: u), v.
      * intros ([|y u] & v & Hu & Hm); simpl in Hu; [subst v; discriminate (proj2 Hb Hm)|]. injection Hu as <- Hu. eauto.
Qed.

(** C34: on NUL-terminated strings [match] terminates without reading past
    either terminator, and returns 1 exactly when the text contains a match of
    the pattern: at its start after [^], anywhere otherwise. *)
Theorem match_correct re s r t :
  nonzero re -> nonzero s ->
  exists b, match_ (re ++ 0 :: r) (s ++ 0 :: t) = Ok b /\ (b = true <-> found_in re s).
Proof.
  intros Hre Hs. unfold match_, found_in. destruct re as [|c re]; [by apply (match_any_decides [])|].
  cbn [app]. destruct (Z.eqb_spec c c_caret) as [->|Hc].
  - apply matchhere_decides; [by inversion Hre|done].
  - replace (match c with 94 => _ | _ => _ end) with (exists u v, s = u ++ v /\ matches (parse (c :: re)) v).
    + by apply (match_any_decides (c :: re)).
    + unfold c_caret in Hc. destruct c as [|p|p]; try done. do 7 (destruct p as [p|p|]; try done).
Qed.

(** [^h.*o$] matches the line hello. *)
Lemma match_correct_witness :
  match_ ([94; 104; 46; 42; 111; 36] ++ [0]) ([104; 101; 108; 108; 111] ++ [0]) = Ok true /\
  found_in [94; 104; 46; 42; 111; 36] [104; 101; 108; 108; 111].
Proof.
  destruct (match_correct [94; 104; 46; 42; 111; 36] [104; 101; 108; 108; 111] [] []) as (b & Hb & Hiff).
  - repeat constructor; discriminate.
  - repeat constructor; discriminate.
  - assert (b = true) as -> by (by vm_compute in Hb; injection Hb). split; [exact Hb|by apply Hiff].
Defined.
