(* ===== verification/Umalloc.v ===== *)
(** * The user heap: [umalloc.c]

    Kernighan and Ritchie's allocator.  A cell of eight bytes is a [Header]
    ([ptr], [size]) or eight bytes of a caller's block; addresses are byte
    addresses.  The circular free list is kept in address order and contains
    the static [base].

    [sbrk] asks the kernel for memory: [EGrow n] is whether [growproc(n)]
    succeeded.  Everything is proved for any kernel that answers. *)

From stdpp Require Import base gmap strings numbers list sorting.
From S2P Require Import Prelude Prog Kalloc.

Inductive growE : Type -> Type :=
| EGrow (n : Z) : growE bool.

(** Where the linker put [base], and where the heap starts: the size of the
    process after [exec]. *)
Class UserData := { ud_base : Z; ud_heap : Z }.

Class UserDataOk `{UserData} := {
  ud_base_pos : 0 < ud_base;
  ud_base_low : ud_base + 8 <= ud_heap;
}.

Record umem := mkumem { um_cells : gmap Z (Z * Z); um_brk : Z; um_freep : Z }.

Definition set_cell (a : Z) (c : Z * Z) (m : umem) : umem :=
  mkumem (<[a := c]> (um_cells m)) (um_brk m) (um_freep m).
Definition set_brk (v : Z) (m : umem) : umem := mkumem (um_cells m) v (um_freep m).
Definition set_freep (v : Z) (m : umem) : umem := mkumem (um_cells m) (um_brk m) v.
Definition cell_of (m : umem) (a : Z) : Z * Z := default (0, 0) (um_cells m !! a).

Section Umalloc.
Context `{UserData}.
Abbreviation uprog := (prog growE umem).

(** An address of the data segment the allocator may touch. *)
Definition mapped (m : umem) (a : Z) : bool :=
  (a =? ud_base) || ((ud_heap <=? a) && (a + 8 <=? um_brk m)).

Definition rd (a : Z) : uprog (Z * Z) :=
  m <- get;; if mapped m a then Ret (cell_of m a) else undef "page fault".
Definition wr (a : Z) (f : Z * Z -> Z * Z) : uprog unit :=
  m <- get;; if mapped m a then put (set_cell a (f (cell_of m a)) m) else undef "page fault".

(** [p->s.ptr], [p->s.size] and the assignments to them *)
Definition rd_ptr (p : Z) : uprog Z := c <- rd p;; Ret (fst c).
Definition rd_size (p : Z) : uprog Z := c <- rd p;; Ret (snd c).
Definition wr_ptr (p v : Z) : uprog unit := wr p (fun c => (v, snd c)).
Definition wr_size (p v : Z) : uprog unit := wr p (fun c => (fst c, u32 v)).

(** [p + n] for a [Header* p] *)
Definition hplus (p n : Z) : Z := u32 (p + 8 * n).

(** The loop of [free]: the free block after which [bp] belongs. *)
Definition find_prev (bp : Z) (fuel : nat) : Z -> uprog Z :=
  while_fuel fuel (fun p =>
    next <- rd_ptr p;;
    if (p <? bp) && (bp <? next) then Ret (inr p)
    else if (next <=? p) && ((p <? bp) || (bp <? next)) then Ret (inr p)
    else Ret (inl next)).

Definition free (ap : Z) : uprog unit :=
  let bp := hplus ap (-1) in
  m <- get;;
  p <- find_prev bp (S (size (um_cells m))) (um_freep m);;
  bsize <- rd_size bp;;
  next <- rd_ptr p;;
  (if hplus bp bsize =? next then
     n <- rd next;;
     wr_size bp (bsize + snd n);;;
     wr_ptr bp (fst n)
   else wr_ptr bp next);;;
  psize <- rd_size p;;
  (if hplus p psize =? bp then
     b <- rd bp;;
     wr_size p (psize + snd b);;;
     wr_ptr p (fst b)
   else wr_ptr p bp);;;
  modify (set_freep p).

(** [sys_sbrk] and [growproc]: the old size of the process, or -1.  Shrinking
    to nothing frees the memory the process runs in. *)
Definition sbrk (n : Z) : uprog Z :=
  m <- get;;
  let addr := um_brk m in
  let newsz := u32 (addr + n) in
  if 0 <? n then
    if KERNBASE <=? newsz then Ret (-1)
    else if newsz <? addr then Ret addr
    else
      ok <- Vis (EGrow n) Ret;;
      if ok : bool then put (set_brk newsz m);;; Ret addr else Ret (-1)
  else if n <? 0 then
    if addr <=? newsz then Ret addr
    else if newsz =? 0 then undef "page fault"
    else put (set_brk newsz m);;; Ret addr
  else Ret addr.

Definition morecore (nu : Z) : uprog Z :=
  let nu := if nu <? 4096 then 4096 else nu in
  p <- sbrk (s32 (nu * 8));;
  if p =? -1 then Ret 0
  else
    wr_size p nu;;;
    free (hplus p 1);;;
    m <- get;; Ret (um_freep m).

(** The loop of [malloc] over the free list, from [prevp] and [p]. *)
Definition malloc_loop (nunits : Z) (fuel : nat) : Z * Z -> uprog Z :=
  while_fuel fuel (fun '(prevp, p) =>
    c <- rd p;;
    if nunits <=? snd c then
      q <- (if snd c =? nunits then wr_ptr prevp (fst c);;; Ret p
            else
              wr_size p (snd c - nunits);;;
              let q := hplus p (snd c - nunits) in
              wr_size q nunits;;; Ret q);;
      modify (set_freep prevp);;;
      Ret (inr (hplus q 1))
    else
      m <- get;;
      if p =? um_freep m then
        p <- morecore nunits;;
        if p =? 0 then Ret (inr 0)
        else next <- rd_ptr p;; Ret (inl (p, next))
      else Ret (inl (p, fst c))).

Definition malloc (nbytes : Z) : uprog Z :=
  let nunits := u32 (nbytes + 8 - 1) / 8 + 1 in
  m <- get;;
  (if um_freep m =? 0 then
     modify (set_freep ud_base);;;
     wr ud_base (fun _ => (ud_base, 0))
   else Ret tt);;;
  m <- get;;
  let prevp := um_freep m in
  p <- rd_ptr prevp;;
  malloc_loop nunits (2 * size (um_cells m) + 4) (prevp, p).
End Umalloc.

(** ** Rings *)

(** A block is its address and its size in units of eight bytes. *)
Abbreviation blk := (Z * Z)%type.

(** A program's view of its heap: the blocks it holds, with their contents. *)
Abbreviation aheap := (gmap Z (list (Z * Z))).

Definition first (ns : list blk) (last : Z) : Z :=
  match ns with
  | [] => last
  | n :: _ => fst n
  end.

(** The blocks [ns] are linked in order, the last one to [last]. *)
Fixpoint chain (cs : gmap Z (Z * Z)) (ns : list blk) (last : Z) : Prop :=
  match ns with
  | [] => True
  | n :: ns => cs !! fst n = Some (first ns last, snd n) /\ chain cs ns last
  end.

Definition cyc (cs : gmap Z (Z * Z)) (ns : list blk) : Prop := chain cs ns (first ns 0).

Definition rot (ns ns' : list blk) : Prop := exists l1 l2, ns = l1 ++ l2 /\ ns' = l2 ++ l1.

Lemma first_app l1 l2 x : first (l1 ++ l2) x = first l1 (first l2 x).
Proof. by destruct l1. Qed.

Lemma chain_app cs l1 l2 x : chain cs (l1 ++ l2) x <-> chain cs l1 (first l2 x) /\ chain cs l2 x.
Proof.
  induction l1 as [|n l1 IH]; cbn [app chain]; [tauto|]. rewrite IH, first_app. tauto.
Qed.

Lemma chain_other cs ns x a c : a ∉ ns.*1 -> chain cs ns x -> chain (<[a := c]> cs) ns x.
Proof.
  induction ns as [|n ns IH]; cbn [chain fmap list_fmap]; [done|].
  rewrite not_elem_of_cons. intros [Ha Hn] [Hc Hch]. rewrite lookup_insert_ne by done. auto.
Qed.

Lemma chain_lookup cs ns x n : n ∈ ns -> chain cs ns x -> exists p, cs !! fst n = Some (p, snd n).
Proof.
  intros Hn. apply list_elem_of_split in Hn as (l1 & l2 & ->). rewrite chain_app. cbn [chain]. intros (_ & Hc & _). eauto.
Qed.

Lemma cyc_rot cs ns ns' : rot ns ns' -> cyc cs ns -> cyc cs ns'.
Proof.
  intros (l1 & l2 & -> & ->). unfold cyc. rewrite !chain_app, !first_app.
  destruct l1, l2; cbn [first chain]; tauto.
Qed.

Lemma rot_perm ns ns' : rot ns ns' -> ns ≡ₚ ns'.
Proof. intros (l1 & l2 & -> & ->). apply Permutation_app_comm. Qed.

Lemma rot_next ns n l : rot ns (n :: l) -> rot ns (l ++ [n]).
Proof.
  intros (l1 & l2 & -> & Heq). destruct l2 as [|x l2]; simplify_eq/=.
  - exists [n], l. split; [by rewrite app_nil_r|done].
  - exists (l1 ++ [x]), l2. by rewrite <- !app_assoc.
Qed.

Lemma rot_swap ns l1 l2 : rot ns (l1 ++ l2) -> rot ns (l2 ++ l1).
Proof.
  revert l2. induction l1 as [|x l1 IH]; intros l2 Hr; [by rewrite app_nil_r|].
  apply rot_next in Hr. rewrite <- app_assoc in Hr. apply IH in Hr. by rewrite <- app_assoc in Hr.
Qed.

(** Any member can be rotated to the front. *)
Lemma rot_to ns n : n ∈ ns -> exists l, rot ns (n :: l).
Proof.
  intros (l1 & l2 & ->)%list_elem_of_split. exists (l2 ++ l1). by exists l1, (n :: l2).
Qed.

(** Two neighbours of the ring are neighbours of the list, unless the second
    is its head. *)
Lemma rot_split h ns x y l : rot (h :: ns) (x :: y :: l) -> y <> h -> exists n1 n2, h :: ns = n1 ++ x :: y :: n2.
Proof.
  intros (l1 & l2 & H1 & H2) Hy. rewrite H1. destruct l2 as [|x' [|y' l2]]; cbn [app] in H2.
  - exists [], l. by rewrite app_nil_r, <- H2.
  - destruct l1 as [|h' l1]; cbn [app] in H1; congruence.
  - exists l1, l2. congruence.
Qed.

Lemma perm_lookup_size (cs : gmap Z (Z * Z)) (ns : list blk) x :
  NoDup ns.*1 -> chain cs ns x -> (length ns <= size cs)%nat.
Proof.
  intros Hnd Hc. rewrite <- (length_fmap fst ns), <- (size_list_to_set (C := gset Z) (ns.*1)) by done.
  rewrite <- size_dom. apply subseteq_size. intros a Ha%elem_of_list_to_set.
  apply list_elem_of_fmap in Ha as (n & -> & Hn). apply elem_of_dom.
  destruct (chain_lookup _ _ _ _ Hn Hc) as [p Hp]. by rewrite Hp.
Qed.

(** ** Blocks that do not overlap *)

Definition apart (x y : blk) : Prop := fst x + 8 * snd x <= fst y \/ fst y + 8 * snd y <= fst x.

Fixpoint disj (l : list blk) : Prop :=
  match l with
  | [] => True
  | x :: l => Forall (apart x) l /\ disj l
  end.

Definition total (l : list blk) : Z := foldr (fun b n => snd b + n) 0 l.

Lemma apart_sym x y : apart x y -> apart y x.
Proof. unfold apart. tauto. Qed.

#[global] Instance disj_proper : Proper (Permutation ==> iff) disj.
Proof.
  assert (forall l l' : list blk, l ≡ₚ l' -> disj l -> disj l') as Hd; [|by intros l l' Hp; split; apply Hd].
  induction 1 as [|x l l' Hp IH|x y l|l l' l'' _ IH1 _ IH2]; cbn [disj]; auto.
  - intros [Hx Hl]. split; [by rewrite <- Hp|auto].
  - rewrite !Forall_cons. intros ((Hyx & Hy) & Hx & Hl). auto using apart_sym.
Qed.

Lemma total_cons x l : total (x :: l) = snd x + total l.
Proof. done. Qed.

#[global] Instance total_proper : Proper (Permutation ==> eq) total.
Proof. intros l l'. induction 1 as [|x l l' _ IH|x y l|l l' l'' _ IH1 _ IH2]; rewrite ?total_cons; [done|by rewrite IH|lia|congruence]. Qed.

Lemma total_app l1 l2 : total (l1 ++ l2) = total l1 + total l2.
Proof. induction l1; cbn [app]; rewrite ?total_cons; [done|lia]. Qed.

Lemma disj_app l1 l2 : disj (l1 ++ l2) <-> disj l1 /\ disj l2 /\ Forall (fun x => Forall (apart x) l2) l1.
Proof.
  induction l1 as [|x l1 IH]; cbn [app disj]; [by rewrite Forall_nil; tauto|].
  rewrite IH, Forall_app, Forall_cons. tauto.
Qed.

(** Joining two blocks that touch. *)
Lemma disj_join a s u l :
  disj ((a, s) :: (a + 8 * s, u) :: l) -> Forall (fun x => 0 < snd x) l -> disj ((a, s + u) :: l).
Proof.
  cbn [disj]. rewrite Forall_cons. intros ((_ & H1) & H2 & Hl) Hs. split; [|done].
  rewrite !Forall_forall in *. intros y Hy. specialize (H1 y Hy). specialize (H2 y Hy). specialize (Hs y Hy).
  unfold apart in *. cbn [fst snd] in *. lia.
Qed.

(** Cutting the end off a block. *)
Lemma disj_cut a s u l : disj ((a, s + u) :: l) -> 0 <= s -> 0 <= u -> disj ((a, s) :: (a + 8 * s, u) :: l).
Proof.
  cbn [disj]. rewrite Forall_cons. intros (H1 & Hl) Hs Hu. rewrite !Forall_forall in *.
  split_and!; try done.
  - unfold apart; cbn [fst snd]; lia.
  - intros y Hy. specialize (H1 y Hy). unfold apart in *. cbn [fst snd] in *. lia.
  - intros y Hy. specialize (H1 y Hy). unfold apart in *. cbn [fst snd] in *. lia.
Qed.

(** ** The invariant *)

Section UmallocFacts.
Context `{UserDataOk}.
Context {B : Type} `{Store growE B}.
Implicit Types (m : umem) (fl us : list blk) (b : B).

(** The kernel answers every request for memory. *)
Class GrowTotal := grow_total : forall n b, exists ok b', st_step (EGrow n) b = Ok (ok, b').

Definition nodes fl : list blk := (ud_base, 0) :: fl.

(** [x] ends before [y] starts, and they do not touch. *)
Definition gap (x y : blk) : Prop := fst x + 8 * snd x < fst y.

(** The shape of the heap: [fl] are the free blocks and [us] the blocks in
    use.  The free blocks are in address order and no two of them touch; all
    blocks together fill the heap without overlapping. *)
Record geom fl us (brk : Z) : Prop := {
  g_sorted : StronglySorted gap (nodes fl);
  g_disj : disj (fl ++ us);
  g_range : Forall (fun x => 0 < snd x /\ ud_heap <= fst x /\ fst x + 8 * snd x <= brk) (fl ++ us);
  g_total : ud_heap + 8 * total (fl ++ us) = brk;
  g_brk : brk < KERNBASE;
}.

(** The ring goes through the free blocks, and the blocks in use keep their
    sizes in their headers. *)
Record heap_ok m fl us : Prop := {
  ho_ring : cyc (um_cells m) (nodes fl);
  ho_freep : um_freep m ∈ (nodes fl).*1;
  ho_used : Forall (fun x => exists p, um_cells m !! fst x = Some (p, snd x)) us;
  ho_geom : geom fl us (um_brk m);
}.

Lemma ho_sorted m fl us : heap_ok m fl us -> StronglySorted gap (nodes fl).
Proof. intros Ho. apply (g_sorted _ _ _ (ho_geom _ _ _ Ho)). Qed.
Lemma ho_disj m fl us : heap_ok m fl us -> disj (fl ++ us).
Proof. intros Ho. apply (g_disj _ _ _ (ho_geom _ _ _ Ho)). Qed.
Lemma ho_range m fl us : heap_ok m fl us ->
  Forall (fun x => 0 < snd x /\ ud_heap <= fst x /\ fst x + 8 * snd x <= um_brk m) (fl ++ us).
Proof. intros Ho. apply (g_range _ _ _ (ho_geom _ _ _ Ho)). Qed.
Lemma ho_total m fl us : heap_ok m fl us -> ud_heap + 8 * total (fl ++ us) = um_brk m.
Proof. intros Ho. apply (g_total _ _ _ (ho_geom _ _ _ Ho)). Qed.
Lemma ho_brk m fl us : heap_ok m fl us -> um_brk m < KERNBASE.
Proof. intros Ho. apply (g_brk _ _ _ (ho_geom _ _ _ Ho)). Qed.

(** The state of the allocator, also before its first use. *)
Definition heap_inv m fl us : Prop :=
  (um_freep m = 0 /\ fl = [] /\ us = [] /\ um_brk m = ud_heap /\ ud_heap < KERNBASE) \/ heap_ok m fl us.

Lemma geom_perm fl us us' brk : us ≡ₚ us' -> geom fl us brk -> geom fl us' brk.
Proof. intros Hp []. split; rewrite <- ?Hp; done. Qed.

Lemma heap_ok_perm m fl us us' : us ≡ₚ us' -> heap_ok m fl us -> heap_ok m fl us'.
Proof. intros Hp []. split; [..|by eapply geom_perm]; rewrite <- ?Hp; done. Qed.

Lemma sorted_NoDup fl m us : heap_ok m fl us -> NoDup (nodes fl).*1.
Proof.
  intros Ho. pose proof (ho_sorted _ _ _ Ho) as Hs. pose proof (ho_range _ _ _ Ho) as Hr.
  apply Forall_app in Hr as [Hr _].
  assert (Forall (fun x => 0 <= snd x) (nodes fl)) as Hp.
  { constructor; [done|]. eapply Forall_impl; [exact Hr|]. cbn. lia. }
  clear -Hs Hp. induction Hs as [|x l Hl IH Hx]; cbn [fmap list_fmap]; [constructor|].
  apply Forall_cons in Hp as [Hx0 Hp]. constructor; [|auto].
  intros (y & Heq & Hy)%list_elem_of_fmap. rewrite Forall_forall in Hx. specialize (Hx y Hy). unfold gap in Hx. lia.
Qed.

Lemma heap_le_brk fl us brk : geom fl us brk -> ud_heap <= brk.
Proof.
  intros [_ _ Hr <- _]. enough (0 <= total (fl ++ us)) by lia.
  induction Hr as [|x l Hx Hr IH]; rewrite ?total_cons; [done|lia].
Qed.

(** Every node of the ring can be read. *)
Lemma node_range m fl us n : heap_ok m fl us -> n ∈ nodes fl ->
  0 < fst n < KERNBASE /\ 0 <= snd n /\ fst n + 8 * snd n < KERNBASE /\ mapped m (fst n) = true.
Proof.
  intros Ho Hn. pose proof ud_base_pos. pose proof ud_base_low. pose proof (ho_brk _ _ _ Ho).
  pose proof (ho_range _ _ _ Ho) as Hr.
  pose proof (heap_le_brk _ _ _ (ho_geom _ _ _ Ho)) as Hb.
  unfold mapped. apply elem_of_cons in Hn as [->|Hn]; cbn [fst snd].
  - rewrite Z.eqb_refl. split_and!; done || lia.
  - rewrite Forall_forall in Hr. specialize (Hr n (proj2 (elem_of_app _ _ _) (or_introl Hn))).
    split_and!; [lia..|]. lia.
Qed.

Lemma used_range m fl us n : heap_ok m fl us -> n ∈ us ->
  0 < snd n /\ ud_heap <= fst n /\ fst n + 8 * snd n <= um_brk m /\ mapped m (fst n) = true.
Proof.
  intros Ho Hn. pose proof (ho_range _ _ _ Ho) as Hr. rewrite Forall_forall in Hr.
  specialize (Hr n (proj2 (elem_of_app _ _ _) (or_intror Hn))). unfold mapped. lia.
Qed.

(** *** Reading and writing headers *)

Lemma run_rd a c m b : mapped m a = true -> um_cells m !! a = Some c -> run (rd a) m b = Ok (c, m, b).
Proof. intros Hm Hc. unfold rd. cbn [run pbind get]. rewrite Hm. unfold cell_of. by rewrite Hc. Qed.

Lemma run_rd_ptr a p s m b : mapped m a = true -> um_cells m !! a = Some (p, s) -> run (rd_ptr a) m b = Ok (p, m, b).
Proof. intros Hm Hc. unfold rd_ptr. by rewrite (run_bind_Ok _ _ _ _ _ _ _ (run_rd _ _ _ _ Hm Hc)). Qed.

Lemma run_rd_size a p s m b : mapped m a = true -> um_cells m !! a = Some (p, s) -> run (rd_size a) m b = Ok (s, m, b).
Proof. intros Hm Hc. unfold rd_size. by rewrite (run_bind_Ok _ _ _ _ _ _ _ (run_rd _ _ _ _ Hm Hc)). Qed.

Lemma run_wr a f m b : mapped m a = true -> run (wr a f) m b = Ok (tt, set_cell a (f (cell_of m a)) m, b).
Proof. intros Hm. unfold wr. cbn [run pbind get]. by rewrite Hm. Qed.

Lemma run_wr_ptr a v p s m b : mapped m a = true -> um_cells m !! a = Some (p, s) ->
  run (wr_ptr a v) m b = Ok (tt, set_cell a (v, s) m, b).
Proof. intros Hm Hc. unfold wr_ptr. rewrite run_wr by done. unfold cell_of. by rewrite Hc. Qed.

Lemma run_wr_size a v p s m b : mapped m a = true -> um_cells m !! a = Some (p, s) ->
  run (wr_size a v) m b = Ok (tt, set_cell a (p, u32 v) m, b).
Proof. intros Hm Hc. unfold wr_size. rewrite run_wr by done. unfold cell_of. by rewrite Hc. Qed.

Lemma hplus_eq p n : 0 <= p + 8 * n < 2 ^ 32 -> hplus p n = p + 8 * n.
Proof. intros. unfold hplus. by rewrite u32_small. Qed.

(** *** The search of [free] *)

(** Where [bp] belongs: after [q], before the blocks [k2]. *)
Definition before (bp : Z) (k2 : list blk) : Prop := Forall (fun n => bp < fst n) k2.

Lemma run_find_prev bp mid q rest m b fuel :
  cyc (um_cells m) (mid ++ q :: rest) ->
  Forall (fun n => mapped m (fst n) = true) (mid ++ q :: rest) ->
  (forall l n l', mid ++ q :: rest = l ++ n :: l' -> n <> q ->
     let next := first l' (first (mid ++ q :: rest) 0) in
     ~ (fst n < bp < next) /\ ~ (next <= fst n /\ (fst n < bp \/ bp < next))) ->
  (let next := first rest (first (mid ++ q :: rest) 0) in
     (fst q < bp < next) \/ (next <= fst q /\ (fst q < bp \/ bp < next))) ->
  q ∉ mid -> (length mid < fuel)%nat ->
  run (find_prev bp fuel (first (mid ++ [q]) 0)) m b = Ok (fst q, m, b).
Proof.
  unfold cyc. generalize (first (mid ++ q :: rest) 0) as last. intros last.
  revert fuel. induction mid as [|n mid IH]; intros fuel Hc Hm Hno Hyes Hq Hf; (destruct fuel as [|fuel]; [cbn in Hf; lia|]).
  - cbn [app first]. unfold find_prev. cbn [while_fuel]. cbn [app chain] in *. destruct Hc as [Hc _]. apply Forall_cons in Hm as [Hm _].
    rewrite run_assoc, run_bind, (run_rd_ptr _ _ _ _ _ Hm Hc), run_bind.
    destruct Hyes as [[H1' H2']|[H1' H2']].
    + rewrite (proj2 (Z.ltb_lt _ _) H1'), (proj2 (Z.ltb_lt _ _) H2'). done.
    + destruct ((fst q <? bp) && (bp <? first rest last)); [done|].
      rewrite (proj2 (Z.leb_le _ _) H1'). destruct H2' as [H2'|H2'].
      * rewrite (proj2 (Z.ltb_lt _ _) H2'). done.
      * rewrite (proj2 (Z.ltb_lt _ _) H2'), orb_true_r. done.
  - apply not_elem_of_cons in Hq as [Hqn Hq]. cbn [app first chain] in *. destruct Hc as [Hc Hch]. apply Forall_cons in Hm as [Hmn Hm].
    unfold find_prev. cbn [while_fuel]. rewrite run_assoc, run_bind, (run_rd_ptr _ _ _ _ _ Hmn Hc), run_bind.
    destruct (Hno [] n (mid ++ q :: rest) eq_refl) as [Hn1 Hn2]; [congruence|].
    destruct ((fst n <? bp) && (bp <? first (mid ++ q :: rest) last)) eqn:E1; [exfalso; apply Hn1; lia|].
    destruct ((first (mid ++ q :: rest) last <=? fst n) && ((fst n <? bp) || (bp <? first (mid ++ q :: rest) last))) eqn:E2;
      [exfalso; apply Hn2; lia|]. cbn [run].
    replace (first (mid ++ q :: rest) last) with (first (mid ++ [q]) 0) by (rewrite !first_app; done).
    apply IH; try done; [|cbn in Hf; lia]. intros l n' l' Heq. apply (Hno (n :: l) n' l'). by rewrite Heq.
Qed.

Lemma split_at l a h :
  StronglySorted gap (h :: l) -> Forall (fun x => 0 <= snd x) (h :: l) ->
  fst h < a -> a ∉ l.*1 ->
  exists k1 q k2, h :: l = k1 ++ q :: k2 /\ fst q < a /\ before a k2.
Proof.
  revert h. induction l as [|x l IH]; intros h Hs Hp Ha Hn.
  - exists [], h, []. split_and!; [done..|constructor].
  - inversion Hs as [|? ? Hs' Hh]; subst. apply Forall_cons in Hp as [Hp0 Hp]. cbn in Hn. apply not_elem_of_cons in Hn as [Hx Hn].
    destruct (decide (fst x < a)) as [Hlt|Hge].
    + destruct (IH x Hs' Hp Hlt Hn) as (k1 & q & k2 & -> & Hq & Hb). by exists (h :: k1), q, k2.
    + exists [], h, (x :: l). split; [done|]. split; [done|]. constructor; [lia|].
      inversion Hs' as [|? ? _ Hx']; subst. apply Forall_cons in Hp as [Hp1 _].
      eapply Forall_impl; [exact Hx'|]. unfold gap. cbn. lia.
Qed.

Lemma nodes_size m fl us : heap_ok m fl us -> Forall (fun x => 0 <= snd x) (nodes fl).
Proof.
  intros Ho. rewrite Forall_forall. intros n Hn. by destruct (node_range _ _ _ _ Ho Hn) as (_ & ? & _).
Qed.

Lemma sorted_pair m fl us (Ho : heap_ok m fl us) x y k1 k2 k3 :
  nodes fl = k1 ++ x :: k2 ++ y :: k3 -> fst x + 8 * snd x < fst y /\ fst x < fst y.
Proof.
  intros Hn. pose proof (ho_sorted _ _ _ Ho) as Hs. pose proof (nodes_size _ _ _ Ho) as Hp. rewrite Hn in Hs, Hp.
  assert (fst x + 8 * snd x < fst y) as Hlt.
  { pose proof (StronglySorted_app_1_elem_of gap
      (k1 ++ [x]) (k2 ++ y :: k3) x y) as Hlt. rewrite <- app_assoc in Hlt. apply (Hlt Hs); set_solver. }
  rewrite Forall_forall in Hp. specialize (Hp x ltac:(set_solver)). lia.
Qed.

Section Free.
Context (m : umem) (fl us : list blk) (a s : Z) (Ho : heap_ok m fl ((a, s) :: us)).

Lemma block_apart n : n ∈ fl -> apart n (a, s).
Proof.
  intros Hn. pose proof (ho_disj _ _ _ Ho) as Hd. apply disj_app in Hd as (_ & _ & Hd).
  rewrite Forall_forall in Hd. specialize (Hd n Hn). by apply Forall_cons in Hd as [Hd _].
Qed.

Lemma block_range : 0 < s /\ ud_heap <= a /\ a + 8 * s <= um_brk m /\ mapped m a = true.
Proof. apply (used_range _ _ _ (a, s) Ho). by left. Qed.

Lemma block_not_node : a ∉ (nodes fl).*1.
Proof.
  pose proof ud_base_low. destruct block_range as (? & ? & ? & _). cbn [nodes fmap list_fmap fst].
  rewrite not_elem_of_cons. split; [lia|]. intros (n & Heq & Hn)%list_elem_of_fmap.
  pose proof (block_apart n Hn) as Hap. pose proof (ho_range _ _ _ Ho) as Hr. rewrite Forall_forall in Hr.
  specialize (Hr n (proj2 (elem_of_app _ _ _) (or_introl Hn))). unfold apart in Hap. cbn [fst snd] in Hap. lia.
Qed.

Lemma block_place : exists k1 q k2, nodes fl = k1 ++ q :: k2 /\ fst q < a /\ before a k2.
Proof.
  pose proof ud_base_low. destruct block_range as (? & ? & ? & _).
  apply split_at; [apply (ho_sorted _ _ _ Ho)|apply (nodes_size _ _ _ Ho)|cbn; lia|].
  pose proof block_not_node as Hn. by apply not_elem_of_cons in Hn as [_ ?].
Qed.

(** The ring successor of a node. *)
Lemma ring_next n n1 n2 ns l l' :
  nodes fl = n1 ++ n :: n2 -> rot (nodes fl) ns -> ns = l ++ n :: l' -> first l' (first ns 0) = first n2 ud_base.
Proof.
  intros Hn Hr Hns. pose proof (ho_ring _ _ _ Ho) as Hc. pose proof (cyc_rot _ _ _ Hr Hc) as Hc'.
  unfold cyc in Hc. change (first (nodes fl) 0) with ud_base in Hc. rewrite Hn in Hc.
  unfold cyc in Hc'. rewrite Hns in Hc' at 1. apply chain_app in Hc as [_ [Hc _]]. apply chain_app in Hc' as [_ [Hc' _]].
  rewrite Hc in Hc'. congruence.
Qed.

Lemma next_above n n1 n2 : nodes fl = n1 ++ n :: n2 -> first n2 ud_base = ud_base \/ fst n < first n2 ud_base.
Proof.
  intros Hn. destruct n2 as [|x n2]; [by left|right]. by apply (sorted_pair _ _ _ Ho n x n1 [] n2).
Qed.

Lemma run_find k1 q k2 b :
  nodes fl = k1 ++ q :: k2 -> fst q < a -> before a k2 ->
  run (find_prev a (S (size (um_cells m))) (um_freep m)) m b = Ok (fst q, m, b).
Proof.
  intros Hn Hq Hk. pose proof ud_base_low. destruct block_range as (? & ? & ? & _).
  pose proof (ho_freep _ _ _ Ho) as Hfp. apply list_elem_of_fmap in Hfp as (f & -> & Hf).
  destruct (rot_to _ _ Hf) as (l & Hrot). assert (q ∈ f :: l) as Hql by (rewrite <- (rot_perm _ _ Hrot), Hn; set_solver).
  apply list_elem_of_split_l in Hql as (mid & rest & Hsp & Hmid).
  replace (fst f) with (first (mid ++ [q]) 0) by (destruct mid; cbn in *; congruence).
  pose proof Hrot as Hrot'. rewrite Hsp in Hrot'. apply (run_find_prev a mid q rest).
  - eapply cyc_rot; [exact Hrot'|apply (ho_ring _ _ _ Ho)].
  - rewrite <- (rot_perm _ _ Hrot'), Forall_forall. intros n Hin. apply (node_range _ _ _ _ Ho Hin).
  - intros l1 n l2 Heq Hne.
    assert (n ∈ nodes fl) as Hin by (rewrite (rot_perm _ _ Hrot'), Heq; set_solver). rewrite Hn in Hin.
    apply elem_of_app in Hin as [Hin|[->|Hin]%elem_of_cons]; [|done|]; apply list_elem_of_split in Hin as (x1 & x2 & ->).
    + rewrite <- app_assoc in Hn. cbn [app] in Hn. rewrite (ring_next n _ _ _ _ _ Hn Hrot' Heq).
      destruct (sorted_pair _ _ _ Ho _ _ _ _ _ Hn) as [_ Hnq]. destruct x2 as [|y x2]; cbn [app first]; [lia|].
      destruct (sorted_pair _ _ _ Ho n y x1 [] (x2 ++ q :: k2) Hn) as [_ Hny].
      assert (fst y < fst q). { apply (sorted_pair _ _ _ Ho y q (x1 ++ [n]) x2 k2). by rewrite <- app_assoc. } lia.
    + assert (nodes fl = (k1 ++ q :: x1) ++ n :: x2) as Hn' by (rewrite Hn, <- app_assoc; done).
      rewrite (ring_next n _ _ _ _ _ Hn' Hrot' Heq).
      assert (a < fst n). { unfold before in Hk. rewrite Forall_forall in Hk. apply Hk. set_solver. }
      destruct (next_above _ _ _ Hn') as [->|Hlt]; lia.
  - rewrite (ring_next q k1 k2 _ mid rest Hn Hrot' eq_refl). destruct k2 as [|x k2]; cbn [first].
    + right. assert (ud_base <= fst q); [|lia].
      assert (q ∈ nodes fl) as Hin by (rewrite Hn; set_solver). apply elem_of_cons in Hin as [->|Hin]; [done|].
      pose proof (ho_range _ _ _ Ho) as Hr. rewrite Forall_forall in Hr. specialize (Hr q ltac:(set_solver)). lia.
    + left. apply Forall_cons in Hk as [Hk _]. lia.
  - done.
  - pose proof (perm_lookup_size _ _ _ (sorted_NoDup _ _ _ Ho) (ho_ring _ _ _ Ho)) as Hl.
    rewrite (rot_perm _ _ Hrot'), length_app in Hl. cbn [length] in Hl. lia.
Qed.
End Free.

(** *** Joining and inserting blocks *)

Lemma nodes_perm fl fl1 k1 q n k2 :
  nodes fl = k1 ++ q :: n :: k2 -> nodes fl1 = k1 ++ q :: k2 -> fl ≡ₚ n :: fl1.
Proof.
  intros H1' H2'. apply (Permutation_cons_inv (a := (ud_base, 0))). change ((ud_base, 0) :: fl) with (nodes fl).
  transitivity (n :: nodes fl1); [|apply Permutation_swap]. rewrite H1', H2'. symmetry.
  pose proof (Permutation_middle (k1 ++ [q]) k2 n) as Hm. by rewrite <- !app_assoc in Hm.
Qed.

Lemma nodes_tail fl k1 q r r' : nodes fl = k1 ++ q :: r -> exists fl', nodes fl' = k1 ++ q :: r'.
Proof. destruct k1 as [|x k1]; intros [= <- ?]; eexists; reflexivity. Qed.

Lemma geom_join_next fl fl1 us a s u k1 q k2 brk :
  nodes fl = k1 ++ q :: (a + 8 * s, u) :: k2 -> nodes fl1 = k1 ++ q :: k2 ->
  geom fl ((a, s) :: us) brk -> geom fl1 ((a, s + u) :: us) brk.
Proof.
  intros Hn Hn1 [Hs Hd Hr Ht Hb].
  assert (fl ++ (a, s) :: us ≡ₚ (a, s) :: (a + 8 * s, u) :: fl1 ++ us) as Hp.
  { rewrite (nodes_perm _ _ _ _ _ _ Hn Hn1). cbn [app]. by rewrite <- Permutation_middle, Permutation_swap. }
  rewrite Hp in Hd, Hr, Ht. rewrite !total_cons in Ht. cbn [snd] in Ht. rewrite !Forall_cons in Hr. destruct Hr as (Hr1 & Hr2 & Hr).
  cbn [fst snd] in *. assert (fl1 ++ (a, s + u) :: us ≡ₚ (a, s + u) :: fl1 ++ us) as Hp1 by by rewrite <- Permutation_middle.
  split; rewrite ?Hp1; [| | | |done].
  - rewrite Hn1. rewrite Hn in Hs. apply StronglySorted_app in Hs as (Hx & Hk1 & Hk2). apply StronglySorted_app. split_and!.
    + intros x y Hx' Hy. apply Hx; set_solver.
    + done.
    + rewrite !StronglySorted_cons in *. rewrite Forall_cons in Hk2. tauto.
  - apply disj_join; [done|]. eapply Forall_impl; [exact Hr|]. cbn. tauto.
  - apply Forall_cons. split; [|exact Hr]. cbn [fst snd]. lia.
  - rewrite total_cons. cbn [snd]. lia.
Qed.

Lemma geom_insert fl fl' us a s k1 q k2 brk :
  nodes fl = k1 ++ q :: k2 -> nodes fl' = k1 ++ q :: (a, s) :: k2 ->
  gap q (a, s) -> Forall (gap (a, s)) k2 ->
  geom fl ((a, s) :: us) brk -> geom fl' us brk.
Proof.
  intros Hn Hn' Hq Hk [Hs Hd Hr Ht Hb].
  assert (fl ++ (a, s) :: us ≡ₚ fl' ++ us) as Hp.
  { rewrite (nodes_perm _ _ _ _ _ _ Hn' Hn). by rewrite <- Permutation_middle. }
  rewrite Hp in Hd, Hr, Ht. split; [|done..]. rewrite Hn'. rewrite Hn in Hs.
  apply Forall_app in Hr as [Hr _]. rewrite Forall_forall in Hr.
  apply StronglySorted_app in Hs as (Hx & Hk1 & Hk2). rewrite StronglySorted_cons in Hk2. destruct Hk2 as [Hk2 Hk2'].
  apply StronglySorted_app. split_and!.
  - intros x y Hx' [->|[->|Hy]%elem_of_cons]%elem_of_cons; [apply Hx; set_solver| |apply Hx; set_solver].
    specialize (Hx x q Hx' ltac:(set_solver)). unfold gap in *. cbn [fst snd] in *.
    enough (0 <= snd q) by lia. assert (q ∈ nodes fl') as [->|Hin]%elem_of_cons by (rewrite Hn'; set_solver); [done|].
    specialize (Hr q Hin). lia.
  - done.
  - rewrite !StronglySorted_cons, Forall_cons. done.
Qed.

Lemma geom_join_prev fl fl' us a s k1 q k2 brk :
  nodes fl = k1 ++ q :: k2 -> nodes fl' = k1 ++ (fst q, snd q + s) :: k2 -> q <> (ud_base, 0) ->
  fst q + 8 * snd q = a -> Forall (gap (a, s)) k2 ->
  geom fl ((a, s) :: us) brk -> geom fl' us brk.
Proof.
  intros Hn Hn' Hqb Hq Hk [Hs Hd Hr Ht Hb]. destruct k1 as [|h k1]; [injection Hn as <- <-; done|].
  injection Hn as <- Hfl. injection Hn' as Hfl'. subst fl fl'.
  assert ((k1 ++ q :: k2) ++ (a, s) :: us ≡ₚ q :: (a, s) :: (k1 ++ k2) ++ us) as Hp.
  { rewrite <- (Permutation_middle k1 k2 q). cbn [app]. by rewrite <- Permutation_middle. }
  assert ((k1 ++ (fst q, snd q + s) :: k2) ++ us ≡ₚ (fst q, snd q + s) :: (k1 ++ k2) ++ us) as Hp'.
  { by rewrite <- (Permutation_middle k1 k2). }
  rewrite Hp in Hd, Hr, Ht. rewrite !total_cons in Ht. rewrite !Forall_cons in Hr. destruct Hr as (Hr1 & Hr2 & Hr).
  destruct q as [q t]. cbn [fst snd] in *. subst a. split; rewrite ?Hp'; [| | | |done].
  - change (nodes (k1 ++ (q, t + s) :: k2)) with (((ud_base, 0) :: k1) ++ (q, t + s) :: k2).
    change (nodes (k1 ++ (q, t) :: k2)) with (((ud_base, 0) :: k1) ++ (q, t) :: k2) in Hs.
    apply StronglySorted_app in Hs as (Hx & Hk1 & Hk2). apply StronglySorted_app. split_and!.
    + intros x y Hx' [->|Hy]%elem_of_cons; [apply (Hx x (q, t)); set_solver|apply Hx; set_solver].
    + done.
    + rewrite StronglySorted_cons in *. split; [|tauto]. eapply Forall_impl; [exact Hk|]. unfold gap. cbn. lia.
  - apply disj_join; [done|]. eapply Forall_impl; [exact Hr|]. cbn. tauto.
  - apply Forall_cons. split; [|exact Hr]. cbn [fst snd]. lia.
  - rewrite total_cons. cbn [snd]. lia.
Qed.

(** *** [free] *)

Lemma set_cell_twice a c c' m : set_cell a c (set_cell a c' m) = set_cell a c m.
Proof. unfold set_cell. cbn. by rewrite insert_insert_eq. Qed.

Lemma mapped_set_cell a c m x : mapped (set_cell a c m) x = mapped m x.
Proof. done. Qed.

Lemma run_join_next m fl us a s k1 q k2 b :
  heap_ok m fl ((a, s) :: us) -> nodes fl = k1 ++ q :: k2 ->
  exists s1 k3,
    run (if hplus a s =? first k2 ud_base then
           n <- rd (first k2 ud_base);; wr_size a (s + snd n);;; wr_ptr a (fst n)
         else wr_ptr a (first k2 ud_base)) m b = Ok (tt, set_cell a (first k3 ud_base, s1) m, b) /\
    (k3 = k2 /\ s1 = s /\ a + 8 * s <> first k2 ud_base \/ exists u, k2 = (a + 8 * s, u) :: k3 /\ s1 = s + u).
Proof.
  intros Ho Hn. pose proof (ho_used _ _ _ Ho) as Hu. apply Forall_cons in Hu as [[p Hp] _]. cbn [fst snd] in Hp.
  pose proof ud_base_pos. pose proof ud_base_low. pose proof (ho_brk _ _ _ Ho). unfold KERNBASE in *.
  destruct (block_range _ _ _ _ _ Ho) as (Hs & Ha & Hb & Hm). rewrite hplus_eq by lia.
  destruct (Z.eqb_spec (a + 8 * s) (first k2 ud_base)) as [Heq|Hne].
  - destruct k2 as [|[x u] k3]; cbn [first fst] in Heq; [lia|]. subst x. cbn [first fst].
    assert ((a + 8 * s, u) ∈ nodes fl) as Hin by (rewrite Hn; set_solver).
    pose proof (ho_ring _ _ _ Ho) as Hc. unfold cyc in Hc. rewrite Hn in Hc at 1. change (first (nodes fl) 0) with ud_base in Hc.
    apply chain_app in Hc as (_ & _ & Hc & _). cbn [fst snd] in Hc.
    destruct (node_range _ _ _ _ Ho Hin) as (_ & Hu0 & Hu1 & Hmn). cbn [fst snd] in Hmn, Hu0, Hu1.
    exists (s + u), k3. split; [|right; eauto].
    rewrite run_bind, (run_rd _ _ _ _ Hmn Hc). cbn [fst snd]. rewrite run_bind, (run_wr_size _ _ _ _ _ _ Hm Hp).
    rewrite u32_small by (unfold KERNBASE in *; lia).
    erewrite run_wr_ptr; [|done|apply lookup_insert_eq]. by rewrite set_cell_twice.
  - exists s, k2. split; [|left; done]. by rewrite (run_wr_ptr _ _ _ _ _ _ Hm Hp).
Qed.

(** The blocks before and after [a] do not touch it, once the following one
    has been joined. *)
Lemma gap_prev m fl us a s k1 q k2 :
  heap_ok m fl ((a, s) :: us) -> nodes fl = k1 ++ q :: k2 -> fst q < a -> fst q + 8 * snd q <> a -> forall s', gap q (a, s').
Proof.
  intros Ho Hn Hq Hne s'. unfold gap. cbn [fst]. assert (q ∈ nodes fl) as [->|Hin]%elem_of_cons by (rewrite Hn; set_solver).
  - cbn [fst snd] in *. lia.
  - pose proof (block_apart _ _ _ _ _ Ho q Hin) as Hap. unfold apart in Hap. cbn [fst snd] in Hap.
    destruct (block_range _ _ _ _ _ Ho) as (? & _). lia.
Qed.

Lemma gap_next m fl us a s k1 q k2 :
  heap_ok m fl ((a, s) :: us) -> nodes fl = k1 ++ q :: k2 -> before a k2 -> a + 8 * s <> first k2 ud_base -> Forall (gap (a, s)) k2.
Proof.
  intros Ho Hn Hk Hne. destruct k2 as [|x k2]; [constructor|]. apply Forall_cons in Hk as [Hx _]. cbn [first] in Hne.
  assert (x ∈ fl) as Hin.
  { assert (x ∈ nodes fl) as [->|Hin]%elem_of_cons by (rewrite Hn; set_solver); [|done].
    cbn [fst] in Hx. pose proof ud_base_low. destruct (block_range _ _ _ _ _ Ho) as (? & ? & _). lia. }
  pose proof (block_apart _ _ _ _ _ Ho x Hin) as Hap. unfold apart in Hap. cbn [fst snd] in Hap.
  assert (0 < snd x) as Hx0.
  { pose proof (ho_range _ _ _ Ho) as Hr. rewrite Forall_forall in Hr. specialize (Hr x ltac:(set_solver)). lia. }
  assert (gap (a, s) x) as Hg by (unfold gap; cbn [fst snd]; lia). constructor; [done|].
  rewrite Forall_forall. intros y Hy. apply list_elem_of_split in Hy as (l1 & l2 & ->).
  assert (nodes fl = (k1 ++ [q]) ++ x :: l1 ++ y :: l2) as Hn' by (rewrite Hn, <- app_assoc; done).
  destruct (sorted_pair _ _ _ Ho x y _ _ _ Hn') as [_ Hxy]. unfold gap in *. cbn [fst snd] in *. lia.
Qed.

(** After joining the following block: the block [(a, s1)] before [k3]. *)
Lemma joined_geom m fl us a s k1 q k2 s1 k3 :
  heap_ok m fl ((a, s) :: us) -> nodes fl = k1 ++ q :: k2 -> before a k2 ->
  (k3 = k2 /\ s1 = s /\ a + 8 * s <> first k2 ud_base \/ exists u, k2 = (a + 8 * s, u) :: k3 /\ s1 = s + u) ->
  exists fl1, nodes fl1 = k1 ++ q :: k3 /\ geom fl1 ((a, s1) :: us) (um_brk m) /\ Forall (gap (a, s1)) k3 /\ s <= s1.
Proof.
  intros Ho Hn Hk [(-> & -> & Hne)|(u & -> & ->)].
  - exists fl. split_and!; [done|apply (ho_geom _ _ _ Ho)|by eapply gap_next|done].
  - destruct (nodes_tail _ _ _ _ k3 Hn) as [fl1 Hn1]. exists fl1.
    assert ((a + 8 * s, u) ∈ nodes fl) as Hin by (rewrite Hn; set_solver).
    destruct (node_range _ _ _ _ Ho Hin) as (_ & Hu & _). cbn [snd] in Hu.
    split_and!; [done|by eapply geom_join_next; [..|apply (ho_geom _ _ _ Ho)]| |lia].
    rewrite Forall_forall. intros y Hy. apply list_elem_of_split in Hy as (l1 & l2 & ->).
    assert (nodes fl = (k1 ++ [q]) ++ (a + 8 * s, u) :: l1 ++ y :: l2) as Hn' by (rewrite Hn, <- app_assoc; done).
    destruct (sorted_pair _ _ _ Ho _ _ _ _ _ Hn') as [Hg _]. unfold gap. cbn [fst snd] in *. lia.
Qed.

Lemma used_not_node m fl us x : heap_ok m fl us -> x ∈ us -> fst x ∉ (nodes fl).*1.
Proof.
  intros Ho (u1 & u2 & ->)%list_elem_of_split. destruct x as [a s].
  eapply block_not_node, heap_ok_perm, Ho. by rewrite <- Permutation_middle.
Qed.

Lemma used_other m fl us a s x : heap_ok m fl ((a, s) :: us) -> x ∈ us -> apart (a, s) x /\ fst x <> a.
Proof.
  intros Ho Hx. pose proof (ho_disj _ _ _ Ho) as Hd. apply disj_app in Hd as (_ & [Hd _] & _).
  rewrite Forall_forall in Hd. specialize (Hd x Hx). split; [done|].
  destruct (used_range _ _ _ x Ho) as (Hx0 & _); [by right|]. destruct (block_range _ _ _ _ _ Ho) as (Hs & _).
  unfold apart in Hd. cbn [fst snd] in Hd. lia.
Qed.

Lemma used_kept (cs cs' : gmap Z (Z * Z)) (us : list blk) :
  Forall (fun x => exists p, cs !! fst x = Some (p, snd x)) us ->
  (forall x, x ∈ us -> cs' !! fst x = cs !! fst x) ->
  Forall (fun x => exists p, cs' !! fst x = Some (p, snd x)) us.
Proof. rewrite !Forall_forall. intros Hu Hc x Hx. rewrite Hc by done. auto. Qed.

(** What [free] leaves: only the headers of [a] and [q] have changed. *)
Definition freed m (a : Z) (ca : Z * Z) (q : Z) (cq : Z * Z) : umem := set_freep q (set_cell q cq (set_cell a ca m)).

Lemma freed_other m a ca q cq x : x <> a -> x <> q -> um_cells (freed m a ca q cq) !! x = um_cells m !! x.
Proof. intros. cbn. by rewrite !lookup_insert_ne by done. Qed.

Lemma freed_ok m fl us a s k1 q k2 fl' ca cq :
  heap_ok m fl ((a, s) :: us) -> nodes fl = k1 ++ q :: k2 -> fst q ∈ (nodes fl').*1 ->
  cyc (um_cells (freed m a ca (fst q) cq)) (nodes fl') -> geom fl' us (um_brk m) ->
  heap_ok (freed m a ca (fst q) cq) fl' us.
Proof.
  intros Ho Hn Hq Hr Hg. pose proof (ho_used _ _ _ Ho) as Hu. apply Forall_cons in Hu as [_ Hu].
  split; [done|done| |exact Hg]. eapply used_kept; [exact Hu|]. intros x Hx. apply freed_other; [by eapply used_other|].
  intros Heq. eapply (used_not_node m fl _ x Ho); [by right|]. rewrite Heq, Hn, fmap_app, fmap_cons.
  apply elem_of_app. right. left.
Qed.

(** The links around the place of [a]. *)
Lemma free_links m fl us a s k1 q k2 k3 :
  heap_ok m fl ((a, s) :: us) -> nodes fl = k1 ++ q :: k2 -> (k3 = k2 \/ exists n, k2 = n :: k3) ->
  um_cells m !! fst q = Some (first k2 ud_base, snd q) /\
  forall ca cq, chain (um_cells (freed m a ca (fst q) cq)) k1 (fst q) /\
    chain (um_cells (freed m a ca (fst q) cq)) k3 ud_base.
Proof.
  intros Ho Hn Hk3. pose proof (sorted_NoDup _ _ _ Ho) as Hnd. pose proof (block_not_node _ _ _ _ _ Ho) as Han.
  pose proof (ho_ring _ _ _ Ho) as Hc. unfold cyc in Hc. change (first (nodes fl) 0) with ud_base in Hc.
  rewrite Hn in Hc, Hnd, Han. rewrite fmap_app, fmap_cons in Hnd, Han. apply chain_app in Hc as (Hc1 & Hcq & Hc2).
  apply NoDup_app in Hnd as (_ & Hnd1 & [Hnd2 _]%NoDup_cons).
  apply not_elem_of_app in Han as [Ha1 [Haq Ha2]%not_elem_of_cons]. split; [done|]. intros ca cq.
  assert (chain (um_cells m) k3 ud_base /\ a ∉ k3.*1 /\ fst q ∉ k3.*1) as (Hc3 & Ha3 & Hq3).
  { destruct Hk3 as [->|(n & ->)]; [done|]. cbn [chain fmap list_fmap] in *. apply not_elem_of_cons in Hnd2, Ha2. naive_solver. }
  split; apply chain_other, chain_other; try done. intros Hq. apply (Hnd1 _ Hq). left.
Qed.

(** The second half of [free]: joining with the block before. *)
Lemma run_join_prev m a q t na s1 nq b :
  mapped m a = true -> mapped m q = true -> q <> a ->
  um_cells m !! a = Some (na, s1) -> um_cells m !! q = Some (nq, t) ->
  0 <= q + 8 * t < 2 ^ 32 -> 0 <= t + s1 < 2 ^ 32 ->
  run ((psize <- rd_size q;;
        (if hplus q psize =? a then c <- rd a;; wr_size q (psize + snd c);;; wr_ptr q (fst c) else wr_ptr q a));;;
       modify (set_freep q)) m b =
    Ok (tt, set_freep q (set_cell q (if q + 8 * t =? a then (na, t + s1) else (a, t)) m), b).
Proof.
  intros Hma Hmq Hqa Ha Hq Hr Hr'. rewrite run_assoc, run_bind, (run_rd_size _ _ _ _ _ Hmq Hq), run_bind, hplus_eq by lia.
  destruct (Z.eqb_spec (q + 8 * t) a) as [Heq|Hne].
  - rewrite run_bind, (run_rd _ _ _ _ Hma Ha). cbn [fst snd].
    rewrite run_bind, (run_wr_size _ _ _ _ _ _ Hmq Hq), u32_small by lia.
    erewrite run_wr_ptr; [|done|apply lookup_insert_eq]. by rewrite set_cell_twice.
  - by rewrite (run_wr_ptr _ _ _ _ _ _ Hmq Hq).
Qed.

(** Where the block goes: after [q], joined with what follows it. *)
Record place m fl us (a s : Z) k1 (q : blk) k2 (s1 : Z) k3 : Prop := {
  pl_nodes : nodes fl = k1 ++ q :: k2;
  pl_order : fst q < a;
  pl_before : before a k2;
  pl_join : k3 = k2 /\ s1 = s /\ a + 8 * s <> first k2 ud_base \/ exists u, k2 = (a + 8 * s, u) :: k3 /\ s1 = s + u;
}.

Lemma run_free_eq m fl us a s b :
  heap_ok m fl ((a, s) :: us) ->
  exists k1 q k2 s1 k3, place m fl us a s k1 q k2 s1 k3 /\
    run (free (a + 8)) m b = Ok (tt, freed m a (first k3 ud_base, s1) (fst q)
      (if fst q + 8 * snd q =? a then (first k3 ud_base, snd q + s1) else (a, snd q)), b).
Proof.
  intros Ho. destruct (block_place _ _ _ _ _ Ho) as (k1 & q & k2 & Hn & Hq & Hk).
  destruct (block_range _ _ _ _ _ Ho) as (Hs & Ha & Hb & Hma). pose proof ud_base_pos. pose proof ud_base_low.
  pose proof (ho_brk _ _ _ Ho) as Hbrk. unfold KERNBASE in Hbrk.
  pose proof (ho_used _ _ _ Ho) as Hu. apply Forall_cons in Hu as [[p Hp] Hu]. cbn [fst snd] in Hp.
  assert (q ∈ nodes fl) as Hin by (rewrite Hn; apply elem_of_app; right; left).
  destruct (node_range _ _ _ _ Ho Hin) as (Hq1 & Hq2 & Hq3 & Hmq). unfold KERNBASE in Hq1, Hq3.
  destruct (run_join_next _ _ _ _ _ _ _ _ b Ho Hn) as (s1 & k3 & Hj1 & Hj).
  destruct (joined_geom _ _ _ _ _ _ _ _ _ _ Ho Hn Hk Hj) as (fl1 & Hn1 & Hg & Hgk & Hs1).
  destruct (free_links _ _ _ _ _ _ _ _ k3 Ho Hn) as (Hcq & Hch); [naive_solver|].
  assert (a + 8 * s1 <= um_brk m) as Hab.
  { pose proof (g_range _ _ _ Hg) as Hr. apply Forall_app in Hr as [_ [Hr _]%Forall_cons]. cbn [fst snd] in Hr. lia. }
  assert (fst q <> a) as Hqa by lia. exists k1, q, k2, s1, k3. split; [by split|].
  unfold free. rewrite hplus_eq by lia. replace (a + 8 + 8 * -1) with a by lia. cbn [run pbind get].
  rewrite run_bind, (run_find _ _ _ _ _ Ho _ _ _ _ Hn Hq Hk), run_bind, (run_rd_size _ _ _ _ _ Hma Hp).
  rewrite run_bind, (run_rd_ptr _ _ _ _ _ Hmq Hcq), run_bind, Hj1, <- run_assoc.
  apply (run_join_prev _ _ _ _ (first k3 ud_base) _ (first k2 ud_base)); try done; [apply lookup_insert_eq| |lia|lia].
  cbn. by rewrite lookup_insert_ne by done.
Qed.

(** The blocks [us] keep their headers and contents. *)
Definition same_used us m m' : Prop :=
  forall y c, y ∈ us -> fst y <= c < fst y + 8 * snd y -> um_cells m' !! c = um_cells m !! c.

Lemma used_cell m fl us y c : heap_ok m fl us -> y ∈ us -> fst y <= c < fst y + 8 * snd y ->
  (forall n, n ∈ fl -> ~ (fst n <= c < fst n + 8 * snd n)) /\ c ∉ (nodes fl).*1.
Proof.
  intros Ho Hy Hc. pose proof ud_base_low. destruct (used_range _ _ _ _ Ho Hy) as (_ & Hr & _).
  assert (forall n, n ∈ fl -> ~ (fst n <= c < fst n + 8 * snd n)) as Hf.
  { intros n Hn. pose proof (ho_disj _ _ _ Ho) as Hd. apply disj_app in Hd as (_ & _ & Hd). rewrite Forall_forall in Hd.
    specialize (Hd n Hn). rewrite Forall_forall in Hd. specialize (Hd y Hy). unfold apart in Hd. lia. }
  split; [done|]. apply not_elem_of_cons. split; [cbn; lia|]. intros (n & -> & Hn)%list_elem_of_fmap.
  apply (Hf n Hn). pose proof (ho_range _ _ _ Ho) as Hrg. rewrite Forall_forall in Hrg.
  specialize (Hrg n (proj2 (elem_of_app _ _ _) (or_introl Hn))). lia.
Qed.

Lemma freed_same m fl us a s q ca cq : heap_ok m fl ((a, s) :: us) -> q ∈ (nodes fl).*1 -> same_used us m (freed m a ca q cq).
Proof.
  intros Ho Hq y c Hy Hc. apply freed_other.
  - destruct (used_other _ _ _ _ _ _ Ho Hy) as [Hap _]. destruct (block_range _ _ _ _ _ Ho) as (? & _).
    unfold apart in Hap. cbn [fst snd] in Hap. lia.
  - intros ->. destruct (used_cell _ _ _ y q Ho) as [_ Hn]; [by right|done|done].
Qed.

(** [free] returns the block to the free list and touches no other block. *)
Lemma run_free m fl us a s b :
  heap_ok m fl ((a, s) :: us) ->
  exists m' fl', run (free (a + 8)) m b = Ok (tt, m', b) /\ heap_ok m' fl' us /\ um_brk m' = um_brk m /\
    same_used us m m' /\ (length fl' <= S (length fl))%nat /\ exists n, n ∈ fl' /\ s <= snd n.
Proof.
  intros Ho. destruct (run_free_eq _ _ _ _ _ b Ho) as (k1 & q & k2 & s1 & k3 & [Hn Hq Hk Hj] & Hr).
  destruct (joined_geom _ _ _ _ _ _ _ _ _ _ Ho Hn Hk Hj) as (fl1 & Hn1 & Hg & Hgk & Hs1).
  destruct (free_links _ _ _ _ _ _ _ _ k3 Ho Hn) as (Hcq & Hch); [naive_solver|].
  pose proof ud_base_low. destruct (block_range _ _ _ _ _ Ho) as (Hs & Ha & _ & _).
  assert (fst q ∈ (nodes fl).*1) as Hqn by (rewrite Hn, fmap_app; apply elem_of_app; right; left).
  destruct (Z.eqb_spec (fst q + 8 * snd q) a) as [Heq|Hne].
  - destruct k1 as [|h k1]; [cbn in Hn; injection Hn as <- _; cbn in Heq; lia|]. pose proof Hn as [= <- Hfl].
    eexists _, (k1 ++ (fst q, snd q + s1) :: k3). split; [exact Hr|]. split_and!; [|done| | |].
    + eapply freed_ok; [exact Ho|exact Hn| | |].
      * cbn. rewrite fmap_app. right. apply elem_of_app. right. left.
      * destruct (Hch (first k3 ud_base, s1) (first k3 ud_base, snd q + s1)) as [Hc1 Hc3].
        apply (chain_app _ ((ud_base, 0) :: k1)). split; [done|]. split; [apply lookup_insert_eq|done].
      * eapply geom_join_prev; [exact Hn1|done| |exact Heq|exact Hgk|exact Hg]. intros ->. cbn in Heq. lia.
    + by eapply freed_same.
    + apply (f_equal length) in Hfl. rewrite !length_app in *. cbn [length] in *. naive_solver lia.
    + exists (fst q, snd q + s1). split; [apply elem_of_app; right; left|]. cbn.
      destruct (node_range _ _ _ q Ho) as (_ & ? & _); [rewrite Hn; apply elem_of_app; right; left|lia].
  - destruct (nodes_tail _ _ _ _ ((a, s1) :: k3) Hn) as [fl2 Hn2]. eexists _, fl2. split; [exact Hr|]. split_and!; [|done| | |].
    + eapply freed_ok; [exact Ho|exact Hn| | |].
      * rewrite Hn2, fmap_app. apply elem_of_app. right. left.
      * destruct (Hch (first k3 ud_base, s1) (a, snd q)) as [Hc1 Hc3]. unfold cyc.
        change (first (nodes fl2) 0) with ud_base. rewrite Hn2. apply chain_app. split; [done|].
        split; [apply lookup_insert_eq|]. split; [|done]. cbn. rewrite lookup_insert_ne by lia. apply lookup_insert_eq.
      * eapply geom_insert; [exact Hn1|exact Hn2| |exact Hgk|exact Hg]. by eapply gap_prev.
    + by eapply freed_same.
    + apply (f_equal length) in Hn, Hn2. rewrite length_app in *. cbn [length nodes] in *. destruct Hj as [[-> _]|(u & -> & _)]; cbn [length] in *; lia.
    + exists (a, s1). split; [|done]. assert ((a, s1) ∈ nodes fl2) as [?|?]%elem_of_cons by
        (rewrite Hn2; apply elem_of_app; right; right; left); [simplify_eq; lia|done].
Qed.

(** *** [morecore] *)

Lemma geom_grow fl us n brk :
  geom fl us brk -> 0 < n -> brk + 8 * n < KERNBASE -> geom fl ((brk, n) :: us) (brk + 8 * n).
Proof.
  intros [Hs Hd Hr Ht Hb] Hn Hk.
  assert (fl ++ (brk, n) :: us ≡ₚ (brk, n) :: fl ++ us) as Hp by by rewrite <- Permutation_middle.
  split; rewrite ?Hp; [done| | | |done].
  - split; [|done]. eapply Forall_impl; [exact Hr|]. unfold apart. cbn. lia.
  - apply Forall_cons. split.
    + cbn [fst snd]. pose proof (heap_le_brk fl us brk). assert (geom fl us brk) by by split. lia.
    + eapply Forall_impl; [exact Hr|]. cbn. lia.
  - rewrite total_cons. cbn [snd]. lia.
Qed.

(** A request the allocator can count: fewer than [KERNBASE] bytes. *)
Definition countable (nu : Z) : Prop := 0 < nu /\ 8 * nu < KERNBASE.

Lemma run_morecore `{GrowTotal} m fl us nu b :
  heap_ok m fl us -> countable nu ->
  exists b', run (morecore nu) m b = Ok (0, m, b') \/
    exists m' fl', run (morecore nu) m b = Ok (um_freep m', m', b') /\ heap_ok m' fl' us /\ same_used us m m' /\
      (length fl' <= S (length fl))%nat /\ exists n, n ∈ fl' /\ nu <= snd n.
Proof.
  intros Ho [Hnu Hk]. pose proof (ho_brk _ _ _ Ho) as Hb. unfold morecore. set (nu' := if nu <? 4096 then 4096 else nu).
  assert (nu <= nu' /\ 0 < nu' /\ 8 * nu' < KERNBASE) as (Hle & Hpos & Hk').
  { unfold nu', KERNBASE in *. destruct (Z.ltb_spec nu 4096); lia. }
  rewrite s32_small by (unfold KERNBASE in *; lia).
  pose proof (heap_le_brk _ _ _ (ho_geom _ _ _ Ho)) as Hhb.
  pose proof ud_base_pos. pose proof ud_base_low. rewrite run_bind. unfold sbrk. cbn [run pbind get].
  rewrite (proj2 (Z.ltb_lt _ _)) by lia. rewrite u32_small by (unfold KERNBASE in *; lia).
  destruct (Z.leb_spec KERNBASE (um_brk m + nu' * 8)) as [?|Hsz]; [eexists; left; reflexivity|].
  rewrite (proj2 (Z.ltb_ge _ _)) by lia. destruct (grow_total (nu' * 8) b) as (ok & b' & Hg). exists b'.
  cbn [run pbind]. rewrite Hg. destruct ok; cbn [run pbind put]; [|left; reflexivity].
  rewrite (proj2 (Z.eqb_neq _ _)) by lia.
  set (m1 := set_brk (um_brk m + nu' * 8) m). set (m2 := set_cell (um_brk m) (fst (cell_of m1 (um_brk m)), nu') m1).
  assert (heap_ok m2 fl ((um_brk m, nu') :: us)) as Ho2.
  { split.
    - apply chain_other; [|exact (ho_ring _ _ _ Ho)]. apply not_elem_of_cons. split; [cbn; lia|].
      intros (n & Heq & Hn)%list_elem_of_fmap. pose proof (ho_range _ _ _ Ho) as Hr. rewrite Forall_forall in Hr.
      specialize (Hr n (proj2 (elem_of_app _ _ _) (or_introl Hn))). lia.
    - exact (ho_freep _ _ _ Ho).
    - apply Forall_cons. split; [eexists; apply lookup_insert_eq|]. eapply used_kept; [exact (ho_used _ _ _ Ho)|].
      intros x Hx. cbn. rewrite lookup_insert_ne; [done|]. destruct (used_range _ _ _ x Ho Hx) as (? & ? & ? & _). lia.
    - cbn. replace (nu' * 8) with (8 * nu') by lia. apply geom_grow; [exact (ho_geom _ _ _ Ho)|done|lia]. }
  right. destruct (run_free _ _ _ _ _ b' Ho2) as (m' & fl' & Hf & Ho' & _ & Hsame & Hlen & n & Hn & Hns).
  exists m', fl'. split; [|split_and!; [done| |done|exists n; split; [done|lia]]].
  - rewrite run_bind. unfold wr_size at 1. rewrite run_wr by (unfold mapped; cbn; lia).
    rewrite (u32_small nu') by (unfold KERNBASE in *; lia). fold m1. fold m2.
    rewrite hplus_eq, Z.mul_1_r by (unfold KERNBASE in *; lia). rewrite run_bind, Hf. done.
  - intros y c Hy Hc. rewrite (Hsame y c Hy Hc). cbn. rewrite lookup_insert_ne; [done|].
    destruct (used_range _ _ _ y Ho Hy) as (? & ? & ? & _). lia.
Qed.

(** *** [malloc] *)

(** [malloc] takes [n] units from the end of block [x]. *)
Lemma geom_take fl fl' us x n k1 q k2 brk :
  nodes fl = k1 ++ q :: x :: k2 -> nodes fl' = k1 ++ q :: k2 -> snd x = n ->
  geom fl us brk -> geom fl' (x :: us) brk.
Proof.
  intros Hn Hn' <- [Hs Hd Hr Ht Hb].
  assert (fl ++ us ≡ₚ fl' ++ x :: us) as Hp.
  { rewrite (nodes_perm _ _ _ _ _ _ Hn Hn'). by rewrite <- Permutation_middle. }
  rewrite Hp in Hd, Hr, Ht. split; [|done..]. rewrite Hn'. rewrite Hn in Hs.
  apply StronglySorted_app in Hs as (Hx & Hk1 & Hk2). apply StronglySorted_app. split_and!; [|done|].
  - intros y z Hy Hz. apply Hx; [done|]. rewrite !elem_of_cons in *. tauto.
  - rewrite !StronglySorted_cons in *. rewrite Forall_cons in Hk2. tauto.
Qed.

Lemma geom_cut fl fl' us a s n k1 q k2 brk :
  nodes fl = k1 ++ q :: (a, s) :: k2 -> nodes fl' = k1 ++ q :: (a, s - n) :: k2 -> 0 < n < s ->
  geom fl us brk -> geom fl' ((a + 8 * (s - n), n) :: us) brk.
Proof.
  intros Hn Hn' Hs [Hso Hd Hr Ht Hb]. destruct (nodes_tail _ _ _ _ k2 Hn) as [fl0 Hn0].
  pose proof (nodes_perm _ _ _ _ _ _ Hn Hn0) as Hp. pose proof (nodes_perm _ _ _ _ _ _ Hn' Hn0) as Hp'.
  assert (fl' ++ (a + 8 * (s - n), n) :: us ≡ₚ (a, s - n) :: (a + 8 * (s - n), n) :: fl0 ++ us) as Hq.
  { rewrite Hp'. cbn [app]. by rewrite <- Permutation_middle. }
  rewrite Hp in Hd, Hr, Ht. cbn [app] in *. rewrite total_cons in Ht. apply Forall_cons in Hr as [Hr0 Hr].
  split; rewrite ?Hq; [| | | |done].
  - rewrite Hn'. rewrite Hn in Hso. apply StronglySorted_app in Hso as (Hx & Hk1 & Hk2). apply StronglySorted_app. split_and!; [|done|].
    + intros y z Hy Hz. rewrite !elem_of_cons in Hz. destruct Hz as [->|[->|Hz]].
      * apply (Hx y q Hy). left.
      * apply (Hx y (a, s) Hy). right. left.
      * apply (Hx y z Hy). by right; right.
    + rewrite !StronglySorted_cons, !Forall_cons in *. destruct Hk2 as ((H1' & H2') & H3' & H4'). split_and!; try done.
      eapply Forall_impl; [exact H3'|]. unfold gap. cbn. lia.
  - apply disj_cut; [|lia|lia]. by replace (s - n + n) with s by lia.
  - rewrite !Forall_cons. cbn [fst snd] in *. split_and!; [lia..|exact Hr].
  - rewrite !total_cons. cbn [snd] in *. lia.
Qed.

Lemma rot_prev ns l n : rot ns (l ++ [n]) -> rot ns (n :: l).
Proof.
  intros (l1 & l2 & -> & Heq). destruct l1 as [|x l1 _] using rev_ind.
  - rewrite app_nil_r in Heq. subst l2. exists l, [n]. done.
  - rewrite app_assoc in Heq. apply app_inj_tail in Heq as [-> ->]. exists l1, (x :: l2). by rewrite <- app_assoc.
Qed.

Definition lst (R : list blk) : Z := match last R with Some n => fst n | None => 0 end.

(** The result of [malloc]: a block of [n] units in use. *)
Definition allocated us m m' (n : Z) (p : Z) : Prop :=
  exists a fl', p = a + 8 /\ heap_ok m' fl' ((a, n) :: us) /\ same_used us m m'.

Lemma allocated_trans us m m1 m' n p : same_used us m m1 -> allocated us m1 m' n p -> allocated us m m' n p.
Proof.
  intros Hs (a & fl' & -> & Ho & Hs'). exists a, fl'. split_and!; [done..|].
  intros y c Hy Hc. by rewrite (Hs' y c Hy Hc), (Hs y c Hy Hc).
Qed.

Lemma header_kept m fl us y : heap_ok m fl us -> y ∈ us ->
  (forall n, n ∈ fl -> ~ (fst n <= fst y < fst n + 8 * snd n)) /\ fst y ∉ (nodes fl).*1.
Proof. intros Ho Hy. destruct (used_range _ _ _ _ Ho Hy) as (? & _). apply (used_cell m fl us y); [done..|lia]. Qed.

(** The links around [pv] and [x]. *)
Lemma take_links m fl us n1 pv x n2 :
  heap_ok m fl us -> nodes fl = n1 ++ pv :: x :: n2 ->
  chain (um_cells m) n1 (fst pv) /\ um_cells m !! fst pv = Some (fst x, snd pv) /\
  um_cells m !! fst x = Some (first n2 ud_base, snd x) /\ chain (um_cells m) n2 ud_base /\
  fst pv <> fst x /\ (forall c, c = fst pv \/ c = fst x -> c ∉ n1.*1 /\ c ∉ n2.*1).
Proof.
  intros Ho Hn. pose proof (sorted_NoDup _ _ _ Ho) as Hnd.
  pose proof (ho_ring _ _ _ Ho) as Hc. unfold cyc in Hc. change (first (nodes fl) 0) with ud_base in Hc.
  rewrite Hn in Hc, Hnd. apply chain_app in Hc as (Hc1 & Hcp & Hcx & Hc2). rewrite fmap_app, !fmap_cons in Hnd.
  apply NoDup_app in Hnd as (_ & Hd & Hnd). rewrite !NoDup_cons, not_elem_of_cons in Hnd. destruct Hnd as ((Hpx & Hp) & Hx & _).
  split_and!; try done. intros c Hc. split; [|naive_solver]. intros Hin. apply (Hd _ Hin). rewrite !elem_of_cons. naive_solver.
Qed.

Lemma take_ok m fl us n1 pv x n2 :
  heap_ok m fl us -> nodes fl = n1 ++ pv :: x :: n2 ->
  let m' := set_freep (fst pv) (set_cell (fst pv) (first n2 ud_base, snd pv) m) in
  exists fl', heap_ok m' fl' (x :: us) /\ same_used us m m'.
Proof.
  intros Ho Hn m'. destruct (take_links _ _ _ _ _ _ _ Ho Hn) as (Hc1 & Hcp & Hcx & Hc2 & Hne & Hk).
  destruct (nodes_tail _ _ _ _ n2 Hn) as [fl' Hn'].
  assert (fst pv ∈ (nodes fl).*1) as Hpv by (rewrite Hn, fmap_app; apply elem_of_app; right; left).
  exists fl'. split; [split|].
  - unfold cyc. change (first (nodes fl') 0) with ud_base. rewrite Hn'. destruct (Hk (fst pv)) as [? ?]; [by left|].
    apply chain_app. split; [by apply chain_other|]. split; [apply lookup_insert_eq|by apply chain_other].
  - rewrite Hn', fmap_app. apply elem_of_app. right. left.
  - apply Forall_cons. split; [eexists; cbn; rewrite lookup_insert_ne by done; exact Hcx|].
    eapply used_kept; [exact (ho_used _ _ _ Ho)|]. intros y Hy. cbn. apply lookup_insert_ne.
    intros Heq. apply (header_kept _ _ _ _ Ho Hy). by rewrite <- Heq.
  - by eapply geom_take, (ho_geom _ _ _ Ho).
  - intros y c Hy Hc. cbn. apply lookup_insert_ne. intros <-. by apply (used_cell _ _ _ _ _ Ho Hy Hc).
Qed.

Lemma cut_ok m fl us n1 pv x n2 n p :
  heap_ok m fl us -> nodes fl = n1 ++ pv :: x :: n2 -> 0 < n < snd x ->
  let q := fst x + 8 * (snd x - n) in
  let m' := set_freep (fst pv) (set_cell q (p, n) (set_cell (fst x) (first n2 ud_base, snd x - n) m)) in
  exists fl', heap_ok m' fl' ((q, n) :: us) /\ same_used us m m'.
Proof.
  intros Ho Hn Hr q m'. destruct (take_links _ _ _ _ _ _ _ Ho Hn) as (Hc1 & Hcp & Hcx & Hc2 & Hne & Hk).
  destruct (nodes_tail _ _ _ _ ((fst x, snd x - n) :: n2) Hn) as [fl' Hn'].
  pose proof ud_base_low as Hb.
  assert (x ∈ fl) as Hxf.
  { assert (x ∈ nodes fl) as [->|?]%elem_of_cons by (rewrite Hn; apply elem_of_app; right; right; left); [cbn in Hr; lia|done]. }
  assert (forall y, y ∈ nodes fl -> fst y <> q) as Hq.
  { intros y Hy. unfold q. rewrite Hn in Hy. change (pv :: x :: n2) with ([pv] ++ x :: n2) in Hy. rewrite app_assoc in Hy.
    apply elem_of_app in Hy as [Hy|[->|Hy]%elem_of_cons]; [|lia|]; apply list_elem_of_split in Hy as (l1 & l2 & Heq).
    - destruct (sorted_pair _ _ _ Ho y x l1 l2 n2) as [_ ?]; [|lia].
      rewrite Hn. change (pv :: x :: n2) with ([pv] ++ x :: n2). by rewrite app_assoc, Heq, <- app_assoc.
    - subst n2. destruct (sorted_pair _ _ _ Ho x y (n1 ++ [pv]) l1 l2) as [? _]; [by rewrite <- app_assoc|lia]. }
  assert (forall l, (forall z, z ∈ l -> z ∈ nodes fl) -> q ∉ l.*1) as Hql.
  { intros l Hl (y & Heq & Hy)%list_elem_of_fmap. by apply (Hq y); [apply Hl|]. }
  destruct (Hk (fst x)) as [Hx1 Hx2]; [by right|]. exists fl'. split; [split|].
  - unfold cyc. change (first (nodes fl') 0) with ud_base. rewrite Hn'. apply chain_app. cbn [first chain fst snd]. split_and!.
    + apply chain_other; [apply Hql; intros z Hz; rewrite Hn; apply elem_of_app; by left|]. by apply chain_other.
    + cbn. rewrite !lookup_insert_ne; [done|by apply not_eq_sym|]. apply not_eq_sym, Hq. rewrite Hn. apply elem_of_app. right. left.
    + cbn. rewrite lookup_insert_ne by (apply not_eq_sym, Hq; by right). apply lookup_insert_eq.
    + apply chain_other; [apply Hql; intros z Hz; rewrite Hn; apply elem_of_app; by right; right; right|]. by apply chain_other.
  - rewrite Hn', fmap_app. apply elem_of_app. right. left.
  - apply Forall_cons. split; [eexists; apply lookup_insert_eq|].
    eapply used_kept; [exact (ho_used _ _ _ Ho)|]. intros y Hy. destruct (header_kept _ _ _ _ Ho Hy) as [Hh _]. specialize (Hh x Hxf).
    cbn. rewrite !lookup_insert_ne; [done|unfold q in *; lia..].
  - change (fst (fst x, snd x)) with (fst x). destruct x as [a0 s0]. cbn [fst snd] in *. by eapply geom_cut; [..|apply (ho_geom _ _ _ Ho)].
  - intros y c Hy Hc. destruct (used_cell _ _ _ _ _ Ho Hy Hc) as [Hh _]. specialize (Hh x Hxf).
    cbn. rewrite !lookup_insert_ne; [done|unfold q in *; lia..].
Qed.

Lemma run_take m fl us n x R fuel b :
  heap_ok m fl us -> rot (nodes fl) (x :: R) -> 0 < n <= snd x ->
  exists p m', run (malloc_loop n (S fuel) (lst (x :: R), fst x)) m b = Ok (p, m', b) /\ allocated us m m' n p.
Proof.
  intros Ho Hrot Hn. pose proof ud_base_low as Hbase.
  assert (x <> (ud_base, 0)) as Hxb by (intros ->; cbn in Hn; lia).
  assert (x ∈ fl) as Hxf.
  { assert (x ∈ nodes fl) as [?|?]%elem_of_cons by (rewrite (rot_perm _ _ Hrot); left); done. }
  destruct R as [|pv R _] using rev_ind.
  { apply rot_perm, Permutation_length in Hrot. destruct fl; [by apply elem_of_nil in Hxf|done]. }
  pose proof (rot_prev _ (x :: R) pv Hrot) as Hrot'. destruct (rot_split _ _ _ _ _ Hrot' Hxb) as (n1 & n2 & Hno).
  fold (nodes fl) in Hno. assert (lst (x :: R ++ [pv]) = fst pv) as -> by (unfold lst; by rewrite app_comm_cons, last_snoc).
  destruct (take_links _ _ _ _ _ _ _ Ho Hno) as (_ & Hcp & Hcx & _).
  assert (x ∈ nodes fl) as Hx' by (by right). destruct (node_range _ _ _ _ Ho Hx') as (Hx1 & Hx2 & Hx3 & Hmx).
  assert (pv ∈ nodes fl) as Hpv by (rewrite Hno; apply elem_of_app; right; left).
  destruct (node_range _ _ _ _ Ho Hpv) as (Hp1 & Hp2 & Hp3 & Hmp).
  unfold malloc_loop. cbn [while_fuel]. rewrite run_assoc, run_bind, (run_rd _ _ _ _ Hmx Hcx). cbn [fst snd].
  rewrite (proj2 (Z.leb_le _ _)) by lia. rewrite !run_assoc, run_bind.
  destruct (Z.eqb_spec (snd x) n) as [Heq|Hne].
  - rewrite run_bind, (run_wr_ptr _ _ _ _ _ _ Hmp Hcp). cbn [run pbind modify].
    destruct (take_ok _ _ _ _ _ _ _ Ho Hno) as (fl' & Ho' & Hs').
    eexists _, _. split; [reflexivity|]. exists (fst x), fl'. split; [apply hplus_eq; unfold KERNBASE in *; lia|].
    replace (fst x, n) with x by (destruct x; cbn in *; congruence). done.
  - rewrite run_bind, (run_wr_size _ _ _ _ _ _ Hmx Hcx). cbv zeta.
    rewrite hplus_eq by (unfold KERNBASE in *; lia). rewrite u32_small by (unfold KERNBASE in *; lia). rewrite run_bind.
    pose proof (ho_range _ _ _ Ho) as Hrg. rewrite Forall_forall in Hrg. specialize (Hrg x (proj2 (elem_of_app _ _ _) (or_introl Hxf))).
    unfold wr_size at 1. rewrite run_wr by (rewrite mapped_set_cell; unfold mapped; lia).
    rewrite (u32_small n) by (unfold KERNBASE in *; lia). cbn [run pbind modify]. match goal with |- context [set_cell _ (?p, n) _] =>
      destruct (cut_ok _ _ _ _ _ _ _ n p Ho Hno) as (fl' & Ho' & Hs') end; [lia|].
    eexists _, _. split; [reflexivity|]. exists (fst x + 8 * (snd x - n)), fl'. split; [|split; [exact Ho'|exact Hs']].
    rewrite hplus_eq; unfold KERNBASE in *; lia.
Qed.

(** The loop passes over blocks that are too small. *)
Lemma run_scan m fl us n sc r fuel b :
  heap_ok m fl us -> rot (nodes fl) (sc ++ r) -> r <> [] -> Forall (fun x => snd x < n) sc -> um_freep m ∉ sc.*1 ->
  run (malloc_loop n (length sc + fuel) (lst (sc ++ r), first (sc ++ r) 0)) m b =
  run (malloc_loop n fuel (lst (r ++ sc), first (r ++ sc) 0)) m b.
Proof.
  intros Ho. revert r. induction sc as [|x sc IH]; intros r Hrot Hr Hs Hf; [by rewrite app_nil_r|].
  apply Forall_cons in Hs as [Hx Hs]. cbn in Hf. apply not_elem_of_cons in Hf as [Hfx Hf].
  assert (x ∈ nodes fl) as Hin by (rewrite (rot_perm _ _ Hrot); left). destruct (node_range _ _ _ _ Ho Hin) as (_ & _ & _ & Hm).
  destruct (cyc_rot _ _ _ Hrot (ho_ring _ _ _ Ho)) as [Hc _].
  cbn [length app Nat.add first] in *. unfold malloc_loop at 1. cbn [while_fuel]. rewrite run_assoc, run_bind, (run_rd _ _ _ _ Hm Hc). cbn [fst snd].
  rewrite (proj2 (Z.leb_gt _ _)) by lia. rewrite run_assoc, run_bind. cbn [run get].
  rewrite run_bind, (proj2 (Z.eqb_neq _ _)) by congruence. cbn [run].
  pose proof (rot_next _ _ _ Hrot) as Hrot'. rewrite <- app_assoc in Hrot'.
  specialize (IH (r ++ [x]) Hrot' ltac:(by destruct r) Hs Hf).
  replace (lst (sc ++ r ++ [x])) with (fst x) in IH by (unfold lst; by rewrite app_assoc, last_snoc).
  replace (first (sc ++ r ++ [x]) 0) with (first (sc ++ r) (fst x)) in IH by (rewrite app_assoc, (first_app (sc ++ r)); done).
  rewrite <- app_assoc in IH. cbn [app] in IH. rewrite <- IH. done.
Qed.

(** The ring from the block after [freep] on. *)
Lemma ring_from m fl us : heap_ok m fl us ->
  exists l f, fst f = um_freep m /\ rot (nodes fl) (l ++ [f]) /\ f ∈ nodes fl /\ um_freep m ∉ l.*1 /\
    um_cells m !! fst f = Some (first (l ++ [f]) 0, snd f).
Proof.
  intros Ho. pose proof (ho_freep _ _ _ Ho) as (f & Hf & Hin)%list_elem_of_fmap. destruct (rot_to _ _ Hin) as [l Hrot].
  exists l, f. split_and!; [done|by apply rot_next|done| |].
  - pose proof (sorted_NoDup _ _ _ Ho) as Hnd. rewrite (rot_perm _ _ Hrot), fmap_cons in Hnd.
    apply NoDup_cons in Hnd as [Hnd _]. by rewrite Hf.
  - destruct (cyc_rot _ _ _ Hrot (ho_ring _ _ _ Ho)) as [Hc _]. rewrite Hc. by destruct l.
Qed.

(** The first block that is large enough. *)
Lemma first_fit n (R : list blk) :
  Forall (fun x => snd x < n) R \/ exists sc x r, R = sc ++ x :: r /\ Forall (fun x => snd x < n) sc /\ n <= snd x.
Proof.
  induction R as [|y R IH]; [by left|]. destruct (decide (snd y < n)) as [Hy|Hy]; [|right; exists [], y, R; split_and!; [done|constructor|lia]].
  destruct IH as [IH|(sc & x & r & -> & Hs & Hx)]; [left; by constructor|].
  right. exists (y :: sc), x, r. split_and!; [done|by constructor|done].
Qed.

(** With a large enough block in the list, [malloc] takes one. *)
Lemma run_found m fl us n f l fuel b :
  heap_ok m fl us -> fst f = um_freep m -> rot (nodes fl) (l ++ [f]) -> um_freep m ∉ l.*1 ->
  0 < n -> (exists x, x ∈ nodes fl /\ n <= snd x) -> (length (nodes fl) <= fuel)%nat ->
  exists p m', run (malloc_loop n fuel (um_freep m, first (l ++ [f]) 0)) m b = Ok (p, m', b) /\ allocated us m m' n p.
Proof.
  intros Ho Hf Hrot Hl Hn (y & Hy & Hyn) Hfuel. destruct (first_fit n (l ++ [f])) as [Hall|(sc & x & r & Heq & Hs & Hx)].
  { rewrite (rot_perm _ _ Hrot) in Hy. rewrite Forall_forall in Hall. specialize (Hall y Hy). lia. }
  assert (um_freep m ∉ sc.*1) as Hsc.
  { destruct r as [|z r _] using rev_ind.
    - apply app_inj_tail in Heq as [-> _]. done.
    - rewrite app_comm_cons, app_assoc in Heq. apply app_inj_tail in Heq as [-> _].
      rewrite fmap_app in Hl. by apply not_elem_of_app in Hl as [? _]. }
  rewrite (rot_perm _ _ Hrot), Heq, length_app in Hfuel. cbn [length] in Hfuel.
  assert (um_freep m = lst (l ++ [f])) as -> by (unfold lst; by rewrite last_snoc).
  rewrite Heq in *. replace fuel with (length sc + S (fuel - length sc - 1))%nat by lia.
  rewrite (run_scan _ _ _ _ _ _ _ _ Ho Hrot) by done. cbn [app first]. apply (run_take _ fl); [done| |lia].
  by apply (rot_swap _ sc (x :: r)) in Hrot.
Qed.

(** The start of [malloc]: the ring of [base] alone, the first time. *)
Lemma run_malloc_start m fl us nbytes b :
  heap_inv m fl us ->
  exists m0, heap_ok m0 fl us /\ same_used us m m0 /\
    run (malloc nbytes) m b =
    run (malloc_loop (u32 (nbytes + 8 - 1) / 8 + 1) (2 * size (um_cells m0) + 4)
      (um_freep m0, fst (cell_of m0 (um_freep m0)))) m0 b.
Proof.
  intros Hi. pose proof ud_base_pos as Hb. pose proof ud_base_low as Hbl.
  assert (exists m0, heap_ok m0 fl us /\ same_used us m m0 /\
    run (if um_freep m =? 0 then modify (set_freep ud_base);;; wr ud_base (fun _ => (ud_base, 0)) else Ret tt) m b = Ok (tt, m0, b))
    as (m0 & Ho & Hs & Hr).
  { destruct Hi as [(Hf & -> & -> & Hbrk & Hk)|Ho].
    - rewrite Hf, Z.eqb_refl. exists (set_cell ud_base (ud_base, 0) (set_freep ud_base m)). split_and!.
      + split; [split; [apply lookup_insert_eq|done]|left|done|]. cbn. rewrite Hbrk.
        split; [repeat constructor|done|constructor|cbn; lia|done].
      + intros y c Hy. by apply elem_of_nil in Hy.
      + rewrite run_bind. cbn [run modify]. apply run_wr. unfold mapped. by rewrite Z.eqb_refl.
    - exists m. split; [done|]. split; [done|].
      pose proof (ho_freep _ _ _ Ho) as (f & -> & Hin)%list_elem_of_fmap. destruct (node_range _ _ _ _ Ho Hin).
      by rewrite (proj2 (Z.eqb_neq _ _)) by lia. }
  exists m0. split; [done|]. split; [done|]. unfold malloc. cbn [run pbind get]. rewrite run_bind, Hr. cbn [run pbind get].
  destruct (ring_from _ _ _ Ho) as (l & f & Hf & _ & Hin & _ & Hc). destruct (node_range _ _ _ _ Ho Hin) as (_ & _ & _ & Hm).
  rewrite <- Hf. rewrite run_bind, (run_rd_ptr _ _ _ _ _ Hm Hc). unfold cell_of. by rewrite Hc.
Qed.

(** [malloc] returns a block of its own, of at least [nbytes] bytes, or 0
    when the kernel refuses to grow the process; no block in use changes. *)
Lemma run_malloc `{GrowTotal} m fl us nbytes b :
  heap_inv m fl us -> 0 <= nbytes < KERNBASE - 15 ->
  exists p m' b', run (malloc nbytes) m b = Ok (p, m', b') /\
    (p = 0 /\ heap_ok m' fl us /\ same_used us m m' \/ allocated us m m' ((nbytes + 7) / 8 + 1) p).
Proof.
  intros Hi Hn. destruct (run_malloc_start _ _ _ nbytes b Hi) as (m0 & Ho & Hs & ->).
  rewrite u32_small by (unfold KERNBASE in *; lia). replace (nbytes + 8 - 1) with (nbytes + 7) by lia.
  set (n := (nbytes + 7) / 8 + 1). assert (countable n) as Hcn by (unfold countable, n, KERNBASE in *; lia).
  destruct (ring_from _ _ _ Ho) as (l & f & Hf & Hrot & Hin & Hl & Hc).
  replace (fst (cell_of m0 (um_freep m0))) with (first (l ++ [f]) 0) by (unfold cell_of; by rewrite <- Hf, Hc).
  pose proof (perm_lookup_size _ _ _ (sorted_NoDup _ _ _ Ho) (ho_ring _ _ _ Ho)) as Hlen.
  destruct (first_fit n (nodes fl)) as [Hall|(sc & x & r & Heq & _ & Hx)].
  - rewrite (rot_perm _ _ Hrot), length_app in Hlen. cbn [length] in Hlen.
    assert (um_freep m0 = lst (l ++ [f])) as Hlst by (unfold lst; by rewrite last_snoc). rewrite Hlst.
    replace (2 * size (um_cells m0) + 4)%nat with (length l + S (2 * size (um_cells m0) + 3 - length l))%nat by lia.
    rewrite (rot_perm _ _ Hrot) in Hall. apply Forall_app in Hall as [Hall Hfn]. apply Forall_cons in Hfn as [Hfn _].
    rewrite (run_scan _ _ _ _ _ _ _ _ Ho Hrot) by done. cbn [app first].
    destruct (node_range _ _ _ _ Ho Hin) as (_ & _ & _ & Hm).
    unfold malloc_loop at 1. cbn [while_fuel]. rewrite run_assoc, run_bind, (run_rd _ _ _ _ Hm Hc). cbn [fst snd].
    rewrite (proj2 (Z.leb_gt _ _)) by lia. rewrite run_assoc, run_bind. cbn [run get]. rewrite Hf, Z.eqb_refl, run_assoc, run_bind.
    destruct (run_morecore _ _ _ n b Ho Hcn) as (b' & [->|(m1 & fl1 & -> & Ho1 & Hs1 & Hl1 & Hx1)]).
    { exists 0, m0, b'. split; [done|]. left. done. }
    destruct (ring_from _ _ _ Ho1) as (l1 & f1 & Hf1 & Hrot1 & Hin1 & Hl1' & Hc1).
    destruct (node_range _ _ _ _ Ho1 Hin1) as (Hp1 & _ & _ & Hm1).
    rewrite run_bind, <- Hf1, (proj2 (Z.eqb_neq _ _)) by lia. rewrite run_bind, (run_rd_ptr _ _ _ _ _ Hm1 Hc1). cbn [run]. rewrite Hf1.
    destruct (run_found m1 fl1 us n f1 l1 (2 * size (um_cells m0) + 3 - length l)%nat b') as (p & m' & Hr & Ha);
      [done|done|done|done|apply Hcn| | |].
    + destruct Hx1 as (y & Hy & Hyn). exists y. split; [by right|done].
    + apply rot_perm, Permutation_length in Hrot. rewrite length_app in Hrot. cbn [length nodes] in *. lia.
    + exists p, m', b'. split; [exact Hr|]. right. eapply allocated_trans, Ha.
      intros y c Hy Hyc. by rewrite (Hs1 y c Hy Hyc), (Hs y c Hy Hyc).
  - destruct (run_found m0 fl us n f l (2 * size (um_cells m0) + 4)%nat b) as (p & m' & Hr & Ha);
      [done|done|done|done|apply Hcn| |lia|].
    + exists x. split; [|done]. rewrite Heq. apply elem_of_app. right. left.
    + exists p, m', b. split; [exact Hr|]. right. by eapply allocated_trans, Ha.
Qed.

(** ** What the allocator promises *)

Inductive uop :=
| UMalloc (nbytes : Z)
| UFree (p : Z)
| ULoad (p : Z) (i : nat)
| UStore (p : Z) (i : nat) (v : Z * Z).

Inductive ures :=
| RPtr (p : Z)
| RCell (c : Z * Z)
| RUnit.

Definition exec_op (op : uop) : prog growE umem ures :=
  match op with
  | UMalloc n => p <- malloc n;; Ret (RPtr p)
  | UFree p => free p;;; Ret RUnit
  | ULoad p i => c <- rd (p + 8 * Z.of_nat i);; Ret (RCell c)
  | UStore p i v => wr (p + 8 * Z.of_nat i) (fun _ => v);;; Ret RUnit
  end.

(** What a program may ask: it frees and touches only blocks it holds. *)
Definition allowed (A : aheap) (op : uop) : Prop :=
  match op with
  | UMalloc n => 0 <= n < KERNBASE - 15
  | UFree p => is_Some (A !! p)
  | ULoad p i | UStore p i _ => exists l, A !! p = Some l /\ (i < length l)%nat
  end.

(** [malloc] gives nothing, or a new block of at least [n] bytes that
    overlaps no block the program holds; [free] takes one block away; a load
    sees what the last store left. *)
Inductive aspec (A : aheap) : uop -> ures -> aheap -> Prop :=
| spec_nomem n : aspec A (UMalloc n) (RPtr 0) A
| spec_malloc n p l :
    0 < p -> n <= 8 * Z.of_nat (length l) -> A !! p = None ->
    (forall p' l', A !! p' = Some l' -> p + 8 * Z.of_nat (length l) <= p' \/ p' + 8 * Z.of_nat (length l') <= p) ->
    aspec A (UMalloc n) (RPtr p) (<[p := l]> A)
| spec_free p : aspec A (UFree p) RUnit (delete p A)
| spec_load p i l c : A !! p = Some l -> l !! i = Some c -> aspec A (ULoad p i) (RCell c) A
| spec_store p i v l : A !! p = Some l -> aspec A (UStore p i v) RUnit (<[p := <[i := v]> l]> A).

Definition payload m (x : blk) : list (Z * Z) :=
  (fun i => cell_of m (fst x + 8 * i)) <$> seqZ 1 (snd x - 1).

Definition holds m us (A : aheap) : Prop :=
  forall p l, A !! p = Some l <-> exists n, (p - 8, n) ∈ us /\ l = payload m (p - 8, n).

Definition heap_rep m (A : aheap) : Prop := exists fl us, heap_inv m fl us /\ holds m us A.

Lemma length_payload m x : 0 < snd x -> length (payload m x) = Z.to_nat (snd x - 1).
Proof. intros. unfold payload. by rewrite length_fmap, length_seqZ. Qed.

Lemma payload_same m m' us x : same_used us m m' -> x ∈ us -> payload m' x = payload m x.
Proof.
  intros Hs Hx. unfold payload. apply list_fmap_ext. intros i j Hj. apply lookup_seqZ in Hj as [-> Hj].
  unfold cell_of. rewrite (Hs x) by (try done; lia). done.
Qed.

Lemma used_fun m fl us a n n' : heap_ok m fl us -> (a, n) ∈ us -> (a, n') ∈ us -> n = n'.
Proof.
  intros Ho Hn Hn'. pose proof (ho_used _ _ _ Ho) as Hu. rewrite Forall_forall in Hu.
  destruct (Hu _ Hn) as [p Hp], (Hu _ Hn') as [p' Hp']. cbn [fst snd] in *. congruence.
Qed.

Lemma rep_used m A p l : heap_rep m A -> A !! p = Some l ->
  exists fl us n, heap_ok m fl ((p - 8, n) :: us) /\ holds m ((p - 8, n) :: us) A /\ l = payload m (p - 8, n).
Proof.
  intros (fl & us & Hi & Hh) Hp. destruct (proj1 (Hh p l) Hp) as (n & Hin & ->).
  destruct Hi as [(_ & _ & -> & _)|Ho]; [by apply elem_of_nil in Hin|].
  apply list_elem_of_split in Hin as (u1 & u2 & ->).
  assert (u1 ++ (p - 8, n) :: u2 ≡ₚ (p - 8, n) :: u1 ++ u2) as Hpm by by rewrite <- Permutation_middle.
  exists fl, (u1 ++ u2), n. split; [by eapply heap_ok_perm|]. split; [|done].
  intros p' l'. rewrite (Hh p' l'). by setoid_rewrite Hpm.
Qed.

Lemma exec_malloc `{GrowTotal} m A n b :
  heap_rep m A -> 0 <= n < KERNBASE - 15 ->
  exists p m' b' A', run (malloc n) m b = Ok (p, m', b') /\ aspec A (UMalloc n) (RPtr p) A' /\ heap_rep m' A'.
Proof.
  intros (fl & us & Hi & Hh) Hn. destruct (run_malloc _ _ _ n b Hi Hn) as (p & m' & b' & Hr & Hc).
  destruct Hc as [(-> & Ho & Hs)|(a & fl' & -> & Ho & Hs)].
  - exists 0, m', b', A. split_and!; [done|constructor|]. exists fl, us. split; [by right|].
    intros p l. rewrite (Hh p l). split; intros (k & Hk & ->); exists k; (split; [done|]);
      [symmetry|]; by apply (payload_same _ _ us).
  - set (k := (n + 7) / 8 + 1) in *. exists (a + 8), m', b', (<[a + 8 := payload m' (a, k)]> A). split; [done|].
    pose proof ud_base_pos. pose proof ud_base_low. destruct (block_range _ _ _ _ _ Ho) as (Hk & Ha & _ & _).
    assert (forall q l, A !! q = Some l -> exists n', (q - 8, n') ∈ us /\ l = payload m' (q - 8, n') /\ q - 8 <> a /\ 0 < n' /\ apart (a, k) (q - 8, n')) as HA.
    { intros q l Hq. apply Hh in Hq as (n' & Hin & ->). exists n'. destruct (used_other _ _ _ _ _ _ Ho Hin) as [? ?].
      destruct (used_range _ _ _ (q - 8, n') Ho) as (? & _); [by right|].
      split_and!; try done. symmetry. by apply (payload_same _ _ us). }
    split.
    + constructor; [lia| | |].
      * rewrite length_payload by done. cbn [snd]. unfold k. lia.
      * apply eq_None_not_Some. intros (l & Hl). apply HA in Hl as (? & _ & _ & ? & _). lia.
      * intros q l Hq. apply HA in Hq as (n' & Hin & -> & Hne & Hn' & Hap). rewrite !length_payload by done.
        unfold apart in Hap. cbn [fst snd] in *. lia.
    + exists fl', ((a, k) :: us). split; [by right|]. intros q l. destruct (decide (q = a + 8)) as [->|Hne].
      * rewrite lookup_insert_eq. replace (a + 8 - 8) with a by lia. split.
        -- intros [= <-]. exists k. split; [left|done].
        -- intros (n' & Hin & ->). by rewrite (used_fun _ _ _ a k n' Ho ltac:(left) Hin).
      * rewrite lookup_insert_ne by done. split.
        -- intros Hq. apply HA in Hq as (n' & Hin & -> & _). exists n'. split; [by right|done].
        -- intros (n' & [?|Hin]%elem_of_cons & ->); [simplify_eq; lia|]. apply Hh. exists n'. split; [done|].
           by apply (payload_same _ _ us).
Qed.

Lemma exec_free m A p b :
  heap_rep m A -> is_Some (A !! p) ->
  exists m', run (free p) m b = Ok (tt, m', b) /\ heap_rep m' (delete p A).
Proof.
  intros Hrep [l Hp]. destruct (rep_used _ _ _ _ Hrep Hp) as (fl & us & n & Ho & Hh & ->).
  destruct (run_free _ _ _ _ _ b Ho) as (m' & fl' & Hr & Ho' & _ & Hs & _). exists m'.
  replace (p - 8 + 8) with p in Hr by lia. split; [done|]. exists fl', us. split; [by right|]. intros q l.
  rewrite lookup_delete_Some, (Hh q l). split.
  - intros (Hne & k & [?|Hin]%elem_of_cons & ->); [simplify_eq; lia|]. exists k. split; [done|].
    symmetry. by apply (payload_same _ _ us).
  - intros (k & Hin & ->). destruct (used_other _ _ _ _ _ _ Ho Hin) as [_ Hne]. cbn [fst] in Hne.
    split; [intros ->; lia|]. exists k. split; [by right|]. by apply (payload_same _ _ us).
Qed.

Lemma run_cell m fl us a n (i : nat) :
  heap_ok m fl ((a, n) :: us) -> (i < length (payload m (a, n)))%nat ->
  let c := a + 8 + 8 * Z.of_nat i in
  mapped m c = true /\ a < c < a + 8 * n /\ payload m (a, n) !! i = Some (cell_of m c).
Proof.
  intros Ho Hi c. destruct (block_range _ _ _ _ _ Ho) as (Hn & Ha & Hb & _).
  rewrite length_payload in Hi by done. cbn [snd] in Hi. unfold c. split_and!; [unfold mapped; lia|lia..|].
  unfold payload. rewrite list_lookup_fmap. cbn [fst snd].
  rewrite (proj2 (lookup_seqZ 1 (n - 1) i (1 + Z.of_nat i))) by lia. cbn. do 2 f_equal. lia.
Qed.

(** Writing inside a block in use leaves the allocator's structure alone. *)
Lemma store_ok m fl us a n c v :
  heap_ok m fl ((a, n) :: us) -> a < c < a + 8 * n ->
  heap_ok (set_cell c v m) fl ((a, n) :: us) /\ same_used us m (set_cell c v m).
Proof.
  intros Ho Hc. destruct (used_cell _ _ _ (a, n) c Ho) as [_ Hcn]; [left|cbn; lia|].
  assert (forall y k, y ∈ us -> fst y <= k < fst y + 8 * snd y -> c <> k) as Hk.
  { intros y k Hy Hyk ->. destruct (used_other _ _ _ _ _ _ Ho Hy) as [Hap _]. unfold apart in Hap. cbn [fst snd] in Hap. lia. }
  split.
  - split; [by apply chain_other; [|exact (ho_ring _ _ _ Ho)]|exact (ho_freep _ _ _ Ho)| |exact (ho_geom _ _ _ Ho)].
    eapply used_kept; [exact (ho_used _ _ _ Ho)|]. intros y Hy. cbn. apply lookup_insert_ne.
    apply elem_of_cons in Hy as [->|Hy]; [cbn; lia|]. apply (Hk y); [done|].
    destruct (used_range _ _ _ y Ho) as (? & _); [by right|]. lia.
  - intros y k Hy Hyk. cbn. apply lookup_insert_ne. by apply (Hk y).
Qed.

Lemma exec_load m A p i l b :
  heap_rep m A -> A !! p = Some l -> (i < length l)%nat ->
  exists c, run (rd (p + 8 * Z.of_nat i)) m b = Ok (c, m, b) /\ l !! i = Some c.
Proof.
  intros Hrep Hp Hi. destruct (rep_used _ _ _ _ Hrep Hp) as (fl & us & n & Ho & Hh & ->).
  destruct (run_cell _ _ _ _ _ _ Ho Hi) as (Hm & _ & Hc). replace (p - 8 + 8) with p in * by lia.
  eexists. split; [|exact Hc]. unfold rd. cbn [run pbind get]. by rewrite Hm.
Qed.

Lemma exec_store m A p i v l b :
  heap_rep m A -> A !! p = Some l -> (i < length l)%nat ->
  exists m', run (wr (p + 8 * Z.of_nat i) (fun _ => v)) m b = Ok (tt, m', b) /\ heap_rep m' (<[p := <[i := v]> l]> A).
Proof.
  intros Hrep Hp Hi. destruct (rep_used _ _ _ _ Hrep Hp) as (fl & us & n & Ho & Hh & ->).
  destruct (run_cell _ _ _ _ _ _ Ho Hi) as (Hm & Hc & _). replace (p - 8 + 8) with p in * by lia.
  destruct (store_ok _ _ _ _ _ _ v Ho Hc) as [Ho' Hs]. eexists. split; [by apply run_wr|].
  exists fl, ((p - 8, n) :: us). split; [by right|]. intros q l. destruct (decide (q = p)) as [->|Hne].
  - rewrite lookup_insert_eq.
    assert (payload (set_cell (p + 8 * Z.of_nat i) v m) (p - 8, n) = <[i := v]> (payload m (p - 8, n))) as Hpay.
    { apply list_eq. intros j. destruct (block_range _ _ _ _ _ Ho) as (Hn & _). unfold payload. cbn [fst snd].
      rewrite list_lookup_fmap. destruct (decide (i = j)) as [->|Hij].
      - rewrite list_lookup_insert_eq by done. rewrite length_payload in Hi by done. cbn [snd] in Hi.
        rewrite (proj2 (lookup_seqZ 1 (n - 1) j (1 + Z.of_nat j))) by lia. cbn. unfold cell_of. cbn.
        replace (p - 8 + 8 * (1 + Z.of_nat j)) with (p + 8 * Z.of_nat j) by lia. by rewrite lookup_insert_eq.
      - rewrite list_lookup_insert_ne by done. rewrite list_lookup_fmap. destruct (seqZ 1 (n - 1) !! j) as [x|] eqn:Hx; [|done].
        apply lookup_seqZ in Hx as [-> _]. cbn. unfold cell_of. cbn. by rewrite lookup_insert_ne by lia. }
    split.
    + intros [= <-]. exists n. split; [left|done].
    + intros (n' & Hin & ->). by rewrite <- (used_fun _ _ _ _ n n' Ho' ltac:(left) Hin), Hpay.
  - rewrite lookup_insert_ne by done. rewrite (Hh q l).
    split; intros (k & [?|Hin]%elem_of_cons & ->); (simplify_eq; try lia); exists k; (split; [by right|]); [symmetry|];
      by apply (payload_same _ _ us).
Qed.
End UmallocFacts.

(** Free blocks that fill the heap and do not touch are one block. *)
Lemma gaps_length x fl brk :
  StronglySorted gap (x :: fl) -> Forall (fun y => fst y + 8 * snd y <= brk) (x :: fl) ->
  fst x + 8 * total (x :: fl) + Z.of_nat (length fl) <= brk.
Proof.
  revert x. induction fl as [|y fl IH]; intros x Hs [Hx Hr]%Forall_cons.
  - rewrite total_cons. cbn. lia.
  - apply StronglySorted_cons in Hs as [[Hxy _]%Forall_cons Hs]. specialize (IH y Hs Hr). unfold gap in Hxy.
    rewrite total_cons in *. rewrite total_cons. cbn [length]. lia.
Qed.

Lemma whole_heap `{UserDataOk} fl brk :
  geom fl [] brk -> fl = [] \/ exists n, fl = [(ud_heap, n)] /\ brk = ud_heap + 8 * n.
Proof.
  intros [Hs _ Hr Ht _]. rewrite app_nil_r in *. destruct fl as [|[a n] fl]; [by left|right].
  apply StronglySorted_cons in Hs as [_ Hs]. pose proof (gaps_length _ _ brk Hs) as Hg.
  assert (ud_heap <= a) as Ha by (by apply Forall_cons in Hr as [(_ & ? & _) _]).
  destruct fl as [|y fl].
  - cbn in *. exists n. assert (a = ud_heap) as ->; [|split; [done|lia]].
    assert (Forall (fun y : blk => fst y + 8 * snd y <= brk) [(a, n)]) as Hf by (eapply Forall_impl; [exact Hr|cbn; lia]).
    specialize (Hg Hf). lia.
  - assert (Forall (fun y : blk => fst y + 8 * snd y <= brk) ((a, n) :: y :: fl)) as Hf by (eapply Forall_impl; [exact Hr|cbn; lia]).
    specialize (Hg Hf). cbn [fst length] in Hg. lia.
Qed.

(** ** Programs that use the heap *)

(** What a program does with the heap: take a block, fill cell [j] of the
    [i]-th block it holds, or give the [i]-th block back. *)
Inductive act := ATake (nbytes : Z) | AFill (i j : nat) (v : Z * Z) | AGive (i : nat).

Section Sessions.
Context `{UserData}.

(** [held]: the pointers it has, with the sizes it asked for. *)
Fixpoint use_heap (l : list act) (held : list (Z * Z)) : prog growE umem (list (Z * Z)) :=
  match l with
  | [] => Ret held
  | ATake n :: l => p <- malloc n;; use_heap l (if p =? 0 then held else held ++ [(p, n)])
  | AFill i j v :: l =>
      match held !! i with
      | Some (p, n) => (if 8 * (Z.of_nat j + 1) <=? n then wr (p + 8 * Z.of_nat j) (fun _ => v) else Ret tt);;; use_heap l held
      | None => use_heap l held
      end
  | AGive i :: l =>
      match held !! i with
      | Some (p, _) => free p;;; use_heap l (delete i held)
      | None => use_heap l held
      end
  end.

(** At the end it gives back what it still has. *)
Definition session (l : list act) : prog growE umem unit :=
  held <- use_heap l [];;
  for_each held (fun '(p, _) => free p).
End Sessions.

(** The program holds exactly the blocks in use. *)
Record held_rep (A : aheap) (held : list (Z * Z)) : Prop := {
  hr_nodup : NoDup held.*1;
  hr_dom : forall p, is_Some (A !! p) <-> p ∈ held.*1;
  hr_size : forall p n l, (p, n) ∈ held -> A !! p = Some l -> n <= 8 * Z.of_nat (length l);
}.

Lemma held_take A held n p A' : held_rep A held -> aspec A (UMalloc n) (RPtr p) A' -> held_rep A' (if p =? 0 then held else held ++ [(p, n)]).
Proof.
  intros Hh Hs. inversion Hs as [|n' p' l Hp Hn Hnew Hap| | |]; subst; [done|]. rewrite (proj2 (Z.eqb_neq p 0)) by lia. destruct Hh as [Hnd Hd Hsz].
  assert (p ∉ held.*1) as Hnin by (rewrite <- Hd, Hnew; by intros [? [=]]). split.
  - rewrite fmap_app. apply NoDup_app. split_and!; [done| |apply NoDup_singleton]. intros x Hx Hx'. apply list_elem_of_singleton in Hx'. by subst x.
  - intros q. rewrite fmap_app, elem_of_app. cbn. rewrite list_elem_of_singleton, <- Hd.
    destruct (decide (q = p)) as [->|Hne]; [rewrite lookup_insert_eq; split; [by right|by eexists]|]. rewrite lookup_insert_ne by done. naive_solver.
  - intros q k l' Hq Hl. apply elem_of_app in Hq as [Hq|Hq%list_elem_of_singleton].
    + assert (q <> p) by (intros ->; apply Hnin, list_elem_of_fmap; by exists (p, k)). rewrite lookup_insert_ne in Hl by done. by eapply Hsz.
    + simplify_eq. rewrite lookup_insert_eq in Hl. by simplify_eq.
Qed.

Lemma held_fill A held p n i v l : held_rep A held -> (p, n) ∈ held -> A !! p = Some l -> held_rep (<[p := <[i := v]> l]> A) held.
Proof.
  intros [Hnd Hd Hsz] Hin Hp. split; [done| |].
  - intros q. rewrite <- Hd. destruct (decide (q = p)) as [->|Hne]; [rewrite lookup_insert_eq, Hp; split; by eexists|by rewrite lookup_insert_ne].
  - intros q k l' Hq Hl. destruct (decide (q = p)) as [->|Hne]; [|rewrite lookup_insert_ne in Hl by done; by eapply Hsz].
    rewrite lookup_insert_eq in Hl. simplify_eq. rewrite length_insert. by eapply Hsz.
Qed.

Lemma held_give A held i p n : held_rep A held -> held !! i = Some (p, n) -> held_rep (delete p A) (delete i held).
Proof.
  intros [Hnd Hd Hsz] Hi. pose proof (delete_Permutation _ _ _ Hi) as Hp.
  assert (held.*1 ≡ₚ p :: (delete i held).*1) as Hp1 by (by rewrite Hp at 1).
  rewrite Hp1 in Hnd. apply NoDup_cons in Hnd as [Hnin Hnd]. split; [done| |].
  - intros q. pose proof (Hd q) as Hq. rewrite Hp1, elem_of_cons in Hq. destruct (decide (q = p)) as [->|Hne].
    + rewrite lookup_delete_eq. split; [by intros [? [=]]|done].
    + rewrite lookup_delete_ne by done. naive_solver.
  - intros q k l Hq Hl. apply lookup_delete_Some in Hl as [_ Hl]. eapply Hsz, Hl. rewrite Hp. by right.
Qed.

Section UmallocSessions.
Context `{UserDataOk} {B : Type} `{Store growE B} `{!GrowTotal}.

Lemma run_use_heap l : forall held m (b : B) A, heap_rep m A -> held_rep A held ->
  Forall (fun a => match a with ATake n => 0 <= n < KERNBASE - 15 | _ => True end) l ->
  exists held' m' b' A', run (use_heap l held) m b = Ok (held', m', b') /\ heap_rep m' A' /\ held_rep A' held'.
Proof.
  induction l as [|[n|i j v|i] l IH]; intros held m b A Hm Hh Hl; [by exists held, m, b, A|apply Forall_cons in Hl as [Ha Hl]; cbn [use_heap]..].
  - destruct (exec_malloc m A n b Hm Ha) as (p & m1 & b1 & A1 & Hr & Hs & Hm1). rewrite run_bind, Hr. apply (IH _ m1 b1 A1); [done|by eapply held_take|done].
  - destruct (held !! i) as [[p n]|] eqn:Hi; [|by apply (IH _ _ _ A)]. apply list_elem_of_lookup_2 in Hi as Hin.
    destruct (Z.leb_spec (8 * (Z.of_nat j + 1)) n) as [Hj|Hj]; [|by apply (IH _ _ _ A)].
    assert (is_Some (A !! p)) as [c Hp] by (apply (hr_dom _ _ Hh), list_elem_of_fmap; by exists (p, n)).
    pose proof (hr_size _ _ Hh p n c Hin Hp) as Hn.
    destruct (exec_store m A p j v c b Hm Hp) as (m1 & Hr & Hm1); [lia|]. rewrite run_bind, Hr. apply (IH _ m1 b (<[p := <[j := v]> c]> A)); [done|by eapply held_fill|done].
  - destruct (held !! i) as [[p n]|] eqn:Hi; [|by apply (IH _ _ _ A)]. apply list_elem_of_lookup_2 in Hi as Hin.
    destruct (exec_free m A p b Hm) as (m1 & Hr & Hm1); [apply (hr_dom _ _ Hh), list_elem_of_fmap; by exists (p, n)|].
    rewrite run_bind, Hr. apply (IH _ m1 b (delete p A)); [done|by eapply held_give|done].
Qed.

Lemma run_free_all held : forall m (b : B) A, heap_rep m A -> held_rep A held ->
  exists m', run (for_each held (fun '(p, _) => free p)) m b = Ok (tt, m', b) /\ heap_rep m' ∅.
Proof.
  induction held as [|[p n] held IH]; intros m b A Hm Hh; cbn [for_each].
  - exists m. split; [done|]. assert (A = ∅) as ->; [|done]. apply map_empty. intros p. apply eq_None_not_Some. intros Hp%(hr_dom _ _ Hh). by apply elem_of_nil in Hp.
  - destruct (exec_free m A p b Hm) as (m1 & Hr & Hm1); [apply (hr_dom _ _ Hh); left|]. rewrite run_bind, Hr.
    apply (IH m1 b (delete p A)); [done|]. by apply (held_give A ((p, n) :: held) 0 p n).
Qed.
End UmallocSessions.

(** A heap without blocks in use is one free block. *)
Lemma empty_heap `{UserDataOk} (m : umem) :
  heap_rep m ∅ -> um_brk m <> ud_heap ->
  um_cells m !! ud_base = Some (ud_heap, 0) /\
  um_cells m !! ud_heap = Some (ud_base, (um_brk m - ud_heap) / 8).
Proof.
  intros (fl & us & Hi & Hh) Hb. destruct Hi as [(_ & _ & _ & ? & _)|Ho]; [done|].
  assert (us = []) as ->.
  { destruct us as [|[a n] us]; [done|]. assert ((∅ : aheap) !! (a + 8) = Some (payload m (a, n))) as Hf; [|done].
    apply Hh. exists n. replace (a + 8 - 8) with a by lia. split; [left|done]. }
  destruct (whole_heap _ _ (ho_geom _ _ _ Ho)) as [->|(n & -> & Hn)].
  - pose proof (ho_total _ _ _ Ho) as Ht. cbn in Ht. lia.
  - destruct (ho_ring _ _ _ Ho) as (Hc1 & Hc2 & _). cbn [fst snd first] in *. replace ((um_brk m - ud_heap) / 8) with n by lia. done.
Qed.

Lemma empty_rep `{UserData} : ud_heap < KERNBASE -> heap_rep (mkumem ∅ ud_heap 0) ∅.
Proof.
  intros Hk. exists [], []. split; [by left|]. intros p l. rewrite lookup_empty. split; [done|]. by intros (n & []%elem_of_nil & _).
Qed.

Lemma empty_held : held_rep ∅ [].
Proof. split; [constructor| |]; [intros p; rewrite lookup_empty; split; [by intros [? [=]]|by intros ?%elem_of_nil]|by intros p n l ?%elem_of_nil]. Qed.

Section UmallocClaims.
Context `{UserDataOk} {B : Type} `{Store growE B} `{!GrowTotal}.

(** C27: the allocator implements its contract.  From any state that holds
    the blocks [A], whatever a program may ask - allocating, freeing, loading
    from and storing to blocks it holds - returns, without touching memory
    outside the heap: a new block overlaps none of the blocks in use and is
    large enough, and every block keeps its contents until it is freed. *)
Theorem malloc_refines (m : umem) (b : B) (A : aheap) (op : uop) :
  heap_rep m A -> allowed A op ->
  exists r m' b' A', run (exec_op op) m b = Ok (r, m', b') /\ aspec A op r A' /\ heap_rep m' A'.
Proof.
  intros Hrep Hal. destruct op as [n|p|p i|p i v]; cbn [exec_op allowed] in *.
  - destruct (exec_malloc m A n b Hrep Hal) as (p & m' & b' & A' & Hr & Hs & Hrep').
    exists (RPtr p), m', b', A'. by rewrite run_bind, Hr.
  - destruct (exec_free m A p b Hrep Hal) as (m' & Hr & Hrep'). exists RUnit, m', b, (delete p A).
    rewrite run_bind, Hr. split_and!; [done|constructor|done].
  - destruct Hal as (l & Hp & Hi). destruct (exec_load m A p i l b Hrep Hp Hi) as (c & Hr & Hc).
    exists (RCell c), m, b, A. rewrite run_bind, Hr. split_and!; [done|by econstructor|done].
  - destruct Hal as (l & Hp & Hi). destruct (exec_store m A p i v l b Hrep Hp Hi) as (m' & Hr & Hrep').
    exists RUnit, m', b, (<[p := <[i := v]> l]> A). rewrite run_bind, Hr. split_and!; [done|by constructor|done].
Qed.

(** C28: nothing leaks and nothing stays fragmented.  A program starts with an
    empty heap below KERNBASE and calls [malloc] and [free] in any order (with sizes below
    KERNBASE - 15, freeing only what it holds) and writes into its blocks;
    at the end it frees the rest.  Whatever the kernel answers to its requests
    for memory, all these calls return; and then, if the heap has grown at
    all, the free list is [base] and one block that is the whole heap. *)
Theorem malloc_coalesced (l : list act) (b : B) :
  ud_heap < KERNBASE -> Forall (fun a => match a with ATake n => 0 <= n < KERNBASE - 15 | _ => True end) l ->
  exists m b', run (session l) (mkumem ∅ ud_heap 0) b = Ok (tt, m, b') /\
    (um_brk m = ud_heap \/
     um_cells m !! ud_base = Some (ud_heap, 0) /\ um_cells m !! ud_heap = Some (ud_base, (um_brk m - ud_heap) / 8)).
Proof.
  intros Hk Hl. destruct (run_use_heap l [] (mkumem ∅ ud_heap 0) b ∅ (empty_rep Hk) empty_held Hl) as (held & m1 & b1 & A & Hr & Hm1 & Hh).
  destruct (run_free_all held m1 b1 A Hm1 Hh) as (m & Hf & Hm). exists m, b1. unfold session. rewrite run_bind, Hr. split; [done|].
  destruct (decide (um_brk m = ud_heap)) as [|Hb]; [by left|right]. by apply empty_heap.
Qed.
End UmallocClaims.

(** A process whose kernel grants the first requests for memory. *)
#[global] Instance demo_data : UserData := { ud_base := 0xc00; ud_heap := 0x4000 }.

#[global] Instance demo_data_ok : UserDataOk.
Proof. split; vm_compute; congruence. Qed.

#[global] Instance grants : Store growE (list bool) := {
  st_step X (e : growE X) s :=
    match e in growE X return outcome (X * list bool) with
    | EGrow _ => Ok (default false (head s), tail s)
    end;
  st_trace X e s := [];
  st_disk s := ∅;
}.

#[global] Instance grants_total : GrowTotal.
Proof. intros n b. eexists _, _. reflexivity. Qed.

Definition umem0 : umem := mkumem ∅ ud_heap 0.

Lemma umem0_rep : heap_rep umem0 ∅.
Proof. by apply empty_rep. Qed.

Lemma malloc_refines_witness :
  exists r m' b' A', run (exec_op (UMalloc 100)) umem0 [true] = Ok (r, m', b') /\ aspec ∅ (UMalloc 100) r A' /\ heap_rep m' A'.
Proof. apply (malloc_refines umem0 [true] ∅ (UMalloc 100) umem0_rep). vm_compute. split; congruence. Defined.

(** Three blocks, taken, filled and given back out of order *)
Lemma malloc_coalesced_witness :
  exists m b', run (session [ATake 100; ATake 40000; AFill 0 3 (7, 7); ATake 8; AGive 1; ATake 16; AGive 0]) umem0 [true; true] = Ok (tt, m, b') /\
    um_cells m !! ud_heap = Some (ud_base, (um_brk m - ud_heap) / 8).
Proof.
  destruct (malloc_coalesced [ATake 100; ATake 40000; AFill 0 3 (7, 7); ATake 8; AGive 1; ATake 16; AGive 0] [true; true]) as (m & b' & Hr & Hc).
  - by vm_compute.
  - repeat constructor; vm_compute; congruence.
  - exists m, b'. split; [exact Hr|]. destruct Hc as [Hb|[_ Hc]]; [|exact Hc]. vm_compute in Hr. injection Hr as <- _. vm_compute in Hb. discriminate Hb.
Defined.
