(* ===== verification/Spinlock.v ===== *)
(** * Spin locks: [spinlock.c]

    Several CPUs run [acquire] and [release] statement by statement, in any
    interleaving; [xchg] is atomic.  A CPU with interrupts enabled may be
    interrupted between any two statements, and the handler may take locks
    of its own.  [getcallerpcs], which records the call stack for debugging,
    is not part of the state. *)

From stdpp Require Import base gmap strings numbers list.
From S2P Require Import Prelude.

Abbreviation lockid := nat.

Record spinlock := mklock { locked : Z; lcpu : option nat }.

Definition initlock : spinlock := mklock 0 None.

(** The part of [struct cpu] and of the flags register the locks use. *)
Record cpu := mkcpu { fl_if : bool; ncli : Z; intena : bool }.

(** Pushcli/popcli are like cli/sti except that they are matched. *)
Definition pushcli (r : cpu) : cpu :=
  mkcpu false (ncli r + 1) (if ncli r =? 0 then fl_if r else intena r).

Definition popcli (r : cpu) : outcome cpu :=
  if fl_if r then Fail (Panic "popcli - interruptible")
  else
    let n := ncli r - 1 in
    if n <? 0 then Fail (Panic "popcli")
    else Ok (mkcpu ((n =? 0) && intena r) n (intena r)).

(** Check whether this cpu is holding the lock. *)
Definition holding (c : nat) (lk : spinlock) : bool :=
  negb (locked lk =? 0) && bool_decide (lcpu lk = Some c).

(** Where an activity (a process in the kernel, or an interrupt handler) is:
    outside the lock code, or before a statement of [acquire(l)] or
    [release(l)]. *)
Inductive pc :=
| Outside
| AcqCheck (l : lockid)      (* after pushcli, before the check *)
| AcqSpin (l : lockid)       (* before the xchg of the loop *)
| AcqRecord (l : lockid)     (* the lock is ours; before lk->cpu = cpu *)
| RelClear (l : lockid)      (* checked; before lk->cpu = 0 *)
| RelXchg (l : lockid)       (* before xchg(&lk->locked, 0) *)
| RelPop (l : lockid).       (* before popcli *)

Record act := mkact { held : list lockid; at_ : pc }.

(** A CPU runs the first activity of its stack; it has interrupted the
    others. *)
Record core := mkcore { regs : cpu; stack : list act }.

Record smp := mksmp { cores : list core; locks : gmap lockid spinlock }.

Definition lock_of (s : smp) (l : lockid) : spinlock := default initlock (locks s !! l).
Definition set_lock (l : lockid) (lk : spinlock) (s : smp) : smp := mksmp (cores s) (<[l := lk]> (locks s)).
Definition set_core (c : nat) (k : core) (s : smp) : smp := mksmp (<[c := k]> (cores s)) (locks s).

(** What a CPU does next. *)
Inductive action :=
| Acquire (l : lockid)   (* call acquire(l) *)
| Release (l : lockid)   (* call release(l) *)
| Next                   (* execute the next statement of the call *)
| Interrupt              (* an interrupt arrives *)
| Iret.                  (* the handler returns *)

Section Step.
Context (s : smp) (c : nat) (r : cpu) (a : act) (rest : list act).

(** The CPU moves to [p], with registers [r'] and locks [h]. *)
Definition moved (r' : cpu) (h : list lockid) (p : pc) : smp :=
  set_core c (mkcore r' (mkact h p :: rest)) s.

Definition call (x : action) : outcome smp :=
  match x with
  | Acquire l => Ok (moved (pushcli r) (held a) (AcqCheck l))
  | Release l =>
      if negb (holding c (lock_of s l)) then Fail (Panic "release")
      else Ok (moved r (filter (.≠ l) (held a)) (RelClear l))
  | Interrupt =>
      (* an interrupt gate clears IF *)
      if fl_if r then Ok (set_core c (mkcore (mkcpu false (ncli r) (intena r)) (mkact [] Outside :: a :: rest)) s)
      else Ok s
  | Iret =>
      match rest with
      | [] => Ok s
      | _ => Ok (set_core c (mkcore (mkcpu true (ncli r) (intena r)) rest) s)
      end
  | Next => Ok s
  end.

Definition next : outcome smp :=
  match at_ a with
  | Outside => Ok s
  | AcqCheck l =>
      if holding c (lock_of s l) then Fail (Panic "acquire") else Ok (moved r (held a) (AcqSpin l))
  | AcqSpin l =>
      let old := locked (lock_of s l) in
      Ok (set_lock l (mklock 1 (lcpu (lock_of s l))) (moved r (held a) (if old =? 0 then AcqRecord l else AcqSpin l)))
  | AcqRecord l => Ok (set_lock l (mklock (locked (lock_of s l)) (Some c)) (moved r (l :: held a) Outside))
  | RelClear l => Ok (set_lock l (mklock (locked (lock_of s l)) None) (moved r (held a) (RelXchg l)))
  | RelXchg l => Ok (set_lock l (mklock 0 (lcpu (lock_of s l))) (moved r (held a) (RelPop l)))
  | RelPop l =>
      match popcli r with
      | Ok r' => Ok (moved r' (held a) Outside)
      | Fail e => Fail e
      end
  end.
End Step.

Definition step (s : smp) (c : nat) (x : action) : outcome smp :=
  match cores s !! c with
  | Some (mkcore r (a :: rest)) =>
      match at_ a, x with
      | Outside, _ => call s c r a rest x
      | _, Interrupt => call s c r a rest Interrupt
      | _, Next => next s c r a rest
      | _, _ => Ok s
      end
  | _ => Ok s
  end.

(** What callers owe: an activity acquires a lock it does not hold, releases
    one it does, and a handler returns without locks. *)
Definition proper (s : smp) (c : nat) (x : action) : Prop :=
  match cores s !! c with
  | Some (mkcore _ (a :: _)) =>
      match x with
      | Acquire l => l ∉ held a
      | Release l => l ∈ held a
      | Iret => held a = []
      | _ => True
      end
  | _ => True
  end.

Inductive reach (s0 : smp) : smp -> Prop :=
| reach_refl : reach s0 s0
| reach_step s c x s' : reach s0 s -> proper s c x -> step s c x = Ok s' -> reach s0 s'.

(** [ncpu] processors in the scheduler with interrupts on. *)
Definition boot (ncpu : nat) : smp := mksmp (replicate ncpu (mkcore (mkcpu true 0 false) [mkact [] Outside])) ∅.

(** ** The invariant *)

Definition pc_lock (p : pc) : option lockid :=
  match p with
  | Outside => None
  | AcqCheck l | AcqSpin l | AcqRecord l | RelClear l | RelXchg l | RelPop l => Some l
  end.

(** Between the successful [xchg] of [acquire] and that of [release]. *)
Definition owns (a : act) (l : lockid) : Prop :=
  l ∈ held a \/ at_ a = AcqRecord l \/ at_ a = RelClear l \/ at_ a = RelXchg l.
(** Recorded in [lk->cpu]. *)
Definition recorded (a : act) (l : lockid) : Prop := l ∈ held a \/ at_ a = RelClear l.
(** The number of [pushcli]s not yet undone. *)
Definition depth (a : act) : Z := Z.of_nat (length (held a)) + (if at_ a is Outside then 0 else 1).

(** The running activity of CPU [c]. *)
Definition active (s : smp) (c : nat) (a : act) : Prop := exists r rest, cores s !! c = Some (mkcore r (a :: rest)).

Record core_ok (k : core) : Prop := {
  co_stack : exists a rest, stack k = a :: rest /\ Forall (.= mkact [] Outside) rest /\
    NoDup (held a) /\ (forall l, pc_lock (at_ a) = Some l -> l ∉ held a) /\ ncli (regs k) = depth a;
  co_if : 0 < ncli (regs k) -> fl_if (regs k) = false;
}.

Record inv (s : smp) : Prop := {
  inv_core : forall c k, cores s !! c = Some k -> core_ok k;
  inv_mutex : forall l c1 c2 a1 a2, active s c1 a1 -> active s c2 a2 -> owns a1 l -> owns a2 l -> c1 = c2;
  inv_locked : forall l, locked (lock_of s l) <> 0 <-> exists c a, active s c a /\ owns a l;
  inv_lcpu : forall l c, lcpu (lock_of s l) = Some c <-> exists a, active s c a /\ recorded a l;
}.

Lemma boot_inv n : inv (boot n).
Proof.
  assert (forall c a, active (boot n) c a -> a = mkact [] Outside) as Ha.
  { intros c a (r & rest & Hc). apply lookup_replicate in Hc as [Hc _]. congruence. }
  assert (forall l, lock_of (boot n) l = initlock) as Hl by done.
  split.
  - intros c k [-> _]%lookup_replicate. split; [|done]. exists (mkact [] Outside), []. split_and!; try done; constructor.
  - intros l c1 c2 a1 a2 ->%Ha _ [Hl'|Hl']; [by apply elem_of_nil in Hl'|]. naive_solver.
  - intros l. rewrite Hl. split; [done|]. intros (c & a & ->%Ha & [Hl'|Hl']); [by apply elem_of_nil in Hl'|naive_solver].
  - intros l c. rewrite Hl. split; [done|]. intros (a & ->%Ha & [Hl'|Hl']); [by apply elem_of_nil in Hl'|done].
Qed.

Section Preserve.
Context (s : smp) (c : nat) (r : cpu) (a : act) (rest : list act).
Context (Hi : inv s) (Hc : cores s !! c = Some (mkcore r (a :: rest))).

Lemma active_self : active s c a.
Proof. by exists r, rest. Qed.

Lemma active_det a' : active s c a' -> a' = a.
Proof. intros (r' & rest' & Hc'). congruence. Qed.

Lemma self_ok :
  Forall (.= mkact [] Outside) rest /\ NoDup (held a) /\ (forall l, pc_lock (at_ a) = Some l -> l ∉ held a) /\
  ncli r = depth a /\ (0 < ncli r -> fl_if r = false).
Proof.
  destruct (inv_core _ Hi _ _ Hc) as [(a' & rest' & [= <- <-] & ? & ? & ? & ?) ?]. done.
Qed.

(** The activities after CPU [c] has moved. *)
Lemma active_moved s' r' rest' a' c' b :
  cores s' = <[c := mkcore r' (a' :: rest')]> (cores s) ->
  active s' c' b <-> (c' = c /\ b = a' \/ c' <> c /\ active s c' b).
Proof.
  intros Hs'. unfold active. rewrite Hs'. pose proof (lookup_lt_Some _ _ _ Hc) as Hlt.
  destruct (decide (c' = c)) as [->|Hne].
  - rewrite list_lookup_insert_eq by done. naive_solver.
  - rewrite list_lookup_insert_ne by done. naive_solver.
Qed.

(** Only CPU [c] and one lock change in a step; what is left to check is
    their relation. *)
Lemma inv_moved s' r' rest' a' :
  cores s' = <[c := mkcore r' (a' :: rest')]> (cores s) ->
  core_ok (mkcore r' (a' :: rest')) ->
  (forall l, owns a' l -> owns a l \/ forall c' b, active s c' b -> ~ owns b l) ->
  (forall l, locked (lock_of s' l) <> 0 <-> owns a' l \/ exists c' b, c' <> c /\ active s c' b /\ owns b l) ->
  (forall l c', lcpu (lock_of s' l) = Some c' <-> (c' = c /\ recorded a' l) \/ (c' <> c /\ exists b, active s c' b /\ recorded b l)) ->
  inv s'.
Proof.
  intros Hs' Hok Hown Hlk Hcp. split.
  - intros c' k. rewrite Hs'. destruct (decide (c' = c)) as [->|Hne].
    + rewrite list_lookup_insert_eq by (by eapply lookup_lt_Some). by intros [= <-].
    + rewrite list_lookup_insert_ne by done. apply (inv_core _ Hi).
  - intros l c1 c2 a1 a2 H1 H2 Ho1 Ho2. apply (active_moved _ _ _ _ _ _ Hs') in H1, H2.
    destruct H1 as [[-> ->]|[Hn1 H1]], H2 as [[-> ->]|[Hn2 H2]]; [done|..].
    + destruct (Hown _ Ho1) as [Ho|Ho]; [|by destruct (Ho _ _ H2)]. by apply (inv_mutex _ Hi l c c2 a a2 active_self H2).
    + destruct (Hown _ Ho2) as [Ho|Ho]; [|by destruct (Ho _ _ H1)]. by apply (inv_mutex _ Hi l c1 c a1 a H1 active_self).
    + by apply (inv_mutex _ Hi l c1 c2 a1 a2).
  - intros l. rewrite Hlk. setoid_rewrite (active_moved _ _ _ _ _ _ Hs'). naive_solver.
  - intros l c'. rewrite Hcp. setoid_rewrite (active_moved _ _ _ _ _ _ Hs'). naive_solver.
Qed.

(** What the locks say about the other CPUs. *)
Lemma locked_iff l : locked (lock_of s l) <> 0 <-> owns a l \/ exists c' b, c' <> c /\ active s c' b /\ owns b l.
Proof.
  rewrite (inv_locked _ Hi). split.
  - intros (c' & b & Hb & Ho). destruct (decide (c' = c)) as [->|]; [|eauto 6]. apply active_det in Hb as ->. by left.
  - intros [Ho|(c' & b & _ & Hb & Ho)]; [exists c, a|]; eauto using active_self.
Qed.

Lemma lcpu_iff l c' : lcpu (lock_of s l) = Some c' <-> (c' = c /\ recorded a l) \/ (c' <> c /\ exists b, active s c' b /\ recorded b l).
Proof.
  rewrite (inv_lcpu _ Hi). split.
  - intros (b & Hb & Ho). destruct (decide (c' = c)) as [->|]; [|eauto 6]. apply active_det in Hb as ->. by left.
  - intros [[-> Ho]|(_ & b & Hb & Ho)]; eauto using active_self.
Qed.

Lemma owned_alone l c' b : owns a l -> active s c' b -> owns b l -> c' = c.
Proof. intros Ho Hb Hob. by apply (inv_mutex _ Hi l c' c b a Hb active_self). Qed.

Lemma recorded_owns b l : recorded b l -> owns b l.
Proof. unfold recorded, owns. tauto. Qed.
End Preserve.

Lemma lock_of_set l lk s l' : lock_of (set_lock l lk s) l' = if decide (l' = l) then lk else lock_of s l'.
Proof.
  unfold lock_of, set_lock. cbn. case_decide as Hd; [by rewrite Hd, lookup_insert_eq|by rewrite lookup_insert_ne by congruence].
Qed.

Lemma length_filter_ne (l : lockid) h : NoDup h -> l ∈ h -> length h = S (length (filter (.≠ l) h)).
Proof.
  intros Hnd Hl. change (S (length (filter (.≠ l) h))) with (length (l :: filter (.≠ l) h)). apply Permutation_length.
  apply NoDup_Permutation; [done| |].
  - apply NoDup_cons. split; [rewrite list_elem_of_filter; tauto|by apply NoDup_filter].
  - intros x. rewrite elem_of_cons, list_elem_of_filter. destruct (decide (x = l)); naive_solver.
Qed.

Section PreserveStep.
Context (s : smp) (c : nat) (r : cpu) (a : act) (rest : list act).
Context (Hi : inv s) (Hc : cores s !! c = Some (mkcore r (a :: rest))).

(** A step that leaves the locks alone and keeps what the activity owns. *)
Lemma inv_same r' rest' a' :
  core_ok (mkcore r' (a' :: rest')) -> (forall l, owns a' l <-> owns a l) -> (forall l, recorded a' l <-> recorded a l) ->
  inv (set_core c (mkcore r' (a' :: rest')) s).
Proof.
  intros Hok Ho Hr. eapply (inv_moved s c r a rest Hi Hc); [done|done|..].
  - intros l Hl. left. by apply Ho.
  - intros l. change (lock_of (set_core _ _ s) l) with (lock_of s l). rewrite Ho. apply (locked_iff s c r a rest Hi Hc).
  - intros l c'. change (lock_of (set_core _ _ s) l) with (lock_of s l). rewrite Hr. apply (lcpu_iff s c r a rest Hi Hc).
Qed.

End PreserveStep.

Lemma call_inv s c r a rest x s' :
  inv s -> cores s !! c = Some (mkcore r (a :: rest)) -> at_ a = Outside -> proper s c x -> call s c r a rest x = Ok s' -> inv s'.
Proof.
  intros Hi Hc. destruct (self_ok s c r a rest Hi Hc) as (Hrest & Hnd & Hfr & Hn & Hif). destruct a as [h p]. cbn [held at_] in *. intros -> Hp.
  unfold proper in Hp. rewrite Hc in Hp. unfold depth in Hn. cbn [held at_] in *. destruct x as [l|l| | |]; cbn [call held]; intros Heq; simplify_eq.
  - apply (inv_same _ _ _ _ _ Hi Hc); [|unfold owns; cbn; naive_solver|unfold recorded; cbn; naive_solver].
    split; cbn; [|done]. eexists _, _. split_and!; [done|done|done|cbn; congruence|unfold depth; cbn; lia].
  - destruct (holding c (lock_of s l)) eqn:Hh; simplify_eq/=.
    apply (inv_same _ _ _ _ _ Hi Hc); [|intros l'; unfold owns; cbn; rewrite list_elem_of_filter; destruct (decide (l' = l)); naive_solver
      |intros l'; unfold recorded; cbn; rewrite list_elem_of_filter; destruct (decide (l' = l)); naive_solver].
    pose proof (length_filter_ne l h Hnd Hp) as Hlen. split; cbn; [|done].
    eexists _, _. split_and!; [done|done|by apply NoDup_filter| |unfold depth; cbn in *; lia].
    cbn. intros l' [= <-]. rewrite list_elem_of_filter. tauto.
  - done.
  - destruct (fl_if r) eqn:Hf; simplify_eq; [|done].
    assert (h = []) as -> by (destruct h; [done|cbn in Hn; naive_solver lia]).
    apply (inv_same _ _ _ _ _ Hi Hc); [|done..]. split; cbn; [|done]. eexists _, _. split_and!; [done|by constructor|constructor|done|done].
  - cbn in Hn. destruct rest as [|b rest']; simplify_eq; [done|]. apply Forall_cons in Hrest as [-> Hrest].
    apply (inv_same _ _ _ _ _ Hi Hc); [|done..]. split; cbn; [|lia]. eexists _, _. split_and!; [done|done|constructor|done|done].
Qed.

Lemma holding_recorded s c r a rest l :
  inv s -> cores s !! c = Some (mkcore r (a :: rest)) -> holding c (lock_of s l) = true <-> recorded a l.
Proof.
  intros Hi Hc. unfold holding. rewrite andb_true_iff, negb_true_iff, Z.eqb_neq, bool_decide_eq_true.
  rewrite (lcpu_iff s c r a rest Hi Hc), (locked_iff s c r a rest Hi Hc).
  pose proof (recorded_owns a l). naive_solver.
Qed.

(** A statement that writes lock [l]: what has to be checked is about [l]. *)
Lemma inv_lock s s' c r a rest l lk a' :
  inv s -> cores s !! c = Some (mkcore r (a :: rest)) ->
  cores s' = <[c := mkcore r (a' :: rest)]> (cores s) -> (forall l', lock_of s' l' = if decide (l' = l) then lk else lock_of s l') ->
  core_ok (mkcore r (a' :: rest)) ->
  (forall l', l' <> l -> (owns a' l' <-> owns a l') /\ (recorded a' l' <-> recorded a l')) ->
  (owns a l \/ forall c' b, active s c' b -> ~ owns b l) ->
  (locked lk <> 0 <-> owns a' l) -> (forall c', lcpu lk = Some c' <-> c' = c /\ recorded a' l) ->
  inv s'.
Proof.
  intros Hi Hc Hcs Hls Hok Hoth Hown Hlk Hcp. pose proof (owned_alone s c r a rest Hi Hc) as Hal.
  assert (forall c' b, active s c' b -> c' <> c -> ~ owns b l) as Hnone.
  { intros c' b Hb Hne Hob. destruct Hown as [Ho|Ho]; [by apply Hne, (Hal l c' b)|by apply (Ho c' b)]. }
  eapply (inv_moved s c r a rest Hi Hc); [exact Hcs|exact Hok|..].
  - intros l' Hl'. destruct (decide (l' = l)) as [->|Hne]; [done|left; by apply Hoth].
  - intros l'. rewrite Hls. case_decide as Hd.
    + subst l'. rewrite Hlk. split; [by left|]. intros [?|(c' & b & Hne & Hb & Hob)]; [done|]. by destruct (Hnone c' b Hb Hne).
    + rewrite (proj1 (Hoth l' Hd)). apply (locked_iff s c r a rest Hi Hc).
  - intros l' c'. rewrite Hls. case_decide as Hd.
    + subst l'. rewrite Hcp. split; [by left|]. intros [?|(Hne & b & Hb & Hob)]; [done|].
      by destruct (Hnone c' b Hb Hne (recorded_owns _ _ Hob)).
    + rewrite (proj2 (Hoth l' Hd)). apply (lcpu_iff s c r a rest Hi Hc).
Qed.

Lemma no_owner s l : inv s -> locked (lock_of s l) = 0 -> forall c b, active s c b -> ~ owns b l.
Proof. intros Hi H0 c b Hb Ho. by apply (proj2 (inv_locked _ Hi l)); [exists c, b|]. Qed.

Lemma owner_locked s c r a rest l : inv s -> cores s !! c = Some (mkcore r (a :: rest)) -> owns a l -> locked (lock_of s l) <> 0.
Proof. intros Hi Hc Ho. apply (locked_iff s c r a rest Hi Hc). by left. Qed.

Lemma no_record s c l : inv s -> (forall c b, active s c b -> ~ owns b l) -> lcpu (lock_of s l) <> Some c.
Proof. intros Hi Hn Heq. apply (inv_lcpu _ Hi) in Heq as (b & Hb & Ho%recorded_owns). by apply (Hn c b). Qed.

Ltac owns_tac := unfold owns, recorded; cbn [held at_]; rewrite ?elem_of_cons; clear; naive_solver.

Lemma xchg_inv s c r h rest l s' :
  inv s -> cores s !! c = Some (mkcore r (mkact h (AcqSpin l) :: rest)) ->
  next s c r (mkact h (AcqSpin l)) rest = Ok s' -> inv s'.
Proof.
  intros Hi Hc [= <-]. destruct (self_ok _ _ _ _ _ Hi Hc) as (Hrest & Hnd & Hfr & Hn & Hif). cbn [held at_] in *.
  assert (forall p, pc_lock p = Some l -> p <> Outside -> core_ok (mkcore r (mkact h p :: rest))) as Hok.
  { intros p Hp Hpo. split; cbn; [|done]. eexists _, _. split_and!; [done|done|done|cbn; intros l'; rewrite Hp; apply Hfr|].
    rewrite Hn. unfold depth. cbn. by destruct p. }
  destruct (Z.eqb_spec (locked (lock_of s l)) 0) as [H0|H0].
  - eapply (inv_lock s _ c r _ rest l (mklock 1 (lcpu (lock_of s l))) (mkact h (AcqRecord l)) Hi Hc);
      [done|intros l'; apply (lock_of_set l _ (set_core _ _ s))|by apply Hok|intros l' Hl'; split; revert Hl'; owns_tac|right; by apply no_owner| |].
    + split; [|done]. intros _. right. by left.
    + intros c'. cbn [lcpu]. split.
      * intros Heq. by destruct (no_record s c' l Hi (no_owner s l Hi H0)).
      * intros [_ [Hl|Hl]]; [|done]. by destruct (Hfr l eq_refl).
  - eapply (inv_moved s c r _ rest Hi Hc); [done|by apply Hok|by left|..].
    + intros l'. rewrite <- (locked_iff s c r _ rest Hi Hc), lock_of_set. case_decide; [by subst|done].
    + intros l' c'. rewrite <- (lcpu_iff s c r _ rest Hi Hc), lock_of_set. case_decide; [by subst|done].
Qed.

Lemma record_inv s c r h rest l s' :
  inv s -> cores s !! c = Some (mkcore r (mkact h (AcqRecord l) :: rest)) ->
  next s c r (mkact h (AcqRecord l)) rest = Ok s' -> inv s'.
Proof.
  intros Hi Hc [= <-]. destruct (self_ok _ _ _ _ _ Hi Hc) as (Hrest & Hnd & Hfr & Hn & Hif). cbn [held at_] in *.
  assert (owns (mkact h (AcqRecord l)) l) as Ho by (right; by left).
  eapply (inv_lock s _ c r _ rest l _ (mkact (l :: h) Outside) Hi Hc);
    [done|intros l'; apply (lock_of_set l _ (set_core _ _ s))| |intros l' Hl'; split; revert Hl'; owns_tac|by left| |].
  - split; cbn; [|done]. eexists _, _. split_and!; [done|done|apply NoDup_cons; split; [by apply Hfr|done]|done|].
    rewrite Hn. unfold depth. cbn. lia.
  - cbn [locked]. split; intros _; [left; left|]. by eapply owner_locked.
  - intros c'. cbn [lcpu]. split; [intros [= <-]; split; [done|left; left]|by intros [-> _]].
Qed.

Lemma clear_inv s c r h rest l s' :
  inv s -> cores s !! c = Some (mkcore r (mkact h (RelClear l) :: rest)) ->
  next s c r (mkact h (RelClear l)) rest = Ok s' -> inv s'.
Proof.
  intros Hi Hc [= <-]. destruct (self_ok _ _ _ _ _ Hi Hc) as (Hrest & Hnd & Hfr & Hn & Hif). cbn [held at_] in *.
  assert (owns (mkact h (RelClear l)) l) as Ho by (right; right; by left).
  eapply (inv_lock s _ c r _ rest l _ (mkact h (RelXchg l)) Hi Hc);
    [done|intros l'; apply (lock_of_set l _ (set_core _ _ s))| |intros l' Hl'; split; revert Hl'; owns_tac|by left| |].
  - split; cbn; [|done]. by eexists _, _.
  - cbn [locked]. split; intros _; [by right; right; right|]. by eapply owner_locked.
  - intros c'. cbn [lcpu]. split; [done|]. intros [_ [Hl|Hl]]; [by destruct (Hfr l eq_refl)|done].
Qed.

Lemma unlock_inv s c r h rest l s' :
  inv s -> cores s !! c = Some (mkcore r (mkact h (RelXchg l) :: rest)) ->
  next s c r (mkact h (RelXchg l)) rest = Ok s' -> inv s'.
Proof.
  intros Hi Hc [= <-]. destruct (self_ok _ _ _ _ _ Hi Hc) as (Hrest & Hnd & Hfr & Hn & Hif). cbn [held at_] in *.
  assert (owns (mkact h (RelXchg l)) l) as Ho by (by right; right; right).
  eapply (inv_lock s _ c r _ rest l _ (mkact h (RelPop l)) Hi Hc);
    [done|intros l'; apply (lock_of_set l _ (set_core _ _ s))| |intros l' Hl'; split; revert Hl'; owns_tac|by left| |].
  - split; cbn; [|done]. by eexists _, _.
  - cbn [locked]. split; [done|]. intros [Hl|[?|[?|?]]]; [by destruct (Hfr l eq_refl)|done..].
  - intros c'. cbn [lcpu]. rewrite (lcpu_iff s c r _ rest Hi Hc). split.
    + intros [[_ [Hl|?]]|(Hne & b & Hb & Hob%recorded_owns)]; [by destruct (Hfr l eq_refl)|done|].
      by destruct Hne, (owned_alone s c r _ rest Hi Hc l c' b Ho Hb Hob).
    + intros [_ [Hl|?]]; [by destruct (Hfr l eq_refl)|done].
Qed.

Lemma next_inv s c r a rest s' :
  inv s -> cores s !! c = Some (mkcore r (a :: rest)) -> next s c r a rest = Ok s' -> inv s'.
Proof.
  intros Hi Hc. destruct a as [h p]. destruct p as [|l|l|l|l|l|l]; intros Heq.
  - by injection Heq as <-.
  - cbn in Heq. destruct (holding c (lock_of s l)); [done|]. injection Heq as <-.
    destruct (self_ok _ _ _ _ _ Hi Hc) as (Hrest & Hnd & Hfr & Hn & Hif).
    apply (inv_same _ _ _ _ _ Hi Hc); [|intros l'; owns_tac..]. split; cbn; [|done]. by eexists _, _.
  - by eapply xchg_inv.
  - by eapply record_inv.
  - by eapply clear_inv.
  - by eapply unlock_inv.
  - cbn in Heq. destruct (self_ok _ _ _ _ _ Hi Hc) as (Hrest & Hnd & Hfr & Hn & Hif).
    unfold depth in Hn. cbn [held at_] in Hn. unfold popcli in Heq. rewrite Hif in Heq by lia.
    rewrite (proj2 (Z.ltb_ge _ _)) in Heq by lia. injection Heq as <-.
    apply (inv_same _ _ _ _ _ Hi Hc); [|intros l'; owns_tac..]. split; cbn.
    + eexists _, _. split_and!; [done..|]. unfold depth. cbn. lia.
    + intros Hp. by rewrite (proj2 (Z.eqb_neq _ _)) by lia.
Qed.

Lemma step_inv s c x s' : inv s -> proper s c x -> step s c x = Ok s' -> inv s'.
Proof.
  intros Hi Hp. unfold step. destruct (cores s !! c) as [[r [|a rest]]|] eqn:Hc; try (by intros [= <-]).
  destruct (at_ a) eqn:Hat; [by apply call_inv| |..].
  all: destruct x; try (by intros [= <-]); [by apply next_inv|].
  all: cbn; destruct (self_ok _ _ _ _ _ Hi Hc) as (_ & _ & _ & Hn & Hif); unfold depth in Hn; rewrite Hat in Hn;
    rewrite Hif by lia; by intros [= <-].
Qed.

Lemma reach_inv n s : reach (boot n) s -> inv s.
Proof. induction 1; [apply boot_inv|by eapply step_inv]. Qed.

Lemma next_total s c r a rest :
  inv s -> cores s !! c = Some (mkcore r (a :: rest)) -> exists s', next s c r a rest = Ok s'.
Proof.
  intros Hi Hc. destruct (self_ok _ _ _ _ _ Hi Hc) as (_ & _ & Hfr & Hn & Hif). unfold next.
  destruct (at_ a) as [|l|l|l|l|l|l] eqn:Hat; try by eexists.
  - destruct (holding c (lock_of s l)) eqn:Hl; [|by eexists].
    apply (holding_recorded s c r a rest l Hi Hc) in Hl as [Hl|Hl]; [by destruct (Hfr l eq_refl)|congruence].
  - unfold depth in Hn. rewrite Hat in Hn. unfold popcli. rewrite Hif, (proj2 (Z.ltb_ge _ _)) by lia. by eexists.
Qed.

(** Runs of given actions. *)
#[global] Instance proper_dec s c x : Decision (proper s c x).
Proof. unfold proper. destruct (cores s !! c) as [[r [|a rest]]|]; [..|apply _]; destruct x; apply _. Defined.

Fixpoint play (s : smp) (l : list (nat * action)) : option smp :=
  match l with
  | [] => Some s
  | (c, x) :: l =>
      if decide (proper s c x) then
        match step s c x with
        | Ok s' => play s' l
        | Fail _ => None
        end
      else None
  end.

Lemma play_reach s0 s l s' : reach s0 s -> play s l = Some s' -> reach s0 s'.
Proof.
  revert s. induction l as [|[c x] l IH]; intros s Hr; cbn [play]; [by intros [= <-]|].
  case_decide as Hp; [|done]. destruct (step s c x) as [s1|] eqn:Hs; [|done]. apply IH. by eapply reach_step.
Qed.

(** C22: mutual exclusion.  Whatever the CPUs and their interrupt handlers
    do, in whatever order, no two CPUs are ever between the [xchg] that takes
    a lock and the one that gives it back. *)
Theorem mutual_exclusion (n : nat) (s : smp) (l : lockid) (c1 c2 : nat) (a1 a2 : act) :
  reach (boot n) s -> active s c1 a1 -> active s c2 a2 -> owns a1 l -> owns a2 l -> c1 = c2.
Proof. intros Hr. apply (inv_mutex _ (reach_inv _ _ Hr)). Qed.

(** C23: no false alarms and no self-deadlock.  A caller that acquires only
    locks it does not hold and releases only locks it does never panics; a
    CPU with a lock held, or on its way in or out, has interrupts off, so
    that no handler can spin on a lock of the code it interrupted. *)
Theorem lock_no_panic (n : nat) (s : smp) (c : nat) (x : action) :
  reach (boot n) s -> proper s c x ->
  (exists s', step s c x = Ok s') /\
  (forall r a rest, cores s !! c = Some (mkcore r (a :: rest)) -> (held a <> [] \/ at_ a <> Outside) ->
     fl_if r = false /\ step s c Interrupt = Ok s).
Proof.
  intros Hr Hp. pose proof (reach_inv _ _ Hr) as Hi. split.
  - unfold step. unfold proper in Hp. destruct (cores s !! c) as [[r [|a rest]]|] eqn:Hc; try by eexists.
    destruct (at_ a) eqn:Hat; [|destruct x; try (by eexists); [by apply next_total|cbn; destruct (fl_if r); by eexists]..].
    destruct x as [l|l| | |]; cbn [call]; [by eexists| |by eexists|destruct (fl_if r); by eexists|destruct rest; by eexists].
    rewrite (proj2 (holding_recorded s c r a rest l Hi Hc)) by (by left). by eexists.
  - intros r a rest Hc Hb. destruct (self_ok _ _ _ _ _ Hi Hc) as (_ & _ & _ & Hn & Hif).
    assert (0 < depth a) as Hd.
    { unfold depth. destruct (held a), (at_ a); cbn [length]; naive_solver lia. }
    assert (fl_if r = false) as Hf by (apply Hif; lia). split; [done|]. unfold step. rewrite Hc.
    destruct (at_ a); cbn [call]; by rewrite Hf.
Qed.

(** Progress.  A CPU spinning in [acquire] either takes the lock with
    its next two statements, or another CPU - never itself - has it. *)
Theorem spin_progress (n : nat) (s : smp) (c : nat) (r : cpu) (h : list lockid) (rest : list act) (l : lockid) :
  reach (boot n) s -> cores s !! c = Some (mkcore r (mkact h (AcqSpin l) :: rest)) ->
  (exists s' s'', step s c Next = Ok s' /\ step s' c Next = Ok s'' /\ active s'' c (mkact (l :: h) Outside)) \/
  (exists c' b, c' <> c /\ active s c' b /\ owns b l).
Proof.
  intros Hr Hc. pose proof (reach_inv _ _ Hr) as Hi. destruct (decide (locked (lock_of s l) = 0)) as [H0|H0].
  - left. pose proof (lookup_lt_Some _ _ _ Hc) as Hlt. eexists _, _. split; [|split].
    + unfold step. rewrite Hc. cbn [at_ next held]. rewrite H0. reflexivity.
    + unfold step. cbn [cores set_lock moved set_core]. rewrite list_lookup_insert_eq by done. reflexivity.
    + eexists _, _. cbn [cores set_lock moved set_core]. rewrite list_lookup_insert_eq by (by rewrite length_insert). reflexivity.
  - right. apply (locked_iff _ _ _ _ _ Hi Hc) in H0 as [[Hl|Hl]|H0]; [|naive_solver|done].
    destruct (self_ok _ _ _ _ _ Hi Hc) as (_ & _ & Hfr & _). by destruct (Hfr l eq_refl).
Qed.

(** Two CPUs: the first has lock 0, the second spins on it. *)
Definition demo_smp : smp :=
  default (boot 2) (play (boot 2)
    [(0, Acquire 0); (0, Next); (0, Next); (0, Next); (1, Interrupt); (1, Acquire 0); (1, Next); (1, Next)]%nat).

Lemma demo_smp_reach : reach (boot 2) demo_smp.
Proof.
  eapply play_reach with (l := [(0, Acquire 0); (0, Next); (0, Next); (0, Next); (1, Interrupt); (1, Acquire 0); (1, Next); (1, Next)]%nat);
    [constructor|]. vm_compute. reflexivity.
Qed.

Lemma mutual_exclusion_witness : active demo_smp 0 (mkact [0%nat] Outside) /\ 0%nat = 0%nat.
Proof.
  assert (active demo_smp 0 (mkact [0%nat] Outside)) as Ha by (eexists _, _; vm_compute; reflexivity).
  split; [exact Ha|]. apply (mutual_exclusion 2 demo_smp 0 0 0 _ _ demo_smp_reach Ha Ha); left; left.
Defined.

Lemma lock_no_panic_witness : exists s', step demo_smp 0 (Release 0) = Ok s'.
Proof. apply (lock_no_panic 2 demo_smp 0 (Release 0) demo_smp_reach). vm_compute. left. Defined.

Lemma spin_progress_witness : exists c b, c <> 1%nat /\ active demo_smp c b /\ owns b 0.
Proof.
  destruct (spin_progress 2 demo_smp 1 (mkcpu false 1 false) [] [mkact [] Outside] 0 demo_smp_reach) as [(s' & s'' & H1 & H2 & H3)|Hc];
    [vm_compute; reflexivity| |exact Hc].
  exfalso. vm_compute in H1. injection H1 as <-. vm_compute in H2. injection H2 as <-.
  destruct H3 as (r & rest & H3). vm_compute in H3. discriminate.
Defined.
