(* ===== verification/Sched.v ===== *)
(** * Processes and the scheduler: [proc.c]

    The process table under [ptable.lock], shared by several CPUs, each in
    its scheduler loop or running the kernel thread of a process.  A CPU
    switches to a process, and back, with [ptable.lock] held: [sched] and
    [scheduler] pass it to each other.  The lock itself is the subject of
    [Spinlock]; here taking it is one step.

    What the operations do to a process's memory and files is not part of
    this state.  Two things are coarser than the code: the end of [fork], which
    fills in the child without the lock, is one step (until then the child is
    an EMBRYO, which no processor runs), and the sanity checks of [sched],
    which only panic, are left out. *)

From stdpp Require Import base gmap strings numbers list.
From S2P Require Import Prelude.

Definition NPROC : nat := 64.

Inductive procstate := UNUSED | EMBRYO | SLEEPING | RUNNABLE | RUNNING | ZOMBIE.

#[global] Instance procstate_eq_dec : EqDecision procstate.
Proof. solve_decision. Defined.

(** What a process sleeps on: the address of a process (in [wait]), or
    another address. *)
Inductive chan :=
| NoChan
| ChProc (p : nat)
| ChAddr (a : Z).

#[global] Instance chan_eq_dec : EqDecision chan.
Proof. solve_decision. Defined.

Record proc := mkproc {
  p_state : procstate; p_pid : Z; p_parent : option nat; p_chan : chan; p_killed : bool }.

Definition set_state (st : procstate) (p : proc) : proc := mkproc st (p_pid p) (p_parent p) (p_chan p) (p_killed p).
Definition set_pid (v : Z) (p : proc) : proc := mkproc (p_state p) v (p_parent p) (p_chan p) (p_killed p).
Definition set_parent (v : option nat) (p : proc) : proc := mkproc (p_state p) (p_pid p) v (p_chan p) (p_killed p).
Definition set_chan (v : chan) (p : proc) : proc := mkproc (p_state p) (p_pid p) (p_parent p) v (p_killed p).
Definition set_killed (v : bool) (p : proc) : proc := mkproc (p_state p) (p_pid p) (p_parent p) (p_chan p) v.

Abbreviation ptable := (list proc).

(** ** The critical sections *)

(** Wake up all processes sleeping on chan. *)
Definition wakeup_one (ch : chan) (p : proc) : proc :=
  if decide (p_state p = SLEEPING /\ p_chan p = ch) then set_state RUNNABLE p else p.
Definition wakeup1 (ch : chan) (t : ptable) : ptable := wakeup_one ch <$> t.

(** [kill]: the first process with that pid; [None] when there is none. *)
Definition kill_one (p : proc) : proc :=
  let p := set_killed true p in
  if decide (p_state p = SLEEPING) then set_state RUNNABLE p else p.
Fixpoint kill (pid : Z) (t : ptable) : option ptable :=
  match t with
  | [] => None
  | p :: t =>
      if p_pid p =? pid then Some (kill_one p :: t)
      else cons p <$> kill pid t
  end.

(** The first part of [allocproc]: an UNUSED slot becomes EMBRYO. *)
Fixpoint allocproc (nextpid : Z) (t : ptable) : option (nat * ptable) :=
  match t with
  | [] => None
  | p :: t =>
      if decide (p_state p = UNUSED) then Some (0%nat, set_pid nextpid (set_state EMBRYO p) :: t)
      else
        match allocproc nextpid t with
        | Some (i, t') => Some (S i, p :: t')
        | None => None
        end
  end.

(** The end of [fork]: the child is made of the parent [me]. *)
Definition fork_done (me np : nat) (t : ptable) : ptable :=
  alter (fun p => set_state RUNNABLE (set_parent (Some me) p)) np t.

(** The loop of [exit] over its children, from slot [i] on ([n] slots). *)
Fixpoint reparent (me initproc : nat) (n i : nat) (t : ptable) : ptable :=
  match n with
  | O => t
  | S n =>
      let t :=
        match t !! i with
        | Some p =>
            if decide (p_parent p = Some me) then
              let t := <[i := set_parent (Some initproc) p]> t in
              if decide (p_state p = ZOMBIE) then wakeup1 (ChProc initproc) t else t
            else t
        | None => t
        end in
      reparent me initproc n (S i) t
  end.

(** The critical section of [exit]. *)
Definition exit_ (me initproc : nat) (t : ptable) : ptable :=
  let t :=
    match t !! me with
    | Some p => wakeup1 (match p_parent p with Some q => ChProc q | None => NoChan end) t
    | None => t
    end in
  let t := reparent me initproc (length t) 0 t in
  alter (set_state ZOMBIE) me t.

(** The scan of [wait] for zombie children: the first one, or whether there
    are children. *)
Fixpoint wait_scan (me : nat) (i : nat) (havekids : bool) (t : ptable) : nat + bool :=
  match t with
  | [] => inr havekids
  | p :: t =>
      if decide (p_parent p = Some me) then
        if decide (p_state p = ZOMBIE) then inl i else wait_scan me (S i) true t
      else wait_scan me (S i) havekids t
  end.

Definition reap (p : proc) : proc := set_killed false (set_parent None (set_pid 0 (set_state UNUSED p))).

Inductive wait_result :=
| Reaped (pid : Z) (t : ptable)
| NoChildren
| MustSleep.

(** One turn of the loop of [wait]. *)
Definition wait_ (me : nat) (t : ptable) : wait_result :=
  match wait_scan me 0 false t with
  | inl i => Reaped (default 0 (p_pid <$> t !! i)) (alter reap i t)
  | inr havekids =>
      if negb havekids || default false (p_killed <$> t !! me) then NoChildren else MustSleep
  end.

Definition yield_ (me : nat) (t : ptable) : ptable := alter (set_state RUNNABLE) me t.
Definition sleep_ (me : nat) (ch : chan) (t : ptable) : ptable :=
  alter (fun p => set_state SLEEPING (set_chan ch p)) me t.
(** after [sched] in [sleep]: Tidy up *)
Definition awake_ (me : nat) (t : ptable) : ptable := alter (set_chan NoChan) me t.

(** ** The CPUs *)

(** The kernel thread of a running process. *)
Inductive kpc :=
| KFree                  (* without ptable.lock *)
| KLocked                (* inside a critical section *)
| KAwake                 (* back in sleep, before "Tidy up": ptable.lock held *)
| KSched (back : kpc).   (* in sched, before the swtch; returns to [back] *)

Inductive cpc :=
| STop                        (* scheduler: before acquire *)
| SScan (i : nat)             (* scheduler: at ptable.proc[i] *)
| SRun (p : nat) (k : kpc).   (* process p *)

(** [sy_ctx]: where a process that is not running continues; [sy_np]: the
    child a process in [fork] has allocated. *)
Record sys := mksys {
  sy_tab : ptable; sy_cpu : list cpc; sy_lock : option nat; sy_nextpid : Z;
  sy_ctx : gmap nat kpc; sy_np : gmap nat nat }.

Definition initproc : nat := 0.

(** What a CPU does next. *)
Inductive sact :=
| AAcquire            (* take ptable.lock *)
| AScan               (* the next iteration of the scheduler's loop *)
| ARelease            (* release ptable.lock *)
| ASwtch              (* sched: switch to the scheduler *)
| AYield | ASleep (a : Z) | AWakeup (a : Z) | AKill (pid : Z) | AExit | AWait
| AAlloc | AForkDone | AForkFail.

Section SysStep.
Context (s : sys) (c : nat).

Definition goto (k : cpc) : sys := mksys (sy_tab s) (<[c := k]> (sy_cpu s)) (sy_lock s) (sy_nextpid s) (sy_ctx s) (sy_np s).
Definition with_tab (t : ptable) : sys := mksys t (sy_cpu s) (sy_lock s) (sy_nextpid s) (sy_ctx s) (sy_np s).
Definition with_lock (l : option nat) : sys := mksys (sy_tab s) (sy_cpu s) l (sy_nextpid s) (sy_ctx s) (sy_np s).
Definition with_np (m : gmap nat nat) : sys := mksys (sy_tab s) (sy_cpu s) (sy_lock s) (sy_nextpid s) (sy_ctx s) m.
Definition with_ctx (p : nat) (k : kpc) : sys := mksys (sy_tab s) (sy_cpu s) (sy_lock s) (sy_nextpid s) (<[p := k]> (sy_ctx s)) (sy_np s).
Definition with_nextpid (v : Z) : sys := mksys (sy_tab s) (sy_cpu s) (sy_lock s) v (sy_ctx s) (sy_np s).
End SysStep.

(** The scheduler at slot [i], with [ptable.lock] held. *)
Definition scan (s : sys) (c i : nat) : sys :=
  match sy_tab s !! i with
  | Some p =>
      if decide (p_state p = RUNNABLE)
      then goto (with_tab s (alter (set_state RUNNING) i (sy_tab s))) c (SRun i (default KLocked (sy_ctx s !! i)))
      else goto s c (SScan (S i))
  | None => goto (with_lock s None) c STop
  end.

(** A process inside its critical section: [None] for what the code does not
    do there. *)
Definition locked_step (s : sys) (c p : nat) (x : sact) : option sys :=
  let t := sy_tab s in
  let sched t back := Some (goto (with_tab s t) c (SRun p (KSched back))) in
  match x with
  | ARelease => Some (goto (with_lock s None) c (SRun p KFree))
  | AYield => sched (yield_ p t) KLocked
  | ASleep a => sched (sleep_ p (ChAddr a) t) KAwake
  | AWakeup a => Some (with_tab s (wakeup1 (ChAddr a) t))
  | AKill pid => Some (match kill pid t with Some t' => with_tab s t' | None => s end)
  | AExit => if decide (p = initproc \/ is_Some (sy_np s !! p)) then None else sched (exit_ p initproc t) KLocked
  | AWait =>
      if decide (is_Some (sy_np s !! p)) then None
      else
        match wait_ p t with
        | Reaped _ t' => Some (goto (with_lock (with_tab s t') None) c (SRun p KFree))
        | NoChildren => Some (goto (with_lock s None) c (SRun p KFree))
        | MustSleep => sched (sleep_ p (ChProc p) t) KAwake
        end
  | AAlloc =>
      if decide (is_Some (sy_np s !! p)) then None
      else
        match allocproc (sy_nextpid s) t with
        | Some (i, t') =>
            (* [nextpid] is an [int]: counting past the last one is undefined *)
            if decide (2 ^ 31 - 1 <= sy_nextpid s) then None
            else
              (* the context of the new process starts in forkret *)
              let s := with_ctx (with_nextpid (with_tab s t') (sy_nextpid s + 1)) i KLocked in
              Some (goto (with_lock (with_np s (<[p := i]> (sy_np s))) None) c (SRun p KFree))
        | None => Some (goto (with_lock s None) c (SRun p KFree))
        end
  | _ => None
  end.

Definition sys_step (s : sys) (c : nat) (x : sact) : option sys :=
  match sy_cpu s !! c with
  | None => None
  | Some STop =>
      match x, sy_lock s with
      | AAcquire, None => Some (goto (with_lock s (Some c)) c (SScan 0))
      | _, _ => None
      end
  | Some (SScan i) =>
      match x with
      | AScan => Some (scan s c i)
      | _ => None
      end
  | Some (SRun p KFree) =>
      match x with
      | AAcquire =>
          match sy_lock s with
          | None => Some (goto (with_lock s (Some c)) c (SRun p KLocked))
          | Some _ => None
          end
      | AForkDone =>
          match sy_np s !! p with
          | Some np => Some (with_np (with_tab s (fork_done p np (sy_tab s))) (delete p (sy_np s)))
          | None => None
          end
      | AForkFail =>
          match sy_np s !! p with
          | Some np => Some (with_np (with_tab s (alter (set_state UNUSED) np (sy_tab s))) (delete p (sy_np s)))
          | None => None
          end
      | _ => None
      end
  | Some (SRun p KAwake) => Some (goto (with_tab s (awake_ p (sy_tab s))) c (SRun p KLocked))
  | Some (SRun p KLocked) => locked_step s c p x
  | Some (SRun p (KSched back)) =>
      match x with
      | ASwtch => Some (goto (with_ctx s p back) c (SScan (S p)))
      | _ => None
      end
  end.

Inductive sreach (s0 : sys) : sys -> Prop :=
| sreach_refl : sreach s0 s0
| sreach_step s c x s' : sreach s0 s -> sys_step s c x = Some s' -> sreach s0 s'.

(** After [userinit]: the first process is RUNNABLE. *)
Definition sys_boot (ncpu : nat) : sys :=
  mksys (mkproc RUNNABLE 1 None NoChan false :: replicate (NPROC - 1) (mkproc UNUSED 0 None NoChan false))
    (replicate ncpu STop) None 2 {[initproc := KLocked]} ∅.

(** ** Who runs what *)

Definition st (t : ptable) (i : nat) : option procstate := p_state <$> t !! i.

Definition holds (k : cpc) : bool :=
  match k with
  | STop | SRun _ KFree => false
  | _ => true
  end.

(** The points where a switched-out process may continue. *)
Definition resumes (k : kpc) : Prop := k = KLocked \/ k = KAwake.

(** The state of the process a CPU runs. *)
Definition run_state (t : ptable) (k : cpc) : Prop :=
  match k with
  | SRun p (KSched back) => (exists x, st t p = Some x /\ x ∈ [RUNNABLE; SLEEPING; ZOMBIE]) /\ resumes back
  | SRun p _ => st t p = Some RUNNING
  | _ => True
  end.

Definition runs (k : cpc) (p : nat) : Prop := exists x, k = SRun p x.

Record cpus_ok (s : sys) : Prop := {
  ck_lock : forall c, sy_lock s = Some c <-> exists k, sy_cpu s !! c = Some k /\ holds k = true;
  ck_state : forall c k, sy_cpu s !! c = Some k -> run_state (sy_tab s) k;
  ck_one : forall c1 c2 k1 k2 p, sy_cpu s !! c1 = Some k1 -> sy_cpu s !! c2 = Some k2 -> runs k1 p -> runs k2 p -> c1 = c2;
  ck_running : forall p, st (sy_tab s) p = Some RUNNING -> exists c k, sy_cpu s !! c = Some k /\ runs k p;
  ck_ctx : forall p k, sy_ctx s !! p = Some k -> resumes k;
}.

Lemma runs_fun k p q : runs k p -> runs k q -> p = q.
Proof. intros [x ->] [y [= ->]]. done. Qed.

#[global] Instance runs_dec k p : Decision (runs k p).
Proof.
  destruct k as [| |q x]; [right; by intros [? [=]]..|].
  destruct (decide (q = p)) as [->|Hne]; [left; by exists x|right; by intros [? [=]]].
Defined.

(** Another CPU is not in a critical section, when this one is. *)
Lemma other_free s c c' k' : cpus_ok s -> sy_lock s = Some c -> c' <> c -> sy_cpu s !! c' = Some k' -> holds k' = false.
Proof.
  intros Hk Hl Hne Hc'. destruct (holds k') eqn:Hh; [|done].
  assert (sy_lock s = Some c') as Hl' by (apply (ck_lock _ Hk); eauto). congruence.
Qed.

Lemma free_running t k p : holds k = false -> runs k p -> run_state t k -> st t p = Some RUNNING.
Proof. intros Hh [x ->] Hr. by destruct x. Qed.

(** A step of a CPU in a critical section, or entering one.  The processes
    other CPUs run stay RUNNING. *)
Lemma cpus_step s s' c k k' :
  cpus_ok s -> sy_cpu s !! c = Some k -> sy_cpu s' = <[c := k']> (sy_cpu s) ->
  (sy_lock s = None \/ sy_lock s = Some c) -> sy_lock s' = (if holds k' then Some c else None) ->
  (forall p, ~ runs k p -> ~ runs k' p -> st (sy_tab s) p = Some RUNNING <-> st (sy_tab s') p = Some RUNNING) ->
  run_state (sy_tab s') k' ->
  (forall p, runs k p -> ~ runs k' p -> st (sy_tab s') p <> Some RUNNING) ->
  (forall p, ~ runs k p -> runs k' p -> st (sy_tab s) p <> Some RUNNING) ->
  (forall p x, sy_ctx s' !! p = Some x -> resumes x) ->
  cpus_ok s'.
Proof.
  intros Hk Hc Hcpu Hl Hl' Hsame Hst Hleft Hnew Hctx. pose proof (lookup_lt_Some _ _ _ Hc) as Hlt.
  assert (forall c' k0, c' <> c -> sy_cpu s !! c' = Some k0 -> holds k0 = false) as Hfree.
  { intros c' k0 Hne Hc'. destruct Hl as [Hl|Hl]; [|by eapply other_free].
    destruct (holds k0) eqn:Hh; [|done]. assert (sy_lock s = Some c') by (apply (ck_lock _ Hk); eauto). congruence. }
  assert (forall c' k0, sy_cpu s' !! c' = Some k0 -> c' = c /\ k0 = k' \/ c' <> c /\ sy_cpu s !! c' = Some k0) as Hcase.
  { intros c' k0. rewrite Hcpu. destruct (decide (c' = c)) as [->|Hne].
    - rewrite list_lookup_insert_eq by done. intros [= <-]. by left.
    - rewrite list_lookup_insert_ne by done. by right. }
  assert (forall c' k0 p, c' <> c -> sy_cpu s !! c' = Some k0 -> runs k0 p -> st (sy_tab s) p = Some RUNNING /\ ~ runs k p /\ ~ runs k' p) as Hoth.
  { intros c' k0 p Hne Hc' Hr. assert (st (sy_tab s) p = Some RUNNING) as Hs.
    { eapply free_running; [by eapply Hfree|done|by eapply ck_state]. }
    assert (~ runs k p) as Hnr by (intros Hr'; by apply Hne, (ck_one _ Hk c' c k0 k p)).
    split_and!; [done|done|]. intros Hr'. by apply (Hnew p). }
  split.
  - intros c'. rewrite Hl'. split.
    + destruct (holds k') eqn:Hh; [intros [= <-]|done]. exists k'. rewrite Hcpu, list_lookup_insert_eq by done. done.
    + intros (k0 & [[-> ->]|[Hne Hc']]%Hcase & Hh); [by rewrite Hh|]. by rewrite (Hfree c' k0) in Hh.
  - intros c' k0 [[-> ->]|[Hne Hc']]%Hcase; [done|]. pose proof (Hfree _ _ Hne Hc') as Hf. destruct k0 as [|i|p [| | |]]; try done.
    destruct (Hoth c' _ p Hne Hc') as (Hs & Hn1 & Hn2); [by eexists|]. cbn. by apply (Hsame p).
  - intros c1 c2 k1 k2 p [[-> ->]|[Hn1 Hc1]]%Hcase [[-> ->]|[Hn2 Hc2]]%Hcase Hr1 Hr2; [done|..].
    + by destruct (Hoth c2 k2 p Hn2 Hc2 Hr2) as (_ & _ & ?).
    + by destruct (Hoth c1 k1 p Hn1 Hc1 Hr1) as (_ & _ & ?).
    + by apply (ck_one _ Hk c1 c2 k1 k2 p).
  - intros p Hp. destruct (decide (runs k' p)) as [Hr|Hr].
    { exists c, k'. rewrite Hcpu, list_lookup_insert_eq by done. done. }
    destruct (decide (runs k p)) as [Hr0|Hr0]; [by destruct (Hleft p Hr0 Hr)|].
    apply (Hsame p Hr0 Hr) in Hp. apply (ck_running _ Hk) in Hp as (c' & k0 & Hc' & Hr').
    assert (c' <> c) as Hne by (intros ->; rewrite Hc in Hc'; congruence).
    exists c', k0. by rewrite Hcpu, list_lookup_insert_ne by done.
  - done.
Qed.

(** A step outside [ptable.lock] that changes a process nobody runs. *)
Lemma cpus_table s s' e :
  cpus_ok s -> sy_cpu s' = sy_cpu s -> sy_lock s' = sy_lock s -> sy_ctx s' = sy_ctx s ->
  (forall p, p <> e -> st (sy_tab s') p = st (sy_tab s) p) ->
  st (sy_tab s) e = Some EMBRYO -> st (sy_tab s') e <> Some RUNNING -> cpus_ok s'.
Proof.
  intros Hk Hcpu Hl Hctx Hsame He He'.
  split; rewrite ?Hcpu, ?Hl, ?Hctx; [apply Hk| |apply Hk| |apply Hk].
  - intros c k Hc. pose proof (ck_state _ Hk c k Hc) as Hs. destruct k as [|i|p x]; try done.
    assert (p <> e) as Hne.
    { intros ->. destruct x; cbn in Hs; rewrite He in Hs; try done.
      destruct Hs as [(y & [= <-] & Hin) _]. by rewrite !elem_of_cons, elem_of_nil in Hin; naive_solver. }
    destruct x; cbn in *; by rewrite (Hsame p Hne).
  - intros p Hp. destruct (decide (p = e)) as [->|Hne]; [done|]. rewrite (Hsame p Hne) in Hp. by apply (ck_running _ Hk).
Qed.

(** ** What the critical sections do to each process *)

Lemma kill_spec pid t t' : kill pid t = Some t' ->
  exists j p, t !! j = Some p /\ p_pid p = pid /\
    t' = <[j := kill_one p]> t.
Proof.
  revert t'. induction t as [|p t IH]; intros t'; cbn [kill]; [done|]. destruct (Z.eqb_spec (p_pid p) pid) as [Hp|Hp].
  - intros [= <-]. by exists 0%nat, p.
  - destruct (kill pid t) as [t1|] eqn:Hk; [|done]. intros [= <-]. destruct (IH t1 eq_refl) as (j & q & Hj & Hq & ->). by exists (S j), q.
Qed.

Lemma allocproc_spec n t i t' : allocproc n t = Some (i, t') ->
  exists p, t !! i = Some p /\ p_state p = UNUSED /\ t' = <[i := set_pid n (set_state EMBRYO p)]> t.
Proof.
  revert i t'. induction t as [|p t IH]; intros i t'; cbn [allocproc]; [done|]. case_decide as Hp.
  - intros [= <- <-]. by exists p.
  - destruct (allocproc n t) as [[i1 t1]|]; [|done]. intros [= <- <-].
    destruct (IH i1 t1 eq_refl) as (q & Hq & Hs & ->). by exists q.
Qed.

Lemma lookup_wakeup1 ch t i : wakeup1 ch t !! i = wakeup_one ch <$> t !! i.
Proof. apply list_lookup_fmap. Qed.

Lemma wakeup_one_idemp ch p : wakeup_one ch (wakeup_one ch p) = wakeup_one ch p.
Proof.
  unfold wakeup_one. repeat case_decide; naive_solver.
Qed.

Lemma wakeup_one_same ch p : p_parent (wakeup_one ch p) = p_parent p.
Proof. unfold wakeup_one. destruct (decide _); done. Qed.

Lemma wakeup_one_parent ch v p : wakeup_one ch (set_parent v p) = set_parent v (wakeup_one ch p).
Proof. unfold wakeup_one. cbn. by case_decide. Qed.

(** Whether process [me] has a zombie child in the slots [i], ..., [i+n-1]. *)
Definition zombie_child (me : nat) (p : proc) : Prop := p_parent p = Some me /\ p_state p = ZOMBIE.

Definition adopt (me initproc : nat) (b : bool) (p : proc) : proc :=
  if b then (if decide (p_parent p = Some me) then set_parent (Some initproc) p else p) else p.

(** The loop of [exit]: the children of [me] become children of
    [initproc], which is woken if one of them is a zombie. *)
Lemma reparent_spec me ini n i t :
  me <> ini ->
  exists z : bool,
    (z = true <-> exists k p, (i <= k < i + n)%nat /\ t !! k = Some p /\ zombie_child me p) /\
    forall j, reparent me ini n i t !! j =
      (fun p => let p := adopt me ini (bool_decide (i <= j < i + n)%nat) p in
                if z then wakeup_one (ChProc ini) p else p) <$> t !! j.
Proof.
  intros Hne. revert i t. induction n as [|n IH]; intros i t; cbn [reparent].
  { exists false. split; [split; [done|]; intros (k & p & ? & _); lia|].
    intros j. rewrite bool_decide_eq_false_2 by lia. cbn. by destruct (t !! j). }
  set (t1 := match t !! i with
             | Some p => if decide (p_parent p = Some me) then
                 let t0 := <[i:=set_parent (Some ini) p]> t in
                 if decide (p_state p = ZOMBIE) then wakeup1 (ChProc ini) t0 else t0 else t
             | None => t end).
  assert (exists b : bool, (b = true <-> exists p, t !! i = Some p /\ zombie_child me p) /\
    forall j, t1 !! j = (fun p => let p := adopt me ini (bool_decide (j = i)) p in if b then wakeup_one (ChProc ini) p else p) <$> t !! j)
    as (b & Hb & Ht1).
  { unfold t1. destruct (t !! i) as [p|] eqn:Hi.
    - destruct (decide (p_parent p = Some me)) as [Hp|Hp].
      + assert (forall j, <[i:=set_parent (Some ini) p]> t !! j = (fun p => adopt me ini (bool_decide (j = i)) p) <$> t !! j) as Hins.
        { intros j. destruct (decide (j = i)) as [->|Hj].
          - rewrite list_lookup_insert_eq by (by eapply lookup_lt_Some). rewrite Hi, bool_decide_eq_true_2 by done. cbn.
            by rewrite decide_True by done.
          - rewrite list_lookup_insert_ne by done. rewrite bool_decide_eq_false_2 by done. cbn. by destruct (t !! j). }
        cbv zeta. destruct (decide (p_state p = ZOMBIE)) as [Hz|Hz].
        * exists true. split; [split; [|done]; intros _; by exists p|]. intros j. rewrite lookup_wakeup1, Hins. by destruct (t !! j).
        * exists false. split; [|exact Hins]. split; [done|]. intros (p' & [= <-] & _ & ?). done.
      + exists false. split; [split; [done|]; intros (p' & [= <-] & ? & _); done|]. intros j.
        destruct (t !! j) as [p'|] eqn:Hj; [|done]. cbn. f_equal. unfold adopt. case_bool_decide as Hd; [|done].
        subst j. rewrite Hi in Hj. injection Hj as <-. by rewrite decide_False by done.
    - exists false. split; [split; [done|]; intros (p' & ? & _); done|]. intros j. destruct (t !! j) as [p'|] eqn:Hj; [|done]. cbn.
      rewrite bool_decide_eq_false_2; [done|]. intros ->. congruence. }
  destruct (IH (S i) t1) as (z & Hz & Hspec). exists (b || z). split.
  - rewrite orb_true_iff, Hb, Hz. split.
    + intros [(p & Hp & Hzc)|(k & p & Hk & Hp & Hzc)]; [exists i, p; split; [lia|done]|].
      rewrite Ht1 in Hp. rewrite bool_decide_eq_false_2 in Hp by lia. destruct (t !! k) as [q|] eqn:Hq; [|done].
      exists k, q. split; [lia|]. split; [done|]. cbn in Hp. injection Hp as <-. destruct b; [|done].
      unfold wakeup_one in Hzc. case_decide; [|done]. destruct Hzc as [_ Hzc]. cbn in Hzc. done.
    + intros (k & p & Hk & Hp & Hzc). destruct (decide (k = i)) as [->|Hki]; [left; by exists p|right].
      eexists k, _. split; [lia|]. rewrite Ht1, Hp. split; [reflexivity|]. rewrite bool_decide_eq_false_2 by done. cbn.
      destruct b; [|done]. unfold wakeup_one. rewrite decide_False; [done|]. intros [Hs _]. destruct Hzc as [_ Hzc]. congruence.
  - intros j. rewrite Hspec, Ht1. destruct (t !! j) as [p|]; [|done]. cbn. f_equal.
    assert (adopt me ini (bool_decide (S i <= j < S i + n)%nat) (adopt me ini (bool_decide (j = i)) p) =
            adopt me ini (bool_decide (i <= j < i + S n)%nat) p) as Had.
    { destruct (decide (j = i)) as [->|Hji].
      - by rewrite (bool_decide_eq_false_2 (S i <= i < _)%nat), !bool_decide_eq_true_2 by lia.
      - rewrite (bool_decide_eq_false_2 (j = i)) by done. cbn [adopt]. f_equal. apply bool_decide_ext. lia. }
    assert (forall b0 q, adopt me ini b0 (wakeup_one (ChProc ini) q) = wakeup_one (ChProc ini) (adopt me ini b0 q)) as Hcom.
    { intros b0 q. unfold adopt. destruct b0; [|done]. rewrite wakeup_one_same. destruct (decide (p_parent q = Some me)); [|done]. by rewrite wakeup_one_parent. }
    rewrite <- Had. destruct b, z; cbn; rewrite ?Hcom; [by rewrite wakeup_one_idemp|done..].
Qed.

Lemma exit_spec me ini t pm :
  me <> ini -> t !! me = Some pm ->
  let ch := match p_parent pm with Some q => ChProc q | None => NoChan end in
  exists z : bool,
    (z = true <-> exists k p, t !! k = Some p /\ zombie_child me p) /\
    forall j, exit_ me ini t !! j =
      (fun p => let q := adopt me ini true (wakeup_one ch p) in
                let q := if z then wakeup_one (ChProc ini) q else q in
                if decide (j = me) then set_state ZOMBIE q else q) <$> t !! j.
Proof.
  intros Hne Hme ch. unfold exit_. rewrite Hme. fold ch. set (t1 := wakeup1 ch t).
  destruct (reparent_spec me ini (length t1) 0 t1 Hne) as (z & Hz & Hsp). exists z. split.
  - rewrite Hz. split.
    + intros (k & p & _ & Hp & Hzc). unfold t1 in Hp. rewrite lookup_wakeup1 in Hp. destruct (t !! k) as [q|] eqn:Hq; [|done].
      injection Hp as <-. exists k, q. split; [done|]. destruct Hzc as [Hz1 Hz2]. unfold wakeup_one in *. by case_decide.
    + intros (k & p & Hp & Hzc). exists k, (wakeup_one ch p). split; [|split].
      * unfold t1, wakeup1. rewrite length_fmap. apply lookup_lt_Some in Hp. lia.
      * unfold t1. by rewrite lookup_wakeup1, Hp.
      * destruct Hzc as [Hz1 Hz2]. unfold wakeup_one. rewrite decide_False by (intros [? _]; congruence). done.
  - intros j. assert (forall f, alter f me (reparent me ini (length t1) 0 t1) !! j =
      (fun q => if decide (j = me) then f q else q) <$> reparent me ini (length t1) 0 t1 !! j) as Halt.
    { intros f. destruct (decide (j = me)) as [->|Hj]; [by rewrite list_lookup_alter_eq|].
      rewrite list_lookup_alter_ne by done. by destruct (_ !! j). }
    rewrite Halt, Hsp. unfold t1. rewrite lookup_wakeup1. destruct (t !! j) as [p|] eqn:Hj; [|done]. cbn [fmap option_fmap option_map]. f_equal.
    rewrite bool_decide_eq_true_2; [done|]. unfold wakeup1. rewrite length_fmap. apply lookup_lt_Some in Hj. lia.
Qed.

Lemma wait_scan_found me k hk t i : wait_scan me k hk t = inl i ->
  exists p, (k <= i)%nat /\ t !! (i - k)%nat = Some p /\ zombie_child me p.
Proof.
  revert k hk. induction t as [|p t IH]; intros k hk; cbn [wait_scan]; [done|].
  assert (forall hk', wait_scan me (S k) hk' t = inl i -> exists q, (k <= i)%nat /\ (p :: t) !! (i - k)%nat = Some q /\ zombie_child me q) as Hrec.
  { intros hk' (q & Hk & Hq & Hz)%IH. exists q. split; [lia|]. by replace (i - k)%nat with (S (i - S k)) by lia. }
  case_decide as Hp; [case_decide as Hz|]; [|by apply Hrec..]. intros [= ->]. exists p. rewrite Nat.sub_diag. done.
Qed.

Lemma wait_scan_none me k hk t b : wait_scan me k hk t = inr b -> forall j p, t !! j = Some p -> ~ zombie_child me p.
Proof.
  revert k hk. induction t as [|p t IH]; intros k hk; cbn [wait_scan]; [intros _ j p Hp; by rewrite lookup_nil in Hp|].
  intros Hw j q. destruct j as [|j]; cbn.
  - intros [= <-] [Hp Hz]. by rewrite !decide_True in Hw by done.
  - repeat case_decide; try done; eauto.
Qed.

(** States under the critical sections. *)
Lemma st_alter f i t j : st (alter f i t) j = if decide (j = i) then (fun p => p_state (f p)) <$> t !! i else st t j.
Proof.
  unfold st. case_decide as Hd.
  - subst j. rewrite list_lookup_alter_eq. by destruct (t !! i).
  - by rewrite list_lookup_alter_ne by done.
Qed.

(** The state at most changes from SLEEPING to RUNNABLE. *)
Definition up (x y : procstate) : Prop := y = x \/ x = SLEEPING /\ y = RUNNABLE.

Lemma up_trans x y z : up x y -> up y z -> up x z.
Proof. unfold up. naive_solver. Qed.

Lemma up_running x y : up x y -> Some y = Some RUNNING <-> Some x = Some RUNNING.
Proof. intros [->|[-> ->]]; [done|]. by split. Qed.

Lemma wakeup_one_up ch p : up (p_state p) (p_state (wakeup_one ch p)).
Proof. unfold wakeup_one, up. case_decide; naive_solver. Qed.

Lemma kill_one_up p : up (p_state p) (p_state (kill_one p)).
Proof. unfold kill_one, up. case_decide as Hd; [right|left]; done. Qed.

Lemma adopt_state me ini b p : p_state (adopt me ini b p) = p_state p.
Proof. unfold adopt. destruct b; [|done]. by case_decide. Qed.

Lemma running_wakeup1 ch t p : st (wakeup1 ch t) p = Some RUNNING <-> st t p = Some RUNNING.
Proof.
  unfold st. rewrite lookup_wakeup1. destruct (t !! p) as [q|]; [|done]. cbn [fmap option_fmap option_map].
  apply up_running, wakeup_one_up.
Qed.

Lemma running_kill pid t t' p : kill pid t = Some t' -> st t' p = Some RUNNING <-> st t p = Some RUNNING.
Proof.
  intros (j & q & Hj & _ & ->)%kill_spec. unfold st. destruct (decide (p = j)) as [->|Hne].
  - rewrite list_lookup_insert_eq by (by eapply lookup_lt_Some). rewrite Hj. cbn [fmap option_fmap option_map].
    apply up_running, kill_one_up.
  - by rewrite list_lookup_insert_ne by done.
Qed.

Lemma exit_up me ini t pm p q :
  me <> ini -> t !! me = Some pm -> p <> me -> t !! p = Some q ->
  exists q', exit_ me ini t !! p = Some q' /\ up (p_state q) (p_state q').
Proof.
  intros Hne Hme Hp Hq. destruct (exit_spec me ini t pm Hne Hme) as (z & _ & Hsp). rewrite Hsp, Hq.
  cbn [fmap option_fmap option_map]. rewrite decide_False by done. eexists. split; [reflexivity|].
  eapply up_trans; [apply (wakeup_one_up (match p_parent pm with Some q => ChProc q | None => NoChan end))|].
  rewrite <- (adopt_state me ini true). destruct z; [apply wakeup_one_up|by left].
Qed.

Lemma running_exit me ini t pm p :
  me <> ini -> t !! me = Some pm -> p <> me -> st (exit_ me ini t) p = Some RUNNING <-> st t p = Some RUNNING.
Proof.
  intros Hne Hme Hp. unfold st. destruct (t !! p) as [q|] eqn:Hq.
  - destruct (exit_up me ini t pm p q Hne Hme Hp Hq) as (q' & -> & Hu). by apply up_running.
  - destruct (exit_spec me ini t pm Hne Hme) as (z & _ & Hsp). by rewrite Hsp, Hq.
Qed.

Lemma st_exit me ini t pm : me <> ini -> t !! me = Some pm -> st (exit_ me ini t) me = Some ZOMBIE.
Proof.
  intros Hne Hme. destruct (exit_spec me ini t pm Hne Hme) as (z & _ & Hsp). unfold st. rewrite Hsp, Hme.
  cbn [fmap option_fmap option_map]. by rewrite decide_True.
Qed.

Lemma running_alloc n t i t' p : allocproc n t = Some (i, t') -> st t' p = Some RUNNING <-> st t p = Some RUNNING.
Proof.
  intros (q & Hq & Hs & ->)%allocproc_spec. unfold st. destruct (decide (p = i)) as [->|Hne].
  - rewrite list_lookup_insert_eq by (by eapply lookup_lt_Some). rewrite Hq. cbn. rewrite Hs. done.
  - by rewrite list_lookup_insert_ne by done.
Qed.

(** *** Layer one: CPUs and the lock *)

Lemma lock_self s c k : cpus_ok s -> sy_cpu s !! c = Some k -> holds k = true -> sy_lock s = Some c.
Proof. intros Hk Hc Hh. apply (ck_lock _ Hk). eauto. Qed.

Lemma runs_SRun p k q : runs (SRun p k) q <-> q = p.
Proof. split; [by intros [x [= -> _]]|intros ->; by exists k]. Qed.

Lemma runs_none k p : (forall q x, k <> SRun q x) -> ~ runs k p.
Proof. intros Hk [x ->]. by apply (Hk p x). Qed.

(** A process in its critical section stays on its CPU. *)
Lemma cpus_locked s s' c p k k' :
  cpus_ok s -> sy_cpu s !! c = Some (SRun p k) -> (holds (SRun p k) = true \/ sy_lock s = None) ->
  sy_cpu s' = <[c := SRun p k']> (sy_cpu s) -> sy_lock s' = (if holds (SRun p k') then Some c else None) ->
  (forall q, q <> p -> st (sy_tab s') q = Some RUNNING <-> st (sy_tab s) q = Some RUNNING) ->
  run_state (sy_tab s') (SRun p k') -> (forall q x, sy_ctx s' !! q = Some x -> resumes x) ->
  cpus_ok s'.
Proof.
  intros Hk Hc Hl Hcpu Hl' Hsame Hst Hctx. eapply (cpus_step s s' c (SRun p k)); [done|done|done| |done| |done| | |done].
  - destruct Hl as [Hl|Hl]; [right; by eapply lock_self|by left].
  - intros q. rewrite !runs_SRun. intros Hq _. by rewrite Hsame.
  - intros q. rewrite !runs_SRun. done.
  - intros q. rewrite !runs_SRun. done.
Qed.

Lemma scan_cpus s c i : cpus_ok s -> sy_cpu s !! c = Some (SScan i) -> cpus_ok (scan s c i).
Proof.
  intros Hk Hc. pose proof (lock_self _ _ _ Hk Hc eq_refl) as Hl. unfold scan.
  assert (forall q, ~ runs (SScan i) q) as Hn by (intros q [x [=]]).
  destruct (sy_tab s !! i) as [p|] eqn:Hp; [case_decide as Hs|].
  - assert (st (sy_tab s) i = Some RUNNABLE) as Hst by (unfold st; by rewrite Hp, <- Hs).
    assert (resumes (default KLocked (sy_ctx s !! i))) as Hres.
    { destruct (sy_ctx s !! i) as [x|] eqn:Hx; [by eapply (ck_ctx _ Hk)|by left]. }
    assert (st (alter (set_state RUNNING) i (sy_tab s)) i = Some RUNNING) as Hrun by (rewrite st_alter, decide_True, Hp; done).
    eapply (cpus_step s _ c _ (SRun i (default KLocked (sy_ctx s !! i))) Hk Hc); cbn; [done|by right| | | | | |apply (ck_ctx _ Hk)].
    + rewrite Hl. by destruct Hres as [-> | ->].
    + intros q _. rewrite runs_SRun. intros Hq. by rewrite st_alter, decide_False.
    + by destruct Hres as [-> | ->].
    + intros q Hq. by destruct (Hn q).
    + intros q _. rewrite runs_SRun. intros ->. by rewrite Hst.
  - eapply (cpus_step s _ c _ (SScan (S i)) Hk Hc); cbn; [done|by right|done|done|done| | |apply (ck_ctx _ Hk)].
    + intros q Hq. by destruct (Hn q).
    + intros q _ [x [=]].
  - eapply (cpus_step s _ c _ STop Hk Hc); cbn; [done|by right|done|done|done| | |apply (ck_ctx _ Hk)].
    + intros q Hq. by destruct (Hn q).
    + intros q _ [x [=]].
Qed.

Lemma st_running_lookup t p : st t p = Some RUNNING -> exists q, t !! p = Some q.
Proof. unfold st. destruct (t !! p) as [q|]; [eauto|done]. Qed.

Lemma locked_cpus s c p x s' :
  cpus_ok s -> sy_cpu s !! c = Some (SRun p KLocked) -> locked_step s c p x = Some s' -> cpus_ok s'.
Proof.
  intros Hk Hc Hx. pose proof (ck_state _ Hk _ _ Hc) as Hrun. cbn in Hrun. pose proof (lock_self _ _ _ Hk Hc eq_refl) as Hl.
  destruct (st_running_lookup _ _ Hrun) as [pp Hpp].
  assert (forall t back k', resumes back -> k' = KSched back ->
    (forall q, q <> p -> st t q = Some RUNNING <-> st (sy_tab s) q = Some RUNNING) ->
    (exists y, st t p = Some y /\ y ∈ [RUNNABLE; SLEEPING; ZOMBIE]) ->
    cpus_ok (goto (with_tab s t) c (SRun p k'))) as Hsched.
  { intros t back k' Hb -> Hsame Hst. eapply (cpus_locked s _ c p KLocked _ Hk Hc); [by left|done|done|done|done|apply (ck_ctx _ Hk)]. }
  assert (forall t, (forall q, st t q = Some RUNNING <-> st (sy_tab s) q = Some RUNNING) ->
    cpus_ok (goto (with_lock (with_tab s t) None) c (SRun p KFree))) as Hrel.
  { intros t Hsame. eapply (cpus_locked s _ c p KLocked KFree Hk Hc); [by left|done|done|by intros; apply Hsame| |apply (ck_ctx _ Hk)].
    cbn. by apply Hsame. }
  assert (forall t, (forall q, st t q = Some RUNNING <-> st (sy_tab s) q = Some RUNNING) -> cpus_ok (with_tab s t)) as Htab.
  { intros t Hsame. eapply (cpus_locked s _ c p KLocked KLocked Hk Hc); [by left| |done|by intros; apply Hsame| |apply (ck_ctx _ Hk)].
    - cbn. symmetry. by apply list_insert_id.
    - cbn. by apply Hsame. }
  assert (forall f y, (forall q, p_state (f q) = y) -> y ∈ [RUNNABLE; SLEEPING; ZOMBIE] ->
    exists y', st (alter f p (sy_tab s)) p = Some y' /\ y' ∈ [RUNNABLE; SLEEPING; ZOMBIE]) as Hself.
  { intros f y Hf Hy. exists y. rewrite st_alter, decide_True, Hpp by done. cbn. by rewrite Hf. }
  assert (forall f q, q <> p -> st (alter f p (sy_tab s)) q = Some RUNNING <-> st (sy_tab s) q = Some RUNNING) as Hoth.
  { intros f q Hq. by rewrite st_alter, decide_False. }
  assert (RUNNABLE ∈ [RUNNABLE; SLEEPING; ZOMBIE] /\ SLEEPING ∈ [RUNNABLE; SLEEPING; ZOMBIE] /\ ZOMBIE ∈ [RUNNABLE; SLEEPING; ZOMBIE])
    as (HR & HS & HZ) by (rewrite !elem_of_cons; tauto).
  destruct x; cbn [locked_step] in Hx; try done; simplify_eq.
  - by apply (Hrel (sy_tab s)).
  - eapply Hsched; [by left|done|by apply Hoth|by apply (Hself (set_state RUNNABLE) RUNNABLE)].
  - eapply Hsched; [by right|done|by apply Hoth|by apply (Hself (fun p => set_state SLEEPING (set_chan (ChAddr a) p)) SLEEPING)].
  - apply Htab. intros q. apply running_wakeup1.
  - destruct (kill pid (sy_tab s)) as [t'|] eqn:Hkl; [|done]. apply Htab. intros q. by eapply running_kill.
  - case_decide as Hd; [done|]. simplify_eq. assert (p <> initproc) as Hp by tauto. eapply Hsched; [by left|done| |].
    + intros q Hq. by eapply running_exit.
    + exists ZOMBIE. split; [by eapply st_exit|done].
  - case_decide as Hd; [done|]. unfold wait_ in Hx. destruct (wait_scan p 0 false (sy_tab s)) as [i|hk] eqn:Hw.
    + destruct (wait_scan_found _ _ _ _ _ Hw) as (q & _ & Hq & _ & Hz). rewrite Nat.sub_0_r in Hq. simplify_eq. apply Hrel. intros j.
      rewrite st_alter. case_decide as Hj; [|done]. subst j. unfold st. rewrite Hq. cbn. by rewrite Hz.
    + destruct (negb hk || _); simplify_eq; [by apply (Hrel (sy_tab s))|].
      eapply Hsched; [by right|done|by apply Hoth|by apply (Hself (fun q => set_state SLEEPING (set_chan (ChProc p) q)) SLEEPING)].
  - case_decide as Hd; [done|]. destruct (allocproc (sy_nextpid s) (sy_tab s)) as [[i t']|] eqn:Ha; [|simplify_eq; by apply (Hrel (sy_tab s))].
    destruct (decide (2 ^ 31 - 1 <= sy_nextpid s)); simplify_eq.
    eapply (cpus_locked s _ c p KLocked KFree Hk Hc); [by left|done|done| | |].
    + intros q _. by eapply running_alloc.
    + cbn. by eapply running_alloc.
    + cbn. intros q y. destruct (decide (q = i)) as [->|Hqi]; [rewrite lookup_insert_eq; intros [= <-]; by left|].
      rewrite lookup_insert_ne by done. apply (ck_ctx _ Hk).
Qed.

(** The child a process in [fork] builds is EMBRYO. *)
Definition embryos_ok (s : sys) : Prop := forall p e, sy_np s !! p = Some e -> st (sy_tab s) e = Some EMBRYO.

Lemma step_cpus s c x s' : cpus_ok s -> embryos_ok s -> sys_step s c x = Some s' -> cpus_ok s'.
Proof.
  intros Hk He. unfold sys_step. destruct (sy_cpu s !! c) as [[|i|p [| | |back]]|] eqn:Hc; [..|done].
  - destruct x; try done. destruct (sy_lock s) eqn:Hl; [done|]. intros [= <-].
    eapply (cpus_step s _ c STop (SScan 0) Hk Hc); cbn; [done|by left|done|done|done| | |apply (ck_ctx _ Hk)].
    + intros q [y [=]].
    + intros q _ [y [=]].
  - destruct x; try done. intros [= <-]. by apply scan_cpus.
  - pose proof (ck_state _ Hk _ _ Hc) as Hrun. destruct x; try done.
    + destruct (sy_lock s) eqn:Hl; [done|]. intros [= <-].
      eapply (cpus_locked s _ c p KFree KLocked Hk Hc); [by right|done|done|done|done|apply (ck_ctx _ Hk)].
    + destruct (sy_np s !! p) as [e|] eqn:Hnp; [|done]. intros [= <-]. pose proof (He _ _ Hnp) as Hemb.
      eapply (cpus_table s _ e Hk); [done..| |done|]; cbn; unfold fork_done.
      * intros q Hq. by rewrite st_alter, decide_False.
      * rewrite st_alter, decide_True by done. unfold st in Hemb. by destruct (sy_tab s !! e).
    + destruct (sy_np s !! p) as [e|] eqn:Hnp; [|done]. intros [= <-]. pose proof (He _ _ Hnp) as Hemb.
      eapply (cpus_table s _ e Hk); [done..| |done|]; cbn.
      * intros q Hq. by rewrite st_alter, decide_False.
      * rewrite st_alter, decide_True by done. unfold st in Hemb. by destruct (sy_tab s !! e).
  - by apply locked_cpus.
  - intros [= <-]. pose proof (ck_state _ Hk _ _ Hc) as Hrun. cbn in Hrun. pose proof (lock_self _ _ _ Hk Hc eq_refl) as Hl.
    assert (forall q, st (awake_ p (sy_tab s)) q = st (sy_tab s) q) as Hsame.
    { intros q. unfold awake_. rewrite st_alter. case_decide; [|done]. subst q. unfold st. by destruct (sy_tab s !! p). }
    eapply (cpus_locked s _ c p KAwake KLocked Hk Hc); [by left|done|done| | |apply (ck_ctx _ Hk)]; cbn.
    + intros q _. by rewrite Hsame.
    + by rewrite Hsame.
  - destruct x; try done. intros [= <-]. pose proof (ck_state _ Hk _ _ Hc) as [(y & Hy & Hin) Hb].
    pose proof (lock_self _ _ _ Hk Hc eq_refl) as Hl.
    eapply (cpus_step s _ c _ (SScan (S p)) Hk Hc); cbn; [done|by right|done|done|done| | |].
    + intros q Hq%runs_SRun _. subst q. rewrite Hy. intros [= ->]. rewrite !elem_of_cons, elem_of_nil in Hin. naive_solver.
    + intros q _ [z [=]].
    + intros q z. destruct (decide (q = p)) as [->|Hqp]; [rewrite lookup_insert_eq; by intros [= <-]|].
      rewrite lookup_insert_ne by done. apply (ck_ctx _ Hk).
Qed.

(** ** Layer two: the process table *)

Definition alive (p : proc) : Prop := p_state p = SLEEPING \/ p_state p = RUNNABLE \/ p_state p = RUNNING.
Definition used (p : proc) : Prop := alive p \/ p_state p = ZOMBIE.

Record tab_ok (t : ptable) (nextpid : Z) (np : gmap nat nat) : Prop := {
  (* the first process never exits *)
  tk_init : exists p, t !! initproc = Some p /\ alive p /\ p_parent p = None;
  (* every other process has a parent that can wait for it *)
  tk_parent : forall i p, t !! i = Some p -> used p -> i <> initproc ->
    exists q pq, p_parent p = Some q /\ q <> i /\ t !! q = Some pq /\ alive pq;
  tk_free : forall i p, t !! i = Some p -> p_state p = UNUSED \/ p_state p = EMBRYO -> p_parent p = None;
  (* a process asleep in wait has no zombie child *)
  tk_wait : forall i p q, t !! i = Some p -> p_state p = SLEEPING -> p_chan p = ChProc q ->
    q = i /\ forall j pj, t !! j = Some pj -> ~ zombie_child i pj;
  tk_pid : forall i p, t !! i = Some p -> p_state p <> UNUSED -> 0 < p_pid p < nextpid;
  tk_pids : forall i j p q, t !! i = Some p -> t !! j = Some q -> p_state p <> UNUSED -> p_state q <> UNUSED ->
    p_pid p = p_pid q -> i = j;
  (* a process in fork owns the EMBRYO it builds *)
  tk_np : forall p e, np !! p = Some e -> st t e = Some EMBRYO /\ exists pp, t !! p = Some pp /\ alive pp;
  tk_np_inj : forall p q e, np !! p = Some e -> np !! q = Some e -> p = q;
}.

Lemma lookup_alter_inv (f : proc -> proc) i (t : ptable) j p' :
  alter f i t !! j = Some p' -> (j = i /\ exists p, t !! i = Some p /\ p' = f p) \/ (j <> i /\ t !! j = Some p').
Proof.
  destruct (decide (j = i)) as [->|Hne].
  - rewrite list_lookup_alter_eq. destruct (t !! i) as [p|]; [|done]. cbn. intros [= <-]. left. eauto.
  - rewrite list_lookup_alter_ne by done. by right.
Qed.

Lemma alive_not p : alive p -> p_state p <> UNUSED /\ p_state p <> EMBRYO /\ p_state p <> ZOMBIE.
Proof. intros [->|[->| ->]]; done. Qed.

(** Wake-ups: states go up, nothing else that matters changes. *)
Lemma tab_up t t' n np :
  (forall j, exists f, t' !! j = f <$> t !! j /\
     forall p, p_pid (f p) = p_pid p /\ p_parent (f p) = p_parent p /\ p_chan (f p) = p_chan p /\ up (p_state p) (p_state (f p))) ->
  tab_ok t n np -> tab_ok t' n np.
Proof.
  intros Hf [Hinit Hpar Hfree Hwait Hpid Hpids Hnp Hinj].
  assert (forall j p', t' !! j = Some p' -> exists p, t !! j = Some p /\ p_pid p' = p_pid p /\ p_parent p' = p_parent p /\
    p_chan p' = p_chan p /\ up (p_state p) (p_state p')) as Hback.
  { intros j p' Hp'. destruct (Hf j) as (f & Heq & Hp). rewrite Heq in Hp'. destruct (t !! j) as [p|]; [|done].
    injection Hp' as <-. exists p. naive_solver. }
  assert (forall j p, t !! j = Some p -> exists p', t' !! j = Some p' /\ p_parent p' = p_parent p /\ up (p_state p) (p_state p')) as Hforth.
  { intros j p Hp. destruct (Hf j) as (f & Heq & Hfp). exists (f p). rewrite Heq, Hp. naive_solver. }
  assert (forall p p', up (p_state p) (p_state p') -> alive p -> alive p') as Hal.
  { intros p p' Hu Ha. unfold alive. destruct Hu as [->|[_ ->]]; [done|auto]. }
  split.
  - destruct Hinit as (p & Hp & Ha & Hp0). destruct (Hforth _ _ Hp) as (p' & Hp' & He & Hu). exists p'. rewrite He. eauto.
  - intros i p' Hp' Hu' Hi. destruct (Hback _ _ Hp') as (p & Hp & _ & Hpp & _ & Hu). rewrite Hpp.
    destruct (Hpar i p Hp) as (q & pq & H1 & Hqi & H2 & H3); [|done|].
    + unfold used, alive in *. destruct Hu as [Hu|[Hu _]]; [by rewrite <- Hu|auto].
    + destruct (Hforth _ _ H2) as (pq' & H4 & _ & H5). exists q, pq'. eauto.
  - intros i p' Hp' Hs. destruct (Hback _ _ Hp') as (p & Hp & _ & Hpp & _ & Hu). rewrite Hpp. apply (Hfree i p Hp).
    destruct Hu as [<-|[_ Hu']]; [done|]. rewrite Hu' in Hs. by destruct Hs.
  - intros i p' q Hp' Hs Hc. destruct (Hback _ _ Hp') as (p & Hp & _ & _ & Hch & Hu).
    destruct (Hwait i p q Hp) as [-> Hz]; [unfold up in Hu; destruct Hu as [Hu|[_ Hu]]; congruence|congruence|].
    split; [done|]. intros j pj' Hj [Hzp Hzs]. destruct (Hback _ _ Hj) as (pj & Hpj & _ & Hpp & _ & Huj).
    apply (Hz j pj Hpj). split; [congruence|]. unfold up in Huj. destruct Huj as [Huj|[_ Huj]]; congruence.
  - intros i p' Hp' Hs. destruct (Hback _ _ Hp') as (p & Hp & -> & _ & _ & Hu). apply (Hpid i p Hp).
    unfold up in Hu. destruct Hu as [Hu|[Hu _]]; congruence.
  - intros i j p' q' Hp' Hq' Hs1 Hs2 Heq. destruct (Hback _ _ Hp') as (p & Hp & Hpid1 & _ & _ & Hu1), (Hback _ _ Hq') as (q & Hq & Hpid2 & _ & _ & Hu2).
    apply (Hpids i j p q); try done; unfold up in *; [destruct Hu1 as [?|[? _]]|destruct Hu2 as [?|[? _]]|]; congruence.
  - intros p e He. destruct (Hnp p e He) as (H1 & pp & H2 & H3). split.
    + unfold st in *. destruct (t !! e) as [pe|] eqn:Hpe; [|done]. destruct (Hforth _ _ Hpe) as (pe' & -> & _ & Hu). cbn in *.
      unfold up in Hu. destruct Hu as [->|[Hu _]]; [done|congruence].
    + destruct (Hforth _ _ H2) as (pp' & ? & _ & ?). eauto.
  - done.
Qed.

(** A running process changes its own state. *)
Lemma tab_self t n np i p f :
  tab_ok t n np -> t !! i = Some p -> alive p -> alive (f p) ->
  p_pid (f p) = p_pid p -> p_parent (f p) = p_parent p ->
  (p_state (f p) = SLEEPING -> forall q, p_chan (f p) = ChProc q -> q = i /\ forall j pj, t !! j = Some pj -> ~ zombie_child i pj) ->
  tab_ok (alter f i t) n np.
Proof.
  intros [Hinit Hpar Hfree Hwait Hpid Hpids Hnp Hinj] Hi Ha Ha' Hp1 Hp2 Hsl.
  assert (forall j pj, alter f i t !! j = Some pj -> exists pj0, t !! j = Some pj0 /\ p_pid pj = p_pid pj0 /\ p_parent pj = p_parent pj0 /\
    (pj = pj0 \/ j = i /\ pj0 = p /\ pj = f p)) as Hback.
  { intros j pj [(-> & p0 & H0 & ->)|[Hne Hj]]%lookup_alter_inv; [|exists pj; naive_solver].
    exists p0. assert (p0 = p) as -> by congruence. naive_solver. }
  assert (forall j pj, t !! j = Some pj -> exists pj', alter f i t !! j = Some pj' /\ p_parent pj' = p_parent pj /\ (alive pj -> alive pj')) as Hforth.
  { intros j pj Hj. destruct (decide (j = i)) as [->|Hne].
    - exists (f p). rewrite list_lookup_alter_eq, Hi. assert (pj = p) as -> by congruence. done.
    - exists pj. by rewrite list_lookup_alter_ne by done. }
  assert (forall k pj pj0 j, (pj = pj0 \/ j = i /\ pj0 = p /\ pj = f p) -> zombie_child k pj -> zombie_child k pj0) as Hzc.
  { intros k pj pj0 j [->|(-> & -> & ->)] Hz; [done|]. destruct Hz as [_ Hz]. by destruct (alive_not _ Ha') as (_ & _ & ?). }
  split.
  - destruct Hinit as (p0 & Hp0 & Hap & Hpp). destruct (Hforth _ _ Hp0) as (p' & Hp' & He & Hal). exists p'. rewrite He. eauto.
  - intros j pj Hj Hu Hne. destruct (Hback _ _ Hj) as (pj0 & Hj0 & _ & -> & Hc).
    destruct (Hpar j pj0 Hj0) as (q & pq & H1 & Hqi & H2 & H3); [destruct Hc as [->|(_ & -> & ->)]; [done|by left]|done|].
    destruct (Hforth _ _ H2) as (pq' & H4 & _ & H5). exists q, pq'. eauto.
  - intros j pj Hj Hs. destruct (Hback _ _ Hj) as (pj0 & Hj0 & _ & -> & Hc). apply (Hfree j pj0 Hj0).
    destruct Hc as [->|(_ & -> & ->)]; [done|]. destruct (alive_not _ Ha') as (? & ? & _). naive_solver.
  - intros j pj q Hj Hs Hch. destruct (Hback _ _ Hj) as (pj0 & Hj0 & _ & _ & Hc). destruct Hc as [->|(-> & -> & ->)].
    + destruct (Hwait j pj0 q Hj0 Hs Hch) as [-> Hz]. split; [done|]. intros k pk Hk Hzk.
      destruct (Hback _ _ Hk) as (pk0 & Hk0 & _ & _ & Hck). by apply (Hz k pk0 Hk0), (Hzc j pk pk0 k).
    + destruct (Hsl Hs q Hch) as [-> Hz]. split; [done|]. intros k pk Hk Hzk.
      destruct (Hback _ _ Hk) as (pk0 & Hk0 & _ & _ & Hck). by apply (Hz k pk0 Hk0), (Hzc i pk pk0 k).
  - intros j pj Hj Hs. destruct (Hback _ _ Hj) as (pj0 & Hj0 & -> & _ & Hc). apply (Hpid j pj0 Hj0).
    destruct Hc as [->|(_ & -> & _)]; [done|by apply alive_not].
  - intros j k pj pk Hj Hk Hs1 Hs2 Heq. destruct (Hback _ _ Hj) as (pj0 & Hj0 & Hpj & _ & Hcj), (Hback _ _ Hk) as (pk0 & Hk0 & Hpk & _ & Hck).
    apply (Hpids j k pj0 pk0); [done|done| | |congruence].
    + destruct Hcj as [->|(_ & -> & _)]; [done|by apply alive_not].
    + destruct Hck as [->|(_ & -> & _)]; [done|by apply alive_not].
  - intros q e He. destruct (Hnp q e He) as (H1 & pp & H2 & H3). split.
    + rewrite st_alter. case_decide as Hd; [|done]. subst e. unfold st in H1. rewrite Hi in *. cbn in H1.
      destruct (alive_not _ Ha) as (_ & ? & _). congruence.
    + destruct (Hforth _ _ H2) as (pp' & ? & _ & ?). eauto.
  - done.
Qed.

Lemma zombie_not_alive p : p_state p = ZOMBIE -> ~ alive p.
Proof. intros Hz Ha. by destruct (alive_not _ Ha) as (_ & _ & ?). Qed.

(** [wait] frees the slot of a zombie. *)
Lemma tab_reap t n np i p :
  tab_ok t n np -> t !! i = Some p -> p_state p = ZOMBIE -> tab_ok (alter reap i t) n np.
Proof.
  intros [Hinit Hpar Hfree Hwait Hpid Hpids Hnp Hinj] Hi Hz.
  assert (forall j q, t !! j = Some q -> alive q -> alter reap i t !! j = Some q) as Hkeep.
  { intros j q Hj Ha. rewrite list_lookup_alter_ne; [done|]. intros <-. rewrite Hi in Hj. injection Hj as <-. by apply zombie_not_alive in Hz. }
  split.
  - destruct Hinit as (p0 & Hp0 & Ha & Hp). exists p0. eauto.
  - intros j pj [(-> & p0 & H0 & ->)|[Hne Hj]]%lookup_alter_inv Hu Hji; [by destruct Hu as [[?|[?|?]]|?]|].
    destruct (Hpar j pj Hj Hu Hji) as (q & pq & H1 & H2 & H3 & H4). exists q, pq. eauto.
  - intros j pj [(-> & p0 & H0 & ->)|[Hne Hj]]%lookup_alter_inv Hs; [done|by apply (Hfree j)].
  - intros j pj q [(-> & p0 & H0 & ->)|[Hne Hj]]%lookup_alter_inv Hs Hc; [done|].
    destruct (Hwait j pj q Hj Hs Hc) as [-> Hzc]. split; [done|].
    intros k pk [(-> & p0 & H0 & ->)|[Hne' Hk]]%lookup_alter_inv Hzk; [by destruct Hzk|by apply (Hzc k pk)].
  - intros j pj [(-> & p0 & H0 & ->)|[Hne Hj]]%lookup_alter_inv Hs; [done|by apply (Hpid j)].
  - intros j k pj pk [(-> & p0 & H0 & ->)|[Hne Hj]]%lookup_alter_inv [(-> & p1 & H1 & ->)|[Hne' Hk]]%lookup_alter_inv Hs1 Hs2 Heq; try done.
    by apply (Hpids j k pj pk).
  - intros q e He. destruct (Hnp q e He) as (H1 & pp & H2 & H3). split; [|eauto].
    rewrite st_alter. case_decide as Hd; [|done]. subst e. unfold st in H1. rewrite Hi in H1. cbn in H1. congruence.
  - done.
Qed.

(** [allocproc] takes an UNUSED slot for the caller [me]. *)
Lemma tab_alloc t n np i p me pm :
  tab_ok t n np -> t !! i = Some p -> p_state p = UNUSED -> t !! me = Some pm -> alive pm -> np !! me = None ->
  tab_ok (<[i := set_pid n (set_state EMBRYO p)]> t) (n + 1) (<[me := i]> np).
Proof.
  intros [Hinit Hpar Hfree Hwait Hpid Hpids Hnp Hinj] Hi Hs Hme Ham Hnone.
  assert (0 < n) as Hn. { destruct Hinit as (p0 & Hp0 & Ha & _). destruct (Hpid _ _ Hp0); [by apply alive_not|lia]. }
  replace (<[i := set_pid n (set_state EMBRYO p)]> t) with (alter (fun p => set_pid n (set_state EMBRYO p)) i t).
  2: { apply list_eq. intros j. destruct (decide (j = i)) as [->|Hne].
       - by rewrite list_lookup_alter_eq, list_lookup_insert_eq, Hi by (by eapply lookup_lt_Some).
       - by rewrite list_lookup_alter_ne, list_lookup_insert_ne by done. }
  assert (forall j q, t !! j = Some q -> p_state q <> UNUSED -> alter (fun p => set_pid n (set_state EMBRYO p)) i t !! j = Some q) as Hkeep.
  { intros j q Hj Ha. rewrite list_lookup_alter_ne; [done|]. intros <-. congruence. }
  split.
  - destruct Hinit as (p0 & Hp0 & Ha & Hp). exists p0. split; [apply Hkeep; [done|by apply alive_not]|done].
  - intros j pj [(-> & p0 & H0 & ->)|[Hne Hj]]%lookup_alter_inv Hu Hji; [by destruct Hu as [[?|[?|?]]|?]|].
    destruct (Hpar j pj Hj Hu Hji) as (q & pq & H1 & H2 & H3 & H4). exists q, pq.
    split_and!; try done. apply Hkeep; [done|by apply alive_not].
  - intros j pj [(-> & p0 & H0 & ->)|[Hne Hj]]%lookup_alter_inv Hsj; [|by apply (Hfree j)].
    assert (p0 = p) as -> by congruence. cbn. apply (Hfree i p Hi). by left.
  - intros j pj q [(-> & p0 & H0 & ->)|[Hne Hj]]%lookup_alter_inv Hsj Hc; [done|].
    destruct (Hwait j pj q Hj Hsj Hc) as [-> Hzc]. split; [done|].
    intros k pk [(-> & p0 & H0 & ->)|[Hne' Hk]]%lookup_alter_inv Hzk; [by destruct Hzk|by apply (Hzc k pk)].
  - intros j pj [(-> & p0 & H0 & ->)|[Hne Hj]]%lookup_alter_inv Hsj; [cbn; lia|]. specialize (Hpid j pj Hj Hsj). lia.
  - intros j k pj pk [(-> & p0 & H0 & ->)|[Hne Hj]]%lookup_alter_inv [(-> & p1 & H1 & ->)|[Hne' Hk]]%lookup_alter_inv Hs1 Hs2 Heq; [done|..].
    + cbn in Heq. specialize (Hpid k pk Hk Hs2). lia.
    + cbn in Heq. specialize (Hpid j pj Hj Hs1). lia.
    + by apply (Hpids j k pj pk).
  - intros q e. destruct (decide (q = me)) as [->|Hqm].
    + rewrite lookup_insert_eq. intros [= <-]. rewrite st_alter, decide_True, Hi by done. split; [done|].
      exists pm. split; [apply Hkeep; [done|by apply alive_not]|done].
    + rewrite lookup_insert_ne by done. intros He. destruct (Hnp q e He) as (H1 & pp & H2 & H3). split.
      * rewrite st_alter. case_decide as Hd; [|done]. subst e. unfold st in H1. rewrite Hi in H1. cbn in H1. congruence.
      * exists pp. split; [apply Hkeep; [done|by apply alive_not]|done].
  - assert (forall q, np !! q <> Some i) as Hno.
    { intros q He. destruct (Hnp q i He) as (H1 & _). unfold st in H1. rewrite Hi in H1. cbn in H1. congruence. }
    intros q1 q2 e. destruct (decide (q1 = me)) as [->|H1], (decide (q2 = me)) as [->|H2]; rewrite ?lookup_insert_eq, ?lookup_insert_ne by done.
    + done.
    + intros [= <-] He. by destruct (Hno q2).
    + intros He [= <-]. by destruct (Hno q1).
    + apply Hinj.
Qed.

(** The end of [fork], one way or the other: the EMBRYO [e] of [me] becomes
    a process, or its slot is free again. *)
Lemma tab_fork t n np me e f :
  tab_ok t n np -> np !! me = Some e ->
  (forall p, p_pid (f p) = p_pid p) ->
  (forall p, p_state (f p) = RUNNABLE /\ p_parent (f p) = Some me \/ p_state (f p) = UNUSED /\ p_parent (f p) = p_parent p) ->
  tab_ok (alter f e t) n (delete me np).
Proof.
  intros [Hinit Hpar Hfree Hwait Hpid Hpids Hnp Hinj] Hme Hf1 Hf2. destruct (Hnp me e Hme) as (He & pm & Hpm & Ham).
  unfold st in He. destruct (t !! e) as [pe|] eqn:Hpe; [|done]. injection He as He.
  assert (forall j q, t !! j = Some q -> alive q -> alter f e t !! j = Some q) as Hkeep.
  { intros j q Hj Ha. rewrite list_lookup_alter_ne; [done|]. intros <-. rewrite Hpe in Hj. injection Hj as <-.
    by destruct (alive_not _ Ha) as (_ & ? & _). }
  assert (forall j q, alive q -> t !! j = Some q -> j <> e) as Hne by (intros j q Ha Hj ->; rewrite Hpe in Hj; injection Hj as <-; by destruct (alive_not _ Ha) as (_ & ? & _)).
  assert (forall k q, ~ zombie_child k (f q)) as Hnz by (intros k q [_ Hz]; destruct (Hf2 q) as [[? _]|[? _]]; congruence).
  split.
  - destruct Hinit as (p0 & Hp0 & Ha & Hp). exists p0. eauto.
  - intros j pj [(-> & p0 & H0 & ->)|[Hn Hj]]%lookup_alter_inv Hu Hji.
    + destruct (Hf2 p0) as [[_ Hp]|[Hs _]]; [|destruct Hu as [[?|[?|?]]|?]; congruence].
      exists me, pm. split_and!; try done; [by eapply Hne|by apply Hkeep].
    + destruct (Hpar j pj Hj Hu Hji) as (q & pq & H1 & H2 & H3 & H4). exists q, pq. eauto 6.
  - intros j pj [(-> & p0 & H0 & ->)|[Hn Hj]]%lookup_alter_inv Hsj; [|by apply (Hfree j)].
    assert (p0 = pe) as -> by congruence. destruct (Hf2 pe) as [[Hs _]|[_ ->]]; [rewrite Hs in Hsj; by destruct Hsj|].
    apply (Hfree e pe Hpe). by right.
  - intros j pj q [(-> & p0 & H0 & ->)|[Hn Hj]]%lookup_alter_inv Hsj Hc; [destruct (Hf2 p0) as [[? _]|[? _]]; congruence|].
    destruct (Hwait j pj q Hj Hsj Hc) as [-> Hzc]. split; [done|].
    intros k pk [(-> & p0 & H0 & ->)|[Hne' Hk]]%lookup_alter_inv Hzk; [by apply (Hnz j p0)|by apply (Hzc k pk)].
  - intros j pj [(-> & p0 & H0 & ->)|[Hn Hj]]%lookup_alter_inv Hsj; [|by apply (Hpid j)].
    rewrite Hf1. assert (p0 = pe) as -> by congruence. apply (Hpid e pe Hpe). congruence.
  - assert (forall j pj, alter f e t !! j = Some pj -> p_state pj <> UNUSED -> exists pj0, t !! j = Some pj0 /\ p_state pj0 <> UNUSED /\ p_pid pj = p_pid pj0) as Hb.
    { intros j pj [(-> & p0 & H0 & ->)|[Hn Hj]]%lookup_alter_inv Hs; [|eauto]. exists p0. rewrite Hf1. split; [done|]. split; [|done].
      assert (p0 = pe) as -> by congruence. congruence. }
    intros j k pj pk Hj Hk Hs1 Hs2 Heq. destruct (Hb j pj Hj Hs1) as (x & ? & ? & ?), (Hb k pk Hk Hs2) as (y & ? & ? & ?).
    apply (Hpids j k x y); congruence.
  - intros q e'. rewrite lookup_delete_Some. intros [Hq He']. destruct (Hnp q e' He') as (H1 & pp & H2 & H3). split; [|eauto].
    rewrite st_alter. case_decide as Hd; [|done]. subst e'. by destruct Hq, (Hinj me q e).
  - intros q1 q2 e'. rewrite !lookup_delete_Some. intros [_ H1] [_ H2]. by apply (Hinj q1 q2 e').
Qed.

(** What [exit] does to each process, by a function [f]: it wakes the
    parent [q0], gives the children of [me] to the first process, and wakes
    that one if one of them is a zombie ([z]). *)
Lemma exit_facts t me pm q0 :
  t !! me = Some pm -> me <> initproc -> p_parent pm = Some q0 ->
  exists f (z : bool),
    (z = true <-> exists k p, t !! k = Some p /\ zombie_child me p) /\
    (forall j, exit_ me initproc t !! j = (fun p => if decide (j = me) then set_state ZOMBIE (f p) else f p) <$> t !! j) /\
    forall p, up (p_state p) (p_state (f p)) /\ p_pid (f p) = p_pid p /\ p_chan (f p) = p_chan p /\
      p_parent (f p) = (if decide (p_parent p = Some me) then Some initproc else p_parent p) /\
      (p_state (f p) = SLEEPING -> p_state p = SLEEPING /\ p_chan p <> ChProc q0 /\ (z = true -> p_chan p <> ChProc initproc)).
Proof.
  intros Hme Hne Hq0. destruct (exit_spec me initproc t pm Hne Hme) as (z & Hz & Hsp). rewrite Hq0 in Hsp.
  exists (fun p => let q := adopt me initproc true (wakeup_one (ChProc q0) p) in if z then wakeup_one (ChProc initproc) q else q), z.
  split; [done|]. split; [exact Hsp|]. intros p. cbv zeta.
  assert (up (p_state p) (p_state (if z then wakeup_one (ChProc initproc) (adopt me initproc true (wakeup_one (ChProc q0) p))
    else adopt me initproc true (wakeup_one (ChProc q0) p)))) as Hup.
  { eapply up_trans; [apply (wakeup_one_up (ChProc q0))|]. rewrite <- (adopt_state me initproc true).
    destruct z; [apply wakeup_one_up|by left]. }
  split; [done|]. split_and!.
  1,2,3: unfold adopt; rewrite wakeup_one_same; destruct (decide (p_parent p = Some me)), z; unfold wakeup_one; repeat case_decide; done.
  intros Hs. assert (p_state p = SLEEPING) as Hs0 by (destruct Hup as [Hu|[_ Hu]]; congruence). split; [done|]. clear Hup. split.
  - intros Hc. revert Hs. assert (wakeup_one (ChProc q0) p = set_state RUNNABLE p) as -> by (unfold wakeup_one; by rewrite decide_True).
    assert (p_state (adopt me initproc true (set_state RUNNABLE p)) = RUNNABLE) as Hr by by rewrite adopt_state.
    destruct z; [|by rewrite Hr]. unfold wakeup_one. rewrite decide_False; [by rewrite Hr|]. rewrite Hr. by intros [? _].
  - intros -> Hc. revert Hs. set (q := adopt _ _ _ _). assert (p_chan q = p_chan p) as Hqc.
    { unfold q, adopt. case_decide; unfold wakeup_one; by case_decide. }
    unfold wakeup_one. case_decide as Hd; [done|]. intros Hs. apply Hd. split; [done|congruence].
Qed.

(** [exit] keeps the table in order. *)
Lemma tab_exit t n np me pm :
  tab_ok t n np -> t !! me = Some pm -> alive pm -> me <> initproc -> np !! me = None ->
  tab_ok (exit_ me initproc t) n np.
Proof.
  intros [Hinit Hpar Hfree Hwait Hpid Hpids Hnp Hinj] Hme Ha Hne Hnone.
  destruct (Hpar me pm Hme (or_introl Ha) Hne) as (q0 & pq0 & Hq0 & Hq0me & _).
  destruct (exit_facts t me pm q0 Hme Hne Hq0) as (f & z & Hz & Hsp & Hf).
  assert (forall j p', exit_ me initproc t !! j = Some p' -> exists p, t !! j = Some p /\
    (j = me /\ p' = set_state ZOMBIE (f p) \/ j <> me /\ p' = f p)) as Hback.
  { intros j p'. rewrite Hsp. destruct (t !! j) as [p|]; [|done]. cbn. case_decide; intros [= <-]; eauto. }
  assert (forall j p, t !! j = Some p -> j <> me -> alive p -> exit_ me initproc t !! j = Some (f p) /\ alive (f p)) as Hforth.
  { intros j p Hj Hjm Hap. rewrite Hsp, Hj. cbn. rewrite decide_False by done. split; [done|].
    unfold alive in *. destruct (Hf p) as ([->|[_ ->]] & _); [done|]. right. by left. }
  split.
  - destruct Hinit as (p & Hp & Hap & Hpp). destruct (Hforth _ _ Hp) as [H1 H2]; [done..|]. exists (f p).
    destruct (Hf p) as (_ & _ & _ & -> & _). rewrite decide_False by congruence. done.
  - intros j p' Hj Hu Hji. destruct (Hback j p' Hj) as (p & Hp & Hc).
    assert (used p) as Hup.
    { destruct Hc as [[-> _]|[_ ->]]; [left; congruence|]. destruct (Hf p) as ([Hs|[Hs _]] & _).
      - unfold used, alive in *. by rewrite <- Hs.
      - left. by left. }
    destruct (Hpar j p Hp Hup Hji) as (q & pq & H1 & H2 & H3 & H4).
    assert (p_parent p' = if decide (p_parent p = Some me) then Some initproc else p_parent p) as ->.
    { destruct (Hf p) as (_ & _ & _ & Hpp & _). by destruct Hc as [[_ ->]|[_ ->]]. }
    case_decide as Hd.
    + destruct Hinit as (p0 & Hp0 & Hap & _). destruct (Hforth _ _ Hp0) as [H5 H6]; [done..|]. by exists initproc, (f p0).
    + assert (q <> me) as Hqm by congruence. destruct (Hforth _ _ H3 Hqm H4) as [H5 H6]. by exists q, (f pq).
  - intros j p' Hj Hs. destruct (Hback j p' Hj) as (p & Hp & [[-> ->]|[Hjm ->]]); [by destruct Hs|].
    destruct (Hf p) as ([He|[_ He]] & _ & _ & -> & _); rewrite He in Hs; [|by destruct Hs].
    pose proof (Hfree j p Hp Hs) as Hpp. by rewrite Hpp, decide_False.
  - intros j p' q Hj Hs Hc. destruct (Hback j p' Hj) as (p & Hp & [[-> ->]|[Hjm ->]]); [done|].
    destruct (Hf p) as (_ & _ & Hch & _ & Hsl). destruct (Hsl Hs) as (Hs0 & Hn1 & Hn2). rewrite Hch in Hc.
    destruct (Hwait j p q Hp Hs0 Hc) as [-> Hzc]. split; [done|]. intros k pk' Hk [Hzp Hzs].
    destruct (Hback k pk' Hk) as (pk & Hpk & Hck). destruct (Hf pk) as (Hupk & _ & _ & Hpark & _).
    assert (p_parent pk' = p_parent (f pk)) as Hpp by (by destruct Hck as [[_ ->]|[_ ->]]). rewrite Hpp, Hpark in Hzp.
    destruct Hck as [[-> ->]|[Hkm ->]].
    + assert (pk = pm) as -> by congruence. rewrite decide_False in Hzp by congruence. apply Hn1. congruence.
    + assert (p_state pk = ZOMBIE) as Hzk by (destruct Hupk as [He|[_ He]]; congruence).
      case_decide as Hd.
      * injection Hzp as <-. apply Hn2; [|done]. apply Hz. exists k, pk. done.
      * by apply (Hzc k pk Hpk).
  - intros j p' Hj Hs. destruct (Hback j p' Hj) as (p & Hp & Hc). destruct (Hf p) as (Hup & Hpi & _).
    assert (p_pid p' = p_pid p) as -> by (by destruct Hc as [[_ ->]|[_ ->]]). apply (Hpid j p Hp).
    destruct Hc as [[-> _]|[_ ->]]; [assert (p = pm) as -> by congruence; by apply alive_not|].
    destruct Hup as [He|[He _]]; congruence.
  - assert (forall j p', exit_ me initproc t !! j = Some p' -> p_state p' <> UNUSED ->
      exists p, t !! j = Some p /\ p_state p <> UNUSED /\ p_pid p' = p_pid p) as Hb.
    { intros j p' Hj Hs. destruct (Hback j p' Hj) as (p & Hp & Hc). exists p. destruct (Hf p) as (Hup & Hpi & _). split; [done|].
      split; [|by destruct Hc as [[_ ->]|[_ ->]]]. destruct Hc as [[-> _]|[_ ->]]; [assert (p = pm) as -> by congruence; by apply alive_not|].
      destruct Hup as [He|[He _]]; congruence. }
    intros j k pj pk Hj Hk Hs1 Hs2 Heq. destruct (Hb j pj Hj Hs1) as (x & ? & ? & ?), (Hb k pk Hk Hs2) as (y & ? & ? & ?).
    apply (Hpids j k x y); congruence.
  - intros p e He. destruct (Hnp p e He) as (H1 & pp & H2 & H3). split.
    + unfold st in *. rewrite Hsp. destruct (t !! e) as [pe|] eqn:Hpe; [|done]. cbn in *. injection H1 as H1.
      rewrite decide_False by (intros ->; rewrite Hme in Hpe; injection Hpe as <-; by destruct (alive_not _ Ha) as (_ & ? & _)).
      destruct (Hf pe) as ([->|[Hs _]] & _); congruence.
    + exists (f pp). apply Hforth; [done|congruence|done].
  - done.
Qed.

(** ** Reachable states *)

Record sys_ok (s : sys) : Prop := {
  ok_cpus : cpus_ok s;
  ok_tab : tab_ok (sy_tab s) (sy_nextpid s) (sy_np s);
}.

Lemma tab_embryos s : tab_ok (sy_tab s) (sy_nextpid s) (sy_np s) -> embryos_ok s.
Proof. intros Ht p e He. by destruct (tk_np _ _ _ Ht p e He). Qed.

Lemma running_alive s c p k : cpus_ok s -> sy_cpu s !! c = Some (SRun p k) -> (forall b, k <> KSched b) ->
  exists pp, sy_tab s !! p = Some pp /\ p_state pp = RUNNING /\ alive pp.
Proof.
  intros Hk Hc Hb. pose proof (ck_state _ Hk _ _ Hc) as Hs. assert (st (sy_tab s) p = Some RUNNING) as Hr.
  { destruct k; try done. by destruct (Hb k). }
  unfold st in Hr. destruct (sy_tab s !! p) as [pp|]; [|done]. injection Hr as Hr. exists pp. split_and!; [done..|]. right. by right.
Qed.

Lemma locked_tab s c p x s' :
  sys_ok s -> sy_cpu s !! c = Some (SRun p KLocked) -> locked_step s c p x = Some s' ->
  tab_ok (sy_tab s') (sy_nextpid s') (sy_np s').
Proof.
  intros [Hk Ht] Hc Hx. destruct (running_alive _ _ _ _ Hk Hc) as (pp & Hpp & Hr & Ha); [done|].
  destruct x; cbn [locked_step] in Hx; try done; simplify_eq; cbn; try done.
  - eapply tab_self; [done|done|done|right; by left|done|done|done].
  - eapply tab_self; [done|done|done|by left|done|done|done].
  - eapply tab_up, Ht. intros j. exists (wakeup_one (ChAddr a)). split; [apply lookup_wakeup1|].
    intros q. split_and!; [..|apply wakeup_one_up]; unfold wakeup_one; by case_decide.
  - destruct (kill pid (sy_tab s)) as [t'|] eqn:Hkl; [|done]. apply kill_spec in Hkl as (j & q & Hj & _ & ->). cbn.
    eapply tab_up, Ht. intros i. destruct (decide (i = j)) as [->|Hne].
    + exists kill_one. rewrite list_lookup_insert_eq, Hj by (by eapply lookup_lt_Some). split; [done|].
      intros q'. split_and!; [..|apply kill_one_up]; unfold kill_one; by case_decide.
    + exists id. rewrite list_lookup_insert_ne by done. split; [by destruct (sy_tab s !! i)|]. intros q'. split_and!; try done. by left.
  - case_decide as Hd; [done|]. simplify_eq. cbn. eapply tab_exit; [done|done|done|tauto|]. apply eq_None_not_Some. tauto.
  - case_decide as Hd; [done|]. unfold wait_ in Hx. destruct (wait_scan p 0 false (sy_tab s)) as [i|hk] eqn:Hw.
    + destruct (wait_scan_found _ _ _ _ _ Hw) as (q & _ & Hq & _ & Hz). rewrite Nat.sub_0_r in Hq. simplify_eq. cbn. by eapply tab_reap.
    + destruct (negb hk || _); simplify_eq; [done|]. cbn. eapply tab_self; [done|done|done|by left|done|done|].
      intros _ q [= <-]. split; [done|]. by apply (wait_scan_none _ _ _ _ _ Hw).
  - case_decide as Hd; [done|]. destruct (allocproc (sy_nextpid s) (sy_tab s)) as [[i t']|] eqn:Hal; [|by simplify_eq].
    destruct (decide (2 ^ 31 - 1 <= sy_nextpid s)); simplify_eq. cbn. apply allocproc_spec in Hal as (q & Hq & Hs & ->). eapply tab_alloc; [done|done|done|done|done|]. apply eq_None_not_Some. tauto.
Qed.

Lemma step_ok s c x s' : sys_ok s -> sys_step s c x = Some s' -> sys_ok s'.
Proof.
  intros Hok Hx. pose proof Hok as [Hk Ht]. split; [eapply step_cpus; [done|by apply tab_embryos|done]|].
  revert Hx. unfold sys_step. destruct (sy_cpu s !! c) as [[|i|p [| | |back]]|] eqn:Hc; [..|done].
  - destruct x; try done. destruct (sy_lock s); [done|]. by intros [= <-].
  - destruct x; try done. intros [= <-]. unfold scan. destruct (sy_tab s !! i) as [p|] eqn:Hp; [|done]. case_decide as Hs; [|done].
    cbn. eapply tab_self; [done|done|right; by left|right; by right|done|done|done].
  - destruct x; try done.
    + destruct (sy_lock s); [done|]. by intros [= <-].
    + destruct (sy_np s !! p) as [e|] eqn:Hnp; [|done]. intros [= <-]. cbn. eapply tab_fork; [done|done|done|]. intros q. by left.
    + destruct (sy_np s !! p) as [e|] eqn:Hnp; [|done]. intros [= <-]. cbn. eapply tab_fork; [done|done|done|]. intros q. by right.
  - intros Hx. by eapply locked_tab.
  - intros [= <-]. cbn. destruct (running_alive _ _ _ _ Hk Hc) as (pp & Hpp & Hr & Ha); [done|].
    eapply tab_self; [done|done|done| |done|done|]; [right; by right|]. cbn. congruence.
  - destruct x; try done. by intros [= <-].
Qed.

Lemma boot_ok n : sys_ok (sys_boot n).
Proof.
  assert (forall i p, sy_tab (sys_boot n) !! i = Some p -> i = 0%nat /\ p = mkproc RUNNABLE 1 None NoChan false \/ p = mkproc UNUSED 0 None NoChan false) as Hp.
  { intros [|i] p; cbn [sys_boot sy_tab lookup list_lookup]; [intros [= <-]; by left|]. intros Hl. right.
    by apply lookup_replicate in Hl as [-> _]. }
  split.
  - split; cbn [sys_boot sy_cpu sy_lock sy_ctx].
    + intros c. split; [done|]. intros (k & [-> _]%lookup_replicate & ?). done.
    + intros c k [-> _]%lookup_replicate. done.
    + intros c1 c2 k1 k2 p [-> _]%lookup_replicate _ [x ?]. done.
    + intros p. unfold st. destruct (sy_tab (sys_boot n) !! p) as [q|] eqn:Hq; [|done]. cbn.
      by destruct (Hp _ _ Hq) as [[_ ->]| ->].
    + intros p k [_ <-]%lookup_singleton_Some. by left.
  - split.
    + exists (mkproc RUNNABLE 1 None NoChan false). split_and!; [done|right; by left|done].
    + intros i p Hi Hu Hne. destruct (Hp _ _ Hi) as [[-> _]| ->]; [done|]. by destruct Hu as [[?|[?|?]]|?].
    + intros i p Hi _. by destruct (Hp _ _ Hi) as [[_ ->]| ->].
    + intros i p q Hi Hs _. by destruct (Hp _ _ Hi) as [[_ ->]| ->].
    + intros i p Hi Hs. by destruct (Hp _ _ Hi) as [[_ ->]| ->].
    + intros i j p q Hi Hj H1 H2 _. destruct (Hp _ _ Hi) as [[-> _]| ->], (Hp _ _ Hj) as [[-> _]| ->]; done.
    + done.
    + done.
Qed.

Lemma sreach_ok n s : sreach (sys_boot n) s -> sys_ok s.
Proof. induction 1; [apply boot_ok|by eapply step_ok]. Qed.

(** C19: one CPU at a time.  In every state the CPUs can reach, no two of
    them run the same process; a process that is RUNNING is on a CPU, and a
    CPU runs a process that is RUNNING, or about to give the CPU up with
    [ptable.lock] held, in a state [sched] accepts. *)
Theorem one_cpu (n : nat) (s : sys) :
  sreach (sys_boot n) s ->
  (forall c1 c2 p k1 k2, sy_cpu s !! c1 = Some (SRun p k1) -> sy_cpu s !! c2 = Some (SRun p k2) -> c1 = c2) /\
  (forall p, st (sy_tab s) p = Some RUNNING -> exists c k, sy_cpu s !! c = Some (SRun p k)) /\
  (forall c p k, sy_cpu s !! c = Some (SRun p k) ->
     st (sy_tab s) p = Some RUNNING \/ sy_lock s = Some c /\ st (sy_tab s) p <> Some RUNNING /\ exists back, k = KSched back).
Proof.
  intros Hr. destruct (sreach_ok _ _ Hr) as [Hk Ht]. split_and!.
  - intros c1 c2 p k1 k2 H1 H2. eapply (ck_one _ Hk c1 c2 _ _ p H1 H2); by eexists.
  - intros p Hp. destruct (ck_running _ Hk p Hp) as (c & k & Hc & x & ->). eauto.
  - intros c p k Hc. pose proof (ck_state _ Hk _ _ Hc) as Hs. destruct k as [| | |back]; [by left..|]. right.
    destruct Hs as [(y & Hy & Hin) _]. split; [by eapply lock_self|]. split; [|eauto].
    rewrite Hy. intros [= ->]. rewrite !elem_of_cons, elem_of_nil in Hin. naive_solver.
Qed.

(** C20: [wait] loses no child.  In every reachable state a process asleep in
    [wait] has no zombie child: whoever becomes one wakes its parent.  And
    every zombie has a parent that is still alive to wait for it. *)
Theorem wait_no_lost_child (n : nat) (s : sys) :
  sreach (sys_boot n) s ->
  (forall q pq j pj, sy_tab s !! q = Some pq -> p_state pq = SLEEPING -> p_chan pq = ChProc q ->
     sy_tab s !! j = Some pj -> p_parent pj = Some q -> p_state pj <> ZOMBIE) /\
  (forall j pj, sy_tab s !! j = Some pj -> p_state pj = ZOMBIE ->
     exists q pq, p_parent pj = Some q /\ sy_tab s !! q = Some pq /\ alive pq).
Proof.
  intros Hr. destruct (sreach_ok _ _ Hr) as [_ Ht]. split.
  - intros q pq j pj Hq Hs Hc Hj Hp Hz. destruct (tk_wait _ _ _ Ht q pq q Hq Hs Hc) as [_ Hzc]. by apply (Hzc j pj Hj).
  - intros j pj Hj Hz. destruct (tk_parent _ _ _ Ht j pj Hj) as (q & pq & H1 & _ & H2 & H3); [by right| |eauto].
    intros ->. destruct (tk_init _ _ _ Ht) as (p0 & Hp0 & Ha & _). rewrite Hj in Hp0. injection Hp0 as <-.
    by apply zombie_not_alive in Hz.
Qed.

(** Process identifiers are positive and no two processes share one. *)
Theorem pids_unique (n : nat) (s : sys) (i j : nat) (p q : proc) :
  sreach (sys_boot n) s -> sy_tab s !! i = Some p -> sy_tab s !! j = Some q ->
  p_state p <> UNUSED -> p_state q <> UNUSED -> 0 < p_pid p /\ (p_pid p = p_pid q -> i = j).
Proof.
  intros Hr Hi Hj H1 H2. destruct (sreach_ok _ _ Hr) as [_ Ht]. split; [apply (tk_pid _ _ _ Ht i p Hi H1)|].
  by apply (tk_pids _ _ _ Ht i j p q).
Qed.

Fixpoint scans (n : nat) (s : sys) (c : nat) : option sys :=
  match n with
  | O => Some s
  | S n => match sys_step s c AScan with Some s' => scans n s' c | None => None end
  end.

(** C21: the scheduler finds work.  A CPU at slot [i] of its loop runs the
    next RUNNABLE process [j] after one iteration for each slot up to [j]. *)
Theorem scheduler_runs (s : sys) (c i j : nat) :
  sy_cpu s !! c = Some (SScan i) -> (i <= j)%nat -> st (sy_tab s) j = Some RUNNABLE ->
  (forall k, (i <= k < j)%nat -> st (sy_tab s) k <> Some RUNNABLE) ->
  exists s' k, scans (S (j - i)) s c = Some s' /\ sy_cpu s' !! c = Some (SRun j k) /\ st (sy_tab s') j = Some RUNNING.
Proof.
  remember (j - i)%nat as d eqn:Hd. revert i s Hd. induction d as [|d IH]; intros i s Hd Hc Hij Hj Hno.
  - assert (i = j) as -> by lia. cbn [scans]. unfold sys_step. rewrite Hc. unfold scan. unfold st in Hj.
    destruct (sy_tab s !! j) as [p|] eqn:Hp; [|done]. injection Hj as Hj. rewrite decide_True by done.
    eexists _, _. split; [reflexivity|]. cbn. rewrite list_lookup_insert_eq by (by eapply lookup_lt_Some).
    split; [reflexivity|]. by rewrite st_alter, decide_True, Hp.
  - assert (i < j)%nat as Hlt by lia. pose proof (Hno i ltac:(lia)) as Hni.
    assert (exists p, sy_tab s !! i = Some p) as [p Hp].
    { unfold st in Hj. destruct (sy_tab s !! j) eqn:Hpj; [|done]. apply lookup_lt_is_Some. apply lookup_lt_Some in Hpj. lia. }
    assert (sys_step s c AScan = Some (goto s c (SScan (S i)))) as Hs.
    { unfold sys_step. rewrite Hc. unfold scan. rewrite Hp, decide_False; [done|]. intros Hr. apply Hni. unfold st. by rewrite Hp, <- Hr. }
    change (scans (S (S d)) s c) with (match sys_step s c AScan with Some s' => scans (S d) s' c | None => None end). rewrite Hs.
    destruct (IH (S i) (goto s c (SScan (S i)))) as (s' & k & H1 & H2 & H3); [lia| |lia|done|intros k Hk; apply Hno; lia|eauto].
    cbn. by rewrite list_lookup_insert_eq by (by eapply lookup_lt_Some).
Qed.

(** Runs of given actions. *)
Fixpoint splay (s : sys) (l : list (nat * sact)) : option sys :=
  match l with
  | [] => Some s
  | (c, x) :: l => match sys_step s c x with Some s' => splay s' l | None => None end
  end.

Lemma splay_reach s0 s l s' : sreach s0 s -> splay s l = Some s' -> sreach s0 s'.
Proof.
  revert s. induction l as [|[c x] l IH]; intros s Hr; cbn [splay]; [by intros [= <-]|].
  destruct (sys_step s c x) as [s1|] eqn:Hs; [|done]. apply IH. by eapply sreach_step.
Qed.

(** The first process forks and waits; its child runs on the other CPU. *)
Definition demo_trace : list (nat * sact) :=
  [(0, AAcquire); (0, AScan); (0, ARelease); (0, AAcquire); (0, AAlloc); (0, AForkDone);
   (0, AAcquire); (0, AWait); (0, ASwtch); (0, AScan); (0, ARelease);
   (1, AAcquire); (1, AScan)]%nat.

Definition demo_sys : sys := default (sys_boot 2) (splay (sys_boot 2) demo_trace).

Lemma demo_sys_reach : sreach (sys_boot 2) demo_sys.
Proof. eapply (splay_reach _ _ demo_trace); [constructor|]. vm_compute. reflexivity. Qed.

Lemma one_cpu_witness :
  sy_cpu demo_sys !! 0%nat = Some (SRun 1 KFree) /\ st (sy_tab demo_sys) 0 = Some SLEEPING /\
  forall p, st (sy_tab demo_sys) p = Some RUNNING -> exists c k, sy_cpu demo_sys !! c = Some (SRun p k).
Proof.
  split; [vm_compute; reflexivity|]. split; [vm_compute; reflexivity|]. apply (one_cpu 2 demo_sys demo_sys_reach).
Defined.

Lemma wait_no_lost_child_witness :
  exists pq, sy_tab demo_sys !! 0%nat = Some pq /\ p_state pq = SLEEPING /\ p_chan pq = ChProc 0 /\
    forall j pj, sy_tab demo_sys !! j = Some pj -> p_parent pj = Some 0%nat -> p_state pj <> ZOMBIE.
Proof.
  eexists. split; [vm_compute; reflexivity|]. split; [reflexivity|]. split; [reflexivity|].
  destruct (wait_no_lost_child 2 demo_sys demo_sys_reach) as [Hw _]. intros j pj. apply (Hw 0%nat _ j pj eq_refl eq_refl eq_refl).
Defined.

Lemma pids_unique_witness : exists p, sy_tab demo_sys !! 1%nat = Some p /\ 0 < p_pid p.
Proof.
  eexists. split; [vm_compute; reflexivity|].
  apply (pids_unique 2 demo_sys 1 1 _ _ demo_sys_reach eq_refl eq_refl); vm_compute; congruence.
Defined.

(** A CPU of its own at the start of its loop, the second process RUNNABLE. *)
Definition demo_scan : sys :=
  mksys [mkproc SLEEPING 1 None (ChAddr 4) false; mkproc RUNNABLE 2 (Some 0%nat) NoChan false] [SScan 0] (Some 0%nat) 3 ∅ ∅.

Lemma scheduler_runs_witness :
  exists s' k, scans 2 demo_scan 0 = Some s' /\ sy_cpu s' !! 0%nat = Some (SRun 1 k) /\ st (sy_tab s') 1 = Some RUNNING.
Proof.
  apply (scheduler_runs demo_scan 0 0 1); [reflexivity|lia|reflexivity|].
  intros k Hk. assert (k = 0%nat) as -> by lia. vm_compute. congruence.
Defined.

(** Finding: a free slot has pid 0, so [kill(0)] marks it killed, and
    [allocproc] does not clear the mark: the next process to get the slot is
    born killed. *)
Example kill_zero_marks_slot :
  exists t i t', kill 0 (sy_tab (sys_boot 1)) = Some t /\ allocproc 2 t = Some (i, t') /\
    (p_killed <$> fork_done 0 i t' !! i) = Some true /\ st (fork_done 0 i t') i = Some RUNNABLE.
Proof. eexists _, _, _. split; [vm_compute; reflexivity|]. split; [vm_compute; reflexivity|]. split; vm_compute; reflexivity. Qed.
