(* ===== verification/Pipe.v ===== *)
(** * Pipes shared by concurrent processes: [pipe.c]

    Any number of processes read from and write to one pipe.  A process runs
    [pipewrite] or [piperead] statement by statement; the pipe's lock, and
    [sleep] releasing it atomically, are the subjects of [Spinlock] and
    [Sched].  [wakeup] makes a sleeper want the lock again. *)

From stdpp Require Import base gmap strings numbers list.
From S2P Require Import Prelude Prog State File.

(** Where a process is. *)
Inductive tpc :=
| TIdle
| TWAcq (addr : list Z) (i : nat)     (* pipewrite: wants the lock *)
| TWLoop (addr : list Z) (i : nat)    (* has it, before the test for byte i *)
| TWSleep (addr : list Z) (i : nat)   (* asleep on &p->nwrite *)
| TRAcq (n : nat)                     (* piperead: wants the lock *)
| TRLoop (n : nat)                    (* has it, before the test *)
| TRSleep (n : nat)                   (* asleep on &p->nread *)
| TRCopy (n : nat) (got : list Z)     (* copying *)
| TRet (r : Z) (got : list Z).        (* returned *)

(** [ps_in] and [ps_out] record every byte put into and taken out of the
    pipe. *)
Record psys := mkpsys {
  ps_pipe : pipe; ps_lock : option nat; ps_thr : list tpc; ps_killed : list bool;
  ps_in : list Z; ps_out : list Z }.

Definition upd_pipe (f : pipe -> pipe) (s : psys) : psys :=
  mkpsys (f (ps_pipe s)) (ps_lock s) (ps_thr s) (ps_killed s) (ps_in s) (ps_out s).
Definition set_plock (l : option nat) (s : psys) : psys :=
  mkpsys (ps_pipe s) l (ps_thr s) (ps_killed s) (ps_in s) (ps_out s).
Definition upd_thr (f : list tpc -> list tpc) (s : psys) : psys :=
  mkpsys (ps_pipe s) (ps_lock s) (f (ps_thr s)) (ps_killed s) (ps_in s) (ps_out s).
Definition set_killed_at (t : nat) (s : psys) : psys :=
  mkpsys (ps_pipe s) (ps_lock s) (ps_thr s) (<[t := true]> (ps_killed s)) (ps_in s) (ps_out s).
Definition add_in (c : Z) (s : psys) : psys :=
  mkpsys (ps_pipe s) (ps_lock s) (ps_thr s) (ps_killed s) (ps_in s ++ [c]) (ps_out s).
Definition add_out (c : Z) (s : psys) : psys :=
  mkpsys (ps_pipe s) (ps_lock s) (ps_thr s) (ps_killed s) (ps_in s) (ps_out s ++ [c]).

Definition wake_reader (k : tpc) : tpc := match k with TRSleep n => TRAcq n | _ => k end.
Definition wake_writer (k : tpc) : tpc := match k with TWSleep a i => TWAcq a i | _ => k end.

(** [wakeup(&p->nread)] and [wakeup(&p->nwrite)] *)
Definition wakeup_readers : psys -> psys := upd_thr (fmap wake_reader).
Definition wakeup_writers : psys -> psys := upd_thr (fmap wake_writer).

Definition pgoto (t : nat) (k : tpc) : psys -> psys := upd_thr (fun l => <[t := k]> l).

Definition pipe_full (x : pipe) : bool := pi_nwrite x =? u32 (pi_nread x + PIPESIZE).
Definition pipe_empty (x : pipe) : bool := pi_nread x =? pi_nwrite x.

(** One statement of [pipewrite], with the lock held, at byte [i]. *)
Definition write_step (t : nat) (addr : list Z) (i : nat) (s : psys) : psys :=
  let x := ps_pipe s in
  match addr !! i with
  | None =>
      (* pipewrite-wakeup1; release; return n *)
      pgoto t (TRet (Z.of_nat (length addr)) []) (set_plock None (wakeup_readers s))
  | Some c =>
      if pipe_full x then
        if negb (pi_readopen x) || default false (ps_killed s !! t)
        then pgoto t (TRet (-1) []) (set_plock None s)
        else pgoto t (TWSleep addr i) (set_plock None (wakeup_readers s))
      else pgoto t (TWLoop addr (S i)) (add_in c (upd_pipe (pipe_put c) s))
  end.

(** One statement of [piperead], with the lock held. *)
Definition read_step (t : nat) (n : nat) (s : psys) : psys :=
  let x := ps_pipe s in
  if pipe_empty x && pi_writeopen x then
    if default false (ps_killed s !! t) then pgoto t (TRet (-1) []) (set_plock None s)
    else pgoto t (TRSleep n) (set_plock None s)
  else pgoto t (TRCopy n []) s.

Definition copy_step (t : nat) (n : nat) (got : list Z) (s : psys) : psys :=
  let x := ps_pipe s in
  if (n <=? length got)%nat || pipe_empty x then
    (* piperead-wakeup; release; return i *)
    pgoto t (TRet (Z.of_nat (length got)) got) (set_plock None (wakeup_writers s))
  else
    let '(c, x') := pipe_get x in
    pgoto t (TRCopy n (got ++ [c])) (add_out c (upd_pipe (fun _ => x') s)).

Definition close_write (x : pipe) : pipe := mkpipe (pi_data x) (pi_nread x) (pi_nwrite x) (pi_readopen x) false.
Definition close_read (x : pipe) : pipe := mkpipe (pi_data x) (pi_nread x) (pi_nwrite x) false (pi_writeopen x).

Definition is_writer (k : tpc) : bool := match k with TWAcq _ _ | TWLoop _ _ | TWSleep _ _ => true | _ => false end.
Definition is_reader (k : tpc) : bool := match k with TRAcq _ | TRLoop _ | TRSleep _ | TRCopy _ _ => true | _ => false end.

(** What happens next. *)
Inductive pact :=
| PWrite (t : nat) (addr : list Z)   (* process t calls pipewrite *)
| PRead (t : nat) (n : nat)          (* process t calls piperead *)
| PStep (t : nat)                    (* process t executes its next statement *)
| PDone (t : nat)                    (* process t goes on after the call *)
| PCloseWrite | PCloseRead           (* the last descriptor of an end is closed *)
| PKill (t : nat).                   (* kill *)

Definition kill_thr (k : tpc) : tpc := wake_writer (wake_reader k).

Definition pstep (s : psys) (a : pact) : option psys :=
  match a with
  | PWrite t addr =>
      match ps_thr s !! t with
      | Some TIdle => if pi_writeopen (ps_pipe s) then Some (pgoto t (TWAcq addr 0) s) else None
      | _ => None
      end
  | PRead t n =>
      match ps_thr s !! t with
      | Some TIdle => if pi_readopen (ps_pipe s) then Some (pgoto t (TRAcq n) s) else None
      | _ => None
      end
  | PStep t =>
      match ps_thr s !! t with
      | Some (TWAcq addr i) => match ps_lock s with None => Some (pgoto t (TWLoop addr i) (set_plock (Some t) s)) | _ => None end
      | Some (TWLoop addr i) => Some (write_step t addr i s)
      | Some (TRAcq n) => match ps_lock s with None => Some (pgoto t (TRLoop n) (set_plock (Some t) s)) | _ => None end
      | Some (TRLoop n) => Some (read_step t n s)
      | Some (TRCopy n got) => Some (copy_step t n got s)
      | _ => None
      end
  | PDone t => match ps_thr s !! t with Some (TRet _ _) => Some (pgoto t TIdle s) | _ => None end
  | PCloseWrite =>
      (* pipeclose(p, 1): no process is inside pipewrite *)
      if forallb (fun k => negb (is_writer k)) (ps_thr s) && bool_decide (ps_lock s = None)
      then Some (wakeup_readers (upd_pipe close_write s)) else None
  | PCloseRead =>
      if forallb (fun k => negb (is_reader k)) (ps_thr s) && bool_decide (ps_lock s = None)
      then Some (wakeup_writers (upd_pipe close_read s)) else None
  | PKill t => Some (set_killed_at t (upd_thr (alter kill_thr t) s))
  end.

(** [kills] says whether processes may be killed. *)
Inductive preach (kills : Prop) (s0 : psys) : psys -> Prop :=
| preach_refl : preach kills s0 s0
| preach_step s a s' : preach kills s0 s -> (forall t, a = PKill t -> kills) -> pstep s a = Some s' -> preach kills s0 s'.

(** After [pipealloc], with [n] processes. *)
Definition pipe_start (n : nat) : psys :=
  mkpsys (mkpipe (replicate 512 0) 0 0 true true) None (replicate n TIdle) (replicate n false) [] [].

(** ** The ring as a queue *)

Record ring_ok (x : pipe) : Prop := {
  ri_len : length (pi_data x) = 512%nat;
  ri_read : 0 <= pi_nread x < 2 ^ 32;
  ri_write : 0 <= pi_nwrite x < 2 ^ 32;
  ri_count : u32 (pi_nwrite x - pi_nread x) <= 512;
}.

Definition count (x : pipe) : Z := u32 (pi_nwrite x - pi_nread x).

Definition content (x : pipe) : list Z :=
  (fun k => nth (Z.to_nat ((pi_nread x + k) mod PIPESIZE)) (pi_data x) 0) <$> seqZ 0 (count x).

Lemma full_count x : ring_ok x -> pipe_full x = true <-> count x = 512.
Proof. intros [Hl Hr Hw Hc]. unfold pipe_full, count, u32, PIPESIZE in *. rewrite Z.eqb_eq. lia. Qed.

Lemma empty_count x : ring_ok x -> pipe_empty x = true <-> count x = 0.
Proof. intros [Hl Hr Hw Hc]. unfold pipe_empty, count, u32 in *. rewrite Z.eqb_eq. lia. Qed.

Lemma seqZ_single m : seqZ m 1 = [m].
Proof. by rewrite seqZ_cons, seqZ_nil by lia. Qed.

Lemma put_ok c x : ring_ok x -> pipe_full x = false -> ring_ok (pipe_put c x) /\ content (pipe_put c x) = content x ++ [c].
Proof.
  intros Hok Hf. assert (count x < 512) as Hlt.
  { pose proof (full_count x Hok). pose proof (ri_count _ Hok). unfold count in *. destruct (decide (u32 (pi_nwrite x - pi_nread x) = 512)); [|lia].
    rewrite (proj2 H) in Hf; done. }
  destruct Hok as [Hl Hr Hw Hc]. assert (count (pipe_put c x) = count x + 1) as Hcnt.
  { unfold count, pipe_put, u32 in *. cbn. lia. }
  split.
  - split; [cbn; by rewrite length_insert|done|cbn; unfold u32; lia|]. change (count (pipe_put c x) <= 512). lia.
  - unfold content. rewrite Hcnt, seqZ_app, fmap_app by (unfold count, u32 in *; lia). f_equal.
    + apply list_fmap_ext. intros i k Hk. apply lookup_seqZ in Hk as [-> Hk]. cbn. unfold count, u32, PIPESIZE in *.
      rewrite !nth_lookup, list_lookup_insert_ne; [done|]. lia.
    + rewrite seqZ_single. cbn [fmap list_fmap pipe_put pi_data pi_nread]. f_equal. unfold count, u32, PIPESIZE in *. rewrite nth_lookup.
      replace (Z.to_nat ((pi_nread x + (0 + (pi_nwrite x - pi_nread x) mod 2 ^ 32)) mod 512)) with (Z.to_nat (pi_nwrite x mod 512)) by lia.
      by rewrite list_lookup_insert_eq by lia.
Qed.

Lemma get_ok x : ring_ok x -> pipe_empty x = false ->
  let '(c, x') := pipe_get x in ring_ok x' /\ content x = c :: content x'.
Proof.
  intros Hok He. assert (0 < count x) as Hlt.
  { pose proof (empty_count x Hok). unfold count, u32 in *. destruct (decide ((pi_nwrite x - pi_nread x) mod 2 ^ 32 = 0)); [|lia].
    rewrite (proj2 H) in He; done. }
  destruct Hok as [Hl Hr Hw Hc]. cbn [pipe_get]. set (x' := mkpipe _ _ _ _ _).
  assert (count x' = count x - 1) as Hcnt by (unfold count, x', u32 in *; cbn; lia). split.
  - split; [done|cbn; unfold u32; lia|done|]. change (count x' <= 512). unfold count in *. lia.
  - unfold content. replace (count x) with (1 + count x') by lia. rewrite seqZ_app, seqZ_single by (unfold count, u32; lia). cbn [app fmap list_fmap].
    f_equal; [by rewrite Z.add_0_r|].
    change (0 + 1) with (1 + 0). rewrite <- (fmap_add_seqZ 1 0), <- list_fmap_compose. apply list_fmap_ext. intros i k Hk. cbn. f_equal. unfold u32, PIPESIZE. lia.
Qed.

(** ** The lock and the queue *)

Definition in_crit (k : tpc) : bool := match k with TWLoop _ _ | TRLoop _ | TRCopy _ _ => true | _ => false end.
Definition crit (l : list tpc) (t : nat) : Prop := exists k, l !! t = Some k /\ in_crit k = true.

Record pipe_inv (s : psys) : Prop := {
  pv_ring : ring_ok (ps_pipe s);
  pv_fifo : ps_in s = ps_out s ++ content (ps_pipe s);
  pv_lock : forall t, ps_lock s = Some t <-> crit (ps_thr s) t;
}.

(** Ways to wake processes up that leave the critical sections alone. *)
Class Wakes (g : tpc -> tpc) := wakes : forall k, in_crit (g k) = in_crit k.
#[global] Instance wake_reader_wakes : Wakes wake_reader.
Proof. by intros []. Qed.
#[global] Instance wake_writer_wakes : Wakes wake_writer.
Proof. by intros []. Qed.
#[global] Instance id_wakes : Wakes id.
Proof. done. Qed.

Lemma lookup_goto (g : tpc -> tpc) (l : list tpc) (t : nat) k t' k' :
  <[t := k]> (g <$> l) !! t' = Some k' ->
  (t' = t /\ k' = k /\ is_Some (l !! t)) \/ (t' <> t /\ exists k0, l !! t' = Some k0 /\ k' = g k0).
Proof.
  destruct (decide (t' = t)) as [->|Hne].
  - intros H. assert (t < length l)%nat as Hlt by (apply lookup_lt_Some in H; by rewrite length_insert, length_fmap in H).
    rewrite list_lookup_insert_eq in H by (by rewrite length_fmap). injection H as <-. left. split_and!; [done..|]. by apply lookup_lt_is_Some.
  - rewrite list_lookup_insert_ne, list_lookup_fmap by done. destruct (l !! t') as [k0|]; [|done]. cbn. intros [= <-]. right. eauto.
Qed.

(** A process moves from [k0] to [k], waking others by [g]. *)
Lemma lock_goto g `{!Wakes g} (l : list tpc) (t : nat) k0 k lock lock' :
  l !! t = Some k0 -> (forall t', lock = Some t' <-> crit l t') ->
  (in_crit k = true -> lock' = Some t /\ (lock = None \/ lock = Some t)) ->
  (in_crit k = false -> lock' = if in_crit k0 then None else lock) ->
  forall t', lock' = Some t' <-> crit (<[t := k]> (g <$> l)) t'.
Proof.
  intros Ht Hl Hin Hout t'. assert (in_crit k0 = true -> lock = Some t) as Hk0 by (intros ?; apply Hl; by exists k0).
  assert (<[t := k]> (g <$> l) !! t = Some k) as Hself.
  { apply list_lookup_insert_eq. rewrite length_fmap. by eapply lookup_lt_Some. }
  split.
  - intros Hl'. destruct (in_crit k) eqn:Hk.
    + destruct (Hin eq_refl) as [Heq _]. assert (t' = t) as -> by congruence. by exists k.
    + rewrite (Hout eq_refl) in Hl'. destruct (in_crit k0) eqn:Hc0; [done|]. apply Hl in Hl' as (k1 & Hk1 & Hc).
      assert (t' <> t) by congruence. exists (g k1). rewrite list_lookup_insert_ne, list_lookup_fmap, Hk1 by done. by rewrite wakes.
  - intros (k1 & Hk1 & Hc). apply lookup_goto in Hk1 as [(-> & -> & _)|(Hne & k2 & Hk2 & ->)]; [by apply Hin|].
    rewrite wakes in Hc. assert (lock = Some t') as Hlt by (apply Hl; by exists k2). destruct (in_crit k) eqn:Hk.
    + destruct (Hin eq_refl) as [_ [?|?]]; congruence.
    + rewrite (Hout eq_refl). destruct (in_crit k0); [|done]. assert (lock = Some t) by auto. congruence.
Qed.

Lemma fmap_id_tpc (l : list tpc) : l = (id <$> l).
Proof. by rewrite list_fmap_id. Qed.

Lemma step_lock s t k0 : pipe_inv s -> ps_thr s !! t = Some k0 -> in_crit k0 = true -> ps_lock s = Some t.
Proof. intros Hi Ht Hc. apply (pv_lock _ Hi). by exists k0. Qed.

Lemma write_step_inv t addr i s : pipe_inv s -> ps_thr s !! t = Some (TWLoop addr i) -> pipe_inv (write_step t addr i s).
Proof.
  intros Hi Ht. pose proof Hi as [Hr Hf Hl]. pose proof (step_lock _ _ _ Hi Ht eq_refl) as Hlk. unfold write_step.
  destruct (addr !! i) as [c|]; [destruct (pipe_full (ps_pipe s)) eqn:Hfull; [destruct (_ || _)|]|]; split; try done; cbn.
  - rewrite (fmap_id_tpc (ps_thr s)). by eapply (lock_goto id).
  - by eapply (lock_goto wake_reader).
  - by apply put_ok.
  - rewrite Hf, <- app_assoc. f_equal. symmetry. by apply put_ok.
  - rewrite (fmap_id_tpc (ps_thr s)). eapply (lock_goto id); [done|exact Hl|auto|done].
  - by eapply (lock_goto wake_reader).
Qed.

Lemma read_step_inv t n s : pipe_inv s -> ps_thr s !! t = Some (TRLoop n) -> pipe_inv (read_step t n s).
Proof.
  intros Hi Ht. pose proof Hi as [Hr Hf Hl]. pose proof (step_lock _ _ _ Hi Ht eq_refl) as Hlk. unfold read_step.
  destruct (_ && _); [destruct (default false _)|]; split; try done; cbn; rewrite (fmap_id_tpc (ps_thr s)).
  - by eapply (lock_goto id).
  - by eapply (lock_goto id).
  - eapply (lock_goto id); [done|exact Hl|auto|done].
Qed.

Lemma copy_step_inv t n got s : pipe_inv s -> ps_thr s !! t = Some (TRCopy n got) -> pipe_inv (copy_step t n got s).
Proof.
  intros Hi Ht. pose proof Hi as [Hr Hf Hl]. pose proof (step_lock _ _ _ Hi Ht eq_refl) as Hlk. unfold copy_step.
  destruct (pipe_empty (ps_pipe s)) eqn:He; [rewrite orb_true_r|rewrite orb_false_r; destruct (_ <=? _)%nat].
  1,2: split; [done|done|]; cbn; by eapply (lock_goto wake_writer).
  pose proof (get_ok _ Hr He) as Hg. destruct (pipe_get (ps_pipe s)) as [c x'] eqn:Hget. destruct Hg as [Hr' Hc'].
  split; cbn; [done|by rewrite Hf, Hc', <- app_assoc|]. rewrite (fmap_id_tpc (ps_thr s)).
  eapply (lock_goto id); [done|exact Hl|auto|done].
Qed.

Lemma crit_fmap g `{!Wakes g} (l : list tpc) t : crit (g <$> l) t <-> crit l t.
Proof.
  unfold crit. rewrite list_lookup_fmap. destruct (l !! t) as [k|]; cbn; [|naive_solver].
  split; intros (k' & [= <-] & Hc); eexists; (split; [reflexivity|]); by rewrite ?wakes in *.
Qed.

Lemma kill_thr_wakes : Wakes kill_thr.
Proof. by intros []. Qed.

Lemma pstep_inv s a s' : pipe_inv s -> pstep s a = Some s' -> pipe_inv s'.
Proof.
  intros Hi. pose proof Hi as [Hr Hf Hl]. destruct a as [t addr|t n|t|t| | |t]; cbn [pstep].
  - destruct (ps_thr s !! t) as [[]|] eqn:Ht; try done. destruct (pi_writeopen _); [|done]. intros [= <-]. split; [done..|]. cbn.
    rewrite (fmap_id_tpc (ps_thr s)). by eapply (lock_goto id).
  - destruct (ps_thr s !! t) as [[]|] eqn:Ht; try done. destruct (pi_readopen _); [|done]. intros [= <-]. split; [done..|]. cbn.
    rewrite (fmap_id_tpc (ps_thr s)). by eapply (lock_goto id).
  - destruct (ps_thr s !! t) as [[|addr i|addr i|addr i|n|n|n|n got|r got]|] eqn:Ht; try done.
    + destruct (ps_lock s) eqn:Hlk; [done|]. intros [= <-]. split; [done..|]. cbn. rewrite (fmap_id_tpc (ps_thr s)).
      eapply (lock_goto id); [done|exact Hl|auto|done].
    + intros [= <-]. by apply write_step_inv.
    + destruct (ps_lock s) eqn:Hlk; [done|]. intros [= <-]. split; [done..|]. cbn. rewrite (fmap_id_tpc (ps_thr s)).
      eapply (lock_goto id); [done|exact Hl|auto|done].
    + intros [= <-]. by apply read_step_inv.
    + intros [= <-]. by apply copy_step_inv.
  - destruct (ps_thr s !! t) as [[]|] eqn:Ht; try done. intros [= <-]. split; [done..|]. cbn.
    rewrite (fmap_id_tpc (ps_thr s)). by eapply (lock_goto id).
  - destruct (_ && _); [|done]. intros [= <-]. split; [by destruct Hr; split|done|]. cbn. intros t. rewrite Hl. symmetry. exact (crit_fmap wake_reader _ t).
  - destruct (_ && _); [|done]. intros [= <-]. split; [by destruct Hr; split|done|]. cbn. intros t. rewrite Hl. symmetry. exact (crit_fmap wake_writer _ t).
  - intros [= <-]. split; [done..|]. cbn. intros t'. rewrite Hl. unfold crit. destruct (decide (t' = t)) as [->|Hne].
    + rewrite list_lookup_alter_eq. destruct (ps_thr s !! t) as [k|]; cbn; [|naive_solver].
      split; intros (k' & [= <-] & Hc); eexists; (split; [reflexivity|]); by rewrite ?kill_thr_wakes in *.
    + by rewrite list_lookup_alter_ne by done.
Qed.

Lemma start_inv n : pipe_inv (pipe_start n).
Proof.
  split; cbn; [by split|done|]. intros t. split; [done|]. intros (k & [-> _]%lookup_replicate & ?). done.
Qed.

Lemma preach_inv kills n s : preach kills (pipe_start n) s -> pipe_inv s.
Proof. induction 1; [apply start_inv|by eapply pstep_inv]. Qed.

(** ** Sleeping for a cause *)

(** Why a reader may be asleep: the pipe is empty and may be filled - or a
    writer has the lock, and wakes the readers before it gives it up. *)
Definition reader_waits (s : psys) : Prop :=
  pipe_empty (ps_pipe s) = true /\ pi_writeopen (ps_pipe s) = true \/ exists t a i, ps_thr s !! t = Some (TWLoop a i).
Definition writer_waits (s : psys) : Prop :=
  pipe_full (ps_pipe s) = true /\ pi_readopen (ps_pipe s) = true \/ exists t n g, ps_thr s !! t = Some (TRCopy n g).

Record sleep_inv (s : psys) : Prop := {
  sl_alive : forall t, default false (ps_killed s !! t) = false;
  sl_open : forall t k, ps_thr s !! t = Some k ->
    (is_reader k = true -> pi_readopen (ps_pipe s) = true) /\ (is_writer k = true -> pi_writeopen (ps_pipe s) = true);
  sl_reader : forall t n, ps_thr s !! t = Some (TRSleep n) -> reader_waits s;
  sl_writer : forall t a i, ps_thr s !! t = Some (TWSleep a i) -> writer_waits s;
}.

(** Waking never puts anybody to sleep, and leaves the two ends apart. *)
Class Rouses (g : tpc -> tpc) := {
  rouse_crit : forall k, in_crit k = true -> g k = k;
  rouse_reader : forall k n, g k = TRSleep n -> k = TRSleep n;
  rouse_writer : forall k a i, g k = TWSleep a i -> k = TWSleep a i;
  rouse_ends : forall k, is_reader (g k) = is_reader k /\ is_writer (g k) = is_writer k;
}.
#[global] Instance wake_reader_rouses : Rouses wake_reader.
Proof. split; intros []; naive_solver. Qed.
#[global] Instance wake_writer_rouses : Rouses wake_writer.
Proof. split; intros []; naive_solver. Qed.
#[global] Instance id_rouses : Rouses id.
Proof. split; naive_solver. Qed.

(** The holder of the lock is the only process in a critical section. *)
Lemma crit_one s t t' k k' : pipe_inv s -> ps_thr s !! t = Some k -> ps_thr s !! t' = Some k' ->
  in_crit k = true -> in_crit k' = true -> t = t'.
Proof. intros Hi H1 H2 H3 H4. pose proof (step_lock _ _ _ Hi H1 H3). pose proof (step_lock _ _ _ Hi H2 H4). congruence. Qed.

(** What has to be checked when process [t] moves from [k0] to [k]. *)
Lemma sleep_goto g `{!Rouses g} s s' t k0 k :
  sleep_inv s -> ps_thr s !! t = Some k0 ->
  ps_thr s' = <[t := k]> (g <$> ps_thr s) -> ps_killed s' = ps_killed s ->
  pi_readopen (ps_pipe s') = pi_readopen (ps_pipe s) -> pi_writeopen (ps_pipe s') = pi_writeopen (ps_pipe s) ->
  (is_reader k = true -> is_reader k0 = true \/ pi_readopen (ps_pipe s) = true) ->
  (is_writer k = true -> is_writer k0 = true \/ pi_writeopen (ps_pipe s) = true) ->
  ((exists n, k = TRSleep n) \/ (exists t' n, ps_thr s !! t' = Some (TRSleep n) /\ g (TRSleep n) = TRSleep n) -> reader_waits s') ->
  ((exists a i, k = TWSleep a i) \/ (exists t' a i, ps_thr s !! t' = Some (TWSleep a i) /\ g (TWSleep a i) = TWSleep a i) -> writer_waits s') ->
  sleep_inv s'.
Proof.
  intros [Ha Ho Hr Hw] Ht Hthr Hkl Hro Hwo Hkr Hkw Hsr Hsw. split.
  - intros t'. by rewrite Hkl.
  - intros t' k'. rewrite Hthr, Hro, Hwo. intros [(-> & -> & _)|(Hne & k1 & Hk1 & ->)]%lookup_goto.
    + destruct (Ho t k0 Ht) as [Ho1 Ho2]. split; [intros [?|?]%Hkr|intros [?|?]%Hkw]; auto.
    + destruct (Ho t' k1 Hk1) as [Ho1 Ho2]. destruct (rouse_ends k1) as [-> ->]. done.
  - intros t' n. rewrite Hthr. intros [(-> & Hk & _)|(Hne & k1 & Hk1 & Hg)]%lookup_goto; apply Hsr; [left; by exists n|right].
    exists t', n. pose proof (rouse_reader k1 n (eq_sym Hg)) as ->. done.
  - intros t' a i. rewrite Hthr. intros [(-> & Hk & _)|(Hne & k1 & Hk1 & Hg)]%lookup_goto; apply Hsw; [left; by exists a, i|right].
    exists t', a, i. pose proof (rouse_writer k1 a i (eq_sym Hg)) as ->. done.
Qed.

(** A cause lasts while the pipe does not change and its holder stays. *)
Lemma reader_waits_goto g `{!Rouses g} s s' (t : nat) k0 k :
  reader_waits s -> ps_thr s !! t = Some k0 -> ps_thr s' = <[t := k]> (g <$> ps_thr s) -> ps_pipe s' = ps_pipe s ->
  (forall a i, k0 <> TWLoop a i) -> reader_waits s'.
Proof.
  intros [Hc|(t' & a & i & Ht')] Ht Hthr Hp Hk0; [left; by rewrite Hp|right]. exists t', a, i.
  assert (t' <> t) by (intros ->; rewrite Ht in Ht'; injection Ht' as ->; by apply (Hk0 a i)).
  rewrite Hthr, list_lookup_insert_ne, list_lookup_fmap, Ht' by done. cbn. by rewrite rouse_crit.
Qed.

Lemma writer_waits_goto g `{!Rouses g} s s' (t : nat) k0 k :
  writer_waits s -> ps_thr s !! t = Some k0 -> ps_thr s' = <[t := k]> (g <$> ps_thr s) -> ps_pipe s' = ps_pipe s ->
  (forall n got, k0 <> TRCopy n got) -> writer_waits s'.
Proof.
  intros [Hc|(t' & n & got & Ht')] Ht Hthr Hp Hk0; [left; by rewrite Hp|right]. exists t', n, got.
  assert (t' <> t) by (intros ->; rewrite Ht in Ht'; injection Ht' as ->; by apply (Hk0 n got)).
  rewrite Hthr, list_lookup_insert_ne, list_lookup_fmap, Ht' by done. cbn. by rewrite rouse_crit.
Qed.

(** A process moves without going to sleep or ending a critical section that
    changed the pipe. *)
Lemma sleep_plain s s' t k0 k :
  sleep_inv s -> ps_thr s !! t = Some k0 -> ps_thr s' = <[t := k]> (ps_thr s) -> ps_killed s' = ps_killed s -> ps_pipe s' = ps_pipe s ->
  (is_reader k = true -> is_reader k0 = true \/ pi_readopen (ps_pipe s) = true) ->
  (is_writer k = true -> is_writer k0 = true \/ pi_writeopen (ps_pipe s) = true) ->
  (forall a i, k0 <> TWLoop a i) -> (forall n got, k0 <> TRCopy n got) ->
  (forall n, k = TRSleep n -> reader_waits s') -> (forall a i, k <> TWSleep a i) ->
  sleep_inv s'.
Proof.
  intros Hs Ht Hthr Hkl Hp Hkr Hkw Hn1 Hn2 Hn3 Hn4. rewrite (fmap_id_tpc (ps_thr s)) in Hthr.
  eapply (sleep_goto id s s' t k0 k); try done; [by rewrite Hp..| |].
  - intros [[n ->]|(t' & n & Ht' & _)]; [by apply (Hn3 n)|].
    eapply (reader_waits_goto id s s' t); try done. by eapply sl_reader.
  - intros [(a & i & ->)|(t' & a & i & Ht' & _)]; [by destruct (Hn4 a i)|].
    eapply (writer_waits_goto id s s' t); try done. by eapply sl_writer.
Qed.

Lemma write_step_sleep t addr i s :
  pipe_inv s -> sleep_inv s -> ps_thr s !! t = Some (TWLoop addr i) -> sleep_inv (write_step t addr i s).
Proof.
  intros Hi Hs Ht. pose proof Hs as [Ha Ho Hr Hw]. destruct (Ho t _ Ht) as [_ Hwo]. specialize (Hwo eq_refl).
  assert (forall t' a j, ps_thr s !! t' = Some (TWSleep a j) -> pipe_full (ps_pipe s) = true /\ pi_readopen (ps_pipe s) = true) as Hfull.
  { intros t' a j Ht'. destruct (Hw t' a j Ht') as [?|(t2 & n & g & Ht2)]; [done|].
    assert (t = t2) as <- by (by eapply (crit_one s)). congruence. }
  unfold write_step. destruct (addr !! i) as [c|]; [destruct (pipe_full (ps_pipe s)) eqn:Hf; [destruct (_ || _) eqn:Hb|]|].
  - rewrite Ha, orb_false_r in Hb. apply negb_true_iff in Hb.
    eapply (sleep_goto id s _ t); [done|exact Ht|by rewrite <- fmap_id_tpc|done..| |].
    + intros [[n [=]]|(t' & n & Ht' & _)]. destruct (Ho _ _ Ht') as [Hro _]. specialize (Hro eq_refl). congruence.
    + intros [(a & j & [=])|(t' & a & j & Ht' & _)]. destruct (Hfull _ _ _ Ht'). congruence.
  - rewrite Ha, orb_false_r in Hb. apply negb_false_iff in Hb.
    eapply (sleep_goto wake_reader s _ t); [done|exact Ht|done..|by right| |].
    + intros [[n [=]]|(t' & n & Ht' & [=])].
    + intros _. by left.
  - eapply (sleep_goto id s _ t); [done|exact Ht|by rewrite <- fmap_id_tpc|done..|by left| |].
    + intros _. right. exists t, addr, (S i). apply list_lookup_insert_eq. by eapply lookup_lt_Some.
    + intros [(a & j & [=])|(t' & a & j & Ht' & _)]. destruct (Hfull _ _ _ Ht'). congruence.
  - eapply (sleep_goto wake_reader s _ t); [done|exact Ht|done..| |].
    + intros [[n [=]]|(t' & n & Ht' & [=])].
    + intros [(a & j & [=])|(t' & a & j & Ht' & _)]. left. by eapply Hfull.
Qed.

Lemma read_step_sleep t n s :
  sleep_inv s -> ps_thr s !! t = Some (TRLoop n) -> sleep_inv (read_step t n s).
Proof.
  intros Hs Ht. pose proof Hs as [Ha Ho Hr Hw]. unfold read_step. destruct (_ && _) eqn:Hb.
  - rewrite Ha. apply andb_true_iff in Hb as [He Hwo]. eapply (sleep_plain s _ t); try done; [by left|]. intros k [= <-]. by left.
  - eapply (sleep_plain s _ t); try done. by left.
Qed.

Lemma copy_step_sleep t n got s :
  pipe_inv s -> sleep_inv s -> ps_thr s !! t = Some (TRCopy n got) -> sleep_inv (copy_step t n got s).
Proof.
  intros Hi Hs Ht. pose proof Hs as [Ha Ho Hr Hw].
  assert (forall t' k, ps_thr s !! t' = Some (TRSleep k) -> pipe_empty (ps_pipe s) = true /\ pi_writeopen (ps_pipe s) = true) as Hempty.
  { intros t' k Ht'. destruct (Hr t' k Ht') as [?|(t2 & a & j & Ht2)]; [done|].
    assert (t = t2) as <- by (by eapply (crit_one s)). congruence. }
  unfold copy_step. destruct ((n <=? length got)%nat || pipe_empty (ps_pipe s)) eqn:Hb.
  - eapply (sleep_goto wake_writer s _ t); [done|exact Ht|done..| |].
    + intros [[k [=]]|(t' & k & Ht' & _)]. left. by eapply Hempty.
    + intros [(a & j & [=])|(t' & a & j & Ht' & [=])].
  - apply orb_false_iff in Hb as [_ He]. destruct (pipe_get (ps_pipe s)) as [c x'] eqn:Hg. injection Hg as <- <-.
    eapply (sleep_goto id s _ t); [done|exact Ht|by rewrite <- fmap_id_tpc|done..|by left|done| |].
    + intros [[k [=]]|(t' & k & Ht' & _)]. destruct (Hempty _ _ Ht'). congruence.
    + intros _. right. eexists t, _, _. apply list_lookup_insert_eq. by eapply lookup_lt_Some.
Qed.

Lemma close_write_sleep s :
  sleep_inv s -> forallb (fun k => negb (is_writer k)) (ps_thr s) = true -> sleep_inv (wakeup_readers (upd_pipe close_write s)).
Proof.
  intros [Ha Ho Hr Hw] Hno. rewrite forallb_forall in Hno.
  assert (forall t k, ps_thr s !! t = Some k -> is_writer k = false) as Hn.
  { intros t k Hk. apply negb_true_iff, Hno, list_elem_of_In. by eapply list_elem_of_lookup_2. }
  split; cbn; [done|..].
  - intros t k. rewrite list_lookup_fmap. destruct (ps_thr s !! t) as [k0|] eqn:Hk; [|done]. cbn. intros [= <-].
    destruct (rouse_ends (g := wake_reader) k0) as [-> ->]. split; [by apply (Ho t)|]. by rewrite (Hn t).
  - intros t n. rewrite list_lookup_fmap. destruct (ps_thr s !! t) as [k0|] eqn:Hk; [|done]. cbn. intros [= Hg]. by destruct k0.
  - intros t a i. rewrite list_lookup_fmap. destruct (ps_thr s !! t) as [k0|] eqn:Hk; [|done]. cbn. intros [= Hg].
    apply rouse_writer in Hg as ->. by pose proof (Hn _ _ Hk).
Qed.

Lemma close_read_sleep s :
  sleep_inv s -> forallb (fun k => negb (is_reader k)) (ps_thr s) = true -> sleep_inv (wakeup_writers (upd_pipe close_read s)).
Proof.
  intros [Ha Ho Hr Hw] Hno. rewrite forallb_forall in Hno.
  assert (forall t k, ps_thr s !! t = Some k -> is_reader k = false) as Hn.
  { intros t k Hk. apply negb_true_iff, Hno, list_elem_of_In. by eapply list_elem_of_lookup_2. }
  split; cbn; [done|..].
  - intros t k. rewrite list_lookup_fmap. destruct (ps_thr s !! t) as [k0|] eqn:Hk; [|done]. cbn. intros [= <-].
    destruct (rouse_ends (g := wake_writer) k0) as [-> ->]. split; [by rewrite (Hn t)|by apply (Ho t)].
  - intros t n. rewrite list_lookup_fmap. destruct (ps_thr s !! t) as [k0|] eqn:Hk; [|done]. cbn. intros [= Hg].
    apply rouse_reader in Hg as ->. by pose proof (Hn _ _ Hk).
  - intros t a i. rewrite list_lookup_fmap. destruct (ps_thr s !! t) as [k0|] eqn:Hk; [|done]. cbn. intros [= Hg]. by destruct k0.
Qed.

Lemma pstep_sleep s a s' :
  pipe_inv s -> sleep_inv s -> (forall t, a <> PKill t) -> pstep s a = Some s' -> sleep_inv s'.
Proof.
  intros Hi Hs Hnk. destruct a as [t addr|t n|t|t| | |t]; cbn [pstep]; [..|by destruct (Hnk t)].
  - destruct (ps_thr s !! t) as [[]|] eqn:Ht; try done. destruct (pi_writeopen _) eqn:Ho; [|done]. intros [= <-].
    eapply (sleep_plain s _ t); try done. by right.
  - destruct (ps_thr s !! t) as [[]|] eqn:Ht; try done. destruct (pi_readopen _) eqn:Ho; [|done]. intros [= <-].
    eapply (sleep_plain s _ t); try done. by right.
  - destruct (ps_thr s !! t) as [[|addr i|addr i|addr i|n|n|n|n got|r got]|] eqn:Ht; try done.
    + destruct (ps_lock s); [done|]. intros [= <-]. eapply (sleep_plain s _ t); try done. by left.
    + intros [= <-]. by apply write_step_sleep.
    + destruct (ps_lock s); [done|]. intros [= <-]. eapply (sleep_plain s _ t); try done. by left.
    + intros [= <-]. by apply read_step_sleep.
    + intros [= <-]. by apply copy_step_sleep.
  - destruct (ps_thr s !! t) as [[]|] eqn:Ht; try done. intros [= <-]. by eapply (sleep_plain s _ t).
  - destruct (forallb _ _ && _) eqn:Hb; [|done]. apply andb_true_iff in Hb as [Hb _]. intros [= <-]. by apply close_write_sleep.
  - destruct (forallb _ _ && _) eqn:Hb; [|done]. apply andb_true_iff in Hb as [Hb _]. intros [= <-]. by apply close_read_sleep.
Qed.

Lemma start_sleep n : sleep_inv (pipe_start n).
Proof.
  split; cbn.
  - intros t. destruct (replicate n false !! t) as [b|] eqn:Hb; [|done]. by apply lookup_replicate in Hb as [-> _].
  - intros t k [-> _]%lookup_replicate. done.
  - intros t k [[=] _]%lookup_replicate.
  - intros t a i [[=] _]%lookup_replicate.
Qed.

Lemma preach_sleep n s : preach False (pipe_start n) s -> sleep_inv s.
Proof.
  induction 1 as [|s a s' Hr IH Hk Hs]; [apply start_sleep|]. eapply pstep_sleep; [by eapply preach_inv|done| |done].
  intros t ->. by apply (Hk t).
Qed.

(** C24: a pipe is a queue.  Whatever processes read, write, close and are
    killed, in whatever order, the bytes taken out of the pipe are the bytes
    put in, in order: those put in and not yet taken out are in the ring, at
    most 512 of them. *)
Theorem pipe_fifo (n : nat) (s : psys) :
  preach True (pipe_start n) s ->
  ps_in s = ps_out s ++ content (ps_pipe s) /\ (length (content (ps_pipe s)) <= 512)%nat /\
  forall t1 t2, crit (ps_thr s) t1 -> crit (ps_thr s) t2 -> t1 = t2.
Proof.
  intros Hr. pose proof (preach_inv _ _ _ Hr) as Hi. pose proof Hi as [Hring Hf Hl]. split; [done|]. split.
  - unfold content. rewrite length_fmap, length_seqZ. pose proof (ri_count _ Hring). unfold count, u32 in *. lia.
  - intros t1 t2 H1%Hl H2%Hl. congruence.
Qed.

(** C25: nobody sleeps without a cause.  While no process is killed, whenever
    the pipe's lock is free a reader is asleep only if the pipe is empty and
    its write end open, and a writer only if it is full and its read end
    open: no wakeup is lost, and readers and writers never wait for each
    other. *)
Theorem pipe_no_lost_wakeup (n : nat) (s : psys) :
  preach False (pipe_start n) s -> ps_lock s = None ->
  (forall t k, ps_thr s !! t = Some (TRSleep k) -> pipe_empty (ps_pipe s) = true /\ pi_writeopen (ps_pipe s) = true) /\
  (forall t a i, ps_thr s !! t = Some (TWSleep a i) -> pipe_full (ps_pipe s) = true /\ pi_readopen (ps_pipe s) = true) /\
  (forall t t' k a i, ps_thr s !! t = Some (TRSleep k) -> ps_thr s !! t' <> Some (TWSleep a i)).
Proof.
  intros Hr Hl. pose proof (preach_inv _ _ _ Hr) as Hi. destruct (preach_sleep _ _ Hr) as [_ _ Hrd Hwr].
  assert (forall t k, ps_thr s !! t = Some k -> in_crit k = false) as Hfree.
  { intros t k Ht. destruct (in_crit k) eqn:Hc; [|done]. pose proof (step_lock _ _ _ Hi Ht Hc). congruence. }
  assert (forall t k, ps_thr s !! t = Some (TRSleep k) -> pipe_empty (ps_pipe s) = true /\ pi_writeopen (ps_pipe s) = true) as H1.
  { intros t k Ht. destruct (Hrd t k Ht) as [?|(t' & a & i & Ht')]; [done|]. by pose proof (Hfree _ _ Ht'). }
  assert (forall t a i, ps_thr s !! t = Some (TWSleep a i) -> pipe_full (ps_pipe s) = true /\ pi_readopen (ps_pipe s) = true) as H2.
  { intros t a i Ht. destruct (Hwr t a i Ht) as [?|(t' & k & g & Ht')]; [done|]. by pose proof (Hfree _ _ Ht'). }
  split_and!; [done..|]. intros t t' k a i Ht Ht'. destruct (H1 _ _ Ht) as [He _], (H2 _ _ _ Ht') as [Hf _].
  apply (empty_count _ (pv_ring _ Hi)) in He. apply (full_count _ (pv_ring _ Hi)) in Hf. lia.
Qed.

(** Runs of given actions. *)
Fixpoint pplay (s : psys) (l : list pact) : option psys :=
  match l with
  | [] => Some s
  | a :: l => match pstep s a with Some s' => pplay s' l | None => None end
  end.

Definition is_kill (a : pact) : bool := match a with PKill _ => true | _ => false end.

Lemma pplay_reach (kills : Prop) s0 s l s' :
  (kills \/ forallb (fun a => negb (is_kill a)) l = true) -> preach kills s0 s -> pplay s l = Some s' -> preach kills s0 s'.
Proof.
  intros Hk. revert s Hk. induction l as [|a l IH]; intros s Hk Hr; cbn [pplay]; [by intros [= <-]|].
  destruct (pstep s a) as [s1|] eqn:Hs; [|done]. apply IH.
  - destruct Hk as [?|Hk]; [by left|right]. cbn in Hk. by apply andb_true_iff in Hk as [_ ?].
  - eapply preach_step; [done| |done]. intros t ->. by destruct Hk as [?|?].
Qed.

(** A reader sleeps, a writer writes three bytes and wakes it, the reader
    reads two of them. *)
Definition demo_pipe_trace : list pact :=
  [PRead 0 2; PStep 0; PStep 0; PWrite 1 [7; 8; 9]%Z; PStep 1; PStep 1; PStep 1; PStep 1; PStep 1;
   PStep 0; PStep 0; PStep 0; PStep 0; PStep 0]%nat.

Definition demo_pipe : psys := default (pipe_start 2) (pplay (pipe_start 2) demo_pipe_trace).

Lemma pipe_fifo_witness : ps_out demo_pipe = [7; 8] /\ ps_in demo_pipe = ps_out demo_pipe ++ content (ps_pipe demo_pipe).
Proof.
  split; [vm_compute; reflexivity|]. apply (pipe_fifo 2 demo_pipe).
  eapply (pplay_reach True _ _ demo_pipe_trace); [by left|constructor|]. vm_compute. reflexivity.
Defined.

(** The reader asleep. *)
Definition demo_asleep : psys := default (pipe_start 2) (pplay (pipe_start 2) (take 3 demo_pipe_trace)).

Lemma pipe_no_lost_wakeup_witness :
  ps_thr demo_asleep !! 0%nat = Some (TRSleep 2) /\ pipe_empty (ps_pipe demo_asleep) = true.
Proof.
  split; [vm_compute; reflexivity|].
  destruct (pipe_no_lost_wakeup 2 demo_asleep) as [Hr _]; [|vm_compute; reflexivity|by apply (Hr 0%nat 2%nat); vm_compute].
  eapply (pplay_reach False _ _ (take 3 demo_pipe_trace)); [by right|constructor|]. vm_compute. reflexivity.
Defined.

(** Finding: a writer that is killed while it fills the pipe returns -1 at
    the full test without waking the readers.  The reader then sleeps on a
    full pipe, and as long as another process keeps the write end open
    without writing nobody wakes it. *)
Example killed_writer_loses_wakeup :
  exists s, preach True (pipe_start 3) s /\ ps_lock s = None /\ ps_thr s !! 0%nat = Some (TRSleep 1) /\
    pipe_full (ps_pipe s) = true /\ ps_thr s !! 1%nat = Some (TRet (-1) []) /\
    forall t, pstep s (PStep t) = None.
Proof.
  set (tr := [PRead 0 1; PStep 0; PStep 0; PWrite 1 (replicate 513 5%Z); PStep 1; PKill 1]%nat ++ replicate 513 (PStep 1)).
  exists (default (pipe_start 3) (pplay (pipe_start 3) tr)). split.
  { eapply (pplay_reach True _ _ tr); [by left|constructor|]. vm_compute. reflexivity. }
  split; [vm_compute; reflexivity|]. split; [vm_compute; reflexivity|]. split; [vm_compute; reflexivity|]. split; [vm_compute; reflexivity|].
  intros t. assert (ps_thr (default (pipe_start 3) (pplay (pipe_start 3) tr)) = [TRSleep 1; TRet (-1) []; TIdle]) as Heq by (vm_compute; reflexivity).
  cbn [pstep]. rewrite Heq. destruct t as [|[|[|t]]]; done.
Qed.
