(* ===== verification/Shell.v ===== *)
(** * The shell's parser: [sh.c]

    A pointer into the command line is the rest of the line from there on:
    [q] and [eq] of a token are two suffixes of the line.  [nulterminate]
    writes into the line itself, so the words of the parsed command are read
    back from the changed line. *)

From stdpp Require Import base gmap strings numbers list.
From S2P Require Import Prelude.

Abbreviation str := (list Z).

Definition whitespace : str := [32; 9; 13; 10; 11].
Definition symbols : str := [60; 124; 62; 38; 59; 40; 41].

Definition c_lt : Z := 60.
Definition c_bar : Z := 124.
Definition c_gt : Z := 62.
Definition c_amp : Z := 38.
Definition c_semi : Z := 59.
Definition c_open : Z := 40.
Definition c_close : Z := 41.
Definition c_plus : Z := 43.
Definition c_a : Z := 97.

(** [strchr(s, c)] as a test; a NUL is never found. *)
Definition strchr (s : str) (c : Z) : bool := negb (c =? 0) && existsb (fun x => x =? c) s.

(** [*s]: the line ends in a NUL. *)
Definition hd0 (s : str) : Z := match s with [] => 0 | c :: _ => c end.

Definition O_RDONLY : Z := 0.
Definition O_WRONLY : Z := 1.
Definition O_CREATE : Z := 0x200.

Definition MAXARGS : nat := 10.

(** [struct cmd] and its variants, over words of type [A]. *)
Inductive cmd (A : Type) :=
| EXEC (argv : list A)
| REDIR (c : cmd A) (file : A) (mode fd : Z)
| PIPE (l r : cmd A)
| LIST (l r : cmd A)
| BACK (c : cmd A).
Arguments EXEC {A} argv.
Arguments REDIR {A} c file mode fd.
Arguments PIPE {A} l r.
Arguments LIST {A} l r.
Arguments BACK {A} c.

(** A counted string: where it starts and where it ends. *)
Abbreviation word := (str * str)%type.

(** ** Tokens *)

Fixpoint skip (f : Z -> bool) (s : str) : str :=
  match s with
  | c :: s' => if f c then skip f s' else s
  | [] => []
  end.

Definition skipws : str -> str := skip (strchr whitespace).
Definition wordchar (c : Z) : bool := negb (strchr whitespace c) && negb (strchr symbols c).
Definition skipword : str -> str := skip wordchar.

(** The kind of token, [*q], [*eq] and the new [*ps]. *)
Definition gettoken (s : str) : Z * str * str * str :=
  let s := skipws s in
  let q := s in
  match s with
  | [] => (0, q, s, s)
  | c :: s' =>
      if (c =? c_bar) || (c =? c_open) || (c =? c_close) || (c =? c_semi) || (c =? c_amp) || (c =? c_lt)
      then (c, q, s', skipws s')
      else if c =? c_gt then
        if hd0 s' =? c_gt then (c_plus, q, tail s', skipws (tail s')) else (c, q, s', skipws s')
      else (c_a, q, skipword s, skipws (skipword s))
  end.

Definition peek (s : str) (toks : str) : str * bool :=
  let s := skipws s in (s, negb (hd0 s =? 0) && strchr toks (hd0 s)).

(** ** Parsing *)

(** A redirection: file, mode and descriptor. *)
Abbreviation redir := (word * Z * Z)%type.

(** [redircmd(cmd, q, eq, mode, fd)] for each redirection in turn. *)
Definition wrap {A} (c : cmd A) (rs : list (A * Z * Z)) : cmd A :=
  foldl (fun c '(f, mode, fd) => REDIR c f mode fd) c rs.

(** The redirections [parseredirs] puts around its command, in order. *)
Fixpoint parseredirs (fuel : nat) (s : str) : outcome (list redir * str) :=
  match fuel with
  | O => Fail OutOfFuel
  | S fuel =>
      let '(s, b) := peek s [c_lt; c_gt] in
      if b then
        let '(tok, _, _, s) := gettoken s in
        let '(tok2, q, eq, s) := gettoken s in
        if negb (tok2 =? c_a) then Fail (Panic "missing file for redirection")
        else
          let r := if tok =? c_lt then ((q, eq), O_RDONLY, 0)
                   else ((q, eq), Z.lor O_WRONLY O_CREATE, 1) in
          let? (rs, s) := parseredirs fuel s in Ok (r :: rs, s)
      else Ok ([], s)
  end.

(** The loop of [parseexec] over the arguments: what it adds to [argv], and
    the redirections among them. *)
Fixpoint parseargs (fuel : nat) (argc : nat) (s : str) : outcome (list word * list redir * str) :=
  match fuel with
  | O => Fail OutOfFuel
  | S fuel =>
      let '(s, b) := peek s [c_bar; c_close; c_amp; c_semi] in
      if b then Ok ([], [], s)
      else
        let '(tok, q, eq, s) := gettoken s in
        if tok =? 0 then Ok ([], [], s)
        else if negb (tok =? c_a) then Fail (Panic "syntax")
        else if (MAXARGS <=? S argc)%nat then Fail (Panic "too many args")
        else
          let? (rs, s) := parseredirs fuel s in
          let? (ws, rs', s) := parseargs fuel (S argc) s in
          Ok ((q, eq) :: ws, rs ++ rs', s)
  end.

(** [while(peek(ps, es, "&"))] of [parseline] *)
Fixpoint parsebacks (fuel : nat) (c : cmd word) (s : str) : outcome (cmd word * str) :=
  match fuel with
  | O => Fail OutOfFuel
  | S fuel =>
      let '(s, b) := peek s [c_amp] in
      if b then let '(_, _, _, s) := gettoken s in parsebacks fuel (BACK c) s else Ok (c, s)
  end.

Fixpoint parseline (fuel : nat) (s : str) : outcome (cmd word * str) :=
  match fuel with
  | O => Fail OutOfFuel
  | S fuel =>
      let? (c, s) := parsepipe fuel s in
      let? (c, s) := parsebacks fuel c s in
      let '(s, b) := peek s [c_semi] in
      if b then
        let '(_, _, _, s) := gettoken s in
        let? (r, s) := parseline fuel s in Ok (LIST c r, s)
      else Ok (c, s)
  end
with parsepipe (fuel : nat) (s : str) : outcome (cmd word * str) :=
  match fuel with
  | O => Fail OutOfFuel
  | S fuel =>
      let? (c, s) := parseexec fuel s in
      let '(s, b) := peek s [c_bar] in
      if b then
        let '(_, _, _, s) := gettoken s in
        let? (r, s) := parsepipe fuel s in Ok (PIPE c r, s)
      else Ok (c, s)
  end
with parseexec (fuel : nat) (s : str) : outcome (cmd word * str) :=
  match fuel with
  | O => Fail OutOfFuel
  | S fuel =>
      let '(s, b) := peek s [c_open] in
      if b then parseblock fuel s
      else
        (* the execcmd stays inside the redircmds put around it *)
        let? (rs, s) := parseredirs fuel s in
        let? (ws, rs', s) := parseargs fuel 0 s in
        Ok (wrap (EXEC ws) (rs ++ rs'), s)
  end
with parseblock (fuel : nat) (s : str) : outcome (cmd word * str) :=
  match fuel with
  | O => Fail OutOfFuel
  | S fuel =>
      let '(s, b) := peek s [c_open] in
      if negb b then Fail (Panic "parseblock")
      else
        let '(_, _, _, s) := gettoken s in
        let? (c, s) := parseline fuel s in
        let '(s, b) := peek s [c_close] in
        if negb b then Fail (Panic "syntax - missing )")
        else
          let '(_, _, _, s) := gettoken s in
          let? (rs, s) := parseredirs fuel s in
          Ok (wrap c rs, s)
  end.

(** [*p = 0] for a pointer into the line. *)
Definition put_nul (line : str) (p : str) (buf : str) : str := <[(length line - length p)%nat := 0]> buf.

(** NUL-terminate all the counted strings. *)
Fixpoint nulterminate (line : str) (c : cmd word) (buf : str) : str :=
  match c with
  | EXEC ws => foldl (fun b w => put_nul line (snd w) b) buf ws
  | REDIR c f _ _ => put_nul line (snd f) (nulterminate line c buf)
  | PIPE l r | LIST l r => nulterminate line r (nulterminate line l buf)
  | BACK c => nulterminate line c buf
  end.

(** The command and the line, with its terminator, afterwards. *)
Definition parsecmd (line : str) : outcome (cmd word * str) :=
  let? (c, s) := parseline (4 * length line + 8) line in
  let '(s, _) := peek s [] in
  match s with
  | [] => Ok (c, nulterminate line c (line ++ [0]))
  | _ => Fail (Panic "syntax")
  end.

(** ** Words *)

(** A word of the line: it ends where its characters do. *)
Definition delim (s : str) : Prop := match s with [] => True | c :: _ => wordchar c = false end.
Definition good (line : str) (x : word) : Prop :=
  fst x `suffix_of` line /\ delim (snd x) /\ exists w, fst x = w ++ snd x /\ w <> [] /\ Forall (fun c => wordchar c = true) w.

Fixpoint cmd_words {A} (c : cmd A) : list A :=
  match c with
  | EXEC ws => ws
  | REDIR c f _ _ => f :: cmd_words c
  | PIPE l r | LIST l r => cmd_words l ++ cmd_words r
  | BACK c => cmd_words c
  end.

Lemma skip_suffix f s : skip f s `suffix_of` s.
Proof. induction s as [|c s IH]; cbn; [done|]. destruct (f c); [|done]. by apply suffix_cons_r. Qed.

Lemma skip_split f s : exists w, s = w ++ skip f s /\ Forall (fun c => f c = true) w.
Proof.
  induction s as [|c s IH]; cbn; [by exists []|]. destruct (f c) eqn:Hf; [|by exists []].
  destruct IH as (w & Hw & Hall). exists (c :: w). split; [by rewrite Hw at 1|by constructor].
Qed.

Lemma skip_stop f s : match skip f s with [] => True | c :: _ => f c = false end.
Proof. induction s as [|c s IH]; cbn; [done|]. by destruct (f c) eqn:Hf. Qed.

Lemma skipws_suffix s : skipws s `suffix_of` s.
Proof. apply skip_suffix. Qed.

(** A token other than the end of the line takes characters. *)
Lemma gettoken_spec s tok q eq s' : gettoken s = (tok, q, eq, s') ->
  s' `suffix_of` s /\ (tok <> 0 -> (length s' < length s)%nat) /\ (tok = c_a -> good s (q, eq)).
Proof.
  unfold gettoken. pose proof (skipws_suffix s) as Hs. pose proof (skip_stop (strchr whitespace) s) as Hst.
  fold skipws in Hst. destruct (skipws s) as [|c r] eqn:Hr.
  { intros [= <- <- <- <-]. split_and!; [done|done|by intros [=]]. }
  pose proof (suffix_length _ _ Hs) as Hlen. cbn [length] in Hlen.
  assert (forall x, x `suffix_of` r -> x `suffix_of` s /\ (length x < length s)%nat) as Hx.
  { intros x Hx. split; [etrans; [exact Hx|]; etrans; [|exact Hs]; by apply suffix_cons_r|].
    apply suffix_length in Hx. lia. }
  destruct (_ || _ || _ || _ || _ || _) eqn:Hsym.
  { intros [= <- <- <- <-]. destruct (Hx (skipws r)); [apply skipws_suffix|]. split_and!; try done. intros ->. by vm_compute in Hsym. }
  destruct (Z.eqb_spec c c_gt) as [->|Hgt].
  { assert (tail r `suffix_of` r) as Ht by (destruct r; [done|by apply suffix_cons_r]).
    destruct (hd0 r =? c_gt); intros [= <- <- <- <-].
    - destruct (Hx (skipws (tail r))); [etrans; [apply skipws_suffix|done]|]. split_and!; done.
    - destruct (Hx (skipws r)); [apply skipws_suffix|]. split_and!; done. }
  intros [= <- <- <- <-].
  assert (wordchar c = true) as Hw.
  { unfold wordchar. rewrite Hst. cbn. unfold strchr, symbols. rewrite !orb_false_iff in Hsym.
    destruct Hsym as (((((H1 & H2) & H3) & H4) & H5) & H6). apply negb_true_iff, andb_false_iff. right. cbn [existsb].
    rewrite (Z.eqb_sym 60), (Z.eqb_sym 124), (Z.eqb_sym 62), (Z.eqb_sym 38), (Z.eqb_sym 59), (Z.eqb_sym 40), (Z.eqb_sym 41).
    unfold c_bar, c_open, c_close, c_semi, c_amp, c_lt, c_gt in *. rewrite H1, H2, H3, H4, H5, H6, (proj2 (Z.eqb_neq _ _) Hgt). done. }
  assert (skipword (c :: r) = skipword r) as Hsk by (unfold skipword; cbn; by rewrite Hw).
  assert (skipword r `suffix_of` r) as Hsr by apply skip_suffix.
  destruct (Hx (skipws (skipword (c :: r)))) as [H1 H2]; [rewrite Hsk; etrans; [apply skipws_suffix|done]|].
  split_and!; [done|done|]. intros _. split; [exact Hs|]. cbn [fst snd]. split.
  - pose proof (skip_stop wordchar (c :: r)) as Hd. exact Hd.
  - destruct (skip_split wordchar r) as (w & Heq & Hall). exists (c :: w). rewrite Hsk. split; [cbn; f_equal; exact Heq|].
    split; [done|by constructor].
Qed.

Lemma peek_spec s toks s' b : peek s toks = (s', b) -> s' `suffix_of` s /\ (b = true -> s' <> [] /\ strchr toks (hd0 s') = true).
Proof.
  intros [= <- <-]. split; [apply skipws_suffix|]. intros [H1 H2]%andb_true_iff. split; [|done]. by intros Heq; rewrite Heq in H1.
Qed.

(** After a successful [peek] for symbols the next token is not the end. *)
Lemma gettoken_peek s toks : snd (peek s toks) = true -> fst (fst (fst (gettoken (fst (peek s toks))))) <> 0.
Proof.
  unfold peek. cbn [fst snd]. intros [H1 H2]%andb_true_iff. unfold gettoken.
  assert (skipws (skipws s) = skipws s) as ->.
  { pose proof (skip_stop (strchr whitespace) s) as Hst. fold skipws in Hst. destruct (skipws s) as [|c r]; [done|].
    unfold skipws. cbn. by rewrite Hst. }
  destruct (skipws s) as [|c r]; [done|]. destruct (_ || _ || _ || _ || _ || _) eqn:Hsym; cbn [fst].
  { intros ->. by vm_compute in Hsym. }
  destruct (Z.eqb_spec c c_gt) as [->|]; [destruct (hd0 r =? c_gt)|]; done.
Qed.

(** ** The parser returns *)

(** A parse of [s] that ends: with a result [P] and the rest of the line, or
    with a syntax error. *)
Definition ends {A} (s : str) (P : A -> Prop) (o : outcome (A * str)) : Prop :=
  match o with
  | Ok (r, s') => s' `suffix_of` s /\ P r
  | Fail (Panic _) => True
  | Fail _ => False
  end.

Lemma ends_bind {A B} s (P : A -> Prop) (Q : B -> Prop) (o : outcome (A * str)) (k : A -> str -> outcome (B * str)) :
  ends s P o -> (forall r s', s' `suffix_of` s -> P r -> ends s' Q (k r s')) -> ends s Q (obind o (fun '(r, s') => k r s')).
Proof.
  destruct o as [[r s']|e]; [|done]. intros [Hs HP] Hk. cbn [obind]. specialize (Hk r s' Hs HP).
  destruct (k r s') as [[r' s'']|[]]; try done. destruct Hk as [Hs' HQ]. split; [by etrans|done].
Qed.

Lemma ends_weaken {A} s s' (P Q : A -> Prop) o : s' `suffix_of` s -> (forall r, P r -> Q r) -> ends s' P o -> ends s Q o.
Proof. intros Hs HPQ. destruct o as [[r s'']|[]]; try done. intros [H1 H2]. split; [by etrans|auto]. Qed.

Lemma good_suffix s s' x : s' `suffix_of` s -> good s' x -> good s x.
Proof. intros Hs (H1 & H2). split; [by etrans|done]. Qed.

Lemma good_all_suffix s s' l : s' `suffix_of` s -> Forall (good s') l -> Forall (good s) l.
Proof. intros Hs Hl. eapply Forall_impl; [exact Hl|]. intros x. by apply good_suffix. Qed.

Definition redir_words {A} (rs : list (A * Z * Z)) : list A := (fun '(f, _, _) => f) <$> rs.

Lemma wrap_words {A} (c : cmd A) rs : cmd_words (wrap c rs) ≡ₚ redir_words rs ++ cmd_words c.
Proof.
  revert c. induction rs as [|[[f mode] fd] rs IH]; intros c; cbn; [done|].
  rewrite (IH (REDIR c f mode fd)). cbn. by rewrite <- Permutation_middle.
Qed.

Lemma parseredirs_ends fuel s :
  (length s < fuel)%nat -> ends s (fun rs => Forall (good s) (redir_words rs)) (parseredirs fuel s).
Proof.
  revert s. induction fuel as [|fuel IH]; intros s Hf; [lia|]. cbn [parseredirs].
  destruct (peek s [c_lt; c_gt]) as [s1 b] eqn:Hp. pose proof (gettoken_peek s [c_lt; c_gt]) as Hg. rewrite Hp in Hg. cbn [fst snd] in Hg.
  apply peek_spec in Hp as [Hs1 _]. destruct b; [|split; [done|constructor]].
  destruct (gettoken s1) as [[[tok q0] e0] s2] eqn:Ht1. specialize (Hg eq_refl). cbn [fst] in Hg. apply gettoken_spec in Ht1 as (Hs2 & Hl2 & _).
  destruct (gettoken s2) as [[[tok2 q] eq] s3] eqn:Ht2. apply gettoken_spec in Ht2 as (Hs3 & _ & Hgood).
  destruct (Z.eqb_spec tok2 c_a) as [Ha|Ha]; [|done]. cbn [negb].
  assert (s2 `suffix_of` s) as Hs2' by by etrans. assert (s3 `suffix_of` s) as Hs3' by by etrans.
  eapply ends_weaken; [exact Hs3'|exact (fun r H => H)|]. apply suffix_length in Hs1, Hs3. specialize (Hl2 Hg).
  apply (ends_bind s3 (fun rs => Forall (good s3) (redir_words rs))); [apply IH; lia|].
  intros rs s4 Hs4 Hrs. split; [done|]. cbn. constructor.
  - specialize (Hgood Ha). destruct (tok =? c_lt); cbn; exact (good_suffix _ _ _ Hs2' Hgood).
  - exact (good_all_suffix _ _ _ Hs3' Hrs).
Qed.

Lemma parseargs_ends fuel argc s :
  (length s < fuel)%nat ->
  ends s (fun '(ws, rs) => Forall (good s) (ws ++ redir_words rs)) (parseargs fuel argc s).
Proof.
  revert argc s. induction fuel as [|fuel IH]; intros argc s Hf; [lia|]. cbn [parseargs].
  destruct (peek s _) as [s1 b] eqn:Hp. apply peek_spec in Hp as [Hs1 _]. destruct b; [split; [done|constructor]|].
  destruct (gettoken s1) as [[[tok q] eq] s2] eqn:Ht. apply gettoken_spec in Ht as (Hs2 & Hl2 & Hgood).
  assert (s2 `suffix_of` s) as Hs2' by by etrans.
  destruct (Z.eqb_spec tok 0) as [H0|H0]; [split; [done|constructor]|].
  destruct (Z.eqb_spec tok c_a) as [Ha|Ha]; [|done]. cbn [negb]. destruct (_ <=? _)%nat; [done|].
  apply suffix_length in Hs1 as Hl1. specialize (Hl2 H0). eapply ends_weaken; [exact Hs2'|exact (fun r H => H)|].
  apply (ends_bind s2 (fun rs => Forall (good s2) (redir_words rs))); [apply parseredirs_ends; lia|].
  intros rs s3 Hs3 Hrs. apply suffix_length in Hs3 as Hl3.
  apply (ends_bind s3 (fun '(ws, rs) => Forall (good s3) (ws ++ redir_words rs))); [apply IH; lia|].
  intros [ws rs'] s4 Hs4 Hws. split; [done|]. assert (s3 `suffix_of` s) as Hs3' by by etrans.
  unfold redir_words. rewrite fmap_app. apply Forall_app in Hws as [H1 H2]. cbn [app]. constructor.
  - eapply good_suffix; [exact Hs1|]. by apply Hgood.
  - rewrite !Forall_app. split_and!; [exact (good_all_suffix _ _ _ Hs3' H1)|exact (good_all_suffix _ _ _ Hs2' Hrs)|exact (good_all_suffix _ _ _ Hs3' H2)].
Qed.

Lemma parsebacks_ends fuel c s :
  (length s < fuel)%nat -> ends s (fun c' => cmd_words c' = cmd_words c) (parsebacks fuel c s).
Proof.
  revert c s. induction fuel as [|fuel IH]; intros c s Hf; [lia|]. cbn [parsebacks].
  destruct (peek s [c_amp]) as [s1 b] eqn:Hp. pose proof (gettoken_peek s [c_amp]) as Hg. rewrite Hp in Hg. cbn [fst snd] in Hg.
  apply peek_spec in Hp as [Hs1 _]. destruct b; [|done].
  destruct (gettoken s1) as [[[tok q] eq] s2] eqn:Ht. apply gettoken_spec in Ht as (Hs2 & Hl2 & _). specialize (Hl2 (Hg eq_refl)).
  apply suffix_length in Hs1 as Hl1. eapply ends_weaken; [by etrans|exact (fun r H => H)|]. apply (IH (BACK c)). lia.
Qed.

(** The token after a symbol [peek] has seen: the line is shorter. *)
Lemma next_token s toks s1 tok q eq s2 :
  peek s toks = (s1, true) -> gettoken s1 = (tok, q, eq, s2) -> s2 `suffix_of` s /\ (length s2 < length s)%nat.
Proof.
  intros Hp Ht. pose proof (gettoken_peek s toks) as Hg. rewrite Hp in Hg. cbn [fst snd] in Hg. rewrite Ht in Hg. specialize (Hg eq_refl).
  apply peek_spec in Hp as [Hs1 _]. apply gettoken_spec in Ht as (Hs2 & Hl2 & _). specialize (Hl2 Hg).
  split; [by etrans|]. apply suffix_length in Hs1. lia.
Qed.

Definition good_cmd (s : str) (c : cmd word) : Prop := Forall (good s) (cmd_words c).

Lemma good_cmd_suffix s s' c : s' `suffix_of` s -> good_cmd s' c -> good_cmd s c.
Proof. apply good_all_suffix. Qed.

Lemma good_wrap s c rs : good_cmd s c -> Forall (good s) (redir_words rs) -> good_cmd s (wrap c rs).
Proof. intros Hc Hr. unfold good_cmd. rewrite wrap_words. by apply Forall_app. Qed.

Lemma parse_ends fuel :
  (forall s, (4 * length s + 4 <= fuel)%nat -> ends s (good_cmd s) (parseline fuel s)) /\
  (forall s, (4 * length s + 3 <= fuel)%nat -> ends s (good_cmd s) (parsepipe fuel s)) /\
  (forall s, (4 * length s + 2 <= fuel)%nat -> ends s (good_cmd s) (parseexec fuel s)) /\
  (forall s, (4 * length s + 1 <= fuel)%nat -> ends s (good_cmd s) (parseblock fuel s)).
Proof.
  induction fuel as [|fuel (IHl & IHp & IHe & IHb)]; [split_and!; intros; lia|]. split_and!; intros s Hf.
  - cbn [parseline]. apply (ends_bind s (good_cmd s)); [apply IHp; lia|]. intros c s1 Hs1 Hc. apply suffix_length in Hs1 as Hl1.
    apply (ends_bind s1 (fun c' => cmd_words c' = cmd_words c)); [apply parsebacks_ends; lia|]. intros c' s2 Hs2 Hc'.
    assert (good_cmd s c') as Hg by (unfold good_cmd; by rewrite Hc'). apply suffix_length in Hs2 as Hl2.
    destruct (peek s2 [c_semi]) as [s3 b] eqn:Hp. destruct b; [|by apply peek_spec in Hp as [? _]].
    destruct (gettoken s3) as [[[tok q] eq] s4] eqn:Ht. destruct (next_token _ _ _ _ _ _ _ Hp Ht) as [Hs4 Hl4].
    eapply ends_weaken; [exact Hs4|exact (fun r H => H)|]. apply (ends_bind s4 (good_cmd s4)); [apply IHl; lia|].
    intros r s5 Hs5 Hr. split; [done|]. unfold good_cmd. cbn. apply Forall_app. split; [done|]. eapply good_cmd_suffix, Hr. by do 2 etrans.
  - cbn [parsepipe]. apply (ends_bind s (good_cmd s)); [apply IHe; lia|]. intros c s1 Hs1 Hc. apply suffix_length in Hs1 as Hl1.
    destruct (peek s1 [c_bar]) as [s3 b] eqn:Hp. destruct b; [|by apply peek_spec in Hp as [? _]].
    destruct (gettoken s3) as [[[tok q] eq] s4] eqn:Ht. destruct (next_token _ _ _ _ _ _ _ Hp Ht) as [Hs4 Hl4].
    eapply ends_weaken; [exact Hs4|exact (fun r H => H)|]. apply (ends_bind s4 (good_cmd s4)); [apply IHp; lia|].
    intros r s5 Hs5 Hr. split; [done|]. unfold good_cmd. cbn. apply Forall_app. split; [done|]. eapply good_cmd_suffix, Hr. by etrans.
  - cbn [parseexec]. destruct (peek s [c_open]) as [s1 b] eqn:Hp. apply peek_spec in Hp as [Hs1 _]. apply suffix_length in Hs1 as Hl1.
    destruct b; [eapply ends_weaken; [exact Hs1| |apply IHb; lia]; intros c; by apply good_cmd_suffix|].
    eapply ends_weaken; [exact Hs1|exact (fun r H => H)|].
    apply (ends_bind s1 (fun rs => Forall (good s1) (redir_words rs))); [apply parseredirs_ends; lia|].
    intros rs s2 Hs2 Hrs. apply suffix_length in Hs2 as Hl2.
    apply (ends_bind s2 (fun '(ws, rs) => Forall (good s2) (ws ++ redir_words rs))); [apply parseargs_ends; lia|].
    intros [ws rs'] s3 Hs3 [H1 H2]%Forall_app. split; [done|]. assert (s2 `suffix_of` s) as Hs2' by by etrans. apply good_wrap.
    + exact (good_all_suffix _ _ _ Hs2' H1).
    + unfold redir_words. rewrite fmap_app. apply Forall_app.
      split; [exact (good_all_suffix _ _ _ Hs1 Hrs)|exact (good_all_suffix _ _ _ Hs2' H2)].
  - cbn [parseblock]. destruct (peek s [c_open]) as [s1 b] eqn:Hp. destruct b; [|done]. cbn [negb].
    destruct (gettoken s1) as [[[tok q] eq] s2] eqn:Ht. destruct (next_token _ _ _ _ _ _ _ Hp Ht) as [Hs2 Hl2].
    eapply ends_weaken; [exact Hs2|exact (fun r H => H)|].
    apply (ends_bind s2 (good_cmd s2)); [apply IHl; lia|]. intros c s3 Hs3 Hc. apply suffix_length in Hs3 as Hl3.
    destruct (peek s3 [c_close]) as [s4 b] eqn:Hp2. destruct b; [|done]. cbn [negb].
    destruct (gettoken s4) as [[[tok2 q2] eq2] s5] eqn:Ht2. destruct (next_token _ _ _ _ _ _ _ Hp2 Ht2) as [Hs5 Hl5].
    eapply ends_weaken; [exact Hs5|exact (fun r H => H)|].
    apply (ends_bind s5 (fun rs => Forall (good s5) (redir_words rs))); [apply parseredirs_ends; lia|].
    intros rs s6 Hs6 Hrs. split; [done|]. apply good_wrap; [exact (good_cmd_suffix _ _ _ Hs2 Hc)|]. eapply good_all_suffix, Hrs. by do 2 etrans.
Qed.

(** ** Reading the words back *)

Fixpoint cstr (s : str) : str :=
  match s with
  | [] => []
  | c :: s => if c =? 0 then [] else c :: cstr s
  end.

(** The C string a pointer of the parsed command denotes, in the line as
    [nulterminate] has left it. *)
Definition read_word (line buf : str) (x : word) : str := cstr (drop (length line - length (fst x))%nat buf).

Fixpoint cmd_map {A B} (f : A -> B) (c : cmd A) : cmd B :=
  match c with
  | EXEC ws => EXEC (f <$> ws)
  | REDIR c x mode fd => REDIR (cmd_map f c) (f x) mode fd
  | PIPE l r => PIPE (cmd_map f l) (cmd_map f r)
  | LIST l r => LIST (cmd_map f l) (cmd_map f r)
  | BACK c => BACK (cmd_map f c)
  end.

(** The characters of a counted string. *)
Definition text (x : word) : str := take (length (fst x) - length (snd x)) (fst x).

Definition nul_pos (line : str) (x : word) : nat := (length line - length (snd x))%nat.

Lemma length_nulterminate line c buf : length (nulterminate line c buf) = length buf.
Proof.
  revert buf. induction c as [ws|c IH f mode fd|l IHl r IHr|l IHl r IHr|c IH]; intros buf; cbn [nulterminate].
  - revert buf. induction ws as [|w ws IH]; intros buf; cbn; [done|]. rewrite IH. unfold put_nul. by rewrite length_insert.
  - unfold put_nul. by rewrite length_insert.
  - by rewrite IHr.
  - by rewrite IHr.
  - done.
Qed.

Lemma lookup_put_nul line x buf i : (i < length buf)%nat ->
  put_nul line (snd x) buf !! i = if decide (i = nul_pos line x) then Some 0 else buf !! i.
Proof.
  intros Hi. unfold put_nul, nul_pos. case_decide as Hd; [subst i; by rewrite list_lookup_insert_eq|by rewrite list_lookup_insert_ne].
Qed.

Lemma lookup_nulterminate line c buf i : (i < length buf)%nat ->
  nulterminate line c buf !! i = if decide (i ∈ nul_pos line <$> cmd_words c) then Some 0 else buf !! i.
Proof.
  revert buf. induction c as [ws|c IH f mode fd|l IHl r IHr|l IHl r IHr|c IH]; intros buf Hi; cbn [nulterminate cmd_words].
  - revert buf Hi. induction ws as [|w ws IH]; intros buf Hi; cbn [foldl fmap list_fmap]; [by rewrite decide_False by apply not_elem_of_nil|].
    rewrite IH by (unfold put_nul; by rewrite length_insert). rewrite lookup_put_nul by done.
    repeat case_decide; try done; rewrite elem_of_cons in *; naive_solver.
  - rewrite lookup_put_nul by (by rewrite length_nulterminate). rewrite IH by done. cbn [fmap list_fmap].
    repeat case_decide; try done; rewrite elem_of_cons in *; naive_solver.
  - rewrite IHr, IHl by (by rewrite ?length_nulterminate). rewrite fmap_app.
    repeat case_decide; try done; rewrite elem_of_app in *; naive_solver.
  - rewrite IHr, IHl by (by rewrite ?length_nulterminate). rewrite fmap_app.
    repeat case_decide; try done; rewrite elem_of_app in *; naive_solver.
  - by apply IH.
Qed.

Lemma cstr_read (s w : str) :
  (forall k c, w !! k = Some c -> s !! k = Some c /\ c <> 0) -> s !! length w = Some 0 -> cstr s = w.
Proof.
  revert s. induction w as [|c w IH]; intros s Hw Hend; (destruct s as [|c' s]; [by rewrite lookup_nil in Hend|]); cbn.
  - injection Hend as ->. done.
  - destruct (Hw 0%nat c eq_refl) as [[= ->] Hc]. rewrite (proj2 (Z.eqb_neq _ _) Hc). f_equal. apply IH; [|exact Hend].
    intros k x Hx. by apply (Hw (S k)).
Qed.

(** A NUL never lands inside a word. *)
Lemma nul_outside line x y k :
  good line x -> good line y -> (k < length (fst x) - length (snd x))%nat ->
  (length line - length (fst x) + k)%nat <> nul_pos line y.
Proof.
  intros ((p & Hp) & _ & w & Hw & _ & Hall) ((p' & Hp') & Hd & w' & Hw' & _) Hk Heq.
  destruct x as [q eq], y as [q' eq']. cbn [fst snd] in *. unfold nul_pos in Heq. cbn [snd] in Heq.
  rewrite Hw, length_app in Hk. assert (exists c, w !! k = Some c) as [c Hc] by (apply lookup_lt_is_Some; lia).
  rewrite Forall_lookup in Hall. specialize (Hall k c Hc).
  assert (line !! (length line - length q + k)%nat = Some c) as H1.
  { rewrite Hp, Hw, length_app. rewrite lookup_app_r by lia. rewrite lookup_app_l by (apply lookup_lt_Some in Hc; lia).
    rewrite <- Hc. f_equal. lia. }
  rewrite Heq in H1. rewrite Hp', Hw', !length_app in H1. rewrite lookup_app_r in H1 by lia. rewrite lookup_app_r in H1 by lia.
  replace (_ - length p' - length w')%nat with 0%nat in H1 by lia. destruct eq' as [|c' eq']; [done|]. cbn in H1, Hd. congruence.
Qed.

Lemma read_good line c x :
  Forall (fun b => b <> 0) line -> good_cmd line c -> x ∈ cmd_words c -> read_word line (nulterminate line c (line ++ [0])) x = text x.
Proof.
  intros Hnz Hg Hx. unfold good_cmd in Hg. rewrite Forall_forall in Hg. pose proof (Hg x Hx) as Hgx.
  pose proof Hgx as ((p & Hp) & _ & w & Hw & _ & _). destruct x as [q eq]. unfold read_word, text. cbn [fst snd] in *.
  assert (length line = length p + length w + length eq)%nat as Hlen by (rewrite Hp, Hw, !length_app; lia).
  assert (length q = length w + length eq)%nat as Hlq by (rewrite Hw, length_app; lia).
  replace (length q - length eq)%nat with (length w) by lia. rewrite Hw at 2. rewrite take_app_length. apply cstr_read.
  - intros k b Hk. pose proof (lookup_lt_Some _ _ _ Hk) as Hlt. assert (line !! (length p + k)%nat = Some b) as Hl.
    { rewrite Hp, Hw. rewrite lookup_app_r by lia. replace (length p + k - length p)%nat with k by lia. by rewrite lookup_app_l. }
    split; [|rewrite Forall_lookup in Hnz; by apply (Hnz _ _ Hl)].
    rewrite lookup_drop. replace (length line - length q + k)%nat with (length p + k)%nat by lia.
    rewrite lookup_nulterminate by (rewrite length_app; cbn; lia). rewrite decide_False.
    + by rewrite lookup_app_l by (apply lookup_lt_Some in Hl; lia).
    + intros (y & Heq & Hy)%list_elem_of_fmap. apply (nul_outside line (q, eq) y k Hgx (Hg y Hy)); cbn [fst snd]; [lia|].
      rewrite <- Heq. lia.
  - rewrite lookup_drop. rewrite lookup_nulterminate by (rewrite length_app; cbn; lia). rewrite decide_True; [done|].
    apply list_elem_of_fmap. exists (q, eq). split; [|done]. unfold nul_pos. cbn [snd]. lia.
Qed.

Lemma cmd_map_ext {A B} (f g : A -> B) c : (forall x, x ∈ cmd_words c -> f x = g x) -> cmd_map f c = cmd_map g c.
Proof.
  induction c as [ws|c IH x mode fd|l IHl r IHr|l IHl r IHr|c IH]; cbn; intros Hx.
  - f_equal. apply list_fmap_ext. intros i x Hi. apply Hx. by eapply list_elem_of_lookup_2.
  - rewrite IH by (intros; apply Hx; by right). f_equal. apply Hx. left.
  - rewrite IHl, IHr; [done|..]; intros x H; apply Hx, elem_of_app; tauto.
  - rewrite IHl, IHr; [done|..]; intros x H; apply Hx, elem_of_app; tauto.
  - by rewrite IH.
Qed.

(** [parsecmd] on any line: it returns, and the words of the command it
    returns read back as pieces of the line. *)
Lemma parsecmd_ends line c buf : parsecmd line = Ok (c, buf) -> good_cmd line c /\ buf = nulterminate line c (line ++ [0]).
Proof.
  unfold parsecmd. destruct (parse_ends (4 * length line + 8)) as (HL & _). specialize (HL line ltac:(lia)).
  destruct (parseline _ line) as [[c1 s]|e]; [|done]. destruct HL as [_ Hg]. cbn [obind]. unfold peek.
  destruct (skipws s); [|done]. by intros [= <- <-].
Qed.

(** ** Printing commands *)

(** A command line for each command the shell can be asked to run: level 0
    is [parseline]'s, 1 a command before its ampersands, 2 [parsepipe]'s and
    3 [parseexec]'s. *)
Definition pr_word (w : str) : str := 32 :: w.
Definition pr_redir (x : str * Z * Z) : str :=
  let '(f, mode, _) := x in (if mode =? O_RDONLY then c_lt else c_gt) :: pr_word f.

Definition paren (b : bool) (s : str) : str := if b then c_open :: s ++ [c_close] else s.

Fixpoint pr (lv : nat) (c : cmd str) : str :=
  match c with
  | EXEC ws => mjoin (pr_word <$> ws)
  | REDIR c f mode fd => pr 3 c ++ pr_redir (f, mode, fd)
  | PIPE l r => paren (3 <=? lv)%nat (pr 3 l ++ c_bar :: pr 2 r)
  | BACK c => paren (2 <=? lv)%nat (pr 1 c ++ [c_amp])
  | LIST l r => paren (1 <=? lv)%nat (pr 1 l ++ c_semi :: pr 0 r)
  end.

Definition wf_word (w : str) : bool :=
  match w with [] => false | _ => forallb (fun c => wordchar c && negb (c =? 0)) w end.
Definition wf_redir (x : str * Z * Z) : bool :=
  let '(f, mode, fd) := x in
  wf_word f && (((mode =? O_RDONLY) && (fd =? 0)) || ((mode =? Z.lor O_WRONLY O_CREATE) && (fd =? 1))).

(** The commands with a command line: words of word characters, at most nine
    arguments, the two kinds of redirection. *)
Fixpoint wf (c : cmd str) : bool :=
  match c with
  | EXEC ws => (length ws <? MAXARGS)%nat && forallb wf_word ws
  | REDIR c f mode fd => wf c && wf_redir (f, mode, fd)
  | PIPE l r | LIST l r => wf l && wf r
  | BACK c => wf c
  end.

(** ** Parsing what is printed *)

Lemma wordchar_not c : wordchar c = true ->
  strchr whitespace c = false /\ c <> c_bar /\ c <> c_open /\ c <> c_close /\ c <> c_semi /\ c <> c_amp /\ c <> c_lt /\ c <> c_gt.
Proof.
  unfold wordchar. intros [H1%negb_true_iff H2%negb_true_iff]%andb_true_iff. split; [done|].
  split_and!; intros ->; by vm_compute in H2.
Qed.

Lemma skip_word w k : Forall (fun c => wordchar c = true) w -> delim k -> skipword (w ++ k) = k.
Proof.
  intros Hw Hk. unfold skipword. induction Hw as [|c w Hc Hw IH]; cbn; [|by rewrite Hc].
  destruct k as [|c k]; cbn; [done|]. cbn in Hk. by rewrite Hk.
Qed.

Lemma skipws_idem s : skipws (skipws s) = skipws s.
Proof.
  pose proof (skip_stop (strchr whitespace) s) as Hst. fold skipws in Hst. destruct (skipws s) as [|c r]; [done|].
  unfold skipws. cbn. by rewrite Hst.
Qed.

Lemma skipws_at s : strchr whitespace (hd0 s) = false -> skipws s = s.
Proof. destruct s as [|c s]; cbn; [done|]. unfold skipws. cbn. by intros ->. Qed.

Lemma peek_skipws s toks : peek (skipws s) toks = peek s toks.
Proof. unfold peek. by rewrite skipws_idem. Qed.

Lemma gettoken_skipws s : gettoken (skipws s) = gettoken s.
Proof. unfold gettoken. by rewrite skipws_idem. Qed.

Lemma wf_word_spec w : wf_word w = true ->
  exists c r, w = c :: r /\ wordchar c = true /\ c <> 0 /\ Forall (fun c => wordchar c = true) w /\ Forall (fun c => c <> 0) w.
Proof.
  destruct w as [|c r]; [done|]. intros Hw. exists c, r. unfold wf_word in Hw. rewrite forallb_forall in Hw.
  assert (forall x, x ∈ c :: r -> wordchar x = true /\ x <> 0) as Hx.
  { intros x Hx. specialize (Hw x (proj1 (list_elem_of_In _ _) Hx)). apply andb_true_iff in Hw as [H1 H2%negb_true_iff%Z.eqb_neq]. done. }
  split; [done|]. destruct (Hx c (list_elem_of_here _ _)). split_and!; try done; apply Forall_forall; intros x Hin; by apply Hx.
Qed.

Lemma skipws_word w k : wf_word w = true -> skipws (pr_word w ++ k) = w ++ k.
Proof.
  intros (c & r & -> & Hc & _)%wf_word_spec. destruct (wordchar_not c Hc) as [Hw _]. unfold skipws, pr_word. cbn. by rewrite Hw.
Qed.

Lemma gettoken_word w k : wf_word w = true -> delim k -> gettoken (pr_word w ++ k) = (c_a, w ++ k, k, skipws k).
Proof.
  intros Hw Hk. unfold gettoken. rewrite skipws_word by done. destruct (wf_word_spec w Hw) as (c & r & Heq & Hc & _ & Hall & _).
  destruct (wordchar_not c Hc) as (_ & H1 & H2 & H3 & H4 & H5 & H6 & H7). rewrite <- (skip_word w k Hall Hk) at 3 4.
  rewrite Heq. cbn [app]. repeat (rewrite (proj2 (Z.eqb_neq _ _)) by done). done.
Qed.

Lemma text_word w k : text (w ++ k, k) = w.
Proof. unfold text. cbn [fst snd]. rewrite length_app. replace (_ - _)%nat with (length w) by lia. apply take_app_length. Qed.

Lemma peek_word w k toks : wf_word w = true -> (forall c, strchr toks c = true -> wordchar c = false) ->
  peek (pr_word w ++ k) toks = (w ++ k, false).
Proof.
  intros Hw Ht. unfold peek. rewrite skipws_word by done. destruct (wf_word_spec w Hw) as (c & r & -> & Hc & _). cbn [app hd0].
  destruct (strchr toks c) eqn:Hs; [|by rewrite andb_false_r]. by rewrite (Ht c Hs) in Hc.
Qed.

Lemma tok_symbols toks : forallb (strchr symbols) toks = true -> forall c, strchr toks c = true -> wordchar c = false.
Proof.
  intros Ht c [_ (x & Hx & Heq%Z.eqb_eq)%existsb_exists]%andb_true_iff. subst x. rewrite forallb_forall in Ht.
  unfold wordchar. rewrite (Ht c Hx). apply andb_false_r.
Qed.

(** What may follow a command: the end of the line or one of the symbols [l]. *)
Definition follow (l : str) (k : str) : Prop := match k with [] => True | c :: _ => c ∈ l end.

Lemma follow_peek l k toks :
  forallb (fun c => negb (strchr toks c) && negb (strchr whitespace c)) l = true -> follow l k -> peek k toks = (k, false).
Proof.
  intros Hl Hk. destruct k as [|c k]; [done|]. cbn in Hk. rewrite forallb_forall in Hl.
  specialize (Hl c (proj1 (list_elem_of_In _ _) Hk)). apply andb_true_iff in Hl as [H1%negb_true_iff H2%negb_true_iff].
  unfold peek. rewrite skipws_at by done. cbn [hd0]. by rewrite H1, andb_false_r.
Qed.

Lemma follow_skipws l k : forallb (fun c => negb (strchr whitespace c)) l = true -> follow l k -> skipws k = k.
Proof.
  intros Hl Hk. apply skipws_at. destruct k as [|c k]; [done|]. rewrite forallb_forall in Hl. apply negb_true_iff, Hl. by apply list_elem_of_In.
Qed.

Lemma follow_delim l k : forallb (fun c => negb (wordchar c)) l = true -> follow l k -> delim k.
Proof.
  intros Hl Hk. destruct k as [|c k]; [done|]. rewrite forallb_forall in Hl. apply negb_true_iff, Hl. by apply list_elem_of_In.
Qed.

Definition f_unit : str := [c_bar; c_close; c_amp; c_semi].
Definition f_pipe : str := [c_close; c_amp; c_semi].
Definition f_back : str := [c_close; c_semi].
Definition f_line : str := [c_close].

Lemma follow_mono l l' k : l ⊆ l' -> follow l k -> follow l' k.
Proof. intros Hl. destruct k; [done|]. apply Hl. Qed.

Definition pr_redirs (rs : list (str * Z * Z)) : str := mjoin (pr_redir <$> rs).
Definition rtext (x : redir) : str * Z * Z := let '(w, mode, fd) := x in (text w, mode, fd).

Lemma delim_redirs rs k : delim k -> delim (pr_redirs rs ++ k).
Proof. destruct rs as [|[[f mode] fd] rs]; [done|]. intros _. cbn. by destruct (mode =? O_RDONLY). Qed.

Lemma delim_words ws k : delim k -> delim (mjoin (pr_word <$> ws) ++ k).
Proof. by destruct ws. Qed.

Lemma parseredirs_skipws fuel s : parseredirs fuel (skipws s) = parseredirs fuel s.
Proof. destruct fuel; [done|]. cbn [parseredirs]. by rewrite peek_skipws. Qed.

Lemma parseargs_skipws fuel argc s : parseargs fuel argc (skipws s) = parseargs fuel argc s.
Proof. destruct fuel; [done|]. cbn [parseargs]. by rewrite peek_skipws. Qed.

Lemma parseredirs_pr fuel rs k :
  forallb wf_redir rs = true -> delim k -> peek k [c_lt; c_gt] = (skipws k, false) -> (length rs < fuel)%nat ->
  exists rs', parseredirs fuel (pr_redirs rs ++ k) = Ok (rs', skipws k) /\ rtext <$> rs' = rs.
Proof.
  intros Hwf Hd Hk. revert fuel. induction rs as [|[[f mode] fd] rs IH]; intros [|fuel] Hf; cbn [length] in Hf; try lia.
  - exists []. cbn [parseredirs pr_redirs fmap list_fmap mjoin list_join app]. by rewrite Hk.
  - cbn [forallb] in Hwf. apply andb_true_iff in Hwf as [[Hw Hm]%andb_true_iff Hrs].
    destruct (IH Hrs fuel ltac:(lia)) as (rs' & Hp & Ht).
    change (pr_redirs ((f, mode, fd) :: rs)) with (pr_redir (f, mode, fd) ++ pr_redirs rs). rewrite <- (app_assoc (pr_redir _)).
    assert (gettoken (pr_word f ++ pr_redirs rs ++ k) = (c_a, f ++ pr_redirs rs ++ k, pr_redirs rs ++ k, skipws (pr_redirs rs ++ k))) as Hg
      by (apply gettoken_word; [done|by apply delim_redirs]).
    exists (((f ++ pr_redirs rs ++ k, pr_redirs rs ++ k), mode, fd) :: rs'). split.
    2:{ cbn [fmap list_fmap rtext]. by rewrite text_word, <- Ht. }
    apply orb_true_iff in Hm as [[->%Z.eqb_eq ->%Z.eqb_eq]%andb_true_iff|[->%Z.eqb_eq ->%Z.eqb_eq]%andb_true_iff].
    + change (pr_redir (f, O_RDONLY, 0)) with (c_lt :: pr_word f). cbn [parseredirs app].
      change (peek (c_lt :: _) _) with (c_lt :: pr_word f ++ pr_redirs rs ++ k, true). cbv iota beta.
      change (gettoken (c_lt :: _)) with (c_lt, c_lt :: pr_word f ++ pr_redirs rs ++ k, pr_word f ++ pr_redirs rs ++ k, skipws (pr_word f ++ pr_redirs rs ++ k)).
      cbv iota beta. rewrite gettoken_skipws, Hg. cbv iota beta zeta. cbn [negb Z.eqb c_a Pos.eqb].
      rewrite parseredirs_skipws, Hp. done.
    + change (pr_redir (f, _, 1)) with (c_gt :: pr_word f). cbn [parseredirs app].
      change (peek (c_gt :: _) _) with (c_gt :: pr_word f ++ pr_redirs rs ++ k, true). cbv iota beta.
      change (gettoken (c_gt :: _)) with (c_gt, c_gt :: pr_word f ++ pr_redirs rs ++ k, pr_word f ++ pr_redirs rs ++ k, skipws (pr_word f ++ pr_redirs rs ++ k)).
      cbv iota beta. rewrite gettoken_skipws, Hg. cbv iota beta zeta. cbn [negb Z.eqb c_a Pos.eqb].
      rewrite parseredirs_skipws, Hp. done.
Qed.

Lemma redirs_end fuel rs k :
  forallb wf_redir rs = true -> follow f_unit k -> (length rs < fuel)%nat ->
  exists rs', parseredirs fuel (pr_redirs rs ++ k) = Ok (rs', k) /\ rtext <$> rs' = rs.
Proof.
  intros Hwf Hk Hf. assert (skipws k = k) as Hs by by apply (follow_skipws f_unit).
  destruct (parseredirs_pr fuel rs k) as (rs' & Hp & Ht); [done|by apply (follow_delim f_unit)|rewrite Hs; by apply (follow_peek f_unit)|done|].
  exists rs'. by rewrite Hp, Hs.
Qed.

Lemma redirs_word fuel w k :
  wf_word w = true -> (0 < fuel)%nat -> parseredirs fuel (pr_word w ++ k) = Ok ([], w ++ k).
Proof. intros Hw Hf. destruct fuel; [lia|]. cbn [parseredirs]. by rewrite peek_word by (done || by apply tok_symbols). Qed.

Lemma args_end fuel argc k : follow f_unit k -> (0 < fuel)%nat -> parseargs fuel argc k = Ok ([], [], k).
Proof.
  intros Hk Hf. destruct fuel as [|fuel]; [lia|]. destruct k as [|c k]; [done|]. cbn [parseargs].
  unfold f_unit in Hk. cbn [follow] in Hk. rewrite !elem_of_cons in Hk. destruct Hk as [->|[->|[->|[->|[]%not_elem_of_nil]]]]; done.
Qed.

Lemma parseargs_pr fuel argc w ws rs k :
  forallb wf_word (w :: ws) = true -> forallb wf_redir rs = true -> follow f_unit k ->
  (argc + length (w :: ws) < MAXARGS)%nat -> (length (w :: ws) + length rs + 1 < fuel)%nat ->
  exists ws' rs', parseargs fuel argc (mjoin (pr_word <$> w :: ws) ++ pr_redirs rs ++ k) = Ok (ws', rs', k) /\
    text <$> ws' = w :: ws /\ rtext <$> rs' = rs.
Proof.
  intros Hw Hr Hk. revert fuel argc w Hw. induction ws as [|w2 ws IH]; intros [|fuel] argc w Hw Ha Hf; cbn [length] in Hf, Ha; try lia;
    cbn [forallb] in Hw; apply andb_true_iff in Hw as [Hw Hws];
    change (mjoin (pr_word <$> w :: ?ws)) with (pr_word w ++ mjoin (pr_word <$> ws)); rewrite <- (app_assoc (pr_word w));
    match goal with |- context [pr_word w ++ ?s] => remember s as k' eqn:E end;
    (assert (delim k') as Hd by (rewrite E; apply delim_words, delim_redirs; by apply (follow_delim f_unit)));
    cbn [parseargs]; rewrite peek_word by (done || by apply tok_symbols); rewrite <- (skipws_word w k' Hw), gettoken_skipws, (gettoken_word w k' Hw Hd);
    cbv iota beta; cbn [negb Z.eqb c_a Pos.eqb]; rewrite (proj2 (Nat.leb_gt _ _)) by lia; rewrite parseredirs_skipws.
  - destruct (redirs_end fuel rs k) as (rs' & Hp & Ht); [done|done|lia|]. cbn [fmap list_fmap mjoin list_join app] in E. rewrite <- E in Hp. rewrite Hp. cbn [obind].
    rewrite args_end by (done || lia). cbn [obind]. exists [(w ++ k', k')], rs'. rewrite app_nil_r. cbn [fmap list_fmap]. by rewrite text_word.
  - assert (wf_word w2 = true) as Hw2 by (by apply andb_true_iff in Hws as [? _]).
    assert (k' = pr_word w2 ++ mjoin (pr_word <$> ws) ++ pr_redirs rs ++ k) as Hk' by (rewrite E; cbn; by rewrite <- !app_assoc).
    rewrite (f_equal (parseredirs fuel) Hk'), redirs_word by (done || lia). cbn [obind].
    rewrite <- (skipws_word w2 _ Hw2), <- Hk', parseargs_skipws.
    destruct (IH fuel (S argc) w2) as (ws' & rs' & Hp & Ht & Htr); [done|cbn [length]; lia|cbn [length]; lia|].
    rewrite <- E in Hp. rewrite Hp. cbn [obind].
    exists ((w ++ k', k') :: ws'), rs'. cbn [fmap list_fmap app]. by rewrite text_word, Ht.
Qed.

Lemma length_redirs rs : (length rs <= length (pr_redirs rs))%nat.
Proof.
  induction rs as [|[[f mode] fd] rs IH]; [done|].
  change (pr_redirs (?x :: rs)) with (pr_redir x ++ pr_redirs rs). rewrite length_app. cbn [length pr_redir pr_word]. lia.
Qed.

Lemma length_words (ws : list str) : (length ws <= length (mjoin (pr_word <$> ws)))%nat.
Proof.
  induction ws as [|w ws IH]; [done|].
  change (mjoin (pr_word <$> w :: ws)) with (pr_word w ++ mjoin (pr_word <$> ws)). rewrite length_app. cbn [length pr_word]. lia.
Qed.

Lemma wrap_map {A B} (f : A -> B) c rs : cmd_map f (wrap c rs) = wrap (cmd_map f c) ((fun '(w, mode, fd) => (f w, mode, fd)) <$> rs).
Proof. revert c. induction rs as [|[[w mode] fd] rs IH]; intros c; [done|]. apply (IH (REDIR c w mode fd)). Qed.

(** [p] parses [s], followed by [k], as [c]. *)
Definition reads (p : nat -> str -> outcome (cmd word * str)) (off : nat) (s k : str) (c : cmd str) : Prop :=
  forall fuel, (4 * length (s ++ k) + off <= fuel)%nat -> exists c', p fuel (s ++ k) = Ok (c', k) /\ cmd_map text c' = c.

(** The command of [parseline] before a semicolon. *)
Definition parseback (fuel : nat) (s : str) : outcome (cmd word * str) :=
  let? (c, s) := parsepipe fuel s in parsebacks fuel c s.

Definition reads_unit (c : cmd str) : Prop := forall rs k, forallb wf_redir rs = true -> follow f_unit k ->
  reads parseexec 2 (pr 3 c ++ pr_redirs rs) k (wrap c rs).
Definition reads_pipe (c : cmd str) : Prop := forall k, follow f_pipe k -> reads parsepipe 3 (pr 2 c) k c.
Definition reads_back (c : cmd str) : Prop := forall m k, follow f_back k ->
  reads parseback 3 (pr 1 c ++ replicate m c_amp) k (Nat.iter m BACK c).
Definition reads_line (c : cmd str) : Prop := forall k, follow f_line k -> reads parseline 4 (pr 0 c) k c.

Lemma exec_unit ws : (length ws < MAXARGS)%nat -> forallb wf_word ws = true -> reads_unit (EXEC ws).
Proof.
  intros Hl Hw rs k Hr Hk fuel Hf. destruct fuel as [|fuel]; [lia|]. cbn [pr] in *. rewrite <- app_assoc in *.
  rewrite !length_app in Hf. pose proof (length_redirs rs). pose proof (length_words ws).
  set (s := mjoin (pr_word <$> ws) ++ pr_redirs rs ++ k) in *. cbn [parseexec].
  assert (peek s [c_open] = (skipws s, false)) as ->.
  { unfold s. destruct ws as [|w ws].
    - cbn [fmap list_fmap mjoin list_join app]. destruct rs as [|[[f mode] fd] rs].
      + cbn. rewrite (follow_skipws f_unit) by done. by apply (follow_peek f_unit).
      + cbn. by destruct (mode =? O_RDONLY).
    - apply andb_true_iff in Hw as [Hw _]. change (mjoin (pr_word <$> w :: ws)) with (pr_word w ++ mjoin (pr_word <$> ws)).
      rewrite <- app_assoc, skipws_word by done. by rewrite peek_word by (done || by apply tok_symbols). }
  rewrite parseredirs_skipws. unfold s. clear s. destruct ws as [|w ws].
  - cbn [fmap list_fmap mjoin list_join app]. destruct (redirs_end fuel rs k) as (rs' & -> & Ht); [done|done|lia|]. cbn [obind].
    rewrite args_end by (done || lia). cbn [obind]. eexists. split; [done|]. rewrite app_nil_r, wrap_map. f_equal. exact Ht.
  - assert (wf_word w = true) as Hw1 by (by apply andb_true_iff in Hw as [? _]).
    destruct (parseargs_pr fuel 0 w ws rs k) as (ws' & rs' & Hp & Ht & Htr); [done|done|done|done|cbn [length] in *; lia|].
    change (mjoin (pr_word <$> w :: ws)) with (pr_word w ++ mjoin (pr_word <$> ws)) in *. rewrite <- app_assoc in *.
    rewrite redirs_word by (done || lia). cbn [obind]. rewrite <- (skipws_word w _ Hw1), parseargs_skipws, Hp. cbn [obind app].
    eexists. split; [done|]. rewrite wrap_map. cbn [cmd_map]. rewrite Ht. f_equal. exact Htr.
Qed.

Lemma redir_unit c f mode fd : reads_unit c -> wf_redir (f, mode, fd) = true -> reads_unit (REDIR c f mode fd).
Proof.
  intros Hc Hw rs k Hr Hk. cbn [pr]. rewrite <- app_assoc. apply (Hc ((f, mode, fd) :: rs) k); [|done]. cbn [forallb]. by rewrite Hw.
Qed.

Lemma unit_pipe c : pr 2 c = pr 3 c -> reads_unit c -> reads_pipe c.
Proof.
  intros Heq Hc k Hk fuel Hf. rewrite Heq in *. destruct fuel as [|fuel]; [lia|]. cbn [parsepipe].
  destruct (Hc [] k eq_refl (follow_mono f_pipe f_unit k ltac:(set_solver) Hk) fuel) as (c' & Hp & Ht); [cbn; rewrite app_nil_r; lia|].
  cbn [pr_redirs fmap list_fmap mjoin list_join] in Hp. rewrite app_nil_r in Hp. rewrite Hp. cbn [obind].
  rewrite (follow_peek f_pipe) by done. by exists c'.
Qed.

Lemma backs_end fuel m c k : follow f_back k -> (m < fuel)%nat ->
  parsebacks fuel c (replicate m c_amp ++ k) = Ok (Nat.iter m BACK c, k).
Proof.
  intros Hk. revert fuel c. induction m as [|m IH]; intros [|fuel] c Hf; try lia; cbn [parsebacks].
  - cbn [replicate app]. by rewrite (follow_peek f_back).
  - change (replicate (S m) c_amp ++ k) with (c_amp :: (replicate m c_amp ++ k)).
    change (peek (c_amp :: ?s) _) with (c_amp :: s, true). cbv iota beta.
    change (gettoken (c_amp :: ?s)) with (c_amp, c_amp :: s, s, skipws s). cbv iota beta.
    assert (skipws (replicate m c_amp ++ k) = replicate m c_amp ++ k) as -> by (destruct m; [by apply (follow_skipws f_back)|done]).
    rewrite IH by lia. by rewrite Nat.iter_succ_r.
Qed.

Lemma pipe_back c : pr 1 c = pr 2 c -> reads_pipe c -> reads_back c.
Proof.
  intros Heq Hc m k Hk fuel Hf. rewrite Heq in *. rewrite <- app_assoc in *. unfold parseback.
  assert (follow f_pipe (replicate m c_amp ++ k)) as Hk' by (destruct m; [by apply (follow_mono f_back); [set_solver|]|cbn; set_solver]).
  destruct (Hc _ Hk' fuel Hf) as (c' & -> & Ht). cbn [obind]. rewrite !length_app, length_replicate in Hf.
  rewrite backs_end by (done || lia). eexists. split; [done|]. rewrite <- Ht. clear. induction m as [|m IH]; [done|]. exact (f_equal BACK IH).
Qed.

Lemma back_line c : pr 0 c = pr 1 c -> reads_back c -> reads_line c.
Proof.
  intros Heq Hc k Hk fuel Hf. rewrite Heq in *. destruct fuel as [|fuel]; [lia|].
  assert (follow f_back k) as Hk' by (by apply (follow_mono f_line); [set_solver|]).
  destruct (Hc 0%nat k Hk' fuel) as (c' & Hp & Ht); [rewrite app_nil_r; lia|]. rewrite app_nil_r in Hp. unfold parseback in Hp.
  cbn [parseline]. destruct (parsepipe fuel (pr 1 c ++ k)) as [[c1 s1]|]; [|done]. cbn [obind] in *. rewrite Hp. cbn [obind].
  rewrite (follow_peek f_line) by done. by exists c'.
Qed.

Lemma parseexec_skipws fuel s : parseexec fuel (skipws s) = parseexec fuel s.
Proof. destruct fuel; [done|]. cbn [parseexec]. by rewrite peek_skipws. Qed.

Lemma parsepipe_skipws fuel s : parsepipe fuel (skipws s) = parsepipe fuel s.
Proof. destruct fuel; [done|]. cbn [parsepipe]. by rewrite parseexec_skipws. Qed.

Lemma parseline_skipws fuel s : parseline fuel (skipws s) = parseline fuel s.
Proof. destruct fuel; [done|]. cbn [parseline]. by rewrite parsepipe_skipws. Qed.

(** A command in parentheses. *)
Lemma line_unit c : pr 3 c = paren true (pr 0 c) -> reads_line c -> reads_unit c.
Proof.
  intros Heq Hc rs k Hr Hk fuel Hf. rewrite Heq in *. cbn [paren] in *. remember (pr_redirs rs ++ k) as s eqn:Es.
  assert (((c_open :: pr 0 c ++ [c_close]) ++ pr_redirs rs) ++ k = c_open :: (pr 0 c ++ c_close :: s)) as Hs
    by (rewrite Es; cbn; by rewrite <- !app_assoc).
  rewrite Hs in *. cbn [length] in Hf. pose proof (length_redirs rs) as Hlr.
  destruct (Hc (c_close :: s) ltac:(cbn; set_solver) (fuel - 2)%nat) as (c' & Hp & Ht); [lia|].
  destruct fuel as [|[|fuel]]; [lia|lia|]. replace (S (S fuel) - 2)%nat with fuel in Hp by lia. cbn [parseexec].
  change (peek (c_open :: ?s) _) with (c_open :: s, true). cbv iota beta. cbn [parseblock].
  change (peek (c_open :: ?s) _) with (c_open :: s, true). cbv iota beta. cbn [negb].
  change (gettoken (c_open :: ?s)) with (c_open, c_open :: s, s, skipws s). cbv iota beta.
  rewrite parseline_skipws, Hp. cbn [obind].
  change (peek (c_close :: ?s) _) with (c_close :: s, true). cbv iota beta. cbn [negb].
  change (gettoken (c_close :: ?s)) with (c_close, c_close :: s, s, skipws s). cbv iota beta.
  assert (length s = length (pr_redirs rs) + length k)%nat as Hls by (by rewrite Es, length_app).
  rewrite length_app in Hf. cbn [length] in Hf.
  destruct (redirs_end fuel rs k) as (rs' & Hr' & Htr); [done|done|lia|]. rewrite <- Es in Hr'.
  rewrite parseredirs_skipws, Hr'. cbn [obind]. eexists. split; [done|]. rewrite wrap_map, Ht. f_equal. exact Htr.
Qed.

Lemma pipe_pipe l r : reads_unit l -> reads_pipe r -> reads_pipe (PIPE l r).
Proof.
  intros Hl Hr k Hk fuel Hf. cbn [pr paren Nat.leb] in *. rewrite <- app_assoc in *. cbn [app] in *.
  destruct fuel as [|fuel]; [lia|]. cbn [parsepipe].
  destruct (Hl [] (c_bar :: pr 2 r ++ k) eq_refl ltac:(cbn; set_solver) fuel) as (l' & Hpl & Htl);
    [cbn [pr_redirs fmap list_fmap mjoin list_join]; rewrite app_nil_r; lia|].
  cbn [pr_redirs fmap list_fmap mjoin list_join] in Hpl. rewrite app_nil_r in Hpl. rewrite Hpl. cbn [obind].
  change (peek (c_bar :: ?s) _) with (c_bar :: s, true). cbv iota beta.
  change (gettoken (c_bar :: ?s)) with (c_bar, c_bar :: s, s, skipws s). cbv iota beta. rewrite parsepipe_skipws.
  destruct (Hr k Hk fuel) as (r' & -> & Htr); [rewrite !length_app in *; cbn [length] in Hf; rewrite !length_app in Hf; lia|].
  cbn [obind]. eexists. split; [done|]. cbn [cmd_map]. rewrite Htl, Htr. done.
Qed.

Lemma back_back c : reads_back c -> reads_back (BACK c).
Proof.
  intros Hc m k Hk. cbn [pr paren Nat.leb]. rewrite <- app_assoc. change ([c_amp] ++ replicate m c_amp) with (replicate (S m) c_amp).
  rewrite <- Nat.iter_succ_r. by apply Hc.
Qed.

Lemma list_line l r : reads_back l -> reads_line r -> reads_line (LIST l r).
Proof.
  intros Hl Hr k Hk fuel Hf. cbn [pr paren Nat.leb] in *. rewrite <- app_assoc in *. cbn [app] in *.
  destruct fuel as [|fuel]; [lia|]. cbn [parseline].
  destruct (Hl 0%nat (c_semi :: pr 0 r ++ k) ltac:(cbn; set_solver) fuel) as (l' & Hpl & Htl); [rewrite app_nil_r; lia|].
  rewrite app_nil_r in Hpl. unfold parseback in Hpl. destruct (parsepipe fuel (pr 1 l ++ _)) as [[c1 s1]|]; [|done].
  cbn [obind] in *. rewrite Hpl. cbn [obind].
  change (peek (c_semi :: ?s) _) with (c_semi :: s, true). cbv iota beta.
  change (gettoken (c_semi :: ?s)) with (c_semi, c_semi :: s, s, skipws s). cbv iota beta. rewrite parseline_skipws.
  destruct (Hr k Hk fuel) as (r' & -> & Htr); [rewrite !length_app in *; cbn [length] in Hf; rewrite !length_app in Hf; lia|].
  cbn [obind]. eexists. split; [done|]. cbn [cmd_map]. cbn in Htl. rewrite Htl, Htr. done.
Qed.

(** Every level reads back what it prints. *)
Lemma reads_all c : wf c = true -> reads_unit c /\ reads_pipe c /\ reads_back c /\ reads_line c.
Proof.
  assert (forall c, pr 2 c = pr 3 c -> pr 1 c = pr 2 c -> pr 0 c = pr 1 c -> reads_unit c ->
    reads_unit c /\ reads_pipe c /\ reads_back c /\ reads_line c) as Hup.
  { intros x H1 H2 H3 Hu. assert (reads_pipe x) by by apply unit_pipe. assert (reads_back x) by by apply pipe_back.
    split_and!; try done. by apply back_line. }
  induction c as [ws|c IH f mode fd|l IHl r IHr|l IHl r IHr|c IH]; cbn [wf]; intros Hwf.
  - apply andb_true_iff in Hwf as [Hl%Nat.ltb_lt Hw]. apply Hup; try done. by apply exec_unit.
  - apply andb_true_iff in Hwf as [Hc Hr]. apply Hup; try done. apply redir_unit; [by apply IH|done].
  - apply andb_true_iff in Hwf as [Hl Hr]. assert (reads_pipe (PIPE l r)) by (apply pipe_pipe; [by apply IHl|by apply IHr]).
    assert (reads_back (PIPE l r)) by by apply pipe_back. assert (reads_line (PIPE l r)) by by apply back_line.
    split_and!; try done. by apply line_unit.
  - apply andb_true_iff in Hwf as [Hl Hr]. assert (reads_line (LIST l r)) by (apply list_line; [by apply IHl|by apply IHr]).
    assert (reads_unit (LIST l r)) by by apply line_unit. assert (reads_pipe (LIST l r)) by by apply unit_pipe.
    split_and!; try done. by apply pipe_back.
  - assert (reads_back (BACK c)) by (apply back_back; by apply IH). assert (reads_line (BACK c)) by by apply back_line.
    assert (reads_unit (BACK c)) by by apply line_unit. split_and!; try done. by apply unit_pipe.
Qed.

Lemma word_nonzero w : wf_word w = true -> Forall (fun c => c <> 0) (pr_word w).
Proof. intros (c & r & -> & _ & _ & _ & H)%wf_word_spec. constructor; [done|exact H]. Qed.

Lemma paren_nonzero b s : Forall (fun c => c <> 0) s -> Forall (fun c => c <> 0) (paren b s).
Proof. destruct b; cbn [paren]; [|done]. intros Hs. constructor; [done|]. apply Forall_app. split; [done|by repeat constructor]. Qed.

Lemma pr_nonzero c lv : wf c = true -> Forall (fun c => c <> 0) (pr lv c).
Proof.
  revert lv. induction c as [ws|c IH f mode fd|l IHl r IHr|l IHl r IHr|c IH]; intros lv; cbn [wf pr]; intros Hwf.
  - apply andb_true_iff in Hwf as [_ Hw]. clear -Hw. induction ws as [|w ws IH]; [constructor|].
    apply andb_true_iff in Hw as [Hw Hws]. change (mjoin (pr_word <$> w :: ws)) with (pr_word w ++ mjoin (pr_word <$> ws)).
    apply Forall_app. split; [by apply word_nonzero|by apply IH].
  - apply andb_true_iff in Hwf as [Hc [Hw _]%andb_true_iff]. apply Forall_app. split; [by apply IH|].
    constructor; [by destruct (mode =? O_RDONLY)|by apply word_nonzero].
  - apply andb_true_iff in Hwf as [Hl Hr]. apply paren_nonzero, Forall_app. split; [by apply IHl|]. constructor; [done|by apply IHr].
  - apply andb_true_iff in Hwf as [Hl Hr]. apply paren_nonzero, Forall_app. split; [by apply IHl|]. constructor; [done|by apply IHr].
  - apply paren_nonzero, Forall_app. split; [by apply IH|by repeat constructor].
Qed.

Lemma parse_printed c :
  wf c = true ->
  exists c' buf, parsecmd (pr 0 c) = Ok (c', buf) /\ cmd_map (read_word (pr 0 c) buf) c' = c.
Proof.
  intros Hwf. destruct (reads_all c Hwf) as (_ & _ & _ & HL).
  destruct (HL [] I (4 * length (pr 0 c) + 8)%nat) as (c' & Hp & Ht); [rewrite app_nil_r; lia|]. rewrite app_nil_r in Hp.
  assert (parsecmd (pr 0 c) = Ok (c', nulterminate (pr 0 c) c' (pr 0 c ++ [0]))) as Hpc by (unfold parsecmd; by rewrite Hp).
  exists c', (nulterminate (pr 0 c) c' (pr 0 c ++ [0])). split; [done|]. destruct (parsecmd_ends _ _ _ Hpc) as [Hg _].
  etrans; [|exact Ht]. apply cmd_map_ext. intros x Hx. apply read_good; [by apply pr_nonzero|done|done].
Qed.

(** C29: the shell's parser inverts printing: any tree of commands, pipes,
    sequences, background jobs and redirections (nested and parenthesised to
    any depth) whose words are made of word characters, written out as a
    command line, parses to that same tree, and after [nulterminate] each of
    its [argv] and file pointers reads, as a C string in the line, as the
    word it was printed from. *)
Theorem parse_print c :
  wf c = true ->
  exists c' buf, parsecmd (pr 0 c) = Ok (c', buf) /\ cmd_map (read_word (pr 0 c) buf) c' = c.
Proof. apply parse_printed. Qed.

(** [(a b<in|c>out)& ; d] with a nested list, as a tree. *)
Definition sample : cmd str :=
  LIST (BACK (PIPE (REDIR (EXEC [[97]; [98; 99]]) [105] O_RDONLY 0) (REDIR (EXEC [[99]]) [111] (Z.lor O_WRONLY O_CREATE) 1)))
       (PIPE (LIST (EXEC [[100]]) (BACK (EXEC [[101]; [102]]))) (EXEC [[103]])).

Lemma parse_print_witness :
  wf sample = true /\ exists c' buf, parsecmd (pr 0 sample) = Ok (c', buf) /\ cmd_map (read_word (pr 0 sample) buf) c' = sample.
Proof. split; [by vm_compute|]. apply (parse_print sample). by vm_compute. Defined.

(** On every line [parsecmd] returns or reports an error. *)
Lemma parsecmd_returns line : match parsecmd line with Ok _ | Fail (Panic _) => True | Fail _ => False end.
Proof.
  unfold parsecmd. destruct (parse_ends (4 * length line + 8)) as (HL & _). specialize (HL line ltac:(lia)).
  destruct (parseline _ line) as [[c1 s]|[]]; try done. cbn [obind]. unfold peek. by destruct (skipws s).
Qed.

(** A later redirection is put around an earlier one: of two inputs the
    first on the line is the one the command reads. *)
Lemma redirections_nest : exists c buf, parsecmd [97; 60; 98; 60; 99] = Ok (c, buf) /\
  cmd_map (read_word [97; 60; 98; 60; 99] buf) c = REDIR (REDIR (EXEC [[97]]) [98] O_RDONLY 0) [99] O_RDONLY 0.
Proof. eexists _, _. split; [by vm_compute|by vm_compute]. Qed.
