(* ===== verification/ShellGrammar.v ===== *)
(** * The language of the shell

    What a command line means, said without the parser: the line is split
    into tokens, and a grammar says which sequences of tokens are commands and
    which tree they stand for.  The parser of [sh.c] accepts exactly this
    language, and builds exactly these trees. *)

From stdpp Require Import base gmap strings numbers list.
From S2P Require Import Prelude Shell.

(** ** Tokens *)

(** A word, one of the characters [< | > & ; ( )], or [>>]. *)
Inductive token := Word (w : str) | Op (c : Z) | Append.

(** Space, tab, return, newline and vertical tab; then the operators. *)
Definition blank (c : Z) : bool := existsb (Z.eqb c) [32; 9; 13; 10; 11].
Definition operator (c : Z) : bool := existsb (Z.eqb c) [60; 124; 62; 38; 59; 40; 41].

(** Blanks and operators end a word; [>>] is one token. [w] is the part of
    a word that has been seen. *)
Definition flush (w : str) : list token := match w with [] => [] | _ => [Word w] end.
Fixpoint lex_from (w s : str) : list token :=
  match s with
  | [] => flush w
  | c :: s' =>
      if blank c then flush w ++ lex_from [] s'
      else if operator c then
        flush w ++ match s' with
                   | d :: s'' => if (c =? 62) && (d =? 62) then Append :: lex_from [] s'' else Op c :: lex_from [] s'
                   | [] => [Op c]
                   end
      else lex_from (w ++ [c]) s'
  end.
Definition lex : str -> list token := lex_from [].

(** ** Grammar *)

(** [< file], [> file] and [>> file], which opens the file as [>] does *)
Inductive g_redir : list token -> str * Z * Z -> Prop :=
| g_in f : g_redir [Op 60; Word f] (f, 0, 0)
| g_out f : g_redir [Op 62; Word f] (f, 0x201, 1)
| g_append f : g_redir [Append; Word f] (f, 0x201, 1).

Inductive g_redirs : list token -> list (str * Z * Z) -> Prop :=
| g_redirs_nil : g_redirs [] []
| g_redirs_cons t r ts rs : g_redir t r -> g_redirs ts rs -> g_redirs (t ++ ts) (r :: rs).

(** Arguments, with redirections after each *)
Inductive g_args : list token -> list str -> list (str * Z * Z) -> Prop :=
| g_args_nil : g_args [] [] []
| g_args_cons w tr rs ts ws rs' : g_redirs tr rs -> g_args ts ws rs' -> g_args (Word w :: tr ++ ts) (w :: ws) (rs ++ rs').

(** A simple command has fewer than [MAXARGS] arguments, perhaps none.  A
    parenthesised line may be redirected.  Pipes bind tighter than [&], and
    [&] tighter than [;]; both operators associate to the right. *)
Inductive nt := Line | Pipe | Unit.
Inductive derives : nt -> list token -> cmd str -> Prop :=
| d_exec tr rs ta ws rs' :
    g_redirs tr rs -> g_args ta ws rs' -> (length ws < MAXARGS)%nat -> derives Unit (tr ++ ta) (wrap (EXEC ws) (rs ++ rs'))
| d_block ts c tr rs : derives Line ts c -> g_redirs tr rs -> derives Unit (Op 40 :: ts ++ Op 41 :: tr) (wrap c rs)
| d_unit ts c : derives Unit ts c -> derives Pipe ts c
| d_pipe ts c ts' c' : derives Unit ts c -> derives Pipe ts' c' -> derives Pipe (ts ++ Op 124 :: ts') (PIPE c c')
| d_backs ts c n : derives Pipe ts c -> derives Line (ts ++ replicate n (Op 38)) (Nat.iter n BACK c)
| d_list ts c n ts' c' : derives Pipe ts c -> derives Line ts' c' ->
    derives Line (ts ++ replicate n (Op 38) ++ Op 59 :: ts') (LIST (Nat.iter n BACK c) c').

(** ** The parser's tokens are the line's *)

Lemma blank_ws c : strchr whitespace c = blank c.
Proof. unfold strchr, blank, whitespace. cbn [existsb]. lia. Qed.

Lemma operator_sym c : strchr symbols c = operator c.
Proof. unfold strchr, operator, symbols. cbn [existsb]. lia. Qed.

Lemma wordchar_lex c : wordchar c = negb (blank c) && negb (operator c).
Proof. unfold wordchar. by rewrite blank_ws, operator_sym. Qed.

Lemma lex_skipws s : lex (skipws s) = lex s.
Proof.
  induction s as [|c s IH]; [done|]. unfold skipws. cbn [skip]. rewrite blank_ws. destruct (blank c) eqn:Hb; [|done].
  fold skipws. rewrite IH. unfold lex. cbn [lex_from]. by rewrite Hb.
Qed.

Lemma lex_word w k : forall v, Forall (fun c => wordchar c = true) w -> lex_from v (w ++ k) = lex_from (v ++ w) k.
Proof.
  induction w as [|c w IH]; intros v Hw; [by rewrite app_nil_r|]. apply Forall_cons in Hw as [Hc Hw]. rewrite wordchar_lex in Hc.
  apply andb_true_iff in Hc as [Hb%negb_true_iff Ho%negb_true_iff]. cbn [app lex_from]. rewrite Hb, Ho, IH by done. by rewrite <- app_assoc.
Qed.

Lemma lex_flush v k : delim k -> lex_from v k = flush v ++ lex k.
Proof.
  intros Hk. destruct k as [|c k]; cbn [lex_from delim] in *; [by rewrite app_nil_r|]. rewrite wordchar_lex in Hk. unfold lex. cbn [lex_from].
  destruct (blank c); [done|]. by destruct (operator c).
Qed.

Lemma lex_word_first w k : w <> [] -> Forall (fun c => wordchar c = true) w -> delim k -> lex (w ++ k) = Word w :: lex k.
Proof. intros Hne Hw Hk. unfold lex. rewrite lex_word by done. rewrite (lex_flush _ k Hk). by destruct w. Qed.

(** A line without tokens is blank. *)
Lemma lex_nil s : lex s = [] -> skipws s = [].
Proof.
  rewrite <- lex_skipws. pose proof (skip_stop (strchr whitespace) s) as Hst. fold skipws in Hst. destruct (skipws s) as [|c r]; [done|].
  rewrite blank_ws in Hst. destruct (wordchar c) eqn:Hc.
  - destruct (skip_split wordchar r) as (w & -> & Hall). change (c :: w ++ skip wordchar r) with ((c :: w) ++ skip wordchar r).
    rewrite lex_word_first; [done|done|by constructor|exact (skip_stop wordchar r)].
  - rewrite wordchar_lex, Hst in Hc. cbn [negb andb] in Hc. apply negb_false_iff in Hc. unfold lex. cbn [lex_from flush app]. rewrite Hst, Hc.
    destruct r as [|d r]; [done|]. by destruct (_ && _).
Qed.

(** A token of the parser: its number, and the characters of a word. *)
Definition token_is (t : token) (tok : Z) (q eq : str) : Prop :=
  match t with
  | Word w => tok = c_a /\ text (q, eq) = w
  | Op c => tok = c /\ operator c = true
  | Append => tok = c_plus
  end.

Lemma lex_gettoken s tok q eq s' : gettoken s = (tok, q, eq, s') ->
  match lex s with
  | [] => tok = 0 /\ lex s' = []
  | t :: ts => token_is t tok q eq /\ lex s' = ts
  end.
Proof.
  unfold gettoken. rewrite <- (lex_skipws s). pose proof (skip_stop (strchr whitespace) s) as Hst. fold skipws in Hst.
  destruct (skipws s) as [|c r] eqn:Hr; [by intros [= <- <- <- <-]|]. rewrite blank_ws in Hst.
  destruct (operator c) eqn:Ho.
  - assert (((c =? c_bar) || (c =? c_open) || (c =? c_close) || (c =? c_semi) || (c =? c_amp) || (c =? c_lt)) = negb (c =? c_gt)) as ->.
    { unfold operator in Ho. cbn [existsb] in Ho. unfold c_bar, c_open, c_close, c_semi, c_amp, c_lt, c_gt.
      destruct (Z.eqb_spec c 62) as [->|]; [done|]. cbn. lia. }
    unfold lex. cbn [lex_from flush app]. rewrite Hst, Ho. fold lex.
    destruct (Z.eqb_spec c c_gt) as [->|Hne]; cbn [negb].
    + destruct r as [|d r]; cbn [hd0 tail]; [by intros [= <- <- <- <-]|].
      change ((c_gt =? 62) && (d =? 62)) with (d =? c_gt). destruct (d =? c_gt); intros [= <- <- <- <-]; by rewrite lex_skipws.
    + intros [= <- <- <- <-]. rewrite lex_skipws. destruct r as [|d r]; [done|]. by rewrite (proj2 (Z.eqb_neq c 62)) by done.
  - assert (((c =? c_bar) || (c =? c_open) || (c =? c_close) || (c =? c_semi) || (c =? c_amp) || (c =? c_lt)) = false /\ (c =? c_gt) = false) as [-> ->].
    { unfold operator in Ho. cbn [existsb] in Ho. unfold c_bar, c_open, c_close, c_semi, c_amp, c_lt, c_gt. lia. }
    intros [= <- <- <- <-]. rewrite lex_skipws. assert (wordchar c = true) as Hc by (by rewrite wordchar_lex, Hst, Ho).
    destruct (skip_split wordchar r) as (w & Hw & Hall). assert (skipword (c :: r) = skipword r) as Hs by (unfold skipword; cbn [skip]; by rewrite Hc).
    rewrite Hs. fold skipword in Hw. assert (delim (skipword r)) as Hd by exact (skip_stop wordchar r).
    assert (c :: r = (c :: w) ++ skipword r) as Hcw by (cbn; by f_equal).
    assert (lex (c :: r) = Word (c :: w) :: lex (skipword r)) as -> by (rewrite Hcw; apply lex_word_first; [done|by constructor|done]).
    split; [|done]. split; [done|]. rewrite Hcw. apply text_word.
Qed.

(** What [peek] sees: the first token's character. *)
Definition sees (toks : str) (ts : list token) : bool :=
  match ts with
  | Op c :: _ => strchr toks c
  | Append :: _ => strchr toks c_gt
  | _ => false
  end.

Lemma lex_peek s toks s' b : forallb operator toks = true -> peek s toks = (s', b) -> lex s' = lex s /\ b = sees toks (lex s).
Proof.
  intros Ht [= <- <-]. split; [apply lex_skipws|]. rewrite <- (lex_skipws s). pose proof (skip_stop (strchr whitespace) s) as Hst. fold skipws in Hst.
  destruct (skipws s) as [|c r]; [done|]. rewrite blank_ws in Hst. cbn [hd0].
  assert (negb (c =? 0) && strchr toks c = strchr toks c) as -> by (unfold strchr; by destruct (c =? 0)).
  unfold lex. cbn [lex_from flush app]. rewrite Hst. destruct (operator c) eqn:Ho.
  - destruct r as [|d r]; [done|]. destruct (Z.eqb_spec c 62) as [->|]; cbn; [|done]. by destruct (d =? 62).
  - assert (wordchar c = true) as Hc by (by rewrite wordchar_lex, Hst, Ho).
    assert (strchr toks c = false) as ->.
    { apply not_true_is_false. unfold strchr. intros [_ (x & Hx & Heq%Z.eqb_eq)%existsb_exists]%andb_true_iff. subst x.
      rewrite forallb_forall in Ht. by rewrite (Ht c Hx) in Ho. }
    destruct (skip_split wordchar r) as (w & Hw & Hall). rewrite Hw, (lex_word w) by done.
    rewrite (lex_flush _ (skip wordchar r) (skip_stop wordchar r)). done.
Qed.

Lemma peek_at s toks ts : forallb operator toks = true -> lex s = ts -> exists s1, peek s toks = (s1, sees toks ts) /\ lex s1 = ts.
Proof. intros Ht <-. destruct (peek s toks) as [s1 b] eqn:Hp. apply lex_peek in Hp as [Hl ->]; [|done]. eauto. Qed.

Lemma gettoken_at s t ts : lex s = t :: ts -> exists tok q eq s1, gettoken s = (tok, q, eq, s1) /\ token_is t tok q eq /\ lex s1 = ts.
Proof. intros Hs. destruct (gettoken s) as [[[tok q] eq] s1] eqn:Hg. apply lex_gettoken in Hg. rewrite Hs in Hg. destruct Hg. eauto 10. Qed.

Lemma gettoken_end s : lex s = [] -> exists q eq s1, gettoken s = (0, q, eq, s1) /\ lex s1 = [].
Proof. intros Hs. destruct (gettoken s) as [[[tok q] eq] s1] eqn:Hg. apply lex_gettoken in Hg. rewrite Hs in Hg. destruct Hg as [-> ?]. eauto 10. Qed.

Lemma token_word t q eq : token_is t c_a q eq -> t = Word (text (q, eq)).
Proof. destruct t; cbn; [by intros [_ ->]|by intros [<- Ho]|done]. Qed.

(** The first of some tokens is this operator. *)
Lemma sees_op c ts : c <> c_gt -> sees [c] ts = true -> exists ts', ts = Op c :: ts'.
Proof.
  intros Hc. destruct ts as [|[w|d|] ts]; cbn [sees]; try done; unfold strchr; cbn [existsb]; [|intros H; exfalso; apply Hc; lia].
  intros H. assert (d = c) as -> by lia. eauto.
Qed.

(** ** What the parser accepts is a command *)

Lemma redirs_sound fuel : forall s rs s', parseredirs fuel s = Ok (rs, s') -> exists ts, lex s = ts ++ lex s' /\ g_redirs ts (rtext <$> rs).
Proof.
  induction fuel as [|fuel IH]; intros s rs s'; [done|]. cbn [parseredirs]. destruct (peek s _) as [s1 b] eqn:Hp. apply lex_peek in Hp as [Hl ->]; [|done].
  destruct (sees _ (lex s)) eqn:Hs; [|intros [= <- <-]; exists []; split; [by rewrite Hl|constructor]].
  destruct (lex s) as [|t ts]; [done|]. destruct (gettoken_at s1 t ts Hl) as (tok & q0 & e0 & s2 & -> & Ht & Hl2).
  destruct (gettoken s2) as [[[tok2 q] eq] s3] eqn:Hg. apply lex_gettoken in Hg. rewrite Hl2 in Hg.
  destruct (Z.eqb_spec tok2 c_a) as [->|]; [|done]. cbn [negb]. intros ([rs1 s4] & Hrec & [= <- <-])%obind_Ok.
  destruct ts as [|t2 ts]; [by destruct Hg|]. destruct Hg as [->%token_word Hl3]. apply IH in Hrec as (ts' & Hl4 & Hr). rewrite Hl3 in Hl4. subst ts.
  exists ([t; Word (text (q, eq))] ++ ts'). split; [by rewrite Hl4|]. cbn [fmap list_fmap]. apply g_redirs_cons; [|done].
  destruct t as [w|c|]; cbn [sees token_is] in *; [done| |subst tok; apply g_append].
  destruct Ht as [-> _]. unfold strchr in Hs. cbn [existsb] in Hs. destruct (Z.eqb_spec c c_lt) as [->|Hne]; [apply g_in|].
  assert (c = c_gt) as -> by (unfold c_lt, c_gt in *; lia). apply g_out.
Qed.

Lemma args_sound fuel : forall argc s ws rs s', parseargs fuel argc s = Ok (ws, rs, s') -> (argc < MAXARGS)%nat ->
  exists ts, lex s = ts ++ lex s' /\ g_args ts (text <$> ws) (rtext <$> rs) /\ (argc + length ws < MAXARGS)%nat.
Proof.
  induction fuel as [|fuel IH]; intros argc s ws rs s'; [done|]. cbn [parseargs]. intros Hp Hargc. destruct (peek s _) as [s1 b] eqn:Hpk.
  apply lex_peek in Hpk as [Hl ->]; [|done].
  destruct (sees _ (lex s)); [injection Hp as <- <- <-; exists []; split_and!; [by rewrite Hl|constructor|cbn; lia]|].
  destruct (gettoken s1) as [[[tok q] eq] s2] eqn:Hg. apply lex_gettoken in Hg. rewrite Hl in Hg.
  destruct (Z.eqb_spec tok 0) as [->|Hz].
  { injection Hp as <- <- <-. exists []. split_and!; [|constructor|cbn; lia]. destruct (lex s) as [|t ts]; [by destruct Hg as [_ ->]|].
    destruct Hg as [Ht _]. destruct t; cbn in Ht; [by destruct Ht|by destruct Ht as [<- ?]|done]. }
  destruct (Z.eqb_spec tok c_a) as [->|]; [|done]. cbn [negb] in Hp. destruct (Nat.leb_spec MAXARGS (S argc)) as [|Hlt]; [done|].
  apply obind_Ok in Hp as ([rs1 s3] & H1 & ([[ws2 rs2] s4] & H2 & [= <- <- <-])%obind_Ok).
  destruct (lex s) as [|t ts]; [by destruct Hg|]. destruct Hg as [->%token_word Hl2].
  apply redirs_sound in H1 as (ts1 & Hl3 & Hr1). apply IH in H2 as (ts2 & Hl4 & Ha & Hn); [|done]. subst ts. rewrite Hl4 in Hl3.
  exists (Word (text (q, eq)) :: ts1 ++ ts2). split_and!; [rewrite Hl3; cbn; by rewrite <- app_assoc|rewrite fmap_app; by apply g_args_cons|cbn; lia].
Qed.

Lemma backs_sound fuel : forall c s c' s', parsebacks fuel c s = Ok (c', s') ->
  exists n, lex s = replicate n (Op c_amp) ++ lex s' /\ c' = Nat.iter n BACK c.
Proof.
  induction fuel as [|fuel IH]; intros c s c' s'; [done|]. cbn [parsebacks]. destruct (peek s _) as [s1 b] eqn:Hpk. apply lex_peek in Hpk as [Hl ->]; [|done].
  destruct (sees _ (lex s)) eqn:Hs; [|intros [= <- <-]; exists 0%nat; by rewrite Hl]. apply sees_op in Hs as [ts Hs]; [|done]. rewrite Hs in Hl.
  destruct (gettoken_at s1 _ _ Hl) as (tok & q & eq & s2 & -> & _ & Hl2). intros (n & Hl3 & ->)%IH. exists (S n). rewrite Hs, <- Hl2, Hl3.
  split; [done|]. by rewrite Nat.iter_succ_r.
Qed.

Lemma wrap_text c rs : cmd_map text (wrap c rs) = wrap (cmd_map text c) (rtext <$> rs).
Proof. apply wrap_map. Qed.

Lemma iter_back_text n c : cmd_map text (Nat.iter n BACK c) = Nat.iter n BACK (cmd_map text c).
Proof. induction n as [|n IH]; [done|]. rewrite !Nat.iter_succ. cbn [cmd_map]. by rewrite IH. Qed.

Lemma parse_sound fuel :
  (forall s c s', parseline fuel s = Ok (c, s') -> exists ts, lex s = ts ++ lex s' /\ derives Line ts (cmd_map text c)) /\
  (forall s c s', parsepipe fuel s = Ok (c, s') -> exists ts, lex s = ts ++ lex s' /\ derives Pipe ts (cmd_map text c)) /\
  (forall s c s', parseexec fuel s = Ok (c, s') -> exists ts, lex s = ts ++ lex s' /\ derives Unit ts (cmd_map text c)) /\
  (forall s c s', parseblock fuel s = Ok (c, s') -> exists ts, lex s = ts ++ lex s' /\ derives Unit ts (cmd_map text c)).
Proof.
  induction fuel as [|fuel (IHl & IHp & IHe & IHb)]; [split_and!; done|]. split_and!; intros s c s'.
  - cbn [parseline]. intros ([c1 s1] & (ts1 & H1 & D1)%IHp & ([c2 s2] & (n & H2 & ->)%backs_sound & Hp)%obind_Ok)%obind_Ok.
    destruct (peek s2 _) as [s3 b] eqn:Hpk. apply lex_peek in Hpk as [H3 ->]; [|done].
    destruct (sees _ (lex s2)) eqn:Hs.
    + apply sees_op in Hs as [ts Hs]; [|done]. rewrite Hs in H3. destruct (gettoken_at s3 _ _ H3) as (tok & q & eq & s4 & E & _ & H4). rewrite E in Hp.
      apply obind_Ok in Hp as ([c5 s5] & (ts5 & H5 & D5)%IHl & [= <- <-]). exists (ts1 ++ replicate n (Op c_amp) ++ Op c_semi :: ts5).
      split; [rewrite H1, H2, Hs, <- H4, H5; by rewrite <- !app_assoc|]. cbn [cmd_map]. rewrite iter_back_text. by apply d_list.
    + injection Hp as <- <-. exists (ts1 ++ replicate n (Op c_amp)). split; [by rewrite H1, H2, H3, <- app_assoc|]. rewrite iter_back_text. by apply d_backs.
  - cbn [parsepipe]. intros ([c1 s1] & (ts1 & H1 & D1)%IHe & Hp)%obind_Ok.
    destruct (peek s1 _) as [s3 b] eqn:Hpk. apply lex_peek in Hpk as [H3 ->]; [|done].
    destruct (sees _ (lex s1)) eqn:Hs.
    + apply sees_op in Hs as [ts Hs]; [|done]. rewrite Hs in H3. destruct (gettoken_at s3 _ _ H3) as (tok & q & eq & s4 & E & _ & H4). rewrite E in Hp.
      apply obind_Ok in Hp as ([c5 s5] & (ts5 & H5 & D5)%IHp & [= <- <-]). exists (ts1 ++ Op c_bar :: ts5).
      split; [rewrite H1, Hs, <- H4, H5; by rewrite <- app_assoc|]. by apply d_pipe.
    + injection Hp as <- <-. exists ts1. split; [by rewrite H1, H3|]. by apply d_unit.
  - cbn [parseexec]. destruct (peek s _) as [s1 b] eqn:Hpk. apply lex_peek in Hpk as [H1 ->]; [|done].
    destruct (sees _ (lex s)); [rewrite <- H1; apply IHb|].
    intros ([rs s2] & (ts1 & H2 & R1)%redirs_sound & ([[ws rs'] s3] & H3 & [= <- <-])%obind_Ok)%obind_Ok.
    apply args_sound in H3 as (ts2 & H3 & A & Hn); [|unfold MAXARGS; lia]. exists (ts1 ++ ts2). split; [by rewrite <- H1, H2, H3, <- app_assoc|].
    rewrite wrap_text, fmap_app. cbn [cmd_map]. apply d_exec; [done|done|by rewrite length_fmap].
  - cbn [parseblock]. destruct (peek s _) as [s1 b] eqn:Hpk. apply lex_peek in Hpk as [H1 ->]; [|done].
    destruct (sees _ (lex s)) eqn:Hs; [|done]. cbn [negb]. apply sees_op in Hs as [ts Hs]; [|done]. rewrite Hs in H1.
    destruct (gettoken_at s1 _ _ H1) as (tok & q & eq & s2 & -> & _ & H2). intros ([c1 s3] & (ts3 & H3 & D3)%IHl & Hp)%obind_Ok.
    destruct (peek s3 _) as [s4 b] eqn:Hpk. apply lex_peek in Hpk as [H4 ->]; [|done].
    destruct (sees _ (lex s3)) eqn:Hs3; [|done]. cbn [negb] in Hp. apply sees_op in Hs3 as [ts' Hs3]; [|done]. rewrite Hs3 in H4.
    destruct (gettoken_at s4 _ _ H4) as (tok' & q' & eq' & s5 & E & _ & H5). rewrite E in Hp.
    apply obind_Ok in Hp as ([rs s6] & (ts6 & H6 & R6)%redirs_sound & [= <- <-]). exists (Op c_open :: ts3 ++ Op c_close :: ts6).
    split; [rewrite Hs, <- H2, H3, Hs3, <- H5, H6; cbn; by rewrite <- app_assoc|]. rewrite wrap_text. by apply d_block.
Qed.

(** ** Every command is accepted *)

Lemma fuel_bind {A B} (o : outcome A) (f : A -> outcome B) : obind o f <> Fail OutOfFuel -> o <> Fail OutOfFuel.
Proof. by destruct o as [|[]]. Qed.

(** What may follow: the end of the line, or one of these operators. *)
Definition before (l : str) (k : list token) : Prop := match k with [] => True | Op c :: _ => c ∈ l | _ => False end.

Lemma before_sees l toks k : before l k -> forallb (fun c => negb (strchr toks c)) l = true -> sees toks k = false.
Proof.
  destruct k as [|[w|c|] k]; cbn [before sees]; try done. intros Hc Hl. rewrite forallb_forall in Hl.
  specialize (Hl c (proj1 (list_elem_of_In _ _) Hc)). by apply negb_true_iff.
Qed.

Lemma before_mono l l' k : l ⊆ l' -> before l k -> before l' k.
Proof. destruct k as [|[w|c|] k]; cbn; auto. Qed.

Lemma redirs_sees toks ts rs k : g_redirs ts rs -> strchr toks 60 = false -> strchr toks 62 = false -> sees toks k = false -> sees toks (ts ++ k) = false.
Proof. intros Hr H1 H2 Hk. destruct Hr as [|t r ts rs [] _]; [done|cbn; done..]. Qed.

Lemma args_sees toks ts ws rs k : g_args ts ws rs -> sees toks k = false -> sees toks (ts ++ k) = false.
Proof. by intros []. Qed.

(** A redirection is an operator and a file. *)
Lemma redir_shape t r : g_redir t r ->
  exists t1 w, t = [t1; Word w] /\ (forall k, sees [c_lt; c_gt] (t1 :: k) = true) /\
    forall tok q' e' q e, token_is t1 tok q' e' -> text (q, e) = w ->
      rtext (if tok =? c_lt then ((q, e), O_RDONLY, 0) else ((q, e), Z.lor O_WRONLY O_CREATE, 1)) = r.
Proof.
  intros [f|f|f]; eexists _, f; (split; [done|]); (split; [done|]); cbn [token_is]; intros tok q' e' q e Ht <-; [destruct Ht as [-> _]..|subst tok]; done.
Qed.

Lemma redirs_complete ts rs : g_redirs ts rs -> forall fuel s k, lex s = ts ++ k -> sees [c_lt; c_gt] k = false ->
  parseredirs fuel s <> Fail OutOfFuel ->
  exists rs' s', parseredirs fuel s = Ok (rs', s') /\ lex s' = k /\ rtext <$> rs' = rs.
Proof.
  induction 1 as [|t r ts rs Ht Hr IH]; intros fuel s k Hl Hk Hf; (destruct fuel as [|fuel]; [done|]); cbn [parseredirs] in *;
    destruct (peek_at s [c_lt; c_gt] _ eq_refl Hl) as (s1 & Hp & Hl1); rewrite Hp in *.
  - cbn [app] in *. rewrite Hk in *. by exists [], s1.
  - destruct (redir_shape t r Ht) as (t1 & w & -> & Hs & Hrt). cbn [app] in *. rewrite Hs in *.
    destruct (gettoken_at s1 _ _ Hl1) as (tok & q' & e' & s2 & Hg & Ht1 & Hl2). rewrite Hg in *.
    destruct (gettoken_at s2 _ _ Hl2) as (tok2 & q & e & s3 & Hg2 & [-> Hw] & Hl3). rewrite Hg2 in *.
    change (negb (c_a =? c_a)) with false in *. cbv iota in *.
    destruct (IH fuel s3 k Hl3 Hk (fuel_bind _ _ Hf)) as (rs' & s' & -> & Hl' & Hrs). cbn [obind]. eexists _, s'. split; [done|]. split; [done|].
    cbn [fmap list_fmap]. f_equal; [by eapply Hrt|done].
Qed.

Definition after_unit : str := [c_bar; c_close; c_amp; c_semi].

Lemma args_complete ts ws rs : g_args ts ws rs -> forall fuel argc s k, lex s = ts ++ k -> before after_unit k ->
  (argc + length ws < MAXARGS)%nat -> parseargs fuel argc s <> Fail OutOfFuel ->
  exists ws' rs' s', parseargs fuel argc s = Ok (ws', rs', s') /\ lex s' = k /\ text <$> ws' = ws /\ rtext <$> rs' = rs.
Proof.
  induction 1 as [|w tr rs ts ws rs' Hr Ha IH]; intros fuel argc s k Hl Hk Hn Hf; (destruct fuel as [|fuel]; [done|]); cbn [parseargs] in *;
    destruct (peek_at s [c_bar; c_close; c_amp; c_semi] _ eq_refl Hl) as (s1 & Hp & Hl1); rewrite Hp in *; cbn [app] in *.
  - destruct k as [|[w|c|] k]; try done.
    + cbn [sees]. destruct (gettoken_end s1 Hl1) as (q & e & s2 & -> & Hl2). by exists [], [], s2.
    + cbn [sees before] in *. assert (strchr [c_bar; c_close; c_amp; c_semi] c = true) as ->; [|by exists [], [], s1].
      repeat (apply elem_of_cons in Hk as [->|Hk]; [done|]). by apply elem_of_nil in Hk.
  - cbn [sees] in *. destruct (gettoken_at s1 _ _ Hl1) as (tok & q & e & s2 & Hg & [-> Hw] & Hl2). rewrite Hg in *.
    change (c_a =? 0) with false in *. change (negb (c_a =? c_a)) with false in *. cbv iota in *. cbn [length] in Hn.
    rewrite (proj2 (Nat.leb_gt MAXARGS (S argc))) in * by lia. rewrite <- app_assoc in Hl2.
    destruct (redirs_complete _ _ Hr fuel s2 (ts ++ k) Hl2) as (r1 & s3 & H3 & Hl3 & Hr3);
      [eapply args_sees; [done|]; by apply (before_sees after_unit)|exact (fuel_bind _ _ Hf)|]. rewrite H3 in *. cbn [obind] in *.
    destruct (IH fuel (S argc) s3 k Hl3 Hk) as (ws4 & r4 & s4 & -> & Hl4 & Hw4 & Hr4); [lia|exact (fuel_bind _ _ Hf)|]. cbn [obind].
    eexists _, _, s4. split; [done|]. split_and!; [done|cbn; by f_equal|rewrite fmap_app; by f_equal].
Qed.

Lemma backs_complete n : forall fuel c s k, lex s = replicate n (Op c_amp) ++ k -> sees [c_amp] k = false ->
  parsebacks fuel c s <> Fail OutOfFuel -> exists s', parsebacks fuel c s = Ok (Nat.iter n BACK c, s') /\ lex s' = k.
Proof.
  induction n as [|n IH]; intros fuel c s k Hl Hk Hf; (destruct fuel as [|fuel]; [done|]); cbn [parsebacks] in *;
    destruct (peek_at s [c_amp] _ eq_refl Hl) as (s1 & Hp & Hl1); rewrite Hp in *; cbn [replicate app] in *.
  - rewrite Hk in *. by exists s1.
  - change (sees [c_amp] (Op c_amp :: replicate n (Op c_amp) ++ k)) with true in *. cbv iota in *. destruct (gettoken_at s1 _ _ Hl1) as (tok & q & e & s2 & Hg & _ & Hl2). rewrite Hg in *.
    destruct (IH fuel (BACK c) s2 k Hl2 Hk Hf) as (s' & -> & Hl'). exists s'. by rewrite <- Nat.iter_succ_r.
Qed.

Definition parser (n : nt) : nat -> str -> outcome (cmd word * str) := match n with Line => parseline | Pipe => parsepipe | Unit => parseexec end.
Definition after (n : nt) : str := match n with Line => [c_close] | Pipe => [c_close; c_amp; c_semi] | Unit => after_unit end.

(** With enough fuel the parser takes exactly the tokens of the command. *)
Definition accepts (n : nt) (ts : list token) (t : cmd str) : Prop := forall fuel s k,
  lex s = ts ++ k -> before (after n) k -> parser n fuel s <> Fail OutOfFuel ->
  exists c s', parser n fuel s = Ok (c, s') /\ lex s' = k /\ cmd_map text c = t.

Lemma exec_accepts tr rs ta ws rs' : g_redirs tr rs -> g_args ta ws rs' -> (length ws < MAXARGS)%nat -> accepts Unit (tr ++ ta) (wrap (EXEC ws) (rs ++ rs')).
Proof.
  intros Hr Ha Hn fuel s k Hl Hk Hf. cbn [parser after] in *. destruct fuel as [|fuel]; [done|]. cbn [parseexec] in *.
  destruct (peek_at s [c_open] _ eq_refl Hl) as (s1 & Hp & Hl1). rewrite Hp in *. rewrite <- app_assoc in *.
  assert (sees [c_open] (tr ++ ta ++ k) = false) as Hs by (eapply redirs_sees; [done..|]; eapply args_sees; [done|]; by apply (before_sees after_unit)).
  rewrite Hs in *. destruct (redirs_complete _ _ Hr fuel s1 (ta ++ k) Hl1) as (r1 & s2 & H2 & Hl2 & Hr2);
    [eapply args_sees; [done|]; by apply (before_sees after_unit)|exact (fuel_bind _ _ Hf)|]. rewrite H2 in *. cbn [obind] in *.
  destruct (args_complete _ _ _ Ha fuel 0%nat s2 k Hl2 Hk Hn (fuel_bind _ _ Hf)) as (ws3 & r3 & s3 & -> & Hl3 & Hw3 & Hr3). cbn [obind].
  eexists _, s3. split; [done|]. split; [done|]. rewrite wrap_text, fmap_app, Hr2, Hr3. cbn [cmd_map]. by rewrite Hw3.
Qed.

Lemma block_accepts ts c tr rs : accepts Line ts c -> g_redirs tr rs -> accepts Unit (Op 40 :: ts ++ Op 41 :: tr) (wrap c rs).
Proof.
  intros IH Hr fuel s k Hl Hk Hf. cbn [parser after] in *. destruct fuel as [|fuel]; [done|]. cbn [parseexec] in *.
  destruct (peek_at s [c_open] _ eq_refl Hl) as (s1 & Hp & Hl1). rewrite Hp in *. change (sees _ _) with true in *. cbv iota in *.
  destruct fuel as [|fuel]; [done|]. cbn [parseblock] in *.
  destruct (peek_at s1 [c_open] _ eq_refl Hl1) as (s2 & Hp2 & Hl2). rewrite Hp2 in *. change (sees _ _) with true in *. cbn [negb app] in *.
  destruct (gettoken_at s2 _ _ Hl2) as (tok & q & e & s3 & Hg & _ & Hl3). rewrite Hg in *. rewrite <- app_assoc in Hl3. cbn [app] in Hl3.
  destruct (IH fuel s3 (Op 41 :: tr ++ k) Hl3) as (c4 & s4 & H4 & Hl4 & Ht4); [by left|exact (fuel_bind _ _ Hf)|]. cbn [parser] in H4. rewrite H4 in *. cbn [obind] in *.
  destruct (peek_at s4 [c_close] _ eq_refl Hl4) as (s5 & Hp5 & Hl5). rewrite Hp5 in *. change (sees _ _) with true in *. cbn [negb] in *.
  destruct (gettoken_at s5 _ _ Hl5) as (tok' & q' & e' & s6 & Hg6 & _ & Hl6). rewrite Hg6 in *.
  destruct (redirs_complete _ _ Hr fuel s6 k Hl6) as (r7 & s7 & -> & Hl7 & Hr7); [by apply (before_sees after_unit)|exact (fuel_bind _ _ Hf)|]. cbn [obind].
  eexists _, s7. split; [done|]. split; [done|]. by rewrite wrap_text, Ht4, Hr7.
Qed.

Lemma unit_accepts ts c : accepts Unit ts c -> accepts Pipe ts c.
Proof.
  intros IH fuel s k Hl Hk Hf. cbn [parser after] in *. destruct fuel as [|fuel]; [done|]. cbn [parsepipe] in *.
  destruct (IH fuel s k Hl) as (c1 & s1 & H1 & Hl1 & Ht1); [by eapply before_mono; [|done]; set_solver|exact (fuel_bind _ _ Hf)|]. cbn [parser] in H1. rewrite H1 in *. cbn [obind] in *.
  destruct (peek_at s1 [c_bar] _ eq_refl Hl1) as (s2 & Hp & Hl2). rewrite Hp in *. rewrite (before_sees [c_close; c_amp; c_semi]) by done. by exists c1, s2.
Qed.

Lemma pipe_accepts ts c ts' c' : accepts Unit ts c -> accepts Pipe ts' c' -> accepts Pipe (ts ++ Op 124 :: ts') (PIPE c c').
Proof.
  intros IH IH' fuel s k Hl Hk Hf. cbn [parser after] in *. destruct fuel as [|fuel]; [done|]. cbn [parsepipe] in *. rewrite <- app_assoc in Hl. cbn [app] in Hl.
  destruct (IH fuel s (Op 124 :: ts' ++ k) Hl) as (c1 & s1 & H1 & Hl1 & Ht1); [by left|exact (fuel_bind _ _ Hf)|]. cbn [parser] in H1. rewrite H1 in *. cbn [obind] in *.
  destruct (peek_at s1 [c_bar] _ eq_refl Hl1) as (s2 & Hp & Hl2). rewrite Hp in *. change (sees _ _) with true in *. cbv iota in *.
  destruct (gettoken_at s2 _ _ Hl2) as (tok & q & e & s3 & Hg & _ & Hl3). rewrite Hg in *.
  destruct (IH' fuel s3 k Hl3 Hk (fuel_bind _ _ Hf)) as (c4 & s4 & H4 & Hl4 & Ht4). cbn [parser] in H4. rewrite H4 in *. cbn [obind].
  eexists _, s4. split; [done|]. split; [done|]. cbn [cmd_map]. by rewrite Ht1, Ht4.
Qed.

(** The part of a line before its [;] *)
Lemma pipe_backs ts c n fuel s k : accepts Pipe ts c -> lex s = ts ++ replicate n (Op 38) ++ k -> before [c_close; c_semi] k ->
  parseline (S fuel) s <> Fail OutOfFuel ->
  exists c1 s1, parseline (S fuel) s = (let '(s2, b) := peek s1 [c_semi] in
      if b then let '(_, _, _, s3) := gettoken s2 in let? (r, s4) := parseline fuel s3 in Ok (LIST c1 r, s4) else Ok (c1, s2)) /\
    lex s1 = k /\ cmd_map text c1 = Nat.iter n BACK c.
Proof.
  intros IH Hl Hk Hf. cbn [parseline] in *.
  destruct (IH fuel s _ Hl) as (c1 & s1 & H1 & Hl1 & Ht1); [destruct n; [by eapply before_mono; [|done]; set_solver|by right; left]|exact (fuel_bind _ _ Hf)|].
  cbn [parser] in H1. rewrite H1 in *. cbn [obind] in *.
  destruct (backs_complete n fuel c1 s1 k Hl1) as (s2 & H2 & Hl2); [by apply (before_sees [c_close; c_semi])|exact (fuel_bind _ _ Hf)|].
  rewrite H2. cbn [obind]. eexists _, s2. split; [done|]. split; [done|]. by rewrite iter_back_text, Ht1.
Qed.

Lemma derives_accepts n ts c : derives n ts c -> accepts n ts c.
Proof.
  induction 1 as [tr rs ta ws rs' Hr Ha Hn|ts c tr rs _ IH Hr|ts c _ IH|ts c ts' c' _ IH _ IH'|ts c n _ IH|ts c n ts' c' _ IH _ IH'].
  - by apply exec_accepts.
  - by apply block_accepts.
  - by apply unit_accepts.
  - by apply pipe_accepts.
  - intros fuel s k Hl Hk Hf. cbn [parser after] in *. destruct fuel as [|fuel]; [done|]. rewrite <- app_assoc in Hl.
    destruct (pipe_backs ts c n fuel s k IH Hl) as (c1 & s1 & -> & Hl1 & Ht1); [by eapply before_mono; [|done]; set_solver|done|].
    destruct (peek_at s1 [c_semi] _ eq_refl Hl1) as (s2 & -> & Hl2). rewrite (before_sees [c_close]) by done. by exists c1, s2.
  - intros fuel s k Hl Hk Hf. cbn [parser after] in *. destruct fuel as [|fuel]; [done|]. rewrite <- !app_assoc in Hl. cbn [app] in Hl.
    destruct (pipe_backs ts c n fuel s (Op 59 :: ts' ++ k) IH Hl) as (c1 & s1 & E & Hl1 & Ht1); [by right; left|done|]. rewrite E in *.
    destruct (peek_at s1 [c_semi] _ eq_refl Hl1) as (s2 & Hp & Hl2). rewrite Hp in *. change (sees _ _) with true in *. cbv iota in *.
    destruct (gettoken_at s2 _ _ Hl2) as (tok & q & e & s3 & Hg & _ & Hl3). rewrite Hg in *.
    destruct (IH' fuel s3 k Hl3 Hk (fuel_bind _ _ Hf)) as (c4 & s4 & H4 & Hl4 & Ht4). cbn [parser] in H4. rewrite H4. cbn [obind].
    eexists _, s4. split; [done|]. split; [done|]. cbn [cmd_map]. by rewrite Ht1, Ht4.
Qed.

Lemma parse_correct line :
  Forall (fun b => b <> 0) line ->
  match parsecmd line with
  | Ok (c, buf) => length buf = S (length line) /\ forall t, derives Line (lex line) t <-> t = cmd_map (read_word line buf) c
  | Fail (Panic _) => forall t, ~ derives Line (lex line) t
  | Fail _ => False
  end.
Proof.
  intros Hnz. pose proof (parsecmd_returns line) as Hret.
  assert (forall t, derives Line (lex line) t -> exists c buf, parsecmd line = Ok (c, buf) /\ cmd_map text c = t) as Hcomplete.
  { intros t Hd. destruct (derives_accepts Line _ t Hd (4 * length line + 8)%nat line []) as (c & s' & Hp & Hl & Ht); [by rewrite app_nil_r|done| |].
    - intros E. cbn [parser] in E. unfold parsecmd in Hret. by rewrite E in Hret.
    - cbn [parser] in Hp. exists c, (nulterminate line c (line ++ [0])). split; [|done]. unfold parsecmd. rewrite Hp. cbn [obind].
      unfold peek. apply lex_nil in Hl. by rewrite Hl. }
  destruct (parsecmd line) as [[c buf]|[]] eqn:Hpc; try done.
  - pose proof (parsecmd_ends line c buf Hpc) as [Hg ->]. split; [rewrite length_nulterminate, length_app; cbn; lia|].
    assert (cmd_map (read_word line (nulterminate line c (line ++ [0]))) c = cmd_map text c) as -> by (apply cmd_map_ext; intros x Hx; by apply read_good).
    intros t. split; [intros (c' & buf' & E & <-)%Hcomplete; by injection E as <- _|intros ->]. unfold parsecmd in Hpc.
    apply obind_Ok in Hpc as ([c1 s] & (ts & Hl & Hd)%(proj1 (parse_sound _)) & Hp). unfold peek in Hp. destruct (skipws s) eqn:Hs; [|done]. injection Hp as -> _.
    rewrite <- (lex_skipws s), Hs, app_nil_r in Hl. by rewrite Hl.
  - intros t (c & buf & [=] & _)%Hcomplete.
Qed.

(** C30: the parser of the shell accepts exactly its language.  On every line
    (a C string, so without a NUL inside) [parsecmd] terminates.  It returns
    a command if and only if the tokens of the line (its maximal words without
    blanks and operators, and its operators, none left out) are a command of
    the grammar, and reports a syntax error otherwise.  The tree it returns is
    the one the grammar gives: after [nulterminate] each of its [argv] and file
    pointers reads, as a C string in the line, as the word of that token. *)
Theorem parse_language line :
  Forall (fun b => b <> 0) line ->
  match parsecmd line with
  | Ok (c, buf) => length buf = S (length line) /\ forall t, derives Line (lex line) t <-> t = cmd_map (read_word line buf) c
  | Fail (Panic _) => forall t, ~ derives Line (lex line) t
  | Fail _ => False
  end.
Proof. apply parse_correct. Qed.

(** [ls>o;echo] is a command, [ls|)] is not. *)
Lemma parse_language_witness :
  derives Line (lex [108; 115; 62; 111; 59; 101; 99]) (LIST (REDIR (EXEC [[108; 115]]) [111] 0x201 1) (EXEC [[101; 99]])) /\
  forall t, ~ derives Line (lex [108; 115; 124; 41]) t.
Proof.
  split.
  - pose proof (parse_language [108; 115; 62; 111; 59; 101; 99] ltac:(by repeat constructor)) as H.
    destruct (parsecmd _) as [[c buf]|e] eqn:He; [|by vm_compute in He]. destruct H as [_ H]. apply H. vm_compute in He. injection He as <- <-. reflexivity.
  - pose proof (parse_language [108; 115; 124; 41] ltac:(by repeat constructor)) as H.
    destruct (parsecmd _) as [[c buf]|[]] eqn:He; try (by vm_compute in He); exact H.
Defined.
