(* ===== verification/Printf.v ===== *)
(** * Formatted output: [printf.c], [cprintf] of [console.c], [atoi] of [ulib.c]

    The output of a call is the bytes it gives to [putc] or [consputc] in
    order.  The arguments after the format are words on the stack; [load] is
    the C string at an address. *)

From stdpp Require Import base gmap strings numbers list.
From S2P Require Import Prelude.

Abbreviation str := (list Z).

Definition c_percent : Z := 37.
Definition c_minus : Z := 45.
Definition c_0 : Z := 48.
Definition c_9 : Z := 57.

(** "0123456789ABCDEF" in [printf.c], "0123456789abcdef" in [console.c] *)
Definition digits_upper : str := [48; 49; 50; 51; 52; 53; 54; 55; 56; 57; 65; 66; 67; 68; 69; 70].
Definition digits_lower : str := [48; 49; 50; 51; 52; 53; 54; 55; 56; 57; 97; 98; 99; 100; 101; 102].
(** "(null)" *)
Definition null_str : str := [40; 110; 117; 108; 108; 41].

Section Print.
Context (digits : str).

(** [do buf[i++] = digits[x % base]; while((x /= base) != 0);] with [room]
    bytes left in [buf]. *)
Fixpoint put_digits (room : nat) (x base : Z) (buf : str) : outcome str :=
  match room with
  | O => Fail (Undef "write outside buf")
  | S room =>
      match digits !! Z.to_nat (x mod base) with
      | None => Fail (Undef "read outside digits")
      | Some d =>
          let buf := buf ++ [d] in
          let x := x / base in
          if x =? 0 then Ok buf else put_digits room x base buf
      end
  end.

(** The characters in the order they are put out. *)
Definition printint (xx base : Z) (sgn : bool) : outcome str :=
  let neg := sgn && (s32 xx <? 0) in
  let x := if neg then u32 (- s32 xx) else u32 xx in
  let? buf := put_digits 16 x base [] in
  if neg then
    if (length buf <? 16)%nat then Ok (rev (buf ++ [c_minus])) else Fail (Undef "write outside buf")
  else Ok (rev buf).

Context (load : Z -> str).

Definition string_arg (s : Z) : str := if s =? 0 then null_str else load s.

(** [*ap++] *)
Definition next_arg (ap : list Z) : outcome (Z * list Z) :=
  match ap with [] => Fail (Undef "argument missing") | a :: ap => Ok (a, ap) end.

(** The loop of [printf] from [fmt + i] on. *)
Fixpoint printf_loop (fmt : str) (state : Z) (ap : list Z) : outcome str :=
  match fmt with
  | [] => Ok []
  | c :: fmt =>
      if state =? 0 then
        if c =? c_percent then printf_loop fmt c_percent ap
        else let? out := printf_loop fmt 0 ap in Ok (c :: out)
      else
        let? (out, ap) :=
          if c =? 100 then                                       (* d *)
            let? (a, ap) := next_arg ap in let? s := printint a 10 true in Ok (s, ap)
          else if (c =? 120) || (c =? 112) then                  (* x, p *)
            let? (a, ap) := next_arg ap in let? s := printint a 16 false in Ok (s, ap)
          else if c =? 115 then                                  (* s *)
            let? (a, ap) := next_arg ap in Ok (string_arg a, ap)
          else if c =? 99 then                                   (* c *)
            let? (a, ap) := next_arg ap in Ok ([u8 a], ap)
          else if c =? c_percent then Ok ([c], ap)
          else Ok ([c_percent; c], ap) in
        let? rest := printf_loop fmt 0 ap in Ok (out ++ rest)
  end.

Definition printf (fmt : str) (ap : list Z) : outcome str := printf_loop fmt 0 ap.

(** [cprintf] takes a directive in one turn of its loop. *)
Fixpoint cprintf (fmt : str) (argp : list Z) : outcome str :=
  match fmt with
  | [] => Ok []
  | c :: fmt =>
      if negb (c =? c_percent) then let? out := cprintf fmt argp in Ok (c :: out)
      else
        match fmt with
        | [] => Ok []
        | c :: fmt =>
            let? (out, argp) :=
              if c =? 100 then
                let? (a, argp) := next_arg argp in let? s := printint a 10 true in Ok (s, argp)
              else if (c =? 120) || (c =? 112) then
                let? (a, argp) := next_arg argp in let? s := printint a 16 false in Ok (s, argp)
              else if c =? 115 then
                let? (a, argp) := next_arg argp in Ok (string_arg a, argp)
              else if c =? c_percent then Ok ([c_percent], argp)
              else Ok ([c_percent; c], argp) in
            let? rest := cprintf fmt argp in Ok (out ++ rest)
        end
  end.
End Print.

(** [while('0' <= *s && *s <= '9') n = n*10 + *s++ - '0';] in [int]s *)
Fixpoint atoi_loop (s : str) (n : Z) : Z :=
  match s with
  | [] => n
  | c :: s => if (c_0 <=? c) && (c <=? c_9) then atoi_loop s (s32 (n * 10 + c - c_0)) else n
  end.

Definition atoi (s : str) : Z := atoi_loop s 0.

(** ** Numerals *)

(** The value of a numeral, most significant digit first. *)
Definition digit_val (c : Z) : Z :=
  if (c_0 <=? c) && (c <=? c_9) then c - 48 else if 97 <=? c then c - 87 else c - 55.
Definition value (base : Z) (s : str) : Z := foldl (fun n c => base * n + digit_val c) 0 s.

(** A digit of a base up to sixteen. *)
Definition is_digit (base c : Z) : Prop :=
  (48 <= c <= 57 \/ 65 <= c <= 70 \/ 97 <= c <= 102) /\ 0 <= digit_val c < base.

(** A numeral without leading zeros. *)
Definition numeral (base : Z) (s : str) : Prop :=
  s <> [] /\ Forall (is_digit base) s /\ (head s = Some c_0 -> s = [c_0]).

(** A table of sixteen digits. *)
Class Digits (digits : str) := {
  dg_len : length digits = 16%nat;
  dg_val : forall i d, digits !! i = Some d -> digit_val d = Z.of_nat i;
  dg_char : forall i d, digits !! i = Some d -> 48 <= d <= 57 \/ 65 <= d <= 70 \/ 97 <= d <= 102
}.

Ltac table := split; [done| |]; intros i d Hi; do 16 (destruct i as [|i]; [injection Hi as <-; first [done|by vm_compute|lia]|]); done.

#[global] Instance digits_upper_ok : Digits digits_upper.
Proof. table. Qed.
#[global] Instance digits_lower_ok : Digits digits_lower.
Proof. table. Qed.

Lemma value_app base s c : value base (s ++ [c]) = base * value base s + digit_val c.
Proof. unfold value. by rewrite foldl_app. Qed.

Lemma value_nonneg base s : 0 < base -> Forall (is_digit base) s -> 0 <= value base s.
Proof.
  intros Hb. induction s as [|c s IH] using rev_ind; [done|]. rewrite Forall_app. intros [Hs Hc]. rewrite value_app.
  inversion Hc as [|? ? [_ Hd] _]; subst. specialize (IH Hs). lia.
Qed.

(** [put_digits] puts out a numeral for [x] that takes no more places than
    [x] needs. *)
Lemma put_digits_spec digits `{!Digits digits} k room x base buf :
  2 <= base <= 16 -> 0 <= x < base ^ Z.of_nat (S k) -> (k < room)%nat ->
  exists ds, put_digits digits room x base buf = Ok (buf ++ ds) /\ numeral base (rev ds) /\ (length ds <= S k)%nat /\ value base (rev ds) = x.
Proof.
  intros Hb. revert k x buf. induction room as [|room IH]; intros k x buf Hx Hk; [lia|]. cbn [put_digits].
  assert (0 <= x mod base < base) as Hm by (apply Z.mod_pos_bound; lia).
  destruct (digits !! Z.to_nat (x mod base)) as [d|] eqn:Hd; [|apply lookup_ge_None in Hd; rewrite dg_len in Hd; lia].
  pose proof (dg_val _ _ Hd) as Hv. rewrite Z2Nat.id in Hv by lia. pose proof (dg_char _ _ Hd) as Hch.
  assert (is_digit base d) as Hid by (split; [done|lia]). pose proof (Z.div_mod x base ltac:(lia)) as Hdm.
  destruct (Z.eqb_spec (x / base) 0) as [H0|H0].
  - exists [d]. split; [done|]. split; [|split; [cbn; lia|cbn; lia]]. split; [done|]. split; [by apply Forall_singleton|].
    cbn. by intros [= ->].
  - destruct k as [|k]; [rewrite Z.pow_1_r in Hx; by rewrite Z.div_small in H0 by lia|]. rewrite Nat2Z.inj_succ, Z.pow_succ_r in Hx by lia.
    destruct (IH k (x / base) (buf ++ [d])) as (ds & -> & (Hne & Hall & Hz) & Hl & Hval).
    { split; [apply Z.div_pos; lia|apply Z.div_lt_upper_bound; lia]. }
    { lia. }
    exists (d :: ds). rewrite <- app_assoc. cbn [rev length]. split; [done|]. split; [|split; [lia|rewrite value_app, Hval, Hv; by rewrite <- Hdm]].
    split; [by destruct (rev ds)|]. split; [apply Forall_app; split; [done|by apply Forall_singleton]|].
    destruct (rev ds) as [|c r]; [done|]. cbn [app head]. intros [= ->]. specialize (Hz eq_refl). rewrite Hz in Hval.
    change (value base [c_0]) with (base * 0 + 0) in Hval. lia.
Qed.

Lemma is_digit_dec c : is_digit 10 c -> (c_0 <=? c) && (c <=? c_9) = true /\ digit_val c = c - 48.
Proof.
  unfold is_digit, digit_val, c_0, c_9. intros [Hc Hv]. destruct (Z.leb_spec 48 c), (Z.leb_spec c 57); cbn [andb] in *; try (destruct (Z.leb_spec 97 c)); try lia; done.
Qed.

Lemma foldl_value_ge s n : Forall (is_digit 10) s -> 0 <= n -> n <= foldl (fun n c => 10 * n + digit_val c) n s.
Proof.
  intros Hs. revert n. induction Hs as [|c s [_ Hc] _ IH]; intros n Hn; cbn [foldl]; [lia|]. specialize (IH (10 * n + digit_val c)). lia.
Qed.

Lemma atoi_loop_value s k n :
  Forall (is_digit 10) s -> match k with [] => True | c :: _ => c < c_0 \/ c_9 < c end ->
  0 <= n -> foldl (fun n c => 10 * n + digit_val c) n s < 2 ^ 31 ->
  atoi_loop (s ++ k) n = foldl (fun n c => 10 * n + digit_val c) n s.
Proof.
  intros Hs Hk. revert n. induction Hs as [|c s Hc Hs IH]; intros n Hn Hlt.
  - cbn. destruct k as [|c k]; [done|]. cbn. unfold c_0, c_9 in *. destruct (Z.leb_spec 48 c), (Z.leb_spec c 57); cbn; [lia|done..].
  - cbn [app atoi_loop foldl] in *. destruct (is_digit_dec c Hc) as [-> Hv]. destruct Hc as [_ Hc].
    assert (10 * n + digit_val c <= foldl (fun n c => 10 * n + digit_val c) (10 * n + digit_val c) s) as Hge by (apply foldl_value_ge; [done|lia]).
    replace (s32 (n * 10 + c - c_0)) with (10 * n + digit_val c) by (unfold c_0; rewrite s32_small; lia). apply IH; [lia|done].
Qed.

(** ** The two formatters *)

(** No directive [%c]: the one [cprintf] does not know. *)
Fixpoint no_char (fmt : str) : bool :=
  match fmt with
  | [] => true
  | c :: fmt =>
      if c =? c_percent then match fmt with [] => true | d :: fmt => negb (d =? 99) && no_char fmt end
      else no_char fmt
  end.

Lemma printf_cprintf_loop digits load fmt ap : no_char fmt = true -> printf_loop digits load fmt 0 ap = cprintf digits load fmt ap.
Proof.
  revert ap. induction fmt as [fmt IH] using (induction_ltof1 _ (@length Z)). unfold ltof in IH. intros ap Hn.
  destruct fmt as [|c fmt]; [done|]. cbn [printf_loop cprintf no_char] in *. change (0 =? 0) with true. cbv iota.
  destruct (Z.eqb_spec c c_percent) as [->|Hc]; cbn [negb].
  - destruct fmt as [|d fmt]; [done|]. apply andb_true_iff in Hn as [Hd Hn]. cbn [printf_loop]. change (c_percent =? 0) with false. cbv iota.
    rewrite (proj1 (negb_true_iff _) Hd). assert (forall ap, printf_loop digits load fmt 0 ap = cprintf digits load fmt ap) as Hrec
      by (intros; apply IH; [cbn; lia|done]).
    destruct (Z.eqb_spec d c_percent) as [->|_]; (destruct (if _ =? 100 then _ else _) as [[out ap']|]; [|done]); cbn [obind]; by rewrite Hrec.
  - rewrite IH; [done|cbn; lia|done].
Qed.

Lemma printint_spec digits `{!Digits digits} (xx base : Z) (sgn : bool) :
  base = 10 \/ base = 16 ->
  exists ds, printint digits xx base sgn = Ok ((if sgn && (s32 xx <? 0) then [c_minus] else []) ++ ds) /\
    numeral base ds /\ (length ds <= 10)%nat /\ value base ds = Z.abs (if sgn then s32 xx else u32 xx) /\
    (base = 10 -> sgn = true -> 0 <= s32 xx -> forall k, match k with [] => True | c :: _ => c < c_0 \/ c_9 < c end -> atoi (ds ++ k) = s32 xx).
Proof.
  intros Hb. unfold printint. set (neg := sgn && (s32 xx <? 0)). set (x := if neg then _ else _).
  assert (0 <= x < 2 ^ 32) as Hx by (unfold x; destruct neg; apply u32_range).
  assert (x = Z.abs (if sgn then s32 xx else u32 xx)) as Hax.
  { unfold x, neg. destruct sgn; cbn [andb]; [|unfold u32; lia]. destruct (Z.ltb_spec (s32 xx) 0); unfold u32, s32 in *; lia. }
  destruct (put_digits_spec digits 9 16 x base []) as (ds & -> & Hnum & Hl & Hv); [lia| |lia|].
  { destruct Hb as [-> | ->]; cbn; lia. }
  cbn [obind app]. exists (rev ds). rewrite (proj2 (Nat.ltb_lt _ _)) by lia. split.
  { destruct neg; [by rewrite rev_app_distr|done]. }
  split; [done|]. split; [by rewrite length_rev|]. split; [lia|]. intros -> -> Hnn k Hk. unfold atoi.
  destruct Hnum as (_ & Hall & _). rewrite atoi_loop_value; try done.
  - fold (value 10 (rev ds)). lia.
  - fold (value 10 (rev ds)). unfold s32 in *. lia.
Qed.

(** A non-negative [int] in base 10. *)
Lemma printint_nat digits `{!Digits digits} v : 0 <= v < 2 ^ 31 ->
  exists ds, printint digits (u32 v) 10 true = Ok ds /\ numeral 10 ds /\ value 10 ds = v.
Proof.
  intros Hv. assert (s32 (u32 v) = v) as Hs by (rewrite s32_u32; apply s32_small; lia).
  destruct (printint_spec digits (u32 v) 10 true ltac:(by left)) as (ds & Hp & Hn & _ & Hval & _). rewrite Hs in Hp, Hval.
  rewrite (proj2 (Z.ltb_ge _ _)) in Hp by lia. exists ds. split_and!; [exact Hp|done|lia].
Qed.

(** Numbers print as their numerals.  Whatever the value, [printint] in
    base 10 or 16 stays inside its buffer and puts out, after a minus sign
    for a negative value of a signed conversion, a numeral without leading
    zeros that denotes the magnitude of the value, the smallest [int]
    included; and [atoi] reads a printed non-negative [int] back, up to the
    first character that is not a digit. *)
Theorem printint_roundtrip digits `{!Digits digits} (xx base : Z) (sgn : bool) :
  base = 10 \/ base = 16 ->
  exists ds, printint digits xx base sgn = Ok ((if sgn && (s32 xx <? 0) then [c_minus] else []) ++ ds) /\
    numeral base ds /\ (length ds <= 10)%nat /\ value base ds = Z.abs (if sgn then s32 xx else u32 xx) /\
    (base = 10 -> sgn = true -> 0 <= s32 xx -> forall k, match k with [] => True | c :: _ => c < c_0 \/ c_9 < c end -> atoi (ds ++ k) = s32 xx).
Proof. by apply printint_spec. Qed.

Lemma printint_roundtrip_witness :
  exists ds, printint digits_upper (-2147483648) 10 true = Ok (c_minus :: ds) /\ value 10 ds = 2147483648 /\
    exists ds', printint digits_upper 42 10 true = Ok ds' /\ atoi (ds' ++ [32]) = 42.
Proof.
  destruct (printint_roundtrip digits_upper (-2147483648) 10 true (or_introl eq_refl)) as (ds & H1 & _ & _ & H2 & _).
  destruct (printint_roundtrip digits_upper 42 10 true (or_introl eq_refl)) as (ds' & H3 & _ & _ & _ & H4).
  exists ds. split; [exact H1|]. split; [exact H2|]. exists ds'. split; [exact H3|]. apply H4; try done. left. done.
Defined.

(** The two formatters agree.  [printf] of the user library, which
    reads the format one character at a time with a state variable, and the
    kernel's [cprintf], which looks ahead, put out the same text for every
    format without [%c], the one directive [cprintf] lacks, when they use
    the same table of digits: also for unknown directives, a null string and
    a format that ends in a percent sign. *)
Theorem printf_cprintf digits load fmt ap :
  no_char fmt = true -> printf digits load fmt ap = cprintf digits load fmt ap.
Proof. apply printf_cprintf_loop. Qed.

(** [a%d%%%s%z] *)
Lemma printf_cprintf_witness :
  printf digits_lower (fun _ => [104; 105]) [97; 37; 100; 37; 37; 37; 115; 37; 122] [u32 (-7); 4096] =
  cprintf digits_lower (fun _ => [104; 105]) [97; 37; 100; 37; 37; 37; 115; 37; 122] [u32 (-7); 4096] /\
  cprintf digits_lower (fun _ => [104; 105]) [97; 37; 100; 37; 37; 37; 115; 37; 122] [u32 (-7); 4096] =
  Ok [97; 45; 55; 37; 104; 105; 37; 122].
Proof. split; [apply printf_cprintf; by vm_compute|by vm_compute]. Defined.
