(* ===== verification/Exec.v ===== *)
(** * Running a program: [exec.c], [elf.h], [loaduvm]

    [exec] reads the program through the virtual file system and builds its
    address space with the operations of [vm.c].  The file system calls are
    the effects [execE]; [exec_fs] answers them by running the definitions of
    [Vfs] and [Vop].  The fields of [struct proc] that [exec] changes are an
    argument and part of the result; [switchuvm] loads registers only. *)

From stdpp Require Import base gmap strings numbers list.
From S2P Require Import Prelude Prog CString Log State Vop Vfs Kalloc Vm.

Definition ELF_MAGIC : Z := 0x464C457F.
Definition ELF_PROG_LOAD : Z := 1.
Definition MAXARG : nat := 32.

(** [struct elfhdr] and [struct proghdr]: sizes, and the fields [exec] reads *)
Definition ELFHDR_SIZE : Z := 52.
Definition PROGHDR_SIZE : Z := 32.
Record elfhdr := mkelf { e_magic : Z; e_entry : Z; e_phoff : Z; e_phnum : Z }.
Record proghdr := mkph { ph_type : Z; ph_off : Z; ph_vaddr : Z; ph_filesz : Z; ph_memsz : Z }.

Definition get_elfhdr (d : list Z) : elfhdr := mkelf (get_u32 0 d) (get_u32 24 d) (get_u32 28 d) (get_u16 44 d).
Definition get_proghdr (d : list Z) : proghdr :=
  mkph (get_u32 0 d) (get_u32 4 d) (get_u32 8 d) (get_u32 16 d) (get_u32 20 d).

(** The calls into the file system.  [vfs_lookup] may write into the path. *)
Inductive execE : Type -> Type :=
| XLookup (path : list Z) : execE (option nat * list Z)
| XLock (ip : nat) : execE unit
| XRead (ip : nat) (off n : Z) : execE (Z * list Z)
| XUnlockput (ip : nat) : execE unit.

Section ExecFs.
Context `{DevSw} `{Machine}.

Definition fs_call {X} (e : execE X) : fsprog X :=
  match e in execE X return fsprog X with
  | XLookup path => vfs_lookup path
  | XLock ip => vop_ilock ip
  | XRead ip off n => vop_read ip off n
  | XUnlockput ip => vop_iunlockput ip
  end.

#[global] Instance exec_fs {B} `{Store fsE B} : Store execE (kmem * B) := {
  st_step X e s := let? (x, k, b) := run (fs_call e) (fst s) (snd s) in Ok (x, (k, b));
  st_trace X e s := disks (fs_call e) (fst s) (snd s);
  st_disk s := st_disk (snd s);
}.
End ExecFs.

(** The part of [struct proc] that describes the user image. *)
Record uproc := mkuproc { u_pgdir : Z; u_sz : Z; u_eip : Z; u_esp : Z; u_name : list Z }.

Section Exec.
Context `{Linker}.
Abbreviation xprog := (prog execE phys).

Definition x_lookup (path : list Z) : xprog (option nat * list Z) := Vis (XLookup path) Ret.
Definition x_ilock (ip : nat) : xprog unit := Vis (XLock ip) Ret.
Definition x_read (ip : nat) (off n : Z) : xprog (Z * list Z) := Vis (XRead ip (u32 off) n) Ret.
Definition x_iunlockput (ip : nat) : xprog unit := Vis (XUnlockput ip) Ret.

(** Load a program segment into pgdir.  addr must be page-aligned and the
    pages from addr to addr+sz must already be mapped. *)
Definition loaduvm (pgdir addr : Z) (ip : nat) (offset sz : Z) : xprog Z :=
  if negb (addr mod PGSIZE =? 0) then panic "loaduvm: addr must be page aligned"
  else
    while_fuel (S (Z.to_nat (sz / PGSIZE + 1))) (fun i =>
      if negb (i <? sz) then Ret (inr 0)
      else
        pte <- walkpgdir pgdir (u32 (addr + i)) false;;
        match pte with
        | None => panic "loaduvm: address should exist"
        | Some pte =>
            e <- ld32 pte;;
            let pa := PTE_ADDR e in
            let n := if sz - i <? PGSIZE then sz - i else PGSIZE in
            let* (r, bytes) := x_read ip (offset + i) n in
            store_bytes (p2v pa) 0 bytes;;;
            if negb (u32 r =? n) then Ret (inr (-1)) else Ret (inl (u32 (i + PGSIZE)))
        end) 0.

(** The loop over the program headers: the size of the image, or [None] for
    [goto bad]. *)
Definition load_segments (pgdir : Z) (ip : nat) (elf : elfhdr) : xprog (option Z) :=
  while_fuel (S (Z.to_nat (e_phnum elf))) (fun '(i, off, sz) =>
    if negb (i <? e_phnum elf) then Ret (inr (Some sz))
    else
      let* (r, bytes) := x_read ip off PROGHDR_SIZE in
      if negb (u32 r =? PROGHDR_SIZE) then Ret (inr None)
      else
        let ph := get_proghdr bytes in
        let next sz := Ret (inl (i + 1, s32 (off + PROGHDR_SIZE), sz)) in
        if negb (ph_type ph =? ELF_PROG_LOAD) then next sz
        else if ph_memsz ph <? ph_filesz ph then Ret (inr None)
        else
          sz <- allocuvm pgdir sz (u32 (ph_vaddr ph + ph_memsz ph));;
          if sz =? 0 then Ret (inr None)
          else
            r <- loaduvm pgdir (ph_vaddr ph) ip (ph_off ph) (ph_filesz ph);;
            if r <? 0 then Ret (inr None) else next sz) (0, s32 (e_phoff elf), 0).

(** Push argument strings: the stack pointer and the pointers to them. *)
Definition push_args (pgdir : Z) (argv : list (list Z)) (sp : Z) : xprog (option (Z * list Z)) :=
  while_fuel (S (length argv)) (fun '(argc, argv, sp, ptrs) =>
    match argv with
    | [] => Ret (inr (Some (sp, ptrs)))
    | s :: argv =>
        if (MAXARG <=? argc)%nat then Ret (inr None)
        else
          let sp := Z.land (u32 (sp - (Z.of_nat (length s) + 1))) (Z.lnot 3) in
          r <- copyout pgdir sp (s ++ [0]);;
          if r <? 0 then Ret (inr None) else Ret (inl (S argc, argv, sp, ptrs ++ [sp]))
    end) (0%nat, argv, sp, []).

(** [ustack[0 .. 3+argc]] as bytes *)
Definition ustack (sp : Z) (ptrs : list Z) : list Z :=
  let argc := Z.of_nat (length ptrs) in
  mjoin (le_enc 4 <$> [0xffffffff; argc; u32 (sp - (argc + 1) * 4)] ++ ptrs ++ [0]).

(** [for(last=s=path; *s; s++) if( *s == '/') last = s+1;] *)
Fixpoint last_name (last s : list Z) : outcome (list Z) :=
  match s with
  | [] => oob
  | c :: s' => if c =? 0 then Ok last else last_name (if c =? 47 then s' else last) s'
  end.

(** Set up the user stack; [None] for [goto bad]. *)
Definition make_stack (pgdir sz : Z) (argv : list (list Z)) : xprog (option (Z * Z)) :=
  (* Allocate two pages at the next page boundary.  Make the first
     inaccessible.  Use the second as the user stack. *)
  let sz := PGROUNDUP sz in
  sz <- allocuvm pgdir sz (u32 (sz + 2 * PGSIZE));;
  if sz =? 0 then Ret None
  else
    clearpteu pgdir (u32 (sz - 2 * PGSIZE));;;
    x <- push_args pgdir argv sz;;
    match x with
    | None => Ret None
    | Some (sp, ptrs) =>
        let argc := Z.of_nat (length ptrs) in
        let us := ustack sp ptrs in
        let sp := u32 (sp - (3 + argc + 1) * 4) in
        r <- copyout pgdir sp us;;
        if r <? 0 then Ret None else Ret (Some (sz, sp))
    end.

Definition bad (pgdir : Z) (ip : option nat) (p : uproc) : xprog (Z * uproc) :=
  (if negb (pgdir =? 0) then freevm pgdir else Ret tt);;;
  match ip with Some ip => x_iunlockput ip | None => Ret tt end;;;
  Ret (-1, p).

(** From the ELF header on: load the program and commit to it. *)
Definition exec_image (path : list Z) (ip : nat) (elf : elfhdr) (argv : list (list Z)) (p : uproc) : xprog (Z * uproc) :=
  pgdir <- setupkvm;;
  if pgdir =? 0 then bad 0 (Some ip) p
  else
    (* Load program into memory. *)
    sz <- load_segments pgdir ip elf;;
    match sz with
    | None => bad pgdir (Some ip) p
    | Some sz =>
        x_iunlockput ip;;;
        stk <- make_stack pgdir sz argv;;
        match stk with
        | None => bad pgdir None p
        | Some (sz, sp) =>
            (* Save program name for debugging. *)
            last <- lift (last_name path path);;
            name <- lift (safestrcpy (u_name p) last 16);;
            (* Commit to the user image. *)
            let oldpgdir := u_pgdir p in
            let p := mkuproc pgdir sz (e_entry elf) sp name in
            freevm oldpgdir;;;
            Ret (0, p)
        end
    end.

(** [path] ends in a NUL; the strings of [argv] are without theirs. *)
Definition exec (path : list Z) (argv : list (list Z)) (p : uproc) : xprog (Z * uproc) :=
  let* (ip, path) := x_lookup path in
  match ip with
  | None => Ret (-1, p)
  | Some ip =>
      x_ilock ip;;;
      (* Check ELF header: the [int] result is compared as unsigned *)
      let* (r, bytes) := x_read ip 0 ELFHDR_SIZE in
      if u32 r <? ELFHDR_SIZE then bad 0 (Some ip) p
      else if (length bytes <? Z.to_nat ELFHDR_SIZE)%nat then undef "elf is not set"
      else
        let elf := get_elfhdr bytes in
        if negb (e_magic elf =? ELF_MAGIC) then bad 0 (Some ip) p
        else exec_image path ip elf argv p
  end.
End Exec.
