(* ===== verification/ExecSpec.v ===== *)
(** * What [exec] does

    The interface [exec] needs of the file system is [file_laws]: a path names
    a file with certain bytes, which can be locked, read and released.  Against
    it, and the facts about address spaces of [VmUser] and [VmCopy], [exec]
    either installs the image the file describes or leaves everything as it
    was. *)

From stdpp Require Import base gmap strings numbers list.
From S2P Require Import Prelude Prog CString State Kalloc Vm VmSpec VmUser VmCopy Exec.

(** What a read of [n] bytes at [off] returns and stores. *)
Definition read_result (data : list Z) (off n : Z) : Z * list Z :=
  if (Z.of_nat (length data) <? off) || (2 ^ 32 <=? off + n) then (-1, [])
  else let bytes := slice (Z.to_nat off) (Z.to_nat n) data in (Z.of_nat (length bytes), bytes).

(** The file at [path]: states in which it can be opened, in which the caller
    has it locked, and in which it has been put back.  [ExecFile] shows that
    the files of sfs obey these laws. *)
Record file_laws {B} `{Store execE B} (path path' : list Z) (ip : nat) (data : list Z) (before held closed : B -> Prop) : Prop := {
  fl_open : forall b, before b -> exists b1 b2,
    st_step (XLookup path) b = Ok ((Some ip, path'), b1) /\ st_step (XLock ip) b1 = Ok (tt, b2) /\ held b2;
  fl_read : forall b off n, held b -> 0 <= off < 2 ^ 32 -> 0 <= n <= 4096 ->
    exists b', st_step (XRead ip off n) b = Ok (read_result data off n, b') /\ held b';
  fl_close : forall b, held b -> exists b', st_step (XUnlockput ip) b = Ok (tt, b') /\ closed b';
  fl_size : Z.of_nat (length data) < 2 ^ 31;
  fl_bytes : Forall is_byte data;
}.

(** Memory [mem] with [bytes] at address [a]. *)
Definition overlay (a : Z) (bytes : list Z) (mem : Z -> Z) : Z -> Z := fun x =>
  if decide (a <= x < a + Z.of_nat (length bytes)) then nth (Z.to_nat (x - a)) bytes 0 else mem x.

(** Whether the file has the bytes of a segment. *)
Definition covers (data : list Z) (off n : Z) : bool := (n =? 0) || (off + n <=? Z.of_nat (length data)).

(** The program header at [off]. *)
Definition hdr_at (data : list Z) (off : Z) : option proghdr :=
  let '(r, bytes) := read_result data (u32 off) PROGHDR_SIZE in
  if u32 r =? PROGHDR_SIZE then Some (get_proghdr bytes) else None.

(** What the program headers of a file describe: an image; nothing that can
    be run; or a segment that does not start at a page boundary, which
    [loaduvm] cannot load. *)
Inductive planned (A : Type) := Image (x : A) | Refused | Unaligned.
Arguments Image {A}.
Arguments Refused {A}.
Arguments Unaligned {A}.

(** What [n] program headers from [off] on describe, on top of an image of
    [sz] bytes with contents [mem]. *)
Fixpoint plan (data : list Z) (n : nat) (off sz : Z) (mem : Z -> Z) : planned (Z * (Z -> Z)) :=
  match n with
  | O => Image (sz, mem)
  | S n =>
      match hdr_at data off with
      | None => Refused
      | Some ph =>
          let off := s32 (off + PROGHDR_SIZE) in
          if negb (ph_type ph =? ELF_PROG_LOAD) then plan data n off sz mem
          else if ph_memsz ph <? ph_filesz ph then Refused
          else
            let sz := Z.max sz (ph_vaddr ph + ph_memsz ph) in
            if sz =? 0 then Refused
            else if negb (ph_vaddr ph mod 4096 =? 0) then Unaligned
            else if negb (covers data (ph_off ph) (ph_filesz ph)) then Refused
            else plan data n off sz (overlay (ph_vaddr ph) (slice (Z.to_nat (ph_off ph)) (Z.to_nat (ph_filesz ph)) data) mem)
      end
  end.

(** The segments end below [top]. *)
Fixpoint sane (data : list Z) (top : Z) (n : nat) (off : Z) : bool :=
  match n with
  | O => true
  | S n =>
      match hdr_at data off with
      | None => true
      | Some ph =>
          (negb (ph_type ph =? ELF_PROG_LOAD) || (ph_memsz ph <? ph_filesz ph) || (ph_vaddr ph + ph_memsz ph <=? top)) &&
          sane data top n (s32 (off + PROGHDR_SIZE))
      end
  end.

(** ** The user stack as [exec] lays it out *)

(** Where a string goes below [sp]. *)
Definition arg_sp (sp : Z) (s : list Z) : Z := (sp - (Z.of_nat (length s) + 1)) / 4 * 4.

Fixpoint arg_ptrs (sp : Z) (argv : list (list Z)) : list Z :=
  match argv with
  | [] => []
  | s :: argv => arg_sp sp s :: arg_ptrs (arg_sp sp s) argv
  end.

Definition args_sp (sp : Z) (argv : list (list Z)) : Z := foldl arg_sp sp argv.

Fixpoint args_mem (sp : Z) (argv : list (list Z)) (mem : Z -> Z) : Z -> Z :=
  match argv with
  | [] => mem
  | s :: argv => args_mem (arg_sp sp s) argv (overlay (arg_sp sp s) (s ++ [0]) mem)
  end.

(** The stack pointer [main] starts with, in a stack page that ends at [hi];
    whether everything fits in the page; and the contents of memory. *)
Definition start_sp (hi : Z) (argv : list (list Z)) : Z := args_sp hi argv - 4 * (Z.of_nat (length argv) + 4).
Definition args_fit (hi : Z) (argv : list (list Z)) : bool := (length argv <=? MAXARG)%nat && (hi - 4096 <=? start_sp hi argv).
Definition start_mem (hi : Z) (argv : list (list Z)) (mem : Z -> Z) : Z -> Z :=
  overlay (start_sp hi argv) (ustack (args_sp hi argv) (arg_ptrs hi argv)) (args_mem hi argv mem).

(** [bytes] are at address [a]. *)
Definition at_addr (mem : Z -> Z) (a : Z) (bytes : list Z) : Prop :=
  forall j : nat, (j < length bytes)%nat -> mem (a + Z.of_nat j) = nth j bytes 0.

Lemma arg_sp_le sp s : arg_sp sp s + Z.of_nat (length s) + 1 <= sp.
Proof. unfold arg_sp. lia. Qed.

Lemma args_sp_le sp argv : args_sp sp argv <= sp.
Proof.
  revert sp. induction argv as [|s argv IH]; intros sp; cbn; [lia|]. specialize (IH (arg_sp sp s)). pose proof (arg_sp_le sp s).
  unfold args_sp in IH. lia.
Qed.

Lemma length_arg_ptrs sp argv : length (arg_ptrs sp argv) = length argv.
Proof. revert sp. induction argv as [|s argv IH]; intros sp; cbn; [done|]. by rewrite IH. Qed.

Lemma overlay_at a bytes mem : at_addr (overlay a bytes mem) a bytes.
Proof. intros j Hj. unfold overlay. rewrite decide_True by lia. f_equal. lia. Qed.

Lemma overlay_out a bytes mem x : ~ (a <= x < a + Z.of_nat (length bytes)) -> overlay a bytes mem x = mem x.
Proof. intros Hx. unfold overlay. by rewrite decide_False. Qed.

(** Strings pushed later lie below. *)
Lemma args_mem_above sp argv mem x : sp <= x -> args_mem sp argv mem x = mem x.
Proof.
  revert sp mem. induction argv as [|s argv IH]; intros sp mem Hx; cbn; [done|]. pose proof (arg_sp_le sp s).
  rewrite IH by lia. apply overlay_out. rewrite length_app. cbn. lia.
Qed.

Lemma args_mem_below sp argv mem x : x < args_sp sp argv -> args_mem sp argv mem x = mem x.
Proof.
  revert sp mem. induction argv as [|s argv IH]; intros sp mem Hx; cbn in *; [done|]. rewrite IH by done. apply overlay_out.
  pose proof (args_sp_le (arg_sp sp s) argv). unfold args_sp in *. lia.
Qed.

Lemma args_mem_at sp argv mem i s p :
  argv !! i = Some s -> arg_ptrs sp argv !! i = Some p ->
  at_addr (args_mem sp argv mem) p (s ++ [0]) /\ args_sp sp argv <= p /\ p + Z.of_nat (length s) + 1 <= sp.
Proof.
  revert sp mem i. induction argv as [|s' argv IH]; intros sp mem [|i]; cbn; try done.
  - intros [= ->] [= <-]. split; [|split; [apply args_sp_le|apply arg_sp_le]].
    intros j Hj. rewrite args_mem_above by lia. by apply overlay_at.
  - intros Hs Hp. destruct (IH (arg_sp sp s') (overlay (arg_sp sp s') (s' ++ [0]) mem) i Hs Hp) as (H1 & H2 & H3). split_and!; [done|done|].
    pose proof (arg_sp_le sp s'). lia.
Qed.

Lemma length_ustack sp ptrs : length (ustack sp ptrs) = (4 * (length ptrs + 4))%nat.
Proof.
  unfold ustack. assert (forall l : list Z, length (mjoin (le_enc 4 <$> l)) = (4 * length l)%nat) as Hlen.
  { intros l. induction l as [|x l IH]; [done|]. change (mjoin (le_enc 4 <$> x :: l)) with (le_enc 4 x ++ mjoin (le_enc 4 <$> l)).
    rewrite length_app, IH, length_le_enc. cbn [length]. lia. }
  rewrite Hlen, !length_app. cbn [length]. lia.
Qed.

Lemma start_mem_args hi argv mem i s p :
  argv !! i = Some s -> arg_ptrs hi argv !! i = Some p -> at_addr (start_mem hi argv mem) p (s ++ [0]).
Proof.
  intros Hs Hp. destruct (args_mem_at hi argv mem i s p Hs Hp) as (Ha & Hle & _). intros j Hj. unfold start_mem.
  rewrite overlay_out; [by apply Ha|]. rewrite length_ustack, length_arg_ptrs. unfold start_sp. lia.
Qed.

Lemma start_mem_image hi argv mem x : x < start_sp hi argv -> start_mem hi argv mem x = mem x.
Proof.
  intros Hx. unfold start_mem. rewrite overlay_out by lia. apply args_mem_below. unfold start_sp in Hx. lia.
Qed.

(** ** Programs *)

Definition elf_of (data : list Z) : elfhdr := get_elfhdr (slice 0 52 data).

(** The entry point, the size and the contents of the image a file describes,
    if [exec] does not refuse the file. *)
Definition program (data : list Z) : planned (Z * Z * (Z -> Z)) :=
  if (length data <? 52)%nat || negb (e_magic (elf_of data) =? ELF_MAGIC) then Refused
  else
    match plan data (Z.to_nat (e_phnum (elf_of data))) (s32 (e_phoff (elf_of data))) 0 (fun _ => 0) with
    | Image (sz, mem) => Image (e_entry (elf_of data), sz, mem)
    | Refused => Refused
    | Unaligned => Unaligned
    end.

Definition program_sane (data : list Z) (top : Z) : bool :=
  sane data top (Z.to_nat (e_phnum (elf_of data))) (s32 (e_phoff (elf_of data))).

Section ExecFacts.
Context `{LinkerOk}.
Context {B : Type} `{HS : Store execE B}.
Implicit Types (m : phys) (d f n : Z) (tabs : gmap Z Z) (l : list Z) (us : list upage) (b : B).

(** ** [clearpteu] *)

Lemma clear_user f : f mod 4096 = 0 -> Z.land (f + 7) (Z.lnot PTE_U) = f + 3.
Proof.
  intros Hf. change (Z.land (f + 7) (Z.lnot PTE_U)) with (Z.ldiff (f + 7) 4). rewrite <- Z.sub_nocarry_ldiff; [lia|].
  apply Z.bits_inj'. intros i Hi. rewrite Z.ldiff_spec, Z.bits_0. change 4 with (2 ^ 2). rewrite Z.pow2_bits_eqb by lia.
  destruct (Z.eqb_spec 2 i) as [<-|]; [|done]. pose proof (land_high f 7 4 Hf ltac:(lia) ltac:(lia)) as Hl.
  apply (f_equal (fun x => Z.testbit x 2)) in Hl. rewrite Z.land_spec in Hl. change (Z.testbit 4 2) with true in Hl.
  rewrite andb_true_r in Hl. by rewrite Hl.
Qed.

(** A page that was the user's becomes a guard page. *)
Lemma run_clearpteu m d tabs us l (n : nat) f b : as_ok m d tabs us l -> us !! n = Some (f, 7) ->
  exists m', run (E := execE) (clearpteu (d + KERNBASE) (4096 * Z.of_nat n)) m b = Ok (tt, m', b) /\
    as_ok m' d tabs (<[n := (f, 3)]> us) l /\ forall g, g ∉ tabs_of tabs -> page_of m' g = page_of m g.
Proof.
  intros Ha Hu. pose proof (as_vm _ _ _ _ _ Ha) as Hv. pose proof (lookup_lt_Some _ _ _ Hu) as Hlt. pose proof (as_len _ _ _ _ _ Ha) as Hlen.
  pose proof (Forall_lookup_1 _ _ _ _ (as_pages _ _ _ _ _ Ha) Hu) as (Hk & _ & _). cbn [fst] in Hk.
  assert (view m tabs (Z.of_nat n) = f + 7) as Hview.
  { rewrite (as_user _ _ _ _ _ Ha) by lia. unfold uentry. by rewrite Nat2Z.id, Hu. }
  pose proof Hview as Hw. unfold view in Hw. destruct (kpage_frame _ Hk) as [Haf Hrf].
  destruct (tabs !! (Z.of_nat n / 1024)) as [t|] eqn:Et; [|lia].
  pose proof (kpage_frame _ (tab_kpage _ _ _ _ _ _ Hv Et)) as Hfr.
  destruct (vm_set_entry m d tabs l (Z.of_nat n) t (f + 3) Hv ltac:(lia) Et) as [Hv' Hview'].
  exists (set_word t (Z.of_nat n mod 1024) (f + 3) m). split_and!.
  - unfold clearpteu. rewrite run_bind, (run_walk_hit m d tabs l (Z.of_nat n) t) by (done || lia).
    rewrite run_bind, run_ld32 by (done || lia). rewrite Hw, clear_user by done. by rewrite run_st32 by (done || lia).
  - destruct Ha as [A1 A2 A3 A4 A5 A6]. split.
    + exact Hv'.
    + intros k Hk'. rewrite Hview' by lia. case_decide as Hd.
      * subst k. unfold uentry. rewrite Nat2Z.id, list_lookup_insert_eq by done. cbn. apply u32_small. unfold PHYSTOP in *. lia.
      * rewrite A2 by done. unfold uentry. rewrite list_lookup_insert_ne by lia. done.
    + intros k Hk'. rewrite Hview' by lia. rewrite decide_False by lia. by apply A3.
    + apply Forall_insert; [done|]. split; [done|]. split; [cbn; lia|done].
    + rewrite list_fmap_insert. cbn [fst]. rewrite list_insert_id; [done|]. by rewrite list_lookup_fmap, Hu.
    + by rewrite length_insert.
  - intros g Hg. unfold set_word. rewrite page_set, decide_False; [done|]. intros ->. apply Hg, elem_of_tabs. eauto.
Qed.

(** ** [loaduvm] *)

Context (path path' : list Z) (ip : nat) (data : list Z) (before held closed : B -> Prop).
Hypothesis laws : file_laws path path' ip data before held closed.

Lemma run_x_read b off n m : held b -> 0 <= n <= 4096 ->
  exists b', run (x_read ip off n) m b = Ok (read_result data (u32 off) n, m, b') /\ held b'.
Proof.
  intros Hb Hn. destruct (fl_read _ _ _ _ _ _ _ laws b (u32 off) n Hb ltac:(pose proof (u32_range off); lia) Hn) as (b' & Hs & Hb').
  exists b'. split; [|done]. cbn. by rewrite Hs.
Qed.

Lemma read_length off n r bytes : 0 <= n -> read_result data off n = (r, bytes) -> Z.of_nat (length bytes) <= n.
Proof.
  intros Hn. unfold read_result. destruct (_ || _); intros [= <- <-]; [cbn; lia|]. unfold slice. rewrite length_take. lia.
Qed.

Definition load_body (d addr offset sz : Z) : Z -> prog execE phys (Z + Z) := fun i =>
  if negb (i <? sz) then Ret (inr 0)
  else
    pte <- walkpgdir (d + KERNBASE) (u32 (addr + i)) false;;
    match pte with
    | None => panic "loaduvm: address should exist"
    | Some pte =>
        e <- ld32 pte;;
        let pa := PTE_ADDR e in
        let n := if sz - i <? PGSIZE then sz - i else PGSIZE in
        let* (r, bytes) := x_read ip (offset + i) n in
        store_bytes (p2v pa) 0 bytes;;;
        if negb (u32 r =? n) then Ret (inr (-1)) else Ret (inl (u32 (i + PGSIZE)))
    end.

(** One page of a segment. *)
Lemma load_step m d tabs us l v offset sz (k : nat) b :
  as_ok m d tabs us l -> held b -> 0 <= v -> 4096 * v + sz <= 4096 * Z.of_nat (length us) -> 4096 * Z.of_nat k < sz ->
  let n := Z.min 4096 (sz - 4096 * Z.of_nat k) in
  let r := read_result data (u32 (offset + 4096 * Z.of_nat k)) n in
  exists m' b', run (load_body d (4096 * v) offset sz (4096 * Z.of_nat k)) m b =
      Ok (if u32 r.1 =? n then inl (4096 * Z.of_nat (S k)) else inr (-1), m', b') /\ held b' /\ as_ok m' d tabs us l /\
    (forall x, 0 <= x -> ubyte m' us x = overlay (4096 * v + 4096 * Z.of_nat k) r.2 (ubyte m us) x) /\
    forall g, g ∉ us.*1 -> page_of m' g = page_of m g.
Proof.
  intros Ha Hb Hv Hsz Hk n r. pose proof (as_len _ _ _ _ _ Ha) as Hlen.
  set (j := Z.to_nat (v + Z.of_nat k)). assert (j < length us)%nat as Hj by lia. apply lookup_lt_is_Some in Hj as [u Hu].
  destruct (as_walk (E := execE) m d tabs us l j u false b Ha Hu) as (t & Ht & Hw & Hl). unfold load_body.
  rewrite (proj2 (Z.ltb_lt _ _)) by lia. cbn [negb]. rewrite u32_small by lia.
  replace (4096 * v + 4096 * Z.of_nat k) with (4096 * Z.of_nat j) by lia. rewrite run_bind, Hw, run_bind, Hl.
  pose proof (Forall_lookup_1 _ _ _ _ (as_pages _ _ _ _ _ Ha) Hu) as (Hkp & Hfl & _). pose proof (kpage_frame _ Hkp) as Hfr.
  pose proof Hfr as [Hau Hru]. rewrite PTE_ADDR_eq by (unfold PHYSTOP in *; lia). cbv zeta.
  assert ((if sz - 4096 * Z.of_nat k <? PGSIZE then sz - 4096 * Z.of_nat k else PGSIZE) = n) as ->
    by (unfold n, PGSIZE; destruct (Z.ltb_spec (sz - 4096 * Z.of_nat k) 4096); lia).
  destruct (run_x_read b (offset + 4096 * Z.of_nat k) n m Hb ltac:(lia)) as (b' & Hr & Hb'). fold r in Hr.
  rewrite run_bind, Hr. destruct r as [rv bytes] eqn:Er. unfold r in Er. apply read_length in Er as Hbl; [|lia]. cbn [fst snd].
  rewrite frame_p2v by done. rewrite run_bind, run_store_bytes by done. change (Z.to_nat 0) with 0%nat.
  exists (set_page u.1 (splice 0 bytes (page_of m u.1)) m), b'. split_and!.
  - destruct (u32 rv =? n); cbn [negb run]; [|done]. rewrite u32_small by (unfold PGSIZE; lia). by replace (4096 * Z.of_nat k + PGSIZE) with (4096 * Z.of_nat (S k)) by (unfold PGSIZE; lia).
  - done.
  - apply as_store; [done|by eapply list_elem_of_lookup_2|]. rewrite length_splice; rewrite (as_length _ _ _ _ _ _ Ha); lia.
  - intros x Hx. change 0%nat with (Z.to_nat 0). rewrite (ubyte_store m d tabs us l (Z.of_nat j) u) by (done || rewrite ?Nat2Z.id; done || lia).
    unfold overlay. by rewrite Z.add_0_r.
  - intros g Hg. rewrite page_set, decide_False; [done|]. intros ->. apply Hg, list_elem_of_fmap. exists u.
    split; [done|by eapply list_elem_of_lookup_2].
Qed.

Lemma read_full off n : 0 <= off -> 0 <= n -> off + n <= Z.of_nat (length data) ->
  read_result data off n = (n, slice (Z.to_nat off) (Z.to_nat n) data).
Proof.
  intros Ho Hn Hl. pose proof (fl_size _ _ _ _ _ _ _ laws) as Hsz. unfold read_result.
  rewrite (proj2 (Z.ltb_ge _ _)), (proj2 (Z.leb_gt _ _)) by lia. cbn [orb]. rewrite length_slice by lia. by rewrite Z2Nat.id.
Qed.

Lemma read_short off n : 0 <= off -> 0 <= n <= 4096 -> Z.of_nat (length data) < off + n -> (u32 (read_result data off n).1 =? n) = false.
Proof.
  intros Ho Hn Hl. apply Z.eqb_neq. unfold read_result. destruct (_ || _) eqn:Hc; cbn [fst].
  - change (u32 (-1)) with 4294967295. lia.
  - apply orb_false_iff in Hc as [Hc%Z.ltb_ge _]. unfold slice. rewrite length_take, length_drop. rewrite u32_small by lia. lia.
Qed.

Lemma overlay_nil a mem x : overlay a [] mem x = mem x.
Proof. unfold overlay. rewrite decide_False by (cbn; lia). done. Qed.

Lemma overlay_app a s1 s2 mem x :
  overlay (a + Z.of_nat (length s1)) s2 (overlay a s1 mem) x = overlay a (s1 ++ s2) mem x.
Proof.
  unfold overlay. rewrite length_app. repeat case_decide; try lia; try done.
  - rewrite app_nth2 by lia. f_equal. lia.
  - by rewrite app_nth1 by lia.
Qed.

Lemma overlay_ext a s mem mem' x : mem x = mem' x -> overlay a s mem x = overlay a s mem' x.
Proof. unfold overlay. by case_decide. Qed.

Lemma load_loop N : forall fuel m d tabs us l v offset sz (k : nat) b,
  (Z.to_nat (npages sz) - k <= N)%nat -> (N < fuel)%nat -> as_ok m d tabs us l -> held b -> 0 <= v -> 0 <= sz ->
  4096 * v + sz <= 4096 * Z.of_nat (length us) -> 0 <= offset -> offset + 4096 * Z.of_nat k < 2 ^ 32 ->
  exists r m' b', run (while_fuel fuel (load_body d (4096 * v) offset sz) (4096 * Z.of_nat k)) m b = Ok (r, m', b') /\
    held b' /\ as_ok m' d tabs us l /\ (forall g, g ∉ us.*1 -> page_of m' g = page_of m g) /\
    if decide (sz <= 4096 * Z.of_nat k \/ offset + sz <= Z.of_nat (length data)) then
      r = 0 /\ forall x, 0 <= x -> ubyte m' us x =
        overlay (4096 * v + 4096 * Z.of_nat k)
          (slice (Z.to_nat (offset + 4096 * Z.of_nat k)) (Z.to_nat (sz - 4096 * Z.of_nat k)) data) (ubyte m us) x
    else r = -1.
Proof.
  induction N as [|N IH]; intros [|fuel] m d tabs us l v offset sz k b HN Hf Ha Hb Hv Hs Hsz Ho Hk; try lia;
    (destruct (decide (sz <= 4096 * Z.of_nat k)) as [Hend|Hmore];
      [exists 0, m, b; cbn [while_fuel]; rewrite run_bind; unfold load_body at 1; rewrite (proj2 (Z.ltb_ge _ _)) by lia; cbn [negb run];
       rewrite decide_True by (by left); split_and!; try done; intros x Hx; replace (Z.to_nat (sz - 4096 * Z.of_nat k)) with 0%nat by lia;
       unfold slice; cbn [take]; by rewrite overlay_nil|]).
  { unfold npages in HN. lia. }
  cbn [while_fuel]. rewrite run_bind.
  destruct (load_step m d tabs us l v offset sz k b Ha Hb Hv Hsz ltac:(lia)) as (m1 & b1 & -> & Hb1 & Ha1 & Hu1 & Hk1).
  rewrite (u32_small (offset + 4096 * Z.of_nat k)) in * by lia. set (n := Z.min 4096 (sz - 4096 * Z.of_nat k)) in *.
  destruct (decide (offset + 4096 * Z.of_nat k + n <= Z.of_nat (length data))) as [Hfull|Hshort].
  - rewrite read_full in * by lia. cbn [fst snd] in *. rewrite (u32_small n) by lia. rewrite Z.eqb_refl.
    pose proof (fl_size _ _ _ _ _ _ _ laws) as Hsize.
    destruct (IH fuel m1 d tabs us l v offset sz (S k) b1) as (r & m' & b' & Hr & Hb' & Ha' & Hk' & Hres); try done; try lia.
    exists r, m', b'. split_and!; try done.
    { intros g Hg. by rewrite Hk', Hk1. }
    destruct (decide (offset + sz <= Z.of_nat (length data))) as [Hc|Hc].
    + rewrite decide_True in Hres by (by right). rewrite decide_True by (by right). destruct Hres as [-> Hres]. split; [done|]. intros x Hx.
      rewrite Hres by done. rewrite (overlay_ext _ _ _ _ _ (Hu1 x Hx)).
      destruct (decide (n = 4096)) as [Hn|Hn].
      * replace (4096 * v + 4096 * Z.of_nat (S k)) with (4096 * v + 4096 * Z.of_nat k +
          Z.of_nat (length (slice (Z.to_nat (offset + 4096 * Z.of_nat k)) (Z.to_nat n) data))) by (rewrite length_slice; lia).
        rewrite overlay_app. f_equal.
        replace (Z.to_nat (sz - 4096 * Z.of_nat k)) with (Z.to_nat n + Z.to_nat (sz - 4096 * Z.of_nat (S k)))%nat by lia.
        rewrite slice_add. do 2 f_equal. lia.
      * replace (Z.to_nat (sz - 4096 * Z.of_nat (S k))) with 0%nat by lia. unfold slice at 1. cbn [take]. rewrite overlay_nil.
        do 2 f_equal. lia.
    + rewrite decide_False by lia. destruct (decide (sz <= 4096 * Z.of_nat (S k))); [lia|]. rewrite decide_False in Hres by lia. done.
  - rewrite read_short by lia. exists (-1), m1, b1. rewrite decide_False by lia. by split_and!.
Qed.

Lemma run_loaduvm m d tabs us l vaddr off filesz b :
  as_ok m d tabs us l -> held b -> 0 <= vaddr -> vaddr mod 4096 = 0 -> 0 <= filesz ->
  vaddr + filesz <= 4096 * Z.of_nat (length us) -> 0 <= off < 2 ^ 32 ->
  exists r m' b', run (loaduvm (d + KERNBASE) vaddr ip off filesz) m b = Ok (r, m', b') /\
    held b' /\ as_ok m' d tabs us l /\ (forall g, g ∉ us.*1 -> page_of m' g = page_of m g) /\
    if covers data off filesz then
      r = 0 /\ forall x, 0 <= x -> ubyte m' us x = overlay vaddr (slice (Z.to_nat off) (Z.to_nat filesz) data) (ubyte m us) x
    else r = -1.
Proof.
  intros Ha Hb Hv Hal Hs Hsz Ho. unfold loaduvm. unfold PGSIZE at 1. rewrite Hal. cbn [negb Z.eqb].
  pose proof (load_loop (Z.to_nat (filesz / PGSIZE + 1)) (S (Z.to_nat (filesz / PGSIZE + 1))) m d tabs us l (vaddr / 4096) off filesz 0 b) as Hl.
  replace (4096 * (vaddr / 4096)) with vaddr in Hl by lia.
  destruct Hl as (r & m' & b' & Hr & Hb' & Ha' & Hk & Hres); try done; try lia; [unfold npages, PGSIZE; lia|].
  exists r, m', b'. split_and!; try done. unfold covers.
  destruct (Z.eqb_spec filesz 0) as [->|Hne]; cbn [orb]; [rewrite decide_True in Hres by lia|].
  - rewrite !Z.add_0_r in Hres. rewrite Z.sub_0_r in Hres. done.
  - destruct (Z.leb_spec (off + filesz) (Z.of_nat (length data))).
    + rewrite decide_True in Hres by lia. rewrite !Z.add_0_r in Hres. rewrite Z.sub_0_r in Hres. done.
    + by rewrite decide_False in Hres by lia.
Qed.

(** ** The image under construction *)

(** An address space made of pages of [L]; pages outside of [L] are as in
    [m0]. *)
Record part (m0 : phys) (L : list Z) m d tabs us l : Prop := {
  pa_as : as_ok m d tabs us l;
  pa_perm : as_all d tabs us ++ l ≡ₚ L;
  pa_keep : forall g, g ∉ L -> page_of m g = page_of m0 g;
}.

(** It holds an image of [sz] bytes, [mem]. *)
Record img (m0 : phys) (L : list Z) m d tabs us l (sz : Z) (mem : Z -> Z) : Prop := {
  im_part : part m0 L m d tabs us l;
  im_size : npages sz = Z.of_nat (length us);
  im_sz : 0 <= sz;
  im_rw : exists zs, us = rw_pages zs;
  im_mem : forall x, 0 <= x < 4096 * Z.of_nat (length us) -> ubyte m us x = mem x;
  im_zero : forall x, 4096 * npages sz <= x -> mem x = 0;
}.

Lemma rw_app zs zs' : rw_pages zs ++ rw_pages zs' = rw_pages (zs ++ zs').
Proof. unfold rw_pages. by rewrite map_app. Qed.

Lemma rw_fst zs : (rw_pages zs).*1 = zs.
Proof. unfold rw_pages. rewrite <- list_fmap_compose. cbn. by rewrite list_fmap_id. Qed.

Lemma npages_mono x y : x <= y -> npages x <= npages y.
Proof. unfold npages. lia. Qed.

Lemma part_count m0 L m d tabs us l : part m0 L m d tabs us l -> (1 + size tabs + length us + length l = length L)%nat.
Proof.
  intros [_ Hp _]. rewrite <- Hp. unfold as_all. cbn [app length]. rewrite !length_app, length_fmap, length_tabs. lia.
Qed.

Lemma img_alloc m0 L m d tabs us l sz mem new b :
  img m0 L m d tabs us l sz mem -> 0 <= new < KERNBASE -> (1026 + Z.to_nat (npages new) <= length L)%nat ->
  exists m' tabs' us' l', run (E := execE) (allocuvm (d + KERNBASE) sz new) m b = Ok (Z.max sz new, m', b) /\
    img m0 L m' d tabs' us' l' (Z.max sz new) mem.
Proof.
  intros Hi Hn HL. pose proof Hi as [Hp Hs Hpos (zs0 & Hzs0) Hm Hz]. destruct (decide (new < sz)) as [Hlt|Hge].
  { exists m, tabs, us, l. unfold allocuvm. rewrite (proj2 (Z.leb_gt _ _)), (proj2 (Z.ltb_lt _ _)) by lia.
    rewrite Z.max_l by lia. done. }
  pose proof (part_count _ _ _ _ _ _ _ Hp) as Hc. destruct Hp as [Ha Hperm Hkeep].
  pose proof (npages_mono sz new ltac:(lia)) as Hnp.
  destruct (allocuvm_bytes m d tabs us l sz new b Ha Hs ltac:(lia) ltac:(lia) ltac:(lia))
    as (zs & m' & tabs' & l' & Hr & Ha' & Hlen & Hp' & Hb & Hk).
  exists m', tabs', (us ++ rw_pages zs), l'. rewrite Z.max_r by lia. split; [done|]. split.
  - split; [done| |].
    + rewrite <- Hperm, !as_all_app, fmap_app, rw_fst. constructor. rewrite <- !app_assoc.
      rewrite (app_assoc (tabs_of tabs')), (Permutation_app_comm (tabs_of tabs') us.*1), <- app_assoc.
      rewrite (app_assoc (tabs_of tabs)), (Permutation_app_comm (tabs_of tabs) us.*1), <- app_assoc. f_equiv.
      rewrite <- Hp', !app_assoc. f_equiv. apply Permutation_app_comm.
    + intros g Hg. rewrite Hk; [by apply Hkeep|]. intros Hin. apply Hg. rewrite <- Hperm, as_all_app. clear -Hin. set_solver.
  - done.
  - lia.
  - exists (zs0 ++ zs). by rewrite Hzs0, rw_app.
  - intros x Hx. rewrite <- Hlen in Hx. rewrite Hb by done. case_decide as Hd; [apply Hm; lia|]. symmetry. apply Hz. lia.
  - intros x Hx. apply Hz. lia.
Qed.

Lemma get_u32_range (off : nat) (bytes : list Z) : Forall is_byte bytes -> 0 <= get_u32 off bytes < 2 ^ 32.
Proof.
  intros Hb. unfold get_u32. assert (Forall is_byte (slice off 4 bytes)) as Hs by (by apply Forall_take, Forall_drop).
  pose proof (le_dec_range _ Hs) as Hr. assert (length (slice off 4 bytes) <= 4)%nat by (unfold slice; rewrite length_take; lia).
  assert (256 ^ Z.of_nat (length (slice off 4 bytes)) <= 256 ^ 4) by (apply Z.pow_le_mono_r; lia). lia.
Qed.

Lemma read_bytes off n : Forall is_byte (read_result data off n).2.
Proof. unfold read_result. destruct (_ || _); [constructor|]. apply Forall_take, Forall_drop, (fl_bytes _ _ _ _ _ _ _ laws). Qed.

Lemma hdr_range off ph : hdr_at data off = Some ph ->
  0 <= ph_off ph < 2 ^ 32 /\ 0 <= ph_vaddr ph /\ 0 <= ph_filesz ph /\ 0 <= ph_memsz ph.
Proof.
  unfold hdr_at. pose proof (read_bytes (u32 off) PROGHDR_SIZE) as Hb. destruct (read_result data (u32 off) PROGHDR_SIZE) as [r bytes]. cbn [snd] in Hb.
  destruct (_ =? _); [|done]. intros [= <-]. unfold get_proghdr. cbn. split_and!; by apply get_u32_range.
Qed.

Lemma img_load m0 L m d tabs us l sz mem vaddr off filesz b :
  img m0 L m d tabs us l sz mem -> held b -> 0 <= vaddr -> vaddr mod 4096 = 0 -> 0 <= filesz -> vaddr + filesz <= sz -> 0 <= off < 2 ^ 32 ->
  exists r m' b', run (loaduvm (d + KERNBASE) vaddr ip off filesz) m b = Ok (r, m', b') /\ held b' /\ part m0 L m' d tabs us l /\
    if covers data off filesz then
      r = 0 /\ img m0 L m' d tabs us l sz (overlay vaddr (slice (Z.to_nat off) (Z.to_nat filesz) data) mem)
    else r = -1.
Proof.
  intros Hi Hb Hv Hal Hf Hsz Ho. pose proof Hi as [[Ha Hperm Hkeep] Hs Hpos Hrw Hm Hz].
  destruct (run_loaduvm m d tabs us l vaddr off filesz b) as (r & m' & b' & Hr & Hb' & Ha' & Hk & Hres); try done; [unfold npages in Hs; lia|].
  assert (part m0 L m' d tabs us l) as Hp'.
  { split; [done|done|]. intros g Hg. rewrite Hk; [by apply Hkeep|]. intros Hin. apply Hg. rewrite <- Hperm, as_all_app. clear -Hin. set_solver. }
  exists r, m', b'. split_and!; try done. destruct (covers data off filesz); [|done]. destruct Hres as [-> Hx]. split; [done|].
  split; try done.
  - intros x Hxr. rewrite Hx by lia. apply overlay_ext. by apply Hm.
  - intros x Hxr. unfold overlay. rewrite decide_False; [by apply Hz|]. unfold slice. rewrite length_take. unfold npages in Hxr. lia.
Qed.

(** ** The loop over the program headers *)

Definition seg_body (d : Z) (elf : elfhdr) : Z * Z * Z -> prog execE phys (Z * Z * Z + option Z) := fun '(i, off, sz) =>
  if negb (i <? e_phnum elf) then Ret (inr (Some sz))
  else
    let* (r, bytes) := x_read ip off PROGHDR_SIZE in
    if negb (u32 r =? PROGHDR_SIZE) then Ret (inr None)
    else
      let ph := get_proghdr bytes in
      let next sz := Ret (inl (i + 1, s32 (off + PROGHDR_SIZE), sz)) in
      if negb (ph_type ph =? ELF_PROG_LOAD) then next sz
      else if ph_memsz ph <? ph_filesz ph then Ret (inr None)
      else
        sz <- allocuvm (d + KERNBASE) sz (u32 (ph_vaddr ph + ph_memsz ph));;
        if sz =? 0 then Ret (inr None)
        else
          r <- loaduvm (d + KERNBASE) (ph_vaddr ph) ip (ph_off ph) (ph_filesz ph);;
          if r <? 0 then Ret (inr None) else next sz.

Context (m0 : phys) (L : list Z) (d0 : Z) (top : Z).
Hypothesis top_low : 0 <= top /\ top + 12288 <= KERNBASE.
Hypothesis enough : (1028 + Z.to_nat (npages top) <= length L)%nat.

Definition page_panic : stop := Panic "loaduvm: addr must be page aligned".

(** What a run of the loop, or of its body, does: go on with an image, give
    up, or panic. *)
Definition seg_res {X} (c : prog execE phys X) m b (image : Z -> X) (none : X) (pl : planned (Z * (Z -> Z))) : Prop :=
  match pl with
  | Image (sz, mem) => exists m' b' tabs us l, run c m b = Ok (image sz, m', b') /\ held b' /\ sz <= top /\ img m0 L m' d0 tabs us l sz mem
  | Refused => exists m' b' tabs us l, run c m b = Ok (none, m', b') /\ held b' /\ part m0 L m' d0 tabs us l
  | Unaligned => run c m b = Fail page_panic
  end.

Lemma seg_step m tabs us l elf i off sz mem b :
  img m0 L m d0 tabs us l sz mem -> held b -> sz <= top -> i < e_phnum elf -> sane data top 1 off = true ->
  seg_res (seg_body d0 elf (i, off, sz)) m b (fun sz => inl (i + 1, s32 (off + PROGHDR_SIZE), sz)) (inr None) (plan data 1 off sz mem).
Proof.
  intros Hi Hb Hsz Hlt Hsane. unfold seg_body, seg_res. cbn [plan sane] in *. rewrite (proj2 (Z.ltb_lt _ _)) by done. cbn [negb]. rewrite run_bind.
  destruct (run_x_read b off PROGHDR_SIZE m Hb ltac:(unfold PROGHDR_SIZE; lia)) as (b1 & -> & Hb1).
  destruct (hdr_at data off) as [ph|] eqn:Hh; pose proof Hh as Hh'; unfold hdr_at in Hh';
    destruct (read_result data (u32 off) PROGHDR_SIZE) as [r bytes]; destruct (u32 r =? PROGHDR_SIZE); try done; cbn [negb].
  2: { exists m, b1. do 3 eexists. split_and!; try done. apply Hi. }
  injection Hh' as Hph. cbv zeta. rewrite Hph. apply hdr_range in Hh as (Hro & Hrv & Hrf & Hrm).
  rewrite andb_true_r in Hsane. destruct (ph_type ph =? ELF_PROG_LOAD); cbn [negb orb] in *.
  2: { exists m, b1. by do 3 eexists. }
  destruct (Z.ltb_spec (ph_memsz ph) (ph_filesz ph)) as [Hbad|Hgood]; cbn [orb] in *.
  { exists m, b1. do 3 eexists. split_and!; try done. apply Hi. }
  apply Z.leb_le in Hsane as Htop. rewrite u32_small by (unfold KERNBASE in *; lia).
  pose proof (npages_mono _ _ Htop) as Hnp. rewrite run_bind.
  destruct (img_alloc m0 L m d0 tabs us l sz mem (ph_vaddr ph + ph_memsz ph) b1 Hi ltac:(lia) ltac:(lia)) as (m1 & tabs1 & us1 & l1 & -> & Hi1).
  set (sz1 := Z.max sz (ph_vaddr ph + ph_memsz ph)) in *.
  destruct (Z.eqb_spec sz1 0) as [Hz|Hz].
  { exists m1, b1. do 3 eexists. split_and!; try done. apply Hi1. }
  rewrite run_bind. destruct (Z.eqb_spec (ph_vaddr ph mod 4096) 0) as [Hal|Hal]; cbn [negb].
  2: { unfold loaduvm, PGSIZE. by rewrite (proj2 (Z.eqb_neq _ _) Hal). }
  destruct (img_load m0 L m1 d0 tabs1 us1 l1 sz1 mem (ph_vaddr ph) (ph_off ph) (ph_filesz ph) b1)
    as (r' & m2 & b2 & -> & Hb2 & Hp2 & Hres); try done; [lia|].
  destruct (covers data (ph_off ph) (ph_filesz ph)); cbn [negb].
  - destruct Hres as [-> Hi2]. cbn [Z.ltb Z.compare]. exists m2, b2. do 3 eexists. split_and!; try done. lia.
  - subst r'. cbn [Z.ltb Z.compare]. exists m2, b2. by do 3 eexists.
Qed.

(** The headers one at a time *)
Lemma plan_step (n : nat) off sz mem : plan data (S n) off sz mem =
  match plan data 1 off sz mem with
  | Image (sz, mem) => plan data n (s32 (off + PROGHDR_SIZE)) sz mem
  | Refused => Refused
  | Unaligned => Unaligned
  end.
Proof. cbn [plan]. destruct (hdr_at data off) as [ph|]; [|done]. cbv zeta. by repeat case_match. Qed.

Lemma segs_loop (n : nat) : forall fuel m tabs us l elf i off sz mem b,
  (n < fuel)%nat -> i + Z.of_nat n = e_phnum elf -> sane data top n off = true ->
  img m0 L m d0 tabs us l sz mem -> held b -> sz <= top ->
  seg_res (while_fuel fuel (seg_body d0 elf) (i, off, sz)) m b Some None (plan data n off sz mem).
Proof.
  induction n as [|n IH]; intros [|fuel] m tabs us l elf i off sz mem b Hf Hi Hs Him Hb Hsz; try lia; cbn [while_fuel].
  - cbn [plan]. exists m, b, tabs, us, l. rewrite run_bind. unfold seg_body. rewrite (proj2 (Z.ltb_ge _ _)) by lia. by split_and!.
  - assert (sane data top 1 off = true /\ (hdr_at data off = None \/ sane data top n (s32 (off + PROGHDR_SIZE)) = true)) as [Hs1 Hsn].
    { cbn [sane] in *. destruct (hdr_at data off); [|by auto]. apply andb_true_iff in Hs as [-> ?]. auto. }
    pose proof (seg_step m tabs us l elf i off sz mem b Him Hb Hsz ltac:(lia) Hs1) as Hstep. rewrite plan_step. unfold seg_res in *.
    rewrite !run_bind. destruct (plan data 1 off sz mem) as [[sz1 mem1]| |] eqn:Hp.
    + destruct Hstep as (m1 & b1 & tabs1 & us1 & l1 & -> & Hb1 & Hsz1 & Hi1). destruct Hsn as [Hno|Hsn]; [cbn [plan] in Hp; by rewrite Hno in Hp|].
      eapply IH; try done; lia.
    + destruct Hstep as (m1 & b1 & tabs1 & us1 & l1 & -> & Hb1 & Hp1). by exists m1, b1, tabs1, us1, l1.
    + by rewrite Hstep.
Qed.

(** ** Building the stack *)

(** The image with two more pages, number [N] a guard page and the next the
    stack. *)
Record stacked m tabs us l (N : nat) (mem : Z -> Z) : Prop := {
  sk_part : part m0 L m d0 tabs us l;
  sk_len : length us = (N + 2)%nat;
  sk_guard : exists f, us !! N = Some (f, 3);
  sk_page : exists f, us !! (N + 1)%nat = Some (f, 7);
  sk_mem : forall x, 0 <= x < 4096 * Z.of_nat (length us) -> ubyte m us x = mem x;
}.

Lemma stack_copyout m tabs us l N mem va bytes b :
  stacked m tabs us l N mem -> 4096 * (Z.of_nat N + 1) <= va -> va + Z.of_nat (length bytes) <= 4096 * (Z.of_nat N + 2) -> bytes <> [] ->
  exists m', run (E := execE) (copyout (d0 + KERNBASE) va bytes) m b = Ok (0, m', b) /\ stacked m' tabs us l N (overlay va bytes mem).
Proof.
  intros Hs Hlo Hhi Hne. pose proof Hs as [[Ha Hperm Hkeep] Hlen Hg (f & Hf) Hm].
  assert (0 < length bytes)%nat as Hpos by (destruct bytes; [done|cbn; lia]).
  destruct (run_copyout (E := execE) m d0 tabs us l va bytes b Ha) as (m' & Hr & Ha' & Hb & Hk); [lia|lia| |].
  { intros n Hn. exists (f, 7). replace (Z.to_nat n) with (N + 1)%nat by lia. done. }
  exists m'. split; [done|]. split; try done.
  - split; [done|done|]. intros g Hgl. rewrite Hk; [by apply Hkeep|]. intros Hin. apply Hgl. rewrite <- Hperm, as_all_app. clear -Hin. set_solver.
  - by exists f.
  - intros x Hx. rewrite Hb by lia. unfold overlay. case_decide; [done|by apply Hm].
Qed.

Lemma stack_guard m tabs us l N mem va bytes b :
  stacked m tabs us l N mem -> 4096 * Z.of_nat N <= va < 4096 * (Z.of_nat N + 1) -> bytes <> [] ->
  run (E := execE) (copyout (d0 + KERNBASE) va bytes) m b = Ok (-1, m, b).
Proof.
  intros [[Ha _ _] Hlen (f & Hf) _ _] Hva Hne. pose proof (as_len _ _ _ _ _ Ha) as Hl. destruct bytes as [|c bytes]; [done|].
  unfold copyout. cbn [while_fuel length]. rewrite run_bind. cbv zeta. rewrite PGROUNDDOWN_eq by lia.
  replace (va / 4096 * 4096) with (4096 * Z.of_nat N) by lia. rewrite run_bind.
  rewrite (run_uva2ka_none m d0 tabs us l (Z.of_nat N) (f, 3) b Ha) by (done || lia || by rewrite Nat2Z.id). done.
Qed.

Lemma arg_sp_eq sp s : Z.of_nat (length s) + 1 <= sp < 2 ^ 32 -> Z.land (u32 (sp - (Z.of_nat (length s) + 1))) (Z.lnot 3) = arg_sp sp s.
Proof.
  intros Hs. rewrite u32_small by lia. unfold arg_sp. change 3 with (Z.ones 2). change (Z.land ?x (Z.lnot ?y)) with (Z.ldiff x y).
  rewrite Z.ldiff_ones_r by lia. rewrite Z.shiftl_mul_pow2, Z.shiftr_div_pow2 by lia. done.
Qed.

Definition push_body (d : Z) : nat * list (list Z) * Z * list Z -> prog execE phys (nat * list (list Z) * Z * list Z + option (Z * list Z)) :=
  fun '(argc, argv, sp, ptrs) =>
    match argv with
    | [] => Ret (inr (Some (sp, ptrs)))
    | s :: argv =>
        if (MAXARG <=? argc)%nat then Ret (inr None)
        else
          let sp := Z.land (u32 (sp - (Z.of_nat (length s) + 1))) (Z.lnot 3) in
          r <- copyout (d + KERNBASE) sp (s ++ [0]);;
          if r <? 0 then Ret (inr None) else Ret (inl (S argc, argv, sp, ptrs ++ [sp]))
    end.

(** Strings shorter than a page. *)
Definition short (argv : list (list Z)) : Prop := Forall (fun s => (length s < 4096)%nat) argv.

Lemma push_loop argv : forall fuel m tabs us l N mem argc sp ptrs b,
  (length argv < fuel)%nat -> stacked m tabs us l N mem -> short argv ->
  4096 * (Z.of_nat N + 1) <= sp <= 4096 * (Z.of_nat N + 2) -> (argc <= MAXARG)%nat ->
  exists x m', run (while_fuel fuel (push_body d0) (argc, argv, sp, ptrs)) m b = Ok (x, m', b) /\
    if (argc + length argv <=? MAXARG)%nat && (4096 * (Z.of_nat N + 1) <=? args_sp sp argv) then
      x = Some (args_sp sp argv, ptrs ++ arg_ptrs sp argv) /\ stacked m' tabs us l N (args_mem sp argv mem)
    else x = None /\ exists tabs us l, part m0 L m' d0 tabs us l.
Proof.
  induction argv as [|s argv IH]; intros [|fuel] m tabs us l N mem argc sp ptrs b Hf Hs Hsh Hsp Hac; cbn [length] in Hf; try lia;
    cbn [while_fuel push_body]; rewrite run_bind.
  - exists (Some (sp, ptrs)), m. cbn [length args_sp foldl arg_ptrs args_mem]. rewrite Nat.add_0_r, app_nil_r.
    rewrite (proj2 (Nat.leb_le _ _)), (proj2 (Z.leb_le _ _)) by lia. done.
  - pose proof (sk_part _ _ _ _ _ _ Hs) as Hpart.
    destruct (Nat.leb_spec MAXARG argc) as [Hm|Hm].
    { exists None, m. rewrite (proj2 (Nat.leb_gt _ _)) by (cbn [length]; lia). cbn [andb]. split_and!; try done. by do 3 eexists. }
    apply Forall_cons in Hsh as [Hs1 Hsh]. pose proof (arg_sp_le sp s) as Hle. pose proof (as_len _ _ _ _ _ (pa_as _ _ _ _ _ _ _ Hpart)) as Hal.
    pose proof (sk_len _ _ _ _ _ _ Hs) as Hlen. cbv zeta.
    assert (4096 * Z.of_nat N <= arg_sp sp s) as Hlow by (unfold arg_sp; lia).
    rewrite arg_sp_eq by lia. rewrite run_bind.
    assert (s ++ [0] <> []) as Hne by (by destruct s). assert (length (s ++ [0]) = S (length s)) as Hl1 by (rewrite length_app; cbn; lia).
    change (args_sp sp (s :: argv)) with (args_sp (arg_sp sp s) argv). pose proof (args_sp_le (arg_sp sp s) argv) as Hle2.
    destruct (decide (4096 * (Z.of_nat N + 1) <= arg_sp sp s)) as [Hin|Hout].
    + destruct (stack_copyout m tabs us l N mem (arg_sp sp s) (s ++ [0]) b Hs) as (m1 & -> & Hs1'); [lia|lia|done|].
      cbn [Z.ltb Z.compare run].
      destruct (IH fuel m1 tabs us l N _ (S argc) (arg_sp sp s) (ptrs ++ [arg_sp sp s]) b ltac:(lia) Hs1' Hsh ltac:(lia) ltac:(lia)) as (x & m' & Hr & Hres).
      exists x, m'. split; [exact Hr|]. cbn [length arg_ptrs args_mem]. rewrite Nat.add_succ_r. rewrite <- app_assoc in Hres. exact Hres.
    + rewrite (stack_guard m tabs us l N mem) by (done || lia). cbn [Z.ltb Z.compare run].
      exists None, m. rewrite (proj2 (Z.leb_gt _ _)) by lia. rewrite andb_false_r. split_and!; try done. by do 3 eexists.
Qed.

Lemma img_round m tabs us l sz mem : img m0 L m d0 tabs us l sz mem -> img m0 L m d0 tabs us l (4096 * npages sz) mem.
Proof.
  intros [Hp Hs Hpos Hrw Hm Hz]. assert (npages (4096 * npages sz) = npages sz) as Heq by (unfold npages; lia).
  split; rewrite ?Heq; try done. unfold npages. lia.
Qed.

Lemma ubyte_flags m us (n : nat) f fl fl' x : us !! n = Some (f, fl) -> ubyte m (<[n := (f, fl')]> us) x = ubyte m us x.
Proof.
  intros Hu. unfold ubyte. destruct (decide (Z.to_nat (x / 4096) = n)) as [->|Hne].
  - by rewrite Hu, list_lookup_insert_eq by (by eapply lookup_lt_Some).
  - by rewrite list_lookup_insert_ne.
Qed.

(** The guard page is made. *)
Lemma stack_ready m tabs zs l N mem b :
  part m0 L m d0 tabs (rw_pages zs) l -> length zs = (N + 2)%nat ->
  (forall x, 0 <= x < 4096 * Z.of_nat (N + 2) -> ubyte m (rw_pages zs) x = mem x) ->
  exists m' us, run (E := execE) (clearpteu (d0 + KERNBASE) (4096 * Z.of_nat N)) m b = Ok (tt, m', b) /\ stacked m' tabs us l N mem.
Proof.
  intros Hp Hlen Hm. assert (exists f, zs !! N = Some f) as [f Hf] by (apply lookup_lt_is_Some; lia).
  assert (exists g, zs !! (N + 1)%nat = Some g) as [g Hg] by (apply lookup_lt_is_Some; lia).
  assert (forall i h, zs !! i = Some h -> rw_pages zs !! i = Some (h, 7)) as Hrw by (intros i h Hh; unfold rw_pages; by rewrite list_lookup_fmap, Hh).
  destruct Hp as [Ha Hperm Hkeep]. destruct (run_clearpteu m d0 tabs (rw_pages zs) l N f b Ha (Hrw _ _ Hf)) as (m' & Hr & Ha' & Hk).
  exists m', (<[N := (f, 3)]> (rw_pages zs)). split; [done|].
  assert ((<[N := (f, 3)]> (rw_pages zs)).*1 = (rw_pages zs).*1) as Hfst.
  { rewrite list_fmap_insert. cbn [fst]. apply list_insert_id. by rewrite list_lookup_fmap, (Hrw _ _ Hf). }
  assert (length (rw_pages zs) = (N + 2)%nat) as Hrl by (unfold rw_pages; by rewrite length_map).
  split.
  - split; [done|unfold as_all in *; by rewrite Hfst|]. intros h Hh. rewrite Hk; [by apply Hkeep|]. intros Hin. apply Hh.
    rewrite <- Hperm, as_all_app. clear -Hin. set_solver.
  - by rewrite length_insert.
  - exists f. apply list_lookup_insert_eq. lia.
  - exists g. rewrite list_lookup_insert_ne by lia. by apply Hrw.
  - rewrite length_insert, Hrl. intros x Hx. rewrite (ubyte_flags _ _ _ _ _ _ _ (Hrw _ _ Hf)). rewrite <- Hm by done. apply ubyte_keep.
    intros h (u & -> & Hu)%list_elem_of_fmap. apply Hk. pose proof (as_user_page _ _ _ _ _ _ Ha Hu) as Hn. clear -Hn. set_solver.
Qed.

Lemma run_make_stack m tabs us l sz mem argv b :
  img m0 L m d0 tabs us l sz mem -> sz <= top -> short argv ->
  let hi := 4096 * (npages sz + 2) in
  exists x m', run (make_stack (d0 + KERNBASE) sz argv) m b = Ok (x, m', b) /\
    if args_fit hi argv then
      x = Some (hi, start_sp hi argv) /\ exists tabs us l, stacked m' tabs us l (Z.to_nat (npages sz)) (start_mem hi argv mem)
    else x = None /\ exists tabs us l, part m0 L m' d0 tabs us l.
Proof.
  intros Hi Hsz Hsh hi. pose proof (im_sz _ _ _ _ _ _ _ _ _ Hi) as Hpos. pose proof (npages_mono _ _ Hsz) as Hnp.
  assert (0 <= npages sz) as Hn0 by (unfold npages; lia). unfold KERNBASE in top_low.
  assert (4096 * npages top <= top + 4095) as Htop by (unfold npages; lia).
  unfold make_stack. rewrite PGROUNDUP_eq by lia. replace ((sz + 4095) / 4096 * 4096) with (4096 * npages sz) by (unfold npages; lia).
  cbv zeta. unfold PGSIZE. rewrite u32_small by lia. replace (4096 * npages sz + 2 * 4096) with hi by (unfold hi; lia). rewrite run_bind.
  assert (npages hi = npages sz + 2) as Hnhi by (unfold hi, npages; lia).
  destruct (img_alloc m0 L m d0 tabs us l (4096 * npages sz) mem hi b (img_round _ _ _ _ _ _ Hi)) as (m1 & tabs1 & us1 & l1 & -> & Hi1);
    [unfold KERNBASE, hi; lia|lia|].
  rewrite Z.max_r in * by lia. rewrite (proj2 (Z.eqb_neq _ 0)) by lia. rewrite u32_small by lia.
  destruct Hi1 as [Hp1 Hs1 _ (zs & ->) Hm1 _].
  assert (length zs = (Z.to_nat (npages sz) + 2)%nat) as Hzl by (unfold rw_pages in Hs1; rewrite length_map in Hs1; lia).
  destruct (stack_ready m1 tabs1 zs l1 (Z.to_nat (npages sz)) mem b Hp1 Hzl) as (m2 & us2 & Hr2 & Hs2).
  { intros x Hx. apply Hm1. unfold rw_pages. rewrite length_map. lia. }
  replace (hi - 2 * 4096) with (4096 * Z.of_nat (Z.to_nat (npages sz))) by lia. rewrite run_bind, Hr2, run_bind.
  unfold push_args. change (fun '(_, _, _, _) => _) with (push_body d0).
  destruct (push_loop argv (S (length argv)) m2 tabs1 us2 l1 (Z.to_nat (npages sz)) mem 0 hi [] b ltac:(lia) Hs2 Hsh ltac:(lia) ltac:(lia))
    as (x & m3 & -> & Hres). rewrite Nat.add_0_l in Hres. unfold args_fit.
  destruct (Nat.leb_spec (length argv) MAXARG) as [Hna|Hna]; cbn [andb] in *.
  2: { destruct Hres as [-> Hp]. exists None, m3. by split_and!. }
  unfold MAXARG in Hna. pose proof (args_sp_le hi argv) as Hsple. pose proof (sk_len _ _ _ _ _ _ Hs2) as Hlen2.
  replace (4096 * (Z.of_nat (Z.to_nat (npages sz)) + 1)) with (hi - 4096) in * by lia.
  destruct (Z.leb_spec (hi - 4096) (args_sp hi argv)) as [Hin|Hout].
  2: { destruct Hres as [-> Hp]. exists None, m3. rewrite (proj2 (Z.leb_gt _ _)) by (unfold start_sp; lia). by split_and!. }
  destruct Hres as [-> Hs3]. cbn [app]. rewrite length_arg_ptrs.
  replace (u32 (args_sp hi argv - (3 + Z.of_nat (length argv) + 1) * 4)) with (start_sp hi argv) by (unfold start_sp; rewrite u32_small; lia).
  assert (ustack (args_sp hi argv) (arg_ptrs hi argv) <> []) as Hne.
  { intros Heq. pose proof (length_ustack (args_sp hi argv) (arg_ptrs hi argv)) as Hl. rewrite Heq in Hl. cbn in Hl. lia. }
  pose proof (length_ustack (args_sp hi argv) (arg_ptrs hi argv)) as Hlu. rewrite length_arg_ptrs in Hlu. rewrite run_bind.
  destruct (Z.leb_spec (hi - 4096) (start_sp hi argv)) as [Hin2|Hout2].
  - destruct (stack_copyout m3 tabs1 us2 l1 (Z.to_nat (npages sz)) _ (start_sp hi argv) (ustack (args_sp hi argv) (arg_ptrs hi argv)) b Hs3)
      as (m4 & -> & Hs4); [lia|unfold start_sp in *; lia|done|].
    cbn [Z.ltb Z.compare run]. eexists _, m4. split_and!; try done. do 3 eexists. exact Hs4.
  - rewrite (stack_guard m3 tabs1 us2 l1 (Z.to_nat (npages sz)) _ (start_sp hi argv) _ b Hs3) by (done || unfold start_sp in *; lia).
    cbn [Z.ltb Z.compare run]. exists None, m3. split_and!; try done. do 3 eexists. apply Hs3.
Qed.
End ExecFacts.

Section ExecSpec.
Context `{LinkerOk}.
Context {B : Type} `{HS : Store execE B}.
Implicit Types (m : phys) (d : Z) (tabs : gmap Z Z) (l : list Z) (us : list upage) (b : B).

(** An address space next to the one under construction. *)
Lemma old_kept m d tabs us l m' l' :
  as_ok m d tabs us l -> free_ok m' l' -> l' ≡ₚ l -> (forall g, g ∉ l -> page_of m' g = page_of m g) ->
  as_ok m' d tabs us l' /\ forall x, ubyte m' us x = ubyte m us x.
Proof.
  intros Ha Hf Hp Hk. pose proof (as_nodup _ _ _ _ _ Ha) as Hnd.
  assert (forall g, g ∈ as_all d tabs us -> page_of m' g = page_of m g) as Hk'.
  { intros g Hg. apply Hk. rewrite <- as_all_app in Hnd. apply NoDup_app in Hnd as (_ & Hnd & _). by apply Hnd. }
  split.
  - eapply as_frame; [done| |done|rewrite Hp, as_all_app; apply Ha]. intros g Hg. apply Hk'. clear -Hg. unfold as_all. set_solver.
  - intros x. apply ubyte_keep. intros g Hg. apply Hk'. clear -Hg. unfold as_all. set_solver.
Qed.

(** Giving up an address space made of free pages. *)
Lemma run_abandon m l m1 d1 tabs1 us1 l1 b : part m l m1 d1 tabs1 us1 l1 ->
  exists m' l', run (E := execE) (freevm (d1 + KERNBASE)) m1 b = Ok (tt, m', b) /\ free_ok m' l' /\ l' ≡ₚ l /\
    forall g, g ∉ l -> page_of m' g = page_of m g.
Proof.
  intros [Ha Hp Hk]. destruct (run_freevm (E := execE) m1 d1 tabs1 us1 l1 b Ha) as (m' & l' & Hr & Hf & Hl & Hk').
  exists m', l'. split_and!; try done; [by rewrite Hl, <- Hp, as_all_app|].
  intros g Hg. rewrite Hk'; [by apply Hk|]. intros Hin. apply Hg. rewrite <- Hp. apply elem_of_app. by left.
Qed.

Definition unchanged m d tabs us l (p : uproc) (r : Z) (p' : uproc) m' : Prop :=
  r = -1 /\ p' = p /\ exists l', as_ok m' d tabs us l' /\ l' ≡ₚ l /\ forall x, ubyte m' us x = ubyte m us x.

Lemma not_zero m l m1 d1 tabs1 us1 l1 : part m l m1 d1 tabs1 us1 l1 -> (d1 + KERNBASE =? 0) = false.
Proof.
  intros [Ha _ _]. destruct (kpage_frame _ (dir_kpage _ _ _ _ (as_vm _ _ _ _ _ Ha))) as [_ Hr].
  apply Z.eqb_neq. unfold KERNBASE. lia.
Qed.

(** [goto bad] with a page table. *)
Lemma run_bad m d tabs us l m1 d1 tabs1 us1 l1 ipo p b b1 (closed : B -> Prop) :
  as_ok m d tabs us l -> part m l m1 d1 tabs1 us1 l1 ->
  match ipo with
  | Some ip => exists b2, st_step (XUnlockput ip) b = Ok (tt, b2) /\ closed b2
  | None => closed b1 /\ b = b1
  end ->
  exists r p' m' b', run (bad (d1 + KERNBASE) ipo p) m1 b = Ok (r, p', m', b') /\ closed b' /\ unchanged m d tabs us l p r p' m'.
Proof.
  intros Ha Hp Hc. unfold bad. rewrite (not_zero _ _ _ _ _ _ _ Hp). cbn [negb]. rewrite run_bind.
  destruct (run_abandon m l m1 d1 tabs1 us1 l1 b Hp) as (m' & l' & -> & Hf & Hl & Hk).
  destruct (old_kept m d tabs us l m' l' Ha Hf Hl Hk) as [Ha' Hb'].
  assert (unchanged m d tabs us l p (-1) p m') as Hu by (split_and!; try done; by exists l').
  destruct ipo as [ip|].
  - destruct Hc as (b2 & Hs & Hc). exists (-1), p, m', b2. split_and!; try done. cbn. by rewrite Hs.
  - destruct Hc as [Hc ->]. exists (-1), p, m', b1. by split_and!.
Qed.

(** The old address space is freed once the new one is in place. *)
Lemma run_commit m d tabs us l m1 d1 tabs1 us1 l1 b :
  as_ok m d tabs us l -> part m l m1 d1 tabs1 us1 l1 ->
  exists m' l', run (E := execE) (freevm (d + KERNBASE)) m1 b = Ok (tt, m', b) /\ as_ok m' d1 tabs1 us1 l' /\
    as_all d1 tabs1 us1 ++ l' ≡ₚ as_all d tabs us ++ l /\ forall x, ubyte m' us1 x = ubyte m1 us1 x.
Proof.
  intros Ha [Ha1 Hp Hk]. pose proof (as_nodup _ _ _ _ _ Ha) as Hnd. rewrite <- as_all_app, <- Hp in Hnd.
  assert (forall g, g ∈ as_all d tabs us -> g ∉ as_all d1 tabs1 us1 ++ l1) as Hdisj by (apply NoDup_app in Hnd as (_ & ? & _); done).
  assert (as_ok m1 d tabs us l1) as Hold.
  { eapply as_frame; [exact Ha| |apply (as_vm _ _ _ _ _ Ha1)|].
    - intros g Hg. apply Hk. rewrite <- Hp. apply Hdisj. clear -Hg. unfold as_all. set_solver.
    - apply NoDup_app in Hnd as (H1' & H2' & H3'). apply NoDup_app in H3' as (_ & _ & H3'). apply NoDup_app. split_and!; [done| |done].
      intros g Hg Hin. apply (Hdisj g Hg). apply elem_of_app. by right. }
  destruct (run_freevm (E := execE) m1 d tabs us l1 b Hold) as (m' & l' & Hr & Hf & Hl & Hk'). rewrite <- as_all_app in Hl.
  assert (forall g, g ∈ as_all d1 tabs1 us1 -> page_of m' g = page_of m1 g) as Hkn.
  { intros g Hg. apply Hk'. intros Hin. apply (Hdisj g Hin). apply elem_of_app. by left. }
  assert (as_all d1 tabs1 us1 ++ l' ≡ₚ as_all d tabs us ++ l) as Hperm.
  { rewrite Hl, <- Hp, !app_assoc. f_equiv. apply Permutation_app_comm. }
  exists m', l'. split_and!; try done.
  - eapply as_frame; [exact Ha1| |done|rewrite Hperm, <- Hp; done]. intros g Hg. apply Hkn. clear -Hg. unfold as_all. set_solver.
  - intros x. apply ubyte_keep. intros g Hg. apply Hkn. clear -Hg. unfold as_all. set_solver.
Qed.

(** The process after a successful [exec]: its address space holds the image
    and, above a guard page, the stack with the arguments. *)
Record installed m d tabs us l (entry sz : Z) (mem : Z -> Z) (argv : list (list Z)) (name : list Z) (p' : uproc) m' : Prop := {
  in_proc : u_sz p' = 4096 * (npages sz + 2) /\ u_eip p' = entry /\ u_esp p' = start_sp (u_sz p') argv /\ u_name p' = name;
  in_space : exists d' tabs' us' l', u_pgdir p' = d' + KERNBASE /\ as_ok m' d' tabs' us' l' /\
    as_all d' tabs' us' ++ l' ≡ₚ as_all d tabs us ++ l /\
    Z.of_nat (length us') = npages sz + 2 /\ (exists f, us' !! Z.to_nat (npages sz) = Some (f, 3)) /\
    (forall x, 0 <= x < 4096 * npages sz -> ubyte m' us' x = mem x) /\
    at_addr (ubyte m' us') (u_esp p') (ustack (args_sp (u_sz p') argv) (arg_ptrs (u_sz p') argv)) /\
    (forall i s q, argv !! i = Some s -> arg_ptrs (u_sz p') argv !! i = Some q -> at_addr (ubyte m' us') q (s ++ [0]));
}.

Lemma make_installed m d tabs us l m1 d1 tabs1 us1 l1 entry sz mem argv name b :
  let hi := 4096 * (npages sz + 2) in
  as_ok m d tabs us l -> 0 <= npages sz -> args_fit hi argv = true ->
  stacked m l d1 m1 tabs1 us1 l1 (Z.to_nat (npages sz)) (start_mem hi argv mem) ->
  exists m', run (E := execE) (freevm (d + KERNBASE)) m1 b = Ok (tt, m', b) /\
    installed m d tabs us l entry sz mem argv name (mkuproc (d1 + KERNBASE) hi entry (start_sp hi argv) name) m'.
Proof.
  intros hi. assert (hi = 4096 * (npages sz + 2)) as Ehi by done. clearbody hi. intros Ha Hn Hfit [Hp Hlen Hg Hpg Hm]. destruct (run_commit m d tabs us l m1 d1 tabs1 us1 l1 b Ha Hp) as (m' & l' & Hr & Ha' & Hperm & Hb).
  exists m'. split; [done|]. unfold args_fit in Hfit. apply andb_true_iff in Hfit as [Hna%Nat.leb_le Hfit%Z.leb_le].
  assert (forall x, 0 <= x < hi -> ubyte m' us1 x = start_mem hi argv mem x) as Hx by (intros x Hx; rewrite Hb; apply Hm; lia).
  split; cbn [u_pgdir u_sz u_eip u_esp u_name]; [done|]. exists d1, tabs1, us1, l'. split_and!; try done; [lia| | |].
  - intros x Hxr. rewrite Hx by lia. apply start_mem_image. lia.
  - intros j Hj. rewrite length_ustack, length_arg_ptrs in Hj. pose proof (args_sp_le hi argv) as Hle. rewrite Hx by (unfold start_sp in *; lia).
    apply overlay_at. by rewrite length_ustack, length_arg_ptrs.
  - intros i s q Hs Hq j Hj. destruct (args_mem_at hi argv mem i s q Hs Hq) as (_ & Hlo & Hhi'). rewrite length_app in Hj. cbn [length] in Hj.
    rewrite Hx by (unfold start_sp in *; lia). apply (start_mem_args hi argv mem i s q Hs Hq). rewrite length_app. cbn [length]. lia.
Qed.

(** How [exec] ends, given what the file describes. *)
Definition exec_end (closed : B -> Prop) m d tabs us l (argv : list (list Z)) (name : list Z) (p : uproc)
    (pl : planned (Z * Z * (Z -> Z))) (o : outcome (Z * uproc * phys * B)) : Prop :=
  match pl with
  | Image (entry, sz, mem) =>
      exists r p' m' b', o = Ok (r, p', m', b') /\ closed b' /\
        if args_fit (4096 * (npages sz + 2)) argv
        then r = 0 /\ installed m d tabs us l entry sz mem argv name p' m'
        else unchanged m d tabs us l p r p' m'
  | Refused => exists r p' m' b', o = Ok (r, p', m', b') /\ closed b' /\ unchanged m d tabs us l p r p' m'
  | Unaligned => o = Fail page_panic
  end.

(** Once the file is known to be an ELF file. *)
Lemma run_exec_image path path' ip data (before held closed : B -> Prop) m d tabs us l top argv p last name b3 :
  let elf := elf_of data in
  file_laws path path' ip data before held closed -> held b3 -> as_ok m d tabs us l -> u_pgdir p = d + KERNBASE ->
  0 <= top /\ top + 12288 <= KERNBASE -> (1028 + Z.to_nat (npages top) <= length l)%nat -> program_sane data top = true -> short argv ->
  last_name path' path' = Ok last -> safestrcpy (u_name p) last 16 = Ok name ->
  exec_end closed m d tabs us l argv name p
    match plan data (Z.to_nat (e_phnum elf)) (s32 (e_phoff elf)) 0 (fun _ => 0) with
    | Image (sz, mem) => Image (e_entry elf, sz, mem)
    | Refused => Refused
    | Unaligned => Unaligned
    end (run (exec_image path' ip elf argv p) m b3).
Proof.
  intros elf Hlaws Hh3 Ha Hpg Htop Henough Hsane Hshort Hlast Hname. unfold exec_image.
  rewrite run_bind. destruct (setupkvm_as (E := execE) m l b3) as (r1 & m1 & -> & Hk1 & Hres1); [apply (as_vm _ _ _ _ _ Ha)|].
  destruct Hres1 as [[_ ?]|(d1 & tabs1 & l1 & -> & Ha1 & Hp1)]; [lia|].
  assert (part m l m1 d1 tabs1 [] l1) as Hpart1 by (by split). rewrite (not_zero _ _ _ _ _ _ _ Hpart1).
  assert (img m l m1 d1 tabs1 [] l1 0 (fun _ => 0)) as Himg1 by (split; try done; by exists []).
  assert (0 <= e_phnum elf) as Hph0.
  { unfold elf, elf_of, get_elfhdr, get_u16. cbn [e_phnum]. apply le_dec_range, Forall_take, Forall_drop, Forall_take, Forall_drop.
    apply (fl_bytes _ _ _ _ _ _ _ Hlaws). }
  rewrite run_bind. change (load_segments (d1 + KERNBASE) ip elf) with
    (while_fuel (S (Z.to_nat (e_phnum elf))) (seg_body ip d1 elf) (0, s32 (e_phoff elf), 0)).
  pose proof (segs_loop path path' ip data before held closed Hlaws m l d1 top Htop Henough (Z.to_nat (e_phnum elf)) (S (Z.to_nat (e_phnum elf)))
    m1 tabs1 [] l1 elf 0 (s32 (e_phoff elf)) 0 (fun _ => 0) b3 ltac:(lia) ltac:(lia) Hsane Himg1 Hh3 ltac:(lia)) as Hplan.
  unfold seg_res in Hplan. destruct (plan _ _ _ _ _) as [[sz mem]| |]; cbn [exec_end].
  3: by rewrite Hplan.
  2: { destruct Hplan as (m2 & b5 & tabs2 & us2 & l2 & -> & Hh5 & Hpart2). destruct (fl_close _ _ _ _ _ _ _ Hlaws b5 Hh5) as (b6 & Hput5 & Hcl6).
    exact (run_bad m d tabs us l m2 d1 tabs2 us2 l2 (Some ip) p b5 b5 closed Ha Hpart2 (ex_intro _ b6 (conj Hput5 Hcl6))). }
  destruct Hplan as (m2 & b5 & tabs2 & us2 & l2 & -> & Hh5 & Hsz & Himg2). destruct (fl_close _ _ _ _ _ _ _ Hlaws b5 Hh5) as (b6 & Hput5 & Hcl6).
  rewrite run_bind. cbn [x_iunlockput run]. rewrite Hput5. rewrite run_bind.
  destruct (run_make_stack m l d1 top Htop Henough m2 tabs2 us2 l2 sz mem argv b6 Himg2 Hsz Hshort) as (y & m3 & -> & Hstk).
  destruct (args_fit _ argv) eqn:Hfit.
  - destruct Hstk as (-> & tabs3 & us3 & l3 & Hs3). rewrite run_bind, Hlast. cbn [lift run]. rewrite run_bind, Hname. cbn [lift run].
    rewrite run_bind, Hpg.
    destruct (make_installed m d tabs us l m3 d1 tabs3 us3 l3 (e_entry elf) sz mem argv name b6 Ha) as (m4 & -> & Hin); try done.
    { pose proof (im_sz _ _ _ _ _ _ _ _ _ Himg2). unfold npages. lia. }
    cbn [run]. eexists 0, _, m4, b6. by split_and!.
  - destruct Hstk as (-> & tabs3 & us3 & l3 & Hpart3). 
    exact (run_bad m d tabs us l m3 d1 tabs3 us3 l3 None p b6 b6 closed Ha Hpart3 (conj Hcl6 eq_refl)).
Qed.

(** C13: [exec] runs programs, and changes nothing otherwise.  Take a file with
    any bytes at all, of which the segments, if there are any, end below
    [top]; memory for an image up to [top] and its page tables (1028 free
    pages more); and arguments shorter than a page.  If the file is a program
    and the arguments fit, [exec] returns 0, with the file put back, and the
    process has a new address space: the segments of the file over zeros, a
    guard page, and a stack page with the arguments, the array of pointers to
    them and the frame of [main]; the pages of the old one are free again, so
    that no page is lost.  If the file is not a program or the arguments do
    not fit it returns -1, with the file put back, the process and its memory
    as they were, and all pages it took free again.  There is one more case:
    if a segment to be loaded does not start at a page boundary, before
    anything else is found wrong, the kernel panics. *)
Theorem exec_spec path path' ip data (before held closed : B -> Prop) m d tabs us l top argv p last name b :
  file_laws path path' ip data before held closed -> before b -> as_ok m d tabs us l -> u_pgdir p = d + KERNBASE ->
  0 <= top /\ top + 12288 <= KERNBASE -> (1028 + Z.to_nat (npages top) <= length l)%nat -> program_sane data top = true -> short argv ->
  last_name path' path' = Ok last -> safestrcpy (u_name p) last 16 = Ok name ->
  exec_end closed m d tabs us l argv name p (program data) (run (exec path argv p) m b).
Proof.
  intros Hlaws Hcl Ha Hpg Htop Henough Hsane Hshort Hlast Hname.
  assert (unchanged m d tabs us l p (-1) p m) as Hsame by (split_and!; try done; exists l; by split_and!).
  destruct (fl_open _ _ _ _ _ _ _ Hlaws b Hcl) as (b1 & b2 & Hlk & Hlock & Hheld).
  unfold exec. rewrite run_bind. cbn [x_lookup run]. rewrite Hlk. rewrite run_bind. cbn [x_ilock run]. rewrite Hlock. rewrite run_bind.
  destruct (run_x_read path path' ip data before held closed Hlaws b2 0 ELFHDR_SIZE m Hheld ltac:(unfold ELFHDR_SIZE; lia)) as (b3 & -> & Hh3).
  destruct (fl_close _ _ _ _ _ _ _ Hlaws b3 Hh3) as (b4 & Hput & Hcl4). change (u32 0) with 0. unfold ELFHDR_SIZE.
  assert (run (bad 0 (Some ip) p) m b3 = Ok (-1, p, m, b4)) as Hbad0 by (cbn; by rewrite Hput).
  unfold program. destruct (Nat.ltb_spec (length data) 52) as [Hlt|Hge]; cbn [orb].
  { unfold read_result. rewrite (proj2 (Z.ltb_ge _ _)) by lia. change (2 ^ 32 <=? 0 + 52) with false. cbn [orb].
    cbv zeta iota beta.
    assert (length (slice (Z.to_nat 0) (Z.to_nat 52) data) = length data) as -> by (unfold slice; rewrite length_take, length_drop; lia).
    rewrite u32_small by lia. rewrite (proj2 (Z.ltb_lt _ _)) by lia. exists (-1), p, m, b4. by split_and!. }
  rewrite (read_full path path' ip data before held closed Hlaws) by lia. change (u32 52 <? 52) with false. cbv iota.
  change (Z.to_nat 0) with 0%nat. change (Z.to_nat 52) with 52%nat. rewrite (length_slice 0 52) by lia. cbn [Nat.ltb Nat.leb].
  cbv zeta. fold (elf_of data).
  destruct (e_magic (elf_of data) =? ELF_MAGIC); cbn [negb]; [|exists (-1), p, m, b4; by split_and!].
  by apply (run_exec_image path path' ip data before held closed m d tabs us l top argv p last name b3).
Qed.
End ExecSpec.
