(* ===== verification/ExecFile.v ===== *)
(** * Programs on a volume of sfs

    The interface [exec] uses, [file_laws], is obeyed by the file system: the
    calls of [exec], answered by the definitions of [Vfs], [Vop] and [SfsInode]
    (the instance [exec_fs]), find, read and put back a file of an sfs volume
    as the laws say. *)

From stdpp Require Import base gmap strings numbers list.
From S2P Require Import Prelude Prog CString Layout Log LStore State FsLogic SfsBlock SfsInode SfsFile FatDir Vop Vfs VopSpec Exec ExecSpec.

(** The inode of a file with a name on a healthy volume, locked. *)
Record sfs_program (dev : Z) (ip : nat) (i : inode) (k : kmem) (l : lstore) : Prop := {
  sp_cached : cached k ip i;
  sp_ops : sfs_ops i;
  sp_type : i_type i <> T_DEV;
  sp_busy : i_has i I_BUSY = true;
  sp_ref : 1 <= i_ref i;
  sp_nlink : i_nlink i <> 0;
  sp_volume : volume_ok dev l;
  sp_file : file_ok dev i l;
  sp_held : ls_held l = ∅;
  sp_calm : calm l;
}.

(** Unlocked, with one reference less. *)
Definition released (i : inode) : inode := set_i_ref (i_ref (unlocked i) - 1) (unlocked i).

(** The bytes of the file. *)
Definition contents (i : inode) (l : lstore) : list Z := fdata i l 0 (i_size i).

Lemma length_contents dev i l : file_ok dev i l -> Z.of_nat (length (contents i l)) = i_size i.
Proof. intros Hf. pose proof (fo_size _ _ _ Hf). unfold contents, fdata. rewrite length_map, length_seqZ. lia. Qed.

Lemma contents_slice dev i l off n : file_ok dev i l -> 0 <= off <= i_size i -> 0 <= n ->
  slice (Z.to_nat off) (Z.to_nat n) (contents i l) = fdata i l off (Z.min n (i_size i - off)).
Proof.
  intros Hf Ho Hn. unfold contents, fdata, slice. rewrite skipn_map, firstn_map. f_equal.
  apply list_eq. intros j. destruct (decide (Z.of_nat j < Z.min n (i_size i - off))) as [Hj|Hj].
  - rewrite lookup_take_lt, lookup_drop by lia. rewrite !lookup_seqZ_lt by lia. f_equal. lia.
  - rewrite (lookup_seqZ_ge off) by lia. apply lookup_ge_None_2. rewrite length_take, length_drop, length_seqZ. lia.
Qed.

Lemma run_vop_iunlockput ip i k (l : lstore) :
  cached k ip i -> sfs_ops i -> i_has i I_BUSY = true -> 1 <= i_ref i -> i_nlink i <> 0 ->
  run (vop_iunlockput ip) k l = Ok (tt, set_inode ip (released i) k, l).
Proof.
  intros Hc Ho Hb Hr Hn. unfold vop_iunlockput. rewrite (run_vop_both _ _ _ _ _ _ Hc Ho). unfold sfs_iunlockput.
  rewrite run_bind. pose proof (run_vop_iunlock ip i k l Hc Ho Hb Hr) as Hu. unfold vop_iunlock in Hu.
  rewrite (run_vop_both _ _ _ _ _ _ Hc Ho) in Hu. rewrite Hu.
  assert (cached (set_inode ip (unlocked i) k) ip (unlocked i)) as Hc' by (by eapply cached_set).
  unfold sfs_iput. run_step run_get_inode. change (i_nlink (unlocked i)) with (i_nlink i).
  rewrite (proj2 (Z.eqb_neq _ _) Hn), andb_false_r. cbn [pbind]. by rewrite (run_upd_inode _ _ _ _ _ Hc'), set_set.
Qed.

(** A file that [vfs_lookup] finds and [ilock] can lock obeys the laws. *)
Lemma sfs_file_laws `{DevSw} `{Machine} dev path path' ip i k l k1 l1 k2 l2 :
  run (vfs_lookup path) k l = Ok ((Some ip, path'), k1, l1) ->
  run (vop_ilock ip) k1 l1 = Ok (tt, k2, l2) ->
  sfs_program dev ip i k2 l2 -> Forall is_byte (contents i l2) ->
  file_laws path path' ip (contents i l2) (fun s => s = (k, l)) (fun s => s = (k2, l2))
    (fun s => s = (set_inode ip (released i) k2, l2)).
Proof.
  intros Hlk Hlock Hp Hby. pose proof Hp as [Hc Ho Ht Hb Hr Hn Hv Hf Hh Hcalm]. pose proof (fo_size _ _ _ Hf) as Hsz. split.
  - intros b ->. exists (k1, l1), (k2, l2). cbn [st_step exec_fs fs_call fst snd]. by rewrite Hlk, Hlock.
  - intros b off n -> Hoff Hn'. exists (k2, l2). split; [|done]. cbn [st_step exec_fs fs_call fst snd]. unfold vop_read.
    rewrite (run_vop_both _ _ _ _ _ _ Hc Ho), (run_readi dev ip k2 i l2) by (try done; unfold uint_range; lia). unfold read_result.
    rewrite (length_contents dev) by done. destruct (Z.ltb_spec (i_size i) off) as [Hlt|Hge]; [done|]. destruct (_ <=? _); [done|].
    cbn [orb]. cbv zeta. rewrite (contents_slice dev) by (try done; lia). unfold fdata at 2. rewrite length_map, length_seqZ, Z2Nat.id by lia. done.
  - intros b ->. eexists. split; [|reflexivity]. cbn [st_step exec_fs fs_call fst snd]. by rewrite (run_vop_iunlockput ip i).
  - rewrite (length_contents dev) by done. lia.
  - done.
Qed.
