(* ===== verification/ExecDemo.v ===== *)
(** * A program is run

    The volume [mkfs] makes of one file, an ELF program of two segments, and
    the process of [VmDemo] that runs it with two arguments. *)

From stdpp Require Import base gmap strings numbers list.
From S2P Require Import Mkfs Prelude Prog CString Layout Log LStore Storage State FsLogic SfsBlock SfsInode SfsFile FatDir Vop Vfs VopSpec Console.
From S2P Require Import Demo Kalloc Vm VmSpec VmUser VmCopy VmDemo Exec ExecSpec ExecFile.

(** Two program headers after the ELF header: five bytes at address 0, in a
    segment of twelve, and two bytes at 4096. *)
Definition demo_elf : list Z :=
  le_enc 4 ELF_MAGIC ++ replicate 20 0 ++ le_enc 4 4 ++ le_enc 4 52 ++ replicate 12 0 ++ le_enc 2 2 ++ replicate 6 0 ++
  mjoin (le_enc 4 <$> [1; 116; 0; 0; 5; 12; 0; 0]) ++
  mjoin (le_enc 4 <$> [1; 121; 4096; 0; 2; 2; 0; 0]) ++
  [144; 144; 144; 144; 195; 7; 8].

(** "/init" *)
Definition demo_path : list Z := [47; 105; 110; 105; 116; 0].

#[local] Instance demo_machine : Machine := { cmos _ := 0; stack_junk := [] }.

(** The volume; the path looked up; the inode locked *)
Definition init_l : lstore :=
  let image := image_disk (ok_or blank (mkfs [(path "_init", demo_elf)])) in fs_boot (disk_geom image) image.
Definition found : kmem * lstore := final (vfs_lookup demo_path) demo_kmem init_l.
Definition locked_s : kmem * lstore := final (vop_ilock 1) found.1 found.2.
Definition init_i : inode := nth 1 (km_icache locked_s.1) inode0.

Lemma final_run {A} (c : fsprog A) k l x :
  match run c k l with Ok (y, _, _) => Some y | Fail _ => None end = Some x -> run c k l = Ok (x, (final c k l).1, (final c k l).2).
Proof. unfold final. destruct (run c k l) as [[[y k'] l']|]; [|done]. by intros [= ->]. Qed.

Lemma init_program : sfs_program ROOTDEV 1 init_i locked_s.1 locked_s.2.
Proof.
  split; [by vm_compute|right; by vm_compute|vm_compute; discriminate|by vm_compute|by vm_compute|by vm_compute|
    apply volume_okb_spec; by vm_compute|apply file_okb_spec; by vm_compute|by vm_compute|vm_compute; lia].
Qed.

Lemma init_bytes : contents init_i locked_s.2 = demo_elf.
Proof. by vm_compute. Qed.

Lemma init_found : run (vfs_lookup demo_path) demo_kmem init_l = Ok ((Some 1%nat, demo_path), found.1, found.2).
Proof. unfold found. apply final_run. vm_compute. reflexivity. Qed.

Lemma init_locked : run (vop_ilock 1) found.1 found.2 = Ok (tt, locked_s.1, locked_s.2).
Proof. unfold locked_s. apply final_run. vm_compute. reflexivity. Qed.

(** The file system obeys the laws at the file. *)
Lemma exec_file : file_laws demo_path demo_path 1 demo_elf (fun s => s = (demo_kmem, init_l)) (fun s => s = (locked_s.1, locked_s.2))
  (fun s => s = (set_inode 1 (released init_i) locked_s.1, locked_s.2)).
Proof.
  rewrite <- init_bytes.
  apply (sfs_file_laws ROOTDEV demo_path demo_path 1 init_i demo_kmem init_l found.1 found.2).
  - exact init_found.
  - exact init_locked.
  - exact init_program.
  - rewrite init_bytes. by apply (bool_decide_unpack _).
Qed.

(** The segments of the demo program. *)
Lemma demo_program : exists mem, program demo_elf = Image (4, 4098, mem) /\ mem 4 = 195 /\ mem 5 = 0 /\ mem 4097 = 8.
Proof.
  assert (match program demo_elf with Image (entry, sz, mem) => Some (entry, sz, mem 4, mem 5, mem 4097) | _ => None end = Some (4, 4098, 195, 0, 8))
    as Hp by (by vm_compute).
  destruct (program demo_elf) as [[[entry sz] mem]| |]; [|done..]. exists mem. injection Hp as -> -> -> -> ->. done.
Qed.

(** The same file with the second segment for address 4100, which [exec] does
    not survive. *)
Lemma unaligned_program : program (<[92%nat := 4]> demo_elf) = Unaligned.
Proof. by vm_compute. Qed.

Lemma exec_spec_witness :
  exists d us p' m', run (exec demo_path [[97; 98]; [99]] (mkuproc (d + KERNBASE) 10000 0 0 (replicate 16 0))) demo_proc (demo_kmem, init_l) =
      Ok (0, p', m', (set_inode 1 (released init_i) locked_s.1, locked_s.2)) /\
    u_eip p' = 4 /\ u_sz p' = 16384 /\ u_esp p' = 16384 - 8 - 24 /\ ubyte m' us 4097 = 8.
Proof.
  destruct demo_proc_ok as (d & tabs & zs & l & Ha & Hz & Hl).
  pose proof (exec_spec demo_path demo_path 1 demo_elf (fun s => s = (demo_kmem, init_l)) (fun s => s = (locked_s.1, locked_s.2))
    (fun s => s = (set_inode 1 (released init_i) locked_s.1, locked_s.2)) demo_proc d tabs (rw_pages zs) l 4098
    [[97; 98]; [99]] (mkuproc (d + KERNBASE) 10000 0 0 (replicate 16 0)) [105; 110; 105; 116; 0]
    ([105; 110; 105; 116] ++ replicate 12 0) (demo_kmem, init_l)) as Hres.
  destruct demo_program as (mem & Hp & _ & _ & H4097). rewrite Hp in Hres. cbn [exec_end] in Hres.
  destruct Hres as (r & p' & m' & b' & Hr & -> & Hres).
  - exact exec_file.
  - reflexivity.
  - exact Ha.
  - reflexivity.
  - vm_compute. split; discriminate.
  - change (Z.to_nat (npages 4098)) with 2%nat. lia.
  - by vm_compute.
  - by apply (bool_decide_unpack _).
  - by vm_compute.
  - by vm_compute.
  - change (args_fit _ _) with true in Hres.
    destruct Hres as [-> [(Hsz & Heip & Hesp & _) (d' & tabs' & us' & l' & _ & _ & _ & _ & _ & Hmem & _)]].
    exists d, us', p', m'. split; [exact Hr|]. split; [exact Heip|]. split; [rewrite Hsz; reflexivity|].
    split; [rewrite Hesp, Hsz; reflexivity|]. rewrite Hmem; [exact H4097|]. vm_compute. split; [discriminate|reflexivity].
Defined.
