(* ===== verification/Usys.v ===== *)
(** * User programs: system calls and [ulib.c]

    A user program is a tree of system calls.  The kernel's side of a call is
    the [Store] the tree is run on; [exit] ends the tree.  A call that fills a
    buffer returns the bytes it stored besides its result. *)

From stdpp Require Import base gmap strings numbers list.
From S2P Require Import Prelude Prog Printf.

(** [struct stat] *)
Record ustat := mkustat { st_type : Z; st_dev : Z; st_ino : Z; st_nlink : Z; st_size : Z; st_fstype : Z }.

(** The calls of [user.h]. *)
Inductive usysE : Type -> Type :=
| URead (fd n : Z) : usysE (Z * str)
| UWrite (fd : Z) (bytes : str) : usysE Z
| UOpen (path : str) (mode : Z) : usysE Z
| UClose (fd : Z) : usysE Z
| UFstat (fd : Z) : usysE (Z * ustat)
| UDup (fd : Z) : usysE Z
| UPipe : usysE (Z * Z * Z)
| UUnlink (path : str) : usysE Z
| ULink (old new : str) : usysE Z
| UMkdir (path : str) : usysE Z
| UMknod (path : str) (major minor : Z) : usysE Z
| UChdir (path : str) : usysE Z
| UGetcwd (n : Z) : usysE (Z * str)
| UCopy (src dst : str) : usysE Z
| UMove (src dst : str) : usysE Z
| URemove (path : str) : usysE Z
| UTouch (path : str) : usysE Z
| UFork : usysE Z
| UWait : usysE Z
| UKill (pid : Z) : usysE Z
| USleep (n : Z) : usysE Z
| UHalt : usysE Z
| UExec (path : str) (argv : list str) : usysE Z.

(** [None]: the program has called [exit]. *)
Abbreviation uprog R := (prog usysE unit (option R)).

Definition uret {A} (x : A) : uprog A := Ret (Some x).
Definition exit {A} : uprog A := Ret None.
Definition sys {X} (e : usysE X) : uprog X := Vis e (fun x => Ret (Some x)).
Definition ubind {A B} (c : uprog A) (f : A -> uprog B) : uprog B :=
  o <- c;; match o with Some x => f x | None => Ret None end.

Notation "'do*' x := c1 'in' c2" := (ubind c1 (fun y => match y with x => c2 end))
  (at level 10, x pattern, c1 at level 100, c2 at level 200) : xv6_scope.
Notation "c1 ;*; c2" := (ubind c1 (fun _ => c2)) (at level 62, right associativity) : xv6_scope.

(** A [while] loop: [inl] goes round again. *)
Fixpoint uwhile {S R} (fuel : nat) (body : S -> uprog (S + R)) (s : S) : uprog R :=
  match fuel with
  | O => Stop OutOfFuel
  | S fuel => do* x := body s in match x with inl s' => uwhile fuel body s' | inr r => uret r end
  end.

Fixpoint ufor_each {A} (l : list A) (body : A -> uprog unit) : uprog unit :=
  match l with
  | [] => uret tt
  | x :: l => body x;*; ufor_each l body
  end.

Definition ulift {A} (o : outcome A) : uprog A := match o with Ok a => uret a | Fail e => Stop e end.

Section UserRun.
Context {B : Type} `{Store usysE B}.

Lemma run_ubind {A C} (c : uprog A) (f : A -> uprog C) k b :
  run (ubind c f) k b =
    match run c k b with
    | Ok (Some x, k', b') => run (f x) k' b'
    | Ok (None, k', b') => Ok (None, k', b')
    | Fail e => Fail e
    end.
Proof. unfold ubind. rewrite run_bind. by destruct (run c k b) as [[[[x|] k'] b']|]. Qed.

Lemma run_sys {X} (e : usysE X) k b :
  run (sys e) k b = match st_step e b with Ok (x, b') => Ok (Some x, k, b') | Fail e => Fail e end.
Proof. cbn. by destruct (st_step e b) as [[x b']|]. Qed.
End UserRun.

(** ** Formatted output *)

(** An argument of [printf]: a number or a string. *)
Inductive parg := PInt (v : Z) | PStr (s : str).

(** The words on the stack: a string is its position, as an address. *)
Fixpoint arg_words (i : Z) (l : list parg) : list Z :=
  match l with
  | [] => []
  | PInt v :: l => u32 v :: arg_words (i + 1) l
  | PStr _ :: l => i :: arg_words (i + 1) l
  end.
Definition arg_load (l : list parg) (a : Z) : str :=
  match l !! Z.to_nat (a - 1) with Some (PStr s) => s | _ => [] end.

(** [printf(fd, fmt, ...)]: one [write] per character *)
Definition uprintf (fd : Z) (fmt : str) (args : list parg) : uprog unit :=
  do* out := ulift (printf digits_upper (arg_load args) fmt (arg_words 1 args)) in
  ufor_each out (fun c => sys (UWrite fd [c]);*; uret tt).

(** A string constant of the source. *)
Definition lit (s : string) : str := (fun c => Z.of_nat (Ascii.nat_of_ascii c)) <$> String.list_ascii_of_string s.
Definition nl : Z := 10.
Definition line (s : string) : str := lit s ++ [nl].

(** ** [ulib.c] *)

(** [while( *p && *p == *q) p++, q++; return *p - *q;] on strings without
    their NULs *)
Fixpoint strcmp (p q : str) : Z :=
  match p, q with
  | [], [] => 0
  | [], c :: _ => - c
  | c :: _, [] => c
  | c :: p, d :: q => if c =? d then strcmp p q else c - d
  end.

(** [gets(buf, max)]: at most [max - 1] characters, up to the end of a line *)
Fixpoint gets_loop (room : nat) (buf : str) : uprog str :=
  match room with
  | O => uret buf
  | S room =>
      do* (cc, bytes) := sys (URead 0 1) in
      if cc <? 1 then uret buf
      else
        match bytes with
        | [] => Stop (Undef "c is not set")
        | c :: _ =>
            let buf := buf ++ [c] in
            if (c =? 10) || (c =? 13) then uret buf else gets_loop room buf
        end
  end.
Definition gets (max : Z) : uprog str := gets_loop (Z.to_nat (max - 1)) [].

Definition O_RDONLY : Z := 0.
Definition O_WRONLY : Z := 1.
Definition O_RDWR : Z := 2.
Definition O_CREATE : Z := 0x200.

Definition stat (n : str) : uprog (Z * ustat) :=
  do* fd := sys (UOpen n O_RDONLY) in
  if fd <? 0 then uret (-1, mkustat 0 0 0 0 0 0)
  else
    do* (r, st) := sys (UFstat fd) in
    sys (UClose fd);*;
    uret (r, st).

(** ** Programs that make one kind of call *)

(** [for(i = 1; i < argc; i++)] over [argv + 1] *)
Definition echo_main (args : list str) : uprog unit :=
  (fix go (l : list str) : uprog unit :=
     match l with
     | [] => exit
     | a :: l => uprintf 1 (lit "%s%s") [PStr a; PStr (match l with [] => [nl] | _ => [32] end)];*; go l
     end) args.

Definition kill_main (argv : list str) : uprog unit :=
  if (length argv <? 1)%nat then uprintf 2 (line "usage: kill pid...") [];*; exit
  else ufor_each (tail argv) (fun a => sys (UKill (atoi a));*; uret tt);*; exit.

Definition mkdir_main (argv : list str) : uprog unit :=
  if (length argv <? 2)%nat then uprintf 2 (line "Usage: mkdir files...") [];*; exit
  else
    (fix go (l : list str) : uprog unit :=
       match l with
       | [] => exit
       | a :: l =>
           do* r := sys (UMkdir a) in
           if r <? 0 then uprintf 2 (line "mkdir: %s failed to create") [PStr a];*; exit else go l
       end) (tail argv).

Definition ln_main (argv : list str) : uprog unit :=
  match argv with
  | [_; old; new] =>
      do* r := sys (ULink old new) in
      (if r <? 0 then uprintf 2 (line "link %s %s: failed") [PStr old; PStr new] else uret tt);*; exit
  | _ => uprintf 2 (line "Usage: ln old new") [];*; exit
  end.

Definition rm_main (argv : list str) : uprog unit :=
  match argv with
  | [] | [_] => uprintf 2 (line "Usage: rm files or rm -r dir...") [];*; exit
  | _ :: a1 :: rest =>
      if (strcmp a1 (lit "-r") =? 0) || (strcmp a1 (lit "-R") =? 0) then
        match rest with
        | [dir] =>
            do* r := sys (URemove dir) in
            if r <? 0 then uprintf 2 (line "rm: %s failed to delete folder") [PStr dir];*; exit else exit
        | _ => uprintf 2 (line "rm: too much arguments...") [];*; exit
        end
      else
        (fix go (l : list str) : uprog unit :=
           match l with
           | [] => exit
           | a :: l =>
               do* r := sys (UUnlink a) in
               if r <? 0 then uprintf 2 (line "rm: %s failed to delete") [PStr a];*; exit else go l
           end) (a1 :: rest)
  end.

Definition filemove (srcpath destpath : str) : uprog unit :=
  do* r := sys (UMove srcpath destpath) in
  if r <? 0 then uprintf 2 (line "mv: %s failed to move") [PStr srcpath] else uret tt.
Definition mv_main (argv : list str) : uprog unit :=
  match argv with
  | _ :: src :: dst :: _ => filemove src dst;*; exit
  | _ => uprintf 2 (line "Usage: mv srcpath destpath...") [];*; exit
  end.

Definition filecopy (srcpath destpath : str) : uprog unit :=
  do* r := sys (UCopy srcpath destpath) in
  if r <? 0 then uprintf 2 (line "cp: %s failed to copy") [PStr srcpath] else uret tt.
Definition cp_main (argv : list str) : uprog unit :=
  match argv with
  | _ :: src :: dst :: _ => filecopy src dst;*; exit
  | _ => uprintf 2 (line "Usage: cp srcpath destpath...") [];*; exit
  end.

Definition filecreate (path : str) : uprog unit :=
  do* r := sys (UTouch path) in
  if r <? 0 then uprintf 2 (line "touch: %s failed to create") [PStr path] else uret tt.
Definition touch_main (argv : list str) : uprog unit :=
  match argv with
  | _ :: path :: _ => filecreate path;*; exit
  | _ => uprintf 2 (line "Usage: touch filepath...") [];*; exit
  end.

Definition pwd_main : uprog Z :=
  do* (r, dir) := sys (UGetcwd 100) in
  if negb (r =? 0) then uprintf 2 (line "Couldn`t get current working directory!") [];*; uret 1
  else uprintf 2 (lit "%s" ++ [nl]) [PStr dir];*; exit.

Definition zombie_main : uprog unit :=
  do* pid := sys UFork in
  (if 0 <? pid then sys (USleep 5);*; uret tt else uret tt);*; exit.

Definition halt_main : uprog Z := sys UHalt;*; uret 0.

(** [for(;;)] of [init], [fuel] times *)
Definition init_main (fuel : nat) : uprog unit :=
  uprintf 1 (line "enter init.c..............") [];*;
  do* r := sys (UOpen (lit "console") O_RDWR) in
  (if r <? 0 then sys (UMknod (lit "console") 1 1);*; sys (UOpen (lit "console") O_RDWR);*; uret tt else uret tt);*;
  sys (UDup 0);*;
  sys (UDup 0);*;
  uwhile fuel (fun _ : unit =>
    uprintf 1 (line "init: starting sh") [];*;
    do* pid := sys UFork in
    if pid <? 0 then uprintf 1 (line "init: fork failed") [];*; exit
    else if pid =? 0 then
      sys (UExec (lit "sh") [lit "sh"]);*;
      uprintf 1 (line "init: exec sh failed") [];*; exit
    else
      uwhile fuel (fun _ : unit =>
        do* wpid := sys UWait in
        if (0 <=? wpid) && negb (wpid =? pid) then uprintf 1 (line "zombie!") [];*; uret (inl tt)
        else uret (inr tt)) tt;*;
      uret (inl tt)) tt.
