(* ===== verification/Utext.v ===== *)
(** * Programs that read text: [cat.c], [wc.c], [head.c], [tail.c], [more.c], [grep.c]

    A read may return fewer bytes than asked for, and the programs must not
    depend on where the input is cut.  [buf] is the whole array: what a short
    read leaves in it is still there. *)

From stdpp Require Import base gmap strings numbers list.
From S2P Require Import Prelude Prog CString Printf Usys Grep.

(** ** [cat] *)

(** [while((n = read(fd, buf, sizeof(buf))) > 0) write(1, buf, n);] *)
Definition cat (fuel : nat) (fd : Z) : uprog unit :=
  do* n := uwhile fuel (fun _ : unit =>
    do* (n, bytes) := sys (URead fd 512) in
    if 0 <? n then sys (UWrite 1 bytes);*; uret (inl tt) else uret (inr n)) tt in
  if n <? 0 then uprintf 1 (line "cat: read error") [];*; exit else uret tt.

(** [argv] without the program's name *)
Definition cat_main (fuel : nat) (args : list str) : uprog unit :=
  match args with
  | [] => cat fuel 0;*; exit
  | _ =>
      ufor_each args (fun a =>
        do* fd := sys (UOpen a 0) in
        if fd <? 0 then uprintf 1 (line "cat: cannot open %s") [PStr a];*; exit
        else cat fuel fd;*; sys (UClose fd);*; uret tt);*; exit
  end.

(** ** [wc] *)

(** " \r\t\n\v" *)
Definition space (c : Z) : bool := negb (c =? 0) && existsb (fun x => x =? c) [32; 13; 9; 10; 11].

(** The body of the loop over the characters: [l], [w], [c], [inword] *)
Definition wc_char (s : Z * Z * Z * bool) (x : Z) : Z * Z * Z * bool :=
  let '(l, w, c, inword) := s in
  let c := s32 (c + 1) in
  let l := if x =? nl then s32 (l + 1) else l in
  if space x then (l, w, c, false)
  else if negb inword then (l, s32 (w + 1), c, true) else (l, w, c, inword).

Definition wc (fuel : nat) (fd : Z) (name : str) : uprog unit :=
  do* (n, s) := uwhile fuel (fun s =>
    do* (n, bytes) := sys (URead fd 512) in
    if 0 <? n then uret (inl (foldl wc_char s bytes)) else uret (inr (n, s))) (0, 0, 0, false) in
  let '(l, w, c, _) := s in
  if n <? 0 then uprintf 1 (line "wc: read error") [];*; exit
  else uprintf 1 (line "%d %d %d %s") [PInt l; PInt w; PInt c; PStr name].

Definition wc_main (fuel : nat) (args : list str) : uprog unit :=
  match args with
  | [] => wc fuel 0 [];*; exit
  | _ =>
      ufor_each args (fun a =>
        do* fd := sys (UOpen a 0) in
        if fd <? 0 then uprintf 1 (line "wc: cannot open %s") [PStr a];*; exit
        else wc fuel fd a;*; sys (UClose fd);*; uret tt);*; exit
  end.

(** ** Line by line *)

(** [strchr(p, c)] in an array that may lack a NUL *)
Fixpoint strchr (l : str) (c : Z) : outcome (option nat) :=
  match l with
  | [] => oob
  | x :: l =>
      if x =? 0 then Ok None
      else if x =? c then Ok (Some 0%nat)
      else let? r := strchr l c in Ok (S <$> r)
  end.

(** [if(p == buf) m = 0; if(m > 0){ m -= p - buf; memmove(buf, p, m); }]:
    with [p] beyond what was read [m] is negative, and nothing is moved *)
Definition shift_buf (buf : str) (p : nat) (m : Z) : str * Z :=
  let m := if (p =? 0)%nat then 0 else m in
  if 0 <? m then
    let m := m - Z.of_nat p in
    (splice 0 (slice p (Z.to_nat m) buf) buf, m)
  else (buf, m).

(** The part of [head], [tail], [more] and [grep] that reads into what is left
    of [buf]: [None] at the end. *)
Definition fill_buf (fd : Z) (buf : str) (m : Z) : uprog (option (str * Z)) :=
  do* (n, bytes) := sys (URead fd (1024 - m)) in
  if 0 <? n then
    if m <? 0 then Stop (Undef "access outside a buffer")
    else uret (Some (splice (Z.to_nat m) bytes buf, m + n))
  else uret None.

Definition BUF : str := replicate 1024 0.

(** The lines in [buf] from [p] on: stops with [inr] at the tenth. *)
Definition head_lines (buf : str) (count : Z) : uprog ((str * nat * Z) + unit) :=
  uwhile 1025 (fun '(buf, p, count) =>
    do* q := ulift (strchr (drop p buf) nl) in
    match q with
    | None => uret (inr (inl (buf, p, count)))
    | Some k =>
        let q := (p + k)%nat in
        let buf := <[q := nl]> buf in
        sys (UWrite 1 (slice p (q + 1 - p) buf));*;
        let buf := <[q := 0]> buf in
        if count + 1 =? 10 then uret (inr (inr tt)) else uret (inl (buf, (q + 1)%nat, count + 1))
    end) (buf, 0%nat, count).

Definition head (fuel : nat) (fd : Z) : uprog unit :=
  uwhile fuel (fun '(buf, m, count) =>
    do* x := fill_buf fd buf m in
    match x with
    | None => uret (inr tt)
    | Some (buf, m) =>
        do* r := head_lines buf count in
        match r with
        | inr _ => uret (inr tt)
        | inl (buf, p, count) => let '(buf, m) := shift_buf buf p m in uret (inl (buf, m, count))
        end
    end) (BUF, 0, 0).

Definition head_main (fuel : nat) (argv : list str) : uprog unit :=
  match argv with
  | _ :: a :: _ =>
      do* fd := sys (UOpen a 0) in
      if fd <? 0 then uprintf 1 (line "head: cannot open %s") [PStr a];*; exit
      else head fuel fd;*; sys (UClose fd);*; exit
  | _ => uprintf 2 (line "usage: head filename ...") [];*; exit
  end.

(** [more]: after ten lines it asks, and goes on unless told to quit *)
Definition more_lines (buf : str) (count : Z) : uprog ((str * nat * Z) + unit) :=
  uwhile 1025 (fun '(buf, p, count) =>
    do* q := ulift (strchr (drop p buf) nl) in
    match q with
    | None => uret (inr (inl (buf, p, count)))
    | Some k =>
        let q := (p + k)%nat in
        let buf := <[q := nl]> buf in
        sys (UWrite 1 (slice p (q + 1 - p) buf));*;
        let buf := <[q := 0]> buf in
        let next count := uret (inl (buf, (q + 1)%nat, count)) in
        if count + 1 =? 10 then
          uprintf 1 (line "Press 'C' to continue. Press 'Q' to quit") [];*;
          do* key := gets 2 in
          if strcmp key (lit "c") =? 0 then next 0
          else if strcmp key (lit "q") =? 0 then uret (inr (inr tt))
          else next (count + 1)
        else next (count + 1)
    end) (buf, 0%nat, count).

Definition more (fuel : nat) (fd : Z) : uprog unit :=
  uwhile fuel (fun '(buf, m, count) =>
    do* x := fill_buf fd buf m in
    match x with
    | None => uret (inr tt)
    | Some (buf, m) =>
        do* r := more_lines buf count in
        match r with
        | inr _ => uret (inr tt)
        | inl (buf, p, count) => let '(buf, m) := shift_buf buf p m in uret (inl (buf, m, count))
        end
    end) (BUF, 0, 0).

Definition more_main (fuel : nat) (argv : list str) : uprog unit :=
  match argv with
  | _ :: a :: _ =>
      do* fd := sys (UOpen a 0) in
      if fd <? 0 then uprintf 1 (line "more: cannot open %s") [PStr a];*; exit
      else more fuel fd;*; sys (UClose fd);*; exit
  | _ => uprintf 2 (line "usage: more filename ...") [];*; exit
  end.

(** ** [tail] *)

Definition count_lines (buf : str) (count : Z) : uprog (str * nat * Z) :=
  uwhile 1025 (fun '(buf, p, count) =>
    do* q := ulift (strchr (drop p buf) nl) in
    match q with
    | None => uret (inr (buf, p, count))
    | Some k => let q := (p + k)%nat in uret (inl (<[q := 0]> buf, (q + 1)%nat, count + 1))
    end) (buf, 0%nat, count).

Definition last_lines (buf : str) (count : Z) : uprog (str * nat * Z) :=
  uwhile 1025 (fun '(buf, p, count) =>
    do* q := ulift (strchr (drop p buf) nl) in
    match q with
    | None => uret (inr (buf, p, count))
    | Some k =>
        let q := (p + k)%nat in
        let count := count - 1 in
        (if count <? 10 then sys (UWrite 1 (slice p (q + 1 - p) (<[q := nl]> buf)));*; uret tt else uret tt);*;
        uret (inl (<[q := 0]> buf, (q + 1)%nat, count))
    end) (buf, 0%nat, count).

(** One pass over the file. *)
Definition tail_pass (fuel : nat) (fd : Z) (lines : str -> Z -> uprog (str * nat * Z)) (buf : str) (count : Z) : uprog (str * Z) :=
  uwhile fuel (fun '(buf, m, count) =>
    do* x := fill_buf fd buf m in
    match x with
    | None => uret (inr (buf, count))
    | Some (buf, m) =>
        do* (buf, p, count) := lines buf count in
        let '(buf, m) := shift_buf buf p m in uret (inl (buf, m, count))
    end) (buf, 0, count).

Definition tail (fuel : nat) (filepath : str) : uprog unit :=
  do* fd := sys (UOpen filepath 0) in
  if fd <? 0 then uprintf 1 (line "tail: cannot open %s") [PStr filepath];*; exit
  else
    do* (buf, count) := tail_pass fuel fd count_lines BUF 0 in
    sys (UClose fd);*;
    do* fd := sys (UOpen filepath 0) in
    if fd <? 0 then uprintf 1 (line "tail: cannot open %s") [PStr filepath];*; exit
    else if count <=? 10 then
      do* n := uwhile fuel (fun _ : unit =>
        do* (n, bytes) := sys (URead fd 1024) in
        if 0 <? n then sys (UWrite 1 bytes);*; uret (inl tt) else uret (inr n)) tt in
      if n <? 0 then uprintf 1 (line "tail: read error") [] else uret tt
    else tail_pass fuel fd last_lines buf count;*; uret tt.

Definition tail_main (fuel : nat) (argv : list str) : uprog unit :=
  match argv with
  | _ :: a :: _ => tail fuel a;*; exit
  | _ => uprintf 2 (line "usage: tail filename ...") [];*; exit
  end.

(** ** [grep] *)

Definition grep_lines (pattern buf : str) : uprog (str * nat) :=
  uwhile 1025 (fun '(buf, p) =>
    do* q := ulift (strchr (drop p buf) nl) in
    match q with
    | None => uret (inr (buf, p))
    | Some k =>
        let q := (p + k)%nat in
        let buf := <[q := 0]> buf in
        do* hit := ulift (match_ (pattern ++ [0]) (drop p buf)) in
        if hit : bool then
          let buf := <[q := nl]> buf in
          sys (UWrite 1 (slice p (q + 1 - p) buf));*; uret (inl (buf, (q + 1)%nat))
        else uret (inl (buf, (q + 1)%nat))
    end) (buf, 0%nat).

Definition grep (fuel : nat) (pattern : str) (fd : Z) (buf : str) : uprog str :=
  uwhile fuel (fun '(buf, m) =>
    do* x := fill_buf fd buf m in
    match x with
    | None => uret (inr buf)
    | Some (buf, m) => do* (buf, p) := grep_lines pattern buf in uret (inl (shift_buf buf p m))
    end) (buf, 0).

Definition grep_main (fuel : nat) (argv : list str) : uprog unit :=
  match argv with
  | [] | [_] => uprintf 2 (line "usage: grep pattern [file ...]") [];*; exit
  | [_; pattern] => grep fuel pattern 0 BUF;*; exit
  | _ :: pattern :: files =>
      (fix go (files : list str) (buf : str) : uprog unit :=
         match files with
         | [] => exit
         | a :: files =>
             do* fd := sys (UOpen a 0) in
             if fd <? 0 then uprintf 1 (line "grep: cannot open %s") [PStr a];*; exit
             else do* buf := grep fuel pattern fd buf in sys (UClose fd);*; go files buf
         end) files BUF
  end.

(** ** An input that arrives in pieces *)

(** The pieces still to come, and what has been written to which descriptor. *)
Record uenv := mkuenv { en_in : list str; en_out : list (Z * str) }.

(** A read takes a piece, or the part of it there is room for; an open
    succeeds. *)
Definition take_piece (n : Z) (e : uenv) : (Z * str) * uenv :=
  match en_in e with
  | [] => ((0, []), e)
  | c :: r =>
      let k := take (Z.to_nat n) c in
      ((Z.of_nat (length k), k),
       mkuenv (match drop (Z.to_nat n) c with [] => r | c' => c' :: r end) (en_out e))
  end.

#[global] Instance pieces : Store usysE uenv := {
  st_step X e s :=
    match e in usysE X return outcome (X * uenv) with
    | URead fd n => Ok (take_piece n s)
    | UWrite fd bytes => Ok (Z.of_nat (length bytes), mkuenv (en_in s) (en_out s ++ [(fd, bytes)]))
    | UOpen path mode => Ok (3, s)
    | UFstat fd => Ok ((-1, mkustat 0 0 0 0 0 0), s)
    | UPipe => Ok ((-1, 0, 0), s)
    | UGetcwd n => Ok ((-1, []), s)
    | UClose fd => Ok (0, s) | UDup fd => Ok (fd + 1, s)
    | UUnlink _ | UMkdir _ | UChdir _ | URemove _ | UTouch _ => Ok (0, s)
    | ULink _ _ | UCopy _ _ | UMove _ _ | UMknod _ _ _ | UExec _ _ => Ok (0, s)
    | UFork | UWait | UHalt => Ok (0, s) | UKill _ | USleep _ => Ok (0, s)
    end;
  st_trace X e s := [];
  st_disk s := ∅;
}.

(** What has been written to descriptor [fd]. *)
Definition written (fd : Z) (o : list (Z * str)) : str := mjoin (snd <$> filter (fun x => fst x = fd) o).

Definition input (e : uenv) : str := mjoin (en_in e).
Definition real_pieces (e : uenv) : Prop := Forall (fun c => c <> []) (en_in e).

Lemma written_app fd o o' : written fd (o ++ o') = written fd o ++ written fd o'.
Proof. unfold written. rewrite filter_app, fmap_app. apply join_app. Qed.

Lemma written_one fd s : written fd [(fd, s)] = s.
Proof. unfold written. rewrite filter_cons_True by done. rewrite filter_nil. cbn. apply app_nil_r. Qed.

(** A read gives a prefix of what is left, and something unless it is the
    end. *)
Lemma take_piece_spec n e : 0 < n -> real_pieces e ->
  exists k e', take_piece n e = ((Z.of_nat (length k), k), e') /\ real_pieces e' /\ en_out e' = en_out e /\
    input e = k ++ input e' /\ (k = [] -> input e = []).
Proof.
  intros Hn Hr. unfold take_piece, input, real_pieces in *. destruct (en_in e) as [|c r] eqn:He.
  - exists [], e. rewrite He. done.
  - apply Forall_cons in Hr as [Hc Hr]. exists (take (Z.to_nat n) c). eexists. split; [done|]. cbn [en_in en_out].
    split_and!.
    + destruct (drop _ c) eqn:Hd; [done|]. by constructor.
    + done.
    + change (mjoin (c :: r)) with (c ++ mjoin r). rewrite <- (take_drop (Z.to_nat n) c) at 1. rewrite <- app_assoc. f_equal.
      by destruct (drop (Z.to_nat n) c).
    + intros Ht. destruct c as [|x c]; [done|]. destruct (Z.to_nat n) eqn:Hz; [lia|done].
Qed.

(** ** [cat] copies *)

Lemma cat_loop fuel : forall fd e, real_pieces e -> (length (input e) < fuel)%nat ->
  exists e', run (uwhile fuel (fun _ : unit =>
      do* (n, bytes) := sys (URead fd 512) in
      if 0 <? n then sys (UWrite 1 bytes);*; uret (inl tt) else uret (inr n)) tt) tt e = Ok (Some 0, tt, e') /\
    input e' = [] /\ written 1 (en_out e') = written 1 (en_out e) ++ input e.
Proof.
  induction fuel as [|fuel IH]; intros fd e Hr Hf; [lia|]. cbn [uwhile]. rewrite !run_ubind, run_sys. cbn [st_step pieces].
  destruct (take_piece_spec 512 e ltac:(lia) Hr) as (k & e1 & -> & Hr1 & Ho & Hin & Hend).
  destruct k as [|x k].
  - pose proof (Hend eq_refl) as He0. rewrite He0 in Hin |- *. cbn [app] in Hin. exists e1. split_and!; [done|by rewrite <- Hin|by rewrite Ho, app_nil_r].
  - rewrite (proj2 (Z.ltb_lt _ _)) by (cbn; lia). rewrite run_ubind, run_sys. cbn [st_step pieces run uret].
    rewrite Hin, length_app in Hf. cbn [length] in Hf.
    destruct (IH fd (mkuenv (en_in e1) (en_out e1 ++ [(1, x :: k)]))) as (e' & Hrun & Hi & Hw); [done|unfold input; cbn [en_in]; unfold input in Hf; lia|].
    exists e'. split_and!; [exact Hrun|done|]. rewrite Hw. cbn [en_out]. rewrite written_app, written_one, Ho, Hin, <- app_assoc. done.
Qed.

(** [wc]'s counters after the characters [s]. *)
Definition starts (s : str) : Z := Z.of_nat (length (filter (fun x => space (fst x) = true /\ space (snd x) = false) (zip (32 :: s) s))).
Definition newlines (s : str) : Z := Z.of_nat (length (filter (fun x => x = nl) s)).

Definition counts (s : str) : Z * Z * Z * bool :=
  (newlines s, starts s, Z.of_nat (length s), match last s with Some c => negb (space c) | None => false end).

Lemma zip_snoc (x : Z) (s : str) (c : Z) : zip (x :: s ++ [c]) (s ++ [c]) = zip (x :: s) s ++ [(default x (last s), c)].
Proof.
  revert x. induction s as [|y s IH]; intros x; [done|]. cbn [app]. change (zip (x :: y :: s ++ [c]) (y :: s ++ [c])) with ((x, y) :: zip (y :: s ++ [c]) (s ++ [c])).
  rewrite IH. change (zip (x :: y :: s) (y :: s)) with ((x, y) :: zip (y :: s) s). cbn [app].
  rewrite last_cons. by destruct (last s).
Qed.

Lemma counts_snoc s c : Z.of_nat (length s) + 1 < 2 ^ 31 -> wc_char (counts s) c = counts (s ++ [c]).
Proof.
  intros Hl. unfold wc_char, counts. assert (0 <= newlines s <= Z.of_nat (length s)) as Hn.
  { unfold newlines. pose proof (length_filter (fun x => x = nl) s). lia. }
  assert (0 <= starts s <= Z.of_nat (length s)) as Hs.
  { unfold starts. pose proof (length_filter (fun x => space (fst x) = true /\ space (snd x) = false) (zip (32 :: s) s)) as Hz.
    rewrite length_zip_with in Hz. cbn [length] in Hz. lia. }
  assert (newlines (s ++ [c]) = if c =? nl then newlines s + 1 else newlines s) as ->.
  { unfold newlines. rewrite filter_app, length_app, filter_cons, filter_nil. destruct (Z.eqb_spec c nl) as [->|Hne].
    - rewrite decide_True by done. cbn [length]. lia.
    - rewrite decide_False by done. cbn [length]. lia. }
  assert (starts (s ++ [c]) = if space (default 32 (last s)) && negb (space c) then starts s + 1 else starts s) as ->.
  { unfold starts. rewrite zip_snoc, filter_app, length_app, filter_cons, filter_nil. cbn [fst snd].
    destruct (space (default 32 (last s))), (space c); cbn [andb negb]; case_decide as Hd; try (by destruct Hd); cbn [length]; try lia;
      exfalso; apply Hd; done. }
  rewrite last_snoc, length_app. cbn [length]. rewrite !s32_small by lia.
  replace (Z.of_nat (length s + 1)) with (Z.of_nat (length s) + 1) by lia.
  destruct (last s) as [x|] eqn:Hlast; cbn [default from_option id].
  - destruct (space x), (space c), (c =? nl); done.
  - change (space 32) with true. destruct (space c), (c =? nl); done.
Qed.

Lemma counts_app s t : Z.of_nat (length (s ++ t)) < 2 ^ 31 -> foldl wc_char (counts s) t = counts (s ++ t).
Proof.
  revert s. induction t as [|c t IH]; intros s Hl; cbn [foldl]; [by rewrite app_nil_r|]. rewrite length_app in Hl. cbn [length] in Hl.
  rewrite counts_snoc by lia. rewrite IH by (rewrite !length_app; cbn [length]; lia). by rewrite <- app_assoc.
Qed.

Lemma wc_loop fuel : forall fd e s, real_pieces e -> (length (input e) < fuel)%nat -> Z.of_nat (length (s ++ input e)) < 2 ^ 31 ->
  exists e', run (uwhile fuel (fun s =>
      do* (n, bytes) := sys (URead fd 512) in
      if 0 <? n then uret (inl (foldl wc_char s bytes)) else uret (inr (n, s))) (counts s)) tt e = Ok (Some (0, counts (s ++ input e)), tt, e') /\
    en_out e' = en_out e.
Proof.
  induction fuel as [|fuel IH]; intros fd e s Hr Hf Hl; [lia|]. cbn [uwhile]. rewrite !run_ubind, run_sys. cbn [st_step pieces].
  destruct (take_piece_spec 512 e ltac:(lia) Hr) as (k & e1 & -> & Hr1 & Ho & Hin & Hend).
  destruct k as [|x k].
  - exists e1. rewrite (Hend eq_refl), app_nil_r. done.
  - rewrite (proj2 (Z.ltb_lt _ _)) by (cbn; lia). cbn [run uret]. rewrite Hin, app_assoc in *. rewrite !length_app in *. cbn [length] in Hf.
    rewrite counts_app by (rewrite length_app; lia).
    destruct (IH fd e1 (s ++ x :: k)) as (e' & Hrun & Ho'); [done|lia|rewrite !length_app; lia|].
    exists e'. split; [exact Hrun|]. by rewrite Ho', Ho.
Qed.

(** Characters written one at a time. *)
Lemma run_put_all fd out e :
  run (ufor_each out (fun c => sys (UWrite fd [c]);*; uret tt)) tt e =
    Ok (Some tt, tt, mkuenv (en_in e) (en_out e ++ ((fun c => (fd, [c])) <$> out))).
Proof.
  revert e. induction out as [|c out IH]; intros e; cbn [ufor_each].
  - cbn. rewrite app_nil_r. by destruct e.
  - rewrite !run_ubind, run_sys. cbn [st_step pieces run uret]. rewrite IH. cbn [en_in en_out fmap list_fmap]. by rewrite <- app_assoc.
Qed.

Lemma written_all fd (out : str) : written fd ((fun c => (fd, [c])) <$> out) = out.
Proof.
  induction out as [|c out IH]; [done|]. change ((fun c => (fd, [c])) <$> c :: out) with ([(fd, [c])] ++ ((fun c => (fd, [c])) <$> out)).
  by rewrite written_app, written_one, IH.
Qed.

(** The line [wc] prints. *)
Lemma wc_line e l w c name :
  0 <= l < 2 ^ 31 -> 0 <= w < 2 ^ 31 -> 0 <= c < 2 ^ 31 ->
  exists dl dw dc e', run (uprintf 1 (line "%d %d %d %s") [PInt l; PInt w; PInt c; PStr name]) tt e = Ok (Some tt, tt, e') /\
    numeral 10 dl /\ value 10 dl = l /\ numeral 10 dw /\ value 10 dw = w /\ numeral 10 dc /\ value 10 dc = c /\
    written 1 (en_out e') = written 1 (en_out e) ++ dl ++ [32] ++ dw ++ [32] ++ dc ++ [32] ++ name ++ [nl].
Proof.
  intros Hl Hw Hc. destruct (printint_nat digits_upper l Hl) as (dl & Hdl & Hnl & Hvl).
  destruct (printint_nat digits_upper w Hw) as (dw & Hdw & Hnw & Hvw). destruct (printint_nat digits_upper c Hc) as (dc & Hdc & Hnc & Hvc).
  exists dl, dw, dc. eexists. split; [|split_and!; try done].
  - unfold uprintf. change (arg_words 1 [PInt l; PInt w; PInt c; PStr name]) with [u32 l; u32 w; u32 c; 4].
    change (line "%d %d %d %s") with [37; 100; 32; 37; 100; 32; 37; 100; 32; 37; 115; 10]. unfold printf.
    cbn [printf_loop Z.eqb Pos.eqb c_percent orb next_arg obind]. rewrite Hdl.
    cbn [printf_loop Z.eqb Pos.eqb c_percent orb next_arg obind]. rewrite Hdw.
    cbn [printf_loop Z.eqb Pos.eqb c_percent orb next_arg obind]. rewrite Hdc.
    cbn [printf_loop Z.eqb Pos.eqb c_percent orb next_arg obind string_arg]. rewrite run_ubind. cbn [ulift uret run]. apply run_put_all.
  - cbn [en_out]. by rewrite written_app, written_all.
Qed.

(** C33: [cat] copies its input and [wc] counts it, however the input is cut
    into reads: [cat] writes exactly the bytes it reads, in order, and [wc]
    prints, in decimal, the number of newlines, of words (characters that are
    not white space after white space or at the start) and of bytes. *)
Theorem text_tools (e : uenv) (fd : Z) (name : str) (fuel : nat) :
  real_pieces e -> (length (input e) < fuel)%nat -> Z.of_nat (length (input e)) < 2 ^ 31 ->
  (exists e', run (cat fuel fd) tt e = Ok (Some tt, tt, e') /\ written 1 (en_out e') = written 1 (en_out e) ++ input e) /\
  exists dl dw dc e', run (wc fuel fd name) tt e = Ok (Some tt, tt, e') /\
    numeral 10 dl /\ value 10 dl = newlines (input e) /\ numeral 10 dw /\ value 10 dw = starts (input e) /\
    numeral 10 dc /\ value 10 dc = Z.of_nat (length (input e)) /\
    written 1 (en_out e') = written 1 (en_out e) ++ dl ++ [32] ++ dw ++ [32] ++ dc ++ [32] ++ name ++ [nl].
Proof.
  intros Hr Hf Hl. split.
  - destruct (cat_loop fuel fd e Hr Hf) as (e' & Hrun & _ & Hw). exists e'. split; [|exact Hw]. unfold cat. rewrite run_ubind, Hrun. done.
  - destruct (wc_loop fuel fd e [] Hr Hf Hl) as (e1 & Hrun & Ho). cbn [app] in Hrun. change (counts []) with (0, 0, 0, false) in Hrun.
    unfold wc. rewrite run_ubind, Hrun. unfold counts. change (0 <? 0) with false. cbv iota. rewrite <- Ho.
    apply wc_line; [| |lia].
    + unfold newlines. pose proof (length_filter (fun x => x = nl) (input e)). lia.
    + unfold starts. pose proof (length_filter (fun x => space (fst x) = true /\ space (snd x) = false) (zip (32 :: input e) (input e))) as Hz.
      rewrite length_zip_with in Hz. cbn [length] in Hz. lia.
Qed.

Definition demo_env : uenv := mkuenv [[97; 32]; [98; 99]; [10; 100]] [].

Lemma text_tools_witness :
  (exists e', run (cat 7 3) tt demo_env = Ok (Some tt, tt, e') /\ written 1 (en_out e') = [97; 32; 98; 99; 10; 100]) /\
  exists e', run (wc 7 3 [120]) tt demo_env = Ok (Some tt, tt, e') /\ written 1 (en_out e') = lit "1 3 6 x" ++ [nl].
Proof.
  destruct (text_tools demo_env 3 [120] 7) as [(e1 & H1 & H2) (dl & dw & dc & e2 & H3 & _)]; [by repeat constructor|cbn; lia|by vm_compute|].
  split; [exists e1; split; [exact H1|exact H2]|]. exists e2. split; [exact H3|].
  vm_compute in H3. injection H3 as <-. by vm_compute.
Defined.


(** ** Where [grep] and [head] depend on the reads *)

(** The same line in one read and in two: a piece without a newline at the
    front of the buffer is dropped. *)
Lemma grep_loses_line :
  (exists b e', run (grep 9 [97] 0 BUF) tt (mkuenv [[97; 98; 10]] []) = Ok (Some b, tt, e') /\ written 1 (en_out e') = [97; 98; 10]) /\
  (exists b e', run (grep 9 [97] 0 BUF) tt (mkuenv [[97]; [98; 10]] []) = Ok (Some b, tt, e') /\ written 1 (en_out e') = []) /\
  (exists e', run (head 9 0) tt (mkuenv [[97]; [98; 10]] []) = Ok (Some tt, tt, e') /\ written 1 (en_out e') = [98; 10]).
Proof. split; [|split]; repeat eexists; by vm_compute. Qed.

(** A line [grep] has printed stays in the buffer with its newline: a shorter
    piece that follows is completed with it, and a line that is not in the
    input is printed.  The input is [abcdef], a newline and [XY]. *)
Lemma grep_stale_line :
  exists b e', run (grep 9 [99] 0 BUF) tt (mkuenv [[97; 98; 99; 100; 101; 102; 10; 88]; [89]] []) = Ok (Some b, tt, e') /\
    written 1 (en_out e') = [97; 98; 99; 100; 101; 102; 10] ++ [88; 89; 99; 100; 101; 102; 10].
Proof. repeat eexists; by vm_compute. Qed.
