(* ===== verification/Uvi.v ===== *)
(** * The line editor: [vi.c]

    [text] is the array of 256 pointers to lines of 256 bytes: a pointer is
    null or has the C string in its buffer.  [malloc] is taken to succeed.
    Input and output are system calls; what the commands do to the text is
    compared with operations on a list of lines. *)

From stdpp Require Import base gmap strings numbers list.
From S2P Require Import Prelude Prog CString Printf Usys Utext.

Definition BUF_SIZE : Z := 256.
Definition MAX_LINE_NUMBER : nat := 256.
Definition MAX_LINE_LENGTH : nat := 256.

Abbreviation text := (list (option str)).

(** The array, [line_number] and the globals [changed] and [auto_show]. *)
Record editor := mkeditor { ed_text : text; ed_line : Z; ed_changed : bool; ed_show : bool }.

(** [strcat_n(dest, src, len)] with [src] the [len] bytes *)
Definition strcat_n (dest src : str) : str :=
  if (length src =? 0)%nat then dest
  else if (MAX_LINE_LENGTH <=? length src + length dest)%nat then dest
  else dest ++ cstr src.

(** [text[i]]; the array has no element 256. *)
Definition line_at (t : text) (i : nat) : outcome (option str) :=
  match t !! i with Some x => Ok x | None => oob end.
Definition line_of (t : text) (i : nat) : outcome str :=
  let? x := line_at t i in match x with Some s => Ok s | None => Fail (Undef "null pointer") end.

(** [strcpy(text[i], s)] after the buffer has been cleared *)
Definition set_line (t : text) (i : nat) (s : str) : outcome text :=
  if (MAX_LINE_LENGTH <=? length s)%nat then oob
  else if (i <? length t)%nat then Ok (<[i := Some s]> t) else oob.

Fixpoint get_line_number_from (i : Z) (t : text) : Z :=
  match t with
  | [] => i - 1
  | None :: _ => i - 1
  | Some _ :: t => get_line_number_from (i + 1) t
  end.
Definition get_line_number (t : text) : Z := get_line_number_from 0 t.

(** ** Reading the file *)

(** The part of [s] before the first newline, and what is after it. *)
Fixpoint cut_line (s : str) : str * option str :=
  match s with
  | [] => ([], None)
  | c :: s => if c =? nl then ([], Some s) else let '(a, b) := cut_line s in (c :: a, b)
  end.

(** The loop over one buffer from [next] on: the text, [line_number] and
    [is_full]. *)
Fixpoint load_chunk (fuel : nat) (s : str) (t : text) (ln : nat) : outcome (text * nat * bool) :=
  match fuel with
  | O => Fail OutOfFuel
  | S fuel =>
      let '(a, rest) := cut_line s in
      let? d := line_of t ln in
      let t := <[ln := Some (strcat_n d a)]> t in
      match rest with
      | None => Ok (t, ln, false)
      | Some s =>
          if (MAX_LINE_NUMBER - 1 <=? ln)%nat then Ok (t, ln, true)
          else
            let t := <[S ln := Some []]> t in
            (* i >= len - 1 *)
            match s with [] => Ok (t, S ln, false) | _ => load_chunk fuel s t (S ln) end
      end
  end.

Definition new_text : text := Some [] :: replicate (MAX_LINE_NUMBER - 1) None.

Definition load (fuel : nat) (fd : Z) : uprog (text * nat) :=
  uwhile fuel (fun '(t, ln) =>
    do* (len, bytes) := sys (URead fd BUF_SIZE) in
    if 0 <? len then
      do* (t, ln, full) := ulift (load_chunk (S (length bytes)) bytes t ln) in
      if full : bool then uret (inr (t, ln)) else uret (inl (t, ln))
    else uret (inr (t, ln))) (new_text, 0%nat).

(** ** Commands *)

(** [for(; text[j] != NULL; j++) printf(1, "%d%d%d:%s\n", ...)] *)
Fixpoint show_lines (j : Z) (t : text) : uprog unit :=
  match t with
  | [] => Stop (Undef "index outside an array")
  | None :: _ => uret tt
  | Some s :: t =>
      uprintf 1 (lit "%d%d%d:%s" ++ [nl])
        [PInt ((j + 1) / 100); PInt ((j + 1) mod 100 / 10); PInt ((j + 1) mod 10); PStr s];*;
      show_lines (j + 1) t
  end.

Definition show_text (t : text) : uprog unit :=
  uprintf 1 (line "****************************************") [];*;
  uprintf 1 (line "the contents of the file are:") [];*;
  show_lines 0 t.

Definition com_help : uprog unit :=
  ufor_each
    (line <$> ["****************************************"%string; "instructions for use:"%string; "ins-n, insert a line after line n"%string;
      "mod-n, modify line n"%string; "del-n, delete line n"%string; "ins, insert a line after the last line"%string;
      "mod, modify the last line"%string; "del, delete the last line"%string;
      "show, enable show current contents after executing a command."%string;
      "hide, disable show current contents after executing a command."%string; "save, save the file"%string; "exit, exit editor"%string])
    (fun l => uprintf 1 l []).

(** [gets(input, ...); input[strlen(input)-1] = 0;]: the bytes of the buffer up
    to the zeros it ends with *)
Definition get_input : uprog str :=
  do* s := gets 256 in
  match length (cstr s) with
  | O => Stop (Undef "index outside an array")
  | S n => uret (<[n := 0]> s)
  end.

(** The text typed after a command, or asked for. *)
Definition content (extra : str) : uprog str :=
  match extra with
  | [] => uprintf 1 (line "please input content:") [];*; do* s := get_input in uret (cstr s)
  | _ => uret extra
  end.

(** [for(i = MAX_LINE_NUMBER - 1; i > n; i--)] *)
Fixpoint shift_down (k : nat) (n : nat) (t : text) : outcome text :=
  match k with
  | O => Ok t
  | S k =>
      let i := (n + S k)%nat in
      let? x := line_at t (i - 1) in
      let? t := match x with
                | None => Ok t
                | Some s => set_line t i s
                end in
      shift_down k n t
  end.

Definition insert_line (t : text) (n : nat) (s : str) : outcome text :=
  let? t := shift_down (MAX_LINE_NUMBER - 1 - n) n t in
  let? _ := line_at t n in
  set_line t n s.

Definition refresh (e : editor) (t : text) : uprog editor :=
  (if ed_show e then show_text t else uret tt);*;
  uret (mkeditor t (ed_line e) true (ed_show e)).

Definition com_ins (e : editor) (n : Z) (extra : str) : uprog editor :=
  if (n <? 0) || (get_line_number (ed_text e) + 1 <? n) then uprintf 1 (line "invalid line number") [];*; uret e
  else
    do* s := content extra in
    do* t := ulift (insert_line (ed_text e) (Z.to_nat n) s) in
    refresh e t.

Definition com_mod (e : editor) (n : Z) (extra : str) : uprog editor :=
  if (n <=? 0) || (get_line_number (ed_text e) + 1 <? n) then uprintf 1 (line "invalid line number") [];*; uret e
  else
    do* s := content extra in
    do* t := ulift (let? _ := line_of (ed_text e) (Z.to_nat (n - 1)) in set_line (ed_text e) (Z.to_nat (n - 1)) s) in
    refresh e t.

(** [for(; text[i+1] != NULL; i++)]: the lines move up; the index of the last *)
Fixpoint move_up (fuel : nat) (i : nat) (t : text) : outcome (nat * text) :=
  match fuel with
  | O => Fail OutOfFuel
  | S fuel =>
      let? x := line_at t (S i) in
      match x with
      | None => Ok (i, t)
      | Some s => let? t := set_line t i s in let? t := set_line t (S i) [] in move_up fuel (S i) t
      end
  end.

Definition delete_line (t : text) (n : nat) : outcome text :=
  let? _ := line_of t n in
  let? t := set_line t n [] in
  let? (i, t) := move_up (S MAX_LINE_NUMBER) n t in
  Ok (if (i =? 0)%nat then t else <[i := None]> t).

Definition com_del (e : editor) (n : Z) : uprog editor :=
  if (n <=? 0) || (get_line_number (ed_text e) + 1 <? n) then uprintf 1 (line "invalid line number") [];*; uret e
  else
    do* t := ulift (delete_line (ed_text e) (Z.to_nat (n - 1))) in
    refresh e t.

(** [for(; text[i] != NULL; i++){ printf(fd, "\n"); write(...); }] *)
Fixpoint save_lines (fd : Z) (t : text) : uprog unit :=
  match t with
  | [] => Stop (Undef "index outside an array")
  | None :: _ => uret tt
  | Some s :: t => uprintf fd [nl] [];*; sys (UWrite fd s);*; save_lines fd t
  end.

Definition com_save (e : editor) (path : str) : uprog editor :=
  sys (UUnlink path);*;
  do* fd := sys (UOpen path (Z.lor O_WRONLY O_CREATE)) in
  if fd =? -1 then uprintf 1 (line "save failed, file can't open:") [];*; exit
  else
    match ed_text e with
    | Some s :: t =>
        sys (UWrite fd s);*;
        save_lines fd t;*;
        sys (UClose fd);*;
        uprintf 1 (line "saved successfully") [];*;
        uret (mkeditor (ed_text e) (ed_line e) false (ed_show e))
    | _ => sys (UClose fd);*; uret e
    end.

(** The lines are freed one by one before [exit]. *)
Definition com_exit (e : editor) (path : str) : uprog editor :=
  (if ed_changed e then
     uprintf 1 (line "save the file? y/n") [];*;
     do* s := get_input in
     if strcmp (cstr s) (lit "y") =? 0 then com_save e path;*; uret tt else uret tt
   else uret tt);*;
  (if existsb (fun x => match x with None => true | Some _ => false end) (ed_text e) then uret tt
   else Stop (Undef "index outside an array"));*;
  exit.

(** [&input[pos]] after the first space of the first eight characters *)
Fixpoint after_space (k : nat) (s : str) : str :=
  match k, s with
  | S k, c :: s => if c =? 32 then cstr s else after_space k s
  | _, _ => []
  end.
Definition find_extra (input : str) : str := after_space 8 input.

Definition starts_with (w s : str) : bool := bool_decide (take (length w) s = w).

(** The number after [-], or the last line. *)
Definition line_arg (input : str) (last : Z) : Z :=
  match drop 3 input with
  | c :: s => if c =? 45 then atoi s else last
  | [] => last
  end.

(** [line_number = get_line_number(text);] *)
Definition recount (e : editor) : editor :=
  mkeditor (ed_text e) (get_line_number (ed_text e)) (ed_changed e) (ed_show e).

(** One round of the loop, after the input. *)
Definition command (path : str) (e : editor) (input : str) : uprog editor :=
  let cmd (w : string) := strcmp (cstr input) (lit w) =? 0 in
  let n := line_arg input (ed_line e + 1) in
  if starts_with (lit "ins") input then do* e := com_ins e n (find_extra input) in uret (recount e)
  else if starts_with (lit "mod") input then com_mod e n (find_extra input)
  else if starts_with (lit "del") input then do* e := com_del e n in uret (recount e)
  else if cmd "show"%string then
    uprintf 1 (line "enable show current contents after text changed.") [];*;
    uret (mkeditor (ed_text e) (ed_line e) (ed_changed e) true)
  else if cmd "hide"%string then
    uprintf 1 (line "disable show current contents after text changed.") [];*;
    uret (mkeditor (ed_text e) (ed_line e) (ed_changed e) false)
  else if cmd "help"%string then com_help;*; uret e
  else if cmd "save"%string then com_save e path
  else if cmd "exit"%string then com_exit e path
  else uprintf 1 (line "invalid command.") [];*; com_help;*; uret e.

Definition vi_main (fuel : nat) (argv : list str) : uprog unit :=
  match argv with
  | [] => Stop (Undef "argv[1]")
  | [_] => uprintf 1 (line "please input the command as [editor file_name]") [];*; exit
  | _ :: path :: _ =>
      do* fd := sys (UOpen path O_RDONLY) in
      do* (t, ln) :=
        if negb (fd =? -1) then do* x := load fuel fd in sys (UClose fd);*; uret x
        else uret (new_text, 0%nat) in
      show_text t;*;
      com_help;*;
      uwhile fuel (fun e =>
        uprintf 1 ([nl] ++ line "please input command:") [];*;
        do* input := get_input in
        do* e := command path e input in
        uret (inl e)) (mkeditor t (Z.of_nat ln) false true)
  end.
