(* ===== verification/UviSpec.v ===== *)
(** * The editor edits a list of lines

    [text_of] is the array for a list of lines.  The commands of [vi.c] are
    the list operations on it, loading splits the file at its newlines and
    saving joins the lines; a whole session, from [open] to [exit], is run
    against a console and one file. *)

From stdpp Require Import base gmap strings numbers list.
From S2P Require Import Prelude Prog CString Printf Usys Utext Uvi.

(** ** The array *)

Definition text_of (ls : list str) : text := (Some <$> ls) ++ replicate (MAX_LINE_NUMBER - length ls) None.

(** Lines that fit in their buffers and leave a null pointer at the end. *)
Definition fits (ls : list str) : Prop :=
  (length ls < MAX_LINE_NUMBER)%nat /\ Forall (fun s : str => (length s < MAX_LINE_LENGTH)%nat) ls.

Lemma lookup_text_of ls i : (length ls <= MAX_LINE_NUMBER)%nat ->
  text_of ls !! i = if decide (i < MAX_LINE_NUMBER)%nat then Some (ls !! i) else None.
Proof.
  intros Hl. unfold text_of. destruct (decide (i < length ls)%nat) as [Hi|Hi].
  - rewrite lookup_app_l by (by rewrite length_fmap). rewrite list_lookup_fmap.
    destruct (lookup_lt_is_Some_2 ls i Hi) as [s ->]. by rewrite decide_True by lia.
  - rewrite lookup_app_r by (rewrite length_fmap; lia). rewrite length_fmap, (lookup_ge_None_2 ls i) by lia. case_decide.
    + apply lookup_replicate. split; [done|lia].
    + apply lookup_replicate_None. lia.
Qed.

(** An array is known by what it has below 256. *)
Lemma text_of_ext t ls : (length ls <= MAX_LINE_NUMBER)%nat ->
  (forall i, t !! i = if decide (i < MAX_LINE_NUMBER)%nat then Some (ls !! i) else None) -> t = text_of ls.
Proof. intros Hl Ht. apply list_eq. intros i. by rewrite Ht, lookup_text_of. Qed.

Lemma length_text_of ls : (length ls <= MAX_LINE_NUMBER)%nat -> length (text_of ls) = MAX_LINE_NUMBER.
Proof. intros Hl. unfold text_of. rewrite length_app, length_fmap, length_replicate. lia. Qed.

Lemma text_of_set ls i s : (length ls <= MAX_LINE_NUMBER)%nat -> (i < length ls)%nat ->
  <[i := Some s]> (text_of ls) = text_of (<[i := s]> ls).
Proof.
  intros Hl Hi. apply text_of_ext; [by rewrite length_insert|]. intros j. destruct (decide (j = i)) as [->|Hn].
  - rewrite !list_lookup_insert_eq by (rewrite ?length_text_of; lia). by rewrite decide_True by lia.
  - rewrite !list_lookup_insert_ne by done. by apply lookup_text_of.
Qed.

Lemma text_of_snoc ls s : (length ls < MAX_LINE_NUMBER)%nat -> <[length ls := Some s]> (text_of ls) = text_of (ls ++ [s]).
Proof.
  intros Hl. apply text_of_ext; [rewrite length_app; cbn; lia|]. intros j. destruct (decide (j = length ls)) as [->|Hn].
  - rewrite list_lookup_insert_eq by (rewrite length_text_of; lia). rewrite decide_True by lia.
    by rewrite lookup_app_r, Nat.sub_diag by lia.
  - rewrite list_lookup_insert_ne by done. rewrite lookup_text_of by lia. case_decide; [|done]. f_equal.
    destruct (decide (j < length ls)%nat); [by rewrite lookup_app_l|].
    rewrite !lookup_ge_None_2; [done|rewrite length_app; cbn; lia|lia].
Qed.

Lemma text_of_drop_last ls s : (length ls < MAX_LINE_NUMBER)%nat -> <[length ls := None]> (text_of (ls ++ [s])) = text_of ls.
Proof.
  intros Hl. apply text_of_ext; [lia|]. intros j. assert (length (ls ++ [s]) = S (length ls)) as Hs by (rewrite length_app; cbn; lia).
  destruct (decide (j = length ls)) as [->|Hn].
  - rewrite list_lookup_insert_eq by (rewrite length_text_of; lia). rewrite decide_True by lia. by rewrite lookup_ge_None_2.
  - rewrite list_lookup_insert_ne by done. rewrite lookup_text_of by lia. case_decide; [|done]. f_equal.
    destruct (decide (j < length ls)%nat); [by rewrite lookup_app_l|]. rewrite !lookup_ge_None_2; [done|lia..].
Qed.

Lemma set_line_ok t i s : (length s < MAX_LINE_LENGTH)%nat -> (i < length t)%nat -> set_line t i s = Ok (<[i := Some s]> t).
Proof.
  intros Hs Hi. unfold set_line. rewrite (proj2 (Nat.leb_gt _ _)) by done. by rewrite (proj2 (Nat.ltb_lt _ _)).
Qed.

Lemma line_of_text ls i s : (length ls <= MAX_LINE_NUMBER)%nat -> ls !! i = Some s -> line_of (text_of ls) i = Ok s.
Proof.
  intros Hl Hi. unfold line_of, line_at. rewrite lookup_text_of by done. apply lookup_lt_Some in Hi as Hlt.
  rewrite decide_True by lia. by rewrite Hi.
Qed.

Lemma get_line_number_from_text ls k i :
  get_line_number_from i ((Some <$> ls) ++ replicate k None) = i + Z.of_nat (length ls) - 1.
Proof.
  revert i. induction ls as [|s ls IH]; intros i; cbn [fmap list_fmap app get_line_number_from length].
  - destruct k; cbn; lia.
  - rewrite IH. lia.
Qed.

Lemma get_line_number_text ls : get_line_number (text_of ls) = Z.of_nat (length ls) - 1.
Proof. unfold get_line_number, text_of. rewrite get_line_number_from_text. lia. Qed.

(** ** Inserting, changing and deleting a line *)

Definition insert_at (n : nat) (s : str) (ls : list str) : list str := take n ls ++ s :: drop n ls.
Definition remove_at (n : nat) (ls : list str) : list str :=
  match delete n ls with [] => [[]] | ls' => ls' end.

Lemma shift_down_ok k n t :
  (n + k < length t)%nat -> (forall i s, t !! i = Some (Some s) -> (length s < MAX_LINE_LENGTH)%nat) ->
  exists t', shift_down k n t = Ok t' /\ length t' = length t /\ forall i, t' !! i =
    if decide (n < i <= n + k)%nat then match t !! (i - 1)%nat with Some (Some s) => Some (Some s) | _ => t !! i end else t !! i.
Proof.
  revert t. induction k as [|k IH]; intros t Hk Hs.
  - exists t. split_and!; [done|done|]. intros i. by rewrite decide_False by lia.
  - cbn [shift_down]. unfold line_at. destruct (lookup_lt_is_Some_2 t (n + S k - 1)%nat) as [x Hx]; [lia|]. rewrite Hx. cbn [obind].
    destruct x as [s|]; cbn [obind].
    + rewrite set_line_ok; [|by eapply Hs|lia]. cbn [obind].
      destruct (IH (<[(n + S k)%nat := Some s]> t)) as (t' & -> & Hl & Hlk).
      * rewrite length_insert. lia.
      * intros i s'. rewrite list_lookup_insert. case_decide as Hd; [|apply Hs]. intros [= <-]. by eapply Hs.
      * exists t'. split_and!; [done|by rewrite Hl, length_insert|]. intros i. rewrite Hlk. clear Hlk IH Hl.
        destruct (decide (i = n + S k)%nat) as [->|Hn].
        -- rewrite decide_False, (decide_True (P := (n < n + S k <= _)%nat)) by lia. rewrite Hx. apply list_lookup_insert_eq. lia.
        -- rewrite (list_lookup_insert_ne _ _ i) by done. case_decide.
           ++ rewrite decide_True by lia. by rewrite list_lookup_insert_ne by lia.
           ++ by rewrite decide_False by lia.
    + destruct (IH t) as (t' & -> & Hl & Hlk); [lia|done|]. exists t'. split_and!; [done|done|]. intros i. rewrite Hlk.
      destruct (decide (i = n + S k)%nat) as [->|Hn].
      * rewrite decide_False, decide_True by lia. by rewrite Hx.
      * case_decide; [by rewrite decide_True by lia|by rewrite decide_False by lia].
Qed.

Lemma lookup_insert_at n s ls i : (n <= length ls)%nat ->
  insert_at n s ls !! i = if decide (i < n)%nat then ls !! i else if decide (i = n) then Some s else ls !! (i - 1)%nat.
Proof.
  intros Hn. unfold insert_at. assert (length (take n ls) = n) as Ht by (rewrite length_take; lia). case_decide.
  - rewrite lookup_app_l by lia. by apply lookup_take_lt.
  - rewrite lookup_app_r, Ht by lia. case_decide; [subst; by rewrite Nat.sub_diag|].
    destruct (i - n)%nat as [|m] eqn:Hm; [lia|]. change ((s :: drop n ls) !! S m) with (drop n ls !! m). rewrite lookup_drop. f_equal. lia.
Qed.

Lemma length_insert_at n s ls : (n <= length ls)%nat -> length (insert_at n s ls) = S (length ls).
Proof. intros Hn. unfold insert_at. rewrite length_app, length_take. cbn. rewrite length_drop. lia. Qed.

Lemma insert_line_ok ls n s :
  (n <= length ls)%nat -> fits ls -> (length s < MAX_LINE_LENGTH)%nat ->
  insert_line (text_of ls) n s = Ok (text_of (insert_at n s ls)).
Proof.
  intros Hn [Hl Hf] Hs. unfold insert_line. assert (length (text_of ls) = MAX_LINE_NUMBER) as Ht by (apply length_text_of; lia).
  destruct (shift_down_ok (MAX_LINE_NUMBER - 1 - n) n (text_of ls)) as (t' & -> & Hlen & Hlk).
  - rewrite Ht. unfold MAX_LINE_NUMBER in *. lia.
  - intros i s'. rewrite lookup_text_of by lia. case_decide; [|done]. intros [= Hi]. rewrite Forall_forall in Hf. apply Hf. by eapply list_elem_of_lookup_2.
  - cbn [obind]. unfold line_at. destruct (lookup_lt_is_Some_2 t' n) as [x ->]; [lia|]. cbn [obind].
    rewrite set_line_ok by lia. f_equal. apply text_of_ext; [rewrite length_insert_at; lia|]. intros i.
    destruct (decide (i = n)) as [->|Hne].
    + rewrite list_lookup_insert_eq by lia. rewrite lookup_insert_at by done. by rewrite decide_True, decide_False, decide_True by lia.
    + rewrite list_lookup_insert_ne by done. rewrite Hlk, !lookup_text_of, lookup_insert_at by lia.
      repeat case_decide; try lia; try done.
      destruct (ls !! (i - 1)%nat) eqn:Hi; [done|]. apply lookup_ge_None in Hi. f_equal. apply lookup_ge_None_2. lia.
Qed.

Lemma insert_mid {A} (pre post : list A) x y : <[length pre := x]> (pre ++ y :: post) = pre ++ x :: post.
Proof. induction pre as [|a pre IH]; cbn; [done|]. by rewrite <- IH. Qed.

Lemma insert_mid_next {A} (pre post : list A) x y z : <[S (length pre) := x]> (pre ++ y :: z :: post) = pre ++ y :: x :: post.
Proof. induction pre as [|a pre IH]; cbn; [done|]. by rewrite <- IH. Qed.

Lemma move_up_ok post : forall pre fuel,
  fits (pre ++ [] :: post) -> (length post < fuel)%nat ->
  move_up fuel (length pre) (text_of (pre ++ [] :: post)) = Ok ((length pre + length post)%nat, text_of (pre ++ post ++ [[]])).
Proof.
  induction post as [|s post IH]; intros pre fuel [Hl Hf] Hfuel; (destruct fuel as [|fuel]; [lia|]); cbn [move_up]; unfold line_at.
  - rewrite lookup_text_of by lia. rewrite length_app in Hl. cbn [length] in Hl. rewrite decide_True by lia.
    rewrite lookup_ge_None_2 by (rewrite length_app; cbn; lia). cbn. by rewrite Nat.add_0_r.
  - rewrite length_app in Hl. cbn [length] in Hl. rewrite lookup_text_of by (rewrite length_app; cbn; lia). rewrite decide_True by lia.
    rewrite lookup_app_r, Nat.sub_succ_l, Nat.sub_diag by lia. cbn [lookup list_lookup obind].
    assert (Forall (fun s : str => (length s < MAX_LINE_LENGTH)%nat) ((pre ++ [s]) ++ [] :: post)) as Hf'.
    { rewrite <- app_assoc. revert Hf. rewrite !Forall_app, !Forall_cons. naive_solver. }
    assert (length s < MAX_LINE_LENGTH)%nat as Hs by (revert Hf; rewrite Forall_app, !Forall_cons; naive_solver).
    rewrite set_line_ok; [|done|rewrite length_text_of; rewrite ?length_app; cbn; lia]. cbn [obind].
    rewrite text_of_set by (rewrite length_app; cbn; lia). rewrite insert_mid.
    rewrite set_line_ok; [|unfold MAX_LINE_LENGTH; cbn; lia|rewrite length_text_of; rewrite ?length_app; cbn; lia]. cbn [obind].
    rewrite text_of_set by (rewrite length_app; cbn; lia). rewrite insert_mid_next.
    specialize (IH (pre ++ [s]) fuel). rewrite length_app in IH. cbn [length] in IH. rewrite <- !app_assoc in IH. cbn [app] in IH.
    rewrite Nat.add_1_r in IH. cbn [length] in Hfuel. rewrite IH; [|split; [rewrite length_app; cbn; lia|by rewrite <- app_assoc in Hf']|lia].
    f_equal. f_equal. cbn [length]. lia.
Qed.

Lemma delete_line_ok ls n : (n < length ls)%nat -> fits ls -> delete_line (text_of ls) n = Ok (text_of (remove_at n ls)).
Proof.
  intros Hn [Hl Hf]. destruct (lookup_lt_is_Some_2 ls n Hn) as [s Hs]. unfold delete_line. rewrite (line_of_text _ _ s) by (done || lia). cbn [obind].
  rewrite set_line_ok; [|unfold MAX_LINE_LENGTH; cbn; lia|rewrite length_text_of; lia]. cbn [obind]. rewrite text_of_set by lia.
  destruct (list_elem_of_split_length ls n s Hs) as (pre & post & -> & ->). unfold remove_at.
  rewrite insert_mid.
  assert (fits (pre ++ [] :: post)) as Hfit.
  { split; [revert Hl; rewrite !length_app; cbn; lia|]. revert Hf. rewrite !Forall_app, !Forall_cons. unfold MAX_LINE_LENGTH. cbn. naive_solver lia. }
  rewrite length_app in Hl. cbn [length] in Hl. rewrite move_up_ok by (done || lia). cbn [obind]. rewrite delete_middle. f_equal.
  destruct pre as [|a pre], post as [|b post]; cbn [length Nat.add Nat.eqb app]; [done|..].
  - change (b :: post ++ [[]]) with ((b :: post) ++ [[]]). apply (text_of_drop_last (b :: post)). cbn [length] in *. lia.
  - rewrite app_nil_r, Nat.add_0_r. change (a :: pre ++ [[]]) with ((a :: pre) ++ [[]]). apply (text_of_drop_last (a :: pre)). cbn [length] in *. lia.
  - change (a :: pre ++ b :: post ++ [[]]) with ((a :: pre) ++ (b :: post) ++ [[]]). rewrite app_assoc.
    replace (S (length pre + S (length post))) with (length ((a :: pre) ++ b :: post)) by (rewrite length_app; cbn; lia).
    apply text_of_drop_last. cbn [app length] in *. rewrite ?length_app. cbn [length]. lia.
Qed.

(** ** Loading and saving *)

(** Complete lines and the last one, as characters are added. *)
Definition add_char (st : list str * str) (c : Z) : list str * str :=
  if c =? nl then (fst st ++ [snd st], []) else (fst st, snd st ++ [c]).
Definition lines_of (st : list str * str) : list str := fst st ++ [snd st].

(** A file's lines: there is one more than there are newlines. *)
Definition file_lines (s : str) : list str := lines_of (foldl add_char ([], []) s).

Definition join_lines (ls : list str) : str :=
  match ls with [] => [] | s :: ls => s ++ mjoin (cons nl <$> ls) end.

Definition nonzero (s : str) : Prop := Forall (fun c => c <> 0) s.

Lemma fits_before st s : fits (lines_of (foldl add_char st s)) -> fits (lines_of st).
Proof.
  revert st. induction s as [|c s IH]; intros st Hf; [done|]. apply IH in Hf. clear IH. revert Hf.
  unfold add_char, lines_of, fits. destruct (c =? nl); cbn [fst snd]; rewrite !length_app, !Forall_app, !Forall_singleton, ?length_app; cbn [length]; intuition lia.
Qed.

Lemma add_chars st a : Forall (fun c => c <> nl) a -> foldl add_char st a = (fst st, snd st ++ a).
Proof.
  intros Ha. revert st. induction Ha as [|c a Hc _ IH]; intros st; cbn [foldl]; [rewrite app_nil_r; by destruct st|].
  rewrite IH. unfold add_char. rewrite (proj2 (Z.eqb_neq _ _) Hc). cbn [fst snd]. by rewrite <- app_assoc.
Qed.

Lemma cut_line_spec s : match cut_line s with
  | (a, None) => s = a /\ Forall (fun c => c <> nl) a
  | (a, Some r) => s = a ++ nl :: r /\ Forall (fun c => c <> nl) a
  end.
Proof.
  induction s as [|c s IH]; cbn [cut_line]; [done|]. destruct (Z.eqb_spec c nl) as [->|Hc]; [done|].
  destruct (cut_line s) as [a [r|]]; destruct IH as [-> Ha]; (split; [done|by constructor]).
Qed.

Lemma text_cstr s r : nonzero s -> cstr (s ++ 0 :: r) = s.
Proof. induction 1 as [|c s Hc _ IH]; cbn; [done|]. rewrite (proj2 (Z.eqb_neq _ _) Hc). by rewrite IH. Qed.

Lemma cstr_all s : nonzero s -> cstr s = s.
Proof. induction 1 as [|c s Hc _ IH]; cbn; [done|]. rewrite (proj2 (Z.eqb_neq _ _) Hc). by rewrite IH. Qed.

Lemma strcat_n_ok d a : nonzero a -> (length (d ++ a) < MAX_LINE_LENGTH)%nat -> strcat_n d a = d ++ a.
Proof.
  intros Ha Hl. rewrite length_app in Hl. unfold strcat_n. destruct (Nat.eqb_spec (length a) 0) as [H0|H0].
  - destruct a; [by rewrite app_nil_r|done].
  - rewrite (proj2 (Nat.leb_gt _ _)) by lia. by rewrite cstr_all.
Qed.

Lemma load_chunk_ok fuel : forall s p d,
  nonzero s -> (length s < fuel)%nat -> fits (lines_of (foldl add_char (p, d) s)) ->
  load_chunk fuel s (text_of (p ++ [d])) (length p) =
    Ok (text_of (lines_of (foldl add_char (p, d) s)), length (fst (foldl add_char (p, d) s)), false).
Proof.
  induction fuel as [|fuel IH]; intros s p d Hz Hfuel Hf; [lia|]. cbn [load_chunk].
  destruct (fits_before _ _ Hf) as [Hpl _]. unfold lines_of in Hpl. cbn [fst snd] in Hpl.
  rewrite (line_of_text _ _ d) by (lia || by rewrite lookup_app_r, Nat.sub_diag by lia).
  pose proof (cut_line_spec s) as Hcut. destruct (cut_line s) as [a rest]. cbn [obind].
  rewrite text_of_set, insert_mid by (rewrite ?length_app in *; cbn [length] in *; lia).
  assert (fits (lines_of (p, d ++ a)) /\ nonzero a) as [[_ Hfa] Hza].
  { destruct rest as [r|]; destruct Hcut as [-> Ha].
    - rewrite foldl_app, (add_chars _ a) in Hf by done. split; [by eapply fits_before|]. unfold nonzero in *. by apply Forall_app in Hz as [? _].
    - rewrite add_chars in Hf by done. done. }
  unfold lines_of in Hfa. cbn [fst snd] in Hfa. apply Forall_app in Hfa as [_ Hda]. rewrite Forall_singleton in Hda.
  rewrite strcat_n_ok; [|exact Hza|exact Hda]. destruct rest as [r|]; destruct Hcut as [-> Ha].
  - rewrite foldl_app, (add_chars _ a) in * by done. cbn [foldl fst snd] in *.
    change (add_char (p, d ++ a) nl) with (p ++ [d ++ a], [] : str) in *.
    destruct (fits_before _ _ Hf) as [Hl _]. unfold lines_of in Hl. cbn [fst snd] in Hl. rewrite !length_app in Hl. cbn [length] in Hl.
    rewrite (proj2 (Nat.leb_gt _ _)) by lia.
    assert (S (length p) = length (p ++ [d ++ a])) as Hsp by (rewrite length_app; cbn; lia).
    rewrite Hsp, text_of_snoc by lia. destruct r as [|c r]; [done|]. apply IH; [|rewrite length_app in Hfuel; cbn [length] in *; lia|done].
    unfold nonzero in *. apply Forall_app in Hz as [_ Hz]. by apply Forall_cons in Hz as [_ Hz].
  - by rewrite add_chars by done.
Qed.

Lemma join_add st s : join_lines (lines_of (foldl add_char st s)) = join_lines (lines_of st) ++ s.
Proof.
  revert st. induction s as [|c s IH]; intros st; cbn [foldl]; [by rewrite app_nil_r|]. rewrite IH.
  assert (join_lines (lines_of (add_char st c)) = join_lines (lines_of st) ++ [c]) as ->; [|by rewrite <- app_assoc].
  unfold add_char, lines_of. destruct st as [p d]. cbn [fst snd]. destruct (Z.eqb_spec c nl) as [->|_]; cbn [fst snd];
    destruct p as [|s' p]; cbn [app join_lines]; rewrite ?fmap_app, ?join_app; cbn; rewrite ?app_nil_r, <- ?app_assoc; cbn; rewrite <- ?app_assoc; done.
Qed.

(** Saving what has been loaded gives the file back. *)
Lemma join_file_lines s : join_lines (file_lines s) = s.
Proof. unfold file_lines. by rewrite join_add. Qed.

(** ** A console and one file *)

Record desk := mkdesk { dk_name : str; dk_file : option str; dk_pos : nat; dk_in : str; dk_out : str }.

Definition put_bytes (pos : nat) (bytes s : str) : str := take pos s ++ bytes ++ drop (pos + length bytes) s.

Definition dk_read (fd n : Z) (w : desk) : (Z * str) * desk :=
  if fd =? 0 then
    let k := take (Z.to_nat n) (dk_in w) in
    ((Z.of_nat (length k), k), mkdesk (dk_name w) (dk_file w) (dk_pos w) (drop (Z.to_nat n) (dk_in w)) (dk_out w))
  else
    match dk_file w with
    | None => ((-1, []), w)
    | Some s =>
        let k := take (Z.to_nat n) (drop (dk_pos w) s) in
        ((Z.of_nat (length k), k), mkdesk (dk_name w) (dk_file w) (dk_pos w + length k) (dk_in w) (dk_out w))
    end.

Definition dk_write (fd : Z) (bytes : str) (w : desk) : Z * desk :=
  if fd =? 1 then (Z.of_nat (length bytes), mkdesk (dk_name w) (dk_file w) (dk_pos w) (dk_in w) (dk_out w ++ bytes))
  else
    match dk_file w with
    | None => (-1, w)
    | Some s => (Z.of_nat (length bytes), mkdesk (dk_name w) (Some (put_bytes (dk_pos w) bytes s)) (dk_pos w + length bytes) (dk_in w) (dk_out w))
    end.

Definition dk_open (path : str) (mode : Z) (w : desk) : Z * desk :=
  if negb (bool_decide (path = dk_name w)) then (-1, w)
  else
    match dk_file w with
    | Some s => (3, mkdesk (dk_name w) (Some s) 0 (dk_in w) (dk_out w))
    | None => if Z.land mode O_CREATE =? 0 then (-1, w) else (3, mkdesk (dk_name w) (Some []) 0 (dk_in w) (dk_out w))
    end.

Definition dk_unlink (path : str) (w : desk) : Z * desk :=
  if bool_decide (path = dk_name w /\ dk_file w <> None) then (0, mkdesk (dk_name w) None (dk_pos w) (dk_in w) (dk_out w)) else (-1, w).

#[global] Instance desk_store : Store usysE desk := {
  st_step X e w :=
    match e in usysE X return outcome (X * desk) with
    | URead fd n => Ok (dk_read fd n w)
    | UWrite fd bytes => Ok (dk_write fd bytes w)
    | UOpen path mode => Ok (dk_open path mode w)
    | UUnlink path => Ok (dk_unlink path w)
    | UClose fd => Ok (0, w)
    | UFstat fd => Ok ((-1, mkustat 0 0 0 0 0 0), w)
    | UPipe => Ok ((-1, 0, 0), w)
    | UGetcwd n => Ok ((-1, []), w)
    | UDup _ | UMkdir _ | UChdir _ | URemove _ | UTouch _ => Ok (-1, w)
    | ULink _ _ | UCopy _ _ | UMove _ _ | UMknod _ _ _ | UExec _ _ => Ok (-1, w)
    | UFork | UWait | UHalt => Ok (-1, w) | UKill _ | USleep _ => Ok (-1, w)
    end;
  st_trace X e w := [];
  st_disk w := ∅;
}.

(** [c] takes [i] from the console, may print, and gives [x]. *)
Definition acts {A} (c : uprog A) (x : A) (i : str) : Prop :=
  forall nm f p r o, exists o', run c tt (mkdesk nm f p (i ++ r) o) = Ok (Some x, tt, mkdesk nm f p r o').

Lemma acts_ret {A} (x : A) : acts (uret x) x [].
Proof. intros nm f p r o. by exists o. Qed.

Lemma acts_bind {A B} (c : uprog A) (k : A -> uprog B) x y i j : acts c x i -> acts (k x) y j -> acts (ubind c k) y (i ++ j).
Proof.
  intros Hc Hk nm f p r o. destruct (Hc nm f p (j ++ r) o) as [o1 H1]. destruct (Hk nm f p r o1) as [o2 H2]. exists o2.
  by rewrite run_ubind, <- app_assoc, H1.
Qed.

Lemma acts_bind0 {A B} (c : uprog A) (k : A -> uprog B) x y j : acts c x [] -> acts (k x) y j -> acts (ubind c k) y j.
Proof. intros Hc Hk. change j with ([] ++ j). by eapply acts_bind. Qed.

Lemma acts_lift {A} (o : outcome A) x : o = Ok x -> acts (ulift o) x [].
Proof. intros ->. apply acts_ret. Qed.

Lemma acts_each {A} (l : list A) body : (forall x, acts (body x) tt []) -> acts (ufor_each l body) tt [].
Proof. intros Hb. induction l as [|x l IH]; cbn [ufor_each]; [apply acts_ret|]. eapply acts_bind0; [apply Hb|apply IH]. Qed.

Lemma acts_printf fmt args out : printf digits_upper (arg_load args) fmt (arg_words 1 args) = Ok out -> acts (uprintf 1 fmt args) tt [].
Proof.
  intros Hp. unfold uprintf. eapply acts_bind0; [by apply acts_lift|]. apply acts_each. intros c. eapply acts_bind0; [|apply acts_ret].
  intros nm f p r o. by exists (o ++ [c]).
Qed.

(** A line typed: what [gets] reads up to. *)
Definition typable (s : str) : Prop := Forall (fun c => c <> 0 /\ c <> 10 /\ c <> 13) s.

Lemma typable_nonzero s : typable s -> nonzero s.
Proof. intros H. eapply Forall_impl; [exact H|]. naive_solver. Qed.

Lemma acts_gets_loop s : forall room buf, typable s -> (length s < room)%nat -> acts (gets_loop room buf) (buf ++ s ++ [nl]) (s ++ [nl]).
Proof.
  induction s as [|c s IH]; intros room buf Hs Hl; (destruct room as [|room]; [cbn in Hl; lia|]); cbn [gets_loop app].
  - intros nm f p r o. exists o. by rewrite run_ubind, run_sys.
  - apply Forall_cons in Hs as [(_ & H10 & H13) Hs]. intros nm f p r o. rewrite run_ubind, run_sys.
    cbn [st_step desk_store dk_read]. unfold dk_read. cbn [Z.eqb dk_in]. change (Z.to_nat 1) with 1%nat. cbn [take drop app length dk_name dk_file dk_pos dk_out].
    change (Z.of_nat 1 <? 1) with false. cbv iota. rewrite (proj2 (Z.eqb_neq _ _) H10), (proj2 (Z.eqb_neq _ _) H13). cbn [orb].
    destruct (IH room (buf ++ [c]) Hs ltac:(cbn [length] in Hl; lia) nm f p r o) as [o' Ho]. exists o'.
    rewrite <- (app_assoc buf [c]) in Ho. exact Ho.
Qed.

Lemma acts_get_input s : typable s -> (length s < 255)%nat -> acts get_input (s ++ [0]) (s ++ [nl]).
Proof.
  intros Hs Hl. unfold get_input. rewrite <- (app_nil_r (s ++ [nl])). eapply acts_bind.
  - apply (acts_gets_loop s (Z.to_nat (256 - 1)) []); [done|]. change (Z.to_nat (256 - 1)) with 255%nat. done.
  - cbn [app]. rewrite cstr_all.
    + rewrite length_app, Nat.add_1_r, insert_mid. apply acts_ret.
    + apply Forall_app. split; [by apply typable_nonzero|]. by apply Forall_singleton.
Qed.

Lemma acts_line s : printf digits_upper (arg_load []) (line s) (arg_words 1 []) = Ok (line s) -> acts (uprintf 1 (line s) []) tt [].
Proof. apply acts_printf. Qed.

Lemma acts_help : acts com_help tt [].
Proof.
  unfold com_help. cbn [fmap list_fmap ufor_each].
  repeat (eapply acts_bind0; [eapply acts_printf; by vm_compute|]). apply acts_ret.
Qed.

Lemma acts_show_lines ls k j : 0 <= j -> j + Z.of_nat (length ls) < 1000 -> acts (show_lines j ((Some <$> ls) ++ replicate (S k) None)) tt [].
Proof.
  revert j. induction ls as [|s ls IH]; intros j Hj Hl; cbn [fmap list_fmap app replicate show_lines]; [apply acts_ret|].
  cbn [length] in Hl. eapply acts_bind0; [|apply IH; lia].
  destruct (printint_nat digits_upper ((j + 1) / 100)) as (d1 & H1 & _); [split; [apply Z.div_pos; lia|]; apply Z.div_lt_upper_bound; lia|].
  destruct (printint_nat digits_upper ((j + 1) mod 100 / 10)) as (d2 & H2 & _).
  { pose proof (Z.mod_pos_bound (j + 1) 100). split; [apply Z.div_pos; lia|]. apply Z.div_lt_upper_bound; lia. }
  destruct (printint_nat digits_upper ((j + 1) mod 10)) as (d3 & H3 & _); [pose proof (Z.mod_pos_bound (j + 1) 10); lia|].
  eapply acts_printf. cbn [arg_words]. change (lit "%d%d%d:%s" ++ [nl]) with [37; 100; 37; 100; 37; 100; 58; 37; 115; 10]. unfold printf.
  cbn [printf_loop Z.eqb Pos.eqb c_percent orb next_arg obind]. rewrite H1.
  cbn [printf_loop Z.eqb Pos.eqb c_percent orb next_arg obind]. rewrite H2.
  cbn [printf_loop Z.eqb Pos.eqb c_percent orb next_arg obind]. rewrite H3.
  cbn [printf_loop Z.eqb Pos.eqb c_percent orb next_arg obind string_arg]. done.
Qed.

Lemma acts_show ls : (length ls < MAX_LINE_NUMBER)%nat -> acts (show_text (text_of ls)) tt [].
Proof.
  intros Hl. unfold MAX_LINE_NUMBER in Hl. unfold show_text. eapply acts_bind0; [eapply acts_printf; by vm_compute|].
  eapply acts_bind0; [eapply acts_printf; by vm_compute|]. unfold text_of.
  assert (MAX_LINE_NUMBER - length ls = S (MAX_LINE_NUMBER - length ls - 1))%nat as -> by (unfold MAX_LINE_NUMBER; lia).
  apply acts_show_lines; lia.
Qed.

(** ** Commands as they are typed *)

(** A line number, or none for the last line. *)
Inductive edit :=
| EIns (n : option nat) (s : str)
| EMod (n : option nat) (s : str)
| EDel (n : option nat)
| EShow
| EHide
| EHelp.

Definition target (n : option nat) (ls : list str) : nat := default (length ls) n.

Definition accepted (e : edit) (ls : list str) : bool :=
  match e with
  | EIns n _ => bool_decide (target n ls <= length ls)%nat
  | EMod n _ | EDel n => bool_decide (1 <= target n ls <= length ls)%nat
  | _ => true
  end.

(** What a command means for the lines; a line number that is not one of
    theirs changes nothing. *)
Definition apply_edit (e : edit) (ls : list str) : list str :=
  if accepted e ls then
    match e with
    | EIns n s => insert_at (target n ls) s ls
    | EMod n s => <[(target n ls - 1)%nat := s]> ls
    | EDel n => remove_at (target n ls - 1) ls
    | _ => ls
    end
  else ls.

Definition dec (n : nat) : str :=
  match printint digits_upper (u32 (Z.of_nat n)) 10 true with Ok ds => ds | Fail _ => [] end.

Definition typed_number (n : option nat) : str := match n with Some n => 45 :: dec n | None => [] end.

(** The text follows on the same line, or, when it is empty, on a line of
    its own that the editor asks for. *)
Definition inline (s : str) : str := match s with [] => [] | _ => 32 :: s end.
Definition asked (ok : bool) (s : str) : str := match s with [] => if ok then [nl] else [] | _ => [] end.

Definition typed (ls : list str) (e : edit) : str :=
  match e with
  | EIns n s => ((lit "ins" ++ typed_number n ++ inline s) ++ [nl]) ++ asked (accepted e ls) s
  | EMod n s => ((lit "mod" ++ typed_number n ++ inline s) ++ [nl]) ++ asked (accepted e ls) s
  | EDel n => (lit "del" ++ typed_number n ++ inline []) ++ [nl]
  | EShow => line "show"
  | EHide => line "hide"
  | EHelp => line "help"
  end.

Definition edit_ok (e : edit) : Prop :=
  match e with
  | EIns n s | EMod n s => (default O n < 1000)%nat /\ typable s /\ (length s <= 240)%nat
  | EDel n => (default O n < 1000)%nat
  | _ => True
  end.

(** Numbers below 1000 print as at most three digits. *)
Definition dec_ok (n : nat) : bool :=
  (length (dec n) <=? 3)%nat && forallb (fun c => (48 <=? c) && (c <=? 57)) (dec n) && (value 10 (dec n) =? Z.of_nat n).

Lemma dec_ok_all : forallb dec_ok (seq 0 1000) = true.
Proof. by vm_compute. Qed.

Lemma dec_spec n : (n < 1000)%nat ->
  (length (dec n) <= 3)%nat /\ Forall (fun c => 48 <= c <= 57) (dec n) /\
  forall k, match k with [] => True | c :: _ => c < c_0 \/ c_9 < c end -> atoi (dec n ++ k) = Z.of_nat n.
Proof.
  intros Hn. assert (dec_ok n = true) as Hd.
  { pose proof dec_ok_all as H. rewrite forallb_forall in H. apply H. apply in_seq. lia. }
  unfold dec_ok in Hd. apply andb_prop in Hd as [Hd Hv]. apply andb_prop in Hd as [Hl Hc]. apply Nat.leb_le in Hl. apply Z.eqb_eq in Hv.
  assert (Forall (fun c => 48 <= c <= 57) (dec n)) as Hf.
  { apply Forall_forall. intros c Hin. rewrite forallb_forall in Hc. apply list_elem_of_In in Hin. specialize (Hc c Hin). lia. }
  split_and!; [done|done|]. intros k Hk. unfold atoi. rewrite atoi_loop_value.
  - exact Hv.
  - eapply Forall_impl; [exact Hf|]. intros c Hr. unfold is_digit, digit_val. cbn beta in Hr.
    unfold c_0, c_9. rewrite (proj2 (Z.leb_le 48 c)), (proj2 (Z.leb_le c 57)) by lia. cbn [andb]. repeat split; lia.
  - done.
  - done.
  - fold (value 10 (dec n)). lia.
Qed.

Lemma after_space_ok pre s k : Forall (fun c => c <> 32) pre -> (length pre < k)%nat -> nonzero s ->
  after_space k (pre ++ inline s ++ [0]) = s.
Proof.
  intros Hp. revert k. induction Hp as [|c pre Hc _ IH]; intros k Hk Hs; (destruct k as [|k]; [cbn in Hk; lia|]).
  - destruct s as [|c s]; [by destruct k|]. cbn [inline app after_space]. change (32 =? 32) with true. cbv iota.
    change (c :: s ++ [0]) with ((c :: s) ++ [0]). by apply text_cstr.
  - cbn [app after_space]. rewrite (proj2 (Z.eqb_neq _ _) Hc). apply IH; [cbn [length] in Hk; lia|done].
Qed.

Section Typed.
Context (w : str) (Hw : length w = 3%nat) (Hw32 : Forall (fun c => c <> 32) w) (Hwt : typable w).
Context (n : option nat) (Hn : (default O n < 1000)%nat) (s : str) (Hs : typable s) (Hsl : (length s <= 240)%nat).

Let input := w ++ typed_number n ++ inline s.

Lemma typed_number_ok : (length (typed_number n) <= 4)%nat /\ Forall (fun c => 45 <= c <= 57) (typed_number n).
Proof.
  destruct n as [m|]; cbn [typed_number]; [|split; [cbn; lia|done]]. destruct (dec_spec m Hn) as (Hl & Hd & _). split; [cbn; lia|].
  constructor; [lia|]. eapply Forall_impl; [exact Hd|]. cbn. lia.
Qed.

Lemma input_find : find_extra (input ++ [0]) = s.
Proof.
  destruct typed_number_ok as [Hl Hd]. unfold find_extra, input. rewrite <- !app_assoc, app_assoc. apply after_space_ok.
  - apply Forall_app. split; [done|]. eapply Forall_impl; [exact Hd|]. cbn. lia.
  - rewrite length_app. lia.
  - by apply typable_nonzero.
Qed.

Lemma input_number last : line_arg (input ++ [0]) last = match n with Some m => Z.of_nat m | None => last end.
Proof.
  unfold line_arg, input. rewrite <- !app_assoc. rewrite <- Hw, drop_app_length. destruct n as [m|]; cbn [typed_number app].
  - change (45 =? 45) with true. cbv iota. destruct (dec_spec m Hn) as (_ & _ & Ha). apply Ha. unfold c_0, c_9. destruct s; cbn; lia.
  - by destruct s.
Qed.

Lemma input_typable : typable input /\ (length input < 255)%nat.
Proof.
  destruct typed_number_ok as [Hl Hd]. unfold input. split.
  - apply Forall_app. split; [done|]. apply Forall_app. split; [eapply Forall_impl; [exact Hd|]; cbn; lia|].
    destruct s; [done|]. by constructor.
  - rewrite !length_app. assert (length (inline s) <= 241)%nat by (destruct s; cbn in *; lia). lia.
Qed.
End Typed.

(** ** Each command does what it means *)

Definition view (e : editor) (ls : list str) : Prop := ed_text e = text_of ls /\ ed_line e = Z.of_nat (length ls) - 1.

Lemma acts_content ok s : typable s -> (length s <= 240)%nat -> ok = true -> acts (content s) s (asked ok s).
Proof.
  intros Hs Hl ->. destruct s as [|c s]; cbn [content asked]; [|apply acts_ret].
  eapply acts_bind0; [eapply acts_printf; by vm_compute|]. rewrite <- (app_nil_r [nl]).
  eapply acts_bind; [apply (acts_get_input [])|]; [done|cbn; lia|]. apply acts_ret.
Qed.

Lemma acts_refresh e ls : (length ls < MAX_LINE_NUMBER)%nat ->
  acts (refresh e (text_of ls)) (mkeditor (text_of ls) (ed_line e) true (ed_show e)) [].
Proof. intros Hl. unfold refresh. eapply acts_bind0; [destruct (ed_show e); [by apply acts_show|apply acts_ret]|apply acts_ret]. Qed.

Lemma acts_ins e ls n s : view e ls -> fits ls -> typable s -> (length s <= 240)%nat -> fits (apply_edit (EIns n s) ls) ->
  exists e', ed_text e' = text_of (apply_edit (EIns n s) ls) /\
    acts (com_ins e (match n with Some m => Z.of_nat m | None => ed_line e + 1 end) s) e' (asked (accepted (EIns n s) ls) s).
Proof.
  intros [Ht Hln] Hf Hs Hsl Hf'. replace (match n with Some m => Z.of_nat m | None => _ end) with (Z.of_nat (target n ls)) by (destruct n; cbn; lia).
  unfold com_ins, apply_edit in *. rewrite Ht, get_line_number_text. case_eq (accepted (EIns n s) ls); intros Ha; rewrite ?Ha in Hf'; cbn [accepted] in Ha.
  - apply bool_decide_eq_true in Ha. rewrite (proj2 (Z.ltb_ge _ _)), (proj2 (Z.ltb_ge _ _)) by lia. cbn [orb]. eexists. split; [|].
    2:{ rewrite <- (app_nil_r (asked _ _)). eapply acts_bind; [by apply acts_content|].
        eapply acts_bind0; [apply acts_lift; rewrite Nat2Z.id; apply insert_line_ok; [done|done|unfold MAX_LINE_LENGTH; lia]|].
        apply acts_refresh. apply Hf'. }
    done.
  - apply bool_decide_eq_false in Ha. rewrite (proj2 (Z.ltb_lt (_ - 1 + 1) _)) by lia. rewrite orb_true_r. exists e. split; [done|].
    assert (asked false s = []) as -> by (by destruct s). eapply acts_bind0; [eapply acts_printf; by vm_compute|apply acts_ret].
Qed.

Lemma acts_mod e ls n s : view e ls -> fits ls -> typable s -> (length s <= 240)%nat -> fits (apply_edit (EMod n s) ls) ->
  exists e', view e' (apply_edit (EMod n s) ls) /\
    acts (com_mod e (match n with Some m => Z.of_nat m | None => ed_line e + 1 end) s) e' (asked (accepted (EMod n s) ls) s).
Proof.
  intros [Ht Hln] Hf Hs Hsl Hf'. replace (match n with Some m => Z.of_nat m | None => _ end) with (Z.of_nat (target n ls)) by (destruct n; cbn; lia).
  unfold com_mod, apply_edit in *. rewrite Ht, get_line_number_text. case_eq (accepted (EMod n s) ls); intros Ha; rewrite ?Ha in Hf'; cbn [accepted] in Ha.
  - apply bool_decide_eq_true in Ha. rewrite (proj2 (Z.leb_gt _ _)), (proj2 (Z.ltb_ge _ _)) by lia. cbn [orb].
    replace (Z.to_nat (Z.of_nat (target n ls) - 1)) with (target n ls - 1)%nat by lia.
    destruct (lookup_lt_is_Some_2 ls (target n ls - 1)) as [x Hx]; [lia|]. destruct Hf as [Hfl Hff]. eexists. split; [|].
    2:{ rewrite <- (app_nil_r (asked _ _)). eapply acts_bind; [by apply acts_content|].
        eapply acts_bind0.
        - apply acts_lift. rewrite (line_of_text _ _ x) by (done || lia). cbn [obind]. rewrite set_line_ok, text_of_set; [done|lia|lia|unfold MAX_LINE_LENGTH; lia|rewrite length_text_of; lia].
        - apply acts_refresh. apply Hf'. }
    split; cbn [ed_text ed_line]; [done|by rewrite length_insert].
  - apply bool_decide_eq_false in Ha. assert ((Z.of_nat (target n ls) <=? 0) || (Z.of_nat (length ls) - 1 + 1 <? Z.of_nat (target n ls)) = true) as -> by lia.
    exists e. split; [done|]. assert (asked false s = []) as -> by (by destruct s). eapply acts_bind0; [eapply acts_printf; by vm_compute|apply acts_ret].
Qed.

Lemma acts_del e ls n : view e ls -> fits ls -> fits (apply_edit (EDel n) ls) ->
  exists e', ed_text e' = text_of (apply_edit (EDel n) ls) /\
    acts (com_del e (match n with Some m => Z.of_nat m | None => ed_line e + 1 end)) e' [].
Proof.
  intros [Ht Hln] Hf Hf'. replace (match n with Some m => Z.of_nat m | None => _ end) with (Z.of_nat (target n ls)) by (destruct n; cbn; lia).
  unfold com_del, apply_edit in *. rewrite Ht, get_line_number_text. case_eq (accepted (EDel n) ls); intros Ha; rewrite ?Ha in Hf'; cbn [accepted] in Ha.
  - apply bool_decide_eq_true in Ha. rewrite (proj2 (Z.leb_gt _ _)), (proj2 (Z.ltb_ge _ _)) by lia. cbn [orb].
    replace (Z.to_nat (Z.of_nat (target n ls) - 1)) with (target n ls - 1)%nat by lia. eexists. split; [|].
    2:{ eapply acts_bind0; [apply acts_lift, delete_line_ok; [lia|done]|]. apply acts_refresh. apply Hf'. }
    done.
  - apply bool_decide_eq_false in Ha. assert ((Z.of_nat (target n ls) <=? 0) || (Z.of_nat (length ls) - 1 + 1 <? Z.of_nat (target n ls)) = true) as -> by lia.
    exists e. split; [done|]. eapply acts_bind0; [eapply acts_printf; by vm_compute|apply acts_ret].
Qed.

(** A round of the loop. *)
Definition round (path : str) (e : editor) : uprog (editor + unit) :=
  uprintf 1 ([nl] ++ line "please input command:") [];*;
  do* input := get_input in
  do* e := command path e input in
  uret (inl e).

Lemma acts_round path e e' i j : typable i -> (length i < 255)%nat -> acts (command path e (i ++ [0])) e' j ->
  acts (round path e) (inl e') ((i ++ [nl]) ++ j).
Proof.
  intros Hi Hl Hc. eapply acts_bind0; [eapply acts_printf; by vm_compute|]. eapply acts_bind; [by apply acts_get_input|].
  rewrite <- (app_nil_r j). eapply acts_bind; [exact Hc|apply acts_ret].
Qed.


Lemma edit_round path e ls ed :
  view e ls -> fits ls -> edit_ok ed -> fits (apply_edit ed ls) ->
  exists e', view e' (apply_edit ed ls) /\ acts (round path e) (inl e') (typed ls ed).
Proof.
  intros Hv Hf Hok Hf'. assert (forall w, In w ["ins"; "mod"; "del"]%string ->
    length (lit w) = 3%nat /\ Forall (fun c => c <> 32) (lit w) /\ typable (lit w)) as Hw.
  { intros w Hin. repeat destruct Hin as [<-|Hin]; try done; split_and!; repeat constructor; vm_compute; congruence. }
  destruct ed as [n s|n s|n| | |]; cbn [typed edit_ok] in *.
  - destruct Hok as (Hn & Hs & Hl). destruct (Hw "ins"%string) as (Hw3 & Hw32 & Hwt); [by left|].
    destruct (acts_ins e ls n s) as (e' & Ht & Ha); [done..|]. exists (recount e'). split.
    + split; cbn [recount ed_text ed_line]; [done|]. by rewrite Ht, get_line_number_text.
    + destruct (input_typable (lit "ins") Hw3 Hwt n Hn s Hs Hl) as [Hit Hil]. eapply acts_round; [done|done|]. unfold command.
      rewrite input_number, input_find by done. cbn [app]. rewrite <- (app_nil_r (asked _ _)).
      change (starts_with _ _) with true at 1. cbv iota. eapply acts_bind; [exact Ha|apply acts_ret].
  - destruct Hok as (Hn & Hs & Hl). destruct (Hw "mod"%string) as (Hw3 & Hw32 & Hwt); [by right; left|].
    destruct (acts_mod e ls n s) as (e' & Ht & Ha); [done..|]. exists e'. split; [done|].
    destruct (input_typable (lit "mod") Hw3 Hwt n Hn s Hs Hl) as [Hit Hil]. eapply acts_round; [done|done|]. unfold command.
    rewrite input_number, input_find by done. exact Ha.
  - destruct (Hw "del"%string) as (Hw3 & Hw32 & Hwt); [by right; right; left|].
    destruct (acts_del e ls n) as (e' & Ht & Ha); [done..|]. exists (recount e'). split.
    + split; cbn [recount ed_text ed_line]; [done|]. by rewrite Ht, get_line_number_text.
    + assert (typable [] /\ (length ([] : str) <= 240)%nat) as [Hs Hl] by (split; [apply Forall_nil_2|cbn; lia]).
      destruct (input_typable (lit "del") Hw3 Hwt n Hok [] Hs Hl) as [Hit Hil]. rewrite <- (app_nil_r (_ ++ [nl])).
      eapply acts_round; [done|done|]. unfold command. rewrite input_number by done. cbv zeta.
      change (starts_with (lit "ins") _) with false. change (starts_with (lit "mod") _) with false. change (starts_with (lit "del") _) with true. cbv iota.
      eapply acts_bind0; [exact Ha|apply acts_ret].
  - exists (mkeditor (ed_text e) (ed_line e) (ed_changed e) true). split; [exact Hv|]. rewrite <- (app_nil_r (line "show")).
    apply (acts_round path e _ (lit "show")); [by repeat constructor|cbn; lia|]. eapply acts_bind0; [eapply acts_printf; by vm_compute|apply acts_ret].
  - exists (mkeditor (ed_text e) (ed_line e) (ed_changed e) false). split; [exact Hv|]. rewrite <- (app_nil_r (line "hide")).
    apply (acts_round path e _ (lit "hide")); [by repeat constructor|cbn; lia|]. eapply acts_bind0; [eapply acts_printf; by vm_compute|apply acts_ret].
  - exists e. split; [exact Hv|]. rewrite <- (app_nil_r (line "help")).
    apply (acts_round path e _ (lit "help")); [by repeat constructor|cbn; lia|]. eapply acts_bind0; [apply acts_help|apply acts_ret].
Qed.

(** ** The file *)

Lemma put_bytes_end s b : put_bytes (length s) b s = s ++ b.
Proof. unfold put_bytes. rewrite firstn_all, skipn_all2 by lia. by rewrite app_nil_r. Qed.

Lemma run_write_file bytes nm s i o :
  run (sys (UWrite 3 bytes)) tt (mkdesk nm (Some s) (length s) i o) =
    Ok (Some (Z.of_nat (length bytes)), tt, mkdesk nm (Some (s ++ bytes)) (length (s ++ bytes)) i o).
Proof. rewrite run_sys. cbn [st_step desk_store]. unfold dk_write. change (3 =? 1) with false. cbn [dk_file dk_pos dk_name dk_in dk_out]. by rewrite put_bytes_end, length_app. Qed.

Lemma run_save_lines ls k nm s i o :
  run (save_lines 3 ((Some <$> ls) ++ replicate (S k) None)) tt (mkdesk nm (Some s) (length s) i o) =
    Ok (Some tt, tt, mkdesk nm (Some (s ++ mjoin (cons nl <$> ls))) (length (s ++ mjoin (cons nl <$> ls))) i o).
Proof.
  revert s. induction ls as [|l ls IH]; intros s; cbn [fmap list_fmap app replicate save_lines].
  - cbn. by rewrite app_nil_r.
  - rewrite run_ubind. assert (uprintf 3 [nl] [] = (uret [nl];*; sys (UWrite 3 [nl]);*; uret tt;*; uret tt)) as -> by done.
    rewrite run_ubind. cbn [run uret]. rewrite run_ubind, run_write_file, run_ubind. cbn [run uret]. rewrite run_ubind, run_write_file, IH.
    change (mjoin ((nl :: l) :: (cons nl <$> ls))) with ([nl] ++ l ++ mjoin (cons nl <$> ls)). by rewrite !app_assoc.
Qed.

Lemma run_save path f ls l ln ch sh i p o : (length ls < MAX_LINE_NUMBER - 1)%nat ->
  exists p' o', run (com_save (mkeditor (text_of (l :: ls)) ln ch sh) path) tt (mkdesk path f p i o) =
    Ok (Some (mkeditor (text_of (l :: ls)) ln false sh), tt, mkdesk path (Some (join_lines (l :: ls))) p' i o').
Proof.
  intros Hl. unfold com_save. rewrite run_ubind, run_sys. cbn [st_step desk_store].
  assert (exists r, dk_unlink path (mkdesk path f p i o) = (r, mkdesk path None p i o)) as [r ->].
  { unfold dk_unlink. cbn [dk_name dk_file dk_pos dk_in dk_out]. case_bool_decide as Hb; [by eexists|].
    destruct f; [|by eexists]. exfalso. by apply Hb. }
  rewrite run_ubind, run_sys. cbn [st_step desk_store]. unfold dk_open. cbn [dk_name dk_file dk_pos dk_in dk_out].
  rewrite bool_decide_true by done. change (Z.land _ O_CREATE =? 0) with false. cbn [negb]. cbv iota. change (3 =? -1) with false. cbv iota.
  cbn [ed_text]. unfold text_of at 1. cbn [fmap list_fmap app].
  rewrite run_ubind. pose proof (run_write_file l path [] i o) as Hw. cbn [length app] in Hw. rewrite Hw. clear Hw. rewrite run_ubind.
  assert (MAX_LINE_NUMBER - length (l :: ls) = S (MAX_LINE_NUMBER - length (l :: ls) - 1))%nat as -> by (cbn [length]; lia).
  rewrite run_save_lines, run_ubind, run_sys. cbn [st_step desk_store]. rewrite run_ubind.
  edestruct (acts_printf (line "saved successfully") []) as [o' Ho]; [by vm_compute|]. cbn [app] in Ho. rewrite Ho. by eexists _, o'.
Qed.

Lemma vi_load_loop fuel : forall nm f p i o,
  nonzero f -> fits (file_lines f) -> (p <= length f)%nat -> (length f - p < fuel)%nat ->
  let st := foldl add_char ([], []) (take p f) in
  exists p', run (uwhile fuel (fun '(t, ln) =>
    do* (len, bytes) := sys (URead 3 BUF_SIZE) in
    if 0 <? len then
      do* (t, ln, full) := ulift (load_chunk (S (length bytes)) bytes t ln) in
      if full : bool then uret (inr (t, ln)) else uret (inl (t, ln))
    else uret (inr (t, ln))) (text_of (lines_of st), length (fst st))) tt (mkdesk nm (Some f) p i o) =
  Ok (Some (text_of (file_lines f), length (fst (foldl add_char ([], []) f))), tt, mkdesk nm (Some f) p' i o).
Proof.
  induction fuel as [|fuel IH]; intros nm f p i o Hz Hf Hp Hfuel st; [lia|]. cbn [uwhile]. rewrite run_ubind, run_ubind, run_sys.
  cbn [st_step desk_store]. unfold dk_read. change (3 =? 0) with false. cbv iota. cbn [dk_file dk_pos dk_name dk_in dk_out].
  change (Z.to_nat BUF_SIZE) with 256%nat. set (bytes := take 256 (drop p f)).
  assert (f = take p f ++ bytes ++ drop 256 (drop p f)) as Hsplit by (unfold bytes; by rewrite !take_drop).
  destruct (decide (bytes = [])) as [Hb|Hb].
  - rewrite Hb. cbn [length]. change (0 <? Z.of_nat 0) with false. cbv iota. cbn [run uret]. eexists. unfold file_lines, st.
    assert (take p f = f) as ->; [|done]. apply firstn_all2. apply (f_equal length) in Hb. unfold bytes in Hb. rewrite length_take, length_drop in Hb. cbn [length] in Hb. lia.
  - assert (0 < length bytes)%nat as Hpos by (destruct bytes; [done|cbn; lia]). rewrite (proj2 (Z.ltb_lt _ _)) by lia.
    assert (length bytes <= length f - p)%nat as Hle by (unfold bytes; rewrite length_take, length_drop; lia).
    assert (foldl add_char ([], []) (take (p + length bytes) f) = foldl add_char st bytes) as Hst.
    { unfold st. rewrite <- foldl_app. f_equal. rewrite Hsplit at 1. rewrite app_assoc.
      rewrite take_app_le by (rewrite length_app, length_take; lia). apply firstn_all2. rewrite length_app, length_take. lia. }
    assert (load_chunk (S (length bytes)) bytes (text_of (lines_of st)) (length (fst st)) =
      Ok (text_of (lines_of (foldl add_char st bytes)), length (fst (foldl add_char st bytes)), false)) as Hload.
    { destruct st as [q d] eqn:Hqd. apply load_chunk_ok; [|lia|].
      - unfold nonzero in *. rewrite Hsplit, !Forall_app in Hz. naive_solver.
      - unfold file_lines in Hf. rewrite Hsplit, !foldl_app in Hf. fold st in Hf. rewrite Hqd in Hf. by eapply fits_before. }
    rewrite run_ubind, Hload. cbn [ulift run uret]. rewrite <- Hst. apply IH; [done|done|lia|lia].
Qed.

(** ** A session *)

(** The commands typed one after the other, then [save] and [exit]. *)
Fixpoint typed_all (ls : list str) (es : list edit) : str :=
  match es with
  | [] => line "save" ++ line "exit"
  | e :: es => typed ls e ++ typed_all (apply_edit e ls) es
  end.

Definition edited (ls : list str) (es : list edit) : list str := foldl (fun ls e => apply_edit e ls) ls es.

(** At every moment the lines fit. *)
Fixpoint all_fit (ls : list str) (es : list edit) : Prop :=
  fits ls /\ match es with [] => True | e :: es => all_fit (apply_edit e ls) es end.

Lemma apply_edit_nonempty e ls : ls <> [] -> apply_edit e ls <> [].
Proof.
  intros Hl. unfold apply_edit. destruct (accepted e ls), e; try done.
  - unfold insert_at. by destruct (take _ ls).
  - by destruct ls, (target n _ - 1)%nat.
  - unfold remove_at. by destruct (delete _ ls).
Qed.

Lemma run_round path e i nm f p r o : typable i -> (length i < 255)%nat ->
  exists o', run (round path e) tt (mkdesk nm f p ((i ++ [nl]) ++ r) o) =
    run (do* e := command path e (i ++ [0]) in uret (inl e)) tt (mkdesk nm f p r o').
Proof.
  intros Hi Hl. unfold round. rewrite run_ubind. edestruct (acts_printf ([nl] ++ line "please input command:") []) as [o1 Ho1]; [by vm_compute|].
  cbn [app] in Ho1. rewrite Ho1, run_ubind. destruct (acts_get_input i Hi Hl nm f p r o1) as [o2 ->]. by exists o2.
Qed.

Lemma run_rounds path es : forall fuel e ls f p o,
  view e ls -> ls <> [] -> Forall edit_ok es -> all_fit ls es -> (length es + 2 <= fuel)%nat ->
  exists w, run (uwhile fuel (round path) e) tt (mkdesk path f p (typed_all ls es) o) = Ok (None, tt, w) /\
    dk_file w = Some (join_lines (edited ls es)).
Proof.
  induction es as [|ed es IH]; intros fuel e ls f p o Hv Hne Hok [Hf Hfit] Hfuel; cbn [typed_all edited foldl length] in *.
  - destruct fuel as [|[|fuel]]; [lia|lia|]. cbn [uwhile]. rewrite run_ubind.
    change (line "save" ++ line "exit") with ((lit "save" ++ [nl]) ++ line "exit").
    destruct (run_round path e (lit "save") path f p (line "exit") o) as [o1 ->]; [by repeat constructor|cbn; lia|].
    change (command path e (lit "save" ++ [0])) with (com_save e path).
    destruct ls as [|l ls]; [done|]. destruct e as [t ln ch sh], Hv as [Ht Hln], Hf as [Hl _]. cbn [ed_text ed_line length] in *. subst t.
    rewrite run_ubind. destruct (run_save path f ls l ln ch sh (line "exit") p o1) as (p' & o2 & ->); [lia|]. cbn [run uret]. rewrite run_ubind.
    rewrite <- (app_nil_r (line "exit")). change (line "exit" ++ []) with ((lit "exit" ++ [nl]) ++ []).
    match goal with |- context [round path ?e] => destruct (run_round path e (lit "exit") path (Some (join_lines (l :: ls))) p' [] o2) as [o3 ->] end;
      [by repeat constructor|cbn; lia|].
    rewrite run_ubind. change (command path ?e (lit "exit" ++ [0])) with (com_exit e path). unfold com_exit. cbn [ed_changed ed_text]. rewrite run_ubind. cbn [run uret].
    rewrite run_ubind. assert (existsb (fun x : option str => match x with None => true | Some _ => false end) (text_of (l :: ls)) = true) as ->.
    { apply existsb_exists. exists None. split; [|done]. apply list_elem_of_In, list_elem_of_lookup. exists (length (l :: ls)).
      rewrite lookup_text_of by (cbn [length]; lia). cbn [length]. rewrite decide_True by lia. f_equal. apply lookup_ge_None_2. cbn [length]. lia. }
    cbn [run uret exit]. eexists. split; [done|]. done.
  - destruct fuel as [|fuel]; [lia|]. apply Forall_cons in Hok as [Hed Hok]. cbn [uwhile]. rewrite run_ubind.
    destruct (edit_round path e ls ed Hv Hf Hed) as (e' & Hv' & Ha); [by destruct es; apply Hfit|].
    destruct (Ha path f p (typed_all (apply_edit ed ls) es) o) as [o' ->].
    apply IH; [done|by apply apply_edit_nonempty|done|done|lia].
Qed.

(** C32: the editor edits a list of lines.  A session that opens a file (or
    names one that does not exist), types any sequence of commands, then
    [save] and [exit], runs to its end without an access outside the array or
    a line buffer, and leaves in the file the lines of the file with the
    insertions, changes and deletions the commands mean, joined by newlines;
    with no commands, the file as it was.  The lines stay below 256, and below
    256 characters each, and the text has no NUL. *)
Theorem vi_session (prog path : str) (f : option str) (es : list edit) (fuel : nat) :
  nonzero (default [] f) -> Forall edit_ok es -> all_fit (file_lines (default [] f)) es ->
  (length (default [] f) + length es + 2 <= fuel)%nat ->
  (exists w, run (vi_main fuel [prog; path]) tt (mkdesk path f 0 (typed_all (file_lines (default [] f)) es) []) = Ok (None, tt, w) /\
     dk_file w = Some (join_lines (edited (file_lines (default [] f)) es))) /\
  join_lines (edited (file_lines (default [] f)) []) = default [] f.
Proof.
  intros Hz Hok Hfit Hfuel. split; [|apply join_file_lines].
  assert (fits (file_lines (default [] f))) as Hf by (by destruct es; apply Hfit).
  set (s := default [] f) in *. cbn [vi_main]. rewrite run_ubind, run_sys. cbn [st_step desk_store].
  assert (exists p r, dk_open path O_RDONLY (mkdesk path f 0 (typed_all (file_lines s) es) []) = (r, mkdesk path f p (typed_all (file_lines s) es) []) /\
    exists p', run (if negb (r =? -1) then do* x := load fuel r in sys (UClose r);*; uret x else uret (new_text, 0%nat)) tt
      (mkdesk path f p (typed_all (file_lines s) es) []) =
    Ok (Some (text_of (file_lines s), length (fst (foldl add_char ([], []) s))), tt, mkdesk path f p' (typed_all (file_lines s) es) [])) as (p & r & -> & p' & Hload).
  { unfold dk_open. cbn [dk_name dk_file dk_pos dk_in dk_out]. rewrite bool_decide_true by done. cbn [negb]. destruct f as [c|]; cbn [default from_option id] in s; subst s.
    - exists 0%nat, 3. split; [done|]. change (negb (3 =? -1)) with true. cbv iota. rewrite run_ubind. unfold load.
      destruct (vi_load_loop fuel path c 0 (typed_all (file_lines c) es) [] Hz Hf) as [p' Hl]; [lia|lia|].
      exists p'. change (text_of (lines_of (foldl add_char ([], []) (take 0 c)))) with new_text in Hl.
      change (length (fst (foldl add_char ([], []) (take 0 c)))) with 0%nat in Hl. by rewrite Hl.
    - exists 0%nat, (-1). split; [done|]. by exists 0%nat. }
  rewrite run_ubind, Hload, run_ubind. destruct (acts_show (file_lines s) (proj1 Hf) path f p' (typed_all (file_lines s) es) []) as [o1 Ho1].
  cbn [app] in Ho1. rewrite Ho1, run_ubind. destruct (acts_help path f p' (typed_all (file_lines s) es) o1) as [o2 Ho2]. cbn [app] in Ho2. rewrite Ho2.
  apply run_rounds; [|unfold file_lines, lines_of; by destruct (fst _)|done|done|lia].
  split; cbn [ed_text ed_line]; [done|]. unfold file_lines, lines_of. rewrite length_app. cbn [length]. lia.
Qed.

Definition demo_edits : list edit :=
  [EIns (Some 1%nat) (lit "new"); EMod None []; EDel (Some 1%nat); EHide; EDel (Some 9%nat); EIns None (lit "end")].

Lemma vi_session_witness :
  exists w, run (vi_main 20 [lit "vi"; lit "f"]) tt (mkdesk (lit "f") (Some (lit "a" ++ [nl] ++ lit "b c")) 0
    (lit "ins-1 new" ++ [nl] ++ lit "mod" ++ [nl; nl] ++ lit "del-1" ++ [nl] ++ lit "hide" ++ [nl] ++ lit "del-9" ++ [nl] ++ lit "ins end" ++ [nl] ++
     lit "save" ++ [nl] ++ lit "exit" ++ [nl]) []) = Ok (None, tt, w) /\
    dk_file w = Some (lit "new" ++ [nl; nl] ++ lit "end").
Proof.
  destruct (vi_session (lit "vi") (lit "f") (Some (lit "a" ++ [nl] ++ lit "b c")) demo_edits 20) as [(w & Hw & Hf) _].
  - by repeat constructor.
  - repeat constructor; try done; cbn; lia.
  - repeat split; try (cbn; unfold MAX_LINE_NUMBER; lia); repeat constructor; unfold MAX_LINE_LENGTH; cbn; lia.
  - cbn. lia.
  - exists w. split; [exact Hw|exact Hf].
Defined.

(** A file of 256 lines fills the array: listing it reads past the end. *)
Lemma vi_full_array :
  run (vi_main 20 [lit "vi"; lit "f"]) tt (mkdesk (lit "f") (Some (replicate 255 nl)) 0 [] []) = Fail (Undef "index outside an array").
Proof. by vm_compute. Qed.

(** The end of the input makes the editor write before its buffer. *)
Lemma vi_end_of_input :
  run (vi_main 20 [lit "vi"; lit "f"]) tt (mkdesk (lit "f") None 0 [] []) = Fail (Undef "index outside an array").
Proof. by vm_compute. Qed.
