(* ===== verification/Uls.v ===== *)
(** * Listing directories: [ls.c]

    [ls] reads a directory as a file of entries, of either file system, and
    asks [stat] for each name. *)

From stdpp Require Import base gmap strings numbers list.
From S2P Require Import Prelude Prog CString Layout State SfsInode SfsDir FatBase FatDir Printf Usys.

(** ** Dates, names and kinds of entries *)

Definition getDay (date : Z) : Z := Z.land date 0x1f.
Definition getMonth (date : Z) : Z := Z.land (Z.shiftr date 5) 0x0F.
Definition getYear (date : Z) : Z := u16 (1980 + Z.shiftr date 9).
Definition getSecond (time tenth : Z) : Z := u8 (2 * Z.land time 0x1f + tenth / 100).
Definition getMinute (time : Z) : Z := Z.land (Z.shiftr time 5) 0x3f.
Definition getHour (time : Z) : Z := u8 (Z.shiftr time 11).

Definition getDIRType (ldir : list Z) : Z :=
  if (LDIR_Ord ldir =? 0xE5) || (LDIR_Ord ldir =? 0) then FAT_TYPE_EMPTY
  else if Z.land (DIR_Attr ldir) FAT_TYPE_LNMASK =? FAT_TYPE_LNAME then FAT_TYPE_LNAME
  else
    let a := Z.land (DIR_Attr ldir) (Z.lor FAT_TYPE_DIR FAT_TYPE_VOLLBL) in
    if a =? 0 then FAT_TYPE_FILE
    else if a =? FAT_TYPE_DIR then FAT_TYPE_DIR
    else if a =? FAT_TYPE_VOLLBL then FAT_TYPE_VOLLBL
    else FAT_TYPE_ERROR.

Definition getChkSum (name : list Z) : Z :=
  foldl (fun sum c => u8 ((if Z.testbit sum 0 then 0x80 else 0) + Z.shiftr sum 1 + c)) 0 (take 11 name).

(** The test for 0xFF is on a signed [char] and never holds. *)
Fixpoint copylongname (src : list Z) : str :=
  match src with
  | [] => []
  | c :: src => if negb (c =? 0) && negb (s8 c =? 0xFF) then c :: copylongname src else []
  end.

(** The part of a path after its last slash, blank-padded. *)
Fixpoint after_slash (name path : str) : str :=
  match path with
  | [] => name
  | c :: path => if c =? 47 then after_slash path path else after_slash name path
  end.
Definition fmtname (path : str) : str :=
  let p := after_slash path path in
  if (14 <=? length p)%nat then p else p ++ replicate (14 - length p) 32.

(** ** Directories of the simple file system *)

(** One entry after the [while] test *)
Definition sfs_ls_entry (path : str) (de : list Z) : uprog unit :=
  if get_u16 0 de =? 0 then uret tt
  else
    let buf := path ++ [47] ++ cstr (slice 2 14 de) in
    do* (r, st) := stat buf in
    if r <? 0 then uprintf 1 (line "ls: cannot stat %s") [PStr buf]
    else if st_type st =? T_DIR then uprintf 1 (line "%s DIR  %d %d") [PStr (fmtname buf); PInt (st_ino st); PInt (st_size st)]
    else if st_type st =? T_FILE then uprintf 1 (line "%s FILE %d %d") [PStr (fmtname buf); PInt (st_ino st); PInt (st_size st)]
    else uprintf 1 (line "%s DEV  %d %d") [PStr (fmtname buf); PInt (st_ino st); PInt (st_size st)].

Definition sfs_ls (fuel : nat) (path : str) (fd : Z) (st : ustat) : uprog unit :=
  if st_type st =? T_FILE then uprintf 1 (line "%s %d %d %d") [PStr (fmtname path); PInt (st_type st); PInt (st_ino st); PInt (st_size st)]
  else if st_type st =? T_DIR then
    if 512 <? Z.of_nat (length path) + 1 + 14 + 1 then uprintf 1 (line "ls: path too long") []
    else
      uwhile fuel (fun _ : unit =>
        do* (n, de) := sys (URead fd 16) in
        if n =? 16 then sfs_ls_entry path de;*; uret (inl tt) else uret (inr tt)) tt
  else uret tt.

(** ** Directories of the FAT file system *)

(** [namebuf], [chksum], [ord] and [nbp] *)
Record lname := mklname { ln_buf : list Z; ln_chksum : Z; ln_ord : Z; ln_nbp : Z }.

(** [namebuf[nbp - off + i] = name[i] > 255 ? '_' : name[i]] for the [k]
    characters at [pos] of the entry *)
Definition put_chars (nbp off : Z) (pos k : nat) (de : list Z) (buf : list Z) : outcome (list Z) :=
  foldl (fun o i =>
    let? b := o in
    let c := get_u16 (pos + 2 * i) de in
    if nbp - off + Z.of_nat i <? 0 then oob
    else wr b (Z.to_nat (nbp - off + Z.of_nat i)) (if 255 <? c then 95 else c)) (Ok buf) (seq 0 k).

Definition fat_lname (de : list Z) (l : lname) : uprog lname :=
  do* l :=
    (if negb (Z.land (LDIR_Ord de) FAT_TYPE_LLNMASK =? 0) then
       uret (mklname (ln_buf l) (LDIR_ChkSum de) (LDIR_Ord de - FAT_TYPE_LLNMASK) (14 - 1))
     else if negb (ln_chksum l =? LDIR_ChkSum de) then uprintf 1 (line "ls: long filename wrong") [];*; uret l
     else
       let l := mklname (ln_buf l) (ln_chksum l) (ln_ord l - 1) (ln_nbp l) in
       (if negb (ln_ord l =? LDIR_Ord de) then uprintf 1 (line "ls: long filename wrong") [] else uret tt);*; uret l) in
  do* b := ulift (let? b := put_chars (ln_nbp l) 2 28 2 de (ln_buf l) in
                  let? b := put_chars (ln_nbp l) 8 14 6 de b in
                  put_chars (ln_nbp l) 13 1 5 de b) in
  uret (mklname b (ln_chksum l) (ln_ord l) (ln_nbp l - 13)).

(** The name put after the slash: within [buf], and cut at [DIRSIZ] *)
Definition entry_name (path : str) (de : list Z) (l : lname) : outcome str :=
  let room := (512 - length path - 1)%nat in
  let? s :=
    (if getChkSum de =? ln_chksum l then
       if (ln_nbp l <? 0) || (261 <=? ln_nbp l) then oob
       else
         let s := copylongname (drop (Z.to_nat (ln_nbp l)) (ln_buf l)) in
         if (length s <? room)%nat then Ok s else oob
     else let? b := copyshortname (replicate room 0) de in Ok (cstr b)) in
  Ok (take 14 s).

Definition fat_ls_file (path : str) (de : list Z) (l : lname) : uprog unit :=
  do* name := ulift (entry_name path de l) in
  let buf := path ++ [47] ++ name in
  do* (r, st) := stat buf in
  if r <? 0 then uprintf 1 (line "ls: cannot stat %s") [PStr buf]
  else
    let show fmt :=
      uprintf 1 (line fmt)
        [PStr (fmtname buf); PInt (st_ino st); PInt (st_size st); PInt (getYear (DIR_CrtDate de)); PInt (getMonth (DIR_CrtDate de));
         PInt (getDay (DIR_CrtDate de)); PInt (getHour (DIR_CrtTime de)); PInt (getMinute (DIR_CrtTime de));
         PInt (getSecond (DIR_CrtTime de) (DIR_CrtTimeTenth de))] in
    if st_type st =? T_DIR then show "%s DIR  %d %d %d-%d-%d %d:%d:%d"%string
    else if st_type st =? T_FILE then show "%s FILE %d %d %d-%d-%d %d:%d:%d"%string
    else show "%s DEV  %d %d %d-%d-%d %d:%d:%d"%string.

Definition fat_ls_entry (path : str) (de : list Z) (l : lname) : uprog lname :=
  let ty := getDIRType de in
  if (ty =? FAT_TYPE_VOLLBL) || (ty =? FAT_TYPE_EMPTY) then uret l
  else if ty =? FAT_TYPE_ERROR then uprintf 1 (line "ls: wrong DIR entry") [];*; uret l
  else if ty =? FAT_TYPE_LNAME then fat_lname de l
  else fat_ls_file path de l;*; uret l.

Definition fat_ls (fuel : nat) (path : str) (fd : Z) (st : ustat) : uprog unit :=
  if st_type st =? T_FILE then uprintf 1 (line "%s %d %d %d") [PStr (fmtname path); PInt (st_type st); PInt (st_ino st); PInt (st_size st)]
  else if st_type st =? T_DIR then
    if 512 <? Z.of_nat (length path) + 1 + 14 + 1 then uprintf 1 (line "ls: path too long") []
    else
      uwhile fuel (fun l =>
        do* (n, de) := sys (URead fd 32) in
        if n =? 32 then do* l := fat_ls_entry path de l in uret (inl l) else uret (inr tt))
        (mklname (replicate 261 0) 0 0 0)
  else uret tt.

Definition ls (fuel : nat) (path : str) : uprog unit :=
  do* fd := sys (UOpen path 0) in
  if fd <? 0 then uprintf 2 (line "ls: cannot open %s") [PStr path]
  else
    do* (r, st) := sys (UFstat fd) in
    if r <? 0 then uprintf 2 (line "ls: cannot stat %s") [PStr path];*; sys (UClose fd);*; uret tt
    else
      (if st_fstype st =? 1 then sfs_ls fuel path fd st
       else if st_fstype st =? 2 then fat_ls fuel path fd st
       else uret tt);*;
      sys (UClose fd);*; uret tt.

Definition ls_main (fuel : nat) (argv : list str) : uprog unit :=
  match argv with
  | [] | [_] => ls fuel (lit ".");*; exit
  | _ :: paths => ufor_each paths (ls fuel);*; exit
  end.

(** ** What is listed *)

(** A directory being read, what [stat] says of each path, the path opened
    last and the output. *)
Record shelf := mkshelf { sh_left : list (list Z); sh_stat : str -> option ustat; sh_cur : str; sh_out : str }.

Definition no_stat : ustat := mkustat 0 0 0 0 0 0.

#[global] Instance shelf_store : Store usysE shelf := {
  st_step X e w :=
    match e in usysE X return outcome (X * shelf) with
    | URead fd n =>
        match sh_left w with
        | [] => Ok ((0, []), w)
        | de :: l => Ok ((Z.of_nat (length de), de), mkshelf l (sh_stat w) (sh_cur w) (sh_out w))
        end
    | UWrite fd bytes => Ok (Z.of_nat (length bytes), mkshelf (sh_left w) (sh_stat w) (sh_cur w) (sh_out w ++ bytes))
    | UOpen path mode =>
        match sh_stat w path with
        | Some _ => Ok (4, mkshelf (sh_left w) (sh_stat w) path (sh_out w))
        | None => Ok (-1, w)
        end
    | UFstat fd => Ok ((0, default no_stat (sh_stat w (sh_cur w))), w)
    | UClose fd => Ok (0, w)
    | UPipe => Ok ((-1, 0, 0), w)
    | UGetcwd n => Ok ((-1, []), w)
    | UDup _ | UUnlink _ | UMkdir _ | UChdir _ | URemove _ | UTouch _ => Ok (-1, w)
    | ULink _ _ | UCopy _ _ | UMove _ _ | UMknod _ _ _ | UExec _ _ => Ok (-1, w)
    | UFork | UWait | UHalt => Ok (-1, w) | UKill _ | USleep _ => Ok (-1, w)
    end;
  st_trace X e w := [];
  st_disk w := ∅;
}.

(** The line for an entry: blank-padded name, kind, i-number and size in
    decimal, as the ints they are printed as. *)
Definition decimal (v : Z) : str := match printint digits_upper (u32 v) 10 true with Ok ds => ds | Fail _ => [] end.

Definition kind_name (ty : Z) : str :=
  if ty =? T_DIR then lit " DIR  " else if ty =? T_FILE then lit " FILE " else lit " DEV  ".

Definition list_line (stats : str -> option ustat) (path : str) (de : list Z) : str :=
  if get_u16 0 de =? 0 then []
  else
    let p := path ++ [47] ++ cstr (slice 2 14 de) in
    match stats p with
    | None => lit "ls: cannot stat " ++ p ++ [nl]
    | Some st => fmtname p ++ kind_name (st_type st) ++ decimal (st_ino st) ++ [32] ++ decimal (st_size st) ++ [nl]
    end.

Lemma run_put_shelf (out : str) l s c o :
  run (ufor_each out (fun c => sys (UWrite 1 [c]);*; uret tt)) tt (mkshelf l s c o) = Ok (Some tt, tt, mkshelf l s c (o ++ out)).
Proof.
  revert o. induction out as [|x out IH]; intros o; cbn [ufor_each]; [by rewrite app_nil_r|].
  rewrite !run_ubind, run_sys. cbn [st_step shelf_store run uret sh_left sh_stat sh_cur sh_out]. by rewrite IH, <- app_assoc.
Qed.

Lemma run_printf_shelf fmt args out l s c o : printf digits_upper (arg_load args) fmt (arg_words 1 args) = Ok out ->
  run (uprintf 1 fmt args) tt (mkshelf l s c o) = Ok (Some tt, tt, mkshelf l s c (o ++ out)).
Proof. intros Hp. unfold uprintf. rewrite run_ubind, Hp. cbn [ulift run uret]. apply run_put_shelf. Qed.

(** [printf] of ["%s" ++ mid ++ "%d %d\n"] *)
Lemma printf_entry (mid name : str) (a b : Z) :
  mid = lit " DIR  " \/ mid = lit " FILE " \/ mid = lit " DEV  " ->
  printf digits_upper (arg_load [PStr name; PInt a; PInt b]) ([37; 115] ++ mid ++ [37; 100; 32; 37; 100; 10]) (arg_words 1 [PStr name; PInt a; PInt b]) =
    Ok (name ++ mid ++ decimal a ++ [32] ++ decimal b ++ [10]).
Proof.
  intros Hmid. destruct (printint_spec digits_upper (u32 a) 10 true (or_introl eq_refl)) as (da & Ha & _).
  destruct (printint_spec digits_upper (u32 b) 10 true (or_introl eq_refl)) as (db & Hb & _).
  assert (decimal a = (if true && (s32 (u32 a) <? 0) then [c_minus] else []) ++ da) as Hda by (unfold decimal; by rewrite Ha).
  assert (decimal b = (if true && (s32 (u32 b) <? 0) then [c_minus] else []) ++ db) as Hdb by (unfold decimal; by rewrite Hb).
  rewrite <- Hda in Ha. rewrite <- Hdb in Hb. clear Hda Hdb. cbn [arg_words]. unfold printf.
  assert (arg_load [PStr name; PInt a; PInt b] 1 = name) as Hn by done. revert Hn. generalize (arg_load [PStr name; PInt a; PInt b]) as ld. intros ld Hn.
  destruct Hmid as [-> | [-> | ->]];
    (match goal with |- context [[37; 115] ++ lit ?m ++ _] => let x := eval vm_compute in (lit m) in change (lit m) with x end;
     cbn [app printf_loop Z.eqb Pos.eqb c_percent orb next_arg obind string_arg]; rewrite Hn, Ha;
     cbn [printf_loop Z.eqb Pos.eqb c_percent orb next_arg obind]; rewrite Hb;
     cbn [printf_loop Z.eqb Pos.eqb c_percent orb next_arg obind]; by rewrite <- ?app_assoc).
Qed.

Lemma run_stat p l s c o :
  run (stat p) tt (mkshelf l s c o) =
    match s p with
    | Some st => Ok (Some (0, st), tt, mkshelf l s p o)
    | None => Ok (Some (-1, no_stat), tt, mkshelf l s c o)
    end.
Proof.
  unfold stat. rewrite run_ubind, run_sys. cbn [st_step shelf_store sh_stat sh_left sh_out]. destruct (s p) as [st|] eqn:Hp; [|done].
  change (4 <? 0) with false. cbv iota. rewrite run_ubind, run_sys. cbn [st_step shelf_store sh_stat sh_cur]. rewrite Hp. cbn [default from_option id].
  by rewrite run_ubind, run_sys.
Qed.

Lemma run_entry path de l s c o :
  exists c', run (sfs_ls_entry path de) tt (mkshelf l s c o) = Ok (Some tt, tt, mkshelf l s c' (o ++ list_line s path de)).
Proof.
  unfold sfs_ls_entry, list_line. destruct (get_u16 0 de =? 0); [exists c; by rewrite app_nil_r|].
  set (p := path ++ [47] ++ cstr (slice 2 14 de)). rewrite run_ubind, run_stat. destruct (s p) as [st|].
  - exists p. change (0 <? 0) with false. cbv iota. unfold kind_name. destruct (st_type st =? T_DIR); [|destruct (st_type st =? T_FILE)];
      (apply run_printf_shelf; rewrite <- printf_entry by auto; done).
  - exists c. change (-1 <? 0) with true. cbv iota. apply run_printf_shelf. unfold printf.
    match goal with |- context [line ?m] => let x := eval vm_compute in (line m) in change (line m) with x end.
    cbn [printf_loop Z.eqb Pos.eqb c_percent orb next_arg obind string_arg arg_words]. done.
Qed.

(** [ls] of a directory of the simple file system puts out one line for
    every entry in use, in the order of the directory: the name, padded, the
    kind, i-number and size [stat] gives, or that there is no such file.  Free
    entries are passed over. *)
Theorem sfs_ls_listing (entries : list (list Z)) (stats : str -> option ustat) (path out cur : str) (st : ustat) (fd : Z) (fuel : nat) :
  st_type st = T_DIR -> (length path <= 496)%nat -> Forall (fun de => length de = 16%nat) entries -> (length entries < fuel)%nat ->
  exists cur', run (sfs_ls fuel path fd st) tt (mkshelf entries stats cur out) =
    Ok (Some tt, tt, mkshelf [] stats cur' (out ++ mjoin (list_line stats path <$> entries))).
Proof.
  intros Hst Hp He Hf. unfold sfs_ls. rewrite Hst. change (T_DIR =? T_FILE) with false. change (T_DIR =? T_DIR) with true. cbv iota.
  rewrite (proj2 (Z.ltb_ge _ _)) by lia. revert fuel out cur Hf. induction He as [|de l Hde Hl IH]; intros fuel out cur Hf; (destruct fuel as [|fuel]; [cbn in Hf; lia|]); cbn [uwhile].
  - exists cur. cbn. by rewrite app_nil_r.
  - rewrite run_ubind, run_ubind, run_sys. cbn [st_step shelf_store sh_left sh_stat sh_cur sh_out]. rewrite Hde. change (Z.of_nat 16 =? 16) with true. cbv iota.
    rewrite run_ubind. destruct (run_entry path de l stats cur out) as [c' ->]. cbn [run uret].
    destruct (IH fuel (out ++ list_line stats path de) c') as [c'' ->]; [cbn [length] in Hf; lia|]. exists c''. cbn [fmap list_fmap].
    change (mjoin (list_line stats path de :: (list_line stats path <$> l))) with (list_line stats path de ++ mjoin (list_line stats path <$> l)). by rewrite app_assoc.
Qed.

Definition demo_de (inum : Z) (name : str) : list Z := inum :: 0 :: name ++ replicate (14 - length name) 0.

Lemma sfs_ls_listing_witness :
  exists cur, run (sfs_ls 9 (lit "/d") 3 (mkustat T_DIR 0 7 1 48 1)) tt
    (mkshelf [demo_de 7 (lit "."); demo_de 0 (lit "gone"); demo_de 9 (lit "f")]
       (fun p => if bool_decide (p = lit "/d/f") then Some (mkustat T_FILE 0 9 1 120 1) else None) [] []) =
    Ok (Some tt, tt, mkshelf []
       (fun p => if bool_decide (p = lit "/d/f") then Some (mkustat T_FILE 0 9 1 120 1) else None) cur
       (lit "ls: cannot stat /d/." ++ [nl] ++ lit "f              FILE 9 120" ++ [nl])).
Proof.
  edestruct (sfs_ls_listing [demo_de 7 (lit "."); demo_de 0 (lit "gone"); demo_de 9 (lit "f")]
    (fun p => if bool_decide (p = lit "/d/f") then Some (mkustat T_FILE 0 9 1 120 1) else None) (lit "/d") [] [] (mkustat T_DIR 0 7 1 48 1) 3 9) as [cur H];
    [done|cbn; lia|by repeat constructor|cbn; lia|].
  exists cur. rewrite H. by vm_compute.
Defined.

(** A long name in two entries (more than 13 characters): the second is
    written before the start of [namebuf]. *)
Definition long_entry (ord : Z) : list Z := ord :: replicate 10 97 ++ [0x0F; 0; 5] ++ replicate 12 97 ++ [0; 0] ++ replicate 4 97.

Lemma fat_ls_long_name :
  run (fat_ls 9 (lit "/d") 3 (mkustat T_DIR 0 7 1 48 2)) tt (mkshelf [long_entry 0x42; long_entry 1] (fun _ => None) [] []) =
    Fail (Undef "access outside a buffer").
Proof. by vm_compute. Qed.
