(* ===== verification/ShRun.v ===== *)
(** * The shell's execution: [runcmd], [getcmd] and [main] of [sh.c]

    The shell is a tree of system calls that forks.  To say what a command
    line does, the tree is followed in parent and child, with the descriptors
    each has and with both answers the kernel may give to [open], [pipe],
    [fork] and [exec]: the result is the behaviour of a whole family of
    processes. *)

From stdpp Require Import base gmap strings numbers list.
From S2P Require Import Prelude Prog CString Printf Shell ShellGrammar Usys.

(** [panic] of the shell *)
Definition sh_panic {A} (s : str) : uprog A := uprintf 2 (line "%s") [PStr s];*; exit.

Definition fork1 : uprog Z :=
  do* pid := sys UFork in
  if pid =? -1 then sh_panic (lit "fork") else uret pid.

(** [char cmdstr[10]] *)
Definition cmdstr (a : str) : outcome str := if (length a <=? 8)%nat then Ok (47 :: a) else Fail (Undef "index outside an array").

(** Never returns: the last call is [exit]. *)
Fixpoint runcmd (c : cmd str) : uprog unit :=
  match c with
  | EXEC [] => exit
  | EXEC ((a :: _) as argv) =>
      do* path := ulift (cmdstr a) in
      sys (UExec path argv);*;
      uprintf 2 (line "exec %s failed") [PStr a];*;
      exit
  | REDIR c file mode fd =>
      sys (UClose fd);*;
      do* r := sys (UOpen file mode) in
      if r <? 0 then uprintf 2 (line "open %s failed") [PStr file];*; exit
      else runcmd c;*; exit
  | LIST l r =>
      do* pid := fork1 in
      (if pid =? 0 then runcmd l else uret tt);*;
      sys UWait;*;
      runcmd r;*;
      exit
  | PIPE l r =>
      do* (e, p0, p1) := sys UPipe in
      (if e <? 0 then sh_panic (lit "pipe") else uret tt);*;
      do* pid := fork1 in
      (if pid =? 0 then sys (UClose 1);*; sys (UDup p1);*; sys (UClose p0);*; sys (UClose p1);*; runcmd l else uret tt);*;
      do* pid := fork1 in
      (if pid =? 0 then sys (UClose 0);*; sys (UDup p0);*; sys (UClose p0);*; sys (UClose p1);*; runcmd r else uret tt);*;
      sys (UClose p0);*;
      sys (UClose p1);*;
      sys UWait;*;
      sys UWait;*;
      exit
  | BACK c =>
      do* pid := fork1 in
      (if pid =? 0 then runcmd c else uret tt);*;
      exit
  end.

(** What [parsecmd] leaves of the line, if it is not all of it *)
Definition leftovers (s : str) : option str :=
  match parseline (4 * length s + 8) s with
  | Ok (_, r) => match fst (peek r []) with [] => None | r => Some r end
  | Fail _ => None
  end.

(** [parsecmd(buf)], with what it prints before it gives up *)
Definition sh_parse (s : str) : uprog (cmd str) :=
  match leftovers s with
  | Some r => uprintf 2 (line "leftovers: %s") [PStr r];*; sh_panic (lit "syntax")
  | None =>
      match parsecmd s with
      | Ok (c, buf) => uret (cmd_map (read_word s buf) c)
      | Fail (Panic m) => sh_panic (lit m)
      | Fail e => Stop e
      end
  end.

(** [if(fork1() == 0) runcmd(parsecmd(buf)); wait();] *)
Definition run_line (s : str) : uprog unit :=
  do* pid := fork1 in
  (if pid =? 0 then do* c := sh_parse s in runcmd c else uret tt);*;
  sys UWait;*;
  uret tt.

(** The result of [getcmd] and the string in [buf]. *)
Definition getcmd (nbuf : Z) : uprog (Z * str) :=
  do* (r, dir) := sys (UGetcwd 100) in
  (if negb (r =? 0) then uprintf 2 (lit "$ ") []
   else
     match dir with
     | [] => Stop (Undef "index outside an array")
     | _ => uprintf 2 (lit "%s$ ") [PStr (removelast dir)]
     end);*;
  do* s := gets nbuf in
  let s := cstr s in
  uret (match s with [] => -1 | _ => 0 end, s).

Definition sh_main (fuel : nat) : uprog unit :=
  uwhile fuel (fun _ : unit =>
    do* fd := sys (UOpen (lit "console") O_RDWR) in
    if 0 <=? fd then if 3 <=? fd then sys (UClose fd);*; uret (inr tt) else uret (inl tt)
    else uret (inr tt)) tt;*;
  uwhile fuel (fun _ : unit =>
    do* (r, buf) := getcmd 100 in
    if 0 <=? r then
      if bool_decide (take 3 buf = lit "cd ") then
        let dir := drop 3 (removelast buf) in
        do* r := sys (UChdir dir) in
        (if r <? 0 then uprintf 2 (line "cannot cd %s") [PStr dir] else uret tt);*;
        uret (inl tt)
      else run_line buf;*; uret (inl tt)
    else uret (inr tt)) tt;*;
  exit.

(** ** Behaviour of processes *)

(** What a descriptor stands for.  A pipe is named after the place of the call
    that made it. *)
Abbreviation place := (list bool).
Inductive fobj := Console | OpenFile (path : str) (mode : Z) | PipeRead (p : place) | PipeWrite (p : place).

Abbreviation fdt := (gmap Z fobj).

(** The lowest descriptor that is free, as [fdalloc] finds it; there are 16. *)
Definition free_fd (t : fdt) : option Z := List.find (fun fd => bool_decide (t !! fd = None)) (Z.of_nat <$> seq 0 16).

(** Calls that the kernel may refuse for reasons of its own. *)
Inductive attempt := ToOpen (path : str) (mode : Z) | ToPipe.

(** The kernel's side of a call: it returns (with the descriptors afterwards),
    it tries something and returns one of two values, forks with a value for
    the child, one for the parent and one for failure, becomes another program
    or fails to, waits for a child, or writes.  The shell makes no other
    calls while it runs a command. *)
Inductive reply (X : Type) :=
| Gives (x : X) (t : fdt)
| Attempts (a : attempt) (ok : X) (t : fdt) (bad : X)
| Splits (child parent bad : X)
| Becomes (path : str) (argv : list str) (bad : X)
| Pauses (x : X)
| Puts (fd : Z) (bytes : str) (x : X)
| Other.
Arguments Gives {X} x t.
Arguments Attempts {X} a ok t bad.
Arguments Splits {X} child parent bad.
Arguments Becomes {X} path argv bad.
Arguments Pauses {X} x.
Arguments Puts {X} fd bytes x.
Arguments Other {X}.

(** [fdalloc] in [open], [dup] and [pipe]; [close]; [fork], [exec] and [wait] *)
Definition answer {X} (e : usysE X) (t : fdt) (p : place) : reply X :=
  match e with
  | UFork => Splits 0 1 (-1)
  | UExec path argv => Becomes path argv (-1)
  | UWait => Pauses 1
  | UWrite fd bytes => Puts fd bytes (Z.of_nat (length bytes))
  | UOpen path mode =>
      match free_fd t with
      | Some fd => Attempts (ToOpen path mode) fd (<[fd := OpenFile path mode]> t) (-1)
      | None => Gives (-1) t
      end
  | UClose fd => match t !! fd with Some _ => Gives 0 (delete fd t) | None => Gives (-1) t end
  | UDup fd =>
      match t !! fd, free_fd t with
      | Some o, Some fd' => Gives fd' (<[fd' := o]> t)
      | _, _ => Gives (-1) t
      end
  | UPipe =>
      match free_fd t with
      | Some r =>
          match free_fd (<[r := PipeRead p]> t) with
          | Some w => Attempts ToPipe (0, r, w) (<[w := PipeWrite p]> (<[r := PipeRead p]> t)) (-1, 0, 0)
          | None => Gives (-1, 0, 0) t
          end
      | None => Gives (-1, 0, 0) t
      end
  | _ => Other
  end.

(** The behaviour of a process and the processes it starts: for each attempt
    and each [fork] and [exec] it has what happens when the call succeeds and
    when it is refused.  A program is started with its descriptors, and a
    process waits with those it has then. *)
Inductive behaviour :=
| Exits
| Goes_on
| Breaks (e : stop)
| Writes (fd : Z) (bytes : str) (b : behaviour)
| Waits (t : fdt) (b : behaviour)
| Tries (a : attempt) (ok bad : behaviour)
| Forks (child parent bad : behaviour)
| Starts (path : str) (argv : list str) (t : fdt) (bad : behaviour).

Fixpoint follow {R} (q : uprog R) (t : fdt) (p : place) : behaviour :=
  match q with
  | Ret None => Exits
  | Ret (Some _) => Goes_on
  | Stop e => Breaks e
  | Get f => follow (f tt) t p
  | Put _ q => follow q t p
  | Vis e f =>
      match answer e t p with
      | Gives x t => follow (f x) t p
      | Attempts a x t' bad => Tries a (follow (f x) t' (false :: p)) (follow (f bad) t p)
      | Splits x y bad => Forks (follow (f x) t (true :: p)) (follow (f y) t (false :: p)) (follow (f bad) t p)
      | Becomes path argv bad => Starts path argv t (follow (f bad) t p)
      | Pauses x => Waits t (follow (f x) t p)
      | Puts fd bytes x => Writes fd bytes (follow (f x) t p)
      | Other => Breaks Blocked
      end
  end.

(** ** What a command means *)

(** A message on standard error, character by character, then [exit] *)
Definition says (out : str) : behaviour := foldr (fun c => Writes 2 [c]) Exits out.
Definition complains (msg : str) : behaviour := says (msg ++ [nl]).

Fixpoint meaning (c : cmd str) (t : fdt) (p : place) : behaviour :=
  match c with
  | EXEC [] => Exits
  | EXEC ((a :: _) as argv) => Starts (47 :: a) argv t (complains (lit "exec " ++ a ++ lit " failed"))
  | REDIR c f mode fd => Tries (ToOpen f mode) (meaning c (<[fd := OpenFile f mode]> t) (false :: p)) (complains (lit "open " ++ f ++ lit " failed"))
  | PIPE l r =>
      Tries ToPipe
        (Forks (meaning l (<[1 := PipeWrite p]> t) (true :: false :: p))
           (Forks (meaning r (<[0 := PipeRead p]> t) (true :: false :: false :: p))
              (Waits t (Waits t Exits))
              (complains (lit "fork")))
           (complains (lit "fork")))
        (complains (lit "pipe"))
  | LIST l r => Forks (meaning l t (true :: p)) (Waits t (meaning r t (false :: p))) (complains (lit "fork"))
  | BACK c => Forks (meaning c t (true :: p)) Exits (complains (lit "fork"))
  end.

(** Names fit in [cmdstr], and redirections are of descriptors 0 and 1. *)
Fixpoint runnable (c : cmd str) : Prop :=
  match c with
  | EXEC [] => True
  | EXEC (a :: _) => (length a <= 8)%nat
  | REDIR c _ _ fd => (fd = 0 \/ fd = 1) /\ runnable c
  | PIPE l r | LIST l r => runnable l /\ runnable r
  | BACK c => runnable c
  end.

(** The names of the programs of a command have at most eight characters. *)
Fixpoint short_names (c : cmd str) : Prop :=
  match c with
  | EXEC [] => True
  | EXEC (a :: _) => (length a <= 8)%nat
  | REDIR c _ _ _ | BACK c => short_names c
  | PIPE l r | LIST l r => short_names l /\ short_names r
  end.

(** Standard input, output and error, and nothing else. *)
Definition three (t : fdt) : Prop := forall fd, is_Some (t !! fd) <-> 0 <= fd < 3.

(** A property of the descriptors of every program that is started and of
    every process that waits *)
Fixpoint everywhere (P : fdt -> Prop) (b : behaviour) : Prop :=
  match b with
  | Exits | Goes_on | Breaks _ => True
  | Writes _ _ b => everywhere P b
  | Waits t b => P t /\ everywhere P b
  | Tries _ b b' => everywhere P b /\ everywhere P b'
  | Forks b b' b'' => everywhere P b /\ everywhere P b' /\ everywhere P b''
  | Starts _ _ t b => P t /\ everywhere P b
  end.

(** ** [runcmd] never returns *)

Inductive exits {R} : uprog R -> Prop :=
| exits_ret : exits (Ret None)
| exits_stop e : exits (Stop e)
| exits_get f : (forall k, exits (f k)) -> exits (Get f)
| exits_put k p : exits p -> exits (Put k p)
| exits_vis X (e : usysE X) f : (forall x, exits (f x)) -> exits (Vis e f).
Create HintDb exits.
#[local] Hint Constructors exits : exits.

Lemma exits_then {A R} (c : uprog A) (k : A -> uprog R) : (forall x, exits (k x)) -> exits (ubind c k).
Proof. intros Hk. unfold ubind. induction c as [[x|]|e|f IH|u p IH|X e f IH]; cbn [pbind]; auto with exits. Qed.

Lemma exits_first {A R} (c : uprog A) (k : A -> uprog R) : exits c -> exits (ubind c k).
Proof. unfold ubind. induction 1; cbn [pbind]; auto with exits. Qed.
#[local] Hint Resolve exits_then exits_first : exits.
#[local] Hint Extern 0 (exits exit) => apply exits_ret : exits.

Lemma runcmd_exits c : exits (runcmd c).
Proof.
  induction c as [[|a argv]|c IH f mode fd|l IHl r IHr|l IHl r IHr|c IH]; cbn [runcmd]; auto 10 with exits.
  - apply exits_then. intros _. apply exits_then. intros x. destruct (x <? 0); auto with exits.
  - apply exits_then. intros [[e p0] p1]. auto 20 with exits.
Qed.

(** ** Following the calls *)

Lemma follow_sys {X R} (e : usysE X) (k : X -> uprog R) t p :
  follow (ubind (sys e) k) t p =
    match answer e t p with
    | Gives x t => follow (k x) t p
    | Attempts a x t' bad => Tries a (follow (k x) t' (false :: p)) (follow (k bad) t p)
    | Splits x y bad => Forks (follow (k x) t (true :: p)) (follow (k y) t (false :: p)) (follow (k bad) t p)
    | Becomes path argv bad => Starts path argv t (follow (k bad) t p)
    | Pauses x => Waits t (follow (k x) t p)
    | Puts fd bytes x => Writes fd bytes (follow (k x) t p)
    | Other => Breaks Blocked
    end.
Proof. done. Qed.

Lemma follow_exits {A R} (c : uprog A) (k : A -> uprog R) t p : exits c -> follow (ubind c k) t p = follow c t p.
Proof.
  intros Hc. revert t p. unfold ubind. induction Hc as [|e|f Hf IH|u q Hq IH|X e f Hf IH]; intros t p; cbn [pbind follow]; auto.
  destruct (answer e t p); by rewrite ?IH.
Qed.

(** Printing on standard error and exiting *)
Lemma follow_says out {R} (k : unit -> uprog R) t p :
  follow (ubind (ufor_each out (fun c => sys (UWrite 2 [c]);*; uret tt)) k) t p = foldr (fun c => Writes 2 [c]) (follow (k tt) t p) out.
Proof. induction out as [|c out IH]; [done|]. cbn [ufor_each foldr]. rewrite <- IH. done. Qed.

Lemma follow_printf fmt args msg {R} t p : printf digits_upper (arg_load args) fmt (arg_words 1 args) = Ok (msg ++ [nl]) ->
  follow (ubind (uprintf 2 fmt args) (fun _ => exit : uprog R)) t p = complains msg.
Proof. intros Hp. unfold uprintf. rewrite Hp. cbn [ulift]. change (ubind (uret ?x) ?k) with (k x). cbv beta. apply follow_says. Qed.

Lemma follow_exec_failed a t p : follow (uprintf 2 (line "exec %s failed") [PStr a];*; exit : uprog unit) t p = complains (lit "exec " ++ a ++ lit " failed").
Proof. apply follow_printf. cbn. by rewrite <- app_assoc. Qed.

Lemma follow_open_failed f t p : follow (uprintf 2 (line "open %s failed") [PStr f];*; exit : uprog unit) t p = complains (lit "open " ++ f ++ lit " failed").
Proof. apply follow_printf. cbn. by rewrite <- app_assoc. Qed.

Lemma follow_panic msg {R} t p : follow (sh_panic msg : uprog R) t p = complains msg.
Proof. unfold sh_panic. apply follow_printf. done. Qed.

Lemma panic_exits {R} msg : exits (sh_panic msg : uprog R).
Proof. unfold sh_panic. auto with exits. Qed.

Lemma follow_panic_then {A R} msg (k : A -> uprog R) t p : follow (ubind (sh_panic msg) k) t p = complains msg.
Proof. rewrite follow_exits by apply panic_exits. apply follow_panic. Qed.

Lemma follow_fork {R} (k : Z -> uprog R) t p :
  follow (ubind fork1 k) t p = Forks (follow (k 0) t (true :: p)) (follow (k 1) t (false :: p)) (complains (lit "fork")).
Proof.
  unfold fork1, ubind at 1 2. cbn [sys pbind follow answer]. change (0 =? -1) with false. change (1 =? -1) with false. change (-1 =? -1) with true. cbv iota.
  done.
Qed.

Lemma free_fd_is t (fd : nat) : (fd < 16)%nat -> t !! Z.of_nat fd = None -> (forall i, (i < fd)%nat -> is_Some (t !! Z.of_nat i)) ->
  free_fd t = Some (Z.of_nat fd).
Proof.
  intros Hlt Hn Hs. unfold free_fd.
  assert (forall m a, (a <= fd < a + m)%nat -> List.find (fun fd => bool_decide (t !! fd = None)) (Z.of_nat <$> seq a m) = Some (Z.of_nat fd)) as Hf; [|apply Hf; lia].
  induction m as [|m IH]; intros a Ha; [lia|]. cbn. destruct (decide (a = fd)) as [->|Hne].
  - by rewrite bool_decide_true.
  - rewrite bool_decide_false; [apply IH; lia|]. destruct (Hs a) as [x ->]; [lia|done].
Qed.

Section Wiring.
Context (t : fdt) (Ht : three t).

Lemma three_some (fd : Z) : 0 <= fd < 3 -> is_Some (t !! fd).
Proof. apply Ht. Qed.
Lemma three_none fd : ~ 0 <= fd < 3 -> t !! fd = None.
Proof. intros Hn. destruct (t !! fd) eqn:He; [|done]. destruct Hn. apply Ht. by eexists. Qed.

Lemma three_set fd o : 0 <= fd < 3 -> three (<[fd := o]> t).
Proof.
  intros Hfd i. destruct (decide (i = fd)) as [->|Hne]; [rewrite lookup_insert_eq; split; [done|by eexists]|].
  rewrite lookup_insert_ne by done. apply Ht.
Qed.

(** After [close(fd)] the lowest free descriptor is [fd]. *)
Lemma free_closed fd t' : fd = 0 \/ fd = 1 -> (forall i, 0 <= i < 3 -> t' !! i = t !! i) -> free_fd (delete fd t') = Some fd.
Proof.
  intros Hfd Hsame. rewrite (free_fd_is _ (Z.to_nat fd)).
  - f_equal. lia.
  - lia.
  - rewrite Z2Nat.id by lia. apply lookup_delete_eq.
  - intros i Hi. rewrite lookup_delete_ne, Hsame by lia. apply three_some. lia.
Qed.

(** [close(fd)], then [open]: the file takes the place of [fd]. *)
Lemma follow_reopen {R} fd f mode (k : Z -> uprog R) p : fd = 0 \/ fd = 1 ->
  follow (sys (UClose fd);*; ubind (sys (UOpen f mode)) k) t p =
    Tries (ToOpen f mode) (follow (k fd) (<[fd := OpenFile f mode]> t) (false :: p)) (follow (k (-1)) (delete fd t) p).
Proof.
  intros Hfd. rewrite follow_sys. cbn [answer]. destruct (three_some fd) as [x ->]; [lia|]. rewrite follow_sys. cbn [answer].
  rewrite (free_closed fd t) by done. by rewrite insert_delete_eq.
Qed.

Definition piped (p : place) : fdt := <[4 := PipeWrite p]> (<[3 := PipeRead p]> t).

Lemma follow_pipe {R} (k : Z * Z * Z -> uprog R) p :
  follow (ubind (sys UPipe) k) t p = Tries ToPipe (follow (k (0, 3, 4)) (piped p) (false :: p)) (follow (k (-1, 0, 0)) t p).
Proof.
  rewrite follow_sys. cbn [answer]. rewrite (free_fd_is t 3); [|lia|apply three_none; lia|intros i Hi; apply three_some; lia]. cbn [Z.of_nat].
  rewrite (free_fd_is _ 4); [done|lia|rewrite lookup_insert_ne by lia; apply three_none; lia|].
  intros i Hi. destruct (decide (i = 3%nat)) as [->|Hne]; [exists (PipeRead p); apply lookup_insert_eq|]. rewrite lookup_insert_ne by lia. apply three_some. lia.
Qed.

(** [close(p[0]); close(p[1]);]: what is left *)
Lemma follow_close_ends {R} p o fd q (k : uprog R) : 0 <= fd < 3 ->
  follow (sys (UClose 3);*; sys (UClose 4);*; k) (<[fd := o]> (piped p)) q = follow k (<[fd := o]> t) q.
Proof.
  intros Hfd. unfold piped. rewrite follow_sys. cbn [answer].
  assert (<[fd := o]> (<[4 := PipeWrite p]> (<[3 := PipeRead p]> t)) !! 3 = Some (PipeRead p)) as -> by (by rewrite !lookup_insert_ne, lookup_insert_eq by lia).
  rewrite follow_sys. cbn [answer].
  assert (delete 3 (<[fd := o]> (<[4 := PipeWrite p]> (<[3 := PipeRead p]> t))) !! 4 = Some (PipeWrite p)) as ->.
  { by rewrite lookup_delete_ne, lookup_insert_ne, lookup_insert_eq by lia. }
  f_equal. apply map_eq. intros i. destruct (decide (i = 4)) as [->|H4]; [rewrite lookup_delete_eq, lookup_insert_ne, three_none by lia; done|].
  rewrite lookup_delete_ne by done. destruct (decide (i = 3)) as [->|H3]; [rewrite lookup_delete_eq, lookup_insert_ne, three_none by lia; done|].
  rewrite lookup_delete_ne by done. destruct (decide (i = fd)) as [->|Hf]; [by rewrite !lookup_insert_eq|]. by rewrite !lookup_insert_ne.
Qed.

(** [close(fd); dup(p[e]); close(p[0]); close(p[1]);] in a child *)
Lemma follow_redirect {R} fd p q (k : uprog R) : fd = 0 \/ fd = 1 ->
  follow (sys (UClose fd);*; sys (UDup (if fd =? 1 then 4 else 3));*; sys (UClose 3);*; sys (UClose 4);*; k) (piped p) q =
  follow k (<[fd := if fd =? 1 then PipeWrite p else PipeRead p]> t) q.
Proof.
  intros Hfd. set (o := if fd =? 1 then PipeWrite p else PipeRead p).
  assert (forall i, 0 <= i < 3 -> piped p !! i = t !! i) as Hlow by (intros i Hi; unfold piped; by rewrite !lookup_insert_ne by lia).
  destruct (three_some fd) as [x Hx]; [lia|]. rewrite follow_sys. cbn [answer]. rewrite Hlow, Hx by lia. rewrite follow_sys. cbn [answer].
  assert (delete fd (piped p) !! (if fd =? 1 then 4 else 3) = Some o) as ->.
  { unfold piped, o. destruct Hfd as [-> | ->]; cbn [Z.eqb Pos.eqb].
    - by rewrite lookup_delete_ne, lookup_insert_ne, lookup_insert_eq by lia.
    - by rewrite lookup_delete_ne, lookup_insert_eq by lia. }
  rewrite free_closed, insert_delete_eq by done. apply follow_close_ends. lia.
Qed.

(** The same calls in the parent *)
Lemma follow_parent_closes {R} p q (k : uprog R) : follow (sys (UClose 3);*; sys (UClose 4);*; k) (piped p) q = follow k t q.
Proof.
  destruct (three_some 0) as [o Ho]; [lia|]. rewrite <- (insert_id (piped p) 0 o), follow_close_ends; [by rewrite insert_id|lia|].
  unfold piped. by rewrite !lookup_insert_ne by lia.
Qed.
End Wiring.

(** ** [runcmd] does what the command means *)

Lemma runcmd_means c : forall t p, three t -> runnable c -> follow (runcmd c) t p = meaning c t p.
Proof.
  induction c as [[|a argv]|c IH f mode fd|l IHl r IHr|l IHl r IHr|c IH]; intros t p Ht Hr; cbn [runcmd meaning runnable] in *.
  - done.
  - unfold cmdstr. rewrite (proj2 (Nat.leb_le _ _) Hr). cbn [ulift]. change (ubind (uret ?x) ?k) with (k x). cbv beta. rewrite follow_sys. cbn [answer].
    f_equal. apply follow_exec_failed.
  - destruct Hr as [Hfd Hr]. rewrite (follow_reopen t Ht) by done. rewrite (proj2 (Z.ltb_ge fd 0)) by lia. change (-1 <? 0) with true. cbv iota.
    rewrite follow_exits by apply runcmd_exits. f_equal; [|apply follow_open_failed]. apply IH; [|done]. apply three_set; [done|lia].
  - destruct Hr as [Hl Hr]. rewrite (follow_pipe t Ht). change (0 <? 0) with false. change (-1 <? 0) with true. cbv iota.
    change (ubind (uret tt) ?k) with (k tt). cbv beta. rewrite follow_panic_then. f_equal.
    rewrite follow_fork. change (0 =? 0) with true. change (1 =? 0) with false. cbv iota. f_equal.
    { rewrite follow_exits by auto 10 using runcmd_exits with exits. rewrite (follow_redirect t Ht 1) by auto. apply IHl; [|done]. apply three_set; [done|lia]. }
    change (ubind (uret tt) ?k) with (k tt). cbv beta. rewrite follow_fork. change (0 =? 0) with true. change (1 =? 0) with false. cbv iota. f_equal.
    { rewrite follow_exits by auto 10 using runcmd_exits with exits. rewrite (follow_redirect t Ht 0) by auto. apply IHr; [|done]. apply three_set; [done|lia]. }
    change (ubind (uret tt) ?k) with (k tt). cbv beta. by rewrite (follow_parent_closes t Ht).
  - destruct Hr as [Hl Hr]. rewrite follow_fork. change (0 =? 0) with true. change (1 =? 0) with false. cbv iota. f_equal.
    { rewrite follow_exits by apply runcmd_exits. by apply IHl. }
    change (ubind (uret tt) ?k) with (k tt). cbv beta. rewrite follow_sys. cbn [answer]. f_equal. rewrite follow_exits by apply runcmd_exits. by apply IHr.
  - rewrite follow_fork. change (0 =? 0) with true. change (1 =? 0) with false. cbv iota. f_equal.
    rewrite follow_exits by apply runcmd_exits. by apply IH.
Qed.

(** ** No process keeps a pipe it reads open for writing *)

Definition has (t : fdt) (o : fobj) : Prop := exists fd, t !! fd = Some o.

(** The pipes of a table were made before [p], and it has one end of each. *)
Definition one_end (t : fdt) : Prop := forall k, ~ (has t (PipeRead k) /\ has t (PipeWrite k)).
Definition older (p : place) (t : fdt) : Prop := forall k, has t (PipeRead k) \/ has t (PipeWrite k) -> exists q, q <> [] /\ p = q ++ k.

Lemma has_insert t fd o o' : has (<[fd := o]> t) o' -> o' = o \/ has t o'.
Proof.
  intros [i Hi]. destruct (decide (i = fd)) as [->|Hne]; [rewrite lookup_insert_eq in Hi; left; congruence|].
  rewrite lookup_insert_ne in Hi by done. right. by exists i.
Qed.

Lemma older_step p q t : older p t -> older (q ++ p) t.
Proof. intros Ho k Hk. destruct (Ho k Hk) as (q' & Hq & ->). exists (q ++ q'). split; [by destruct q|by rewrite app_assoc]. Qed.

Lemma older_file p t fd f mode : older p t -> older p (<[fd := OpenFile f mode]> t).
Proof. intros Ho k [Hk|Hk]; apply has_insert in Hk as [[=]|Hk]; auto. Qed.

Lemma one_end_file t fd f mode : one_end t -> one_end (<[fd := OpenFile f mode]> t).
Proof. intros Ho k [Hr Hw]. apply has_insert in Hr as [[=]|Hr]. apply has_insert in Hw as [[=]|Hw]. by apply (Ho k). Qed.

Lemma older_pipe p q t fd o : q <> [] -> o = PipeRead p \/ o = PipeWrite p -> older p t -> older (q ++ p) (<[fd := o]> t).
Proof.
  intros Hq Ho Ht k [Hk|Hk]; (apply has_insert in Hk as [Hk|Hk]; [destruct Ho as [-> | ->]; simplify_eq; by exists q|]);
    apply (older_step p q t Ht); auto.
Qed.

Lemma one_end_pipe p t fd o : o = PipeRead p \/ o = PipeWrite p -> older p t -> one_end t -> one_end (<[fd := o]> t).
Proof.
  intros Ho Hold Ht k [Hr Hw]. assert (forall k', has t (PipeRead k') \/ has t (PipeWrite k') -> k' <> p) as Hne.
  { intros k' Hk ->. destruct (Hold p Hk) as (q & Hq & E). apply (f_equal length) in E. rewrite length_app in E. destruct q; [done|cbn in E; lia]. }
  apply has_insert in Hr, Hw. destruct Hr as [Hr|Hr], Hw as [Hw|Hw].
  - congruence.
  - specialize (Hne k (or_intror Hw)). destruct Ho as [-> | ->]; simplify_eq.
  - specialize (Hne k (or_introl Hr)). destruct Ho as [-> | ->]; simplify_eq.
  - by apply (Ht k).
Qed.

Lemma everywhere_says P out : everywhere P (says out).
Proof. by induction out. Qed.

Definition sane (t : fdt) : Prop := three t /\ one_end t.

Lemma meaning_sane c : forall t p, runnable c -> three t -> one_end t -> older p t -> everywhere sane (meaning c t p).
Proof.
  induction c as [[|a argv]|c IH f mode fd|l IHl r IHr|l IHl r IHr|c IH]; intros t p Hr Ht H1 Ho; cbn [meaning everywhere runnable] in *.
  - done.
  - split; [done|apply everywhere_says].
  - destruct Hr as [Hfd Hr]. split; [|apply everywhere_says]. apply IH; [done|apply three_set; [done|lia]|by apply one_end_file|].
    apply (older_step _ [false]). by apply older_file.
  - destruct Hr as [Hl Hr]. split_and!; try done; try apply everywhere_says.
    + apply IHl; [done|apply three_set; [done|lia]|by eapply one_end_pipe; [right| |]|]. apply (older_pipe p [true; false]); [done|by right|done].
    + apply IHr; [done|apply three_set; [done|lia]|by eapply one_end_pipe; [left| |]|]. apply (older_pipe p [true; false; false]); [done|by left|done].
  - destruct Hr as [Hl Hr]. split_and!; try done; [apply IHl; [done..|]; by apply (older_step _ [true])|apply IHr; [done..|]; by apply (older_step _ [false])].
  - split_and!; [apply IH; [done..|]; by apply (older_step _ [true])|done|apply everywhere_says].
Qed.

(** ** From the line to the command *)

Lemma runnable_wrap c rs : runnable c -> Forall (fun '(_, _, fd) => fd = 0 \/ fd = 1) rs -> runnable (wrap c rs).
Proof. intros Hc Hr. revert c Hc. induction Hr as [|[[f mode] fd] rs Hfd _ IH]; intros c Hc; [done|]. by apply (IH (REDIR c f mode fd)). Qed.

Lemma short_wrap c rs : short_names (wrap c rs) -> short_names c.
Proof. revert c. induction rs as [|[[f mode] fd] rs IH]; intros c; [done|]. intros H. by apply (IH (REDIR c f mode fd)). Qed.

Lemma short_backs n c : short_names (Nat.iter n BACK c) -> short_names c.
Proof. induction n as [|n IH]; [done|]. intros H. by apply IH. Qed.
Lemma runnable_backs n c : runnable c -> runnable (Nat.iter n BACK c).
Proof. intros Hc. by induction n. Qed.

Lemma redirs_fds ts rs : g_redirs ts rs -> Forall (fun '(_, _, fd) => fd = 0 \/ fd = 1) rs.
Proof. induction 1 as [|t r ts rs Hr _ IH]; [constructor|]. constructor; [|done]. destruct Hr; auto. Qed.

Lemma args_fds ts ws rs : g_args ts ws rs -> Forall (fun '(_, _, fd) => fd = 0 \/ fd = 1) rs.
Proof. induction 1 as [|w tr rs ts ws rs' Hr _ IH]; [constructor|]. apply Forall_app. split; [by eapply redirs_fds|done]. Qed.

Lemma derives_runnable n ts c : derives n ts c -> short_names c -> runnable c.
Proof.
  induction 1 as [tr rs ta ws rs' Hr Ha _|ts c tr rs _ IH Hr|ts c _ IH|ts c ts' c' _ IH _ IH'|ts c n _ IH|ts c n ts' c' _ IH _ IH']; intros Hs.
  - apply runnable_wrap; [|apply Forall_app; split; [by eapply redirs_fds|by eapply args_fds]]. apply short_wrap in Hs. by destruct ws.
  - apply runnable_wrap; [by eapply IH, short_wrap|by eapply redirs_fds].
  - auto.
  - destruct Hs. split; auto.
  - by eapply runnable_backs, IH, short_backs.
  - destruct Hs as [H1 H2]. split; [by eapply runnable_backs, IH, short_backs|auto].
Qed.

Lemma leftovers_none s c buf : parsecmd s = Ok (c, buf) -> leftovers s = None.
Proof.
  unfold leftovers, parsecmd. destruct (parseline _ _) as [[x r]|]; [|done]. cbn [obind]. destruct (peek r []) as [r' b]. cbn [fst]. by destruct r'.
Qed.

Lemma sh_parse_command s c : Forall (fun b => b <> 0) s -> derives Line (lex s) c -> sh_parse s = uret c.
Proof.
  intros Hs Hd. pose proof (parse_correct s Hs) as H. unfold sh_parse. destruct (parsecmd s) as [[c' buf]|[]] eqn:Hp; [|by destruct (H c)|done..].
  rewrite (leftovers_none _ _ _ Hp). destruct H as [_ H]. by rewrite (proj1 (H c) Hd).
Qed.

Lemma sh_parse_error s : Forall (fun b => b <> 0) s -> (forall c, ~ derives Line (lex s) c) ->
  exists out, forall (k : cmd str -> uprog unit) t p, follow (ubind (sh_parse s) k) t p = says out.
Proof.
  intros Hs Hn. pose proof (parse_correct s Hs) as H. unfold sh_parse. destruct (leftovers s) as [r|].
  - exists ((lit "leftovers: " ++ r ++ [nl]) ++ lit "syntax" ++ [nl]). intros k t p.
    assert (exits (uprintf 2 (line "leftovers: %s") [PStr r];*; sh_panic (lit "syntax") : uprog (cmd str))) as He by (apply exits_then; intros _; apply panic_exits).
    rewrite follow_exits by exact He. unfold uprintf at 1.
    assert (printf digits_upper (arg_load [PStr r]) (line "leftovers: %s") (arg_words 1 [PStr r]) = Ok (lit "leftovers: " ++ r ++ [nl])) as -> by done.
    cbn [ulift]. change (ubind (uret ?x) ?k) with (k x). cbv beta. rewrite follow_says, follow_panic. unfold complains, says. by rewrite !foldr_app.
  - destruct (parsecmd s) as [[c buf]|[]]; [|eexists; intros; apply follow_panic_then|done..]. destruct H as [_ H]. destruct (Hn _ (proj2 (H _) eq_refl)).
Qed.

(** C31: the shell runs a command line.  Let the shell have descriptors 0, 1
    and 2, with at most one end of each pipe, and let [open], [pipe], [fork]
    and [exec] succeed or fail as the kernel pleases.  Given a line, it forks a
    child and waits for it.  If the line is a command of the grammar, with
    program names of at most eight characters, the child does what the command
    means: [l ; r] runs [l] in a new process and waits for that one before it
    goes on with [r]; [l | r] runs both sides in new processes, the left one
    with descriptor 1 and the right one with descriptor 0 on the ends of a new
    pipe, and waits for both; [c &] runs [c] in a new process and does not
    wait; redirections replace descriptor 0 or 1 by the opened file; a program
    is started under [/] with its arguments.  If a call fails, the process says
    so on standard error and exits.  Whenever a program is started and whenever
    a process waits, it has the descriptors 0, 1 and 2 and no others, and
    never both ends of a pipe, so that the reader of a pipe sees its end when
    the writers are done.  A line that is not in the language gets a message on
    standard error, and nothing is started. *)
Theorem shell_runs s t p :
  Forall (fun b => b <> 0) s -> three t -> one_end t -> older p t ->
  (forall c, derives Line (lex s) c -> short_names c ->
     follow (run_line s) t p = Forks (meaning c t (true :: p)) (Waits t Goes_on) (complains (lit "fork")) /\
     everywhere (fun t => three t /\ one_end t) (meaning c t (true :: p))) /\
  ((forall c, ~ derives Line (lex s) c) ->
     exists out, follow (run_line s) t p = Forks (says out) (Waits t Goes_on) (complains (lit "fork"))).
Proof.
  intros Hs Ht H1 Ho. unfold run_line. rewrite follow_fork. change (0 =? 0) with true. change (1 =? 0) with false. cbv iota. split.
  - intros c Hd Hn. pose proof (derives_runnable _ _ _ Hd Hn) as Hr. split; [|apply meaning_sane; try done; by apply (older_step _ [true])].
    f_equal. rewrite (sh_parse_command s c Hs Hd). change (ubind (uret c) ?k) with (k c). cbv beta.
    rewrite follow_exits by apply runcmd_exits. by apply runcmd_means.
  - intros Hn. destruct (sh_parse_error s Hs Hn) as [out Hout]. exists out. f_equal. rewrite follow_exits; [apply Hout|].
    apply exits_then. intros c. apply runcmd_exits.
Qed.

Definition console3 : fdt := <[0 := Console]> (<[1 := Console]> (<[2 := Console]> ∅)).

Lemma console3_three : three console3.
Proof.
  intros fd. unfold console3. destruct (decide (fd = 0)) as [->|]; [|destruct (decide (fd = 1)) as [->|]; [|destruct (decide (fd = 2)) as [->|]]].
  1-3: split; [done|]; intros _; by eexists.
  rewrite !lookup_insert_ne, lookup_empty by done. split; [by intros [? [=]]|lia].
Qed.

Lemma console3_only o : has console3 o -> o = Console.
Proof. intros Ho. unfold console3 in Ho. repeat (apply has_insert in Ho as [Ho|Ho]; [done|]). destruct Ho as [i Hi]. by rewrite lookup_empty in Hi. Qed.

(** [a<i|b;c] *)
Lemma shell_runs_witness :
  follow (run_line (lit "a<i|b;c")) console3 [] =
    Forks
      (Forks
         (Tries ToPipe
            (Forks (Tries (ToOpen (lit "i") 0)
                      (Starts (lit "/a") [lit "a"] (<[0 := OpenFile (lit "i") 0]> (<[1 := PipeWrite [true; true]]> console3)) (complains (lit "exec a failed")))
                      (complains (lit "open i failed")))
               (Forks (Starts (lit "/b") [lit "b"] (<[0 := PipeRead [true; true]]> console3) (complains (lit "exec b failed")))
                  (Waits console3 (Waits console3 Exits)) (complains (lit "fork")))
               (complains (lit "fork")))
            (complains (lit "pipe")))
         (Waits console3 (Starts (lit "/c") [lit "c"] console3 (complains (lit "exec c failed"))))
         (complains (lit "fork")))
      (Waits console3 Goes_on) (complains (lit "fork")).
Proof.
  destruct (shell_runs (lit "a<i|b;c") console3 []) as [H _].
  - repeat constructor; discriminate.
  - exact console3_three.
  - intros k [Hk _]. apply console3_only in Hk. discriminate Hk.
  - intros k [Hk|Hk]; apply console3_only in Hk; discriminate Hk.
  - destruct (H (LIST (PIPE (REDIR (EXEC [lit "a"]) (lit "i") 0 0) (EXEC [lit "b"])) (EXEC [lit "c"]))) as [E _]; [|cbn; lia|exact E].
    pose proof (parse_correct (lit "a<i|b;c") ltac:(repeat constructor; discriminate)) as Hp.
    destruct (parsecmd (lit "a<i|b;c")) as [[c buf]|e] eqn:He; [|by vm_compute in He]. apply Hp. vm_compute in He. injection He as <- <-. reflexivity.
Defined.

(** A name of nine characters overruns [cmdstr]. *)
Lemma long_name_overruns t p : follow (runcmd (EXEC [replicate 9 97])) t p = Breaks (Undef "index outside an array").
Proof. done. Qed.
