(* ===== verification/ShKernel.v ===== *)
(** * The shell's descriptors and the kernel's

    [ShRun] gives a process a table from descriptors to what they stand for.
    Here that table is related to [proc->ofile] of the kernel, with [obj]
    saying what an entry of the file table stands for: [fdalloc], which
    [open], [dup] and [pipe] use, and the first half of [close] act on both
    in the same way. *)

From stdpp Require Import base gmap strings numbers list.
From S2P Require Import Prelude Prog Bio Layout LStore State Sysfile ShRun.

Record fds_rel (obj : nat -> fobj) (t : fdt) (ofile : list (option nat)) : Prop := {
  fr_length : length ofile = NOFILE;
  fr_entry : forall i, (i < NOFILE)%nat -> t !! Z.of_nat i = obj <$> mjoin (ofile !! i);
  fr_bound : forall fd, is_Some (t !! fd) -> 0 <= fd < Z.of_nat NOFILE;
}.

Lemma find_fd_find ofile : forall i,
  find_fd ofile i = List.find (fun j => bool_decide (mjoin (ofile !! (j - i)%nat) = None)) (seq i (length ofile)).
Proof.
  induction ofile as [|[f|] ofile IH]; intros i; [done| |]; cbn [find_fd length seq List.find]; rewrite Nat.sub_diag; cbn [lookup list_lookup mjoin option_join].
  - rewrite bool_decide_false by done. rewrite IH. assert (forall l, Forall (fun j => i < j)%nat l ->
      List.find (fun j => bool_decide (mjoin (ofile !! (j - S i)%nat) = None)) l = List.find (fun j => bool_decide (mjoin ((Some f :: ofile) !! (j - i)%nat) = None)) l) as Hl.
    { induction 1 as [|j l Hj _ IHl]; [done|]. cbn [List.find]. rewrite IHl. by replace (j - i)%nat with (S (j - S i))%nat by lia. }
    apply Hl, Forall_forall. intros j Hj%elem_of_seq. lia.
  - by rewrite bool_decide_true.
Qed.

Lemma find_ext {A} (f g : A -> bool) l : (forall x, x ∈ l -> f x = g x) -> List.find f l = List.find g l.
Proof.
  induction l as [|x l IH]; intros H; [done|]. cbn. rewrite (H x) by left. rewrite IH; [done|]. intros y Hy. apply H. by right.
Qed.

Lemma find_map {A B} (h : A -> B) (f : B -> bool) l : List.find f (h <$> l) = h <$> List.find (fun x => f (h x)) l.
Proof. induction l as [|x l IH]; [done|]. cbn. by destruct (f (h x)). Qed.

(** The shell's lowest free descriptor is the kernel's. *)
Lemma free_fd_find obj t ofile : fds_rel obj t ofile -> free_fd t = Z.of_nat <$> find_fd ofile 0.
Proof.
  intros [Hl He _]. unfold free_fd. rewrite find_fd_find, find_map, Hl. f_equal. apply find_ext. intros i Hi%elem_of_seq.
  apply bool_decide_ext. rewrite He by (unfold NOFILE in *; lia). rewrite Nat.sub_0_r. destruct (mjoin (ofile !! i)); done.
Qed.

Lemma fds_insert obj t ofile i f : fds_rel obj t ofile -> (i < NOFILE)%nat -> fds_rel obj (<[Z.of_nat i := obj f]> t) (<[i := Some f]> ofile).
Proof.
  intros [Hl He Hb] Hi. split; [by rewrite length_insert|..].
  - intros j Hj. destruct (decide (j = i)) as [->|Hne].
    + rewrite lookup_insert_eq, list_lookup_insert_eq by lia. done.
    + rewrite lookup_insert_ne, list_lookup_insert_ne by lia. by apply He.
  - intros fd Hs. destruct (decide (fd = Z.of_nat i)) as [->|Hne]; [lia|]. rewrite lookup_insert_ne in Hs by done. by apply Hb.
Qed.

(** [fdalloc] puts the file in that place, and fails only when there is none. *)
Lemma fdalloc_rel obj t f k (l : lstore) : fds_rel obj t (p_ofile (km_proc k)) ->
  match free_fd t with
  | Some fd => exists k', run (fdalloc f) k l = Ok (fd, k', l) /\ fds_rel obj (<[fd := obj f]> t) (p_ofile (km_proc k'))
  | None => run (fdalloc f) k l = Ok (-1, k, l)
  end.
Proof.
  intros Hr. rewrite (free_fd_find _ _ _ Hr). cbn. destruct (find_fd (p_ofile (km_proc k)) 0) as [i|] eqn:Hf; cbn; [|done].
  eexists. split; [done|]. cbn. apply fds_insert; [done|]. rewrite find_fd_find in Hf. apply find_some in Hf as [Hi _].
  apply in_seq in Hi. rewrite (fr_length _ _ _ Hr) in Hi. lia.
Qed.

(** [proc->ofile[fd] = 0] *)
Lemma clear_fd_rel obj t fd k (l : lstore) : fds_rel obj t (p_ofile (km_proc k)) -> 0 <= fd < Z.of_nat NOFILE ->
  exists k', run (clear_fd fd) k l = Ok (tt, k', l) /\ fds_rel obj (delete fd t) (p_ofile (km_proc k')).
Proof.
  intros [Hl He Hb] Hfd. eexists. split; [done|]. cbn. split; [by rewrite length_insert|..].
  - intros j Hj. destruct (decide (j = Z.to_nat fd)) as [->|Hne].
    + rewrite Z2Nat.id, lookup_delete_eq, list_lookup_insert_eq by lia. done.
    + rewrite lookup_delete_ne, list_lookup_insert_ne by lia. by apply He.
  - intros i Hs. destruct (decide (i = fd)) as [->|Hne]; [lia|]. rewrite lookup_delete_ne in Hs by done. by apply Hb.
Qed.
