(* ===== verification/Ports.v ===== *)
(** * Devices and their ports

    Driver code is a tree of [inb], [outb] and accesses to memory-mapped
    registers, over the static variables of the drivers.  [hw] is a PC's
    devices as far as the drivers use them: the keyboard controller, the
    serial line, the two interrupt controllers, the I/O APIC, the local APIC,
    the text screen's cursor and the status of the disks. *)

From stdpp Require Import base gmap strings numbers list.
From S2P Require Import Prelude Prog State.

Inductive portE : Type -> Type :=
| Inb (port : Z) : portE Z
| Outb (port data : Z) : portE unit
| RegRead (addr : Z) : portE Z
| RegWrite (addr data : Z) : portE unit.

(** Static variables: [shift] of [kbd.c], [uart], [irqmask], [ismp] and
    [ioapicid] of [mp.c], [lapic] (an address, or 0), the CGA memory behind
    [crt], [panicked] and [input] of [console.c], [ncpu] of [mp.c], and
    [havedisk1] and [havedisk2] of [ide.c]. *)
Record dev := mkdev {
  d_shift : Z; d_uart : bool; d_irqmask : Z; d_ismp : bool; d_ioapicid : Z; d_lapic : Z;
  d_crt : list Z; d_panicked : bool; d_cons : console;
  d_ncpu : Z; d_havedisk1 : bool; d_havedisk2 : bool
}.

Definition with_shift v d := mkdev v (d_uart d) (d_irqmask d) (d_ismp d) (d_ioapicid d) (d_lapic d) (d_crt d) (d_panicked d) (d_cons d) (d_ncpu d) (d_havedisk1 d) (d_havedisk2 d).
Definition with_uart v d := mkdev (d_shift d) v (d_irqmask d) (d_ismp d) (d_ioapicid d) (d_lapic d) (d_crt d) (d_panicked d) (d_cons d) (d_ncpu d) (d_havedisk1 d) (d_havedisk2 d).
Definition with_irqmask v d := mkdev (d_shift d) (d_uart d) v (d_ismp d) (d_ioapicid d) (d_lapic d) (d_crt d) (d_panicked d) (d_cons d) (d_ncpu d) (d_havedisk1 d) (d_havedisk2 d).
Definition with_crt v d := mkdev (d_shift d) (d_uart d) (d_irqmask d) (d_ismp d) (d_ioapicid d) (d_lapic d) v (d_panicked d) (d_cons d) (d_ncpu d) (d_havedisk1 d) (d_havedisk2 d).
Definition with_dcons v d := mkdev (d_shift d) (d_uart d) (d_irqmask d) (d_ismp d) (d_ioapicid d) (d_lapic d) (d_crt d) (d_panicked d) v (d_ncpu d) (d_havedisk1 d) (d_havedisk2 d).
Definition with_disk1 v d := mkdev (d_shift d) (d_uart d) (d_irqmask d) (d_ismp d) (d_ioapicid d) (d_lapic d) (d_crt d) (d_panicked d) (d_cons d) (d_ncpu d) v (d_havedisk2 d).
Definition with_disk2 v d := mkdev (d_shift d) (d_uart d) (d_irqmask d) (d_ismp d) (d_ioapicid d) (d_lapic d) (d_crt d) (d_panicked d) (d_cons d) (d_ncpu d) (d_havedisk1 d) v.

Abbreviation dprog R := (prog portE dev R).

(** A port is 16 bits, what goes through it 8. *)
Definition inb (port : Z) : dprog Z := Vis (Inb port) Ret.
Definition outb (port data : Z) : dprog unit := Vis (Outb port (u8 data)) Ret.
Definition reg_read (addr : Z) : dprog Z := Vis (RegRead addr) Ret.
Definition reg_write (addr data : Z) : dprog unit := Vis (RegWrite addr (u32 data)) Ret.

(** ** The machine *)

(** An 8259A: its mask, its vector offset and, while it is being initialised,
    the number of the command word it waits for. *)
Record pic := mkpic { pic_mask : Z; pic_vector : Z; pic_icw : nat }.

Definition pic_command (v : Z) (p : pic) : pic :=
  if Z.testbit v 4 then mkpic 0 (pic_vector p) 2 else p.
Definition pic_data (v : Z) (p : pic) : pic :=
  match pic_icw p with
  | 2%nat => mkpic (pic_mask p) v 3
  | 3%nat => mkpic (pic_mask p) (pic_vector p) 4
  | 4%nat => mkpic (pic_mask p) (pic_vector p) 0
  | _ => mkpic v (pic_vector p) 0
  end.

(** A channel of the disk controller: for how many more reads of its status it
    is busy, whether its second drive is selected, and the status of each
    drive then (0 when there is none). *)
Record channel := mkchannel { ch_busy : nat; ch_second : bool; ch_st0 : Z; ch_st1 : Z }.

Definition ch_status (c : channel) : Z * channel :=
  match ch_busy c with
  | O => (if ch_second c then ch_st1 c else ch_st0 c, c)
  | S n => (0x80, mkchannel n (ch_second c) (ch_st0 c) (ch_st1 c))
  end.
Definition ch_select (v : Z) (c : channel) : channel := mkchannel (ch_busy c) (Z.testbit v 4) (ch_st0 c) (ch_st1 c).

Record hw := mkhw {
  hw_keys : list Z;              (* scan codes not read yet *)
  hw_lcr : Z; hw_ser_in : list Z; hw_ser_out : list Z;
  hw_pic1 : pic; hw_pic2 : pic;
  hw_apic_sel : Z; hw_apic : gmap Z Z;
  hw_lapic : gmap Z Z;
  hw_crt_sel : Z; hw_cursor : Z;
  hw_ide0 : channel; hw_ide1 : channel
}.

Definition hw_set_keys v h := mkhw v (hw_lcr h) (hw_ser_in h) (hw_ser_out h) (hw_pic1 h) (hw_pic2 h) (hw_apic_sel h) (hw_apic h) (hw_lapic h) (hw_crt_sel h) (hw_cursor h) (hw_ide0 h) (hw_ide1 h).
Definition hw_set_lcr v h := mkhw (hw_keys h) v (hw_ser_in h) (hw_ser_out h) (hw_pic1 h) (hw_pic2 h) (hw_apic_sel h) (hw_apic h) (hw_lapic h) (hw_crt_sel h) (hw_cursor h) (hw_ide0 h) (hw_ide1 h).
Definition hw_set_ser_in v h := mkhw (hw_keys h) (hw_lcr h) v (hw_ser_out h) (hw_pic1 h) (hw_pic2 h) (hw_apic_sel h) (hw_apic h) (hw_lapic h) (hw_crt_sel h) (hw_cursor h) (hw_ide0 h) (hw_ide1 h).
Definition hw_set_ser_out v h := mkhw (hw_keys h) (hw_lcr h) (hw_ser_in h) v (hw_pic1 h) (hw_pic2 h) (hw_apic_sel h) (hw_apic h) (hw_lapic h) (hw_crt_sel h) (hw_cursor h) (hw_ide0 h) (hw_ide1 h).
Definition hw_set_pic1 v h := mkhw (hw_keys h) (hw_lcr h) (hw_ser_in h) (hw_ser_out h) v (hw_pic2 h) (hw_apic_sel h) (hw_apic h) (hw_lapic h) (hw_crt_sel h) (hw_cursor h) (hw_ide0 h) (hw_ide1 h).
Definition hw_set_pic2 v h := mkhw (hw_keys h) (hw_lcr h) (hw_ser_in h) (hw_ser_out h) (hw_pic1 h) v (hw_apic_sel h) (hw_apic h) (hw_lapic h) (hw_crt_sel h) (hw_cursor h) (hw_ide0 h) (hw_ide1 h).
Definition hw_set_sel v h := mkhw (hw_keys h) (hw_lcr h) (hw_ser_in h) (hw_ser_out h) (hw_pic1 h) (hw_pic2 h) v (hw_apic h) (hw_lapic h) (hw_crt_sel h) (hw_cursor h) (hw_ide0 h) (hw_ide1 h).
Definition hw_set_apic v h := mkhw (hw_keys h) (hw_lcr h) (hw_ser_in h) (hw_ser_out h) (hw_pic1 h) (hw_pic2 h) (hw_apic_sel h) v (hw_lapic h) (hw_crt_sel h) (hw_cursor h) (hw_ide0 h) (hw_ide1 h).
Definition hw_set_lapic v h := mkhw (hw_keys h) (hw_lcr h) (hw_ser_in h) (hw_ser_out h) (hw_pic1 h) (hw_pic2 h) (hw_apic_sel h) (hw_apic h) v (hw_crt_sel h) (hw_cursor h) (hw_ide0 h) (hw_ide1 h).
Definition hw_set_crt s c h := mkhw (hw_keys h) (hw_lcr h) (hw_ser_in h) (hw_ser_out h) (hw_pic1 h) (hw_pic2 h) (hw_apic_sel h) (hw_apic h) (hw_lapic h) s c (hw_ide0 h) (hw_ide1 h).
Definition hw_set_ide0 v h := mkhw (hw_keys h) (hw_lcr h) (hw_ser_in h) (hw_ser_out h) (hw_pic1 h) (hw_pic2 h) (hw_apic_sel h) (hw_apic h) (hw_lapic h) (hw_crt_sel h) (hw_cursor h) v (hw_ide1 h).
Definition hw_set_ide1 v h := mkhw (hw_keys h) (hw_lcr h) (hw_ser_in h) (hw_ser_out h) (hw_pic1 h) (hw_pic2 h) (hw_apic_sel h) (hw_apic h) (hw_lapic h) (hw_crt_sel h) (hw_cursor h) (hw_ide0 h) v.

(** Reading the data port of the keyboard or the serial line takes what was
    there.  The serial line is always ready to send. *)
Definition hw_in (port : Z) (h : hw) : Z * hw :=
  if port =? 0x64 then (match hw_keys h with [] => 0 | _ => 1 end, h)
  else if port =? 0x60 then match hw_keys h with [] => (0, h) | k :: r => (k, hw_set_keys r h) end
  else if port =? 0x3fd then (match hw_ser_in h with [] => 0x20 | _ => 0x21 end, h)
  else if port =? 0x3f8 then match hw_ser_in h with [] => (0, h) | c :: r => (c, hw_set_ser_in r h) end
  else if port =? 0x3d5 then
    (if hw_crt_sel h =? 14 then hw_cursor h / 256 else if hw_crt_sel h =? 15 then hw_cursor h mod 256 else 0, h)
  else if port =? 0x1f7 then let '(v, c) := ch_status (hw_ide0 h) in (v, hw_set_ide0 c h)
  else if port =? 0x177 then let '(v, c) := ch_status (hw_ide1 h) in (v, hw_set_ide1 c h)
  else (0, h).

(** With bit 7 of the line control register set, port 0x3f8 is the divisor. *)
Definition hw_out (port v : Z) (h : hw) : hw :=
  if port =? 0x20 then hw_set_pic1 (pic_command v (hw_pic1 h)) h
  else if port =? 0x21 then hw_set_pic1 (pic_data v (hw_pic1 h)) h
  else if port =? 0xA0 then hw_set_pic2 (pic_command v (hw_pic2 h)) h
  else if port =? 0xA1 then hw_set_pic2 (pic_data v (hw_pic2 h)) h
  else if port =? 0x3fb then hw_set_lcr v h
  else if port =? 0x3f8 then if Z.testbit (hw_lcr h) 7 then h else hw_set_ser_out (hw_ser_out h ++ [v]) h
  else if port =? 0x3d4 then hw_set_crt v (hw_cursor h) h
  else if port =? 0x3d5 then
    hw_set_crt (hw_crt_sel h)
      (if hw_crt_sel h =? 14 then v * 256 + hw_cursor h mod 256
       else if hw_crt_sel h =? 15 then hw_cursor h / 256 * 256 + v else hw_cursor h) h
  else if port =? 0x1f6 then hw_set_ide0 (ch_select v (hw_ide0 h)) h
  else if port =? 0x176 then hw_set_ide1 (ch_select v (hw_ide1 h)) h
  else h.

(** The I/O APIC at 0xFEC00000: a selector and, 16 bytes on, the register it
    selects.  Other addresses are the local APIC's registers. *)
Definition IOAPIC : Z := 0xFEC00000.
Definition hw_reg_read (a : Z) (h : hw) : Z :=
  if a =? IOAPIC then hw_apic_sel h
  else if a =? IOAPIC + 16 then default 0 (hw_apic h !! hw_apic_sel h)
  else default 0 (hw_lapic h !! a).
Definition hw_reg_write (a v : Z) (h : hw) : hw :=
  if a =? IOAPIC then hw_set_sel v h
  else if a =? IOAPIC + 16 then hw_set_apic (<[hw_apic_sel h := v]> (hw_apic h)) h
  else hw_set_lapic (<[a := v]> (hw_lapic h)) h.

#[global] Instance hw_store : Store portE hw := {
  st_step X e h :=
    match e in portE X return outcome (X * hw) with
    | Inb port => Ok (hw_in port h)
    | Outb port v => Ok (tt, hw_out port v h)
    | RegRead a => Ok (hw_reg_read a h, h)
    | RegWrite a v => Ok (tt, hw_reg_write a v h)
    end;
  st_trace X e h := [];
  st_disk h := ∅;
}.
