(* ===== verification/Kbd.v ===== *)
(** * The keyboard: [kbd.c], [kbd.h]

    [kbdgetc] turns scan codes into characters, with the state of the
    modifier keys in [shift]. *)

From stdpp Require Import base gmap strings numbers list.
From S2P Require Import Prelude Prog State Vop Console Ports.

Definition KBSTATP : Z := 0x64.
Definition KBDATAP : Z := 0x60.
Definition KBS_DIB : Z := 0x01.
Definition SHIFT : Z := 1.
Definition CTL : Z := 2.
Definition ALT : Z := 4.
Definition CAPSLOCK : Z := 8.
Definition NUMLOCK : Z := 16.
Definition SCROLLLOCK : Z := 32.
Definition E0ESC : Z := 64.

(** A table of 256 bytes: its first entries and some others. *)
Definition table (start : list Z) (others : list (Z * Z)) : list Z :=
  foldl (fun t '(i, v) => <[Z.to_nat i := v]> t) (start ++ replicate (256 - length start) 0) others.

Definition shiftcode : list Z := table [] [(0x1D, CTL); (0x2A, SHIFT); (0x36, SHIFT); (0x38, ALT); (0x9D, CTL); (0xB8, ALT)].
Definition togglecode : list Z := table [] [(0x3A, CAPSLOCK); (0x45, NUMLOCK); (0x46, SCROLLLOCK)].

(** Special keycodes of the keypad, the same in the three maps but for the
    first two *)
Definition keypad (enter div : Z) : list (Z * Z) :=
  [(0x9C, enter); (0xB5, div); (0xC8, 0xE2); (0xD0, 0xE3); (0xC9, 0xE6); (0xD1, 0xE7); (0xCB, 0xE4); (0xCD, 0xE5);
   (0x97, 0xE0); (0xCF, 0xE1); (0xD2, 0xE8); (0xD3, 0xE9)].

Definition chars (s : string) : list Z := (fun c => Z.of_nat (Ascii.nat_of_ascii c)) <$> String.list_ascii_of_string s.

Definition normalmap : list Z :=
  table ([0; 0x1B] ++ chars "1234567890-=" ++ [8; 9] ++ chars "qwertyuiop[]" ++ [10; 0] ++ chars "asdfghjkl;'`" ++ [0] ++ chars "\zxcvbnm,./" ++
    [0] ++ chars "*" ++ [0] ++ chars " " ++ replicate 13 0 ++ chars "789-456+1230." ++ replicate 4 0) (keypad 10 47).

Definition shiftmap : list Z :=
  table ([0; 27] ++ chars "!@#$%^&*()_+" ++ [8; 9] ++ chars "QWERTYUIOP{}" ++ [10; 0] ++ chars "ASDFGHJKL:" ++ [34] ++ chars "~" ++ [0] ++ chars "|ZXCVBNM<>?" ++
    [0] ++ chars "*" ++ [0] ++ chars " " ++ replicate 13 0 ++ chars "789-456+1230." ++ replicate 4 0) (keypad 10 47).

(** [C(x)] is [x - '@']. *)
Definition ctlchars (s : string) : list Z := ctrl <$> chars s.

Definition ctlmap : list Z :=
  table (replicate 16 0 ++ ctlchars "QWERTYUIOP" ++ [0; 0; 13; 0] ++ ctlchars "ASDFGHJKL" ++ [0; 0; 0; 0] ++ ctlchars "\ZXCVBNM" ++
    [0; 0] ++ (u8 <$> ctlchars "/") ++ [0; 0]) (keypad 13 (u8 (ctrl 47))).

Definition charcode (i : Z) : list Z := if i =? 0 then normalmap else if i =? 1 then shiftmap else ctlmap.

(** An entry of a table; the index is below 256. *)
Definition entry (t : list Z) (i : Z) : Z := nth (Z.to_nat i) t 0.

Definition has (x bit : Z) : bool := negb (Z.land x bit =? 0).

(** What [kbdgetc] makes of a scan code: its result and the new [shift]. *)
Definition scan (shift data : Z) : Z * Z :=
  if data =? 0xE0 then (0, Z.lor shift E0ESC)
  else if has data 0x80 then
    (* Key released *)
    let data := if has shift E0ESC then data else Z.land data 0x7F in
    (0, Z.land shift (Z.lnot (Z.lor (entry shiftcode data) E0ESC)))
  else
    (* Last character was an E0 escape; or with 0x80 *)
    let '(data, shift) := if has shift E0ESC then (Z.lor data 0x80, Z.land shift (Z.lnot E0ESC)) else (data, shift) in
    let shift := Z.lor shift (entry shiftcode data) in
    let shift := Z.lxor shift (entry togglecode data) in
    let c := entry (charcode (Z.land shift (Z.lor CTL SHIFT))) data in
    let c :=
      if has shift CAPSLOCK then
        if (97 <=? c) && (c <=? 122) then c - 32
        else if (65 <=? c) && (c <=? 90) then c + 32 else c
      else c in
    (c, shift).

Definition kbdgetc : dprog Z :=
  st <- inb KBSTATP;;
  if Z.land st KBS_DIB =? 0 then Ret (-1)
  else
    data <- inb KBDATAP;;
    d <- get;;
    let '(c, shift) := scan (d_shift d) data in
    modify (with_shift shift);;;
    Ret c.

(** [consoleintr(getc)]: [while((c = getc()) >= 0)] *)
Definition consoleintr_from (fuel : nat) (getc : dprog Z) : dprog unit :=
  while_fuel fuel (fun _ : unit =>
    c <- getc;;
    if c <? 0 then Ret (inr tt)
    else modify (fun d => with_dcons (consoleintr_char (d_cons d) c) d);;; Ret (inl tt)) tt.

Definition kbdintr (fuel : nat) : dprog unit := consoleintr_from fuel kbdgetc.

(** ** Every code is handled *)

Definition codes : list Z := Z.of_nat <$> seq 0 256.
Definition shifts : list Z := Z.of_nat <$> seq 0 128.

Lemma in_codes n x : 0 <= x < Z.of_nat n -> x ∈ (Z.of_nat <$> seq 0 n).
Proof. intros Hx. apply list_elem_of_fmap. exists (Z.to_nat x). split; [lia|]. apply elem_of_seq. lia. Qed.

Definition scan_ok (s d : Z) : bool :=
  let '(c, s') := scan s d in (0 <=? c) && (c <? 256) && (0 <=? s') && (s' <? 128).

Lemma scan_ok_all : forallb (fun s => forallb (scan_ok s) codes) shifts = true.
Proof. by vm_compute. Qed.

Lemma scan_type s d : 0 <= s < 128 -> 0 <= d < 256 -> 0 <= fst (scan s d) < 256 /\ 0 <= snd (scan s d) < 128.
Proof.
  intros Hs Hd. pose proof scan_ok_all as H. rewrite forallb_forall in H.
  specialize (H s (proj1 (list_elem_of_In _ _) (in_codes 128 s Hs))). rewrite forallb_forall in H.
  specialize (H d (proj1 (list_elem_of_In _ _) (in_codes 256 d Hd))). unfold scan_ok in H. destruct (scan s d) as [c s']. cbn [fst snd]. lia.
Qed.

(** Whatever the keyboard controller answers, [kbdgetc] returns -1, for
    no data, or a character of eight bits, and [shift] stays within its seven
    flags, so that every table is used within its 256 entries. *)
Theorem kbdgetc_type {B} `{HB : Store portE B} (d : dev) (b : B) :
  (forall port b v b', st_step (Inb port) b = Ok (v, b') -> 0 <= v < 256) -> 0 <= d_shift d < 128 ->
  match run kbdgetc d b with
  | Ok (c, d', _) => -1 <= c < 256 /\ 0 <= d_shift d' < 128 /\ d' = with_shift (d_shift d') d
  | Fail e => exists port b', st_step (Inb port) b' = Fail e
  end.
Proof.
  intros Hin Hs. unfold kbdgetc, inb. cbn. destruct (st_step (Inb KBSTATP) b) as [[st b1]|e] eqn:H1; [|by eexists _, _].
  destruct (Z.land st KBS_DIB =? 0); [by destruct d|]. cbn. destruct (st_step (Inb KBDATAP) b1) as [[data b2]|e] eqn:H2; [|by eexists _, _].
  pose proof (scan_type (d_shift d) data Hs (Hin _ _ _ _ H2)) as [Hc Hs']. destruct (scan (d_shift d) data) as [c s']. cbn in *. by split; [lia|].
Qed.

(** ** Typing *)

(** The keys of a US keyboard, each with the code it sends when pressed (scan
    code set 1 of the PC) and the characters on its cap, without and with
    [SHIFT]. *)
Definition keyboard : list (Z * list Z) :=
  [(0x01, [27; 27]);
   (0x02, chars "1!"); (0x03, chars "2@"); (0x04, chars "3#"); (0x05, chars "4$"); (0x06, chars "5%"); (0x07, chars "6^");
   (0x08, chars "7&"); (0x09, chars "8*"); (0x0A, chars "9("); (0x0B, chars "0)"); (0x0C, chars "-_"); (0x0D, chars "=+");
   (0x0E, [8; 8]); (0x0F, [9; 9]);
   (0x10, chars "qQ"); (0x11, chars "wW"); (0x12, chars "eE"); (0x13, chars "rR"); (0x14, chars "tT"); (0x15, chars "yY");
   (0x16, chars "uU"); (0x17, chars "iI"); (0x18, chars "oO"); (0x19, chars "pP"); (0x1A, chars "[{"); (0x1B, chars "]}");
   (0x1C, [10; 10]);
   (0x1E, chars "aA"); (0x1F, chars "sS"); (0x20, chars "dD"); (0x21, chars "fF"); (0x22, chars "gG"); (0x23, chars "hH");
   (0x24, chars "jJ"); (0x25, chars "kK"); (0x26, chars "lL"); (0x27, chars ";:"); (0x28, [39; 34]); (0x29, chars "`~");
   (0x2B, chars "\|"); (0x2C, chars "zZ"); (0x2D, chars "xX"); (0x2E, chars "cC"); (0x2F, chars "vV"); (0x30, chars "bB");
   (0x31, chars "nN"); (0x32, chars "mM"); (0x33, chars ",<"); (0x34, chars ".>"); (0x35, chars "/?"); (0x39, chars "  ")].

(** The key with this character, without or with [SHIFT]. *)
Definition key_for (shifted : bool) (c : Z) : option Z :=
  fst <$> List.find (fun '(_, caps) => nth (if shifted then 1 else 0)%nat caps 0 =? c) keyboard.

(** Keys that send the prefix [0xE0], with their second code, and the codes
    of [kbd.h] for them. *)
Inductive extended : Type := KUp | KDown | KLeft | KRight | KPgUp | KPgDn | KEnd | KIns | KDel.
Definition extended_code (k : extended) : Z :=
  match k with KUp => 0x48 | KDown => 0x50 | KLeft => 0x4B | KRight => 0x4D | KPgUp => 0x49 | KPgDn => 0x51 | KEnd => 0x4F | KIns => 0x52 | KDel => 0x53 end.
Definition extended_char (k : extended) : Z :=
  match k with KUp => 0xE2 | KDown => 0xE3 | KLeft => 0xE4 | KRight => 0xE5 | KPgUp => 0xE6 | KPgDn => 0xE7 | KEnd => 0xE1 | KIns => 0xE8 | KDel => 0xE9 end.

(** What one does at the keyboard: type a character (with [SHIFT] where the cap
    says so, the left or the right one), a letter with [CTL], an extended key,
    or press [CAPSLOCK]. *)
Inductive stroke : Type := Char (rs : bool) (c : Z) | Ctl (c : Z) | Ext (k : extended) | Caps.

Definition press (k : Z) : list Z := [k; k + 0x80].

(** The codes the keyboard sends. *)
Definition keystrokes (x : stroke) : list Z :=
  match x with
  | Char rs c =>
      match key_for false c with
      | Some k => press k
      | None => let s := if rs then 0x36 else 0x2A in [s] ++ default [] (press <$> key_for true c) ++ [s + 0x80]
      end
  | Ctl c => [0x1D] ++ default [] (press <$> key_for false c) ++ [0x9D]
  | Ext k => [0xE0; extended_code k; 0xE0; extended_code k + 0x80]
  | Caps => press 0x3A
  end.

Definition letter (c : Z) : bool := (97 <=? c) && (c <=? 122).
Definition swap_case (c : Z) : Z := if letter c then c - 32 else if letter (c + 32) then c + 32 else c.

(** The characters meant, and whether [CAPSLOCK] is on at the end. *)
Fixpoint typed (caps : bool) (l : list stroke) : list Z * bool :=
  match l with
  | [] => ([], caps)
  | x :: l =>
      let '(cs, caps') := typed (match x with Caps => negb caps | _ => caps end) l in
      match x with
      | Char _ c => ((if caps then swap_case c else c) :: cs, caps')
      | Ctl c => (c - 96 :: cs, caps')
      | Ext k => (extended_char k :: cs, caps')
      | Caps => (cs, caps')
      end
  end.

(** Printable characters, newline, tab, backspace and escape; letters. *)
Definition stroke_ok (x : stroke) : Prop :=
  match x with
  | Char _ c => 32 <= c < 127 \/ c ∈ [8; 9; 10; 27]
  | Ctl c => letter c = true
  | _ => True
  end.

(** What a sequence of codes gives, without the zeros. *)
Fixpoint scans (shift : Z) (l : list Z) : list Z * Z :=
  match l with
  | [] => ([], shift)
  | d :: l => let '(c, s) := scan shift d in let '(cs, s') := scans s l in (if c =? 0 then cs else c :: cs, s')
  end.

Lemma scans_app s l l' : scans s (l ++ l') =
  let '(a, s1) := scans s l in let '(b, s2) := scans s1 l' in (a ++ b, s2).
Proof.
  revert s. induction l as [|d l IH]; intros s; cbn [app scans]; [by destruct (scans s l')|]. destruct (scan s d) as [c s1]. rewrite IH.
  destruct (scans s1 l) as [a s2]. destruct (scans s2 l') as [b s3]. by destruct (c =? 0).
Qed.

(** The flags with [CAPSLOCK] on or off and no other key down. *)
Definition lock (caps : bool) : Z := if caps then CAPSLOCK else 0.

Definition stroke_good (x : stroke) (caps : bool) : bool :=
  let '(cs, caps') := typed caps [x] in
  bool_decide (scans (lock caps) (keystrokes x) = (cs, lock caps')) && forallb (fun k => (0 <=? k) && (k <? 256)) (keystrokes x).

(** All the strokes there are. *)
Definition strokes : list stroke :=
  flat_map (fun c => [Char false c; Char true c]) ([8; 9; 10; 27] ++ (Z.of_nat <$> seq 32 95)) ++ (Ctl ∘ Z.of_nat <$> seq 97 26) ++
  (Ext <$> [KUp; KDown; KLeft; KRight; KPgUp; KPgDn; KEnd; KIns; KDel]) ++ [Caps].

Lemma strokes_good : forallb (fun x => stroke_good x false && stroke_good x true) strokes = true.
Proof. by vm_compute. Qed.

Lemma in_strokes x : stroke_ok x -> In x strokes.
Proof.
  unfold strokes. rewrite !in_app_iff. destruct x as [r c|c|k|]; cbn [stroke_ok]; intros Hx.
  - left. apply in_flat_map. exists c. split; [|destruct r; cbn; auto]. apply in_app_iff. destruct Hx as [Hx|Hx]; [right|left; by apply list_elem_of_In].
    apply list_elem_of_In, list_elem_of_fmap. exists (Z.to_nat c). split; [lia|]. apply elem_of_seq. lia.
  - right. left. apply list_elem_of_In, list_elem_of_fmap. unfold letter in Hx. exists (Z.to_nat c). split; [unfold compose; f_equal; lia|]. apply elem_of_seq. lia.
  - right. right. left. destruct k; cbn; auto 10.
  - right. right. right. by left.
Qed.

Lemma stroke_scans x caps : stroke_ok x ->
  scans (lock caps) (keystrokes x) = (fst (typed caps [x]), lock (snd (typed caps [x]))) /\ Forall (fun k => 0 <= k < 256) (keystrokes x).
Proof.
  intros Hx. pose proof strokes_good as H. rewrite forallb_forall in H. specialize (H x (in_strokes x Hx)).
  apply andb_prop in H as [H1 H2]. assert (stroke_good x caps = true) as Hg by (by destruct caps). unfold stroke_good in Hg.
  destruct (typed caps [x]) as [cs caps']. apply andb_prop in Hg as [Hg Hk]. apply bool_decide_eq_true in Hg. split; [done|].
  apply Forall_forall. intros k Hin. rewrite forallb_forall in Hk. specialize (Hk k (proj1 (list_elem_of_In _ _) Hin)). lia.
Qed.

Lemma typed_cons caps x l : typed caps (x :: l) =
  (fst (typed caps [x]) ++ fst (typed (snd (typed caps [x])) l), snd (typed (snd (typed caps [x])) l)).
Proof. destruct x; cbn; by destruct (typed _ l). Qed.

Lemma text_scans l caps : Forall stroke_ok l ->
  scans (lock caps) (mjoin (keystrokes <$> l)) = (fst (typed caps l), lock (snd (typed caps l))) /\
  Forall (fun k => 0 <= k < 256) (mjoin (keystrokes <$> l)).
Proof.
  intros Hl. revert caps. induction Hl as [|x l Hx _ IH]; intros caps; [by split|]. destruct (stroke_scans x caps Hx) as [H1 H2].
  destruct (IH (snd (typed caps [x]))) as [IH1 IH2]. rewrite typed_cons. change (mjoin (keystrokes <$> x :: l)) with (keystrokes x ++ mjoin (keystrokes <$> l)).
  rewrite scans_app, H1, IH1. split; [done|by apply Forall_app].
Qed.

Lemma consoleintr_zero s : consoleintr_char s 0 = s.
Proof. done. Qed.

(** The interrupt handler with these codes waiting *)
Lemma run_kbdintr l : forall fuel d h, 0 <= d_shift d < 128 -> Forall (fun k => 0 <= k < 256) l -> (length l < fuel)%nat -> hw_keys h = l ->
  run (kbdintr fuel) d h = Ok (tt, with_dcons (consoleintr (fst (scans (d_shift d) l)) (d_cons d)) (with_shift (snd (scans (d_shift d) l)) d), hw_set_keys [] h).
Proof.
  induction l as [|k l IH]; intros fuel d h Hs Hl Hf Hk; (destruct fuel as [|fuel]; [cbn in Hf; lia|]); unfold kbdintr, consoleintr_from; cbn [while_fuel].
  - cbn. unfold hw_in. cbn [Z.eqb Pos.eqb]. rewrite Hk. cbn. destruct d, h. cbn in *. by subst.
  - apply Forall_cons in Hl as [Hk256 Hl]. pose proof (scan_type (d_shift d) k Hs Hk256) as [Hc Hs'].
    rewrite run_bind, run_bind. unfold kbdgetc, inb. cbn [pbind run st_step hw_store]. unfold hw_in at 1. cbn [Z.eqb Pos.eqb KBSTATP]. rewrite Hk.
    change (Z.land 1 KBS_DIB =? 0) with false. cbn [pbind run st_step hw_store]. unfold hw_in. cbn [Z.eqb Pos.eqb KBDATAP]. rewrite Hk.
    cbn [get pbind run scans]. destruct (scan (d_shift d) k) as [c s'] eqn:Hsc. cbn [fst snd] in Hc, Hs'. cbn [pbind run modify].
    rewrite (proj2 (Z.ltb_ge _ _)) by lia. cbn [pbind run modify].
    etrans; [apply (IH fuel); [done|done|cbn [length] in Hf; lia|done]|].
    cbn [with_shift with_dcons d_shift d_cons d_uart d_irqmask d_ismp d_ioapicid d_lapic d_crt d_panicked d_ncpu d_havedisk1 d_havedisk2]. destruct (scans s' l) as [cs s2]. cbn [fst snd].
    unfold consoleintr, with_shift, with_dcons. cbn [d_shift d_cons d_uart d_irqmask d_ismp d_ioapicid d_lapic d_crt d_panicked d_ncpu d_havedisk1 d_havedisk2].
    destruct (Z.eqb_spec c 0) as [->|]; [by rewrite consoleintr_zero|done].
Qed.

(** C36: typing works on a US keyboard.  Let someone type any characters on its
    key caps (with either [SHIFT] key where the cap needs it), letters with
    [CTL], the arrow, page, end, insert and delete keys, and press [CAPSLOCK]
    at any time.  The scan codes this sends reach the console, in one
    interrupt, as exactly the characters meant: those on the caps, letters in
    the other case while [CAPSLOCK] is on, control characters, and the key
    codes of [kbd.h].  No code is left unread, and all modifiers are up but
    for [CAPSLOCK], which is as it was left. *)
Theorem typing (l : list stroke) (caps : bool) (d : dev) (h : hw) (fuel : nat) :
  Forall stroke_ok l -> d_shift d = lock caps -> hw_keys h = mjoin (keystrokes <$> l) -> (length (hw_keys h) < fuel)%nat ->
  run (kbdintr fuel) d h =
    Ok (tt, with_dcons (consoleintr (fst (typed caps l)) (d_cons d)) (with_shift (lock (snd (typed caps l))) d), hw_set_keys [] h).
Proof.
  intros Hl Hd Hk Hf. destruct (text_scans l caps Hl) as [H1 H2].
  rewrite (run_kbdintr (mjoin (keystrokes <$> l))); [|rewrite Hd; clear; destruct caps; cbv; intuition discriminate|done|by rewrite <- Hk|done].
  by rewrite Hd, H1.
Qed.

(** ** Examples *)

Definition dev0 : dev := mkdev 0 false 0xFFFB false 0 0 (replicate 2000 0) false console0 1 false false.
Definition hw0 (keys : list Z) : hw := mkhw keys 0 [] [] (mkpic 0 0 0) (mkpic 0 0 0) 0 ∅ ∅ 0 0 (mkchannel 0 false 0x50 0) (mkchannel 0 false 0 0).

(** An A with the right [SHIFT], [CAPSLOCK], a b, [CTL] with d, the left arrow
    and return *)
Lemma typing_witness :
  run (kbdintr 30) dev0 (hw0 [0x36; 0x1E; 0x9E; 0xB6; 0x3A; 0xBA; 0x30; 0xB0; 0x1D; 0x20; 0xA0; 0x9D; 0xE0; 0x4B; 0xE0; 0xCB; 0x1C; 0x9C]) =
    Ok (tt, with_dcons (consoleintr [65; 66; 4; 0xE4; 10] console0) (with_shift CAPSLOCK dev0), hw0 []).
Proof.
  apply (typing [Char true 65; Caps; Char false 98; Ctl 100; Ext KLeft; Char false 10] false dev0 (hw0 _) 30);
    [|done|by vm_compute|cbn; lia].
  repeat constructor; cbn; try done; left; lia.
Defined.

(** The Home key sends [0xE0 0x47]; the maps have its code at [0x97], not at
    [0xC7], and the key gives nothing. *)
Lemma home_key_dead : scans 0 [0xE0; 0x47; 0xE0; 0xC7] = ([], 0).
Proof. by vm_compute. Qed.

(** A controller that always has the key A. *)
Definition stuck_key : Store portE unit := {|
  st_step X e h :=
    match e in portE X return outcome (X * unit) with
    | Inb port => Ok (if port =? KBSTATP then 1 else 0x1E, tt)
    | Outb _ _ => Ok (tt, tt)
    | RegRead _ => Ok (0, tt)
    | RegWrite _ _ => Ok (tt, tt)
    end;
  st_trace X e h := [];
  st_disk h := ∅;
|}.

Lemma kbdgetc_type_witness : match run (HB := stuck_key) kbdgetc (with_shift 8 dev0) tt with
  | Ok (c, d', _) => -1 <= c < 256 /\ 0 <= d_shift d' < 128 /\ d' = with_shift (d_shift d') (with_shift 8 dev0)
  | Fail e => exists port b', st_step (Store := stuck_key) (Inb port) b' = Fail e
  end.
Proof. apply (kbdgetc_type (HB := stuck_key)); [|cbn; lia]. intros port b v b' [= <- _]. destruct (port =? KBSTATP); lia. Defined.

(** [CTL] with [P], then [CAPSLOCK] and a letter *)
Lemma kbd_examples : scans 0 [0x1D; 0x19; 0x99; 0x9D] = ([16], 0) /\ scans 0 [0x3A; 0xBA; 0x1E; 0x9E] = ([65], 8).
Proof. by vm_compute. Qed.

(** What the console keeps of a line with a capital C or Q: the letter is
    changed, and the line is given to readers before it is complete. *)
Lemma capital_c_is_changed : in_buf (consoleintr [97; 67; 98] console0) !! 1%nat = Some 99 /\ in_w (consoleintr [97; 67; 98] console0) = 2.
Proof. by vm_compute. Qed.
