(* ===== verification/Devices.v ===== *)
(** * Drivers: [picirq.c], [ioapic.c], [lapic.c], [timer.c], [uart.c] and the
    screen of [console.c] *)

From stdpp Require Import base gmap strings numbers list.
From S2P Require Import Prelude Prog State Vop Console Ports Kbd.

Definition T_IRQ0 : Z := 32.
Definition IRQ_TIMER : Z := 0.
Definition IRQ_KBD : Z := 1.
Definition IRQ_COM1 : Z := 4.
Definition IRQ_IDE0 : Z := 14.
Definition IRQ_IDE1 : Z := 15.
Definition IRQ_ERROR : Z := 19.
Definition IRQ_SPURIOUS : Z := 31.

(** ** The interrupt controllers: [picirq.c] *)

Definition IO_PIC1 : Z := 0x20.
Definition IO_PIC2 : Z := 0xA0.
Definition IRQ_SLAVE : Z := 2.

(** The initial value of [irqmask] *)
Definition irqmask0 : Z := Z.land 0xFFFF (Z.lnot (Z.shiftl 1 IRQ_SLAVE)).

Definition picsetmask (mask : Z) : dprog unit :=
  modify (with_irqmask mask);;;
  outb (IO_PIC1 + 1) mask;;;
  outb (IO_PIC2 + 1) (Z.shiftr mask 8).

Definition picenable (irq : Z) : dprog unit :=
  d <- get;;
  picsetmask (u16 (Z.land (d_irqmask d) (Z.lnot (Z.shiftl 1 irq)))).

Definition picinit : dprog unit :=
  (* mask all interrupts *)
  outb (IO_PIC1 + 1) 0xFF;;;
  outb (IO_PIC2 + 1) 0xFF;;;
  (* Set up master (8259A-1) *)
  outb IO_PIC1 0x11;;;
  outb (IO_PIC1 + 1) T_IRQ0;;;
  outb (IO_PIC1 + 1) (Z.shiftl 1 IRQ_SLAVE);;;
  outb (IO_PIC1 + 1) 0x3;;;
  (* Set up slave (8259A-2) *)
  outb IO_PIC2 0x11;;;
  outb (IO_PIC2 + 1) (T_IRQ0 + 8);;;
  outb (IO_PIC2 + 1) IRQ_SLAVE;;;
  outb (IO_PIC2 + 1) 0x3;;;
  (* OCW3 *)
  outb IO_PIC1 0x68;;;
  outb IO_PIC1 0x0a;;;
  outb IO_PIC2 0x68;;;
  outb IO_PIC2 0x0a;;;
  d <- get;;
  if negb (d_irqmask d =? 0xFFFF) then picsetmask (d_irqmask d) else Ret tt.

(** ** The I/O APIC: [ioapic.c] *)

Definition REG_ID : Z := 0x00.
Definition REG_VER : Z := 0x01.
Definition REG_TABLE : Z := 0x10.
Definition INT_DISABLED : Z := 0x00010000.

Definition ioapicread (reg : Z) : dprog Z := reg_write IOAPIC reg;;; reg_read (IOAPIC + 16).
Definition ioapicwrite (reg data : Z) : dprog unit := reg_write IOAPIC reg;;; reg_write (IOAPIC + 16) data.

(** The message about an id that is not [ioapicid] goes to the console. *)
Definition ioapicinit : dprog unit :=
  d <- get;;
  if negb (d_ismp d) then Ret tt
  else
    ver <- ioapicread REG_VER;;
    let maxintr := Z.land (Z.shiftr ver 16) 0xFF in
    id <- ioapicread REG_ID;;
    (* Mark all interrupts edge-triggered, active high, disabled,
       and not routed to any CPUs. *)
    for_each (Z.of_nat <$> seq 0 (Z.to_nat (maxintr + 1))) (fun i =>
      ioapicwrite (REG_TABLE + 2 * i) (Z.lor INT_DISABLED (T_IRQ0 + i));;;
      ioapicwrite (REG_TABLE + 2 * i + 1) 0).

Definition ioapicenable (irq cpunum : Z) : dprog unit :=
  d <- get;;
  if negb (d_ismp d) then Ret tt
  else
    ioapicwrite (REG_TABLE + 2 * irq) (T_IRQ0 + irq);;;
    ioapicwrite (REG_TABLE + 2 * irq + 1) (Z.shiftl cpunum 24).

(** ** The local APIC: [lapic.c]; registers by their offset in bytes *)

Definition ID : Z := 0x0020.
Definition VER : Z := 0x0030.
Definition TPR : Z := 0x0080.
Definition EOI : Z := 0x00B0.
Definition SVR : Z := 0x00F0.
Definition ESR : Z := 0x0280.
Definition ICRLO : Z := 0x0300.
Definition ICRHI : Z := 0x0310.
Definition TIMER : Z := 0x0320.
Definition PCINT : Z := 0x0340.
Definition LINT0 : Z := 0x0350.
Definition LINT1 : Z := 0x0360.
Definition ERROR : Z := 0x0370.
Definition TICR : Z := 0x0380.
Definition TDCR : Z := 0x03E0.
Definition ENABLE : Z := 0x00000100.
Definition INIT : Z := 0x00000500.
Definition STARTUP : Z := 0x00000600.
Definition DELIVS : Z := 0x00001000.
Definition ASSERT : Z := 0x00004000.
Definition LEVEL : Z := 0x00008000.
Definition BCAST : Z := 0x00080000.
Definition X1 : Z := 0x0000000B.
Definition PERIODIC : Z := 0x00020000.
Definition MASKED : Z := 0x00010000.

Definition lapic_read (index : Z) : dprog Z := d <- get;; reg_read (d_lapic d + index).
Definition lapicw (index value : Z) : dprog unit :=
  d <- get;;
  reg_write (d_lapic d + index) value;;;
  lapic_read ID;;;   (* wait for write to finish, by reading *)
  Ret tt.

(** [fuel] for the wait for an interrupt to be delivered *)
Definition lapicinit (fuel : nat) : dprog unit :=
  d <- get;;
  if d_lapic d =? 0 then Ret tt
  else
    lapicw SVR (Z.lor ENABLE (T_IRQ0 + IRQ_SPURIOUS));;;
    lapicw TDCR X1;;;
    lapicw TIMER (Z.lor PERIODIC (T_IRQ0 + IRQ_TIMER));;;
    lapicw TICR 10000000;;;
    lapicw LINT0 MASKED;;;
    lapicw LINT1 MASKED;;;
    ver <- lapic_read VER;;
    (if 4 <=? Z.land (Z.shiftr ver 16) 0xFF then lapicw PCINT MASKED else Ret tt);;;
    lapicw ERROR (T_IRQ0 + IRQ_ERROR);;;
    lapicw ESR 0;;;
    lapicw ESR 0;;;
    lapicw EOI 0;;;
    lapicw ICRHI 0;;;
    lapicw ICRLO (Z.lor BCAST (Z.lor INIT LEVEL));;;
    while_fuel fuel (fun _ : unit =>
      v <- lapic_read ICRLO;;
      Ret (if Z.land v DELIVS =? 0 then inr tt else inl tt)) tt;;;
    lapicw TPR 0.

(** The warning when interrupts are enabled is not part of the model. *)
Definition cpunum : dprog Z :=
  d <- get;;
  if d_lapic d =? 0 then Ret 0 else id <- lapic_read ID;; Ret (Z.shiftr id 24).

Definition lapiceoi : dprog unit :=
  d <- get;;
  if d_lapic d =? 0 then Ret tt else lapicw EOI 0.

Definition microdelay (us : Z) : dprog unit := Ret tt.

(** The warm reset vector is two 16-bit stores at 0x467. *)
Definition IO_RTC : Z := 0x70.
Definition lapicstartap (apicid addr : Z) : dprog unit :=
  outb IO_RTC 0xF;;;
  outb (IO_RTC + 1) 0x0A;;;
  reg_write 0x80000467 0;;;
  reg_write 0x80000469 (u16 (Z.shiftr addr 4));;;
  lapicw ICRHI (Z.shiftl apicid 24);;;
  lapicw ICRLO (Z.lor INIT (Z.lor LEVEL ASSERT));;;
  microdelay 200;;;
  lapicw ICRLO (Z.lor INIT LEVEL);;;
  microdelay 100;;;
  for_each [0; 1] (fun _ =>
    lapicw ICRHI (Z.shiftl apicid 24);;;
    lapicw ICRLO (Z.lor STARTUP (Z.shiftr addr 12));;;
    microdelay 200).

(** ** The interval timer: [timer.c] *)

Definition IO_TIMER1 : Z := 0x040.
Definition TIMER_FREQ : Z := 1193182.
Definition TIMER_DIV (x : Z) : Z := (TIMER_FREQ + x / 2) / x.
Definition timerinit : dprog unit :=
  outb (IO_TIMER1 + 3) (Z.lor 0 (Z.lor 0x04 0x30));;;
  outb IO_TIMER1 (TIMER_DIV 100 mod 256);;;
  outb IO_TIMER1 (TIMER_DIV 100 / 256);;;
  picenable IRQ_TIMER.

(** ** The serial line: [uart.c] *)

Definition COM1 : Z := 0x3f8.

(** [for(i = 0; i < 128 && !(inb(COM1+5) & 0x20); i++)] *)
Fixpoint uart_wait (n : nat) : dprog unit :=
  match n with
  | O => Ret tt
  | S n =>
      st <- inb (COM1 + 5);;
      if Z.land st 0x20 =? 0 then microdelay 10;;; uart_wait n else Ret tt
  end.

Definition uartputc (c : Z) : dprog unit :=
  d <- get;;
  if negb (d_uart d) then Ret tt
  else uart_wait 128;;; outb COM1 c.

Definition uartgetc : dprog Z :=
  d <- get;;
  if negb (d_uart d) then Ret (-1)
  else
    st <- inb (COM1 + 5);;
    if Z.land st 0x01 =? 0 then Ret (-1) else inb COM1.

Definition uartintr (fuel : nat) : dprog unit := consoleintr_from fuel uartgetc.

Definition uartinit : dprog unit :=
  (* Turn off the FIFO *)
  outb (COM1 + 2) 0;;;
  (* 9600 baud, 8 data bits, 1 stop bit, parity off. *)
  outb (COM1 + 3) 0x80;;;
  outb (COM1 + 0) (115200 / 9600);;;
  outb (COM1 + 1) 0;;;
  outb (COM1 + 3) 0x03;;;
  outb (COM1 + 4) 0;;;
  outb (COM1 + 1) 0x01;;;
  (* If status is 0xFF, no serial port. *)
  st <- inb (COM1 + 5);;
  if st =? 0xFF then Ret tt
  else
    modify (with_uart true);;;
    inb (COM1 + 2);;;
    inb (COM1 + 0);;;
    picenable IRQ_COM1;;;
    ioapicenable IRQ_COM1 0;;;
    for_each (chars "xv6..." ++ [10]) uartputc.

(** ** The disks: [idewait] and [ideinit] of [ide.c] *)

Definition ISA_SDH : Z := 0x06.
Definition ISA_COMMAND : Z := 0x07.
Definition ISA_STATUS : Z := 0x07.
Definition IDE_BSY : Z := 0x80.
Definition IDE_DF : Z := 0x20.
Definition IDE_ERR : Z := 0x01.
Definition IO_BASE0 : Z := 0x1F0.
Definition IO_BASE1 : Z := 0x170.

(** [fuel] for the wait until the disk is not busy *)
Definition idewait (fuel : nat) (iobase : Z) (checkerr : bool) : dprog Z :=
  inb (iobase + ISA_STATUS);;;
  r <- while_fuel fuel (fun _ : unit =>
    r <- inb (iobase + ISA_STATUS);; Ret (if Z.land r IDE_BSY =? 0 then inr r else inl tt)) tt;;
  Ret (if checkerr && negb (Z.land r (Z.lor IDE_DF IDE_ERR) =? 0) then -1 else 0).

(** [for(i=0; i<n; i++)]: set the flag as soon as the status is not 0. *)
Fixpoint ideprobe (n : nat) (iobase : Z) (found : dprog unit) : dprog unit :=
  match n with
  | O => Ret tt
  | S n => r <- inb (iobase + ISA_COMMAND);; if negb (r =? 0) then found else ideprobe n iobase found
  end.

(** [ideinit] from its first [idewait] on: which disks there are. *)
Definition idedetect (fuel : nat) : dprog unit :=
  idewait fuel IO_BASE0 false;;;
  (* Check if disk 1 is present *)
  outb (IO_BASE0 + ISA_SDH) (Z.lor 0xe0 (Z.shiftl 1 4));;;
  ideprobe (Z.to_nat 1000) IO_BASE0 (modify (with_disk1 true));;;
  idewait fuel IO_BASE1 false;;;
  outb (IO_BASE1 + ISA_SDH) (Z.lor 0xe0 (Z.shiftl 0 4));;;
  ideprobe (Z.to_nat 1000) IO_BASE1 (modify (with_disk2 true));;;
  (* Switch back to disk 0. *)
  idewait fuel IO_BASE0 false;;;
  outb (IO_BASE0 + ISA_SDH) (Z.lor 0xe0 (Z.shiftl 0 4)).

Definition ideinit (fuel : nat) : dprog unit :=
  picenable IRQ_IDE0;;;
  picenable IRQ_IDE1;;;
  d <- get;;
  ioapicenable IRQ_IDE0 (d_ncpu d - 1);;;
  ioapicenable IRQ_IDE1 (d_ncpu d - 1);;;
  idedetect fuel.

(** What [consoleinit] does to the devices; its entry of [devsw] is
    [Console.console_devsw]. *)
Definition consoleinit : dprog unit :=
  picenable IRQ_KBD;;;
  ioapicenable IRQ_KBD 0.

(** The calls of [main] that set up devices and their interrupts, in order. *)
Definition main_devices (fuel : nat) : dprog unit :=
  picinit;;;
  ioapicinit;;;
  consoleinit;;;
  uartinit;;;
  ideinit fuel;;;
  d <- get;;
  if negb (d_ismp d) then timerinit else Ret tt.

(** ** The screen: [cgaputc] and [consputc] of [console.c] *)

Definition CRTPORT : Z := 0x3d4.

(** [crt[pos] = v]: the screen has 25 lines of 80 characters. *)
Definition crt_put (pos v : Z) : dprog unit :=
  d <- get;;
  if (0 <=? pos) && (pos <? Z.of_nat (length (d_crt d))) then modify (with_crt (<[Z.to_nat pos := v]> (d_crt d)))
  else undef "outside the screen".

(** Scroll up: [memmove] of 23 lines, then [memset] to the end of line 24 *)
Definition scroll (pos : Z) (crt : list Z) : list Z :=
  let crt := splice 0 (slice 80 (23 * 80) crt) crt in
  splice (Z.to_nat pos) (replicate (Z.to_nat (24 * 80 - pos)) 0) crt.

Definition cgaputc (c : Z) : dprog unit :=
  outb CRTPORT 14;;;
  hi <- inb (CRTPORT + 1);;
  outb CRTPORT 15;;;
  lo <- inb (CRTPORT + 1);;
  let pos := Z.lor (Z.shiftl hi 8) lo in
  pos <- (if c =? chr_nl then Ret (pos + 80 - pos mod 80)
          else if c =? BACKSPACE then Ret (if 0 <? pos then pos - 1 else pos)
          else crt_put pos (Z.lor (Z.land c 0xff) 0x0700);;; Ret (pos + 1));;
  pos <- (if 24 <=? pos / 80 then
            if 24 * 80 <? pos - 80 then undef "outside the screen" else
            modify (fun d => with_crt (scroll (pos - 80) (d_crt d)) d);;; Ret (pos - 80) else Ret pos);;
  outb CRTPORT 14;;;
  outb (CRTPORT + 1) (Z.shiftr pos 8);;;
  outb CRTPORT 15;;;
  outb (CRTPORT + 1) pos;;;
  crt_put pos (Z.lor 32 0x0700).

(** After a panic of another processor this one stops here. *)
Definition consputc_dev (c : Z) : dprog unit :=
  d <- get;;
  if d_panicked d then Stop Blocked
  else
    (if c =? BACKSPACE then uartputc 8;;; uartputc 32;;; uartputc 8 else uartputc c);;;
    cgaputc c.

(** ** Characters out *)

(** The serial line is set up, nobody has panicked, and the cursor is on the
    first 24 lines of the screen. *)
Definition con_ready (d : dev) (h : hw) : Prop :=
  d_uart d = true /\ d_panicked d = false /\ length (d_crt d) = 2000%nat /\ Z.testbit (hw_lcr h) 7 = false /\ 0 <= hw_cursor h < 1920.

Lemma run_uartputc c d h : d_uart d = true -> Z.testbit (hw_lcr h) 7 = false ->
  run (uartputc c) d h = Ok (tt, d, hw_set_ser_out (hw_ser_out h ++ [u8 c]) h).
Proof.
  intros Hu Hl. unfold uartputc, uart_wait, inb, outb. cbn [get pbind run]. rewrite Hu. cbn [negb pbind run st_step hw_store].
  assert (Z.land (fst (hw_in (COM1 + 5) h)) 0x20 =? 0 = false) as Hr by (unfold hw_in; cbn; by destruct (hw_ser_in h)).
  assert (snd (hw_in (COM1 + 5) h) = h) as Hs by (unfold hw_in; cbn; by destruct (hw_ser_in h)).
  destruct (hw_in (COM1 + 5) h) as [v h']. cbn [fst snd] in *. subst h'. rewrite Hr. cbn [pbind run st_step hw_store]. unfold hw_out. cbn [COM1 Z.eqb Pos.eqb]. by rewrite Hl.
Qed.

Lemma length_scroll pos crt : length crt = 2000%nat -> 0 <= pos <= 1920 -> length (scroll pos crt) = 2000%nat.
Proof.
  intros Hl Hp. unfold scroll. rewrite length_splice; rewrite length_splice; rewrite ?length_replicate, ?length_slice; lia.
Qed.

Lemma run_crt_put pos v d h : length (d_crt d) = 2000%nat -> 0 <= pos < 2000 ->
  run (crt_put pos v) d h = Ok (tt, with_crt (<[Z.to_nat pos := v]> (d_crt d)) d, h).
Proof.
  intros Hl Hp. unfold crt_put. cbn [get pbind run]. rewrite Hl. rewrite (proj2 (Z.leb_le _ _)), (proj2 (Z.ltb_lt _ _)) by lia. done.
Qed.

(** What does not change when the screen does. *)
Definition only_screen (d d' : dev) (h h' : hw) : Prop :=
  d' = with_crt (d_crt d') d /\ h' = hw_set_crt (hw_crt_sel h') (hw_cursor h') h.

Lemma crt_select v h : hw_out CRTPORT v h = hw_set_crt v (hw_cursor h) h.
Proof. done. Qed.
Lemma crt_high v c h : hw_out (CRTPORT + 1) v (hw_set_crt 14 c h) = hw_set_crt 14 (v * 256 + c mod 256) h.
Proof. done. Qed.
Lemma crt_low v c h : hw_out (CRTPORT + 1) v (hw_set_crt 15 c h) = hw_set_crt 15 (c / 256 * 256 + v) h.
Proof. done. Qed.
Lemma crt_reselect v s c h : hw_set_crt v (hw_cursor (hw_set_crt s c h)) (hw_set_crt s c h) = hw_set_crt v c h.
Proof. done. Qed.

Lemma run_set_cursor {R} pos (k : unit -> dprog R) d h : 0 <= pos < 65536 ->
  run (outb CRTPORT 14;;; outb (CRTPORT + 1) (Z.shiftr pos 8);;; outb CRTPORT 15;;; x <- outb (CRTPORT + 1) pos;; k x) d h =
    run (k tt) d (hw_set_crt 15 pos h).
Proof.
  intros Hp. unfold outb. cbn [pbind run st_step hw_store]. change (u8 14) with 14. change (u8 15) with 15.
  rewrite (crt_select 14), crt_high, (crt_select 15), crt_reselect, crt_low. rewrite Z.shiftr_div_pow2 by lia. change (2 ^ 8) with 256. f_equal. f_equal. unfold u8. lia.
Qed.

Lemma run_get_cursor {R} (k : Z -> Z -> dprog R) d h : 0 <= hw_cursor h < 65536 ->
  run (outb CRTPORT 14;;; hi <- inb (CRTPORT + 1);; outb CRTPORT 15;;; lo <- inb (CRTPORT + 1);; k hi lo) d h =
    run (k (hw_cursor h / 256) (hw_cursor h mod 256)) d (hw_set_crt 15 (hw_cursor h) h).
Proof. done. Qed.

Lemma cursor_bits c : 0 <= c < 65536 -> Z.lor (Z.shiftl (c / 256) 8) (c mod 256) = c.
Proof.
  intros Hc. rewrite <- Z.lxor_lor.
  - rewrite <- Z.add_nocarry_lxor; [rewrite Z.shiftl_mul_pow2 by lia; change (2 ^ 8) with 256; lia|].
    apply Z.bits_inj'. intros i Hi. rewrite Z.land_spec, Z.bits_0. change 256 with (2 ^ 8). destruct (decide (i < 8)).
    + by rewrite Z.shiftl_spec_low.
    + rewrite Z.mod_pow2_bits_high by lia. apply andb_false_r.
  - apply Z.bits_inj'. intros i Hi. rewrite Z.land_spec, Z.bits_0. change 256 with (2 ^ 8). destruct (decide (i < 8)).
    + by rewrite Z.shiftl_spec_low.
    + rewrite Z.mod_pow2_bits_high by lia. apply andb_false_r.
Qed.

Lemma run_cgaputc c d h : length (d_crt d) = 2000%nat -> 0 <= hw_cursor h < 1920 ->
  exists d' h', run (cgaputc c) d h = Ok (tt, d', h') /\ only_screen d d' h h' /\ length (d_crt d') = 2000%nat /\ 0 <= hw_cursor h' < 1920.
Proof.
  intros Hl Hc. unfold cgaputc. rewrite run_get_cursor by lia. rewrite cursor_bits by lia. set (pos := hw_cursor h) in *. set (h1 := hw_set_crt 15 pos h).
  rewrite run_bind.
  assert (exists p d1, run (if c =? chr_nl then Ret (pos + 80 - pos mod 80) else if c =? BACKSPACE then Ret (if 0 <? pos then pos - 1 else pos)
      else crt_put pos (Z.lor (Z.land c 255) 1792);;; Ret (pos + 1)) d h1 = Ok (p, d1, h1) /\ d1 = with_crt (d_crt d1) d /\ length (d_crt d1) = 2000%nat /\ 0 <= p <= 1920) as (p & d1 & -> & Hd1 & Hl1 & Hp).
  { destruct (c =? chr_nl); [exists (pos + 80 - pos mod 80), d; destruct d; split_and!; done || lia|]. destruct (c =? BACKSPACE).
    - exists (if 0 <? pos then pos - 1 else pos), d. destruct d. split_and!; try done; destruct (Z.ltb_spec 0 pos); lia.
    - eexists (pos + 1), _. rewrite run_bind, run_crt_put by (done || lia). split; [done|]. cbn [d_crt with_crt]. rewrite length_insert. split_and!; done || lia. }
  rewrite run_bind.
  assert (exists p' d2, run (if 24 <=? p / 80 then if 24 * 80 <? p - 80 then undef "outside the screen" else
      modify (fun d => with_crt (scroll (p - 80) (d_crt d)) d);;; Ret (p - 80) else Ret p) d1 h1 = Ok (p', d2, h1) /\
      d2 = with_crt (d_crt d2) d /\ length (d_crt d2) = 2000%nat /\ 0 <= p' < 1920) as (p' & d2 & -> & Hd2 & Hl2 & Hp').
  { destruct (Z.leb_spec 24 (p / 80)).
    - rewrite (proj2 (Z.ltb_ge _ _)) by lia. eexists (p - 80), _. split; [done|]. cbn [d_crt with_crt]. rewrite length_scroll by lia. rewrite Hd1. split_and!; done || lia.
    - exists p, d1. split_and!; done || lia. }
  rewrite run_set_cursor by lia. rewrite run_crt_put by (done || lia). eexists _, _. split; [done|]. split; [|cbn [d_crt with_crt hw_cursor hw_set_crt]; rewrite length_insert; split; [done|lia]].
  split; [by rewrite Hd2|done].
Qed.

(** One character, or a backspace: what goes out on the serial line is what
    the console's model records. *)
Lemma run_consputc_dev c d h : con_ready d h ->
  exists d' h', run (consputc_dev c) d h = Ok (tt, d', h') /\ con_ready d' h' /\ d' = with_crt (d_crt d') d /\
    hw_ser_out h' = con_out (consputc c (mkconsole [] 0 0 0 (hw_ser_out h))).
Proof.
  intros (Hu & Hp & Hl & Hlcr & Hc). unfold consputc_dev. cbn [get pbind run]. rewrite Hp. rewrite run_bind. cbn [consputc con_out].
  assert (run (if c =? BACKSPACE then uartputc 8;;; uartputc 32;;; uartputc 8 else uartputc c) d h =
    Ok (tt, d, hw_set_ser_out (hw_ser_out h ++ if c =? BACKSPACE then [8; 32; 8] else [u8 c]) h)) as ->.
  { destruct (c =? BACKSPACE); [|by apply run_uartputc]. rewrite run_bind, run_uartputc, run_bind, run_uartputc, run_uartputc by done.
    unfold hw_set_ser_out. cbn. by rewrite <- !app_assoc. }
  set (h1 := hw_set_ser_out _ h). destruct (run_cgaputc c d h1 Hl Hc) as (d' & h' & -> & [Hd Hh] & Hl' & Hc'). exists d', h'. split; [done|].
  split_and!; [|done|by rewrite Hh]. rewrite Hd, Hh. unfold con_ready in *. cbn. rewrite Hd in Hl'. cbn in Hl'. split_and!; done || lia.
Qed.

(** C37: the console's output reaches the machine: putting out any sequence of
    characters and backspaces never writes outside the screen, leaves the
    cursor on its first 24 lines, and sends on the serial line exactly the
    bytes that [Console.consputc] records as the output. *)
Theorem console_output (cs : list Z) (d : dev) (h : hw) :
  con_ready d h ->
  exists d' h', run (for_each cs consputc_dev) d h = Ok (tt, d', h') /\ con_ready d' h' /\
    hw_ser_out h' = con_out (foldl (fun s c => consputc c s) (mkconsole [] 0 0 0 (hw_ser_out h)) cs).
Proof.
  revert d h. induction cs as [|c cs IH]; intros d h Hr; cbn [for_each foldl]; [by exists d, h|].
  destruct (run_consputc_dev c d h Hr) as (d1 & h1 & Hrun & Hr1 & _ & Ho). rewrite run_bind, Hrun.
  destruct (IH d1 h1 Hr1) as (d' & h' & -> & Hr' & Ho'). exists d', h'. split_and!; [done|done|]. rewrite Ho', Ho. done.
Qed.

Lemma console_output_witness :
  exists d' h', run (for_each [104; 105; 0x100; 10] consputc_dev) (with_uart true dev0) (hw0 []) = Ok (tt, d', h') /\ hw_ser_out h' = [104; 105; 8; 32; 8; 10].
Proof.
  destruct (console_output [104; 105; 0x100; 10] (with_uart true dev0) (hw0 [])) as (d' & h' & H1 & _ & H2).
  - unfold con_ready. cbn. split_and!; done || lia.
  - exists d', h'. by split.
Defined.

(** ** Interrupt routing *)

Lemma run_picsetmask mask d h : pic_icw (hw_pic1 h) = 0%nat -> pic_icw (hw_pic2 h) = 0%nat ->
  run (picsetmask mask) d h =
    Ok (tt, with_irqmask mask d,
        hw_set_pic2 (mkpic (u8 (Z.shiftr mask 8)) (pic_vector (hw_pic2 h)) 0) (hw_set_pic1 (mkpic (u8 mask) (pic_vector (hw_pic1 h)) 0) h)).
Proof. destruct h as [? ? ? ? [m1 v1 i1] [m2 v2 i2] ? ? ? ? ? ? ?]. cbn [hw_pic1 hw_pic2 pic_icw]. by intros -> ->. Qed.

(** What the set-up of the controllers leaves alone. *)
Definition same_dev (d d' : dev) : Prop := d' = with_irqmask (d_irqmask d') d.
Definition same_hw (h h' : hw) : Prop :=
  hw_lcr h' = hw_lcr h /\ hw_ser_in h' = hw_ser_in h /\ hw_ser_out h' = hw_ser_out h /\ hw_ide0 h' = hw_ide0 h /\ hw_ide1 h' = hw_ide1 h.

Lemma same_hw_trans h h1 h2 : same_hw h h1 -> same_hw h1 h2 -> same_hw h h2.
Proof. intros (A1 & A2 & A3 & A4 & A5) (B1 & B2 & B3 & B4 & B5). split_and!; congruence. Qed.

(** The controllers are set up and have the mask the driver remembers. *)
Definition pics_as (m : Z) (h : hw) : Prop :=
  hw_pic1 h = mkpic (u8 m) T_IRQ0 0 /\ hw_pic2 h = mkpic (u8 (Z.shiftr m 8)) (T_IRQ0 + 8) 0.

Lemma run_picinit d h : d_irqmask d <> 0xFFFF -> exists h', run picinit d h = Ok (tt, d, h') /\ pics_as (d_irqmask d) h' /\ hw_apic h' = hw_apic h /\ same_hw h h'.
Proof.
  intros Hm. unfold picinit. set (last := d <- get;; _). unfold outb. cbn [pbind run st_step hw_store].
  match goal with |- exists h', run last d ?h1 = _ /\ _ => set (h1' := h1);
    assert (hw_pic1 h1' = mkpic 0 T_IRQ0 0 /\ hw_pic2 h1' = mkpic 0 (T_IRQ0 + 8) 0 /\ hw_apic h1' = hw_apic h /\ same_hw h h1') as (H1 & H2 & H3 & H4) by done;
    generalize dependent h1' end.
  intros h1 H1 H2 H3 H4. unfold last. cbn [get pbind run]. rewrite (proj2 (Z.eqb_neq _ _) Hm). cbn [negb]. rewrite run_picsetmask by (by rewrite ?H1, ?H2).
  eexists. split; [by destruct d|]. rewrite H1, H2. done.
Qed.

(** Bit [i] of the mask is clear when [i] is the slave's line or enabled. *)
Definition mask_of (irqs : list Z) (m : Z) : Prop :=
  0 <= m < 65536 /\ forall i, 0 <= i < 16 -> Z.testbit m i = negb (bool_decide (i = IRQ_SLAVE \/ i ∈ irqs)).

Lemma mask0 : mask_of [] irqmask0.
Proof.
  split; [by vm_compute|]. intros i Hi. assert (i = 0 \/ i = 1 \/ i = 2 \/ i = 3 \/ i = 4 \/ i = 5 \/ i = 6 \/ i = 7 \/ i = 8 \/ i = 9 \/ i = 10 \/ i = 11 \/ i = 12 \/ i = 13 \/ i = 14 \/ i = 15) as Hc by lia.
  repeat destruct Hc as [-> | Hc]; try subst i; by vm_compute.
Qed.

Lemma mask_enable irqs m irq : mask_of irqs m -> 0 <= irq < 16 -> mask_of (irq :: irqs) (u16 (Z.land m (Z.lnot (Z.shiftl 1 irq)))).
Proof.
  intros [Hm Hb] Hi. split; [apply u16_range|]. intros i Hr. unfold u16. rewrite Z.mod_pow2_bits_low by lia.
  rewrite Z.land_spec, Z.lnot_spec, Hb by lia. rewrite Z.shiftl_spec by lia.
  destruct (decide (i = irq)) as [->|Hne].
  - rewrite Z.sub_diag. rewrite (bool_decide_true (irq = IRQ_SLAVE \/ irq ∈ irq :: irqs)) by (right; left). cbn. apply andb_false_r.
  - assert (Z.testbit 1 (i - irq) = false) as ->.
    { destruct (decide (i < irq)); [apply Z.testbit_neg_r; lia|]. change 1 with (2 ^ 0). apply Z.pow2_bits_false. lia. }
    rewrite andb_true_r. f_equal. apply bool_decide_ext. rewrite elem_of_cons. intuition.
Qed.

(** An entry of the I/O APIC's redirection table *)
Definition redirection (h : hw) (i : Z) : option Z * option Z := (hw_apic h !! (REG_TABLE + 2 * i), hw_apic h !! (REG_TABLE + 2 * i + 1)).

Lemma run_ioapicwrite reg data d h : 0 <= reg < 4294967296 ->
  run (ioapicwrite reg data) d h = Ok (tt, d, hw_set_apic (<[reg := u32 data]> (hw_apic h)) (hw_set_sel reg h)).
Proof. intros Hr. cbn. unfold hw_reg_write. cbn. by rewrite (u32_small reg). Qed.

(** Setting entry [i] of the table leaves the others. *)
Lemma run_entry_set (i lo hi : Z) d h : 0 <= i < 256 ->
  exists h', run (ioapicwrite (REG_TABLE + 2 * i) lo;;; ioapicwrite (REG_TABLE + 2 * i + 1) hi) d h = Ok (tt, d, h') /\
    redirection h' i = (Some (u32 lo), Some (u32 hi)) /\ (forall j, j <> i -> redirection h' j = redirection h j) /\
    hw_pic1 h' = hw_pic1 h /\ hw_pic2 h' = hw_pic2 h /\ same_hw h h'.
Proof.
  intros Hi. unfold REG_TABLE. rewrite run_bind, run_ioapicwrite, run_ioapicwrite by lia. eexists. split; [done|]. unfold redirection, REG_TABLE. cbn. split_and!; try done.
  - by rewrite lookup_insert_ne, !lookup_insert_eq by lia.
  - intros j Hj. by rewrite !lookup_insert_ne by lia.
Qed.

Lemma u32_disabled i : 0 <= i < 256 -> u32 (Z.lor INT_DISABLED (T_IRQ0 + i)) = Z.lor INT_DISABLED (T_IRQ0 + i).
Proof.
  intros Hi. apply u32_small. unfold INT_DISABLED, T_IRQ0. split; [apply Z.lor_nonneg; lia|].
  assert (0 <= Z.lor 0x10000 (32 + i)) by (apply Z.lor_nonneg; lia).
  destruct (decide (Z.lor 0x10000 (32 + i) = 0)); [lia|]. change 4294967296 with (2 ^ 32). apply Z.log2_lt_pow2; [lia|]. rewrite Z.log2_lor by lia. apply Z.max_lub_lt; [by vm_compute|].
  pose proof (Z.log2_le_mono (32 + i) 512 ltac:(lia)). change (Z.log2 512) with 9 in *. lia.
Qed.

Lemma run_disable_all l : forall d h, Forall (fun i => 0 <= i < 256) l ->
  exists h', run (for_each l (fun i => ioapicwrite (REG_TABLE + 2 * i) (Z.lor INT_DISABLED (T_IRQ0 + i));;; ioapicwrite (REG_TABLE + 2 * i + 1) 0)) d h = Ok (tt, d, h') /\
    (forall i, redirection h' i = if bool_decide (i ∈ l) then (Some (u32 (Z.lor INT_DISABLED (T_IRQ0 + i))), Some 0) else redirection h i) /\
    hw_pic1 h' = hw_pic1 h /\ hw_pic2 h' = hw_pic2 h /\ same_hw h h'.
Proof.
  induction l as [|i l IH]; intros d h Hl; cbn [for_each].
  - exists h. split_and!; [done| |done|done|done]. intros i. rewrite bool_decide_false; [done|]. apply not_elem_of_nil.
  - apply Forall_cons in Hl as [Hi Hl]. rewrite run_bind.
    destruct (run_entry_set i (Z.lor INT_DISABLED (T_IRQ0 + i)) 0 d h Hi) as (h1 & -> & He & Ho & Hp1 & Hp2 & Hs1).
    destruct (IH d h1 Hl) as (h' & -> & Hr & Hq1 & Hq2 & Hs2). exists h'. split_and!; try done; try congruence; [|by eapply same_hw_trans].
    intros j. rewrite Hr.
    destruct (decide (j ∈ l)) as [Hj|Hj]; [by rewrite !bool_decide_true by (done || by right)|]. rewrite (bool_decide_false _ Hj).
    destruct (decide (j = i)) as [->|Hne]; [by rewrite bool_decide_true by left|].
    rewrite bool_decide_false; [by apply Ho|]. rewrite elem_of_cons. intuition.
Qed.

(** The state of the interrupt controllers: the lines enabled at the 8259As,
    and the lines of the I/O APIC routed to a processor, if there is one. *)
Definition route (routes : list (Z * Z)) (i : Z) : option Z * option Z :=
  match List.find (fun '(j, _) => j =? i) routes with
  | Some (_, cpu) => (Some (T_IRQ0 + i), Some (Z.shiftl cpu 24))
  | None => (Some (Z.lor INT_DISABLED (T_IRQ0 + i)), Some 0)
  end.

Record ctl (n : Z) (apic : gmap Z Z) (irqs : list Z) (routes : list (Z * Z)) (d : dev) (h : hw) : Prop := {
  ct_mask : mask_of irqs (d_irqmask d);
  ct_pics : pics_as (d_irqmask d) h;
  ct_apic : if d_ismp d then forall i, 0 <= i <= n -> redirection h i = route routes i else hw_apic h = apic;
}.

(** A step that does not touch the controllers. *)
Lemma ctl_frame n apic irqs routes d h d' h' :
  ctl n apic irqs routes d h -> d_irqmask d' = d_irqmask d -> d_ismp d' = d_ismp d ->
  hw_pic1 h' = hw_pic1 h -> hw_pic2 h' = hw_pic2 h -> hw_apic h' = hw_apic h -> ctl n apic irqs routes d' h'.
Proof. intros [Hm Hp Ha] E1 E2 E3 E4 E5. split; unfold pics_as, redirection in *; by rewrite ?E1, ?E2, ?E3, ?E4, ?E5. Qed.

Lemma run_picenable n apic irqs routes irq d h :
  ctl n apic irqs routes d h -> 0 <= irq < 16 ->
  exists d' h', run (picenable irq) d h = Ok (tt, d', h') /\ ctl n apic (irq :: irqs) routes d' h' /\ same_dev d d' /\ same_hw h h'.
Proof.
  intros [Hm [Hp1 Hp2] Ha] Hi. unfold picenable. cbn [get pbind run]. rewrite run_picsetmask by (by rewrite ?Hp1, ?Hp2).
  eexists _, _. split; [done|]. split_and!; [|done|done]. split; [by apply mask_enable| |done]. unfold pics_as. cbn. by rewrite Hp1, Hp2.
Qed.

Lemma run_ioapicenable n apic irqs routes irq cpu d h :
  ctl n apic irqs routes d h -> 0 <= irq < 16 -> 0 <= cpu < 256 ->
  exists h', run (ioapicenable irq cpu) d h = Ok (tt, d, h') /\ ctl n apic irqs ((irq, cpu) :: routes) d h' /\ same_hw h h'.
Proof.
  intros [Hm [Hp1 Hp2] Ha] Hi Hc. unfold ioapicenable. cbn [get pbind run]. destruct (d_ismp d) eqn:Hmp; cbn [negb].
  - destruct (run_entry_set irq (T_IRQ0 + irq) (Z.shiftl cpu 24) d h) as (h' & -> & He & Ho & E1 & E2 & Hs); [lia|].
    exists h'. split; [done|]. split; [|exact Hs]. split; [done|by split; rewrite ?E1, ?E2|]. rewrite Hmp. intros i Hn. unfold route. cbn [List.find].
    destruct (Z.eqb_spec irq i) as [<-|Hne]; [|rewrite Ho by done; by apply Ha].
    rewrite He, !u32_small; [done|rewrite Z.shiftl_mul_pow2 by lia; lia|unfold T_IRQ0; lia].
  - exists h. split; [done|]. split; [|done]. split; [done|by split|]. by rewrite Hmp.
Qed.

(** [picinit] and [ioapicinit] *)
Lemma run_controllers d h ver :
  let n := Z.land (Z.shiftr ver 16) 0xFF in
  d_irqmask d = irqmask0 -> (d_ismp d = true -> hw_apic h !! REG_VER = Some ver) ->
  exists h', run (picinit;;; ioapicinit) d h = Ok (tt, d, h') /\ ctl n (hw_apic h) [] [] d h' /\ same_hw h h'.
Proof.
  intros n Hm Hver. assert (0 <= n < 256) as Hn by (unfold n; change 0xFF with (Z.ones 8); rewrite Z.land_ones by lia; lia).
  rewrite run_bind. destruct (run_picinit d h) as (h1 & -> & Hp & Ha & Hs1); [by rewrite Hm|].
  assert (mask_of [] (d_irqmask d)) as Hmask by (rewrite Hm; exact mask0).
  unfold ioapicinit. cbn [get pbind run]. destruct (d_ismp d) eqn:Hmp; cbn [negb]; [|exists h1; split; [done|]; split; [|exact Hs1]; split; [done|done|by rewrite Hmp]].
  rewrite run_bind. unfold ioapicread at 1. cbn [pbind run st_step hw_store reg_write reg_read].
  change (hw_reg_read (IOAPIC + 16) (hw_reg_write IOAPIC (u32 REG_VER) h1)) with (default 0 (hw_apic h1 !! REG_VER)). rewrite Ha, (Hver eq_refl). cbn [default from_option id].
  rewrite run_bind. unfold ioapicread at 1. cbn [pbind run st_step hw_store reg_write reg_read]. fold n. set (h2 := hw_reg_write IOAPIC (u32 REG_ID) _).
  destruct (run_disable_all (Z.of_nat <$> seq 0 (Z.to_nat (n + 1))) d h2) as (h3 & -> & Hr3 & Hp31 & Hp32 & Hs3).
  { apply Forall_fmap, Forall_forall. intros x Hx. apply elem_of_seq in Hx. cbn. lia. }
  exists h3. split; [done|]. split; [split; [done| |]|exact (same_hw_trans h h1 h3 Hs1 Hs3)].
  - destruct Hp as [Hpa Hpb]. split; rewrite ?Hp31, ?Hp32; [exact Hpa|exact Hpb].
  - rewrite Hmp. intros i Hi. rewrite Hr3, bool_decide_true by (apply in_codes; lia). unfold route. cbn [List.find]. by rewrite u32_disabled by lia.
Qed.

(** The first two of a sequence, as one. *)
Lemma run_split {R} (p q : dprog unit) (k : dprog R) d (h : hw) : run (p;;; q;;; k) d h = match run (p;;; q) d h with Ok (_, d', h') => run k d' h' | Fail e => Fail e end.
Proof. rewrite <- (run_assoc p (fun _ => q) (fun _ => k)). by rewrite run_bind. Qed.

Lemma run_uart_hello cs : forall d h, d_uart d = true -> Z.testbit (hw_lcr h) 7 = false ->
  run (for_each cs uartputc) d h = Ok (tt, d, hw_set_ser_out (hw_ser_out h ++ (u8 <$> cs)) h).
Proof.
  induction cs as [|c cs IH]; intros d h Hu Hl; cbn [for_each]; [cbn; by rewrite app_nil_r; destruct h|].
  rewrite run_bind, run_uartputc by done. rewrite IH by done. cbn [hw_ser_out hw_set_ser_out fmap list_fmap]. by rewrite <- app_assoc.
Qed.

(** What the serial line is told until it is known to be there. *)
Definition uart_set (h : hw) : hw := hw_set_ser_in (tail (hw_ser_in h)) (hw_set_lcr 0x03 h).

Lemma run_uartinit n apic irqs routes d h :
  ctl n apic irqs routes d h ->
  exists d' h', run uartinit d h = Ok (tt, d', h') /\ ctl n apic (IRQ_COM1 :: irqs) ((IRQ_COM1, 0) :: routes) d' h' /\
    d' = with_irqmask (d_irqmask d') (with_uart true d) /\ hw_ser_out h' = hw_ser_out h ++ chars "xv6..." ++ [10] /\
    hw_ide0 h' = hw_ide0 h /\ hw_ide1 h' = hw_ide1 h.
Proof.
  intros Hc.
  assert (run uartinit d h = run (picenable IRQ_COM1;;; ioapicenable IRQ_COM1 0;;; for_each (chars "xv6..." ++ [10]) uartputc) (with_uart true d) (uart_set h)) as ->.
  { destruct h as [? ? [|c r] ? ? ? ? ? ? ? ? ? ?]; done. }
  apply (ctl_frame _ _ _ _ _ _ (with_uart true d) (uart_set h)) in Hc; [|done..].
  destruct (run_picenable _ _ _ _ IRQ_COM1 _ _ Hc ltac:(done)) as (d1 & h1 & R1 & Hc1 & Hd1 & Hh1). rewrite run_bind, R1.
  destruct (run_ioapicenable _ _ _ _ IRQ_COM1 0 _ _ Hc1 ltac:(done) ltac:(lia)) as (h2 & R2 & Hc2 & Hh2). rewrite run_bind, R2.
  assert (d_uart d1 = true) as Hu by (by rewrite Hd1). destruct Hh1 as (L1 & _ & S1 & I1 & J1), Hh2 as (L2 & _ & S2 & I2 & J2).
  rewrite run_uart_hello by (done || by rewrite L2, L1). eexists _, _. split; [done|].
  split_and!; [by eapply ctl_frame|exact Hd1|by cbn; rewrite S2, S1|by cbn; rewrite I2, I1|by cbn; rewrite J2, J1].
Qed.

(** *** The disks *)

(** Neither drive of a channel is busy for ever. *)
Definition ch_ok (c : channel) : Prop := Z.land (ch_st0 c) IDE_BSY = 0 /\ Z.land (ch_st1 c) IDE_BSY = 0.
Definition ch_ready (c : channel) : channel := mkchannel 0 (ch_second c) (ch_st0 c) (ch_st1 c).

(** The channel at [iobase]. *)
Definition ide_at (iobase : Z) (h : hw) : channel := if iobase =? IO_BASE0 then hw_ide0 h else hw_ide1 h.
Definition set_ide (iobase : Z) (c : channel) (h : hw) : hw := if iobase =? IO_BASE0 then hw_set_ide0 c h else hw_set_ide1 c h.
Definition is_base (iobase : Z) : Prop := iobase = IO_BASE0 \/ iobase = IO_BASE1.

Lemma in_status iobase h : is_base iobase -> hw_in (iobase + ISA_STATUS) h = (fst (ch_status (ide_at iobase h)), set_ide iobase (snd (ch_status (ide_at iobase h))) h).
Proof.
  intros [-> | ->].
  - change (hw_in (IO_BASE0 + ISA_STATUS) h) with (let '(v, c) := ch_status (hw_ide0 h) in (v, hw_set_ide0 c h)).
    change (ide_at IO_BASE0 h) with (hw_ide0 h). by destruct (ch_status (hw_ide0 h)).
  - change (hw_in (IO_BASE1 + ISA_STATUS) h) with (let '(v, c) := ch_status (hw_ide1 h) in (v, hw_set_ide1 c h)).
    change (ide_at IO_BASE1 h) with (hw_ide1 h). by destruct (ch_status (hw_ide1 h)).
Qed.

Lemma out_select iobase v h : is_base iobase -> hw_out (iobase + ISA_SDH) v h = set_ide iobase (ch_select v (ide_at iobase h)) h.
Proof. by intros [-> | ->]. Qed.

Lemma ide_set iobase c h : ide_at iobase (set_ide iobase c h) = c.
Proof. unfold ide_at, set_ide. by destruct (iobase =? IO_BASE0). Qed.
Lemma set_ide_set iobase c c' h : set_ide iobase c (set_ide iobase c' h) = set_ide iobase c h.
Proof. unfold set_ide. by destruct (iobase =? IO_BASE0). Qed.
Lemma set_ide_same iobase h : set_ide iobase (ide_at iobase h) h = h.
Proof. unfold set_ide, ide_at. destruct (iobase =? IO_BASE0); by destruct h. Qed.

(** Waiting ends when the channel is not busy any more. *)
Lemma run_idewait_loop iobase k fuel d h :
  is_base iobase -> ch_ok (ide_at iobase h) -> ch_busy (ide_at iobase h) = k -> (k < fuel)%nat ->
  exists r, run (while_fuel fuel (fun _ : unit =>
    r <- inb (iobase + ISA_STATUS);; Ret (if Z.land r IDE_BSY =? 0 then inr r else inl tt)) tt) d h =
    Ok (r, d, set_ide iobase (ch_ready (ide_at iobase h)) h).
Proof.
  intros Hb. revert fuel h. induction k as [|k IH]; intros fuel h Hok Hk Hf; (destruct fuel as [|fuel]; [lia|]); cbn [while_fuel];
    unfold inb; rewrite run_bind; cbn [pbind run st_step hw_store]; rewrite (in_status iobase h Hb); unfold ch_status; rewrite Hk; cbn [fst snd].
  - destruct Hok as [H0 H1]. assert (Z.land (if ch_second (ide_at iobase h) then ch_st1 (ide_at iobase h) else ch_st0 (ide_at iobase h)) IDE_BSY = 0) as ->
      by (by destruct (ch_second _)). cbn [Z.eqb]. eexists. cbn [run].
    assert (ch_ready (ide_at iobase h) = ide_at iobase h) as -> by (unfold ch_ready; rewrite <- Hk; by destruct (ide_at iobase h)). done.
  - change (Z.land 0x80 IDE_BSY =? 0) with false. cbv iota.
    destruct (IH fuel (set_ide iobase (mkchannel k (ch_second (ide_at iobase h)) (ch_st0 (ide_at iobase h)) (ch_st1 (ide_at iobase h))) h)) as (r & Hr);
      rewrite ?ide_set; [exact Hok|done|lia|]. exists r. cbn [run]. rewrite ide_set, set_ide_set in Hr. exact Hr.
Qed.

Lemma run_idewait iobase fuel d h :
  is_base iobase -> ch_ok (ide_at iobase h) -> (ch_busy (ide_at iobase h) < fuel)%nat ->
  run (idewait fuel iobase false) d h = Ok (0, d, set_ide iobase (ch_ready (ide_at iobase h)) h).
Proof.
  intros Hb Hok Hf. unfold idewait. unfold inb at 1. cbn [pbind run st_step hw_store]. rewrite (in_status iobase h Hb). set (c1 := snd (ch_status _)).
  assert (ch_ready c1 = ch_ready (ide_at iobase h) /\ (ch_busy c1 <= ch_busy (ide_at iobase h))%nat /\ ch_ok c1) as (Hr & Hle & Hok1).
  { unfold c1, ch_status. destruct (ide_at iobase h) as [[|m] b s0 s1]; cbn in *; split_and!; (done || lia). }
  rewrite run_bind. destruct (run_idewait_loop iobase (ch_busy c1) fuel d (set_ide iobase c1 h) Hb) as (r & ->); rewrite ?ide_set; [done|done|lia|].
  by rewrite set_ide_set, Hr.
Qed.

(** A drive is found if it has a status. *)
Lemma run_ideprobe iobase n found d h :
  is_base iobase -> ch_busy (ide_at iobase h) = 0%nat ->
  let st := fst (ch_status (ide_at iobase h)) in
  run (ideprobe (S n) iobase found) d h = if st =? 0 then Ok (tt, d, h) else run found d h.
Proof.
  intros Hb Hk st.
  assert (hw_in (iobase + ISA_COMMAND) h = (st, h)) as Hin.
  { change ISA_COMMAND with ISA_STATUS. rewrite (in_status iobase h Hb). f_equal. unfold ch_status. rewrite Hk. cbn [snd]. apply set_ide_same. }
  destruct (Z.eqb_spec st 0) as [E|E].
  - generalize (S n) as m. induction m as [|m IH]; [done|]. cbn [ideprobe]. unfold inb. cbn [pbind run st_step hw_store]. rewrite Hin, E. exact IH.
  - cbn [ideprobe]. unfold inb. cbn [pbind run st_step hw_store]. rewrite Hin. by rewrite (proj2 (Z.eqb_neq _ _) E).
Qed.

Lemma run_select iobase v d h : is_base iobase -> 0 <= v < 256 ->
  run (outb (iobase + ISA_SDH) v) d h = Ok (tt, d, set_ide iobase (ch_select v (ide_at iobase h)) h).
Proof. intros Hb Hv. unfold outb, u8. cbn [run st_step hw_store]. rewrite Z.mod_small by (change (2 ^ 8) with 256; lia). by rewrite out_select. Qed.

(** One disk is looked for on a channel. *)
Lemma run_ide_channel iobase v fuel found (k : dprog unit) d h :
  is_base iobase -> 0 <= v < 256 -> ch_ok (ide_at iobase h) -> (ch_busy (ide_at iobase h) < fuel)%nat ->
  let c := ch_select v (ch_ready (ide_at iobase h)) in
  run (idewait fuel iobase false;;; outb (iobase + ISA_SDH) v;;; ideprobe (Z.to_nat 1000) iobase (modify found);;; k) d h =
    run k (if fst (ch_status c) =? 0 then d else found d) (set_ide iobase c h).
Proof.
  intros Hb Hv Hok Hf c. rewrite run_bind, run_idewait by done. rewrite run_bind, run_select by done. rewrite ide_set, set_ide_set. fold c.
  change (Z.to_nat 1000) with (S (Z.to_nat 999)). rewrite run_bind, run_ideprobe by (done || by rewrite ide_set). rewrite ide_set. by destruct (_ =? 0).
Qed.

(** A channel with no drive busy and the first one selected. *)
Definition settled (c : channel) : channel := mkchannel 0 false (ch_st0 c) (ch_st1 c).

Lemma run_idedetect fuel d h :
  ch_ok (hw_ide0 h) -> ch_ok (hw_ide1 h) -> (ch_busy (hw_ide0 h) < fuel)%nat -> (ch_busy (hw_ide1 h) < fuel)%nat ->
  let d1 := if ch_st1 (hw_ide0 h) =? 0 then d else with_disk1 true d in
  run (idedetect fuel) d h =
    Ok (tt, if ch_st0 (hw_ide1 h) =? 0 then d1 else with_disk2 true d1, hw_set_ide0 (settled (hw_ide0 h)) (hw_set_ide1 (settled (hw_ide1 h)) h)).
Proof.
  intros Hok0 Hok1 Hf0 Hf1 d1. unfold idedetect.
  rewrite (run_ide_channel IO_BASE0) by (done || by left).
  rewrite (run_ide_channel IO_BASE1) by (done || by right).
  rewrite run_bind, (run_idewait IO_BASE0) by (done || by left || (cbn; lia)).
  rewrite run_select by (done || by left). done.
Qed.

Lemma run_ideinit n apic irqs routes fuel d h :
  ctl n apic irqs routes d h -> 1 <= d_ncpu d <= 256 ->
  ch_ok (hw_ide0 h) -> ch_ok (hw_ide1 h) -> (ch_busy (hw_ide0 h) < fuel)%nat -> (ch_busy (hw_ide1 h) < fuel)%nat ->
  exists d' h', run (ideinit fuel) d h = Ok (tt, d', h') /\
    ctl n apic (IRQ_IDE1 :: IRQ_IDE0 :: irqs) ((IRQ_IDE1, d_ncpu d - 1) :: (IRQ_IDE0, d_ncpu d - 1) :: routes) d' h' /\
    d_ismp d' = d_ismp d /\ d_uart d' = d_uart d /\ hw_ser_out h' = hw_ser_out h /\
    d_havedisk1 d' = d_havedisk1 d || negb (ch_st1 (hw_ide0 h) =? 0) /\ d_havedisk2 d' = d_havedisk2 d || negb (ch_st0 (hw_ide1 h) =? 0) /\
    hw_ide0 h' = settled (hw_ide0 h) /\ hw_ide1 h' = settled (hw_ide1 h).
Proof.
  intros Hc Hcpu Hok0 Hok1 Hf0 Hf1. unfold ideinit.
  destruct (run_picenable _ _ _ _ IRQ_IDE0 _ _ Hc ltac:(done)) as (d1 & h1 & R1 & Hc1 & Hd1 & Hh1). rewrite run_bind, R1.
  destruct (run_picenable _ _ _ _ IRQ_IDE1 _ _ Hc1 ltac:(done)) as (d2 & h2 & R2 & Hc2 & Hd2 & Hh2). rewrite run_bind, R2. cbn [get pbind run].
  assert (d2 = with_irqmask (d_irqmask d2) d) as Hd by (rewrite Hd2, Hd1; done). assert (d_ncpu d2 = d_ncpu d) as -> by (by rewrite Hd).
  destruct (run_ioapicenable _ _ _ _ IRQ_IDE0 (d_ncpu d - 1) _ _ Hc2 ltac:(done) ltac:(lia)) as (h3 & R3 & Hc3 & Hh3). rewrite run_bind, R3.
  destruct (run_ioapicenable _ _ _ _ IRQ_IDE1 (d_ncpu d - 1) _ _ Hc3 ltac:(done) ltac:(lia)) as (h4 & R4 & Hc4 & Hh4). rewrite run_bind, R4.
  assert (same_hw h h4) as (_ & _ & Ho & E0 & E1) by eauto 10 using same_hw_trans.
  rewrite run_idedetect by (by rewrite ?E0, ?E1). rewrite E0, E1. eexists _, _. split; [done|].
  assert (d_ismp d2 = d_ismp d /\ d_uart d2 = d_uart d /\ d_havedisk1 d2 = d_havedisk1 d /\ d_havedisk2 d2 = d_havedisk2 d) as (F1 & F2 & F3 & F4) by (by rewrite Hd).
  split_and!; try done.
  - eapply ctl_frame; [exact Hc4|by destruct (ch_st1 _ =? 0), (ch_st0 _ =? 0)|by destruct (ch_st1 _ =? 0), (ch_st0 _ =? 0)|done|done|done].
  - by destruct (ch_st1 _ =? 0), (ch_st0 _ =? 0).
  - by destruct (ch_st1 _ =? 0), (ch_st0 _ =? 0).
  - rewrite <- F3. destruct (ch_st1 _ =? 0), (ch_st0 _ =? 0); cbn; by destruct (d_havedisk1 d2).
  - rewrite <- F4. destruct (ch_st1 _ =? 0), (ch_st0 _ =? 0); cbn; by destruct (d_havedisk2 d2).
Qed.

(** *** The theorem *)

(** The processor that gets line [i] of the I/O APIC. *)
Definition irq_cpu (ncpu i : Z) : option Z :=
  if (i =? IRQ_KBD) || (i =? IRQ_COM1) then Some 0
  else if (i =? IRQ_IDE0) || (i =? IRQ_IDE1) then Some (ncpu - 1)
  else None.

Lemma mask_line irqs m h i : mask_of irqs m -> pics_as m h -> 0 <= i < 16 ->
  Z.testbit (if i <? 8 then pic_mask (hw_pic1 h) else pic_mask (hw_pic2 h)) (i mod 8) = false <-> i = IRQ_SLAVE \/ i ∈ irqs.
Proof.
  intros [_ Hb] [-> ->] Hi. cbn [pic_mask].
  assert (Z.testbit (if i <? 8 then u8 m else u8 (Z.shiftr m 8)) (i mod 8) = Z.testbit m i) as ->.
  { unfold u8. destruct (Z.ltb_spec i 8); rewrite Z.mod_pow2_bits_low by lia; [f_equal; lia|]. rewrite Z.shiftr_spec by lia. f_equal. lia. }
  rewrite Hb by done. by rewrite negb_false_iff, bool_decide_eq_true.
Qed.

Lemma route_irq_cpu ncpu i : route [(IRQ_IDE1, ncpu - 1); (IRQ_IDE0, ncpu - 1); (IRQ_COM1, 0); (IRQ_KBD, 0)] i =
  match irq_cpu ncpu i with
  | Some cpu => (Some (T_IRQ0 + i), Some (Z.shiftl cpu 24))
  | None => (Some (Z.lor INT_DISABLED (T_IRQ0 + i)), Some 0)
  end.
Proof.
  unfold route, irq_cpu. cbn [List.find]. rewrite !(Z.eqb_sym i).
  destruct (Z.eqb_spec IRQ_IDE1 i) as [<-|]; [done|]. destruct (Z.eqb_spec IRQ_IDE0 i) as [<-|]; [done|].
  destruct (IRQ_COM1 =? i), (IRQ_KBD =? i); done.
Qed.

(** C38: the boot of [main] from [picinit] to [timerinit] routes the
    interrupts of the machine.  Afterwards the 8259As deliver at vectors
    [T_IRQ0] and up, and exactly the keyboard's, the serial line's and both
    disks' lines, the cascade line and, without I/O APIC, the timer's are
    unmasked.  On a multiprocessor, exactly the first four of these are
    enabled in the I/O APIC, line [i] at vector [T_IRQ0 + i]: those of the
    keyboard and the serial line go to processor 0, those of the disks to the
    last processor, [ncpu - 1]; on another machine the I/O APIC is left alone.
    The driver knows which disks are there, both channels have their first
    drive selected, and the serial line has said hello.  However long the
    disks are busy, the set-up ends. *)
Theorem interrupt_routing (d : dev) (h : hw) (ver : Z) (fuel : nat) :
  let n := Z.land (Z.shiftr ver 16) 0xFF in
  d_irqmask d = irqmask0 -> 1 <= d_ncpu d <= 256 -> d_havedisk1 d = false -> d_havedisk2 d = false ->
  (d_ismp d = true -> hw_apic h !! REG_VER = Some ver) ->
  ch_ok (hw_ide0 h) -> ch_ok (hw_ide1 h) -> (ch_busy (hw_ide0 h) < fuel)%nat -> (ch_busy (hw_ide1 h) < fuel)%nat ->
  exists d' h', run (main_devices fuel) d h = Ok (tt, d', h') /\
    pic_vector (hw_pic1 h') = T_IRQ0 /\ pic_vector (hw_pic2 h') = T_IRQ0 + 8 /\
    (forall i, 0 <= i < 16 ->
       Z.testbit (if i <? 8 then pic_mask (hw_pic1 h') else pic_mask (hw_pic2 h')) (i mod 8) = false <->
       i ∈ [IRQ_SLAVE; IRQ_KBD; IRQ_COM1; IRQ_IDE0; IRQ_IDE1] \/ (i = IRQ_TIMER /\ d_ismp d = false)) /\
    (if d_ismp d then forall i, 0 <= i <= n -> redirection h' i =
       match irq_cpu (d_ncpu d) i with
       | Some cpu => (Some (T_IRQ0 + i), Some (Z.shiftl cpu 24))
       | None => (Some (Z.lor INT_DISABLED (T_IRQ0 + i)), Some 0)
       end
     else hw_apic h' = hw_apic h) /\
    d_havedisk1 d' = negb (ch_st1 (hw_ide0 h) =? 0) /\ d_havedisk2 d' = negb (ch_st0 (hw_ide1 h) =? 0) /\
    hw_ide0 h' = settled (hw_ide0 h) /\ hw_ide1 h' = settled (hw_ide1 h) /\
    d_uart d' = true /\ hw_ser_out h' = hw_ser_out h ++ chars "xv6..." ++ [10].
Proof.
  intros n Hm Hcpu Hn1 Hn2 Hver Hok0 Hok1 Hf0 Hf1. unfold main_devices.
  destruct (run_controllers d h ver Hm Hver) as (h1 & R1 & Hc1 & (_ & _ & O1 & E1 & F1)). fold n in Hc1.
  rewrite run_split, R1. unfold consoleinit. rewrite run_bind.
  destruct (run_picenable _ _ _ _ IRQ_KBD _ _ Hc1 ltac:(done)) as (d2 & h2 & R2 & Hc2 & Hd2 & (_ & _ & O2 & E2 & F2)). rewrite run_bind, R2.
  destruct (run_ioapicenable _ _ _ _ IRQ_KBD 0 _ _ Hc2 ltac:(done) ltac:(lia)) as (h3 & R3 & Hc3 & (_ & _ & O3 & E3 & F3)). rewrite R3, run_bind.
  destruct (run_uartinit _ _ _ _ _ _ Hc3) as (d4 & h4 & R4 & Hc4 & Hd4 & O4 & E4 & F4). rewrite R4, run_bind.
  assert (d4 = with_irqmask (d_irqmask d4) (with_uart true d)) as Hd by (rewrite Hd4, Hd2; done).
  assert (d_ismp d4 = d_ismp d /\ d_uart d4 = true /\ d_ncpu d4 = d_ncpu d /\ d_havedisk1 d4 = false /\ d_havedisk2 d4 = false) as (G1 & G2 & G3 & G4 & G5) by (by rewrite Hd).
  assert (hw_ide0 h4 = hw_ide0 h /\ hw_ide1 h4 = hw_ide1 h) as [I0 I1] by (split; congruence).
  destruct (run_ideinit _ _ _ _ fuel _ _ Hc4) as (d5 & h5 & R5 & Hc5 & J1 & J2 & J3 & J4 & J5 & J6 & J7); rewrite ?I0, ?I1, ?G3; try done.
  rewrite R5. rewrite G3 in Hc5. rewrite I0, I1 in *. cbn [get pbind run].
  assert (exists d' h' irqs, run (if negb (d_ismp d5) then timerinit else Ret tt) d5 h5 = Ok (tt, d', h') /\ ctl n (hw_apic h) irqs
     [(IRQ_IDE1, d_ncpu d - 1); (IRQ_IDE0, d_ncpu d - 1); (IRQ_COM1, 0); (IRQ_KBD, 0)] d' h' /\ same_dev d5 d' /\ same_hw h5 h' /\
     irqs = (if d_ismp d then [] else [IRQ_TIMER]) ++ [IRQ_IDE1; IRQ_IDE0; IRQ_COM1; IRQ_KBD]) as (d' & h' & irqs & R6 & Hc6 & Hd6 & (_ & _ & O6 & E6 & F6) & ->).
  { rewrite J1, G1. destruct (d_ismp d); cbn [negb]; [by eexists d5, h5, _; destruct d5|].
    destruct (run_picenable _ _ _ _ IRQ_TIMER _ _ Hc5 ltac:(done)) as (d6 & h6 & R6 & Hc6 & Hd6 & Hh6). by eexists d6, h6, _. }
  exists d', h'.
  assert (d_ismp d' = d_ismp d5 /\ d_uart d' = d_uart d5 /\ d_havedisk1 d' = d_havedisk1 d5 /\ d_havedisk2 d' = d_havedisk2 d5) as (K1 & K2 & K3 & K4) by (by rewrite Hd6).
  rewrite J1, G1 in K1. destruct Hc6 as [Hmask Hpics Hapic]. rewrite K1 in Hapic. destruct (id Hpics) as [P1 P2].
  split; [exact R6|]. clear R1 R2 R3 R4 R5 R6. split; [by rewrite P1|]. split; [by rewrite P2|]. split; [|split; [|split_and!]].
  - intros i Hi. rewrite (mask_line _ _ _ i Hmask Hpics Hi). destruct (d_ismp d); rewrite ?elem_of_app, ?elem_of_cons, ?elem_of_nil; intuition congruence.
  - destruct (d_ismp d); [|done]. intros i Hi. rewrite Hapic by done. apply route_irq_cpu.
  - by rewrite K3, J4, G4.
  - by rewrite K4, J5, G5.
  - by rewrite E6, J6.
  - by rewrite F6, J7.
  - by rewrite K2, J2, G2.
  - by rewrite O6, J3, O4, O3, O2, O1.
Qed.

Definition demo_hw : hw := hw_set_ide0 (mkchannel 3 true 0x50 0) (hw_set_apic {[ REG_VER := 0x170020 ]} (hw0 [])).
Definition demo_dev : dev := mkdev 0 false irqmask0 true 0 0xFEE00000 (replicate 2000 0) false console0 2 false false.

(** Two processors, and a disk on the first channel only, busy for a while *)
Lemma interrupt_routing_witness :
  exists d' h', run (main_devices 5) demo_dev demo_hw = Ok (tt, d', h') /\
    Z.testbit (pic_mask (hw_pic2 h')) 6 = false /\ redirection h' 4 = (Some 36, Some 0) /\ redirection h' 14 = (Some 46, Some 0x1000000) /\
    redirection h' 5 = (Some 0x10025, Some 0) /\ d_havedisk1 d' = false.
Proof.
  destruct (interrupt_routing demo_dev demo_hw 0x170020 5) as (d' & h' & H1 & _ & _ & H2 & H3 & H4 & _);
    [done|cbn; lia|done|done|done|done|done|cbn; lia|cbn; lia|].
  exists d', h'. split; [exact H1|]. clear H1. split; [apply (proj2 (H2 14 ltac:(lia))); left; apply list_elem_of_In; cbn; auto|].
  split_and!; [rewrite H3 by (vm_compute; split; discriminate); reflexivity..|exact H4].
Defined.

Lemma run_uartgetc d h : d_uart d = true ->
  run uartgetc d h = match hw_ser_in h with [] => Ok (-1, d, h) | c :: r => Ok (c, d, hw_set_ser_in r h) end.
Proof. intros Hu. unfold uartgetc. cbn [get pbind run]. rewrite Hu. destruct h as [? ? [|c r] ? ? ? ? ? ? ? ? ? ?]; done. Qed.

(** The serial line gives the console the bytes it receives. *)
Lemma serial_input (l : list Z) : forall fuel d h, d_uart d = true -> hw_ser_in h = l -> Forall (fun c => 0 <= c < 256) l -> (length l < fuel)%nat ->
  run (uartintr fuel) d h = Ok (tt, with_dcons (consoleintr l (d_cons d)) d, hw_set_ser_in [] h).
Proof.
  induction l as [|c l IH]; intros fuel d h Hu Hh Hl Hf; (destruct fuel as [|fuel]; [cbn in Hf; lia|]); unfold uartintr, consoleintr_from; cbn [while_fuel];
    rewrite run_bind, run_bind, run_uartgetc, Hh by done.
  - cbn. destruct d, h. cbn in *. by subst.
  - apply Forall_cons in Hl as [Hc Hl]. rewrite (proj2 (Z.ltb_ge _ _)) by lia. cbn [pbind run modify].
    etrans; [apply (IH fuel); [done|done|done|cbn [length] in Hf; lia]|]. done.
Qed.
