(* ===== verification/Mp.v ===== *)
(** * Finding the processors: [mp.c], [mp.h]

    Physical memory is a function from addresses to bytes.  [mpinit] looks for
    the configuration table the BIOS has left and reads its entries; what it
    prints is not part of the model. *)

From stdpp Require Import base gmap strings numbers list.
From S2P Require Import Prelude Prog CString State Ports.

Abbreviation mem := (Z -> Z).

Definition bytes_at (m : mem) (a : Z) (n : nat) : list Z := (fun i => m (a + Z.of_nat i)) <$> seq 0 n.
Definition mem16 (m : mem) (a : Z) : Z := m a + 256 * m (a + 1).
Definition mem32 (m : mem) (a : Z) : Z := mem16 m a + 65536 * mem16 m (a + 2).

(** The sum is an [int], its result a [uchar]. *)
Definition sum (m : mem) (addr : Z) (len : nat) : Z := u8 (s32 (foldl Z.add 0 (bytes_at m addr len))).

Definition sizeof_mp : Z := 16.
Definition sizeof_mpconf : Z := 44.
Definition sizeof_mpproc : Z := 20.
Definition sizeof_mpioapic : Z := 8.

Definition is_mp (m : mem) (p : Z) : bool :=
  bool_decide (bytes_at m p 4 = [95; 77; 80; 95]) && (sum m p 16 =? 0).

(** [for(p = addr; p < e; p += sizeof(struct mp))], [n] times *)
Fixpoint mpsearch_loop (m : mem) (n : nat) (p : Z) : option Z :=
  match n with
  | O => None
  | S n => if is_mp m p then Some p else mpsearch_loop m n (p + sizeof_mp)
  end.
Definition mpsearch1 (m : mem) (a len : Z) : option Z := mpsearch_loop m (Z.to_nat (len / sizeof_mp)) a.

Definition mpsearch (m : mem) : option Z :=
  let p := Z.shiftl (Z.lor (Z.shiftl (m 0x40F) 8) (m 0x40E)) 4 in
  let rom := mpsearch1 m 0xF0000 0x10000 in
  if negb (p =? 0) then match mpsearch1 m p 1024 with Some mp => Some mp | None => rom end
  else
    let p := Z.lor (Z.shiftl (m 0x414) 8) (m 0x413) * 1024 in
    match mpsearch1 m (u32 (p - 1024)) 1024 with Some mp => Some mp | None => rom end.

(** Fields of [struct mp] and [struct mpconf] *)
Definition mp_physaddr (m : mem) (mp : Z) : Z := mem32 m (mp + 4).
Definition mp_imcrp (m : mem) (mp : Z) : Z := m (mp + 12).
Definition conf_length (m : mem) (conf : Z) : Z := mem16 m (conf + 4).
Definition conf_version (m : mem) (conf : Z) : Z := m (conf + 6).
Definition conf_lapicaddr (m : mem) (conf : Z) : Z := mem32 m (conf + 36).

(** The floating pointer and the configuration table *)
Definition mpconfig (m : mem) : option (Z * Z) :=
  match mpsearch m with
  | None => None
  | Some mp =>
      if mp_physaddr m mp =? 0 then None
      else
        let conf := mp_physaddr m mp in
        if negb (bool_decide (bytes_at m conf 4 = [80; 67; 77; 80])) then None
        else if negb (conf_version m conf =? 1) && negb (conf_version m conf =? 4) then None
        else if negb (sum m conf (Z.to_nat (conf_length m conf)) =? 0) then None
        else Some (mp, conf)
  end.

(** [ismp], [ncpu], [cpus[i].id] for the processors found, [bcpu] as an index,
    [lapic] and [ioapicid] *)
Record mpstate := mkmp { mp_ismp : bool; mp_ncpu : nat; mp_ids : list Z; mp_bcpu : nat; mp_lapic : Z; mp_ioapicid : Z }.

Definition NCPU : nat := 8.
Definition MPPROC : Z := 0.
Definition MPBUS : Z := 1.
Definition MPIOAPIC : Z := 2.
Definition MPIOINTR : Z := 3.
Definition MPLINTR : Z := 4.
Definition MPBOOT : Z := 2.

(** The entries from [p] to [e] *)
Fixpoint mpinit_loop (fuel : nat) (m : mem) (p e : Z) (s : mpstate) : outcome mpstate :=
  match fuel with
  | O => Fail OutOfFuel
  | S fuel =>
      if e <=? p then Ok s
      else if m p =? MPPROC then
        let apicid := m (p + 1) in
        let flags := m (p + 3) in
        let ismp := if negb (Z.of_nat (mp_ncpu s) =? apicid) then false else mp_ismp s in
        let bcpu := if negb (Z.land flags MPBOOT =? 0) then mp_ncpu s else mp_bcpu s in
        if (NCPU <=? mp_ncpu s)%nat then oob
        else
          mpinit_loop fuel m (p + sizeof_mpproc) e
            (mkmp ismp (S (mp_ncpu s)) (mp_ids s ++ [Z.of_nat (mp_ncpu s)]) bcpu (mp_lapic s) (mp_ioapicid s))
      else if m p =? MPIOAPIC then
        mpinit_loop fuel m (p + sizeof_mpioapic) e (mkmp (mp_ismp s) (mp_ncpu s) (mp_ids s) (mp_bcpu s) (mp_lapic s) (m (p + 1)))
      else if (m p =? MPBUS) || (m p =? MPIOINTR) || (m p =? MPLINTR) then mpinit_loop fuel m (p + 8) e s
      else
        (* unknown config type: p stays *)
        mpinit_loop fuel m p e (mkmp false (mp_ncpu s) (mp_ids s) (mp_bcpu s) (mp_lapic s) (mp_ioapicid s))
  end.

(** Whether the IMCR is to be programmed, and the variables set *)
Definition mpinit (fuel : nat) (m : mem) (s : mpstate) : outcome (mpstate * bool) :=
  let s := mkmp (mp_ismp s) (mp_ncpu s) (mp_ids s) 0 (mp_lapic s) (mp_ioapicid s) in
  match mpconfig m with
  | None => Ok (s, false)
  | Some (mp, conf) =>
      let? s := mpinit_loop fuel m (conf + sizeof_mpconf) (conf + conf_length m conf)
                  (mkmp true (mp_ncpu s) (mp_ids s) (mp_bcpu s) (conf_lapicaddr m conf) (mp_ioapicid s)) in
      if negb (mp_ismp s) then
        (* Didn't like what we found; fall back to no MP. *)
        Ok (mkmp false 1 (mp_ids s) (mp_bcpu s) 0 0, false)
      else Ok (s, negb (mp_imcrp m mp =? 0))
  end.

(** [outb(0x22, 0x70); outb(0x23, inb(0x23) | 1);] *)
Definition mp_imcr : dprog unit :=
  outb 0x22 0x70;;;
  v <- inb 0x23;;
  outb 0x23 (Z.lor v 1).

Definition mp_start : mpstate := mkmp false 0 [] 0 0 0.

(** ** Searching *)

(** Where the floating pointer may be, in the order of the search: the first
    kilobyte of the extended BIOS data area or, if there is none, the last one
    of base memory; then the ROM from 0xF0000 on.  The BIOS data area has the
    segment of the former at 0x40E and the kilobytes of the latter at 0x413. *)
Definition every16 (a : Z) (n : nat) : list Z := (fun i => a + 16 * Z.of_nat i) <$> seq 0 n.
Definition ebda (m : mem) : Z := 16 * mem16 m 0x40E.
Definition places (m : mem) : list Z :=
  (if decide (ebda m = 0) then every16 (u32 (1024 * mem16 m 0x413 - 1024)) 64 else every16 (ebda m) 64) ++ every16 0xF0000 4096.

(** Its bytes start with [_MP_] and sum up to 0 modulo 256. *)
Definition total (l : list Z) : Z := foldr Z.add 0 l.
Definition floating (m : mem) (p : Z) : Prop := bytes_at m p 4 = [95; 77; 80; 95] /\ (256 | total (bytes_at m p 16)).

(** [p] is the first place with a floating pointer. *)
Definition first_place (m : mem) (p : Z) : Prop :=
  exists before after, places m = before ++ p :: after /\ floating m p /\ Forall (fun q => ~ floating m q) before.


Lemma foldl_total l x : foldl Z.add x l = x + total l.
Proof. revert x. induction l as [|y l IH]; intros x; cbn; [lia|]. rewrite IH. unfold total. lia. Qed.

Lemma sum_zero m a n : sum m a n =? 0 = true <-> (256 | total (bytes_at m a n)).
Proof.
  unfold sum. rewrite foldl_total, Z.eqb_eq, <- Z.mod_divide by lia. unfold u8, s32.
  change (2 ^ 8) with 256. change (2 ^ 32) with 4294967296. change (2 ^ 31) with 2147483648. lia.
Qed.

Lemma is_mp_floating m p : is_mp m p = true <-> floating m p.
Proof. unfold is_mp, floating. by rewrite andb_true_iff, bool_decide_eq_true, sum_zero. Qed.

(** The search looks at each of its places in turn. *)
Lemma mpsearch_loop_find m n : forall p, mpsearch_loop m n p = List.find (is_mp m) (every16 p n).
Proof.
  induction n as [|n IH]; intros p; [done|]. cbn [mpsearch_loop]. rewrite IH. unfold every16, sizeof_mp. cbn [seq fmap list_fmap List.find].
  rewrite Z.mul_0_r, Z.add_0_r. destruct (is_mp m p); [done|]. f_equal. rewrite <- seq_shift. change @map with (@fmap list _). 
  rewrite <- list_fmap_compose. apply list_fmap_ext. intros i x _. cbn. lia.
Qed.

Lemma find_app {A} (f : A -> bool) l l' : List.find f (l ++ l') = match List.find f l with Some x => Some x | None => List.find f l' end.
Proof. induction l as [|x l IH]; [done|]. cbn. by destruct (f x). Qed.

Definition is_mem (m : mem) : Prop := forall a, 0 <= m a < 256.

Lemma lor_bytes m a b : is_mem m -> Z.lor (Z.shiftl (m a) 8) (m b) = m b + 256 * m a.
Proof.
  intros Hm. pose proof (Hm a). pose proof (Hm b).
  assert (Z.land (Z.shiftl (m a) 8) (m b) = 0) as Hz.
  { apply Z.bits_inj'. intros i Hi. rewrite Z.land_spec, Z.bits_0. destruct (decide (i < 8)); [by rewrite Z.shiftl_spec_low|].
    rewrite <- (Z.mod_small (m b) (2 ^ 8)) by (change (2 ^ 8) with 256; lia). rewrite Z.mod_pow2_bits_high by lia. apply andb_false_r. }
  rewrite <- Z.lxor_lor, <- Z.add_nocarry_lxor by done. rewrite Z.shiftl_mul_pow2 by lia. lia.
Qed.

Lemma mpsearch_find m : is_mem m -> mpsearch m = List.find (is_mp m) (places m).
Proof.
  intros Hm. unfold mpsearch, places, mpsearch1, ebda, mem16. rewrite !lor_bytes, !mpsearch_loop_find by done. rewrite !Z.shiftl_mul_pow2 by lia.
  change (2 ^ 4) with 16. rewrite (Z.mul_comm _ 16), (Z.mul_comm _ 1024), find_app. change (0x40E + 1) with 0x40F. change (0x413 + 1) with 0x414.
  change (Z.to_nat (1024 / sizeof_mp)) with 64%nat. change (Z.to_nat (0x10000 / sizeof_mp)) with (Z.to_nat 4096).
  destruct (decide (16 * (m 0x40E + 256 * m 0x40F) = 0)) as [->|Hne]; [done|]. by rewrite (proj2 (Z.eqb_neq _ _) Hne).
Qed.

Lemma find_first {A} (f : A -> bool) l x : List.find f l = Some x <-> exists l1 l2, l = l1 ++ x :: l2 /\ f x = true /\ Forall (fun y => f y = false) l1.
Proof.
  split.
  - induction l as [|y l IH]; cbn; [done|]. destruct (f y) eqn:Hy.
    + intros [= ->]. by exists [], l.
    + intros (l1 & l2 & -> & Hx & Hl)%IH. exists (y :: l1), l2. split_and!; [done..|by constructor].
  - intros (l1 & l2 & -> & Hx & Hl). induction Hl as [|y l1 Hy _ IH]; cbn; [by rewrite Hx|by rewrite Hy].
Qed.

Lemma mpsearch_first m p : is_mem m -> mpsearch m = Some p <-> first_place m p.
Proof.
  intros Hm. rewrite mpsearch_find, find_first by done. unfold first_place. setoid_rewrite is_mp_floating.
  split; intros (l1 & l2 & -> & Hx & Hl); exists l1, l2; split_and!; try done; (eapply Forall_impl; [exact Hl|]); intros q Hq; cbn in *.
  - rewrite <- is_mp_floating. by rewrite Hq.
  - rewrite <- is_mp_floating in Hq. by apply not_true_is_false.
Qed.

Lemma mpsearch_none m : is_mem m -> Forall (fun q => ~ floating m q) (places m) -> mpsearch m = None.
Proof.
  intros Hm Hl. destruct (mpsearch m) as [p|] eqn:Hp; [|done]. apply mpsearch_first in Hp as (l1 & l2 & E & Hf & _); [|done].
  rewrite E in Hl. apply Forall_app in Hl as [_ Hl]. by apply Forall_cons in Hl as [Hn _].
Qed.

(** ** Reading the table *)

(** Entries as the MultiProcessor Specification lays them out. *)
Inductive mpentry :=
| Processor (apicid version flags : Z) (rest : list Z)
| IoApic (apicno : Z) (rest : list Z)
| Line (type : Z) (rest : list Z).

Definition entry_bytes (e : mpentry) : list Z :=
  match e with
  | Processor apicid version flags rest => [0; apicid; version; flags] ++ rest
  | IoApic apicno rest => [2; apicno] ++ rest
  | Line type rest => type :: rest
  end.

Definition entry_ok (e : mpentry) : Prop :=
  match e with
  | Processor _ _ _ rest => length rest = 16%nat
  | IoApic _ rest => length rest = 6%nat
  | Line type rest => (type = 1 \/ type = 3 \/ type = 4) /\ length rest = 7%nat
  end.

(** The APIC id and the flags of each processor, and the ids of the I/O APICs *)
Definition procs (l : list mpentry) : list (Z * Z) :=
  omap (fun e => match e with Processor apicid _ flags _ => Some (apicid, flags) | _ => None end) l.
Definition ioapics (l : list mpentry) : list Z :=
  omap (fun e => match e with IoApic apicno _ => Some apicno | _ => None end) l.

(** The numbers of the processors flagged as the boot processor *)
Definition boots (ps : list (Z * Z)) : list nat :=
  omap (fun x => x) (imap (fun i p => if Z.testbit (snd p) 1 then Some i else None) ps).

(** The processors have the APIC ids 0, 1, 2, ... *)
Definition numbered (l : list mpentry) : Prop := (procs l).*1 = Z.of_nat <$> seq 0 (length (procs l)).

(** What the entries say. *)
Definition told (lapic : Z) (l : list mpentry) : mpstate :=
  mkmp (bool_decide (numbered l)) (length (procs l)) (Z.of_nat <$> seq 0 (length (procs l)))
    (default 0%nat (last (boots (procs l)))) lapic (default 0 (last (ioapics l))).

(** What one entry does to the variables. *)
Definition entry_does (s : mpstate) (e : mpentry) : mpstate :=
  match e with
  | Processor apicid _ flags _ =>
      mkmp (if Z.of_nat (mp_ncpu s) =? apicid then mp_ismp s else false) (S (mp_ncpu s)) (mp_ids s ++ [Z.of_nat (mp_ncpu s)])
        (if Z.testbit flags 1 then mp_ncpu s else mp_bcpu s) (mp_lapic s) (mp_ioapicid s)
  | IoApic apicno _ => mkmp (mp_ismp s) (mp_ncpu s) (mp_ids s) (mp_bcpu s) (mp_lapic s) apicno
  | Line _ _ => s
  end.

Definition holds (m : mem) (a : Z) (bs : list Z) : Prop := forall i b, bs !! i = Some b -> m (a + Z.of_nat i) = b.

Lemma holds_app m a bs bs' : holds m a (bs ++ bs') -> holds m a bs /\ holds m (a + Z.of_nat (length bs)) bs'.
Proof.
  intros H. split.
  - intros i b Hi. apply H. by rewrite lookup_app_l by (by eapply lookup_lt_Some).
  - intros i b Hi. rewrite <- Z.add_assoc, <- Nat2Z.inj_add. apply H. rewrite lookup_app_r by lia. rewrite <- Hi. f_equal. lia.
Qed.

(** [proc->flags & MPBOOT] *)
Lemma boot_flag flags : (Z.land flags MPBOOT =? 0) = negb (Z.testbit flags 1).
Proof.
  change MPBOOT with (2 ^ 1). destruct (Z.testbit flags 1) eqn:Hbit; cbn [negb].
  - apply Z.eqb_neq. intros H0. apply (f_equal (fun x => Z.testbit x 1)) in H0. rewrite Z.land_spec, Hbit in H0. done.
  - apply Z.eqb_eq, Z.bits_inj'. intros i Hi. rewrite Z.land_spec, Z.bits_0, Z.pow2_bits_eqb by lia. destruct (Z.eqb_spec 1 i) as [<-|]; [by rewrite Hbit|apply andb_false_r].
Qed.

Lemma mpinit_loop_reads l : forall fuel m p s,
  holds m p (mjoin (entry_bytes <$> l)) -> Forall entry_ok l -> (mp_ncpu s + length (procs l) <= NCPU)%nat -> (length l < fuel)%nat ->
  mpinit_loop fuel m p (p + Z.of_nat (length (mjoin (entry_bytes <$> l)))) s = Ok (foldl entry_does s l).
Proof.
  induction l as [|e l IH]; intros fuel m p s Hm Hok Hn Hf; (destruct fuel as [|fuel]; [cbn in Hf; lia|]); cbn [mpinit_loop foldl].
  - cbn. by rewrite (proj2 (Z.leb_le _ _)) by lia.
  - apply Forall_cons in Hok as [He Hok]. change (mjoin (entry_bytes <$> e :: l)) with (entry_bytes e ++ mjoin (entry_bytes <$> l)) in *.
    apply holds_app in Hm as [Hme Hml]. cbn [length] in Hf. rewrite length_app, Nat2Z.inj_add.
    assert (0 < length (entry_bytes e))%nat as Hpos by (destruct e; cbn; lia).
    rewrite (proj2 (Z.leb_gt _ _)) by lia.
    assert (forall i b, entry_bytes e !! i = Some b -> m (p + Z.of_nat i) = b) as Hb by exact Hme.
    rewrite Z.add_assoc. destruct e as [apicid version flags rest|apicno rest|type rest]; cbn [entry_ok entry_bytes] in *.
    + assert (m p = MPPROC) as -> by (rewrite <- (Z.add_0_r p); by apply (Hb 0%nat)). rewrite Z.eqb_refl.
      rewrite (Hb 1%nat apicid eq_refl : m (p + 1) = apicid), (Hb 3%nat flags eq_refl : m (p + 3) = flags), boot_flag, !negb_involutive.
      cbn [procs omap list_omap length] in Hn. fold (procs l) in Hn. rewrite (proj2 (Nat.leb_gt _ _)) by lia.
      assert (Z.of_nat (length ([0; apicid; version; flags] ++ rest)) = sizeof_mpproc) as Hlen by (cbn; rewrite He; done).
      rewrite Hlen in *. rewrite IH; [|done|done|cbn [mp_ncpu]; lia|lia]. unfold entry_does at 3. by destruct (Z.of_nat (mp_ncpu s) =? apicid).
    + assert (m p = MPIOAPIC) as -> by (rewrite <- (Z.add_0_r p); by apply (Hb 0%nat)). change (MPIOAPIC =? MPPROC) with false. rewrite Z.eqb_refl. cbv iota.
      rewrite (Hb 1%nat apicno eq_refl : m (p + 1) = apicno).
      assert (Z.of_nat (length ([2; apicno] ++ rest)) = sizeof_mpioapic) as Hlen by (cbn; rewrite He; done). rewrite Hlen in *.
      rewrite IH; [done|done|done|done|lia].
    + destruct He as [Ht He]. assert (m p = type) as -> by (rewrite <- (Z.add_0_r p); by apply (Hb 0%nat)).
      assert (type =? MPPROC = false /\ type =? MPIOAPIC = false /\ (type =? MPBUS) || (type =? MPIOINTR) || (type =? MPLINTR) = true) as (-> & -> & ->).
      { destruct Ht as [-> | [-> | ->]]; done. }
      assert (Z.of_nat (length (type :: rest)) = 8) as Hlen by (cbn; rewrite He; done). rewrite Hlen in *.
      rewrite IH; [done|done|done|done|lia].
Qed.

Lemma procs_snoc l e : procs (l ++ [e]) = procs l ++ match e with Processor a _ f _ => [(a, f)] | _ => [] end.
Proof. unfold procs. rewrite omap_app. by destruct e. Qed.

Lemma boots_snoc ps p : boots (ps ++ [p]) = boots ps ++ if Z.testbit (snd p) 1 then [length ps] else [].
Proof. unfold boots. rewrite imap_app, omap_app. f_equal. cbn -[Z.testbit]. rewrite Nat.add_0_r. by destruct (Z.testbit p.2 1). Qed.

Lemma numbered_snoc l a v f r : numbered (l ++ [Processor a v f r]) <-> a = Z.of_nat (length (procs l)) /\ numbered l.
Proof.
  unfold numbered. rewrite procs_snoc, length_app, fmap_app. cbn [length fmap list_fmap]. rewrite Nat.add_1_r, seq_S, fmap_app. cbn.
  split; [intros H; apply app_inj_tail in H as [-> ->]; done|by intros [-> ->]].
Qed.

Lemma told_snoc lapic l e : told lapic (l ++ [e]) = entry_does (told lapic l) e.
Proof.
  unfold told. destruct e as [a v f r|a r|t r]; cbn [entry_does mp_ncpu mp_ismp mp_ids mp_bcpu mp_lapic mp_ioapicid].
  - assert (ioapics (l ++ [Processor a v f r]) = ioapics l) as -> by (unfold ioapics; by rewrite omap_app, app_nil_r).
    assert (bool_decide (numbered (l ++ [Processor a v f r])) = if Z.of_nat (length (procs l)) =? a then bool_decide (numbered l) else false) as ->.
    { destruct (Z.eqb_spec (Z.of_nat (length (procs l))) a) as [<-|Hne].
      - apply bool_decide_ext. rewrite numbered_snoc. naive_solver.
      - apply bool_decide_eq_false. rewrite numbered_snoc. naive_solver. }
    rewrite procs_snoc, boots_snoc, length_app. cbn [length snd]. rewrite Nat.add_1_r, seq_S, fmap_app.
    f_equal. destruct (Z.testbit f 1); [by rewrite last_snoc|by rewrite app_nil_r].
  - assert (ioapics (l ++ [IoApic a r]) = ioapics l ++ [a]) as -> by (unfold ioapics; by rewrite omap_app).
    unfold numbered. rewrite procs_snoc, app_nil_r, last_snoc. done.
  - assert (ioapics (l ++ [Line t r]) = ioapics l) as -> by (unfold ioapics; by rewrite omap_app, app_nil_r).
    unfold numbered. by rewrite procs_snoc, app_nil_r.
Qed.

Lemma entries_told lapic l : foldl entry_does (mkmp true 0 [] 0 lapic 0) l = told lapic l.
Proof. induction l as [|e l IH] using rev_ind; [done|]. by rewrite foldl_snoc, IH, told_snoc. Qed.

(** The floating pointer and the table in memory, as in the MultiProcessor
    Specification.  Of the last 8 bytes of the former the fifth is [imcrp]. *)
Definition float_bytes (conf : Z) (rest : list Z) : list Z := [95; 77; 80; 95] ++ le_enc 4 conf ++ rest.

Record mptable := mktable {
  t_version : Z; t_checksum : Z; t_product : list Z; t_oem : list Z; t_lapic : Z; t_ext : list Z; t_entries : list mpentry
}.
Definition body (t : mptable) : list Z := mjoin (entry_bytes <$> t_entries t).
Definition table_bytes (t : mptable) : list Z :=
  [80; 67; 77; 80] ++ le_enc 2 (44 + Z.of_nat (length (body t))) ++ [t_version t; t_checksum t] ++ t_product t ++ t_oem t ++
  le_enc 4 (t_lapic t) ++ t_ext t ++ body t.

Record table_ok (t : mptable) : Prop := {
  to_version : t_version t = 1 \/ t_version t = 4;
  to_product : length (t_product t) = 20%nat;
  to_oem : length (t_oem t) = 8%nat;
  to_lapic : 0 <= t_lapic t < 2 ^ 32;
  to_ext : length (t_ext t) = 4%nat;
  to_size : 44 + Z.of_nat (length (body t)) < 2 ^ 16;
  to_entries : Forall entry_ok (t_entries t);
  to_procs : (length (procs (t_entries t)) <= NCPU)%nat;
  to_sum : (256 | total (table_bytes t));
}.

(** A table at [conf] that [mpconfig] takes: not at 0, with its signature, a
    version it knows, and a sum of 0. *)
Definition accepted (m : mem) (conf : Z) : Prop :=
  conf <> 0 /\ bytes_at m conf 4 = [80; 67; 77; 80] /\ (m (conf + 6) = 1 \/ m (conf + 6) = 4) /\
  (256 | total (bytes_at m conf (Z.to_nat (mem16 m (conf + 4))))).

Lemma mpconfig_accepted m p : mpsearch m = Some p ->
  (accepted m (mp_physaddr m p) -> mpconfig m = Some (p, mp_physaddr m p)) /\
  (~ accepted m (mp_physaddr m p) -> mpconfig m = None).
Proof.
  intros Hp. unfold mpconfig, accepted. rewrite Hp. set (conf := mp_physaddr m p).
  destruct (Z.eqb_spec conf 0) as [E|E]; [naive_solver|]. destruct (decide (bytes_at m conf 4 = [80; 67; 77; 80])) as [Hs|Hs].
  2: { rewrite (bool_decide_false _ Hs). naive_solver. }
  rewrite (bool_decide_true _ Hs). cbn [negb]. unfold conf_version, conf_length.
  destruct (Z.eqb_spec (m (conf + 6)) 1) as [H1|H1], (Z.eqb_spec (m (conf + 6)) 4) as [H4|H4]; cbn [negb andb]; try naive_solver;
    (destruct (sum m conf _ =? 0) eqn:Hz; [apply sum_zero in Hz|assert (~ (256 | total (bytes_at m conf (Z.to_nat (mem16 m (conf + 4))))))
       by (rewrite <- sum_zero, Hz; done)]; cbn [negb]; naive_solver).
Qed.

Lemma bytes_at_holds m a l : holds m a l -> bytes_at m a (length l) = l.
Proof.
  intros Hl. apply list_eq. intros i. unfold bytes_at. rewrite list_lookup_fmap. destruct (l !! i) as [b|] eqn:Hi.
  - rewrite lookup_seq_lt by (by eapply lookup_lt_Some). cbn. by rewrite (Hl i b Hi).
  - apply lookup_ge_None in Hi. by rewrite lookup_seq_ge.
Qed.

Lemma holds_le2 m a v : 0 <= v < 2 ^ 16 -> holds m a (le_enc 2 v) -> mem16 m a = v.
Proof. intros Hv Hl. unfold mem16. rewrite <- (Z.add_0_r a) at 1. rewrite (Hl 0%nat _ eq_refl : m (a + 0) = _), (Hl 1%nat _ eq_refl : m (a + 1) = _). change (2 ^ 16) with 65536 in Hv. lia. Qed.

Lemma holds_le4 m a v : 0 <= v < 2 ^ 32 -> holds m a (le_enc 4 v) -> mem32 m a = v.
Proof.
  intros Hv Hl. unfold mem32, mem16. replace (a + 2 + 1) with (a + 3) by lia. rewrite <- (Z.add_0_r a) at 1.
  rewrite (Hl 0%nat _ eq_refl : m (a + 0) = _), (Hl 1%nat _ eq_refl : m (a + 1) = _), (Hl 2%nat _ eq_refl : m (a + 2) = _), (Hl 3%nat _ eq_refl : m (a + 3) = _).
  change (2 ^ 32) with 4294967296 in Hv. lia.
Qed.

Lemma length_table t : table_ok t -> Z.of_nat (length (table_bytes t)) = 44 + Z.of_nat (length (body t)).
Proof. intros Ht. unfold table_bytes. rewrite !length_app, !length_le_enc, (to_product _ Ht), (to_oem _ Ht), (to_ext _ Ht). cbn [length]. lia. Qed.

(** The fields of a table in memory *)
Lemma table_fields m conf t : table_ok t -> holds m conf (table_bytes t) ->
  bytes_at m conf 4 = [80; 67; 77; 80] /\ mem16 m (conf + 4) = 44 + Z.of_nat (length (body t)) /\ m (conf + 6) = t_version t /\
  conf_lapicaddr m conf = t_lapic t /\ holds m (conf + sizeof_mpconf) (body t).
Proof.
  intros Ht Hm. unfold table_bytes in Hm. apply holds_app in Hm as [Hsig Hm]. apply holds_app in Hm as [Hlen Hm]. apply holds_app in Hm as [Hver Hm].
  do 2 apply holds_app in Hm as [_ Hm]. apply holds_app in Hm as [Hlap Hm]. apply holds_app in Hm as [_ Hbody].
  rewrite !length_le_enc, (to_product _ Ht), (to_oem _ Ht), (to_ext _ Ht) in *. cbn [length] in *. rewrite <- !Z.add_assoc in *. cbn in Hver, Hlap, Hbody.
  pose proof (to_size _ Ht). split_and!.
  - exact (bytes_at_holds m conf [80; 67; 77; 80] Hsig).
  - by apply holds_le2; [lia|].
  - rewrite <- (Hver 0%nat _ eq_refl). f_equal. lia.
  - apply holds_le4; [apply Ht|exact Hlap].
  - exact Hbody.
Qed.


(** ** Example *)

Definition demo_table (sum : Z) : mptable :=
  mktable 4 sum (replicate 20 0) (replicate 8 0) 0xFEE00000 (replicate 4 0)
    [Processor 0 20 3 (replicate 16 0); Processor 1 20 1 (replicate 16 0); Line 1 (replicate 7 0); IoApic 2 (replicate 6 0); Line 3 (replicate 7 0)].
Definition demo_mp : mptable := demo_table ((- total (table_bytes (demo_table 0))) mod 256).

(** The data area is at 0x9F000, the floating pointer in its third paragraph,
    the table at 0xF1000. *)
Definition demo_rest : list Z := [1; 4; 129; 0; 0; 0; 0; 0].
Definition demo_bytes : list Z := Eval cbv in table_bytes demo_mp.
Definition piece (a p : Z) (l : list Z) : option Z :=
  if (p <=? a) && (a <? p + Z.of_nat (length l)) then Some (nth (Z.to_nat (a - p)) l 0) else None.
Definition demo_mem (a : Z) : Z :=
  match piece a 0x40E [0x00; 0x9F], piece a 0x9F020 (float_bytes 0xF1000 demo_rest), piece a 0xF1000 demo_bytes with
  | Some v, _, _ | _, Some v, _ | _, _, Some v => v
  | None, None, None => 0
  end.

Lemma piece_byte a p l v : forallb (fun b => (0 <=? b) && (b <? 256)) l = true -> piece a p l = Some v -> 0 <= v < 256.
Proof.
  intros Hl. unfold piece. destruct (_ && _); [|done]. intros [= <-]. rewrite forallb_forall in Hl.
  destruct (nth_in_or_default (Z.to_nat (a - p)) l 0) as [Hin| ->]; [|lia]. specialize (Hl _ Hin). lia.
Qed.

Lemma forallb_holds m a l : forallb (fun i => bool_decide (m (a + Z.of_nat i) = nth i l 0)) (seq 0 (length l)) = true -> holds m a l.
Proof.
  intros Hall i b Hi. rewrite forallb_forall in Hall. pose proof (lookup_lt_Some _ _ _ Hi).
  specialize (Hall i (proj2 (in_seq (length l) 0 i) ltac:(lia))). apply bool_decide_eq_true in Hall. rewrite Hall. by apply nth_lookup_Some.
Qed.

Lemma demo_is_mem : is_mem demo_mem.
Proof.
  intros a. unfold demo_mem. destruct (piece a 0x40E _) as [v|] eqn:H1; [eapply piece_byte; [|exact H1]; by vm_compute|].
  destruct (piece a 0x9F020 _) as [v|] eqn:H2; [eapply piece_byte; [|exact H2]; by vm_compute|].
  destruct (piece a 0xF1000 _) as [v|] eqn:H3; [eapply piece_byte; [|exact H3]; by vm_compute|lia].
Qed.

Lemma demo_first : first_place demo_mem 0x9F020.
Proof.
  exists [0x9F000; 0x9F010], (drop 3 (places demo_mem)). split_and!.
  - assert (ebda demo_mem = 0x9F000) as He by (by vm_compute). unfold places. rewrite decide_False by (by rewrite He). by rewrite He.
  - apply is_mp_floating. by vm_compute.
  - repeat (apply Forall_cons_2; [rewrite <- is_mp_floating; by vm_compute|]). apply Forall_nil_2.
Qed.

Lemma demo_table_ok : table_ok demo_mp.
Proof.
  split; [by right|done|done|cbn; lia|done|vm_compute; reflexivity| |cbn; unfold NCPU; lia|].
  - repeat (apply Forall_cons_2; [vm_compute; auto|]). apply Forall_nil_2.
  - exists (total (table_bytes demo_mp) / 256). by vm_compute.
Qed.


(** The comment on [mpsearch] has the ROM start at 0xE0000; a floating pointer
    there is not found. *)
Lemma rom_below_f0000 : mpsearch (fun a => if (0xE0000 <=? a) && (a <? 0xE0010) then nth (Z.to_nat (a - 0xE0000)) (float_bytes 0xF1000 demo_rest) 0 else 0) = None.
Proof. by vm_compute. Qed.

(** An entry of a type it does not know is never passed: [mpinit] does not
    come back. *)
Lemma mpinit_unknown fuel m p e s : p < e -> ~ 0 <= m p <= 4 -> mpinit_loop fuel m p e s = Fail OutOfFuel.
Proof.
  intros Hp Ht. revert s. induction fuel as [|fuel IH]; intros s; [done|]. cbn [mpinit_loop]. rewrite (proj2 (Z.leb_gt _ _)) by lia.
  assert (m p =? MPPROC = false /\ m p =? MPIOAPIC = false /\ (m p =? MPBUS) || (m p =? MPIOINTR) || (m p =? MPLINTR) = false) as (-> & -> & ->);
    [|apply IH]. unfold MPPROC, MPIOAPIC, MPBUS, MPIOINTR, MPLINTR. rewrite !orb_false_iff, !Z.eqb_neq. lia.
Qed.
