(* ===== verification/Boot.v ===== *)
(** * The boot loader: [bootmain.c]

    The loader runs before there is a kernel: its state is physical memory and
    what it can do is the disk controller's ports.  Pointers and sizes are 32
    bits wide. *)

From stdpp Require Import base gmap strings numbers list.
From S2P Require Import Prelude Prog Mp.

Inductive bootE : Type -> Type :=
| BIn (port : Z) : bootE Z
| BOut (port data : Z) : bootE unit
| BInsl (port : Z) (words : nat) : bootE (list Z).

Abbreviation bprog R := (prog bootE mem R).

Definition b_in (port : Z) : bprog Z := Vis (BIn port) Ret.
Definition b_out (port data : Z) : bprog unit := Vis (BOut port (u8 data)) Ret.

(** Bytes put at [a] on, in an address space of 32 bits. *)
Definition write_bytes (a : Z) (bs : list Z) (m : mem) : mem :=
  fun x => if u32 (x - a) <? Z.of_nat (length bs) then nth (Z.to_nat (u32 (x - a))) bs 0 else m x.

Definition insl (port addr : Z) (words : nat) : bprog unit :=
  bs <- Vis (BInsl port words) Ret;; modify (write_bytes addr bs).
Definition stosb (addr data cnt : Z) : bprog unit := modify (write_bytes addr (replicate (Z.to_nat cnt) data)).

Definition SECTSIZE : Z := 512.
Definition ELF_MAGIC : Z := 0x464C457F.

(** Wait for disk ready. *)
Definition waitdisk (fuel : nat) : bprog unit :=
  while_fuel fuel (fun _ : unit =>
    st <- b_in 0x1F7;;
    Ret (if negb (Z.land st 0xC0 =? 0x40) then inl tt else inr tt)) tt.

Definition readsect (fuel : nat) (dst offset : Z) : bprog unit :=
  (* Issue command. *)
  waitdisk fuel;;;
  b_out 0x1F2 1;;;
  b_out 0x1F3 offset;;;
  b_out 0x1F4 (Z.shiftr offset 8);;;
  b_out 0x1F5 (Z.shiftr offset 16);;;
  b_out 0x1F6 (Z.lor (Z.shiftr offset 24) 0xE0);;;
  b_out 0x1F7 0x20;;;
  (* Read data. *)
  waitdisk fuel;;;
  insl 0x1F0 dst 128.

(** [for(; pa < epa; pa += SECTSIZE, offset++)] *)
Definition readseg_loop (fuel n : nat) (epa pa offset : Z) : bprog unit :=
  while_fuel n (fun '(pa, offset) =>
    if pa <? epa then readsect fuel pa offset;;; Ret (inl (u32 (pa + SECTSIZE), u32 (offset + 1)))
    else Ret (inr tt)) (pa, offset).

(** The loop takes at most a sector more than [count] needs, and one for where
    it starts. *)
Definition readseg (fuel : nat) (pa count offset : Z) : bprog unit :=
  let epa := u32 (pa + count) in
  let pa := u32 (pa - offset mod SECTSIZE) in
  let offset := u32 (offset / SECTSIZE + 1) in
  readseg_loop fuel (Z.to_nat (count / SECTSIZE) + 3) epa pa offset.

(** Program headers: [ph->off], [paddr], [filesz] and [memsz] at an address *)
Record seg := mkseg { sg_off : Z; sg_paddr : Z; sg_filesz : Z; sg_memsz : Z }.
Definition seg_at (m : mem) (a : Z) : seg := mkseg (mem32 m (a + 4)) (mem32 m (a + 12)) (mem32 m (a + 16)) (mem32 m (a + 20)).

(** [ph->memsz] and [ph->filesz] are read again after the sectors have come
    in, [pa] is not. *)
Definition load_seg (fuel : nat) (ph : Z) : bprog unit :=
  m <- get;;
  let pa := sg_paddr (seg_at m ph) in
  readseg fuel pa (sg_filesz (seg_at m ph)) (sg_off (seg_at m ph));;;
  m <- get;;
  let s := seg_at m ph in
  if sg_filesz s <? sg_memsz s then stosb (u32 (pa + sg_filesz s)) 0 (sg_memsz s - sg_filesz s) else Ret tt.

Definition scratch : Z := 0x10000.

(** The entry point that is called, or [None] when there is no ELF file. *)
Definition bootmain (fuel : nat) : bprog (option Z) :=
  readseg fuel scratch 4096 0;;;
  m <- get;;
  if negb (mem32 m scratch =? ELF_MAGIC) then Ret None
  else
    let ph := u32 (scratch + mem32 m (scratch + 28)) in
    let phnum := mem16 m (scratch + 44) in
    let eph := u32 (ph + 32 * phnum) in
    while_fuel (S (Z.to_nat phnum)) (fun ph =>
      if ph <? eph then
        load_seg fuel ph;;;
        Ret (inl (u32 (ph + 32)))
      else Ret (inr tt)) ph;;;
    m <- get;;
    Ret (Some (mem32 m (scratch + 24))).

(** ** The disk controller *)

(** The task file (sector number in four registers), the sector read and the
    disk. *)
Record ata := mkata { at_lba : Z * Z * Z * Z; at_buf : list Z; at_disk : Z -> list Z }.

Definition at_sector (r : Z * Z * Z * Z) : Z :=
  let '(a, b, c, d) := r in a + 256 * b + 65536 * c + 16777216 * (d mod 16).

Definition at_out (port v : Z) (h : ata) : ata :=
  let '(a, b, c, d) := at_lba h in
  if port =? 0x1F3 then mkata (v, b, c, d) (at_buf h) (at_disk h)
  else if port =? 0x1F4 then mkata (a, v, c, d) (at_buf h) (at_disk h)
  else if port =? 0x1F5 then mkata (a, b, v, d) (at_buf h) (at_disk h)
  else if port =? 0x1F6 then mkata (a, b, c, v) (at_buf h) (at_disk h)
  else if port =? 0x1F7 then if v =? 0x20 then mkata (at_lba h) (at_disk h (at_sector (at_lba h))) (at_disk h) else h
  else h.

#[global] Instance ata_store : Store bootE ata := {
  st_step X e h :=
    match e in bootE X return outcome (X * ata) with
    | BIn port => Ok (if port =? 0x1F7 then 0x40 else 0, h)
    | BOut port v => Ok (tt, at_out port v h)
    | BInsl port words => Ok (take (4 * words) (at_buf h), h)
    end;
  st_trace X e h := [];
  st_disk h := ∅;
}.

(** ** Reading *)

(** The kernel file: it starts at sector 1. *)
Definition image (disk : Z -> list Z) (y : Z) : Z := nth (Z.to_nat (y mod 512)) (disk (y / 512 + 1)) 0.

Lemma sector_bits offset : 0 <= offset < 2 ^ 28 ->
  at_sector (u8 offset, u8 (Z.shiftr offset 8), u8 (Z.shiftr offset 16), u8 (Z.lor (Z.shiftr offset 24) 0xE0)) = offset.
Proof.
  intros Ho. unfold at_sector, u8. rewrite !Z.shiftr_div_pow2 by lia.
  assert (Z.lor (offset / 2 ^ 24) 224 mod 2 ^ 8 mod 16 = offset / 2 ^ 24) as ->.
  { assert (0 <= offset / 2 ^ 24 < 16) as Hr by (split; [apply Z.div_pos; lia|apply Z.div_lt_upper_bound; lia]). generalize dependent (offset / 2 ^ 24). clear. intros q Hq.
    assert (q = 0 \/ q = 1 \/ q = 2 \/ q = 3 \/ q = 4 \/ q = 5 \/ q = 6 \/ q = 7 \/ q = 8 \/ q = 9 \/ q = 10 \/ q = 11 \/ q = 12 \/ q = 13 \/ q = 14 \/ q = 15) as Hc by lia.
    repeat destruct Hc as [-> | Hc]; try subst q; done. }
  change (2 ^ 8) with 256. change (2 ^ 16) with (256 * 256). change (2 ^ 24) with (256 * (256 * 256)). rewrite <- !Z.div_div by (clear; lia).
  set (a := offset / 256). set (b := a / 256). pose proof (Z.div_mod offset 256 ltac:(done)) as H1. pose proof (Z.div_mod a 256 ltac:(done)) as H2.
  pose proof (Z.div_mod b 256 ltac:(done)) as H3. fold a in H1. fold b in H2. generalize dependent (offset mod 256). generalize dependent (a mod 256).
  generalize dependent (b mod 256). generalize dependent (b / 256). clear. intros x y H3 z H2 t H1. lia.
Qed.

Section Reading.
Context (disk : Z -> list Z) (Hdisk : forall s, length (disk s) = 512%nat).

Lemma run_waitdisk fuel m h : (0 < fuel)%nat -> run (waitdisk fuel) m h = Ok (tt, m, h).
Proof. intros Hf. destruct fuel as [|fuel]; [lia|]. done. Qed.

Lemma at_out_read a b c d v h :
  at_out 0x1F7 0x20 (at_out 0x1F6 d (at_out 0x1F5 c (at_out 0x1F4 b (at_out 0x1F3 a (at_out 0x1F2 v h))))) =
    mkata (a, b, c, d) (at_disk h (at_sector (a, b, c, d))) (at_disk h).
Proof. by destruct h as [[[[a' b'] c'] d'] buf dk]. Qed.

Lemma run_b_out {R} port v (k : bprog R) m h : run (b_out port v;;; k) m h = run k m (at_out port (u8 v) h).
Proof. done. Qed.

Lemma run_insl port dst words m h :
  run (insl port dst words) m h = Ok (tt, write_bytes dst (take (4 * words) (at_buf h)) m, h).
Proof. done. Qed.

Lemma run_readsect fuel dst offset m h : (0 < fuel)%nat -> at_disk h = disk -> 0 <= offset < 2 ^ 28 ->
  exists h', run (readsect fuel dst offset) m h = Ok (tt, write_bytes dst (disk offset) m, h') /\ at_disk h' = disk.
Proof.
  intros Hf Hd Ho. unfold readsect. rewrite run_bind, run_waitdisk by done. rewrite !run_b_out.
  assert (u8 32 = 32) as -> by done. rewrite at_out_read, Hd, sector_bits by exact Ho. rewrite run_bind, run_waitdisk by done.
  rewrite run_insl. cbn [at_buf]. rewrite firstn_all2 by (rewrite Hdisk; lia). eexists. split; reflexivity.
Qed.

(** ** Segments *)

(** The sectors [readseg] fetches: where they go and how many they are. *)
Definition seg_lo (pa offset : Z) : Z := pa - offset mod 512.
Definition seg_count (pa count offset : Z) : Z := (count + offset mod 512 + 511) / 512.

Lemma write_bytes_at a bs m x : 0 <= a -> a + Z.of_nat (length bs) <= 2 ^ 32 -> 0 <= x < 2 ^ 32 ->
  write_bytes a bs m x = if (a <=? x) && (x <? a + Z.of_nat (length bs)) then nth (Z.to_nat (x - a)) bs 0 else m x.
Proof.
  intros Ha Hl Hx. change (2 ^ 32) with 4294967296 in *. unfold write_bytes. destruct (Z.leb_spec a x); cbn [andb].
  - rewrite u32_small by lia. destruct (Z.ltb_spec (x - a) (Z.of_nat (length bs))), (Z.ltb_spec x (a + Z.of_nat (length bs))); lia || done.
  - replace (u32 (x - a)) with (x - a + 4294967296) by (unfold u32; change (2 ^ 32) with 4294967296; lia).
    by rewrite (proj2 (Z.ltb_ge _ _)) by lia.
Qed.

Lemma image_sector k x : 0 <= x < 512 -> nth (Z.to_nat x) (disk (k + 1)) 0 = image disk (512 * k + x).
Proof.
  intros Hx. unfold image. assert ((512 * k + x) / 512 = k /\ (512 * k + x) mod 512 = x) as [-> ->]; [|done]. clear disk Hdisk. lia.
Qed.

(** [n] sectors from [k] on go to [pa] on. *)
Lemma run_readseg_loop fuel n : forall more epa pa k m h,
  (0 < fuel)%nat -> at_disk h = disk -> 0 <= pa -> 0 <= k -> k + Z.of_nat n < 2 ^ 28 -> pa + 512 * Z.of_nat n < 2 ^ 32 ->
  epa <= pa + 512 * Z.of_nat n -> pa + 512 * Z.of_nat n < epa + 512 ->
  exists m' h', run (readseg_loop fuel (n + S more) epa pa (k + 1)) m h = Ok (tt, m', h') /\ at_disk h' = disk /\
    forall x, 0 <= x < 2 ^ 32 -> m' x = if (pa <=? x) && (x <? pa + 512 * Z.of_nat n) then image disk (512 * k + (x - pa)) else m x.
Proof.
  change (2 ^ 32) with 4294967296. change (2 ^ 28) with 268435456.
  induction n as [|n IH]; intros more epa pa k m h Hf Hd Hpa Hk Hk28 Hp32 He1 He2; unfold readseg_loop; cbn [Nat.add while_fuel].
  - rewrite (proj2 (Z.ltb_ge _ _)) by lia. exists m, h. split_and!; [done|done|]. intros x Hx. destruct (Z.leb_spec pa x); cbn [andb]; [|done].
    by rewrite (proj2 (Z.ltb_ge _ _)) by lia.
  - rewrite (proj2 (Z.ltb_lt _ _)) by lia. rewrite run_bind, run_bind. destruct (run_readsect fuel pa (k + 1) m h Hf Hd) as (h1 & -> & Hd1); [change (2 ^ 28) with 268435456; lia|].
    cbn [run]. unfold SECTSIZE. rewrite (u32_small (pa + 512)), (u32_small (k + 1 + 1)) by lia.
    destruct (IH more epa (pa + 512) (k + 1) (write_bytes pa (disk (k + 1)) m) h1) as (m' & h' & Hr & Hd' & Hm'); try done; try lia.
    exists m', h'. split; [exact Hr|]. split; [done|]. intros x Hx. rewrite Hm' by done. rewrite write_bytes_at, Hdisk by (rewrite ?Hdisk; change (2 ^ 32) with 4294967296; lia).
    change (Z.of_nat 512) with 512. destruct (Z.leb_spec (pa + 512) x); cbn [andb].
    + rewrite (proj2 (Z.leb_le pa x)) by lia. cbn [andb]. destruct (Z.ltb_spec x (pa + 512 + 512 * Z.of_nat n)).
      * rewrite (proj2 (Z.ltb_lt _ _)) by lia. f_equal. lia.
      * by rewrite !(proj2 (Z.ltb_ge _ _)) by lia.
    + destruct (Z.leb_spec pa x); cbn [andb]; [|done]. rewrite !(proj2 (Z.ltb_lt x _)) by lia. apply image_sector. lia.
Qed.

Lemma run_readseg fuel pa count offset m h :
  (0 < fuel)%nat -> at_disk h = disk -> 0 <= offset -> 0 <= count -> offset + count < 2 ^ 36 -> 0 <= seg_lo pa offset -> pa + count + 512 < 2 ^ 32 ->
  exists m' h', run (readseg fuel pa count offset) m h = Ok (tt, m', h') /\ at_disk h' = disk /\
    forall x, 0 <= x < 2 ^ 32 -> m' x =
      if (seg_lo pa offset <=? x) && (x <? seg_lo pa offset + 512 * seg_count pa count offset) then image disk (offset + (x - pa)) else m x.
Proof.
  unfold seg_lo, seg_count. intros Hf Hd Ho Hc Hoc Hlo Hhi. change (2 ^ 32) with 4294967296 in *. change (2 ^ 36) with 68719476736 in *.
  unfold readseg, SECTSIZE. set (q := offset / 512). assert (offset = 512 * q + offset mod 512) as Hq by apply (Z.div_mod offset 512 ltac:(done)).
  pose proof (Z.mod_pos_bound offset 512 ltac:(done)) as Hmod. set (r := offset mod 512) in *. set (n := (count + r + 511) / 512).
  assert (count + r <= 512 * n < count + r + 512) as Hn by (unfold n; lia).
  rewrite (u32_small (pa + count)), (u32_small (pa - r)) by lia.
  assert (0 <= q) by (unfold q; apply Z.div_pos; lia).
  rewrite (u32_small (q + 1)) by lia.
  assert (exists more, Z.to_nat (count / 512) + 3 = Z.to_nat n + S more)%nat as [more ->].
  { assert (n <= count / 512 + 2) by (unfold n; lia). exists (Z.to_nat (count / 512) + 2 - Z.to_nat n)%nat. lia. }
  destruct (run_readseg_loop fuel (Z.to_nat n) more (pa + count) (pa - r) q m h) as (m' & h' & Hr & Hd' & Hm'); try done; try (change (2 ^ 28) with 268435456); try (change (2 ^ 32) with 4294967296); try lia.
  exists m', h'. split_and!; [done|done|]. intros x Hx. rewrite Hm' by done. rewrite Z2Nat.id by lia. replace (512 * q + (x - (pa - r))) with (offset + (x - pa)) by lia. done.
Qed.
End Reading.

(** ** The kernel in memory *)

Definition sg_lo (s : seg) : Z := seg_lo (sg_paddr s) (sg_off s).
(** Where the sectors fetched and the zeros end *)
Definition sg_hi (s : seg) : Z := Z.max (sg_lo s + 512 * seg_count (sg_paddr s) (sg_filesz s) (sg_off s)) (sg_paddr s + sg_memsz s).

(** A segment in physical memory, and clear of the page the headers are in. *)
Definition seg_fits (s : seg) : Prop :=
  0 <= sg_off s /\ 0 <= sg_filesz s <= sg_memsz s /\ sg_off s + sg_filesz s < 2 ^ 36 /\
  0 <= sg_lo s /\ sg_paddr s + sg_filesz s + 512 < 2 ^ 32 /\ sg_paddr s + sg_memsz s <= 2 ^ 32 /\
  (sg_hi s <= scratch \/ scratch + 4096 <= sg_lo s).

(** What is fetched for a later segment does not fall into an earlier one. *)
Fixpoint in_order (l : list seg) : Prop :=
  match l with
  | [] => True
  | s :: l => Forall (fun t => sg_hi t <= sg_paddr s \/ sg_paddr s + sg_memsz s <= sg_lo t) l /\ in_order l
  end.

Lemma nth_zeros n i : nth i (replicate n 0) 0 = 0.
Proof. revert i. induction n as [|n IH]; intros [|i]; cbn; auto. Qed.

Lemma run_get_bind {R} (k : mem -> bprog R) m (h : ata) : run (x <- get;; k x) m h = run (k m) m h.
Proof. done. Qed.

Section Loading.
Context (disk : Z -> list Z) (Hdisk : forall s, length (disk s) = 512%nat).
Context (fuel : nat) (Hfuel : (0 < fuel)%nat).
#[local] Abbreviation img := (image disk).

Definition loaded (m : mem) (s : seg) : Prop :=
  forall k, 0 <= k < sg_memsz s -> m (sg_paddr s + k) = if k <? sg_filesz s then img (sg_off s + k) else 0.
Definition header_in (m : mem) : Prop := forall x, 0 <= x < 4096 -> m (scratch + x) = img x.

Lemma mem32_header m a : header_in m -> 0 <= a -> a + 4 <= 4096 -> mem32 m (scratch + a) = mem32 img a.
Proof. clear Hfuel fuel Hdisk.
  intros Hm Ha Hl. unfold mem32, mem16. rewrite <- !Z.add_assoc. rewrite !Hm by lia. done.
Qed.

Lemma seg_at_header m a : header_in m -> 0 <= a -> a + 32 <= 4096 -> seg_at m (scratch + a) = seg_at img a.
Proof. clear Hfuel fuel Hdisk. intros Hm Ha Hl. unfold seg_at. rewrite <- !Z.add_assoc. by rewrite !mem32_header by (done || lia). Qed.

Lemma run_load_seg a m h : 0 <= a -> a + 32 <= 4096 -> header_in m -> at_disk h = disk ->
  let s := seg_at img a in seg_fits s ->
  exists m' h', run (load_seg fuel (scratch + a)) m h = Ok (tt, m', h') /\ at_disk h' = disk /\ loaded m' s /\
    forall x, 0 <= x < 2 ^ 32 -> x < sg_lo s \/ sg_hi s <= x -> m' x = m x.
Proof.
  intros Ha Hl Hm Hd s (Ho & Hfs & Hof & Hlo & Hp & Hpm & Hclear). unfold load_seg. rewrite run_get_bind, seg_at_header by done. fold s.
  cbv zeta. rewrite run_bind.
  destruct (run_readseg disk Hdisk fuel (sg_paddr s) (sg_filesz s) (sg_off s) m h) as (m1 & h1 & -> & Hd1 & Hm1); [done|done|lia|lia|done|done|done|].
  fold (sg_lo s) in Hm1. set (n := seg_count (sg_paddr s) (sg_filesz s) (sg_off s)) in Hm1. unfold sg_hi in *. fold n in Hclear. fold n.
  assert (sg_paddr s + sg_filesz s <= sg_lo s + 512 * n /\ sg_lo s <= sg_paddr s) as [Hn Hlp].
  { unfold n, seg_count, sg_lo, seg_lo in *. generalize (Z.mod_pos_bound (sg_off s) 512 ltac:(done)). generalize (sg_off s mod 512). intros r Hr. lia. }
  rewrite run_get_bind, seg_at_header; [fold s| |done|done].
  2: { intros x Hx. rewrite <- Hm by done. rewrite Hm1 by (unfold scratch; change (2 ^ 32) with 4294967296; lia).
    assert ((sg_lo s <=? scratch + x) && (scratch + x <? sg_lo s + 512 * n) = false) as -> by lia. done. }
  change (2 ^ 32) with 4294967296 in *. exists (if sg_filesz s <? sg_memsz s then write_bytes (sg_paddr s + sg_filesz s) (replicate (Z.to_nat (sg_memsz s - sg_filesz s)) 0) m1 else m1), h1.
  destruct (Z.ltb_spec (sg_filesz s) (sg_memsz s)) as [Hlt|Hge].
  - unfold stosb. cbn [run modify]. rewrite (u32_small (sg_paddr s + sg_filesz s)) by lia. split; [done|]. split; [done|].
    assert (forall x, 0 <= x < 4294967296 -> write_bytes (sg_paddr s + sg_filesz s) (replicate (Z.to_nat (sg_memsz s - sg_filesz s)) 0) m1 x =
      if (sg_paddr s + sg_filesz s <=? x) && (x <? sg_paddr s + sg_memsz s) then 0 else m1 x) as Hw.
    { intros x Hx. rewrite write_bytes_at by (rewrite ?length_replicate; change (2 ^ 32) with 4294967296; lia). rewrite length_replicate, nth_zeros.
      replace (sg_paddr s + sg_filesz s + Z.of_nat (Z.to_nat (sg_memsz s - sg_filesz s))) with (sg_paddr s + sg_memsz s) by lia. done. }
    split.
    + intros k Hk. rewrite Hw by lia. destruct (Z.ltb_spec k (sg_filesz s)).
      * rewrite (proj2 (Z.leb_gt _ _)) by lia. cbn [andb]. rewrite Hm1 by lia. rewrite (proj2 (Z.leb_le _ _)), (proj2 (Z.ltb_lt _ _)) by lia. cbn [andb]. f_equal. lia.
      * by rewrite (proj2 (Z.leb_le _ _)), (proj2 (Z.ltb_lt _ _)) by lia.
    + intros x Hx Hout. rewrite Hw by done. rewrite Hm1 by done.
      assert ((sg_paddr s + sg_filesz s <=? x) && (x <? sg_paddr s + sg_memsz s) = false) as -> by lia.
      assert ((sg_lo s <=? x) && (x <? sg_lo s + 512 * n) = false) as -> by lia. done.
  - split; [done|]. split; [done|]. split.
    + intros k Hk. rewrite (proj2 (Z.ltb_lt _ _)) by lia. rewrite Hm1 by lia. rewrite (proj2 (Z.leb_le _ _)), (proj2 (Z.ltb_lt _ _)) by lia. cbn [andb]. f_equal. lia.
    + intros x Hx Hout. rewrite Hm1 by done. assert ((sg_lo s <=? x) && (x <? sg_lo s + 512 * n) = false) as -> by lia. done.
Qed.

(** A segment loaded later leaves the headers and the segments before it. *)
Lemma keeps_header m m' s : seg_fits s -> header_in m -> (forall x, 0 <= x < 2 ^ 32 -> x < sg_lo s \/ sg_hi s <= x -> m' x = m x) -> header_in m'.
Proof.
  intros (_ & _ & _ & _ & _ & _ & Hout) Hm Hm' x Hx. rewrite <- Hm by done. unfold scratch in *. change (2 ^ 32) with 4294967296 in *. apply Hm'; lia.
Qed.

Lemma keeps_loaded m m' s t : seg_fits t -> 0 <= sg_paddr t -> sg_hi s <= sg_paddr t \/ sg_paddr t + sg_memsz t <= sg_lo s ->
  (forall x, 0 <= x < 2 ^ 32 -> x < sg_lo s \/ sg_hi s <= x -> m' x = m x) -> loaded m t -> loaded m' t.
Proof.
  intros (_ & _ & _ & _ & _ & Hpm & _) Hp Hd Hm' Hl k Hk. rewrite <- Hl by done. change (2 ^ 32) with 4294967296 in *. apply Hm'; lia.
Qed.

(** The loop over the program headers from number [i] on *)
Lemma run_segments n : forall a m h, 0 <= a -> a + 32 * Z.of_nat n <= 4096 -> at_disk h = disk -> header_in m ->
  let segs := (fun i => seg_at img (a + 32 * Z.of_nat i)) <$> seq 0 n in
  Forall seg_fits segs -> in_order segs ->
  exists m' h', run (while_fuel (S n) (fun ph =>
      if ph <? u32 (scratch + a + 32 * Z.of_nat n) then load_seg fuel ph;;; Ret (inl (u32 (ph + 32))) else Ret (inr tt)) (scratch + a)) m h = Ok (tt, m', h') /\
    at_disk h' = disk /\ header_in m' /\ Forall (loaded m') segs /\
    forall t, seg_fits t -> 0 <= sg_paddr t -> Forall (fun s => sg_hi s <= sg_paddr t \/ sg_paddr t + sg_memsz t <= sg_lo s) segs -> loaded m t -> loaded m' t.
Proof.
  induction n as [|n IH]; intros a m h Ha Hl Hd Hm segs Hfit Hord; unfold scratch in *; cbn [while_fuel].
  - rewrite (u32_small (0x10000 + a + 32 * Z.of_nat 0)) by lia. rewrite (proj2 (Z.ltb_ge _ _)) by lia. exists m, h. by split_and!.
  - rewrite (u32_small (0x10000 + a + 32 * Z.of_nat (S n))) by lia. rewrite (proj2 (Z.ltb_lt _ _)) by lia. rewrite run_bind.
    assert (segs = seg_at img a :: ((fun i => seg_at img (a + 32 + 32 * Z.of_nat i)) <$> seq 0 n)) as Hsegs.
    { unfold segs. cbn [seq fmap list_fmap]. f_equal; [f_equal; lia|]. rewrite <- seq_shift, <- list_fmap_compose. apply list_fmap_ext. intros i x _. cbn. f_equal. lia. }
    rewrite Hsegs in *. apply Forall_cons in Hfit as [Hs Hfit]. destruct Hord as [Hfirst Hord].
    fold scratch. rewrite run_bind. destruct (run_load_seg a m h ltac:(lia) ltac:(lia) Hm Hd Hs) as (m1 & h1 & -> & Hd1 & Hl1 & Hk1). cbn [run].
    assert (header_in m1) as Hh1 by (by eapply keeps_header).
    destruct (IH (a + 32) m1 h1) as (m' & h' & Hr & Hd' & Hh' & Hls & Hkeep); [lia|lia|done|done|done|done|].
    unfold scratch in *. rewrite (u32_small (0x10000 + a + 32)) by lia. rewrite (u32_small (0x10000 + (a + 32) + 32 * Z.of_nat n)) in Hr by lia.
    replace (0x10000 + (a + 32) + 32 * Z.of_nat n) with (0x10000 + a + 32 * Z.of_nat (S n)) in Hr by lia. rewrite Z.add_assoc in Hr.
    exists m', h'. split; [exact Hr|]. split; [done|]. split; [done|].
    assert (0 <= sg_paddr (seg_at img a)) as Hpa by (destruct Hs as (_ & _ & _ & Hlo & _); unfold sg_lo, seg_lo in Hlo; lia).
    split; [constructor; [|done]; by apply Hkeep|]. intros t Ht Htp Hts Hlt. apply Forall_cons in Hts as [Ht1 Hts]. apply Hkeep; [done|done|done|]. by eapply keeps_loaded.
Qed.
End Loading.

(** The program headers of a kernel file *)
Definition segments (disk : Z -> list Z) : list seg :=
  (fun i => seg_at (image disk) (mem32 (image disk) 28 + 32 * Z.of_nat i)) <$> seq 0 (Z.to_nat (mem16 (image disk) 44)).

(** C39: the boot loader loads the kernel.  From a disk with an ELF file from
    sector 1 on, whose program headers are in its first page and whose
    segments lie in memory one after the other (allowing for the whole sectors
    that are fetched), it fills every segment of memory with the file's bytes
    and then with zeros up to its size, and jumps to the file's entry point;
    with anything else than an ELF file it returns. *)
Theorem boot_loads (disk : Z -> list Z) (fuel : nat) (m : mem) (h : ata) :
  at_disk h = disk -> (forall s, length (disk s) = 512%nat) -> (0 < fuel)%nat ->
  (mem32 (image disk) 0 <> ELF_MAGIC -> exists m' h', run (bootmain fuel) m h = Ok (None, m', h')) /\
  (mem32 (image disk) 0 = ELF_MAGIC -> 0 <= mem16 (image disk) 44 -> 0 <= mem32 (image disk) 28 ->
   mem32 (image disk) 28 + 32 * mem16 (image disk) 44 <= 4096 -> Forall seg_fits (segments disk) -> in_order (segments disk) ->
   exists m' h', run (bootmain fuel) m h = Ok (Some (mem32 (image disk) 24), m', h') /\ Forall (loaded disk m') (segments disk)).
Proof.
  intros Hd Hdisk Hf. unfold bootmain. rewrite run_bind.
  destruct (run_readseg disk Hdisk fuel scratch 4096 0 m h) as (m1 & h1 & -> & Hd1 & Hm1); [done|done|lia|lia|done|done|done|].
  assert (header_in disk m1) as Hh.
  { intros x Hx. rewrite Hm1 by (unfold scratch; change (2 ^ 32) with 4294967296; lia). change (seg_lo scratch 0) with scratch. change (512 * seg_count scratch 4096 0) with 4096.
    rewrite (proj2 (Z.leb_le _ _)), (proj2 (Z.ltb_lt _ _)) by lia. cbn [andb]. f_equal. lia. }
  rewrite run_get_bind.
  assert (mem32 m1 scratch = mem32 (image disk) 0) as -> by (rewrite <- (Z.add_0_r scratch); apply mem32_header; done || lia).
  split.
  - intros Hne. rewrite (proj2 (Z.eqb_neq _ _) Hne). by eexists _, _.
  - intros -> Hn0 Hp0 Hl Hfit Hord. rewrite Z.eqb_refl. cbn [negb].
    assert (mem16 m1 (scratch + 44) = mem16 (image disk) 44) as -> by (unfold mem16; rewrite <- Z.add_assoc; by rewrite !Hh by lia).
    rewrite (mem32_header disk) by (done || lia). set (a := mem32 (image disk) 28) in *. set (n := mem16 (image disk) 44) in *.
    rewrite (u32_small (scratch + a)) by (unfold scratch; lia). rewrite run_bind.
    destruct (run_segments disk Hdisk fuel Hf (Z.to_nat n) a m1 h1) as (m2 & h2 & Hr & _ & Hh2 & Hls & _); [done|lia|done|done|done|done|].
    rewrite Z2Nat.id in Hr by lia. rewrite Hr. cbn [get pbind run]. rewrite (mem32_header disk) by (done || lia). by eexists _, _.
Qed.

(** A file with one segment of five bytes and three zeros, for 0x100000 *)
Definition le32 (v : Z) : list Z := [v mod 256; v / 256 mod 256; v / 65536 mod 256; v / 16777216 mod 256].
Definition demo_kernel : list Z :=
  le32 ELF_MAGIC ++ replicate 20 0 ++ le32 0x10000C ++ le32 52 ++ replicate 12 0 ++ [1; 0] ++ replicate 6 0 ++
  le32 1 ++ le32 100 ++ le32 0 ++ le32 0x100064 ++ le32 5 ++ le32 8 ++ le32 0 ++ le32 0 ++ replicate 16 0 ++ [11; 22; 33; 44; 55] ++ replicate 407 9.
Definition demo_disk (s : Z) : list Z := if s =? 1 then demo_kernel else replicate 512 7.

Lemma boot_loads_witness :
  exists m' h', run (bootmain 1) (fun _ => 1) (mkata (0, 0, 0, 0) [] demo_disk) = Ok (Some 0x10000C, m', h') /\
    (fun k => m' (0x100064 + k)) <$> [0; 1; 2; 3; 4; 5; 6; 7] = [11; 22; 33; 44; 55; 0; 0; 0].
Proof.
  destruct (boot_loads demo_disk 1 (fun _ => 1) (mkata (0, 0, 0, 0) [] demo_disk)) as [_ H]; [done| |lia|].
  - intros s. unfold demo_disk. destruct (s =? 1); [by vm_compute|apply length_replicate].
  - assert (segments demo_disk = [mkseg 100 0x100064 5 8]) as Hs by (vm_compute; reflexivity). rewrite Hs in H.
    destruct H as (m' & h' & Hrun & Hl); [vm_compute; reflexivity|vm_compute; discriminate|vm_compute; discriminate|vm_compute; discriminate| | |].
    + apply Forall_singleton. unfold seg_fits, sg_hi, sg_lo, seg_lo, seg_count, scratch. cbn. lia.
    + repeat constructor.
    + rewrite Forall_singleton in Hl. exists m', h'. split; [exact Hrun|]. clear Hrun. unfold loaded in Hl. cbn [sg_paddr sg_memsz sg_filesz sg_off] in Hl.
      cbn [fmap list_fmap]. rewrite !Hl by lia. vm_compute. reflexivity.
Defined.
