(* ===== verification/Trap.v ===== *)
(** * Traps: [trap.c], the dispatch of [syscall.c] and the clock of
    [sysproc.c]

    [trap] is a tree of calls into the rest of the kernel.  [proc->killed] and
    [proc->state] can be changed by other processors at any time, so reading
    them is one of the calls.  [exit] does not come back. *)

From stdpp Require Import base gmap strings numbers list.
From S2P Require Import Prelude Prog State Vop Vfs Sysfile SysTree.

Inductive trapE : Type -> Type :=
| Killed : trapE bool                  (* proc->killed *)
| Running : trapE bool                 (* proc->state == RUNNING *)
| SetKilled : trapE unit               (* proc->killed = 1 *)
| Syscall : trapE unit                 (* proc->tf = tf; syscall() *)
| Exit : trapE unit
| Yield : trapE unit
| Wakeup : trapE unit                  (* wakeup(&ticks), with tickslock held *)
| Ideintr : trapE unit
| Kbdintr : trapE unit
| Uartintr : trapE unit
| Eoi : trapE unit                     (* lapiceoi() *)
| Message : trapE unit.                (* cprintf *)

(** The kernel memory here is [ticks]. *)
Abbreviation tprog R := (prog trapE Z R).
Definition call {X} (e : trapE X) : tprog X := Vis e Ret.

(** What [trap] looks at: [tf->trapno], [tf->cs], whether there is a current
    process, and [cpu->id] *)
Record tframe := mktf { tf_trapno : Z; tf_cs : Z; tf_proc : bool; tf_cpu : Z }.

Definition T_SYSCALL : Z := 64.
Definition T_IRQ0 : Z := 32.
Definition IRQ_TIMER : Z := 0.
Definition IRQ_KBD : Z := 1.
Definition IRQ_COM1 : Z := 4.
Definition IRQ_IDE0 : Z := 14.
Definition IRQ_IDE1 : Z := 15.
Definition IRQ_SPURIOUS : Z := 31.
Definition DPL_USER : Z := 3.

Definition user_mode (tf : tframe) : bool := Z.land (tf_cs tf) 3 =? DPL_USER.

Inductive after := Returned | Exited.

(** [if(proc && proc->killed && (tf->cs&3) == DPL_USER) exit();] then [k] *)
Definition exit_if_killed (tf : tframe) (k : tprog after) : tprog after :=
  if tf_proc tf then
    b <- call Killed;;
    if b && user_mode tf then call Exit;;; Ret Exited else k
  else k.

(** The [switch]. *)
Definition trap_switch (tf : tframe) : tprog unit :=
  let n := tf_trapno tf in
  if n =? T_IRQ0 + IRQ_TIMER then
    (if tf_cpu tf =? 0 then modify (fun ticks => u32 (ticks + 1));;; call Wakeup else Ret tt);;;
    call Eoi
  else if n =? T_IRQ0 + IRQ_IDE0 then call Ideintr;;; call Eoi
  else if n =? T_IRQ0 + IRQ_IDE1 then call Ideintr;;; call Eoi
  else if n =? T_IRQ0 + IRQ_KBD then call Kbdintr;;; call Eoi
  else if n =? T_IRQ0 + IRQ_COM1 then call Uartintr;;; call Eoi
  else if (n =? T_IRQ0 + 7) || (n =? T_IRQ0 + IRQ_SPURIOUS) then call Message;;; call Eoi
  else if negb (tf_proc tf) || (Z.land (tf_cs tf) 3 =? 0) then
    (* In kernel, it must be our mistake. *)
    call Message;;; panic "trap"
  else
    (* In user space, assume process misbehaved. *)
    call Message;;; call SetKilled.

Definition trap (tf : tframe) : tprog after :=
  if tf_trapno tf =? T_SYSCALL then
    b <- call Killed;;
    (if b : bool then call Exit;;; Ret Exited
     else
       call Syscall;;;
       b <- call Killed;;
       if b : bool then call Exit;;; Ret Exited else Ret Returned)
  else
    trap_switch tf;;;
    (* Force process exit if it has been killed and is in user space. *)
    exit_if_killed tf (
    (* Force process to give up CPU on clock tick. *)
    (if tf_proc tf then
       r <- call Running;;
       if r && (tf_trapno tf =? T_IRQ0 + IRQ_TIMER) then call Yield else Ret tt
     else Ret tt);;;
    (* Check if the process has been killed since we yielded *)
    exit_if_killed tf (Ret Returned)).

(** ** System calls *)

Section Dispatch.
(** The calls that are not the file system's: [fork], [exit], [wait], [kill],
    [exec], [getpid], [sbrk], [sleep], [uptime] and [halt] *)
Context `{!DevSw, !FatDir.Machine} (sys_proc : Z -> fsprog Z).

Definition syscalls (num : Z) : option (fsprog Z) :=
  if num =? 4 then Some sys_pipe else if num =? 5 then Some sys_read else if num =? 8 then Some sys_fstat
  else if num =? 9 then Some sys_chdir else if num =? 10 then Some sys_dup else if num =? 15 then Some sys_open
  else if num =? 16 then Some sys_write else if num =? 17 then Some sys_mknod else if num =? 18 then Some sys_unlink
  else if num =? 19 then Some sys_link else if num =? 20 then Some sys_mkdir else if num =? 21 then Some sys_close
  else if num =? 23 then Some sys_getcwd else if num =? 24 then Some sys_copy else if num =? 25 then Some sys_move
  else if num =? 26 then Some sys_remove else if num =? 27 then Some sys_rmdir else if num =? 28 then Some sys_touch
  else if num =? 29 then Some sys_find
  else if (0 <? num) && (num <? 30) then Some (sys_proc num)
  else None.

(** [proc->tf->eax] in, and out; the number is an [int]. *)
Definition syscall (eax : Z) : fsprog Z :=
  let num := s32 eax in
  if (0 <? num) && (num <? 30) then
    match syscalls num with
    | Some f => r <- f;; Ret (u32 r)
    | None => Ret (u32 (-1))
    end
  else Ret (u32 (-1)).
End Dispatch.

(** ** The clock *)

(** Reads of [ticks] and [proc->killed] under [tickslock], and [sleep] *)
Inductive clockE : Type -> Type :=
| Ticks : clockE Z
| SleepKilled : clockE bool
| Sleep : clockE unit.

(** The comparison is between [uint]s. *)
Definition sys_sleep (fuel : nat) (arg : option Z) : prog clockE unit Z :=
  match arg with
  | None => Ret (-1)
  | Some n =>
      ticks0 <- Vis Ticks Ret;;
      while_fuel fuel (fun _ : unit =>
        ticks <- Vis Ticks Ret;;
        if u32 (ticks - ticks0) <? u32 n then
          k <- Vis SleepKilled Ret;;
          if k : bool then Ret (inr (-1)) else Vis Sleep Ret;;; Ret (inl tt)
        else Ret (inr 0)) tt
  end.

Definition sys_uptime : prog clockE unit Z := xticks <- Vis Ticks Ret;; Ret (s32 xticks).

(** ** What happens in a trap *)

(** A call and, for the two reads, what it found. *)
Inductive event := ev (name : string) | ev_killed (b : bool) | ev_running (b : bool).

Definition event_of {X} (e : trapE X) : X -> event :=
  match e in trapE X return X -> event with
  | Killed => ev_killed
  | Running => ev_running
  | SetKilled => fun _ => ev "killed = 1"
  | Syscall => fun _ => ev "syscall"
  | Exit => fun _ => ev "exit"
  | Yield => fun _ => ev "yield"
  | Wakeup => fun _ => ev "wakeup"
  | Ideintr => fun _ => ev "ideintr"
  | Kbdintr => fun _ => ev "kbdintr"
  | Uartintr => fun _ => ev "uartintr"
  | Eoi => fun _ => ev "eoi"
  | Message => fun _ => ev "cprintf"
  end.

(** A run of the tree: the events in order, whatever the reads found, and how
    it ended; [ticks] before and after. *)
Fixpoint happens {R} (p : tprog R) (t : Z) (l : list event) (r : outcome R) (t' : Z) : Prop :=
  match p with
  | Ret x => l = [] /\ r = Ok x /\ t' = t
  | Stop e => l = [] /\ r = Fail e /\ t' = t
  | Get f => happens (f t) t l r t'
  | Put t1 p => happens p t1 l r t'
  | Vis e f => exists x l', l = event_of e x :: l' /\ happens (f x) t l' r t'
  end.

Lemma happens_bind {R S} (p : tprog R) (k : R -> tprog S) : forall t l r t', happens (x <- p;; k x) t l r t' ->
  (exists l1 l2 x t1, l = l1 ++ l2 /\ happens p t l1 (Ok x) t1 /\ happens (k x) t1 l2 r t') \/
  exists e, happens p t l (Fail e) t' /\ r = Fail e.
Proof.
  induction p as [x|e|f IH|t1 p IH|X e f IH]; intros t l r t' H; cbn [pbind happens] in *.
  - left. by exists [], l, x, t.
  - right. exists e. destruct H as (-> & -> & ->). done.
  - destruct (IH _ _ _ _ _ H) as [(l1 & l2 & x & t1 & H1)|(e & H1)]; [left; by exists l1, l2, x, t1|right; by exists e].
  - destruct (IH _ _ _ _ H) as [(l1 & l2 & x & t2 & H1)|(e & H1)]; [left; by exists l1, l2, x, t2|right; by exists e].
  - destruct H as (x & l' & -> & H). destruct (IH _ _ _ _ _ H) as [(l1 & l2 & y & t1 & -> & H1 & H2)|(e' & H1 & ->)].
    + left. exists (event_of e x :: l1), l2, y, t1. split; [done|]. split; [|done]. by exists x, l1.
    + right. exists e'. split; [|done]. by exists x, l'.
Qed.

(** The interrupts of devices, which the local APIC waits to be told about *)
Definition device_irq (n : Z) : bool := existsb (fun i => n =? T_IRQ0 + i) [IRQ_TIMER; IRQ_IDE0; IRQ_IDE1; IRQ_KBD; IRQ_COM1; 7; IRQ_SPURIOUS].

Ltac device_case s :=
  cbn; intros ([] & ? & -> & [] & ? & -> & -> & -> & ->); split; [by repeat constructor|]; split; [by exists [ev s]; repeat constructor|]; by split.

(** What the [switch] does: its events, and when it does not come back. *)
Lemma switch_events tf t l r t' : happens (trap_switch tf) t l r t' ->
  Forall (fun e => e <> ev "yield" /\ e <> ev "exit") l /\
  (if device_irq (tf_trapno tf)
   then exists l0, l = l0 ++ [ev "eoi"] /\ Forall (fun e => e <> ev "eoi") l0 /\ r = Ok tt
   else Forall (fun e => e <> ev "eoi") l) /\
  (forall e, r = Fail e -> e = Panic "trap" /\ (tf_proc tf = false \/ Z.land (tf_cs tf) 3 = 0)) /\
  t' = (if (tf_trapno tf =? T_IRQ0 + IRQ_TIMER) && (tf_cpu tf =? 0) then u32 (t + 1) else t).
Proof.
  unfold trap_switch, device_irq. cbn [existsb]. destruct (tf_trapno tf =? T_IRQ0 + IRQ_TIMER); cbn [orb andb].
  - destruct (tf_cpu tf =? 0); cbn; intros H.
    + destruct H as ([] & ? & -> & [] & ? & -> & -> & -> & ->). split; [by repeat constructor|]. split; [by exists [ev "wakeup"]; repeat constructor|]. by split.
    + destruct H as ([] & ? & -> & -> & -> & ->). split; [by repeat constructor|]. split; [by exists []|]. by split.
  - destruct (tf_trapno tf =? T_IRQ0 + IRQ_IDE0); cbn [orb].
    { device_case "ideintr"%string. }
    destruct (tf_trapno tf =? T_IRQ0 + IRQ_IDE1); cbn [orb].
    { device_case "ideintr"%string. }
    destruct (tf_trapno tf =? T_IRQ0 + IRQ_KBD); cbn [orb].
    { device_case "kbdintr"%string. }
    destruct (tf_trapno tf =? T_IRQ0 + IRQ_COM1); cbn [orb].
    { device_case "uartintr"%string. }
    rewrite orb_false_r. destruct ((tf_trapno tf =? T_IRQ0 + 7) || (tf_trapno tf =? T_IRQ0 + IRQ_SPURIOUS)).
    { device_case "cprintf"%string. }
    destruct (negb (tf_proc tf) || (Z.land (tf_cs tf) 3 =? 0)) eqn:Hk; cbn.
    + intros ([] & ? & -> & -> & -> & ->). split; [by repeat constructor|]. split; [by repeat constructor|]. split; [|done]. intros e [= <-]. split; [done|].
      apply orb_prop in Hk as [Hk|Hk]; [left; by destruct (tf_proc tf)|right; by apply Z.eqb_eq].
    + intros ([] & ? & -> & [] & ? & -> & -> & -> & ->). split; [by repeat constructor|]. split; [by repeat constructor|]. by split.
Qed.

(** The answer of the last read of [proc->killed] *)
Fixpoint last_killed (l : list event) : option bool :=
  match l with
  | [] => None
  | ev_killed b :: l => match last_killed l with Some b' => Some b' | None => Some b end
  | _ :: l => last_killed l
  end.

Lemma last_killed_snoc l l' b : last_killed l' = None -> last_killed (l ++ ev_killed b :: l') = Some b.
Proof.
  intros Hl. induction l as [|e l IH]; cbn [app last_killed]; [by rewrite Hl|]. destruct e; try done. by rewrite IH.
Qed.

(** How the events of a trap end *)
Definition trap_end (tf : tframe) (l : list event) (r : outcome after) : Prop :=
  match r with
  | Ok Returned => ev "exit" ∉ l /\ ((tf_trapno tf =? T_SYSCALL) || tf_proc tf && user_mode tf = true -> last_killed l = Some false)
  | Ok Exited => exists l0, l = l0 ++ [ev_killed true; ev "exit"] /\ ev "exit" ∉ l0
  | Fail e => e = Panic "trap" /\ tf_trapno tf <> T_SYSCALL /\ device_irq (tf_trapno tf) = false /\ (tf_proc tf = false \/ Z.land (tf_cs tf) 3 = 0)
  end.

Lemma exit_if_killed_ends tf k t l r t' : happens (exit_if_killed tf k) t l r t' ->
  (tf_proc tf = true /\ user_mode tf = true /\ l = [ev_killed true; ev "exit"] /\ r = Ok Exited /\ t' = t) \/
  exists l', happens k t l' r t' /\ (if tf_proc tf then exists b, l = ev_killed b :: l' /\ b && user_mode tf = false else l = l').
Proof.
  unfold exit_if_killed. destruct (tf_proc tf); [|right; by exists l]. cbn [pbind happens call]. intros (b & l' & -> & H). destruct (b && user_mode tf) eqn:Hb.
  - left. destruct H as ([] & ? & -> & -> & -> & ->). apply andb_prop in Hb as [-> ->]. done.
  - right. exists l'. split; [done|]. by exists b.
Qed.

(** Everything after the [switch] *)
Definition trap_tail (tf : tframe) : tprog after :=
  exit_if_killed tf (
    (if tf_proc tf then
       r <- call Running;;
       if r && (tf_trapno tf =? T_IRQ0 + IRQ_TIMER) then call Yield else Ret tt
     else Ret tt);;;
    exit_if_killed tf (Ret Returned)).

Lemma tail_ends tf t l r t' : happens (trap_tail tf) t l r t' ->
  t' = t /\ ev "eoi" ∉ l /\ (ev "yield" ∈ l -> tf_trapno tf = T_IRQ0 + IRQ_TIMER) /\
  match r with
  | Ok Returned => ev "exit" ∉ l /\ (tf_proc tf && user_mode tf = true -> exists l0, l = l0 ++ [ev_killed false])
  | Ok Exited => exists l0, l = l0 ++ [ev_killed true; ev "exit"] /\ ev "exit" ∉ l0
  | Fail _ => False
  end.
Proof.
  unfold trap_tail. intros H. apply exit_if_killed_ends in H as [(Hp & Hu & -> & -> & ->)|(l1 & H & Hl)].
  { split; [done|]. split; [set_solver|]. split; [set_solver|]. exists []. split; [done|set_solver]. }
  assert (exists l2 l3, l1 = l2 ++ l3 /\ (l2 = [] \/ (exists b, l2 = [ev_running b]) \/ (exists b, l2 = [ev_running b; ev "yield"] /\ tf_trapno tf = T_IRQ0 + IRQ_TIMER)) /\
    happens (exit_if_killed tf (Ret Returned)) t l3 r t') as (l2 & l3 & -> & Hl2 & H3).
  { destruct (tf_proc tf); [|exists [], l1; split; [done|]; split; [by left|exact H]]. cbn [pbind happens call] in H. destruct H as (b & l' & -> & H).
    destruct (b && (tf_trapno tf =? T_IRQ0 + IRQ_TIMER)) eqn:Hb; cbn [pbind happens call] in H.
    - destruct H as ([] & l'' & -> & H). exists [ev_running b; ev "yield"], l''. split; [done|]. split; [|exact H]. right. right. exists b. split; [done|].
      apply andb_prop in Hb as [_ Hb]. by apply Z.eqb_eq.
    - exists [ev_running b], l'. split; [done|]. split; [|exact H]. right. left. by exists b. }
  apply exit_if_killed_ends in H3 as [(Hp & Hu & -> & -> & ->)|(l4 & (-> & -> & ->) & Hl4)].
  - rewrite Hp in Hl. destruct Hl as (b & -> & Hb). rewrite Hu, andb_true_r in Hb. subst b. split; [done|].
    destruct Hl2 as [-> | [[b ->] | [b [-> Ht]]]]; (split; [set_solver|]; split; [set_solver|]).
    + exists [ev_killed false]. split; [done|set_solver].
    + exists [ev_killed false; ev_running b]. split; [done|set_solver].
    + exists [ev_killed false; ev_running b; ev "yield"]. split; [done|set_solver].
  - split; [done|]. destruct (tf_proc tf) eqn:Hp.
    + destruct Hl as (b & -> & Hb), Hl4 as (b' & -> & Hb'). destruct Hl2 as [-> | [[c ->] | [c [-> Ht]]]]; (split; [set_solver|]; split; [set_solver|]; split; [set_solver|]); cbn [andb]; intros Hu;
        rewrite Hu, andb_true_r in Hb'; subst b'; [by exists [ev_killed b]|by exists [ev_killed b; ev_running c]|by exists [ev_killed b; ev_running c; ev "yield"]].
    + subst. destruct Hl2 as [-> | [[c ->] | [c [-> Ht]]]]; (split; [set_solver|]; split; [set_solver|]; split; [set_solver|]); done.
Qed.

(** C26: how a trap ends, whatever other processors do to the process
    meanwhile.  It returns to a process in user mode, or from a system call,
    only after a last look at [proc->killed] that found it clear, and
    otherwise ends that process with [exit] right after finding it set; it
    panics only for a fault of the kernel itself.  A device interrupt is
    acknowledged exactly once, before the processor is given up, which
    happens on a clock tick only; and the clock advances by one, modulo
    2^32, on the timer interrupts of processor 0 and not otherwise. *)
Theorem trap_ends (tf : tframe) (t t' : Z) (l : list event) (r : outcome after) :
  happens (trap tf) t l r t' ->
  trap_end tf l r /\
  (device_irq (tf_trapno tf) = true -> exists l1 l2, l = l1 ++ ev "eoi" :: l2 /\ ev "eoi" ∉ l1 ++ l2 /\ ev "yield" ∉ l1) /\
  (ev "yield" ∈ l -> tf_trapno tf = T_IRQ0 + IRQ_TIMER) /\
  t' = (if (tf_trapno tf =? T_IRQ0 + IRQ_TIMER) && (tf_cpu tf =? 0) then u32 (t + 1) else t).
Proof.
  unfold trap. destruct (Z.eqb_spec (tf_trapno tf) T_SYSCALL) as [Hs|Hs].
  - cbn [pbind happens call]. intros (b & l1 & -> & H). unfold trap_end. rewrite Hs. change (device_irq T_SYSCALL) with false.
    change (T_SYSCALL =? T_IRQ0 + IRQ_TIMER) with false. cbn [andb]. destruct b.
    + destruct H as ([] & ? & -> & -> & -> & ->). split; [exists []; split; [done|set_solver]|]. split; [done|]. split; [set_solver|done].
    + destruct H as ([] & l2 & -> & b & l3 & -> & H). destruct b.
      * destruct H as ([] & ? & -> & -> & -> & ->). split; [exists [ev_killed false; ev "syscall"]; split; [done|set_solver]|]. split; [done|]. split; [set_solver|done].
      * destruct H as (-> & -> & ->). split; [split; [set_solver|done]|]. split; [done|]. split; [set_solver|done].
  - intros H. apply happens_bind in H as [(l1 & l2 & [] & t1 & -> & H1 & H2)|(e & H1 & ->)]; apply switch_events in H1 as (Hny & Hirq & Hf & Ht).
    + apply (tail_ends tf) in H2 as (-> & Hne & Hy & Hend). rewrite Forall_forall in Hny.
      assert (ev "yield" ∉ l1 /\ ev "exit" ∉ l1) as [Hy1 Hx1] by (split; intros Hin; by destruct (Hny _ Hin)).
      split; [|split; [|split; [|done]]].
      * unfold trap_end. destruct r as [[|]|e]; [| |done].
        -- destruct Hend as [Hx Hk]. split; [set_solver|]. rewrite (proj2 (Z.eqb_neq _ _) Hs). cbn [orb]. intros Hu. destruct (Hk Hu) as [l0 ->].
           rewrite app_assoc. by apply last_killed_snoc.
        -- destruct Hend as (l0 & -> & Hx). exists (l1 ++ l0). rewrite app_assoc. split; [done|set_solver].
      * intros Hd. rewrite Hd in Hirq. destruct Hirq as (l0 & -> & Hl0 & _). rewrite Forall_forall in Hl0. exists l0, l2. rewrite <- app_assoc. split; [done|].
        split; [|set_solver]. rewrite elem_of_app. intros [Hin|Hin]; [by apply (Hl0 _ Hin)|done].
      * rewrite elem_of_app. intros [Hin|Hin]; [done|by apply Hy].
    + destruct (Hf e eq_refl) as [-> Hk]. rewrite Forall_forall in Hny. destruct (device_irq (tf_trapno tf)) eqn:Hd.
      { destruct Hirq as (l0 & _ & _ & [=]). }
      split; [unfold trap_end; rewrite Hd; by split_and!|]. split; [done|]. split; [|done]. intros Hin. by destruct (Hny _ Hin).
Qed.

Lemma trap_ends_witness :
  let tf := mktf 32 0x1B true 0 in
  let l := [ev "wakeup"; ev "eoi"; ev_killed false; ev_running true; ev "yield"; ev_killed false] in
  happens (trap tf) 4294967295 l (Ok Returned) 0 /\ last_killed l = Some false.
Proof.
  intros tf l. assert (happens (trap tf) 4294967295 l (Ok Returned) 0) as H.
  { cbn. exists tt. eexists. split; [done|]. exists tt. eexists. split; [done|]. exists false. eexists. split; [done|]. exists true. eexists. split; [done|].
    exists tt. eexists. split; [done|]. exists false. eexists. split; [done|]. done. }
  split; [exact H|]. destruct (trap_ends tf 4294967295 0 l (Ok Returned) H) as [[_ Hk] _]. by apply Hk.
Defined.

(** A system call number that is not one gets -1 and nothing else happens. *)
Lemma syscall_unknown `{!DevSw, !FatDir.Machine} {B} `{Store fsE B} sys_proc eax k b : ~ 0 < s32 eax < 30 -> run (syscall sys_proc eax) k b = Ok (4294967295, k, b).
Proof.
  intros Hn. unfold syscall. assert ((0 <? s32 eax) && (s32 eax <? 30) = false) as -> by lia. done.
Qed.
